(* ===== verification/_CoqProject ===== *)
-Q . S2P
Prelude.v
GoLib.v
GoStrings.v
NetAddr.v
Regexp.v
OAuthBearer.v
OAuthFacts.v
Encoder.v
Decoder.v
Errors.v
Schema.v
SchemaFacts.v
Messages.v
Net.v
Filters.v
SaslLocal.v
Responses.v
ResponsesFacts.v
ResponseTheorems.v
MessageTheorems.v
Auth.v
SaslFacts.v
SaslTheorems.v
Processor.v
ProcessorFacts.v
ProcessorTheorems.v
Loops.v
LoopTheorems.v
Listeners.v
ListenerTheorems.v
SaslProxy.v
SaslProxyFacts.v
Config.v
Gssapi.v
SaslProxyTheorems.v
LoopPanics.v
ConnSet.v
Client.v
ClientTheorems.v
Kbin.v
Records.v
Encryption.v
EncryptionTheorems.v
Kmsg.v
Base64.v
EncryptionPlugins.v
EncryptionProxy.v
Utf8.v
Subject.v
SubjectFacts.v
SubjectTheorems.v
ClientCert.v
ClientCertTheorems.v
LdapAuth.v
LdapAuthTheorems.v
TokenInfo.v
TokenInfoTheorems.v
TokenProvider.v
TokenProviderTheorems.v
Tls.v
TlsTheorems.v
Registry.v
Jaas.v
Server.v
ServerTheorems.v
Dial.v
DialTheorems.v
JaasTheorems.v
Stubs.v
NetUrl.v
Iam.v
Watcher.v
TokenSources.v
OidcTokens.v
TokenSourcesTheorems.v
GoogleKeys.v
ClientRun.v
GoFlag.v
PluginMains.v
Flags.v
