(* ===== verification/Prelude.v ===== *)
(** * K-Filtra: a verification of the Kafka proxy in Rocq

    K-Filtra sits between Kafka clients and brokers.  Per client connection it
    dials a broker and runs two loops: the request loop reads requests,
    authenticates the client if asked to, refuses forbidden requests, passes
    the payload through filter plugins and forwards it; the response loop pairs
    every broker reply with the request it answers, rewrites the broker
    addresses in metadata and find-coordinator responses to the proxy's own
    listeners, passes the payload through the filters in reverse order and
    forwards it.  Around that path are the start-up from flags and files, the
    listeners, the dialers, the authentication of the proxy to brokers and of
    clients to the proxy, and plugins for encryption, LDAP and tokens.  This
    library models all of it from the bytes up.

    ** The files

    The base:
    - [Prelude]: byte strings, lengths, Go results ([res]: value, error, panic)
      and methods on a receiver ([M S A]: state kept on every outcome), tactics.
    - [GoLib], [GoStrings], [Utf8], [Base64], [Regexp], [NetAddr], [NetUrl],
      [GoFlag]: the parts of Go's language and standard library the source uses:
      integers at their width, big-endian integers, varints and [make]; strings;
      runes; base 64; a backtracking matcher of regular expressions with its
      language; decimal integers, [JoinHostPort] and [SplitHostPort] (with
      pkg/libs/util/net.go); queries of URLs; package flag.

    The Kafka protocol (proxy/protocol):
    - [Encoder], [Decoder] (packet_encoder.go, prep_encoder.go, real_encoder.go,
      real_decoder.go, encoder_decoder.go): the two encoders behind one
      interface, the two passes of [Encode], the getters, [Decode];
      [emits e r] and [decodes d bs a] are the specifications the other files
      compose.
    - [Errors] (errors.go): the Kafka error codes and texts.
    - [Schema], [SchemaFacts] (schema.go): the schema language, dynamic values,
      [DecodeSchema], [EncodeSchema], [Struct.Get/Replace].
    - [Messages], [MessageTheorems] (request_key_version.go,
      response_header*.go, request_v*.go, tagged_fields.go, sasl_*.go): the
      messages the proxy reads and writes itself; the interface [ProtocolBody]
      and its laws [ProtocolBodyLaws], against which requests are proved.
    - [Responses], [ResponsesFacts], [ResponseTheorems] (responses.go): the
      response schemas of every version, the modify functions, [Apply].

    A connection (proxy):
    - [Net]: connections as byte streams, the stream readers of
      response_header.go and request_produce_reader.go.
    - [Filters] (filter_chain.go): the filter chain.
    - [SaslLocal], [Auth], [OAuthBearer], [OAuthFacts],
      [SaslFacts], [SaslTheorems] (sasl_local*.go, auth.go, sasl_oauthbearer.go):
      SASL of the clients by the proxy, the gateway handshake of two proxies,
      the initial response of OAUTHBEARER.
    - [Processor], [ProcessorFacts], [ProcessorTheorems]
      (processor*.go, [myCopyN] of common.go): the request and response handlers
      over a [world] of two connections, three channels and the plugins' state,
      written as stages cut at the channel operations.
    - [Loops], [LoopTheorems], [LoopPanics] ([copyThenClose] of common.go): the
      two loops as a step relation that interleaves the stages, its invariants,
      a scheduler; what a recovered panic leaves, and a client that causes one.

    To the brokers (proxy):
    - [SaslProxy], [SaslProxyFacts], [Gssapi], [SaslProxyTheorems]
      (sasl_by_proxy.go, sasl_scram.go, sasl_gssapi.go, sasl_aws_msk_iam.go): the
      SASL clients; the SCRAM, Kerberos and AWS libraries are parameters.
    - [Iam] (iam.go): the token of AWS MSK IAM.
    - [ConnSet] (common.go), [Client], [ClientTheorems] (client.go): the set of
      connections as a multiset, [NewClient], [DialAndAuth], [handleConn] and a
      running client as a step relation.
    - [ClientRun] ([Run] and [Close] of client.go, collector.go): the same connections from the first to the shutdown, with
      their counter and gauge.
    - [Dial], [DialTheorems] (dial.go): the four dialers and their sockets.

    To the clients (proxy):
    - [Listeners], [ListenerTheorems] (proxy.go,
      proxy_config.go): the listeners and the address mapping the response path
      calls, and the turns of the accept loops.  Configurations are shared
      between the map of the brokers and the accept loops, so they live in a
      store; listening on a port, accepting, closing and rendering the advertised
      host are parameters.
    - [Subject], [SubjectFacts], [SubjectTheorems], [ClientCert],
      [ClientCertTheorems] (clientcertvalidate, tls_client_cert_validate.go): the
      parser of required client subjects, and the check of certificates, which
      live in a store because comparing sorts their values.
    - [Tls], [TlsTheorems] (tls.go, the SNI listener of proxy.go with the turn of
      its accept loop).

    Start-up:
    - [Config] (config/config.go), [Jaas], [JaasTheorems]
      (config/jaas.go), [Registry] (pkg/registry): mappings, [Validate],
      credentials, plugins.
    - [Server], [ServerTheorems] (cmd/kafka-proxy/server.go, [NewFilterChain]):
      [PreRunE], and [Run] up to the point where it serves.
    - [Flags] ([initFlags] of the same file): the flags with
      their variables and defaults, and the configuration they make.

    Plugins:
    - [Kbin], [Records], [Kmsg] (the kmsg library that the plugins
      vendor, as far as they use it): primitives, records, record batches,
      produce requests and fetch responses.
    - [Encryption], [EncryptionTheorems], [EncryptionPlugins],
      [EncryptionProxy] (plugin/vault-encryption, plugin/gcp-kms-encryption): the
      record level, the two filters over an interface of key management, and the
      filters behind the proxy's chain.
    - [LdapAuth], [LdapAuthTheorems] (cmd/plugin-auth-ldap, cmd/plugin-auth-user),
      [TokenInfo], [TokenInfoTheorems] (pkg/libs/googleid, oidc, googleid-info,
      cmd/plugin-unsecured-jwt-info), [TokenProvider], [TokenProviderTheorems]
      (pkg/libs/oidc-provider, googleid-provider).
    - [TokenSources] (with Google's sources), [OidcTokens],
      [TokenSourcesTheorems] (the same packages, pkg/libs/oidc and googleid):
      refreshers, the sources of tokens, the construction of the providers and
      the reloading of their credentials, for which [Watcher] (pkg/libs/util)
      watches a file; [GoogleKeys] (googleid-info): the keys of the verifier.
    - [PluginMains] (cmd/plugin-..., the factories of pkg/libs): flags, and what
      is served for them.
    - [Stubs] (plugin/.../shared, pkg/filter): the two sides of a
      plugin process over gRPC and net/rpc, against the class [Transport] of what
      carries their calls.

    ** State and its correspondence

    A connection ([Net.conn]) is the bytes still to come with the error after
    them, and the bytes sent with a point where writes start to fail, so a run
    is a function of what the peer sends.  A deadline that expires is a stream
    that ends with a timeout error; a timer on a channel that fires is the
    channel operation failing, one that does not fire is the stage scheduled
    later.  [Processor.world] holds the two connections, the channels
    [openRequestsChannel], [nextRequestHandlerChannel],
    [nextResponseHandlerChannel] as queues with the capacities of
    [newProcessor], [localSaslDone], the named result [readErr], and [ext], the
    state of what is outside the program (filter, password and token plugins
    and the address mapping).  [Loops.sys] adds the program counters of the two
    goroutines and history: which replies the proxy is committed to, which it
    treated, which requests it sent.  [Client.running] is the connection set with
    the connections being copied; [Listeners.state] the listeners, which accept
    loops run and which have ended after a failed [Accept], with the operating
    system; [TokenProvider.provider] the token that calls and the
    refresher share.  [Server.Run] builds the listeners' state and a client over
    it, which is the [ext] of every connection.

    ** What is shown

    - Codecs: [EncodeSchema] and [DecodeSchema] are inverse, decoded structs are
      typed, the two passes of the encoder agree; the requests, responses and
      headers the proxy writes are read back; header versions are the Kafka
      table and agree with the schemas.
    - Rewriting: [Apply] decodes, rewrites every broker address through the
      mapping and encodes, on every input with errors and panics; nothing else
      changes; the one panic of the path is located and shown reachable
      ([DecodeSchema_huge_count_panics]).
    - Handlers: what is forwarded, through any filters and byte for byte without
      them, what is refused, exactly where the streams stand afterwards; the
      stages composed are the handlers.
    - Loops, under every interleaving: replies are treated in the order of the
      requests sent, with the handler of their kind; only admitted requests are
      sent; the one-slot handler channel suffices; after a close both loops
      stop, while a recovered panic closes nothing, and a client without any
      credentials can cause one (a finding).
    - Authentication of clients: no path around the configured authenticators,
      which accepted the very credentials of the client's bytes, or around the
      gateway handshake; the raw SASL exchange copies what it should, and its
      size limit is bypassed from 2^31 on (a finding).
    - Authentication to brokers: the PLAIN and OAUTHBEARER clients agree with the
      proxy's own servers, SCRAM succeeds exactly on a complete dialogue, GSSAPI
      only with a verified token; a broker connection that is used is the one
      dialed for its client, as the exchanges that are enabled left it when they
      succeeded, and it is closed on every error of dialing or authenticating.
    - Connections: the set refines a multiset and tracks what is copied, except
      that a panicked connection stays in it (a finding).
    - Listeners: the map of the brokers stays consistent through every call,
      every rewritten response and every turn of an accept loop; a loop runs
      until its [Accept] fails, and then stays mapped (a finding); an address given to a client leads to the broker
      it stands for, behind the SNI listener too; brokers keep their addresses,
      and with deterministic listeners also when they move; ports stay in their
      interval.
    - Client certificates: the subjects accepted are those of a grammar; which
      handshakes they admit, when that depends on the order of a map (a finding),
      and that the parser always ends; the same-client-certificate check comes
      before any dial.
    - Start-up: mappings are read back from their flags; [Validate] is idempotent
      and what it accepts is fit for [NewClient]; JAAS files are read line by
      line; plugins that load make a client;
      what [Run] builds is a state the listener properties hold of; which filters
      and which flags are silently left out (findings).
    - Encryption: decrypting restores what was encrypted, with empty values null;
      the output is a consistent sequence of batches; on which values decrypting
      panics; behind the proxy the filters see headers they take for bodies and
      block or cut the traffic (findings), but for bodies crafted to be long.
    - Metrics: in every state the counter and the gauge of a broker account for
      its connections; a shutdown misses those being dialed (a finding).
    - Flags: no two share a name or a variable, and the defaults with one mapping
      of bootstrap servers pass validation.
    - LDAP and tokens: on which user names the LDAP plugin panics, and that
      without a search the others are bound below the configured entry or at the
      configured domain; exactly which Google tokens are admitted, and that their
      keys are always those of one list that was fetched; token
      providers have a token when they are created and answer with good tokens
      under every interleaving; new credentials reach one of the two providers
      (a finding).
    - Plugin processes: an answer is the implementation's; which clients turn a
      failed call into a panic (a finding).  The watcher runs its action after
      every event of a file, and behind a link for some of them only (a finding).
      The AWS token carries the signature.

    ** Bounds and fuel

    [ReadUvarint] has the ten iterations of [binary.ReadUvarint].  The loop of
    [MaybeRead] runs on one more than the bytes left, each iteration takes at
    least two ([MaybeRead_total]: it never runs out).  [myCopyN] runs on one
    more than the bytes left, each iteration but the last takes one
    ([myCopyN_spec]).  [requestsLoop n] and [responsesLoop n] are [n] iterations
    of loops that end only with an error; the unbounded executions are
    [Loops.reachable].  [Watcher.wait_loop] is a number of polls of a loop that
    ends only when the file is back: the theorems are about any number that
    suffices, and more make no difference ([wait_loop_more]); the loops of tickers
    and watchers run on what their [select] takes.
    A repetition of a pattern runs on one more than the bytes
    left, each round takes one ([star_fuel], [lazy_fuel]); searches for all
    matches likewise.  [scramLoop] runs on one more than the bytes to come, and
    more makes no difference ([scram_is_a_dialogue]); the batch and record loops
    on the length of the input, of which each iteration takes a part.  The
    subject parser runs on one more than [maxPos] and never ends by fuel
    ([Parse_terminates]); the escaping of LDAP names on one more than the length.
    [make] panics above 2^48 bytes, the allocation limit of the runtime on
    64-bit machines, and negative lengths.

    ** Not modelled

    Logging, and the counters of requests, bytes and local authentications;
    memory and time (a clock is an argument where the code reads it); the TLS
    protocol, sockets and their options; signals, the run group and the HTTP
    endpoints, which only call libraries; the test proxies of cmd/tools, the
    mains that only call a factory, and generated code.  The accessors of
    schemas ([GetName] and the like) are projections of the model's types, and
    the copies that gcp-kms-encryption has of the helpers of vault-encryption are
    modelled once.  Of the vendored kmsg library only the messages the encryption
    plugins use are modelled.  What the code relies on of those is a parameter. *)
From Stdlib Require Import ZArith Lia Strings.Byte.
From stdpp Require Import base list strings gmap.

Declare Scope go_scope.
Delimit Scope go_scope with go.

(** ** Bytes and byte strings

    A Go [string] and a Go [[]byte] are both a list of bytes; where the code
    distinguishes a nil slice from an empty one the model uses
    [option bytes]. *)

Abbreviation bytes := (list byte).

Definition byteZ (b : byte) : Z := Z.of_N (Byte.to_N b).
Definition Zbyte (z : Z) : byte :=
  match Byte.of_N (Z.to_N (z mod 256)) with Some b => b | None => x00 end.
Definition len {A} (l : list A) : Z := Z.of_nat (length l).
#[global] Arguments len {A} l : simpl never.

(** A string literal of the source as its bytes. *)
Notation "$ s" := (String.list_byte_of_string s%string)
  (at level 1, s at level 0, format "$ s") : go_scope.
#[global] Open Scope Z_scope.
#[global] Open Scope go_scope.

#[export] Instance byte_eq_dec : EqDecision byte := Byte.byte_eq_dec.
#[export] Program Instance byte_countable : Countable byte :=
  inj_countable (fun b => Byte.to_N b) Byte.of_N _.
Next Obligation. intros b. apply Byte.of_to_N. Qed.

Lemma byteZ_range b : 0 <= byteZ b < 256.
Proof. unfold byteZ. pose proof (Byte.to_N_bounded b). lia. Qed.

Lemma Zbyte_byteZ b : Zbyte (byteZ b) = b.
Proof.
  unfold Zbyte. rewrite Z.mod_small by apply byteZ_range.
  unfold byteZ. by rewrite N2Z.id, Byte.of_to_N.
Qed.

Lemma byteZ_Zbyte z : byteZ (Zbyte z) = z mod 256.
Proof.
  unfold Zbyte, byteZ. pose proof (Z.mod_pos_bound z 256 ltac:(lia)).
  destruct (Byte.of_N (Z.to_N (z mod 256))) as [b|] eqn:E.
  - apply Byte.to_of_N in E. rewrite E. lia.
  - apply Byte.of_N_None_iff in E. lia.
Qed.

Lemma Zbyte_mod z : Zbyte (z mod 256) = Zbyte z.
Proof. unfold Zbyte. by rewrite Z.mod_mod. Qed.

(** ** Lengths *)

Lemma len_nonneg {A} (l : list A) : 0 <= len l.
Proof. unfold len. lia. Qed.

Lemma len_nil {A} : len (@nil A) = 0.
Proof. done. Qed.

Lemma len_cons {A} (x : A) l : len (x :: l) = 1 + len l.
Proof. unfold len. simpl. lia. Qed.

Lemma len_app {A} (l k : list A) : len (l ++ k) = len l + len k.
Proof. unfold len. rewrite length_app. lia. Qed.

Lemma len_take {A} (n : nat) (l : list A) : (n <= length l)%nat -> len (take n l) = Z.of_nat n.
Proof. unfold len. rewrite length_take. lia. Qed.

Lemma len_drop {A} (n : nat) (l : list A) : (n <= length l)%nat -> len (drop n l) = len l - Z.of_nat n.
Proof. unfold len. rewrite length_drop. lia. Qed.

Lemma len_fmap {A B} (f : A -> B) (l : list A) : len (f <$> l) = len l.
Proof. unfold len. by rewrite length_fmap. Qed.

Lemma to_nat_len {A} (l : list A) : Z.to_nat (len l) = length l.
Proof. unfold len. lia. Qed.

Create Rewrite HintDb len.
#[export] Hint Rewrite @len_nil @len_cons @len_app @len_fmap @to_nat_len : len.

(** Adds [0 <= len l] for every [len l] in sight, then calls [lia]. *)
Ltac len_facts :=
  repeat match goal with
  | |- context [len ?l] =>
      lazymatch goal with
      | _ : 0 <= len l |- _ => fail
      | _ => pose proof (len_nonneg l)
      end
  | _ : context [len ?l] |- _ =>
      lazymatch goal with
      | _ : 0 <= len l |- _ => fail
      | _ => pose proof (len_nonneg l)
      end
  end.
Ltac len_lia := autorewrite with len in *; len_facts; lia.

(** ** Go results

    A call returns normally, returns a non-nil [error], or panics. *)

Inductive error :=
  | ErrInsufficientData
  | PacketEncodingError (info : string)
  | PacketDecodingError (info : string)
  | SchemaEncodingError (info : string)
  | SchemaDecodingError (info : string)
  | EOF
  | ErrUnexpectedEOF
  | ErrClosed
  | Errorf (format : string)
  | Wrapf (cause : error) (format : string)
  | errLocalAuthFailed (user : bytes)
  | KafkaError (code : Z)
  | ExternalError (msg : bytes).

#[export] Instance error_eq_dec : EqDecision error.
Proof. solve_decision. Defined.

Inductive res (A : Type) :=
  | Ok (a : A)
  | Err (e : error)
  | Panic (why : string).
Arguments Ok {A} a.
Arguments Err {A} e.
Arguments Panic {A} why.

Definition rbind {A B} (r : res A) (k : A -> res B) : res B :=
  match r with Ok a => k a | Err e => Err e | Panic w => Panic w end.
Definition rmap {A B} (f : A -> B) (r : res A) : res B :=
  match r with Ok a => Ok (f a) | Err e => Err e | Panic w => Panic w end.

Notation "'let?' x ':=' r 'in' k" := (rbind r (fun x => k))
  (at level 10, x pattern, r at level 100, k at level 200) : go_scope.
Notation "'do?' r 'in' k" := (rbind r (fun _ => k))
  (at level 10, r at level 100, k at level 200) : go_scope.

(** ** Methods with a receiver

    [M S A] is a method on a receiver (or context) of type [S]: the state is
    kept on every outcome, as Go keeps the mutations made before an error. *)

Definition M (S A : Type) : Type := S -> res A * S.

Definition ret {S A} (a : A) : M S A := fun s => (Ok a, s).
Definition fail {S A} (e : error) : M S A := fun s => (Err e, s).
Definition panic {S A} (w : string) : M S A := fun s => (Panic w, s).
Definition bind {S A B} (m : M S A) (k : A -> M S B) : M S B :=
  fun s => match m s with
           | (Ok a, s') => k a s'
           | (Err e, s') => (Err e, s')
           | (Panic w, s') => (Panic w, s')
           end.
Definition lift {S A} (r : res A) : M S A := fun s => (r, s).
Definition get {S} : M S S := fun s => (Ok s, s).
Definition modify {S} (f : S -> S) : M S unit := fun s => (Ok tt, f s).

(** [if err != nil { return errors.Wrapf(err, ...) }] *)
Definition wrapf {S A} (m : M S A) (format : string) : M S A :=
  fun s => match m s with
           | (Err e, s') => (Err (Wrapf e format), s')
           | r => r
           end.

Notation "'let*' x ':=' m 'in' k" := (bind m (fun x => k))
  (at level 10, x pattern, m at level 100, k at level 200) : go_scope.
Notation "'do*' m 'in' k" := (bind m (fun _ => k))
  (at level 10, m at level 100, k at level 200) : go_scope.

Lemma bind_Ok {S A B} (m : M S A) (k : A -> M S B) s s' a :
  m s = (Ok a, s') -> bind m k s = k a s'.
Proof. unfold bind. by intros ->. Qed.

Lemma bind_Err {S A B} (m : M S A) (k : A -> M S B) s s' e :
  m s = (Err e, s') -> bind m k s = (Err e, s').
Proof. unfold bind. by intros ->. Qed.

Lemma bind_assoc {S A B C} (m : M S A) (k : A -> M S B) (h : B -> M S C) s :
  bind (bind m k) h s = bind m (fun a => bind (k a) h) s.
Proof. unfold bind. by destruct (m s) as [[]]. Qed.

Lemma bind_inv {S A B} (m : M S A) (k : A -> M S B) s b s' :
  bind m k s = (Ok b, s') -> exists a s1, m s = (Ok a, s1) /\ k a s1 = (Ok b, s').
Proof. unfold bind. destruct (m s) as [[a|e|w] s1]; intros; simplify_eq. eauto. Qed.

Lemma lift_inv {S A} (r : res A) (s : S) a s' : lift r s = (Ok a, s') -> r = Ok a /\ s' = s.
Proof. unfold lift. by intros [= -> ->]. Qed.

Lemma wrapf_Ok {S A} (m : M S A) format s a s' : wrapf m format s = (Ok a, s') -> m s = (Ok a, s').
Proof. unfold wrapf. by destruct (m s) as [[] ?]; intros; simplify_eq. Qed.

Lemma wrapf_run {S A} (m : M S A) format s a s' : m s = (Ok a, s') -> wrapf m format s = (Ok a, s').
Proof. unfold wrapf. by intros ->. Qed.

(** Splits a successful run of a method into the runs of its parts. *)
Ltac run_inv :=
  repeat match goal with
  | H : bind _ _ _ = (Ok _, _) |- _ =>
      let a := fresh "a" in let s := fresh "s" in let H1 := fresh "R" in
      apply bind_inv in H as (a & s & H1 & H)
  | H : ret _ _ = _ |- _ => unfold ret in H; simplify_eq
  | H : (Ok _, _) = (Ok _, _) |- _ => simplify_eq
  end.

(** A property of every state a method can end in, whatever its outcome. *)
Definition preserves {S A} (P : S -> Prop) (m : M S A) : Prop :=
  forall s, P s -> P (snd (m s)).

Lemma preserves_bind {S A B} (P : S -> Prop) (m : M S A) (k : A -> M S B) :
  preserves P m -> (forall a, preserves P (k a)) -> preserves P (bind m k).
Proof.
  intros Hm Hk s Hs. unfold bind. specialize (Hm s Hs).
  destruct (m s) as [[a|e|w] s1]; simpl in *; auto. by apply Hk.
Qed.

Lemma preserves_ret {S A} (P : S -> Prop) (a : A) : preserves P (ret a).
Proof. by intros s. Qed.

Lemma preserves_fail {S A} (P : S -> Prop) e : preserves P (@fail S A e).
Proof. by intros s. Qed.

(** ** Splitting lists by length *)

Lemma take_app_len {A} (l k : list A) : take (length l) (l ++ k) = l.
Proof. apply take_app_length. Qed.

Lemma drop_app_len {A} (l k : list A) : drop (length l) (l ++ k) = k.
Proof. apply drop_app_length. Qed.

(** Bounds of concrete integers. *)
Ltac bounds := vm_compute; repeat split; solve [reflexivity | discriminate | congruence].
