(* ===== verification/GoLib.v ===== *)
(** The parts of the Go language and of its standard library the proxy relies
    on: fixed-width integers, slicing with its bounds panics, [make],
    [encoding/binary]'s big-endian accessors and unsigned varints, and
    [copy]. *)
From Stdlib Require Import ZArith Lia Strings.Byte.
From stdpp Require Import base list strings gmap.
From S2P Require Import Prelude.

(** ** Fixed-width integers *)

Definition wrapU (w : Z) (z : Z) : Z := z mod 2 ^ w.
Definition wrapS (w : Z) (z : Z) : Z := (z + 2 ^ (w - 1)) mod 2 ^ w - 2 ^ (w - 1).

Abbreviation uint8 := (wrapU 8).
Abbreviation uint16 := (wrapU 16).
Abbreviation uint32 := (wrapU 32).
Abbreviation uint64 := (wrapU 64).
Abbreviation int8 := (wrapS 8).
Abbreviation int16 := (wrapS 16).
Abbreviation int32 := (wrapS 32).
Abbreviation int64 := (wrapS 64).

Definition inS (w : Z) (z : Z) : Prop := - 2 ^ (w - 1) <= z < 2 ^ (w - 1).
Definition inU (w : Z) (z : Z) : Prop := 0 <= z < 2 ^ w.

Definition MaxInt16 : Z := 32767.
Definition MaxUint16 : Z := 65535.
Definition MaxInt32 : Z := 2147483647.
Definition MaxVarintLen64 : nat := 10.

Lemma wrapS_id w z : 0 < w -> inS w z -> wrapS w z = z.
Proof.
  unfold inS, wrapS. intros Hw Hz.
  assert (2 ^ w = 2 * 2 ^ (w - 1)) as E.
  { rewrite <- Z.pow_succ_r by lia. f_equal. lia. }
  rewrite Z.mod_small; lia.
Qed.

Lemma wrapS_range w z : 0 < w -> inS w (wrapS w z).
Proof.
  unfold inS, wrapS. intros Hw.
  assert (2 ^ w = 2 * 2 ^ (w - 1)) as E.
  { rewrite <- Z.pow_succ_r by lia. f_equal. lia. }
  pose proof (Z.pow_pos_nonneg 2 (w - 1) ltac:(lia) ltac:(lia)).
  pose proof (Z.mod_pos_bound (z + 2 ^ (w - 1)) (2 ^ w) ltac:(lia)). lia.
Qed.

Lemma wrapS_wrapU w z : 0 < w -> wrapS w (wrapU w z) = wrapS w z.
Proof. unfold wrapS, wrapU. intros. by rewrite Zplus_mod_idemp_l. Qed.

Lemma wrapU_wrapS w z : 0 < w -> wrapU w (wrapS w z) = wrapU w z.
Proof.
  unfold wrapS, wrapU. intros.
  rewrite Zminus_mod_idemp_l. f_equal. lia.
Qed.

Lemma wrapU_id w z : inU w z -> wrapU w z = z.
Proof. unfold inU, wrapU. apply Z.mod_small. Qed.

Lemma wrapU_range w z : 0 <= w -> inU w (wrapU w z).
Proof.
  unfold inU, wrapU. intros. apply Z.mod_pos_bound. by apply Z.pow_pos_nonneg.
Qed.

(** ** Slices *)

(** [s[lo:hi]] *)
Definition slice {A} (s : list A) (lo hi : Z) : res (list A) :=
  if (0 <=? lo) && (lo <=? hi) && (hi <=? len s)
  then Ok (take (Z.to_nat (hi - lo)) (drop (Z.to_nat lo) s))
  else Panic "slice bounds out of range".

(** [s[lo:]] *)
Definition slice_from {A} (s : list A) (lo : Z) : res (list A) := slice s lo (len s).

(** The largest object the runtime allocates (linux/amd64). *)
Definition maxAlloc : Z := 2 ^ 48.

(** [make([]T, n)] for a [T] of [size] bytes: the length check. *)
Definition makeslice (size n : Z) : res unit :=
  if (n <? 0) || (maxAlloc <? size * n) then Panic "makeslice: len out of range" else Ok tt.

(** The slice [s] after [copy(s[off:], src)]. *)
Definition splice (s : bytes) (off : Z) (src : bytes) : bytes :=
  let n := Z.to_nat (Z.min (len src) (len s - off)) in
  take (Z.to_nat off) s ++ take n src ++ drop (Z.to_nat off + n) s.

Definition copy_at (s : bytes) (off : Z) (src : bytes) : res bytes :=
  if (0 <=? off) && (off <=? len s) then Ok (splice s off src)
  else Panic "slice bounds out of range".

Lemma slice_app {A} (pre mid post : list A) :
  slice (pre ++ mid ++ post) (len pre) (len pre + len mid) = Ok mid.
Proof.
  unfold slice. rewrite !len_app.
  replace (_ && _ && _) with true by (symmetry; repeat rewrite andb_true_iff; rewrite !Z.leb_le; len_lia).
  replace (Z.to_nat (len pre + len mid - len pre)) with (length mid) by (unfold len; lia).
  by rewrite to_nat_len, drop_app_len, take_app_len.
Qed.

Lemma slice_from_app {A} (pre post : list A) :
  slice_from (pre ++ post) (len pre) = Ok post.
Proof.
  unfold slice_from. rewrite len_app. pose proof (slice_app pre post []) as H.
  by rewrite app_nil_r in H.
Qed.

Lemma slice_Ok {A} (s : list A) lo hi :
  0 <= lo <= hi -> hi <= len s ->
  exists mid, slice s lo hi = Ok mid /\ len mid = hi - lo.
Proof.
  intros H1 H2. unfold slice.
  replace (_ && _ && _) with true by (symmetry; repeat rewrite andb_true_iff; rewrite !Z.leb_le; lia).
  eexists; split; [done|]. unfold len in *. rewrite length_take, length_drop. lia.
Qed.

Lemma len_splice s off src :
  0 <= off -> off + len src <= len s -> len (splice s off src) = len s.
Proof.
  unfold splice, len. intros H1 H2.
  rewrite !length_app, !length_take, length_drop. lia.
Qed.

(** Two consecutive copies are the copy of the concatenation. *)
Lemma splice_splice s off a b :
  0 <= off -> off + len a + len b <= len s ->
  splice (splice s off a) (off + len a) b = splice s off (a ++ b).
Proof.
  intros H1 H2. unfold splice at 1. rewrite len_splice by len_lia.
  replace (Z.to_nat (Z.min (len b) (len s - (off + len a)))) with (length b) by (unfold len in *; lia).
  unfold splice. rewrite len_app.
  replace (Z.to_nat (Z.min (len a) (len s - off))) with (length a) by (unfold len in *; lia).
  replace (Z.to_nat (Z.min (len a + len b) (len s - off))) with (length (a ++ b))
    by (rewrite length_app; unfold len in *; lia).
  rewrite !(take_ge a), !(take_ge b), !(take_ge (a ++ b)) by lia.
  set (p := take (Z.to_nat off) s).
  assert (length p = Z.to_nat off) as Hp by (unfold p; rewrite length_take; unfold len in *; lia).
  replace (Z.to_nat (off + len a)) with (length (p ++ a)) by (rewrite length_app, Hp; unfold len; lia).
  rewrite !(app_assoc p a), take_app_length, <- !app_assoc. do 3 f_equal.
  rewrite (app_assoc p a), <- drop_drop, drop_app_length, drop_drop.
  f_equal. rewrite !length_app. lia.
Qed.

Lemma splice_nil s off : splice s off [] = s.
Proof.
  unfold splice. rewrite len_nil.
  replace (Z.to_nat (Z.min 0 (len s - off))) with 0%nat by lia.
  rewrite Nat.add_0_r, take_nil. simpl. by rewrite take_drop.
Qed.

Lemma splice_all s src : len src = len s -> splice s 0 src = src.
Proof.
  intros H. unfold splice.
  replace (Z.to_nat (Z.min (len src) (len s - 0))) with (length src) by (unfold len in *; lia).
  rewrite (take_ge src), drop_ge by (unfold len in *; lia). simpl. by rewrite app_nil_r.
Qed.

(** ** [encoding/binary]: big-endian integers *)

(** [BigEndian.PutUintN] of the low [8 * n] bits of [z]. *)
Fixpoint be_put (n : nat) (z : Z) : bytes :=
  match n with
  | O => []
  | S n' => Zbyte (z / 256 ^ Z.of_nat n') :: be_put n' z
  end.

Fixpoint be_value (l : bytes) : Z :=
  match l with
  | [] => 0
  | b :: l' => byteZ b * 256 ^ len l' + be_value l'
  end.

(** [BigEndian.UintN(b)]: panics when [b] is shorter than [n] bytes. *)
Definition BigEndian_Uint (n : nat) (b : bytes) : res Z :=
  if (length b <? n)%nat then Panic "index out of range" else Ok (be_value (take n b)).

Lemma length_be_put n z : length (be_put n z) = n.
Proof. induction n; simpl; congruence. Qed.

Lemma len_be_put n z : len (be_put n z) = Z.of_nat n.
Proof. unfold len. by rewrite length_be_put. Qed.
#[export] Hint Rewrite len_be_put : len.

Lemma be_value_put n z : be_value (be_put n z) = z mod 256 ^ Z.of_nat n.
Proof.
  induction n as [|n IH]; [by rewrite Z.mod_1_r|].
  simpl be_put. cbn [be_value]. rewrite byteZ_Zbyte, IH, len_be_put.
  rewrite Nat2Z.inj_succ, Z.pow_succ_r by apply Nat2Z.is_nonneg.
  pose proof (Z.pow_pos_nonneg 256 (Z.of_nat n) ltac:(lia) ltac:(lia)) as Hp.
  generalize dependent (256 ^ Z.of_nat n). intros p _ Hp.
  rewrite (Z.mul_comm 256), Z.rem_mul_r by lia. lia.
Qed.

Lemma be_value_range l : 0 <= be_value l < 256 ^ len l.
Proof.
  induction l as [|b l IH]; [by vm_compute|]. cbn [be_value].
  rewrite len_cons, Z.pow_add_r, Z.pow_1_r by len_lia.
  pose proof (byteZ_range b). nia.
Qed.

Lemma be_put_value l : be_put (length l) (be_value l) = l.
Proof.
  assert (forall m l z, length l = m -> be_put m (z * 256 ^ Z.of_nat m + be_value l) = l) as H.
  { clear l. induction m as [|m IH]; intros l z Hl; destruct l as [|b l]; try discriminate; [done|].
    injection Hl as Hl. subst m. cbn [be_put be_value].
    rewrite Nat2Z.inj_succ, Z.pow_succ_r by lia.
    replace (z * (256 * 256 ^ Z.of_nat (length l)) + (byteZ b * 256 ^ len l + be_value l))
      with ((z * 256 + byteZ b) * 256 ^ len l + be_value l) by (unfold len; ring).
    f_equal; [|by apply IH].
    pose proof (be_value_range l). unfold len in *.
    rewrite Z.div_add_l, (Z.div_small (be_value l)), Z.add_0_r by lia.
    rewrite <- Zbyte_mod, Z.add_comm, Z.mod_add, Zbyte_mod by lia. apply Zbyte_byteZ. }
  specialize (H (length l) l 0 eq_refl). by rewrite Z.mul_0_l, Z.add_0_l in H.
Qed.

Lemma be_put_value_length n l : length l = n -> be_put n (be_value l) = l.
Proof. intros <-. apply be_put_value. Qed.

Lemma be_put_mod n z : be_put n (z mod 256 ^ Z.of_nat n) = be_put n z.
Proof.
  rewrite <- be_value_put. pose proof (be_put_value (be_put n z)) as H.
  by rewrite length_be_put in H.
Qed.

Lemma be_put_wrapS n z : (0 < n)%nat -> be_put n (wrapS (8 * Z.of_nat n) z) = be_put n z.
Proof.
  intros Hn. rewrite <- (be_put_mod n (wrapS _ z)), <- (be_put_mod n z). f_equal.
  change 256 with (2 ^ 8). rewrite <- Z.pow_mul_r by lia.
  fold (wrapU (8 * Z.of_nat n) (wrapS (8 * Z.of_nat n) z)) (wrapU (8 * Z.of_nat n) z).
  apply wrapU_wrapS. lia.
Qed.

Lemma be_put_wrapU n z : (0 < n)%nat -> be_put n (wrapU (8 * Z.of_nat n) z) = be_put n z.
Proof.
  intros Hn. rewrite <- (be_put_mod n z). f_equal. change 256 with (2 ^ 8).
  by rewrite <- Z.pow_mul_r by lia.
Qed.

Lemma be_put_int32 z : be_put 4 (int32 z) = be_put 4 z.
Proof. apply (be_put_wrapS 4). lia. Qed.

Lemma be_put_uint32 z : be_put 4 (uint32 z) = be_put 4 z.
Proof. apply (be_put_wrapU 4). lia. Qed.

Lemma BigEndian_Uint_put n z rest :
  BigEndian_Uint n (be_put n z ++ rest) = Ok (z mod 256 ^ Z.of_nat n).
Proof.
  unfold BigEndian_Uint.
  replace (_ <? n)%nat with false
    by (symmetry; apply Nat.ltb_ge; rewrite length_app, length_be_put; lia).
  rewrite take_app_length' by (by rewrite length_be_put). by rewrite be_value_put.
Qed.

Lemma BigEndian_Uint_Ok n b : Z.of_nat n <= len b -> exists z, BigEndian_Uint n b = Ok z.
Proof.
  unfold BigEndian_Uint, len. intros H.
  replace (_ <? n)%nat with false by (symmetry; apply Nat.ltb_ge; lia). eauto.
Qed.

(** ** [encoding/binary]: unsigned varints *)

Fixpoint Uvarint_loop (buf : bytes) (i : nat) (x s : Z) : Z * Z :=
  match buf with
  | [] => (0, 0)
  | b :: buf' =>
      if (i =? MaxVarintLen64)%nat then (0, - (Z.of_nat i + 1))
      else if byteZ b <? 128 then
        if (i =? MaxVarintLen64 - 1)%nat && (1 <? byteZ b) then (0, - (Z.of_nat i + 1))
        else (Z.lor x (uint64 (Z.shiftl (byteZ b) s)), Z.of_nat i + 1)
      else Uvarint_loop buf' (S i) (Z.lor x (uint64 (Z.shiftl (Z.land (byteZ b) 127) s))) (s + 7)
  end.

(** [binary.Uvarint]: the value and the number of bytes read; 0 bytes when
    the buffer is too short, minus the bytes read on overflow. *)
Definition Uvarint (buf : bytes) : Z * Z := Uvarint_loop buf 0 0 0.

Fixpoint PutUvarint_loop (fuel : nat) (x : Z) : bytes :=
  match fuel with
  | O => [Zbyte x]
  | S fuel' =>
      if 128 <=? x then Zbyte (Z.lor (Z.land x 255) 128) :: PutUvarint_loop fuel' (Z.shiftr x 7)
      else [Zbyte x]
  end.

(** The bytes [binary.PutUvarint] writes; a [uint64] takes at most
    [MaxVarintLen64] = 10 of them, so 9 iterations of the loop are enough. *)
Definition PutUvarint (x : Z) : bytes := PutUvarint_loop (MaxVarintLen64 - 1) x.

Lemma length_PutUvarint_loop f x : (1 <= length (PutUvarint_loop f x) <= S f)%nat.
Proof.
  revert x. induction f as [|f IH]; intros x; simpl; [lia|].
  destruct (128 <=? x); simpl; [|lia]. specialize (IH (Z.shiftr x 7)). lia.
Qed.

Lemma len_PutUvarint x : 1 <= len (PutUvarint x) <= 10.
Proof.
  unfold PutUvarint, len. pose proof (length_PutUvarint_loop (MaxVarintLen64 - 1) x) as H.
  cbn in H |- *. lia.
Qed.

Lemma lor_shift_add x b s : 0 <= s -> 0 <= x < 2 ^ s -> 0 <= b -> Z.lor x (Z.shiftl b s) = x + b * 2 ^ s.
Proof.
  intros Hs Hx Hb. rewrite Z.shiftl_mul_pow2 by lia.
  rewrite Z.add_nocarry_lxor, <- Z.lxor_lor; try done.
  all: apply Z.bits_inj'; intros n Hn; rewrite Z.land_spec, Z.bits_0;
    rewrite Z.mul_pow2_bits by lia;
    destruct (decide (n < s));
    [rewrite (Z.testbit_neg_r b) by lia; by rewrite andb_false_r|];
    rewrite <- (Z.mod_small x (2 ^ s)) by lia;
    rewrite Z.mod_pow2_bits_high by lia; done.
Qed.

(** The continuation byte [byte(x) | 0x80] carries the low seven bits. *)
Lemma byteZ_continuation x : byteZ (Zbyte (Z.lor (Z.land x 255) 128)) = x mod 128 + 128.
Proof.
  change 255 with (Z.ones 8). rewrite Z.land_ones by lia. change (2 ^ 8) with 256.
  assert (x mod 128 = (x mod 256) mod 128) as ->.
  { change 256 with (128 * 2). rewrite Z.rem_mul_r by lia.
    by rewrite (Z.mul_comm 128), Z.mod_add, Z.mod_mod by lia. }
  pose proof (Z.mod_pos_bound x 256 ltac:(lia)) as Hr. generalize dependent (x mod 256).
  assert (Forall (fun r => byteZ (Zbyte (Z.lor r 128)) = r mod 128 + 128) (seqZ 0 256)) as H
    by (apply (bool_decide_eq_true_1 _); vm_compute; reflexivity).
  rewrite Forall_forall in H. intros r Hr. apply H, elem_of_seqZ. lia.
Qed.

Lemma Uvarint_PutUvarint_loop f : forall x i x0 s rest,
  (i + f = 9)%nat -> s = 7 * Z.of_nat i -> 0 <= x < 2 ^ (64 - s) -> 0 <= x0 < 2 ^ s ->
  Uvarint_loop (PutUvarint_loop f x ++ rest) i x0 s =
    (x0 + x * 2 ^ s, Z.of_nat i + len (PutUvarint_loop f x)).
Proof.
  induction f as [|f IH]; intros x i x0 s rest Hi Hs Hx Hx0; cbn [PutUvarint_loop].
  - assert (i = 9%nat) as -> by lia. subst s. cbn in Hx.
    assert (Hl : x = 0 \/ x = 1) by lia. destruct Hl as [-> | ->].
    + transitivity (Z.lor x0 0, 10); [done|]. rewrite Z.lor_0_r. f_equal. lia.
    + transitivity (Z.lor x0 (Z.shiftl 1 63), 10); [done|].
      rewrite (lor_shift_add x0 1 63) by (cbn in *; lia). f_equal.
  - assert (2 ^ 64 = 2 ^ (64 - s) * 2 ^ s) as E64 by (rewrite <- Z.pow_add_r by lia; f_equal; lia).
    assert (0 < 2 ^ s) as Hps by (apply Z.pow_pos_nonneg; lia).
    destruct (128 <=? x) eqn:E; [apply Z.leb_le in E|apply Z.leb_gt in E];
      cbn [app Uvarint_loop].
    + rewrite byteZ_continuation.
      replace (i =? MaxVarintLen64)%nat with false by (symmetry; apply Nat.eqb_neq; cbv; lia).
      pose proof (Z.mod_pos_bound x 128 ltac:(lia)) as Hm.
      replace (_ <? 128) with false by (symmetry; apply Z.ltb_ge; lia).
      replace (Z.land (x mod 128 + 128) 127) with (x mod 128).
      2:{ change 127 with (Z.ones 7). rewrite Z.land_ones by lia. change (2 ^ 7) with 128.
          rewrite <- Zplus_mod_idemp_r, Z_mod_same_full, Z.add_0_r, Z.mod_mod; lia. }
      pose proof (Z.div_mod x 128 ltac:(lia)) as Hdiv.
      assert (x mod 128 * 2 ^ s <= x * 2 ^ s) by nia.
      rewrite wrapU_id by (unfold inU; rewrite Z.shiftl_mul_pow2 by lia; nia).
      rewrite lor_shift_add by lia.
      rewrite Z.shiftr_div_pow2 by lia. change (2 ^ 7) with 128.
      assert (2 ^ (s + 7) = 2 ^ s * 128) as E7 by (rewrite Z.pow_add_r by lia; done).
      assert (2 ^ (64 - s) = 2 ^ (64 - (s + 7)) * 128) as E57.
      { change 128 with (2 ^ 7). rewrite <- Z.pow_add_r by lia. f_equal. lia. }
      rewrite IH; [|lia|lia| |rewrite E7; nia].
      * rewrite len_cons, E7. f_equal; [nia|lia].
      * split; [apply Z.div_pos; lia|]. apply Z.div_lt_upper_bound; lia.
    + assert (byteZ (Zbyte x) = x) as -> by (rewrite byteZ_Zbyte, Z.mod_small; lia).
      replace (i =? MaxVarintLen64)%nat with false by (symmetry; apply Nat.eqb_neq; cbv; lia).
      replace (x <? 128) with true by (symmetry; apply Z.ltb_lt; lia).
      replace (i =? MaxVarintLen64 - 1)%nat with false by (symmetry; apply Nat.eqb_neq; cbv; lia).
      cbn [andb].
      rewrite wrapU_id by (unfold inU; rewrite Z.shiftl_mul_pow2 by lia; nia).
      rewrite lor_shift_add by lia. by rewrite len_cons, len_nil.
Qed.

(** A [uint64] read back from its varint, whatever follows it. *)
Lemma Uvarint_PutUvarint x rest :
  inU 64 x -> Uvarint (PutUvarint x ++ rest) = (x, len (PutUvarint x)).
Proof.
  intros Hx. unfold Uvarint, PutUvarint.
  rewrite Uvarint_PutUvarint_loop; [f_equal; lia|done..| lia].
Qed.

(** The bytes [Uvarint] reads are bytes of its argument. *)
Lemma Uvarint_loop_bounds buf : forall i x s,
  let n := snd (Uvarint_loop buf i x s) in
  - (Z.of_nat i + len buf) <= n <= Z.of_nat i + len buf.
Proof.
  induction buf as [|b buf IH]; intros i x s; simpl; [len_lia|].
  rewrite len_cons. repeat case_match; simpl; try len_lia.
  specialize (IH (S i) (Z.lor x (uint64 (Z.shiftl (Z.land (byteZ b) 127) s))) (s + 7)). simpl in IH. lia.
Qed.

Lemma Uvarint_bounds buf : - len buf <= snd (Uvarint buf) <= len buf.
Proof. pose proof (Uvarint_loop_bounds buf 0 0 0) as H. simpl in H. unfold Uvarint. lia. Qed.

#[global] Arguments be_put n z : simpl never.
#[global] Arguments PutUvarint x : simpl never.
#[global] Arguments Uvarint buf : simpl never.
