(* ===== verification/GoStrings.v ===== *)
(** The functions of Go's strings package the proxy uses, on byte strings:
    [Split], [SplitN] into two parts and [Join] with a separator of one byte,
    the indices of a byte, and [EqualFold] on ASCII. *)
From Stdlib Require Import ZArith Lia Strings.Byte.
From stdpp Require Import base list strings gmap.
From S2P Require Import Prelude GoLib.

(** [bytealg.IndexByteString] and [LastIndexByteString]; [None] is -1. *)
Fixpoint IndexByte (s : bytes) (c : byte) : option nat :=
  match s with
  | [] => None
  | b :: s' => if decide (b = c) then Some O else S <$> IndexByte s' c
  end.
Fixpoint LastIndexByte (s : bytes) (c : byte) : option nat :=
  match s with
  | [] => None
  | b :: s' =>
      match LastIndexByte s' c with
      | Some i => Some (S i)
      | None => if decide (b = c) then Some O else None
      end
  end.

(** [strings.Split(s, sep)] for a separator of one byte. *)
Fixpoint Split (sep : byte) (s : bytes) : list bytes :=
  match s with
  | [] => [[]]
  | b :: s' =>
      if decide (b = sep) then [] :: Split sep s'
      else match Split sep s' with
           | t :: ts => (b :: t) :: ts
           | [] => [[b]]
           end
  end.

(** [strings.Join(l, sep)] *)
Fixpoint Join (sep : byte) (l : list bytes) : bytes :=
  match l with
  | [] => []
  | [t] => t
  | t :: l' => t ++ [sep] ++ Join sep l'
  end.

(** [strings.SplitN(s, sep, 2)] *)
Definition SplitN2 (sep : byte) (s : bytes) : list bytes :=
  match IndexByte s sep with
  | Some i => [take i s; drop (S i) s]
  | None => [s]
  end.

(** Lower case of an ASCII letter; [strings.EqualFold] of ASCII strings. *)
Definition ToLower (b : byte) : byte :=
  if (65 <=? byteZ b) && (byteZ b <=? 90) then Zbyte (byteZ b + 32) else b.
Definition EqualFold (s t : bytes) : bool := bool_decide (ToLower <$> s = ToLower <$> t).

(** ** Indices *)

Lemma IndexByte_notin s c : IndexByte s c = None <-> c ∉ s.
Proof.
  induction s as [|b s IH]; simpl; [split; [intros _; apply not_elem_of_nil|done]|].
  rewrite not_elem_of_cons. destruct (decide (b = c)) as [->|Hb]; [split; [done|tauto]|].
  destruct (IndexByte s c); simpl; [split; [done|intros [_ ?]; exfalso; naive_solver]|naive_solver].
Qed.

Lemma IndexByte_app s c t : c ∉ s -> IndexByte (s ++ c :: t) c = Some (length s).
Proof.
  induction s as [|b s IH]; intros H; simpl; [by rewrite decide_True|].
  apply not_elem_of_cons in H as [H1 H2]. by rewrite decide_False, IH by congruence.
Qed.

Lemma LastIndexByte_notin s c : c ∉ s -> LastIndexByte s c = None.
Proof.
  induction s as [|b s IH]; intros H; [done|]. apply not_elem_of_cons in H as [H1 H2]. simpl.
  by rewrite IH, decide_False by congruence.
Qed.

Lemma LastIndexByte_app s c t : c ∉ t -> LastIndexByte (s ++ c :: t) c = Some (length s).
Proof.
  intros H. induction s as [|b s IH]; simpl; [by rewrite LastIndexByte_notin, decide_True|]. by rewrite IH.
Qed.

(** ** [strings.Split] *)

Lemma Split_notin sep s : sep ∉ s -> Split sep s = [s].
Proof.
  induction s as [|b s IH]; intros H; [done|]. simpl. apply not_elem_of_cons in H as [H1 H2].
  rewrite decide_False by congruence. by rewrite IH.
Qed.

Lemma Split_app sep s t : sep ∉ s -> Split sep (s ++ sep :: t) = s :: Split sep t.
Proof.
  induction s as [|b s IH]; intros H; cbn [app Split].
  - by rewrite decide_True.
  - apply not_elem_of_cons in H as [H1 H2]. rewrite decide_False by congruence.
    by rewrite IH.
Qed.

Lemma Split_nonempty sep s : Split sep s <> [].
Proof. destruct s as [|b s]; simpl; [done|]. destruct (decide _); [done|]. by destruct (Split sep s). Qed.

(** Joining the parts gives the string back. *)
Lemma Join_Split sep s : Join sep (Split sep s) = s.
Proof.
  induction s as [|b s IH]; [done|]. simpl. pose proof (Split_nonempty sep s) as Hne.
  destruct (decide (b = sep)) as [->|].
  - simpl. destruct (Split sep s); [done|]. by rewrite <- IH.
  - destruct (Split sep s) as [|t ts]; [done|]. rewrite <- IH. by destruct ts.
Qed.

Lemma Split_parts sep s : Forall (fun t => sep ∉ t) (Split sep s).
Proof.
  induction s as [|b s IH]; [constructor; [apply not_elem_of_nil|constructor]|]. simpl.
  destruct (decide (b = sep)) as [->|Hb]; [constructor; [apply not_elem_of_nil|done]|].
  destruct IH as [|t ts Ht Hts]; (constructor; [|done]).
  - intros ->%list_elem_of_singleton. done.
  - rewrite elem_of_cons. intros [->|]; done.
Qed.

Lemma SplitN2_app sep s t : sep ∉ s -> SplitN2 sep (s ++ sep :: t) = [s; t].
Proof.
  intros H. unfold SplitN2. rewrite IndexByte_app by done. rewrite take_app_length.
  f_equal. f_equal. change (sep :: t) with ([sep] ++ t). rewrite app_assoc.
  by rewrite drop_app_length' by (rewrite length_app; simpl; lia).
Qed.
