(* ===== verification/NetAddr.v ===== *)
(** Host and port addresses: [net.JoinHostPort], [net.SplitHostPort],
    [strconv.Itoa], [strconv.Atoi] of the Go standard library, and
    [util.SplitHostPort] (pkg/libs/util/net.go). *)
From Stdlib Require Import ZArith Lia Strings.Byte.
From stdpp Require Import base list strings gmap.
From S2P Require Import Prelude GoLib GoStrings.

(** ** Decimal integers *)

Definition digit (n : Z) : byte := Zbyte (48 + n).
Definition digit_value (b : byte) : option Z :=
  let v := byteZ b - 48 in if (0 <=? v) && (v <? 10) then Some v else None.

(** An [int64] has 19 digits at most. *)
Fixpoint digits (fuel : nat) (n : Z) : bytes :=
  match fuel with
  | O => []
  | S fuel' => if n <? 10 then [digit n] else digits fuel' (n / 10) ++ [digit (n mod 10)]
  end.

(** [strconv.Itoa], and [fmt.Sprint] of an integer. *)
Definition Itoa (n : Z) : bytes := if n <? 0 then x2d :: digits 20 (- n) else digits 20 n.

Definition ErrSyntax : error := Errorf "invalid syntax".
Definition ErrRange : error := Errorf "value out of range".

Fixpoint parse_digits (acc : Z) (s : bytes) : option Z :=
  match s with
  | [] => Some acc
  | b :: s' => match digit_value b with Some d => parse_digits (acc * 10 + d) s' | None => None end
  end.

(** [strconv.Atoi]: an optional sign and decimal digits, in the range of
    [int]; the value comes with an error, if any: 0 for bad syntax, the nearest
    [int] out of range. *)
Definition Atoi_value (s : bytes) : Z * option error :=
  let '(sign, t) := match s with
                    | x2d :: t => (-1, t)
                    | x2b :: t => (1, t)
                    | _ => (1, s)
                    end in
  match t with
  | [] => (0, Some ErrSyntax)
  | _ =>
      match parse_digits 0 t with
      | None => (0, Some ErrSyntax)
      | Some n =>
          let n := sign * n in
          if n <? - 2 ^ 63 then (- 2 ^ 63, Some ErrRange)
          else if 2 ^ 63 <=? n then (2 ^ 63 - 1, Some ErrRange)
          else (n, None)
      end
  end.
Definition Atoi (s : bytes) : res Z :=
  match Atoi_value s with (n, None) => Ok n | (_, Some e) => Err e end.

(** ** Addresses *)

Definition colon : byte := x3a.
Definition lbracket : byte := x5b.
Definition rbracket : byte := x5d.

Definition JoinHostPort (host port : bytes) : bytes :=
  match IndexByte host colon with
  | Some _ => [lbracket] ++ host ++ [rbracket; colon] ++ port
  | None => host ++ [colon] ++ port
  end.

Definition AddrError (why : string) : error := Errorf why.

(** [net.SplitHostPort] *)
Definition net_SplitHostPort (hostport : bytes) : res (bytes * bytes) :=
  match LastIndexByte hostport colon with
  | None => Err (AddrError "missing port in address")
  | Some i =>
      let? r :=
        (if bool_decide (head hostport = Some lbracket) then
           match IndexByte hostport rbracket with
           | None => Err (AddrError "missing ']' in address")
           | Some end_ =>
               if (end_ + 1 =? length hostport)%nat then Err (AddrError "missing port in address")
               else if (end_ + 1 =? i)%nat then Ok (take (end_ - 1) (drop 1 hostport), 1%nat, (end_ + 1)%nat)
               else if bool_decide (hostport !! (end_ + 1)%nat = Some colon)
               then Err (AddrError "too many colons in address")
               else Err (AddrError "missing port in address")
           end
         else
           let host := take i hostport in
           match IndexByte host colon with
           | Some _ => Err (AddrError "too many colons in address")
           | None => Ok (host, O, O)
           end) in
      let '(host, j, k) := r in
      if IndexByte (drop j hostport) lbracket then Err (AddrError "unexpected '[' in address")
      else if IndexByte (drop k hostport) rbracket then Err (AddrError "unexpected ']' in address")
      else Ok (host, drop (i + 1) hostport)
  end.

(** [util.SplitHostPort] *)
Definition SplitHostPort (hostport : bytes) : res (bytes * Z) :=
  let? r := net_SplitHostPort hostport in
  let '(host, portstr) := r in
  let? port := Atoi portstr in
  Ok (host, int32 port).

(** ** Decimal integers round-trip *)

Lemma digit_value_digit n : 0 <= n < 10 -> digit_value (digit n) = Some n.
Proof.
  intros H. unfold digit_value, digit. rewrite byteZ_Zbyte, Z.mod_small by lia.
  replace (48 + n - 48) with n by lia.
  by replace ((0 <=? n) && (n <? 10)) with true
    by (symmetry; apply andb_true_iff; split; [apply Z.leb_le|apply Z.ltb_lt]; lia).
Qed.

Lemma parse_digits_app acc s t :
  parse_digits acc (s ++ t) = match parse_digits acc s with Some n => parse_digits n t | None => None end.
Proof.
  revert acc. induction s as [|b s IH]; intros acc; [done|]. simpl.
  destruct (digit_value b); [apply IH|done].
Qed.

Lemma parse_digits_digits f n acc :
  (0 < f)%nat -> 0 <= n < 10 ^ Z.of_nat f ->
  exists k, 0 <= k /\ parse_digits acc (digits f n) = Some (acc * 10 ^ k + n) /\ n < 10 ^ k.
Proof.
  revert n acc. induction f as [|f IH]; intros n acc Hf Hn; [lia|]. cbn [digits].
  destruct (Z.ltb_spec n 10) as [Hlt|Hge].
  - exists 1. simpl. rewrite digit_value_digit by lia. split; [lia|]. split; [f_equal; lia|lia].
  - rewrite Nat2Z.inj_succ, Z.pow_succ_r in Hn by lia.
    pose proof (Z.div_mod n 10 ltac:(lia)) as Hd. pose proof (Z.mod_pos_bound n 10 ltac:(lia)) as Hm.
    assert (0 < f)%nat as Hf' by (destruct f; [simpl in Hn; lia|lia]).
    destruct (IH (n / 10) acc Hf') as (k & Hk & Hp & Hlt);
      [split; [apply Z.div_pos; lia|apply Z.div_lt_upper_bound; lia]|].
    exists (k + 1). rewrite parse_digits_app, Hp. cbn [parse_digits]. rewrite digit_value_digit by lia.
    rewrite Z.pow_add_r by lia. split; [lia|]. split; [f_equal; nia|lia].
Qed.

Lemma digits_all f n : 0 <= n -> Forall (fun b => 48 <= byteZ b < 58) (digits f n).
Proof.
  revert n. induction f as [|f IH]; intros n Hn; [constructor|]. cbn [digits].
  assert (forall m, 0 <= m < 10 -> 48 <= byteZ (digit m) < 58) as Hd
    by (intros m Hm; unfold digit; rewrite byteZ_Zbyte, Z.mod_small by lia; lia).
  destruct (Z.ltb_spec n 10) as [Hlt|Hge]; [constructor; [apply Hd; lia|constructor]|].
  apply Forall_app. split; [apply IH, Z.div_pos; lia|]. constructor; [|constructor].
  apply Hd, Z.mod_pos_bound. lia.
Qed.

Lemma digits_not_nil f n : digits (S f) n <> [].
Proof. cbn [digits]. destruct (_ <? _); [done|]. by destruct (digits f (n / 10)). Qed.

(** No byte of a decimal is a sign, a colon or a bracket, but for the sign. *)
Lemma Itoa_bytes n b : b ∈ Itoa n -> 48 <= byteZ b < 58 \/ b = x2d.
Proof.
  unfold Itoa. destruct (Z.ltb_spec n 0).
  - intros [->|Hb]%elem_of_cons; [by right|]. left.
    pose proof (digits_all 20 (- n) ltac:(lia)) as Hall. rewrite Forall_forall in Hall. by apply Hall.
  - intros Hb. left. pose proof (digits_all 20 n ltac:(lia)) as Hall. rewrite Forall_forall in Hall. by apply Hall.
Qed.

Lemma Atoi_Itoa n : inS 64 n -> Atoi (Itoa n) = Ok n.
Proof.
  intros [Hlo Hhi]. change (2 ^ (64 - 1)) with (2 ^ 63) in *.
  assert (forall m, 0 <= m <= 2 ^ 63 -> exists b t, digits 20 m = b :: t /\ b <> x2d /\ b <> x2b /\
    parse_digits 0 (b :: t) = Some m) as H.
  { intros m Hm. destruct (digits 20 m) as [|b t] eqn:E; [by apply digits_not_nil in E|].
    pose proof (digits_all 20 m ltac:(lia)) as Hall. rewrite E in Hall. apply Forall_inv in Hall.
    destruct (parse_digits_digits 20 m 0) as (k & _ & Hp & _); [lia|split; [lia|]|].
    { change (2 ^ 63) with 9223372036854775808 in Hm. change (10 ^ Z.of_nat 20) with 100000000000000000000. lia. }
    rewrite E in Hp. exists b, t. split_and!; [done| | |by rewrite Hp, Z.mul_0_l, Z.add_0_l].
    - intros ->. vm_compute in Hall. by destruct Hall as [[] _].
    - intros ->. vm_compute in Hall. by destruct Hall as [[] _]. }
  assert ((n <? - 2 ^ 63) = false /\ (2 ^ 63 <=? n) = false) as [F1 F2]
    by (split; [apply Z.ltb_ge|apply Z.leb_gt]; lia).
  unfold Itoa, Atoi, Atoi_value. destruct (Z.ltb_spec n 0) as [Hneg|Hpos].
  - destruct (H (- n)) as (b & t & E & _ & _ & Hp); [lia|]. rewrite E, Hp. cbv zeta.
    replace (-1 * - n) with n by lia. by rewrite F1, F2.
  - destruct (H n) as (b & t & E & H1 & H2 & Hp); [lia|]. rewrite E.
    replace (match b :: t with x2d :: t' => (-1, t') | x2b :: t' => (1, t') | _ => (1, b :: t) end)
      with (1, b :: t) by (destruct b; done). rewrite Hp, Z.mul_1_l. cbv zeta. by rewrite F1, F2.
Qed.

Lemma Atoi_int64 s n : Atoi s = Ok n -> inS 64 n.
Proof.
  unfold Atoi, Atoi_value, inS. destruct (match s with x2d :: t => _ | _ => _ end) as [sign [|b t]]; [done|].
  destruct (parse_digits 0 (b :: t)) as [m|]; [|done]. cbv zeta.
  destruct (Z.ltb_spec (sign * m) (- 2 ^ 63)); [done|]. destruct (Z.leb_spec (2 ^ 63) (sign * m)); [done|].
  intros [= <-]. change (64 - 1) with 63. lia.
Qed.

(** ** Addresses round-trip *)

(** A host or port that [SplitHostPort] can tell apart. *)
Definition bracketless (s : bytes) : Prop := lbracket ∉ s /\ rbracket ∉ s.

Lemma net_SplitHostPort_JoinHostPort host port :
  bracketless host -> bracketless port -> colon ∉ port ->
  net_SplitHostPort (JoinHostPort host port) = Ok (host, port).
Proof.
  intros [Hl Hr] [Pl Pr] Pc. unfold JoinHostPort. destruct (IndexByte host colon) as [i|] eqn:E.
  - set (s := [lbracket] ++ host ++ [rbracket; colon] ++ port).
    assert (s = ([lbracket] ++ host ++ [rbracket]) ++ colon :: port) as Es1
      by (unfold s; by rewrite <- !app_assoc).
    assert (s = ([lbracket] ++ host) ++ rbracket :: (colon :: port)) as Es2
      by (unfold s; by rewrite <- !app_assoc).
    unfold net_SplitHostPort. rewrite Es1 at 1. rewrite LastIndexByte_app by done.
    rewrite bool_decide_true by done. rewrite Es2 at 1. rewrite IndexByte_app;
      [|rewrite elem_of_app, list_elem_of_singleton; intros [?|?]; done].
    assert (length s = length host + 3 + length port)%nat as Hlen
      by (unfold s; rewrite !length_app; simpl; lia).
    rewrite !length_app. cbn [length].
    replace (1 + length host + 1 =? length s)%nat with false by (symmetry; apply Nat.eqb_neq; lia).
    replace (1 + length host + 1 =? 1 + (length host + 1))%nat with true by (symmetry; apply Nat.eqb_eq; lia).
    cbn [rbind]. replace (take (1 + length host - 1) (drop 1 s)) with host
      by (unfold s; simpl; rewrite Nat.sub_0_r, drop_0; by rewrite take_app_length).
    replace (drop (1 + length host + 1) s) with (colon :: port)
      by (rewrite Es1, drop_app_length'; [done|rewrite !length_app; simpl; lia]).
    replace (drop (1 + (length host + 1) + 1) s) with port
      by (rewrite Es1; replace (1 + (length host + 1) + 1)%nat with (length ([lbracket] ++ host ++ [rbracket]) + 1)%nat
            by (rewrite !length_app; simpl; lia); by rewrite <- drop_drop, drop_app_length).
    replace (IndexByte (drop 1 s) lbracket) with (@None nat); [replace (IndexByte (colon :: port) rbracket) with (@None nat); [done|]|].
    + symmetry. apply IndexByte_notin. by apply not_elem_of_cons.
    + symmetry. apply IndexByte_notin. unfold s. simpl. rewrite drop_0, elem_of_app, !elem_of_cons. naive_solver.
  - apply IndexByte_notin in E. unfold net_SplitHostPort. cbn [app].
    rewrite LastIndexByte_app by done. rewrite bool_decide_false.
    + rewrite take_app_length. apply IndexByte_notin in E. rewrite E. cbn [rbind]. rewrite !drop_0.
      assert (forall c, c ∉ host -> c <> colon -> c ∉ port -> IndexByte (host ++ colon :: port) c = None) as Hn.
      { intros c H1 H2 H3. apply IndexByte_notin. rewrite elem_of_app, elem_of_cons. tauto. }
      rewrite !Hn by done. rewrite <- drop_drop, drop_app_length. done.
    + destruct host as [|b host]; [done|]. intros [= ->]. apply Hl. by left.
Qed.

Lemma Itoa_clean n : bracketless (Itoa n) /\ colon ∉ Itoa n.
Proof.
  assert (forall c, 58 <= byteZ c -> c ∉ Itoa n) as H.
  { intros c Hc Hin. destruct (Itoa_bytes n c Hin) as [?| ->]; [lia|]. vm_compute in Hc. by apply Hc. }
  repeat split; apply H; by vm_compute.
Qed.

Lemma SplitHostPort_JoinHostPort host n :
  bracketless host -> inS 64 n -> SplitHostPort (JoinHostPort host (Itoa n)) = Ok (host, int32 n).
Proof.
  intros Hh Hn. destruct (Itoa_clean n) as [H1 H2]. unfold SplitHostPort.
  rewrite net_SplitHostPort_JoinHostPort by done. cbn [rbind]. by rewrite Atoi_Itoa.
Qed.

Lemma SplitHostPort_int32 s host port : SplitHostPort s = Ok (host, port) -> inS 32 port.
Proof.
  unfold SplitHostPort. destruct (net_SplitHostPort s) as [[h p]|e|w]; [|done..]. cbn [rbind].
  destruct (Atoi p); [|done..]. cbn [rbind]. intros [= _ <-]. apply wrapS_range. lia.
Qed.

(** Distinct addresses stay distinct when joined. *)
Lemma JoinHostPort_inj h h' n n' :
  bracketless h -> bracketless h' -> inS 32 n -> inS 32 n' ->
  JoinHostPort h (Itoa n) = JoinHostPort h' (Itoa n') -> h = h' /\ n = n'.
Proof.
  intros Hh Hh' Hn Hn' E.
  assert (forall m, inS 32 m -> inS 64 m) as Hw by (unfold inS; intros; lia).
  pose proof (SplitHostPort_JoinHostPort h n Hh (Hw _ Hn)) as H1.
  rewrite E, (SplitHostPort_JoinHostPort h' n' Hh' (Hw _ Hn')) in H1. injection H1 as -> H1.
  split; [done|]. rewrite !wrapS_id in H1 by (done || lia). done.
Qed.
