(* ===== verification/Regexp.v ===== *)
(** Go's regexp package for the patterns of the proxy: a backtracking matcher
    that prefers what a search finds first (greedy or lazy repetition, the left
    alternative), which is the match the package returns, and the leftmost
    search of [FindSubmatch].  Classes are of ASCII bytes, so matching bytes and
    matching UTF-8 characters agree.

    [matches] is the language of a pattern, independent of the search;
    [FindSubmatch_Some] and [FindSubmatch_None] relate the two. *)
From Stdlib Require Import ZArith Lia Strings.Byte.
From stdpp Require Import base list strings gmap.
From S2P Require Import Prelude GoLib.

Inductive regexp :=
  | Empty
  | Class (p : byte -> bool)
  | Seq (r1 r2 : regexp)
  | Alt (r1 r2 : regexp)
  | Star (r : regexp)
  | LazyStar (r : regexp)                      (* r*? *)
  | Group (name : string) (r : regexp).        (* (?P<name>r) *)

Definition Plus (r : regexp) : regexp := Seq r (Star r).
Definition Opt (r : regexp) : regexp := Alt r Empty.
Fixpoint Lit (w : bytes) : regexp :=
  match w with
  | [] => Empty
  | b :: w' => Seq (Class (fun x => bool_decide (x = b))) (Lit w')
  end.

(** The submatches of the named groups, the last one first. *)
Abbreviation caps := (list (string * bytes)).

Definition submatch (c : caps) (name : string) : bytes :=
  default [] (snd <$> (snd <$> list_find (fun e => fst e = name) c)).

(** ** The search *)

Section exec.
Context {A : Type}.
Abbreviation cont := (bytes -> caps -> option A).

(** Repetition of [body], as often as possible; each one takes a byte, so
    [S (length s)] is enough fuel ([star_fuel]). *)
Fixpoint star_iter (body : bytes -> caps -> cont -> option A) (fuel : nat)
    (s : bytes) (c : caps) (k : cont) : option A :=
  match fuel with
  | O => k s c
  | S fuel' =>
      match body s c (fun s' c' => if (length s' <? length s)%nat then star_iter body fuel' s' c' k else None) with
      | Some a => Some a
      | None => k s c
      end
  end.

(** Repetition as seldom as possible. *)
Fixpoint lazy_iter (body : bytes -> caps -> cont -> option A) (fuel : nat)
    (s : bytes) (c : caps) (k : cont) : option A :=
  match fuel with
  | O => k s c
  | S fuel' =>
      match k s c with
      | Some a => Some a
      | None => body s c (fun s' c' => if (length s' <? length s)%nat then lazy_iter body fuel' s' c' k else None)
      end
  end.

(** Matches a prefix of [s] and goes on with [k]; the first way that succeeds. *)
Fixpoint exec (r : regexp) (s : bytes) (c : caps) (k : cont) : option A :=
  match r with
  | Empty => k s c
  | Class p => match s with b :: s' => if p b then k s' c else None | [] => None end
  | Seq r1 r2 => exec r1 s c (fun s' c' => exec r2 s' c' k)
  | Alt r1 r2 => match exec r1 s c k with Some a => Some a | None => exec r2 s c k end
  | Star r1 => star_iter (exec r1) (S (length s)) s c k
  | LazyStar r1 => lazy_iter (exec r1) (S (length s)) s c k
  | Group n r1 => exec r1 s c (fun s' c' => k s' ((n, take (length s - length s') s) :: c'))
  end.

(** Equal continuations give equal results. *)
Lemma exec_ext r : forall s c (k k' : cont),
  (forall s' c', k s' c' = k' s' c') -> exec r s c k = exec r s c k'.
Proof.
  induction r as [|p|r1 IH1 r2 IH2|r1 IH1 r2 IH2|r1 IH1|r1 IH1|n r1 IH1]; intros s c k k' H; cbn [exec].
  - apply H.
  - destruct s as [|b s]; [done|]. by destruct (p b).
  - apply IH1. intros. by apply IH2.
  - by rewrite (IH1 _ _ k k' H), (IH2 _ _ k k' H).
  - generalize (S (length s)) as f. intros f. revert s c. induction f as [|f IH]; intros s c; cbn [star_iter]; [apply H|].
    erewrite IH1; [by rewrite H|]. intros s' c'. cbv beta. by rewrite IH.
  - generalize (S (length s)) as f. intros f. revert s c. induction f as [|f IH]; intros s c; cbn [lazy_iter]; [apply H|].
    rewrite H. destruct (k' s c); [done|]. apply IH1. intros s' c'. cbv beta. by rewrite IH.
  - apply IH1. intros. apply H.
Qed.

(** With enough fuel, more makes no difference. *)
Lemma star_fuel r f f' s c (k : cont) :
  (length s < f)%nat -> (length s < f')%nat ->
  star_iter (exec r) f s c k = star_iter (exec r) f' s c k.
Proof.
  revert f' s c. induction f as [|f IH]; intros [|f'] s c Hf Hf'; [lia..|]. cbn [star_iter].
  erewrite exec_ext; [done|]. intros s' c'. cbv beta.
  destruct (Nat.ltb_spec (length s') (length s)); [apply IH; lia|done].
Qed.

Lemma exec_Star r s c (k : cont) :
  exec (Star r) s c k =
  match exec r s c (fun s' c' => if (length s' <? length s)%nat then exec (Star r) s' c' k else None) with
  | Some a => Some a
  | None => k s c
  end.
Proof.
  change (exec (Star r) s c k) with (star_iter (exec r) (S (length s)) s c k). cbn [star_iter].
  erewrite exec_ext; [done|]. intros s' c'. cbv beta.
  destruct (Nat.ltb_spec (length s') (length s)); [|done].
  apply (star_fuel r (length s) (S (length s'))); lia.
Qed.

Lemma lazy_fuel r f f' s c (k : cont) :
  (length s < f)%nat -> (length s < f')%nat ->
  lazy_iter (exec r) f s c k = lazy_iter (exec r) f' s c k.
Proof.
  revert f' s c. induction f as [|f IH]; intros [|f'] s c Hf Hf'; [lia..|]. cbn [lazy_iter].
  destruct (k s c); [done|]. apply exec_ext. intros s' c'. cbv beta.
  destruct (Nat.ltb_spec (length s') (length s)); [apply IH; lia|done].
Qed.

Lemma exec_LazyStar r s c (k : cont) :
  exec (LazyStar r) s c k =
  match k s c with
  | Some a => Some a
  | None => exec r s c (fun s' c' => if (length s' <? length s)%nat then exec (LazyStar r) s' c' k else None)
  end.
Proof.
  change (exec (LazyStar r) s c k) with (lazy_iter (exec r) (S (length s)) s c k). cbn [lazy_iter].
  destruct (k s c); [done|]. apply exec_ext. intros s' c'. cbv beta.
  destruct (Nat.ltb_spec (length s') (length s)); [|done].
  apply (lazy_fuel r (length s) (S (length s'))); lia.
Qed.
End exec.

(** [re.FindSubmatch(s)]: the leftmost position where the pattern matches. *)
Fixpoint FindSubmatch (r : regexp) (s : bytes) : option caps :=
  match exec r s [] (fun _ c => Some c) with
  | Some c => Some c
  | None => match s with [] => None | _ :: s' => FindSubmatch r s' end
  end.

(** ** The language *)

(** [matches r w c c']: [r] matches the word [w], recording its groups on top
    of [c]. *)
Inductive matches : regexp -> bytes -> caps -> caps -> Prop :=
  | m_Empty c : matches Empty [] c c
  | m_Class p b c : p b = true -> matches (Class p) [b] c c
  | m_Seq r1 r2 w1 w2 c c1 c2 :
      matches r1 w1 c c1 -> matches r2 w2 c1 c2 -> matches (Seq r1 r2) (w1 ++ w2) c c2
  | m_Alt_l r1 r2 w c c' : matches r1 w c c' -> matches (Alt r1 r2) w c c'
  | m_Alt_r r1 r2 w c c' : matches r2 w c c' -> matches (Alt r1 r2) w c c'
  | m_Star_nil r c : matches (Star r) [] c c
  | m_Star_cons r w1 w2 c c1 c2 :
      matches r w1 c c1 -> w1 <> [] -> matches (Star r) w2 c1 c2 -> matches (Star r) (w1 ++ w2) c c2
  | m_LazyStar_nil r c : matches (LazyStar r) [] c c
  | m_LazyStar_cons r w1 w2 c c1 c2 :
      matches r w1 c c1 -> w1 <> [] -> matches (LazyStar r) w2 c1 c2 -> matches (LazyStar r) (w1 ++ w2) c c2
  | m_Group n r w c c' : matches r w c c' -> matches (Group n r) w c ((n, w) :: c').
#[export] Hint Constructors matches : core.

(** What the search finds is a match. *)
Lemma exec_sound {A} r : forall s c (k : bytes -> caps -> option A) a,
  exec r s c k = Some a -> exists w s' c', s = w ++ s' /\ matches r w c c' /\ k s' c' = Some a.
Proof.
  induction r as [|p|r1 IH1 r2 IH2|r1 IH1 r2 IH2|r1 IH1|r1 IH1|n r1 IH1]; intros s c k a H.
  - exists [], s, c. auto.
  - destruct s as [|b s]; [done|]. cbn [exec] in H. destruct (p b) eqn:E; [|done]. exists [b], s, c. auto.
  - cbn [exec] in H. apply IH1 in H as (w1 & s1 & c1 & -> & M1 & H). apply IH2 in H as (w2 & s2 & c2 & -> & M2 & H).
    exists (w1 ++ w2), s2, c2. rewrite app_assoc. eauto.
  - cbn [exec] in H. destruct (exec r1 s c k) as [a'|] eqn:E.
    + injection H as ->. apply IH1 in E as (w & s' & c' & ? & ? & ?). exists w, s', c'. auto.
    + apply IH2 in H as (w & s' & c' & ? & ? & ?). exists w, s', c'. auto.
  - remember (length s) as n eqn:Hn. revert s c Hn H.
    induction (lt_wf n) as [n _ IH]. intros s c -> H. rewrite exec_Star in H.
    destruct (exec r1 s c _) as [a'|] eqn:E; [|exists [], s, c; auto]. injection H as ->.
    apply IH1 in E as (w1 & s1 & c1 & -> & M1 & E).
    destruct (Nat.ltb_spec (length s1) (length (w1 ++ s1))) as [Hlt|]; [|done].
    destruct (IH _ Hlt s1 c1 eq_refl E) as (w2 & s2 & c2 & -> & M2 & Hk).
    exists (w1 ++ w2), s2, c2. rewrite app_assoc. split; [done|]. split; [|done].
    econstructor; eauto. intros ->. simpl in Hlt. lia.
  - remember (length s) as n eqn:Hn. revert s c Hn H.
    induction (lt_wf n) as [n _ IH]. intros s c -> H. rewrite exec_LazyStar in H.
    destruct (k s c) as [a'|] eqn:E; [injection H as ->; exists [], s, c; auto|].
    apply IH1 in H as (w1 & s1 & c1 & -> & M1 & H).
    destruct (Nat.ltb_spec (length s1) (length (w1 ++ s1))) as [Hlt|]; [|done].
    destruct (IH _ Hlt s1 c1 eq_refl H) as (w2 & s2 & c2 & -> & M2 & Hk).
    exists (w1 ++ w2), s2, c2. rewrite app_assoc. split; [done|]. split; [|done].
    econstructor; eauto. intros ->. simpl in Hlt. lia.
  - cbn [exec] in H. apply IH1 in H as (w & s' & c' & -> & M & H). exists w, s', ((n, w) :: c').
    rewrite length_app, Nat.add_sub, take_app_length in H. auto.
Qed.

(** The search finds a match if there is one. *)
Lemma exec_complete {A} r w c c' : matches r w c c' -> forall s' (k : bytes -> caps -> option A),
  is_Some (k s' c') -> is_Some (exec r (w ++ s') c k).
Proof.
  induction 1 as [c|p b c Hp|r1 r2 w1 w2 c c1 c2 M1 IH1 M2 IH2|r1 r2 w c c' M IH|r1 r2 w c c' M IH|r c
    |r w1 w2 c c1 c2 M1 IH1 Hne M2 IH2|r c|r w1 w2 c c1 c2 M1 IH1 Hne M2 IH2|n r w c c' M IH]; intros s' k Hk.
  - done.
  - cbn [exec app]. by rewrite Hp.
  - cbn [exec]. rewrite <- app_assoc. apply IH1. by apply IH2.
  - cbn [exec]. destruct (IH s' k Hk) as [a ->]. eauto.
  - cbn [exec]. destruct (exec r1 (w ++ s') c k); [eauto|]. by apply IH.
  - rewrite exec_Star. destruct (exec r _ c _); eauto.
  - rewrite exec_Star, <- app_assoc.
    destruct (IH1 (w2 ++ s') (fun s0 c0 => if (length s0 <? length (w1 ++ w2 ++ s'))%nat
      then exec (Star r) s0 c0 k else None)) as [a ->]; [|eauto].
    rewrite (proj2 (Nat.ltb_lt _ _)); [by apply IH2|]. rewrite (length_app w1). destruct w1; [done|simpl; lia].
  - rewrite exec_LazyStar. simpl. destruct (k s' c); [eauto|by destruct Hk].
  - rewrite exec_LazyStar, <- app_assoc. destruct (k _ c); [eauto|]. apply IH1.
    rewrite (proj2 (Nat.ltb_lt _ _)); [by apply IH2|]. rewrite (length_app w1). destruct w1; [done|simpl; lia].
  - cbn [exec]. apply IH. by rewrite length_app, Nat.add_sub, take_app_length.
Qed.

(** [FindSubmatch] finds the leftmost match, if there is one. *)
Lemma FindSubmatch_Some r s c :
  FindSubmatch r s = Some c -> exists pre w post, s = pre ++ w ++ post /\ matches r w [] c /\
    (forall pre' w' post' c', s = pre' ++ w' ++ post' -> matches r w' [] c' -> (length pre <= length pre')%nat).
Proof.
  revert c. induction s as [|b s IH]; intros c H; cbn [FindSubmatch] in H;
    (destruct (exec r _ [] _) as [c0|] eqn:E;
      [injection H as <-; apply exec_sound in E as (w & s' & c' & E & M & [= ->]);
       exists [], w, s'; split; [exact E|]; split; [done|simpl; lia]|]); [done|].
  destruct (IH c H) as (pre & w & post & -> & M & Hmin). exists (b :: pre), w, post. split; [done|]. split; [done|].
  intros [|b' pre'] w' post' c' E' M'; simpl.
  - exfalso. destruct (exec_complete r w' [] c' M' post' (fun _ c => Some c)) as [a Ha]; [done|].
    simpl in E'. congruence.
  - apply le_n_S. injection E' as _ E'. by eapply Hmin.
Qed.

Lemma FindSubmatch_None r s :
  FindSubmatch r s = None <-> forall pre w post c, s = pre ++ w ++ post -> ~ matches r w [] c.
Proof.
  split.
  - induction s as [|b s IH]; intros H pre w post c E M; cbn [FindSubmatch] in H;
      (destruct (exec r _ [] _) as [c0|] eqn:Ex; [done|]).
    + symmetry in E. apply app_eq_nil in E as [-> E].
      destruct (exec_complete r w [] c M post (fun _ c => Some c)) as [a Ha]; [done|]. congruence.
    + destruct pre as [|b' pre].
      * destruct (exec_complete r w [] c M post (fun _ c => Some c)) as [a Ha]; [done|]. simpl in E. congruence.
      * injection E as _ E. by eapply (IH H).
  - intros H. destruct (FindSubmatch r s) as [c|] eqn:E; [|done].
    apply FindSubmatch_Some in E as (pre & w & post & E & M & _). by destruct (H _ _ _ _ E M).
Qed.

(** ** Matches without a choice *)

(** [takes P r w c c']: at [w] followed by any [s] with [P s], the first way to
    match [r] is [w]. *)
Definition takes (P : bytes -> Prop) (r : regexp) (w : bytes) (c c' : caps) : Prop :=
  forall A s (k : bytes -> caps -> option A) a, P s -> k s c' = Some a -> exec r (w ++ s) c k = Some a.
Definition fails (P : bytes -> Prop) (r : regexp) : Prop :=
  forall A s c (k : bytes -> caps -> option A), P s -> exec r s c k = None.

(** The next byte is not in the class. *)
Definition stops (p : byte -> bool) (s : bytes) : Prop :=
  match s with [] => True | b :: _ => p b = false end.

Section takes.
Implicit Types (P Q : bytes -> Prop) (r : regexp) (w : bytes) (c : caps).

Lemma takes_Empty P c : takes P Empty [] c c.
Proof. by intros A s k a _ H. Qed.

Lemma takes_Class P p b c : p b = true -> takes P (Class p) [b] c c.
Proof. intros Hb A s k a _ H. cbn [exec app]. by rewrite Hb. Qed.

Lemma takes_weaken P Q r w c c' : (forall s, Q s -> P s) -> takes P r w c c' -> takes Q r w c c'.
Proof. intros HPQ H A s k a Hs. by apply H, HPQ. Qed.

Lemma takes_Seq P Q r1 r2 w1 w2 c c1 c2 :
  takes P r1 w1 c c1 -> (forall s, Q s -> P (w2 ++ s)) -> takes Q r2 w2 c1 c2 ->
  takes Q (Seq r1 r2) (w1 ++ w2) c c2.
Proof.
  intros H1 HP H2 A s k a Hs Hk. cbn [exec]. rewrite <- app_assoc. apply H1; [by apply HP|]. by apply H2.
Qed.

Lemma takes_Alt_l P r1 r2 w c c' : takes P r1 w c c' -> takes P (Alt r1 r2) w c c'.
Proof. intros H A s k a Hs Hk. cbn [exec]. by rewrite (H _ _ _ _ Hs Hk). Qed.

Lemma takes_Alt_r P r1 r2 w c c' :
  (forall A s (k : bytes -> caps -> option A), P s -> exec r1 (w ++ s) c k = None) -> takes P r2 w c c' ->
  takes P (Alt r1 r2) w c c'.
Proof. intros H1 H A s k a Hs Hk. cbn [exec]. rewrite H1 by done. by apply H. Qed.

Lemma takes_Group P n r w c c' : takes P r w c c' -> takes P (Group n r) w c ((n, w) :: c').
Proof.
  intros H A s k a Hs Hk. cbn [exec]. apply H; [done|]. by rewrite length_app, Nat.add_sub, take_app_length.
Qed.

(** Greedy repetition of words, up to where the body fails. *)
Lemma takes_Star P r ws c :
  Forall (fun w => w <> [] /\ takes (fun _ => True) r w c c) ws -> fails P r ->
  takes P (Star r) (concat ws) c c.
Proof.
  intros H Hf A s k a Hs Hk. induction H as [|w ws [Hne Hw] H IH]; rewrite exec_Star; cbn [concat app].
  - by rewrite Hf.
  - rewrite <- app_assoc. rewrite (Hw _ (concat ws ++ s) _ a); [done..|].
    rewrite (proj2 (Nat.ltb_lt _ _)); [done|]. rewrite (length_app w). destruct w; [done|simpl; lia].
Qed.

Lemma fails_Class P p : (forall s, P s -> stops p s) -> fails P (Class p).
Proof.
  intros H A s c k Hs. specialize (H s Hs). destruct s as [|b s]; [done|]. cbn [exec]. simpl in H. by rewrite H.
Qed.

Lemma fails_Seq P r1 r2 : fails P r1 -> fails P (Seq r1 r2).
Proof. intros H A s c k Hs. cbn [exec]. by apply H. Qed.

Lemma fails_Alt P r1 r2 : fails P r1 -> fails P r2 -> fails P (Alt r1 r2).
Proof. intros H1 H2 A s c k Hs. cbn [exec]. by rewrite H1, H2. Qed.

(** A run of bytes of a class, and a literal. *)
Lemma takes_run P r w c :
  Forall (fun b => forall P, takes P r [b] c c) w -> fails P r -> takes P (Star r) w c c.
Proof.
  intros H Hf. replace w with (concat ((fun b => [b]) <$> w)) by (by induction w; simpl; [|f_equal; apply IHw; inversion H]).
  apply takes_Star; [|done]. apply Forall_fmap. eapply Forall_impl; [exact H|]. intros b Hb. split; [done|apply Hb].
Qed.

Lemma takes_Plus P r b w c :
  Forall (fun b => forall P, takes P r [b] c c) (b :: w) -> fails P r -> takes P (Plus r) (b :: w) c c.
Proof.
  intros H Hf. apply (takes_Seq (fun _ => True) P r (Star r) [b] w c c c); [|done|].
  - by apply (Forall_inv H).
  - apply takes_run; [by apply (Forall_inv_tail H)|done].
Qed.

Lemma takes_Lit P w c : takes P (Lit w) w c c.
Proof.
  induction w as [|b w IH]; [apply takes_Empty|]. cbn [Lit].
  apply (takes_Seq (fun _ => True) P _ _ [b] w c c c); [|done|exact IH].
  apply takes_Class. by apply bool_decide_eq_true.
Qed.

Lemma fails_Lit P b w : (forall s, P s -> head s <> Some b) -> fails P (Lit (b :: w)).
Proof.
  intros H. cbn [Lit]. apply fails_Seq, fails_Class. intros s Hs. specialize (H s Hs).
  destruct s as [|x s]; [done|]. simpl in *. apply bool_decide_eq_false. congruence.
Qed.

(** The whole string is found if the pattern takes it from the start. *)
Lemma FindSubmatch_takes P r w s c : takes P r w [] c -> P s -> FindSubmatch r (w ++ s) = Some c.
Proof. intros H Hs. destruct (w ++ s) eqn:E; cbn [FindSubmatch]; rewrite <- E, (H _ s _ c); done. Qed.
End takes.
