(* ===== verification/OAuthBearer.v ===== *)
(** The OAUTHBEARER client messages (proxy/sasl_oauthbearer.go): the patterns of
    the initial client response, its parser, and its printer. *)
From Stdlib Require Import ZArith Lia Strings.Byte.
From stdpp Require Import base list strings gmap.
From S2P Require Import Prelude GoLib GoStrings Regexp.

Definition in_range (lo hi : Z) (b : byte) : bool := (lo <=? byteZ b) && (byteZ b <=? hi).

Definition saslOauthSeparator : byte := x01.
Definition equals : byte := x3d.
Definition comma : byte := x2c.

(** (?:[\x01-\x2b]|[\x2d-\x3c]|[\x3e-\x7F]|=2C|=3D)+ *)
Definition saslOauthSaslName : regexp :=
  Plus (Alt (Class (in_range 1 43)) (Alt (Class (in_range 45 60)) (Alt (Class (in_range 62 127))
    (Alt (Lit ($"=2C")) (Lit ($"=3D")))))).
(** [A-Za-z]+ *)
Definition letter (b : byte) : bool := in_range 65 90 b || in_range 97 122 b.
Definition saslOauthKey : regexp := Plus (Class letter).
(** [\x21-\x7E \t\r\n]+ *)
Definition value_byte (b : byte) : bool :=
  in_range 33 126 b || (byteZ b =? 32) || (byteZ b =? 9) || (byteZ b =? 13) || (byteZ b =? 10).
Definition saslOauthValue : regexp := Plus (Class value_byte).
Definition saslOauthAuthKey : bytes := $"auth".

(** (key=value\x01)*; the group of a pair has no name and is not used. *)
Definition saslOauthKVPairs : regexp :=
  Star (Seq saslOauthKey (Seq (Lit [equals]) (Seq saslOauthValue (Lit [saslOauthSeparator])))).

Definition word (b : byte) : bool :=
  in_range 48 57 b || in_range 65 90 b || (byteZ b =? 95) || in_range 97 122 b.
Definition token_byte (b : byte) : bool :=
  (byteZ b =? 45) || (byteZ b =? 95) || (byteZ b =? 46) || in_range 97 122 b || in_range 65 90 b || in_range 48 57 b.
Definition space (b : byte) : bool := byteZ b =? 32.

(** (?P<scheme>\w+)[ ]+(?P<token>[-_.a-zA-Z0-9]+) *)
Definition saslOauthAuthPattern : regexp :=
  Seq (Group "scheme" (Plus (Class word)))
    (Seq (Plus (Class space)) (Group "token" (Plus (Class token_byte)))).

(** n,(a=(?P<authzid>NAME))?,\x01(?P<kvpairs>KVPAIRS)\x01 *)
Definition saslOauthClientInitialResponsePattern : regexp :=
  Seq (Lit ($"n,"))
    (Seq (Opt (Seq (Lit ($"a=")) (Group "authzid" saslOauthSaslName)))
      (Seq (Lit [comma; saslOauthSeparator])
        (Seq (Group "kvpairs" saslOauthKVPairs) (Lit [saslOauthSeparator])))).

Definition parseMap (mapStr : bytes) (keyValueSeparator elementSeparator : byte) : gmap bytes bytes :=
  if bool_decide (mapStr = []) then ∅
  else foldl (fun result attrval =>
                match SplitN2 keyValueSeparator attrval with
                | [k; v] => <[k := v]> result
                | _ => result
                end) ∅ (Split elementSeparator mapStr).

(** [match[i]] of a nil [match] panics. *)
Definition parseToken (auth : bytes) : res bytes :=
  if bool_decide (auth = []) then
    Err (Errorf "invalid OAUTHBEARER initial client response: 'auth' not specified")
  else
    match FindSubmatch saslOauthAuthPattern auth with
    | None => Panic "index out of range [1] with length 0"
    | Some result =>
        if negb (EqualFold (submatch result "scheme") ($"bearer")) then
          Err (Errorf "invalid scheme in OAUTHBEARER initial client response: %s")
        else if bool_decide (submatch result "token" = []) then
          Err (Errorf "invalid OAUTHBEARER initial client response: 'token' is missing")
        else Ok (submatch result "token")
    end.

Definition GetClientInitialResponse (saslAuthBytes : bytes) : res (bytes * bytes * gmap bytes bytes) :=
  match FindSubmatch saslOauthClientInitialResponsePattern saslAuthBytes with
  | None => Err (Errorf "invalid OAUTHBEARER initial client response: 'saslAuthBytes' parse error")
  | Some result =>
      let authzid := submatch result "authzid" in
      let kvpairs := submatch result "kvpairs" in
      let properties := parseMap kvpairs equals saslOauthSeparator in
      let? token := parseToken (default [] (properties !! saslOauthAuthKey)) in
      Ok (token, authzid, delete saslOauthAuthKey properties)
  end.

(** The pairs in the order of [map_to_list]; the code's order is not specified. *)
Definition mkString (mapValues : gmap bytes bytes) (keyValueSeparator elementSeparator : byte) : bytes :=
  if (size mapValues =? 0)%nat then []
  else Join elementSeparator
         ((fun e : bytes * bytes => Join keyValueSeparator [fst e; snd e]) <$> map_to_list mapValues).

Definition ToBytes (tokenValue authorizationId : bytes) (saslExtensions : gmap bytes bytes) : bytes :=
  let authzid := if bool_decide (authorizationId = []) then [] else $"a=" ++ authorizationId in
  let extensions := mkString saslExtensions equals saslOauthSeparator in
  let extensions := if bool_decide (extensions = []) then [] else saslOauthSeparator :: extensions in
  $"n," ++ authzid ++ [comma; saslOauthSeparator] ++ $"auth=Bearer " ++ tokenValue ++ extensions ++
  [saslOauthSeparator; saslOauthSeparator].

(** The messages of the package's tests. *)
Example oauth_AuthorizationId :
  GetClientInitialResponse ($"n,a=myuser," ++ [x01] ++ $"auth=Bearer 345" ++ [x01; x01]) = Ok ($"345", $"myuser", ∅).
Proof. vm_compute. reflexivity. Qed.
Example oauth_Extensions :
  GetClientInitialResponse ($"n,," ++ [x01] ++ $"propA=valueA1, valueA2" ++ [x01] ++ $"auth=Bearer 567" ++ [x01] ++ $"propB=valueB" ++ [x01; x01]) =
  Ok ($"567", [], {[ $"propA" := $"valueA1, valueA2"; $"propB" := $"valueB" ]}).
Proof. vm_compute. reflexivity. Qed.
Example oauth_Bearer_only :
  GetClientInitialResponse ($"n,," ++ [x01] ++ $"auth=Bearer" ++ [x01; x01]) = Panic "index out of range [1] with length 0".
Proof. vm_compute. reflexivity. Qed.
