(* ===== verification/OAuthFacts.v ===== *)
(** The initial client response of OAUTHBEARER: the pattern takes what [ToBytes]
    prints, and [parseMap] reads its pairs back. *)
From Stdlib Require Import ZArith Lia Strings.Byte.
From stdpp Require Import base list strings gmap.
From S2P Require Import Prelude GoLib GoStrings Regexp OAuthBearer.

(** ** The parts of the pattern *)

Abbreviation all p w := (Forall (fun b => p b = true) w).

Lemma takes_class_run P p b w c :
  all p (b :: w) -> (forall s, P s -> stops p s) -> takes P (Plus (Class p)) (b :: w) c c.
Proof.
  intros H HP. apply takes_Plus; [|by apply fails_Class].
  eapply Forall_impl; [exact H|]. intros x Hx Q. by apply takes_Class.
Qed.

(** A byte a SASL name may hold unescaped. *)
Definition saslname_byte (b : byte) : bool := in_range 1 43 b || in_range 45 60 b || in_range 62 127 b.

Lemma takes_name P b w c :
  all saslname_byte (b :: w) -> (forall s, P s -> head s = Some comma) -> takes P saslOauthSaslName (b :: w) c c.
Proof.
  intros H HP. unfold saslOauthSaslName. apply takes_Plus.
  - eapply Forall_impl; [exact H|]. intros x Hx Q. unfold saslname_byte in Hx.
    destruct (in_range 1 43 x) eqn:E1; [by apply takes_Alt_l, takes_Class|].
    apply takes_Alt_r; [intros; cbn [exec app]; by rewrite E1|].
    destruct (in_range 45 60 x) eqn:E2; [by apply takes_Alt_l, takes_Class|].
    apply takes_Alt_r; [intros; cbn [exec app]; by rewrite E2|].
    apply takes_Alt_l, takes_Class. done.
  - repeat apply fails_Alt; try apply fails_Lit; try apply fails_Class; intros s Hs; apply HP in Hs;
      destruct s as [|x s]; try done; injection Hs as ->; done.
Qed.

(** ** Pairs *)

Definition pair_word (e : bytes * bytes) : bytes := fst e ++ [equals] ++ snd e.
Definition pair_ok (e : bytes * bytes) : Prop :=
  fst e <> [] /\ all letter (fst e) /\ snd e <> [] /\ all value_byte (snd e).

(** Every pair with the separator behind it. *)
Definition pairs_bytes (l : list (bytes * bytes)) : bytes :=
  concat ((fun e => pair_word e ++ [saslOauthSeparator]) <$> l).

Lemma takes_pairs l c :
  Forall pair_ok l -> takes (fun s => head s = Some saslOauthSeparator) saslOauthKVPairs (pairs_bytes l) c c.
Proof.
  intros H. apply takes_Star.
  - apply Forall_fmap. eapply Forall_impl; [exact H|]. intros [k v] (Hk & Ak & Hv & Av). cbn [fst snd] in *.
    destruct k as [|x k]; [done|]. destruct v as [|y v]; [done|].
    unfold compose. cbv beta. unfold pair_word. cbn [fst snd]. split; [discriminate|]. rewrite <- !app_assoc.
    apply (takes_Seq (stops letter) (fun _ => True) _ _ (x :: k) ([equals] ++ (y :: v) ++ [saslOauthSeparator]) c c c).
    + by apply takes_class_run.
    + intros s _. reflexivity.
    + apply (takes_Seq (fun _ => True) _ _ _ [equals] ((y :: v) ++ [saslOauthSeparator]) c c c);
        [apply takes_Lit|done|].
      apply (takes_Seq (stops value_byte) (fun _ => True) _ _ (y :: v) [saslOauthSeparator] c c c).
      * by apply takes_class_run.
      * intros s _. reflexivity.
      * apply takes_Lit.
  - apply fails_Seq. apply fails_Seq, fails_Class. intros [|b s] Hs; [done|]. by injection Hs as ->.
Qed.

(** ** The message *)

Definition authzid_bytes (a : bytes) : bytes := if bool_decide (a = []) then [] else $"a=" ++ a.

Definition message (authzid : bytes) (pairs : list (bytes * bytes)) : bytes :=
  $"n," ++ authzid_bytes authzid ++ [comma; saslOauthSeparator] ++ pairs_bytes pairs ++ [saslOauthSeparator].

Lemma takes_authzid a : all saslname_byte a ->
  exists c, takes (fun s => head s = Some comma) (Opt (Seq (Lit ($"a=")) (Group "authzid" saslOauthSaslName)))
    (authzid_bytes a) [] c /\ (forall k, submatch (("kvpairs"%string, k) :: c) "authzid" = a) .
Proof.
  intros H. unfold authzid_bytes. case_bool_decide as Ha.
  - subst a. exists []. split; [|done]. apply takes_Alt_r; [|apply takes_Empty].
    intros A s k Hs. apply fails_Seq with (P := fun s => head s = Some comma); [|done].
    apply fails_Lit. intros s' Hs' E. rewrite Hs' in E. discriminate.
  - destruct a as [|b a]; [done|]. exists [("authzid"%string, b :: a)]. split; [|done]. apply takes_Alt_l.
    apply (takes_Seq (fun _ => True) _ _ _ ($"a=") (b :: a) [] []); [apply takes_Lit|done|].
    apply takes_Group. by apply takes_name.
Qed.

Lemma FindSubmatch_message a l :
  all saslname_byte a -> Forall pair_ok l ->
  exists c, FindSubmatch saslOauthClientInitialResponsePattern (message a l) = Some c /\
    submatch c "authzid" = a /\ submatch c "kvpairs" = pairs_bytes l.
Proof.
  intros Ha Hl. destruct (takes_authzid a Ha) as (c & Hc & Hs).
  exists (("kvpairs"%string, pairs_bytes l) :: c). split; [|split; [apply Hs|done]].
  rewrite <- (app_nil_r (message a l)). apply (FindSubmatch_takes (fun _ => True)); [|done].
  unfold message, saslOauthClientInitialResponsePattern.
  apply (takes_Seq (fun _ => True) _ _ _ ($"n,") _ [] []); [apply takes_Lit|done|].
  eapply (takes_Seq (fun s => head s = Some comma) _ _ _ (authzid_bytes a) _ [] c); [exact Hc|done|].
  eapply (takes_Seq (fun _ => True) _ _ _ [comma; saslOauthSeparator] _ c c); [apply takes_Lit|done|].
  eapply (takes_Seq (fun s => head s = Some saslOauthSeparator) _ _ _ (pairs_bytes l) [saslOauthSeparator] c);
    [apply takes_Group; by apply takes_pairs|done|apply takes_Lit].
Qed.

(** ** [parseMap] *)

Definition set_pair (m : gmap bytes bytes) (attrval : bytes) : gmap bytes bytes :=
  match SplitN2 equals attrval with
  | [k; v] => <[k := v]> m
  | _ => m
  end.

Lemma class_notin (p : byte -> bool) (b : byte) (w : bytes) : all p w -> p b = false -> b ∉ w.
Proof. intros H Hb Hin. rewrite Forall_forall in H. specialize (H b Hin). simpl in H. congruence. Qed.

Lemma Split_pairs l : Forall pair_ok l ->
  Split saslOauthSeparator (pairs_bytes l) = (pair_word <$> l) ++ [[]].
Proof.
  induction 1 as [|[k v] l (Hk & Ak & Hv & Av) H IH]; [done|]. cbn [fst snd] in *.
  unfold pairs_bytes in *. cbn [fmap list_fmap concat]. rewrite <- app_assoc. cbn [app].
  rewrite Split_app; [by rewrite IH|]. unfold pair_word. cbn [fst snd]. rewrite !elem_of_app, list_elem_of_singleton.
  pose proof (class_notin letter saslOauthSeparator k Ak eq_refl).
  pose proof (class_notin value_byte saslOauthSeparator v Av eq_refl). intros [?|[E|?]]; [done|discriminate E|done].
Qed.

Lemma foldl_set_pairs (l : list (bytes * bytes)) (m : gmap bytes bytes) : Forall pair_ok l ->
  foldl set_pair m ((pair_word <$> l) ++ [[]]) = foldl (fun m e => <[fst e := snd e]> m) m l.
Proof.
  intros H. rewrite foldl_app. cbn [foldl]. unfold set_pair at 1. cbn. revert m.
  induction H as [|[k v] l (Hk & Ak & Hv & Av) H IH]; intros m; [done|]. cbn [fmap list_fmap foldl fst snd] in *.
  rewrite <- IH. f_equal. unfold set_pair, pair_word. cbn [fst snd app].
  by rewrite SplitN2_app by (by apply (class_notin letter)).
Qed.

Lemma foldl_insert_list_to_map (l : list (bytes * bytes)) (m : gmap bytes bytes) :
  NoDup l.*1 -> foldl (fun m e => <[fst e := snd e]> m) m l = list_to_map l ∪ m.
Proof.
  revert m. induction l as [|[k v] l IH]; intros m Hnd; cbn [foldl list_to_map foldr fst snd fmap list_fmap] in *.
  - by rewrite (left_id_L ∅ (∪)).
  - apply NoDup_cons in Hnd as [Hk Hnd]. rewrite IH by done.
    rewrite <- insert_union_r by (by apply not_elem_of_list_to_map_1). apply insert_union_l.
Qed.

Lemma parseMap_pairs l : Forall pair_ok l -> NoDup l.*1 ->
  parseMap (pairs_bytes l) equals saslOauthSeparator = list_to_map l.
Proof.
  intros H Hnd. unfold parseMap. fold set_pair. case_bool_decide as E.
  - destruct l as [|[k v] l]; [done|]. exfalso. apply Forall_inv in H as (Hk & _). cbn [fst] in Hk.
    destruct k; [done|]. discriminate E.
  - rewrite Split_pairs, foldl_set_pairs, foldl_insert_list_to_map by done. apply (right_id_L ∅ (∪)).
Qed.

(** ** The token *)

(** The token ends at the first byte that is not one of a token. *)
Lemma parseToken_Bearer t rest :
  t <> [] -> all token_byte t -> stops token_byte rest -> parseToken ($"Bearer " ++ t ++ rest) = Ok t.
Proof.
  intros Hne Ht Hr. destruct t as [|b t]; [done|]. unfold parseToken. rewrite bool_decide_false by done.
  assert (FindSubmatch saslOauthAuthPattern (($"Bearer " ++ b :: t) ++ rest) =
    Some [("token"%string, b :: t); ("scheme"%string, $"Bearer")]) as E.
  { apply (FindSubmatch_takes (stops token_byte)); [|done]. unfold saslOauthAuthPattern.
    eapply (takes_Seq (stops word) _ _ _ ($"Bearer") ($" " ++ b :: t) [] [("scheme"%string, $"Bearer")]).
    - apply takes_Group. apply takes_class_run; [by repeat constructor|done].
    - done.
    - apply (takes_Seq (stops space) _ _ _ ($" ") (b :: t) _ [("scheme"%string, $"Bearer")]).
      + apply takes_class_run; [by repeat constructor|done].
      + intros s _. apply Forall_inv in Ht. cbn [app stops]. unfold space, token_byte, in_range in *.
        apply Z.eqb_neq. intros E. rewrite E in Ht. discriminate Ht.
      + apply takes_Group. by apply takes_class_run. }
  rewrite <- app_assoc in E. by rewrite E.
Qed.

(** The words of a repeated class. *)
Lemma matches_Star_Class p w c c' : matches (Star (Class p)) w c c' -> all p w /\ c' = c.
Proof.
  remember (Star (Class p)) as r eqn:Er. induction 1 as [| | | | |r c|r w1 w2 c c1 c2 M1 IH1 Hne M2 IH2| | |]; try done.
  injection Er as ->. inversion M1 as [|? b ? Hb| | | | | | | |]; subst.
  destruct (IH2 eq_refl) as [H ->]. split; [|done]. by constructor.
Qed.

Lemma matches_Plus_Class p w c c' : matches (Plus (Class p)) w c c' -> w <> [] /\ all p w /\ c' = c.
Proof.
  intros M. inversion M as [| |? ? ? ? ? c1 ? M1 M2| | | | | | |]; subst. inversion M1 as [|? b ? Hb| | | | | | | |]; subst.
  apply matches_Star_Class in M2 as [H ->]. split; [done|]. split; [|done]. by constructor.
Qed.

(** Scheme, spaces and token of an authorization. *)
Lemma FindSubmatch_auth s c :
  FindSubmatch saslOauthAuthPattern s = Some c ->
  exists pre scheme spaces token post, s = pre ++ scheme ++ spaces ++ token ++ post /\
    scheme <> [] /\ all word scheme /\ spaces <> [] /\ all space spaces /\ token <> [] /\ all token_byte token /\
    submatch c "scheme" = scheme /\ submatch c "token" = token.
Proof.
  intros H. apply FindSubmatch_Some in H as (pre & w & post & -> & M & _).
  inversion M as [| |? ? w1 w' ? c1 ? M1 M'| | | | | | |]; subst.
  inversion M1 as [| | | | | | | | |? ? ? ? c1' M1']; subst. apply matches_Plus_Class in M1' as (N1 & A1 & ->).
  inversion M' as [| |? ? w2 w3 ? c2 ? M2 M3| | | | | | |]; subst. apply matches_Plus_Class in M2 as (N2 & A2 & ->).
  inversion M3 as [| | | | | | | | |? ? ? ? c3 M3']; subst. apply matches_Plus_Class in M3' as (N3 & A3 & ->).
  exists pre, w1, w2, w3, post. rewrite <- !app_assoc. split_and!; try done.
Qed.

Lemma parseToken_no_space v : v <> [] -> Forall (fun b => space b = false) v ->
  parseToken v = Panic "index out of range [1] with length 0".
Proof.
  intros Hne Hs. unfold parseToken. rewrite bool_decide_false by done.
  destruct (FindSubmatch saslOauthAuthPattern v) as [c|] eqn:E; [|done]. exfalso.
  apply FindSubmatch_auth in E as (pre & sc & sp & t & post & -> & _ & _ & Nsp & Asp & _).
  destruct sp as [|b sp]; [done|]. rewrite !Forall_app in Hs. destruct Hs as (_ & _ & Hs & _).
  apply Forall_inv in Hs. apply Forall_inv in Asp. simpl in *. congruence.
Qed.

Lemma parseToken_Ok auth t : parseToken auth = Ok t ->
  exists pre scheme spaces post, auth = pre ++ scheme ++ spaces ++ t ++ post /\
    EqualFold scheme ($"bearer") = true /\ spaces <> [] /\ all space spaces /\ t <> [] /\ all token_byte t.
Proof.
  unfold parseToken. case_bool_decide; [done|].
  destruct (FindSubmatch saslOauthAuthPattern auth) as [c|] eqn:E; [|done].
  apply FindSubmatch_auth in E as (pre & sc & sp & t' & post & -> & _ & _ & Nsp & Asp & Nt & At & -> & ->).
  destruct (EqualFold sc ($"bearer")) eqn:Ef; [|done]. cbn [negb]. rewrite bool_decide_false by done.
  intros [= ->]. exists pre, sc, sp, post. done.
Qed.

(** ** [ToBytes] *)

Lemma Join_pairs l : l <> [] -> Join saslOauthSeparator (pair_word <$> l) ++ [saslOauthSeparator] = pairs_bytes l.
Proof.
  unfold pairs_bytes. intros Hne. destruct l as [|e l]; [done|]. clear Hne. revert e.
  induction l as [|e' l IH]; intros e; [cbn; by rewrite app_nil_r|].
  cbn [fmap list_fmap concat Join] in *. rewrite <- !app_assoc. f_equal. cbn [app]. f_equal.
  specialize (IH e'). rewrite <- app_assoc in IH. exact IH.
Qed.

(** A token, and extensions that do not hide it. *)
Definition token_ok (t : bytes) : Prop := t <> [] /\ all token_byte t.
Definition extensions_ok (e : gmap bytes bytes) : Prop :=
  e !! saslOauthAuthKey = None /\ map_Forall (fun k v => pair_ok (k, v)) e.

Lemma ToBytes_message t a e :
  extensions_ok e -> ToBytes t a e = message a ((saslOauthAuthKey, $"Bearer " ++ t) :: map_to_list e).
Proof.
  intros [_ He]. unfold ToBytes, message. f_equal. fold (authzid_bytes a). f_equal. f_equal.
  unfold mkString. destruct (size e =? 0)%nat eqn:E.
  - apply Nat.eqb_eq, map_size_empty_inv in E as ->. rewrite map_to_list_empty.
    unfold pairs_bytes, pair_word. cbn. rewrite <- !app_assoc. done.
  - destruct (map_to_list e) as [|x l] eqn:El.
    { apply map_to_list_empty_iff in El as ->. rewrite map_size_empty in E. done. }
    fold pair_word. change (fun e0 : bytes * bytes => Join equals [fst e0; snd e0]) with pair_word.
    rewrite bool_decide_false.
    + pose proof (Join_pairs (x :: l) ltac:(done)) as HJ. unfold pairs_bytes in *.
      change (concat ((fun e0 => pair_word e0 ++ [saslOauthSeparator]) <$>
        ((saslOauthAuthKey, $"Bearer " ++ t) :: x :: l)))
        with ((pair_word (saslOauthAuthKey, $"Bearer " ++ t) ++ [saslOauthSeparator]) ++
              concat ((fun e0 => pair_word e0 ++ [saslOauthSeparator]) <$> (x :: l))).
      rewrite <- HJ. unfold pair_word at 1. cbn [fst snd]. rewrite <- !app_assoc. done.
    + cbn. destruct x as [k v]. unfold pair_word. cbn [fst snd]. destruct l; [|destruct k; done].
      destruct k; done.
Qed.

Lemma token_value t : token_ok t -> pair_ok (saslOauthAuthKey, $"Bearer " ++ t).
Proof.
  intros [_ Ht]. split; [done|]. split; [by repeat constructor|]. split; [done|].
  apply Forall_app. split; [by repeat constructor|]. eapply Forall_impl; [exact Ht|].
  intros b. unfold token_byte, value_byte, in_range. cbn.
  destruct (byteZ_range b). lia.
Qed.

Lemma pairs_ok e : extensions_ok e -> Forall pair_ok (map_to_list e).
Proof. intros [_ H]. by apply map_Forall_to_list in H; eapply Forall_impl; [exact H|intros [k v]]. Qed.

(** The pairs of a message whose authorization is [auth]. *)
Lemma GetClientInitialResponse_message a auth e :
  all saslname_byte a -> pair_ok (saslOauthAuthKey, auth) -> extensions_ok e ->
  GetClientInitialResponse (message a ((saslOauthAuthKey, auth) :: map_to_list e)) =
    (let? token := parseToken auth in Ok (token, a, e)).
Proof.
  intros Ha Hauth He. unfold GetClientInitialResponse.
  assert (Forall pair_ok ((saslOauthAuthKey, auth) :: map_to_list e)) as Hl
    by (constructor; [done|by apply pairs_ok]).
  destruct (FindSubmatch_message a _ Ha Hl) as (c & -> & -> & ->).
  rewrite parseMap_pairs; [|done|].
  - cbn [list_to_map foldr fst snd]. rewrite list_to_map_to_list, lookup_insert_eq. cbn [default].
    rewrite delete_insert_id by apply He. done.
  - apply NoDup_cons. split; [|apply NoDup_fst_map_to_list].
    intros ([k v] & Ek & Hin%elem_of_map_to_list)%list_elem_of_fmap. cbn [fst] in Ek.
    destruct He as [He _]. rewrite Ek, Hin in He. done.
Qed.

(** What the printer wrote is read back. *)
Lemma GetClientInitialResponse_ToBytes (t a : bytes) (e : gmap bytes bytes) :
  token_ok t -> all saslname_byte a -> extensions_ok e ->
  GetClientInitialResponse (ToBytes t a e) = Ok (t, a, e).
Proof.
  intros Ht Ha He. rewrite ToBytes_message, GetClientInitialResponse_message by (done || by apply token_value).
  rewrite <- (app_nil_r t) at 1. by rewrite parseToken_Bearer by (done || apply Ht).
Qed.

(** ** Theorems

    The properties of the OAUTHBEARER client messages. *)

(** The initial client response the proxy prints, with an authorization id
    and extensions that need no escaping, is read back with the same token,
    authorization id and extensions: the message that the proxy as a SASL
    client sends is one it accepts as a SASL server.*)
Theorem GetClientInitialResponse_roundtrip (t a : bytes) (e : gmap bytes bytes) :
  token_ok t -> all saslname_byte a -> extensions_ok e ->
  GetClientInitialResponse (ToBytes t a e) = Ok (t, a, e).
Proof. apply GetClientInitialResponse_ToBytes. Qed.

Lemma GetClientInitialResponse_roundtrip_witness :
  GetClientInitialResponse (ToBytes ($"a.b-c") ($"user@example.com") {[ $"host" := $"server" ]}) =
    Ok ($"a.b-c", $"user@example.com", {[ $"host" := $"server" ]}).
Proof.
  apply GetClientInitialResponse_roundtrip.
  - split; [discriminate|]. repeat constructor.
  - repeat constructor.
  - split; [reflexivity|]. apply map_Forall_singleton. split; [discriminate|]. split; [repeat constructor|].
    split; [discriminate|]. repeat constructor.
Defined.

(** What else a client can get from the parser: a token it returns is not
    empty and has token characters only, and [auth] is not among the extensions;
    an authorization without a space (a scheme without a token) makes it panic;
    and a token that goes on with another character is cut there without an
    error.*)
Theorem GetClientInitialResponse_outcomes :
  (forall b t a e, GetClientInitialResponse b = Ok (t, a, e) -> token_ok t /\ e !! saslOauthAuthKey = None) /\
  (forall a v, all saslname_byte a -> v <> [] -> all value_byte v -> Forall (fun b => space b = false) v ->
     GetClientInitialResponse (message a [(saslOauthAuthKey, v)]) = Panic "index out of range [1] with length 0") /\
  (forall t b rest a, token_ok t -> token_byte b = false -> all value_byte (b :: rest) -> all saslname_byte a ->
     GetClientInitialResponse (ToBytes (t ++ b :: rest) a ∅) = Ok (t, a, ∅)).
Proof.
  assert (extensions_ok ∅) as Hempty by (split; [done|apply map_Forall_empty]). split_and!.
  - intros b t a e. unfold GetClientInitialResponse. destruct (FindSubmatch _ b) as [c|]; [|done].
    destruct (parseToken _) as [t'|?|?] eqn:E; [|done..]. cbn [rbind]. intros [= <- <- <-].
    apply parseToken_Ok in E as (? & ? & ? & ? & _ & _ & _ & _ & Hne & Ht). split; [done|apply lookup_delete_eq].
  - intros a v Ha Hne Hv Hs.
    pose proof (GetClientInitialResponse_message a v ∅ Ha) as H. rewrite map_to_list_empty in H.
    rewrite H; [by rewrite parseToken_no_space|by repeat split; try done; repeat constructor|done].
  - intros t b rest a Ht Hb Hr Ha. rewrite ToBytes_message, GetClientInitialResponse_message; try done.
    + by rewrite parseToken_Bearer by (done || apply Ht).
    + destruct (token_value t Ht) as (H1 & H2 & H3 & H4). split; [done|]. split; [done|]. split; [done|].
      cbn [snd] in *. change (t ++ b :: rest) with (t ++ (b :: rest)). rewrite app_assoc. by apply Forall_app.
Qed.

Lemma GetClientInitialResponse_outcomes_witness :
  GetClientInitialResponse (message [] [(saslOauthAuthKey, $"Bearer")]) = Panic "index out of range [1] with length 0" /\
  GetClientInitialResponse (ToBytes ($"abc+def") [] ∅) = Ok ($"abc", [], ∅).
Proof.
  split.
  - apply (proj1 (proj2 GetClientInitialResponse_outcomes)); [constructor|discriminate|repeat constructor|repeat constructor].
  - apply (proj2 (proj2 GetClientInitialResponse_outcomes) ($"abc") x2b ($"def"));
      [split; [discriminate|repeat constructor]|reflexivity|repeat constructor|constructor].
Defined.
