(* ===== verification/Encoder.v ===== *)
(** Writing Kafka primitives (proxy/protocol/packet_encoder.go,
    prep_encoder.go, real_encoder.go, encoder_decoder.go).

    [packetEncoder] is the Go interface; a message's [encode] method is
    polymorphic in it ([encoder]).  [prepEncoder] counts bytes and checks
    limits, [realEncoder] writes into a buffer of exactly the counted size.
    [emits e r] is the contract between the two: [r] is the byte string both
    passes stand for, or the error of the first pass. *)
From Stdlib Require Import ZArith Lia Strings.Byte.
From stdpp Require Import base list strings gmap.
From S2P Require Import Prelude GoLib.

(** ** The interface *)

Class packetEncoder (E : Type) := {
  putInt8 : Z -> M E unit;
  putInt16 : Z -> M E unit;
  putInt32 : Z -> M E unit;
  putInt64 : Z -> M E unit;
  putVarint : Z -> M E unit;
  putArrayLength : Z -> M E unit;
  putBool : bool -> M E unit;
  putBytes : option bytes -> M E unit;
  putUUID : bytes -> M E unit;
  putString : bytes -> M E unit;
  putNullableString : option bytes -> M E unit;
  putStringArray : list bytes -> M E unit;
  putInt32Array : option (list Z) -> M E unit;
  putInt64Array : option (list Z) -> M E unit;
  putVarintBytes : option bytes -> M E unit;
  putCompactBytes : bytes -> M E unit;
  putCompactString : bytes -> M E unit;
  putCompactNullableString : option bytes -> M E unit;
  putCompactArrayLength : Z -> M E unit;
  putCompactNullableArrayLength : Z -> M E unit;
  offset : E -> Z
}.

(** A type implementing [encode(pe packetEncoder) error]. *)
Definition encoder : Type := forall E, packetEncoder E -> M E unit.

(** [for _, val := range in { if err := f(val); err != nil { return err } }] *)
Fixpoint each {S A} (f : A -> M S unit) (l : list A) : M S unit :=
  match l with
  | [] => ret tt
  | x :: l' => do* f x in each f l'
  end.

(** ** [realEncoder] *)

Record realEncoder := { re_raw : bytes; re_off : Z }.

(** [binary.BigEndian.PutUint<8n>(re.raw[re.off:], v); re.off += n] *)
Definition re_put_be (n : nat) (v : Z) : M realEncoder unit := fun re =>
  match slice_from (re_raw re) (re_off re) with
  | Ok tail =>
      if (length tail <? n)%nat then (Panic "index out of range", re)
      else (Ok tt, {| re_raw := splice (re_raw re) (re_off re) (be_put n v);
                      re_off := re_off re + Z.of_nat n |})
  | Err e => (Err e, re)
  | Panic w => (Panic w, re)
  end.

(** [copy(re.raw[re.off:], in); re.off += len(in)] *)
Definition re_copy (b : bytes) : M realEncoder unit := fun re =>
  match copy_at (re_raw re) (re_off re) b with
  | Ok raw => (Ok tt, {| re_raw := raw; re_off := re_off re + len b |})
  | Err e => (Err e, re)
  | Panic w => (Panic w, re)
  end.

Definition re_putInt8 (v : Z) : M realEncoder unit := re_put_be 1 v.
Definition re_putInt16 (v : Z) : M realEncoder unit := re_put_be 2 v.
Definition re_putInt32 (v : Z) : M realEncoder unit := re_put_be 4 v.
Definition re_putInt64 (v : Z) : M realEncoder unit := re_put_be 8 v.

Definition re_putVarint (v : Z) : M realEncoder unit := fun re =>
  match slice_from (re_raw re) (re_off re) with
  | Ok tail =>
      let b := PutUvarint (uint64 v) in
      if (length tail <? length b)%nat then (Panic "index out of range", re)
      else (Ok tt, {| re_raw := splice (re_raw re) (re_off re) b;
                      re_off := re_off re + len b |})
  | Err e => (Err e, re)
  | Panic w => (Panic w, re)
  end.

Definition re_putArrayLength (n : Z) : M realEncoder unit := re_putInt32 (int32 n).
Definition re_putBool (b : bool) : M realEncoder unit :=
  if b then re_putInt8 1 else re_putInt8 0.
Definition re_putRawBytes (b : bytes) : M realEncoder unit := re_copy b.
Definition re_putBytes (b : option bytes) : M realEncoder unit :=
  match b with
  | None => re_putInt32 (-1)
  | Some b => do* re_putInt32 (int32 (len b)) in re_putRawBytes b
  end.
Definition re_putUUID (u : bytes) : M realEncoder unit := re_putRawBytes u.
Definition re_putCompactBytes (b : bytes) : M realEncoder unit :=
  do* re_putVarint (len b + 1) in re_copy b.
Definition re_putVarintBytes (b : option bytes) : M realEncoder unit :=
  match b with
  | None => re_putVarint (-1)
  | Some b => do* re_putVarint (len b) in re_putRawBytes b
  end.
Definition re_putString (s : bytes) : M realEncoder unit :=
  do* re_putInt16 (int16 (len s)) in re_copy s.
Definition re_putNullableString (s : option bytes) : M realEncoder unit :=
  match s with
  | None => re_putInt16 (-1)
  | Some s => re_putString s
  end.
Definition re_putStringArray (l : list bytes) : M realEncoder unit :=
  do* re_putArrayLength (len l) in each re_putString l.
Definition re_putInt32Array (l : option (list Z)) : M realEncoder unit :=
  match l with
  | None => re_putArrayLength (-1)
  | Some l => do* re_putArrayLength (len l) in each re_putInt32 l
  end.
Definition re_putInt64Array (l : option (list Z)) : M realEncoder unit :=
  match l with
  | None => re_putArrayLength (-1)
  | Some l => do* re_putArrayLength (len l) in each re_putInt64 l
  end.
Definition re_offset (re : realEncoder) : Z := re_off re.
Definition re_putCompactString (s : bytes) : M realEncoder unit :=
  do* re_putVarint (len s + 1) in re_copy s.
Definition re_putCompactNullableString (s : option bytes) : M realEncoder unit :=
  match s with
  | None => re_putVarint 0
  | Some s => re_putCompactString s
  end.
Definition re_putCompactArrayLength (n : Z) : M realEncoder unit := re_putVarint (n + 1).
Definition re_putCompactNullableArrayLength (n : Z) : M realEncoder unit := re_putVarint (n + 1).

#[export] Instance realEncoder_packetEncoder : packetEncoder realEncoder := {
  putInt8 := re_putInt8; putInt16 := re_putInt16; putInt32 := re_putInt32;
  putInt64 := re_putInt64; putVarint := re_putVarint;
  putArrayLength := re_putArrayLength; putBool := re_putBool;
  putBytes := re_putBytes; putUUID := re_putUUID; putString := re_putString;
  putNullableString := re_putNullableString; putStringArray := re_putStringArray;
  putInt32Array := re_putInt32Array; putInt64Array := re_putInt64Array;
  putVarintBytes := re_putVarintBytes; putCompactBytes := re_putCompactBytes;
  putCompactString := re_putCompactString;
  putCompactNullableString := re_putCompactNullableString;
  putCompactArrayLength := re_putCompactArrayLength;
  putCompactNullableArrayLength := re_putCompactNullableArrayLength;
  offset := re_offset
}.

(** ** [prepEncoder] *)

Record prepEncoder := { pe_length : Z }.

(** [pe.length += n] *)
Definition pe_add (n : Z) : M prepEncoder unit :=
  modify (fun pe => {| pe_length := pe_length pe + n |}).

Definition pe_putInt8 (v : Z) : M prepEncoder unit := pe_add 1.
Definition pe_putInt16 (v : Z) : M prepEncoder unit := pe_add 2.
Definition pe_putInt32 (v : Z) : M prepEncoder unit := pe_add 4.
Definition pe_putInt64 (v : Z) : M prepEncoder unit := pe_add 8.
Definition pe_putVarint (v : Z) : M prepEncoder unit := pe_add (len (PutUvarint (uint64 v))).
Definition pe_putArrayLength (n : Z) : M prepEncoder unit :=
  if MaxInt32 <? n then fail (PacketEncodingError "array too long (%d)") else pe_add 4.
Definition pe_putBool (b : bool) : M prepEncoder unit := pe_add 1.
Definition pe_putRawBytes (b : bytes) : M prepEncoder unit :=
  if MaxInt32 <? len b then fail (PacketEncodingError "byteslice too long (%d)")
  else pe_add (len b).
Definition pe_putBytes (b : option bytes) : M prepEncoder unit :=
  do* pe_add 4 in
  match b with
  | None => ret tt
  | Some b => pe_putRawBytes b
  end.
Definition pe_putUUID (u : bytes) : M prepEncoder unit := pe_add 16.
Definition pe_putVarintBytes (b : option bytes) : M prepEncoder unit :=
  match b with
  | None => pe_putVarint (-1)
  | Some b => do* pe_putVarint (len b) in pe_putRawBytes b
  end.
Definition pe_putCompactBytes (b : bytes) : M prepEncoder unit :=
  do* pe_putVarint (len b + 1) in
  if MaxInt16 <? len b then fail (PacketEncodingError "compact bytes too long (%d)")
  else pe_add (len b).
Definition pe_putString (s : bytes) : M prepEncoder unit :=
  do* pe_add 2 in
  if MaxInt16 <? len s then fail (PacketEncodingError "string too long (%d)")
  else pe_add (len s).
Definition pe_putNullableString (s : option bytes) : M prepEncoder unit :=
  match s with
  | None => pe_add 2
  | Some s => pe_putString s
  end.
Definition pe_putStringArray (l : list bytes) : M prepEncoder unit :=
  do* pe_putArrayLength (len l) in each pe_putString l.
Definition pe_putInt32Array (l : option (list Z)) : M prepEncoder unit :=
  match l with
  | None => pe_putArrayLength (-1)
  | Some l => do* pe_putArrayLength (len l) in pe_add (4 * len l)
  end.
Definition pe_putInt64Array (l : option (list Z)) : M prepEncoder unit :=
  match l with
  | None => pe_putArrayLength (-1)
  | Some l => do* pe_putArrayLength (len l) in pe_add (8 * len l)
  end.
Definition pe_offset (pe : prepEncoder) : Z := pe_length pe.
Definition pe_putCompactString (s : bytes) : M prepEncoder unit :=
  do* pe_putVarint (len s + 1) in
  if MaxInt16 <? len s then fail (PacketEncodingError "string too long (%d)")
  else pe_add (len s).
Definition pe_putCompactNullableString (s : option bytes) : M prepEncoder unit :=
  match s with
  | None => pe_add 1
  | Some s => pe_putCompactString s
  end.
Definition pe_putCompactArrayLength (n : Z) : M prepEncoder unit :=
  if MaxInt16 <? n then fail (PacketEncodingError "comact array too long (%d)")
  else if n =? -1 then fail (PacketEncodingError "comact array is null (%d)")
  else if n <? -1 then fail (PacketEncodingError "comact array invalid length (%d)")
  else pe_putVarint (n + 1).
Definition pe_putCompactNullableArrayLength (n : Z) : M prepEncoder unit :=
  if MaxInt16 <? n then fail (PacketEncodingError "comact array too long (%d)")
  else if n <? -1 then fail (PacketEncodingError "comact array invalid length (%d)")
  else pe_putVarint (n + 1).

#[export] Instance prepEncoder_packetEncoder : packetEncoder prepEncoder := {
  putInt8 := pe_putInt8; putInt16 := pe_putInt16; putInt32 := pe_putInt32;
  putInt64 := pe_putInt64; putVarint := pe_putVarint;
  putArrayLength := pe_putArrayLength; putBool := pe_putBool;
  putBytes := pe_putBytes; putUUID := pe_putUUID; putString := pe_putString;
  putNullableString := pe_putNullableString; putStringArray := pe_putStringArray;
  putInt32Array := pe_putInt32Array; putInt64Array := pe_putInt64Array;
  putVarintBytes := pe_putVarintBytes; putCompactBytes := pe_putCompactBytes;
  putCompactString := pe_putCompactString;
  putCompactNullableString := pe_putCompactNullableString;
  putCompactArrayLength := pe_putCompactArrayLength;
  putCompactNullableArrayLength := pe_putCompactNullableArrayLength;
  offset := pe_offset
}.

(** ** [Encode] *)

Definition MaxRequestSize : Z := 100 * 1024 * 1024.
Definition MaxResponseSize : Z := 100 * 1024 * 1024.

(** The two passes of [Encode] and [EncodeSchema]; [too_large] is the error
    of the size check between them. *)
Definition encode_passes (too_large : error) (e : encoder) : res bytes :=
  match e prepEncoder _ {| pe_length := 0 |} with
  | (Ok _, prepEnc) =>
      if (pe_length prepEnc <? 0) || (MaxRequestSize <? pe_length prepEnc)
      then Err too_large
      else
        match e realEncoder _
                {| re_raw := replicate (Z.to_nat (pe_length prepEnc)) x00; re_off := 0 |} with
        | (Ok _, realEnc) => Ok (re_raw realEnc)
        | (Err x, _) => Err x
        | (Panic w, _) => Panic w
        end
  | (Err x, _) => Err x
  | (Panic w, _) => Panic w
  end.

(** [Encode(e)]: [None] is the nil encoder and the nil byte slice. *)
Definition Encode (e : option encoder) : res (option bytes) :=
  match e with
  | None => Ok None
  | Some e => rmap Some (encode_passes (PacketEncodingError "invalid request size (%d)") e)
  end.

(** ** What an encoder writes

    [emits e r]: the counting pass counts [len bs] bytes exactly when the
    writing pass, given that much room, writes [bs] ([r = Ok bs]); when the
    counting pass fails, it fails with the error of [r]. *)
Definition emits (e : encoder) (r : res bytes) : Prop :=
  (forall n, match r with
        | Ok bs => e prepEncoder _ {| pe_length := n |} = (Ok tt, {| pe_length := n + len bs |})
        | Err x => exists s, e prepEncoder _ {| pe_length := n |} = (Err x, s)
        | Panic w => exists s, e prepEncoder _ {| pe_length := n |} = (Panic w, s)
        end) /\
  (forall bs raw off, r = Ok bs -> 0 <= off -> off + len bs <= len raw ->
     e realEncoder _ {| re_raw := raw; re_off := off |} =
       (Ok tt, {| re_raw := splice raw off bs; re_off := off + len bs |})).

Definition rapp (r1 r2 : res bytes) : res bytes :=
  let? b1 := r1 in let? b2 := r2 in Ok (b1 ++ b2).

Lemma emits_ret : emits (fun _ _ => ret tt) (Ok []).
Proof.
  split.
  - intros n. unfold ret. rewrite len_nil, Z.add_0_r. done.
  - intros bs raw off [= <-] _ _. unfold ret. by rewrite splice_nil, len_nil, Z.add_0_r.
Qed.

Lemma emits_fail x : emits (fun _ _ => fail x) (Err x).
Proof. split; [intros n; unfold fail; eauto | by intros]. Qed.

Lemma emits_bind (f g : encoder) r1 r2 :
  emits f r1 -> emits g r2 ->
  emits (fun E P => do* f E P in g E P) (rapp r1 r2).
Proof.
  intros [Hf1 Hf2] [Hg1 Hg2]. split.
  - intros n. specialize (Hf1 n). unfold bind, rapp, rbind.
    destruct r1 as [b1|e1|w1]; [|destruct Hf1 as [s ->]; eauto..].
    rewrite Hf1. specialize (Hg1 (n + len b1)).
    destruct r2 as [b2|e2|w2]; [|done..].
    by rewrite Hg1, len_app, Z.add_assoc.
  - intros bs raw off Hr Hoff Hlen. unfold rapp, rbind in Hr.
    destruct r1 as [b1|e1|w1]; try done. destruct r2 as [b2|e2|w2]; try done.
    injection Hr as <-. rewrite len_app in Hlen |- *. len_facts.
    unfold bind. rewrite (Hf2 b1) by (done || lia).
    rewrite (Hg2 b2) by (rewrite ?len_splice; done || lia).
    rewrite splice_splice by lia. do 2 f_equal. lia.
Qed.

Lemma emits_each {A} (f : A -> encoder) (h : A -> res bytes) l :
  (forall a, a ∈ l -> emits (f a) (h a)) ->
  emits (fun E P => each (fun a => f a E P) l)
        (foldr (fun a r => rapp (h a) r) (Ok []) l).
Proof.
  induction l as [|a l IH]; intros H; [apply emits_ret|].
  apply (emits_bind (f a) (fun E P => each (fun a => f a E P) l)).
  - apply H. constructor.
  - apply IH. intros. apply H. by constructor.
Qed.

Lemma foldr_rapp_Ok {A} (h : A -> res bytes) (g : A -> bytes) l :
  (forall a, a ∈ l -> h a = Ok (g a)) ->
  foldr (fun a r => rapp (h a) r) (Ok []) l = Ok (concat (g <$> l)).
Proof.
  induction l as [|a l IH]; intros H; simpl; [done|].
  rewrite H, IH by (intros; try apply H; by constructor). done.
Qed.

(** [Encode] returns the byte string the encoder stands for, unless it is
    larger than [MaxRequestSize]. *)
Lemma encode_passes_emits too_large e r :
  emits e r ->
  encode_passes too_large e =
    let? bs := r in if MaxRequestSize <? len bs then Err too_large else Ok bs.
Proof.
  intros [H1 H2]. unfold encode_passes. specialize (H1 0).
  destruct r as [bs|x|w]; simpl; [|by destruct H1 as [s ->]..].
  rewrite H1. simpl. rewrite Z.add_0_l.
  replace (len bs <? 0) with false by (symmetry; apply Z.ltb_ge; len_lia). simpl.
  destruct (MaxRequestSize <? len bs); [done|].
  rewrite (H2 bs) by (unfold len; rewrite ?length_replicate; done || lia). simpl.
  rewrite splice_all by (unfold len; rewrite ?length_replicate; lia). done.
Qed.

(** ** The byte strings of the primitives *)

Definition limit (max : Z) (info : string) (s b : bytes) : res bytes :=
  if max <? len s then Err (PacketEncodingError info) else Ok b.

Definition bool_bytes (b : bool) : bytes := be_put 1 (if b then 1 else 0).
Definition varint_bytes (v : Z) : bytes := PutUvarint (uint64 v).
Definition array_length_bytes (n : Z) : res bytes :=
  if MaxInt32 <? n then Err (PacketEncodingError "array too long (%d)") else Ok (be_put 4 n).
Definition string_bytes (s : bytes) : res bytes :=
  limit MaxInt16 "string too long (%d)" s (be_put 2 (len s) ++ s).
Definition nullable_string_bytes (s : option bytes) : res bytes :=
  match s with None => Ok (be_put 2 (-1)) | Some s => string_bytes s end.
Definition bytes_bytes (b : option bytes) : res bytes :=
  match b with
  | None => Ok (be_put 4 (-1))
  | Some b => limit MaxInt32 "byteslice too long (%d)" b (be_put 4 (len b) ++ b)
  end.
Definition varint_bytes_bytes (b : option bytes) : res bytes :=
  match b with
  | None => Ok (varint_bytes (-1))
  | Some b => limit MaxInt32 "byteslice too long (%d)" b (varint_bytes (len b) ++ b)
  end.
Definition compact_bytes_bytes (b : bytes) : res bytes :=
  limit MaxInt16 "compact bytes too long (%d)" b (varint_bytes (len b + 1) ++ b).
Definition compact_string_bytes (s : bytes) : res bytes :=
  limit MaxInt16 "string too long (%d)" s (varint_bytes (len s + 1) ++ s).
Definition compact_nullable_string_bytes (s : option bytes) : res bytes :=
  match s with None => Ok (varint_bytes 0) | Some s => compact_string_bytes s end.
Definition compact_array_length_bytes (n : Z) : res bytes :=
  if MaxInt16 <? n then Err (PacketEncodingError "comact array too long (%d)")
  else Ok (varint_bytes (n + 1)).
Definition string_array_bytes (l : list bytes) : res bytes :=
  rapp (array_length_bytes (len l)) (foldr (fun s r => rapp (string_bytes s) r) (Ok []) l).

Section primitives.

Lemma re_put_be_Ok n v raw off :
  0 <= off -> off + Z.of_nat n <= len raw ->
  re_put_be n v {| re_raw := raw; re_off := off |} =
    (Ok tt, {| re_raw := splice raw off (be_put n v); re_off := off + Z.of_nat n |}).
Proof.
  intros H1 H2. unfold re_put_be, slice_from. simpl.
  destruct (slice_Ok raw off (len raw)) as (tail & -> & Ht); [lia..|].
  replace (_ <? n)%nat with false; [done|].
  symmetry. apply Nat.ltb_ge. unfold len in *. lia.
Qed.

Lemma re_copy_Ok b raw off :
  0 <= off -> off + len b <= len raw ->
  re_copy b {| re_raw := raw; re_off := off |} =
    (Ok tt, {| re_raw := splice raw off b; re_off := off + len b |}).
Proof.
  intros H1 H2. unfold re_copy, copy_at. simpl.
  replace (_ && _) with true; [done|].
  symmetry. rewrite andb_true_iff, !Z.leb_le. len_lia.
Qed.

Lemma re_putVarint_Ok v raw off :
  0 <= off -> off + len (varint_bytes v) <= len raw ->
  re_putVarint v {| re_raw := raw; re_off := off |} =
    (Ok tt, {| re_raw := splice raw off (varint_bytes v); re_off := off + len (varint_bytes v) |}).
Proof.
  intros H1 H2. unfold re_putVarint, slice_from. simpl. fold (varint_bytes v).
  destruct (slice_Ok raw off (len raw)) as (tail & -> & Ht); [len_lia..|].
  replace (_ <? _)%nat with false; [done|].
  symmetry. apply Nat.ltb_ge. unfold len in *. lia.
Qed.

Lemma emits_be n v (f : encoder) :
  (forall s, f prepEncoder _ s = pe_add (Z.of_nat n) s) ->
  (forall s, f realEncoder _ s = re_put_be n v s) -> emits f (Ok (be_put n v)).
Proof.
  intros H1 H2. split.
  - intros k. rewrite H1, len_be_put. done.
  - intros bs raw off [= <-] Hoff Hlen. rewrite H2, len_be_put in *. by apply re_put_be_Ok.
Qed.

Lemma emits_putInt8 v : emits (fun _ _ => putInt8 v) (Ok (be_put 1 v)).
Proof. by apply (emits_be 1). Qed.
Lemma emits_putInt16 v : emits (fun _ _ => putInt16 v) (Ok (be_put 2 v)).
Proof. by apply (emits_be 2). Qed.
Lemma emits_putInt32 v : emits (fun _ _ => putInt32 v) (Ok (be_put 4 v)).
Proof. by apply (emits_be 4). Qed.
Lemma emits_putInt64 v : emits (fun _ _ => putInt64 v) (Ok (be_put 8 v)).
Proof. by apply (emits_be 8). Qed.
Lemma emits_putBool b : emits (fun _ _ => putBool b) (Ok (bool_bytes b)).
Proof. apply (emits_be 1); by destruct b. Qed.

Lemma emits_putVarint v : emits (fun _ _ => putVarint v) (Ok (varint_bytes v)).
Proof.
  split; [done|]. intros bs raw off [= <-] Hoff Hlen. by apply re_putVarint_Ok.
Qed.

(** A length prefix, the limit check of the counting pass, the bytes. *)
Lemma emits_prefixed (f : encoder) (P : M realEncoder unit) max info pre s :
  (forall st, f prepEncoder _ st =
     (do* pe_add (len pre) in
      if max <? len s then fail (PacketEncodingError info) else pe_add (len s)) st) ->
  (forall st, f realEncoder _ st = (do* P in re_copy s) st) ->
  (forall raw off, len s <= max -> 0 <= off -> off + len pre <= len raw ->
     P {| re_raw := raw; re_off := off |} =
       (Ok tt, {| re_raw := splice raw off pre; re_off := off + len pre |})) ->
  emits f (limit max info s (pre ++ s)).
Proof.
  intros Hp Hr HP. unfold limit. split.
  - intros n. rewrite Hp. unfold bind, pe_add, modify, fail. simpl.
    destruct (max <? len s); simpl; [by eexists|].
    by rewrite len_app, Z.add_assoc.
  - intros bs raw off Hbs Hoff Hlen. destruct (max <? len s) eqn:E; [done|].
    apply Z.ltb_ge in E. injection Hbs as <-. rewrite len_app in *. len_facts.
    rewrite Hr. unfold bind. rewrite HP by lia.
    rewrite re_copy_Ok by (rewrite ?len_splice; lia).
    rewrite splice_splice by lia. do 2 f_equal. lia.
Qed.

Lemma int16_len (s : bytes) : len s <= MaxInt16 -> int16 (len s) = len s.
Proof. intros H. apply wrapS_id; [lia|]. unfold inS, MaxInt16 in *. len_lia. Qed.

Lemma int32_len {A} (s : list A) : len s <= MaxInt32 -> int32 (len s) = len s.
Proof. intros H. apply wrapS_id; [lia|]. unfold inS, MaxInt32 in *. len_lia. Qed.

Lemma emits_putString s : emits (fun _ _ => putString s) (string_bytes s).
Proof.
  apply (emits_prefixed _ (re_putInt16 (int16 (len s)))); [done..|].
  intros raw off Hs. rewrite int16_len by done. apply (re_put_be_Ok 2).
Qed.

Lemma emits_putNullableString s : emits (fun _ _ => putNullableString s) (nullable_string_bytes s).
Proof. destruct s as [s|]; [apply emits_putString | apply emits_putInt16]. Qed.

Lemma emits_putBytes b : emits (fun _ _ => putBytes b) (bytes_bytes b).
Proof.
  destruct b as [b|]; unfold bytes_bytes; [|apply (emits_be 4); done].
  apply (emits_prefixed _ (re_putInt32 (int32 (len b)))); [done..|].
  intros raw off Hs. rewrite int32_len by done. apply (re_put_be_Ok 4).
Qed.

Lemma emits_putCompactBytes b : emits (fun _ _ => putCompactBytes b) (compact_bytes_bytes b).
Proof.
  apply (emits_prefixed _ (re_putVarint (len b + 1))); [done..|].
  intros. by apply re_putVarint_Ok.
Qed.

Lemma emits_putVarintBytes b : emits (fun _ _ => putVarintBytes b) (varint_bytes_bytes b).
Proof.
  destruct b as [b|]; unfold varint_bytes_bytes; [|apply emits_putVarint].
  apply (emits_prefixed _ (re_putVarint (len b))); [done..|].
  intros. by apply re_putVarint_Ok.
Qed.

Lemma emits_putCompactString s : emits (fun _ _ => putCompactString s) (compact_string_bytes s).
Proof.
  apply (emits_prefixed _ (re_putVarint (len s + 1))); [done..|].
  intros. by apply re_putVarint_Ok.
Qed.

Lemma emits_putCompactNullableString s :
  emits (fun _ _ => putCompactNullableString s) (compact_nullable_string_bytes s).
Proof. destruct s as [s|]; [apply emits_putCompactString | apply (emits_putVarint 0)]. Qed.

Lemma emits_putUUID u : length u = 16%nat -> emits (fun _ _ => putUUID u) (Ok u).
Proof.
  intros H. split.
  - intros n. unfold len. by rewrite H.
  - intros bs raw off [= <-] Hoff Hlen. by apply re_copy_Ok.
Qed.

Lemma emits_putArrayLength n :
  -1 <= n -> emits (fun _ _ => putArrayLength n) (array_length_bytes n).
Proof.
  intros Hn. unfold array_length_bytes. split.
  - intros k. simpl. unfold pe_putArrayLength. destruct (MaxInt32 <? n); [by eexists|done].
  - intros bs raw off Hbs Hoff Hlen. destruct (MaxInt32 <? n) eqn:E; [done|].
    apply Z.ltb_ge in E. injection Hbs as <-. rewrite len_be_put in *. simpl.
    unfold re_putArrayLength. rewrite wrapS_id by (unfold inS, MaxInt32 in *; lia).
    by apply (re_put_be_Ok 4).
Qed.

Lemma emits_putCompactArrayLength n :
  0 <= n -> emits (fun _ _ => putCompactArrayLength n) (compact_array_length_bytes n).
Proof.
  intros Hn. unfold compact_array_length_bytes. split.
  - intros k. simpl. unfold pe_putCompactArrayLength. destruct (MaxInt16 <? n); [by eexists|].
    replace (n =? -1) with false by (symmetry; apply Z.eqb_neq; lia).
    by replace (n <? -1) with false by (symmetry; apply Z.ltb_ge; lia).
  - intros bs raw off Hbs Hoff Hlen. destruct (MaxInt16 <? n); [done|].
    injection Hbs as <-. by apply re_putVarint_Ok.
Qed.

Lemma emits_putCompactNullableArrayLength n :
  -1 <= n -> emits (fun _ _ => putCompactNullableArrayLength n) (compact_array_length_bytes n).
Proof.
  intros Hn. unfold compact_array_length_bytes. split.
  - intros k. simpl. unfold pe_putCompactNullableArrayLength.
    destruct (MaxInt16 <? n); [by eexists|].
    by replace (n <? -1) with false by (symmetry; apply Z.ltb_ge; lia).
  - intros bs raw off Hbs Hoff Hlen. destruct (MaxInt16 <? n); [done|].
    injection Hbs as <-. by apply re_putVarint_Ok.
Qed.

Lemma emits_putStringArray l : emits (fun _ _ => putStringArray l) (string_array_bytes l).
Proof.
  destruct (emits_bind (fun _ _ => putArrayLength (len l)) (fun E P => each putString l) _ _
    (emits_putArrayLength (len l) ltac:(len_lia))
    (emits_each (fun s _ _ => putString s) string_bytes l ltac:(intros; apply emits_putString)))
    as [H1 H2].
  split; [exact H1 | exact H2].
Qed.

End primitives.

Create HintDb emits discriminated.
#[export] Hint Resolve emits_ret emits_fail emits_bind emits_putInt8 emits_putInt16
  emits_putInt32 emits_putInt64 emits_putBool emits_putVarint emits_putString
  emits_putNullableString emits_putBytes emits_putCompactBytes emits_putVarintBytes
  emits_putCompactString emits_putCompactNullableString emits_putUUID
  emits_putArrayLength emits_putCompactArrayLength emits_putCompactNullableArrayLength
  emits_putStringArray : emits.
