(* ===== verification/Decoder.v ===== *)
(** Reading Kafka primitives (proxy/protocol/packet_decoder.go,
    real_decoder.go, [Decode] of encoder_decoder.go).

    [realDecoder] is the only implementation of the [packetDecoder]
    interface, so [decode] methods are methods on it.  [decodes m bs a] says
    that [m] reads exactly [bs] and returns [a] wherever [bs] stands in the
    input. *)
From Stdlib Require Import ZArith Lia Strings.Byte.
From stdpp Require Import base list strings gmap.
From S2P Require Import Prelude GoLib Encoder.

Record realDecoder := { rd_raw : bytes; rd_off : Z }.

Abbreviation decoder A := (M realDecoder A).

(** ** Errors of real_decoder.go *)

Definition errInvalidArrayLength : error := PacketDecodingError "invalid array length".
Definition errInvalidStringLength : error := PacketDecodingError "invalid string length".
Definition errVarintOverflow : error := PacketDecodingError "varint overflow".
Definition errInvalidBool : error := PacketDecodingError "invalid bool".
Definition errInvalidByteSliceLength : error := PacketDecodingError "invalid byte slice length".
Definition errInvalidCompactLength : error := PacketDecodingError "invalid compact length".
Definition errInvalidCompactNullableLength : error :=
  PacketDecodingError "invalid compact nullable length".

(** ** Primitives *)

Definition remaining (rd : realDecoder) : Z := len (rd_raw rd) - rd_off rd.

(** [rd.off = off] *)
Definition rd_set_off (off : Z) : decoder unit :=
  modify (fun rd => {| rd_raw := rd_raw rd; rd_off := off |}).

(** [rd.off = len(rd.raw); return ErrInsufficientData] *)
Definition rd_insufficient {A} : decoder A := fun rd =>
  (Err ErrInsufficientData, {| rd_raw := rd_raw rd; rd_off := len (rd_raw rd) |}).

(** [binary.BigEndian.Uint<8n>(rd.raw[rd.off:]); rd.off += n] *)
Definition rd_take_be (n : nat) : decoder Z :=
  let* rd := get in
  let* v := lift (let? b := slice_from (rd_raw rd) (rd_off rd) in BigEndian_Uint n b) in
  do* rd_set_off (rd_off rd + Z.of_nat n) in
  ret v.

(** [rd.raw[rd.off:rd.off+n]; rd.off += n] *)
Definition rd_take (n : Z) : decoder bytes :=
  let* rd := get in
  let* b := lift (slice (rd_raw rd) (rd_off rd) (rd_off rd + n)) in
  do* rd_set_off (rd_off rd + n) in
  ret b.

Definition getInt8 : decoder Z :=
  let* rd := get in
  if remaining rd <? 1 then rd_insufficient
  else let* v := rd_take_be 1 in ret (int8 v).
Definition getInt16 : decoder Z :=
  let* rd := get in
  if remaining rd <? 2 then rd_insufficient
  else let* v := rd_take_be 2 in ret (int16 v).
Definition getInt32 : decoder Z :=
  let* rd := get in
  if remaining rd <? 4 then rd_insufficient
  else let* v := rd_take_be 4 in ret (int32 v).
Definition getInt64 : decoder Z :=
  let* rd := get in
  if remaining rd <? 8 then rd_insufficient
  else let* v := rd_take_be 8 in ret (int64 v).

Definition getVarint : decoder Z :=
  let* rd := get in
  let* b := lift (slice_from (rd_raw rd) (rd_off rd)) in
  let '(tmp, n) := Uvarint b in
  if n =? 0 then rd_insufficient
  else if n <? 0 then do* rd_set_off (rd_off rd - n) in fail errVarintOverflow
  else do* rd_set_off (rd_off rd + n) in ret (int64 tmp).

Definition getArrayLength : decoder Z :=
  let* rd := get in
  if remaining rd <? 4 then rd_insufficient
  else
    let* v := rd_take_be 4 in
    let tmp := int32 v in
    let* rd := get in
    if remaining rd <? tmp then rd_insufficient
    else if 2 * MaxUint16 <? tmp then fail errInvalidArrayLength
    else ret tmp.

Definition getBool : decoder bool :=
  let* b := getInt8 in
  if b =? 0 then ret false
  else if negb (b =? 1) then fail errInvalidBool
  else ret true.

(** ** Collections *)

Definition getRawBytes (length : Z) : decoder bytes :=
  if length <? 0 then fail errInvalidByteSliceLength
  else
    let* rd := get in
    if remaining rd <? length then rd_insufficient else rd_take length.

Definition getBytes : decoder (option bytes) :=
  let* tmp := getInt32 in
  if tmp =? -1 then ret None else let* b := getRawBytes tmp in ret (Some b).

Definition getVarintBytes : decoder (option bytes) :=
  let* tmp := getVarint in
  if tmp =? -1 then ret None else let* b := getRawBytes tmp in ret (Some b).

(** [uuid.FromBytes] copies its 16 bytes. *)
Definition getUUID : decoder bytes := getRawBytes 16.

Definition getCompactLength : decoder Z :=
  let* length := getVarint in
  let n := int64 (length - 1) in
  let* rd := get in
  if n <? 0 then fail errInvalidCompactLength
  else if remaining rd <? n then rd_insufficient
  else ret n.

Definition getCompactNullableLength : decoder Z :=
  let* length := getVarint in
  let n := int64 (length - 1) in
  let* rd := get in
  if n <? -1 then fail errInvalidCompactNullableLength
  else if remaining rd <? n then rd_insufficient
  else ret n.

Definition getCompactBytes : decoder bytes :=
  let* n := getCompactLength in
  if n =? 0 then ret [] else rd_take n.

Definition getStringLength : decoder Z :=
  let* n := getInt16 in
  let* rd := get in
  if n <? -1 then fail errInvalidStringLength
  else if remaining rd <? n then rd_insufficient
  else ret n.

Definition getString : decoder bytes :=
  let* n := getStringLength in
  if n =? -1 then ret [] else rd_take n.

Definition getNullableString : decoder (option bytes) :=
  let* n := getStringLength in
  if n =? -1 then ret None else let* s := rd_take n in ret (Some s).

(** [for i := range ret { ret[i] = f() }] over a slice of length [n] *)
Fixpoint times {S A} (n : nat) (f : M S A) : M S (list A) :=
  match n with
  | O => ret []
  | Datatypes.S n' => let* x := f in let* l := times n' f in ret (x :: l)
  end.

Definition getInt32Array : decoder (option (list Z)) :=
  let* n := getArrayLength in
  if n =? -1 then ret None
  else if n =? 0 then ret (Some [])
  else if n <? -1 then fail errInvalidArrayLength
  else
    let* rd := get in
    if remaining rd <? 4 * n then rd_insufficient
    else let* l := times (Z.to_nat n) (let* v := rd_take_be 4 in ret (int32 v)) in ret (Some l).

Definition getInt64Array : decoder (option (list Z)) :=
  let* n := getArrayLength in
  if n =? -1 then ret None
  else if n =? 0 then ret (Some [])
  else if n <? -1 then fail errInvalidArrayLength
  else
    let* rd := get in
    if remaining rd <? 8 * n then rd_insufficient
    else let* l := times (Z.to_nat n) (let* v := rd_take_be 8 in ret (int64 v)) in ret (Some l).

Definition getStringArray : decoder (option (list bytes)) :=
  let* n := getArrayLength in
  if n =? -1 then ret None
  else if n <? -1 then fail errInvalidArrayLength
  else let* l := times (Z.to_nat n) getString in ret (Some l).

Definition getCompactString : decoder bytes :=
  let* n := getCompactLength in
  if n =? 0 then ret [] else rd_take n.

Definition getCompactNullableString : decoder (option bytes) :=
  let* n := getCompactNullableLength in
  if n <? 0 then ret None else let* s := rd_take n in ret (Some s).

Definition getCompactArrayLength : decoder Z := getCompactLength.
Definition getCompactNullableArrayLength : decoder Z := getCompactNullableLength.

(** ** [Decode]

    [Decode(buf, in)] fills [in]; here the filled value is returned, [None]
    when [buf] is nil and [in] is left as it was. *)
Definition Decode {A} (buf : option bytes) (in_decode : decoder A) : res (option A) :=
  match buf with
  | None => Ok None
  | Some buf =>
      match in_decode {| rd_raw := buf; rd_off := 0 |} with
      | (Ok a, helper) =>
          if negb (rd_off helper =? len buf) then Err (PacketDecodingError "invalid length")
          else Ok (Some a)
      | (Err e, _) => Err e
      | (Panic w, _) => Panic w
      end
  end.

(** ** Reading back known bytes *)

(** The decoder positioned after [pre], with [rest] still to be read. *)
Definition at_ (pre rest : bytes) : realDecoder := {| rd_raw := pre ++ rest; rd_off := len pre |}.

Definition decodes {A} (m : decoder A) (bs : bytes) (a : A) : Prop :=
  forall pre post, m (at_ pre (bs ++ post)) = (Ok a, at_ (pre ++ bs) post).

Lemma remaining_at pre rest : remaining (at_ pre rest) = len rest.
Proof. unfold remaining, at_. simpl. len_lia. Qed.

Lemma rd_set_off_at pre bs post n :
  n = len pre + len bs ->
  rd_set_off n (at_ pre (bs ++ post)) = (Ok tt, at_ (pre ++ bs) post).
Proof. intros ->. unfold rd_set_off, modify, at_. simpl. by rewrite len_app, app_assoc. Qed.

Lemma decodes_ret {A} (a : A) : decodes (ret a) [] a.
Proof. intros pre post. unfold ret. by rewrite app_nil_r. Qed.

Lemma decodes_bind {A B} (m : decoder A) (k : A -> decoder B) b1 b2 a c :
  decodes m b1 a -> decodes (k a) b2 c -> decodes (bind m k) (b1 ++ b2) c.
Proof.
  intros H1 H2 pre post. rewrite <- app_assoc. erewrite bind_Ok by apply H1.
  rewrite H2. by rewrite app_assoc.
Qed.

Lemma decodes_map {A B} (m : decoder A) (f : A -> B) bs a :
  decodes m bs a -> decodes (let* x := m in ret (f x)) bs (f a).
Proof.
  intros H. pose proof (decodes_bind m (fun x => ret (f x)) bs [] a (f a) H (decodes_ret _)) as H'.
  by rewrite app_nil_r in H'.
Qed.

Lemma decodes_get {A} (k : realDecoder -> decoder A) bs a :
  (forall pre post, k (at_ pre (bs ++ post)) (at_ pre (bs ++ post)) = (Ok a, at_ (pre ++ bs) post)) ->
  decodes (let* rd := get in k rd) bs a.
Proof. intros H pre post. unfold bind, get. apply H. Qed.

Section primitives.

Lemma rd_take_be_at n z pre post :
  rd_take_be n (at_ pre (be_put n z ++ post)) =
    (Ok (z mod 256 ^ Z.of_nat n), at_ (pre ++ be_put n z) post).
Proof.
  unfold rd_take_be, get. erewrite bind_Ok by reflexivity.
  erewrite bind_Ok by (unfold lift; cbn [rd_raw rd_off at_];
    rewrite slice_from_app; cbn [rbind]; by rewrite BigEndian_Uint_put).
  by erewrite bind_Ok by (apply rd_set_off_at; cbn [rd_off at_]; len_lia).
Qed.

Lemma rd_take_at bs pre post n :
  n = len bs -> rd_take n (at_ pre (bs ++ post)) = (Ok bs, at_ (pre ++ bs) post).
Proof.
  intros ->. unfold rd_take, get. erewrite bind_Ok by reflexivity.
  erewrite bind_Ok by (unfold lift; cbn [rd_raw rd_off at_]; by rewrite slice_app).
  by erewrite bind_Ok by (by apply rd_set_off_at).
Qed.

Lemma decodes_int (m : decoder Z) n w z :
  w = 8 * Z.of_nat n -> 0 < w -> inS w z ->
  (forall rd, m rd = (let* rd := get in
     if remaining rd <? Z.of_nat n then rd_insufficient
     else let* v := rd_take_be n in ret (wrapS w v)) rd) ->
  decodes m (be_put n z) z.
Proof.
  intros -> Hw Hz Hm pre post. rewrite Hm. unfold bind at 1. unfold get.
  rewrite remaining_at.
  replace (_ <? _) with false by (symmetry; apply Z.ltb_ge; len_lia).
  erewrite bind_Ok by apply rd_take_be_at. unfold ret.
  change 256 with (2 ^ 8). rewrite <- Z.pow_mul_r by lia.
  fold (wrapU (8 * Z.of_nat n) z). rewrite wrapS_wrapU, wrapS_id by lia || done. done.
Qed.

Lemma decodes_getInt8 z : inS 8 z -> decodes getInt8 (be_put 1 z) z.
Proof. intros. by apply (decodes_int _ 1 8). Qed.
Lemma decodes_getInt16 z : inS 16 z -> decodes getInt16 (be_put 2 z) z.
Proof. intros. by apply (decodes_int _ 2 16). Qed.
Lemma decodes_getInt32 z : inS 32 z -> decodes getInt32 (be_put 4 z) z.
Proof. intros. by apply (decodes_int _ 4 32). Qed.
Lemma decodes_getInt64 z : inS 64 z -> decodes getInt64 (be_put 8 z) z.
Proof. intros. by apply (decodes_int _ 8 64). Qed.

Lemma decodes_getVarint z : inS 64 z -> decodes getVarint (varint_bytes z) z.
Proof.
  intros Hz. apply decodes_get. intros pre post.
  erewrite bind_Ok by (unfold lift; cbn [rd_raw rd_off at_]; by rewrite slice_from_app).
  unfold varint_bytes.
  rewrite Uvarint_PutUvarint by (apply wrapU_range; lia).
  pose proof (len_PutUvarint (uint64 z)).
  replace (_ =? 0) with false by (symmetry; apply Z.eqb_neq; lia).
  replace (_ <? 0) with false by (symmetry; apply Z.ltb_ge; lia).
  erewrite bind_Ok by (by apply rd_set_off_at).
  unfold ret. by rewrite wrapS_wrapU, wrapS_id by lia || done.
Qed.

Lemma decodes_getBool b : decodes getBool (bool_bytes b) b.
Proof.
  unfold getBool, bool_bytes. rewrite <- (app_nil_r (be_put 1 _)).
  eapply decodes_bind; [apply decodes_getInt8; destruct b; unfold inS; lia|].
  destruct b; apply decodes_ret.
Qed.

Lemma decodes_getRawBytes b : decodes (getRawBytes (len b)) b b.
Proof.
  unfold getRawBytes. replace (len b <? 0) with false by (symmetry; apply Z.ltb_ge; len_lia).
  apply decodes_get. intros pre post. rewrite remaining_at.
  replace (_ <? _) with false by (symmetry; apply Z.ltb_ge; len_lia).
  by apply rd_take_at.
Qed.

Lemma decodes_getUUID u : length u = 16%nat -> decodes getUUID u u.
Proof.
  intros H. unfold getUUID. replace 16 with (len u) by (unfold len; lia).
  apply decodes_getRawBytes.
Qed.

(** A length-prefixed body: [prefix] reads the length when the body follows. *)
Lemma decodes_prefixed {A} (m : decoder Z) (k : Z -> decoder A) pre_bs body a n :
  (forall pre post, len body <= len post ->
     m (at_ pre (pre_bs ++ post)) = (Ok n, at_ (pre ++ pre_bs) post)) ->
  decodes (k n) body a -> decodes (bind m k) (pre_bs ++ body) a.
Proof.
  intros Hm Hk pre post. rewrite <- app_assoc. erewrite bind_Ok by (apply Hm; len_lia).
  rewrite Hk. by rewrite app_assoc.
Qed.

Lemma getStringLength_at n pre post :
  -1 <= n <= MaxInt16 -> n <= len post ->
  getStringLength (at_ pre (be_put 2 n ++ post)) = (Ok n, at_ (pre ++ be_put 2 n) post).
Proof.
  intros Hn Hp. unfold getStringLength.
  erewrite bind_Ok by (apply decodes_getInt16; unfold inS, MaxInt16 in *; lia).
  unfold bind, get. rewrite remaining_at.
  replace (_ <? _) with false by (symmetry; apply Z.ltb_ge; lia).
  by replace (_ <? _) with false by (symmetry; apply Z.ltb_ge; lia).
Qed.

Lemma getCompactNullableLength_at n pre post :
  -1 <= n <= len post -> n < 2 ^ 63 - 1 ->
  getCompactNullableLength (at_ pre (varint_bytes (n + 1) ++ post)) =
    (Ok n, at_ (pre ++ varint_bytes (n + 1)) post).
Proof.
  intros Hn Hn'. unfold getCompactNullableLength.
  erewrite bind_Ok by (apply decodes_getVarint; unfold inS; lia).
  unfold bind, get. rewrite remaining_at, Z.add_simpl_r.
  rewrite wrapS_id by (unfold inS; lia).
  replace (_ <? _) with false by (symmetry; apply Z.ltb_ge; lia).
  by replace (_ <? _) with false by (symmetry; apply Z.ltb_ge; lia).
Qed.

Lemma getCompactLength_at n pre post :
  0 <= n <= len post -> n < 2 ^ 63 - 1 ->
  getCompactLength (at_ pre (varint_bytes (n + 1) ++ post)) =
    (Ok n, at_ (pre ++ varint_bytes (n + 1)) post).
Proof.
  intros Hn Hn'. unfold getCompactLength.
  erewrite bind_Ok by (apply decodes_getVarint; unfold inS; lia).
  unfold bind, get. rewrite remaining_at, Z.add_simpl_r.
  rewrite wrapS_id by (unfold inS; lia).
  replace (_ <? _) with false by (symmetry; apply Z.ltb_ge; lia).
  by replace (_ <? _) with false by (symmetry; apply Z.ltb_ge; lia).
Qed.

Lemma getArrayLength_at n pre post :
  -1 <= n <= len post -> n <= 2 * MaxUint16 ->
  getArrayLength (at_ pre (be_put 4 n ++ post)) = (Ok n, at_ (pre ++ be_put 4 n) post).
Proof.
  intros Hn Hn'. unfold getArrayLength. unfold bind at 1. unfold get. rewrite remaining_at.
  replace (_ <? 4) with false by (symmetry; apply Z.ltb_ge; len_lia).
  erewrite bind_Ok by apply rd_take_be_at.
  change (256 ^ Z.of_nat 4) with (2 ^ 32). fold (wrapU 32 n).
  rewrite wrapS_wrapU, wrapS_id by (unfold inS, MaxUint16 in *; lia).
  unfold bind, get. rewrite remaining_at.
  replace (_ <? _) with false by (symmetry; apply Z.ltb_ge; lia).
  by replace (_ <? _) with false by (symmetry; apply Z.ltb_ge; lia).
Qed.

Lemma rd_take_decodes s n : n = len s -> decodes (rd_take n) s s.
Proof. intros Hn pre post. by apply rd_take_at. Qed.

(** [if n == 0 { return empty }; take n] reads any string. *)
Lemma rd_take_or_empty s : decodes (if len s =? 0 then ret [] else rd_take (len s)) s s.
Proof.
  destruct s as [|b s]; [apply decodes_ret|].
  replace (_ =? 0) with false by (symmetry; apply Z.eqb_neq; len_lia).
  by apply rd_take_decodes.
Qed.

End primitives.

(** ** Every primitive reads back what the encoder wrote *)

Section readback.

Lemma limit_Ok max info s b bs : limit max info s b = Ok bs -> len s <= max /\ bs = b.
Proof.
  unfold limit. destruct (max <? len s) eqn:E; [done|].
  apply Z.ltb_ge in E. by intros [= <-].
Qed.

Lemma decodes_getString s bs : string_bytes s = Ok bs -> decodes getString bs s.
Proof.
  intros [Hs ->]%limit_Ok. unfold getString.
  apply decodes_prefixed with (n := len s).
  - intros pre post Hp. apply getStringLength_at; unfold MaxInt16 in *; len_lia.
  - replace (len s =? -1) with false by (symmetry; apply Z.eqb_neq; len_lia).
    by apply rd_take_decodes.
Qed.

Lemma decodes_getNullableString s bs :
  nullable_string_bytes s = Ok bs -> decodes getNullableString bs s.
Proof.
  unfold getNullableString. destruct s as [s|]; intros H.
  - apply limit_Ok in H as [Hs ->]. apply decodes_prefixed with (n := len s).
    + intros pre post Hp. apply getStringLength_at; unfold MaxInt16 in *; len_lia.
    + replace (len s =? -1) with false by (symmetry; apply Z.eqb_neq; len_lia).
      apply (decodes_map _ Some). by apply rd_take_decodes.
  - injection H as <-. rewrite <- (app_nil_r (be_put 2 (-1))).
    apply decodes_prefixed with (n := -1); [|apply decodes_ret].
    intros pre post Hp. apply getStringLength_at; unfold MaxInt16 in *; len_lia.
Qed.

Lemma decodes_getBytes b bs : bytes_bytes b = Ok bs -> decodes getBytes bs b.
Proof.
  unfold getBytes. destruct b as [b|]; intros H.
  - apply limit_Ok in H as [Hs ->].
    eapply decodes_bind; [apply decodes_getInt32; unfold inS, MaxInt32 in *; len_lia|].
    replace (len b =? -1) with false by (symmetry; apply Z.eqb_neq; len_lia).
    apply (decodes_map _ Some), decodes_getRawBytes.
  - injection H as <-. rewrite <- (app_nil_r (be_put 4 (-1))).
    eapply decodes_bind; [apply decodes_getInt32; unfold inS; lia | apply decodes_ret].
Qed.

Lemma decodes_getVarintBytes b bs : varint_bytes_bytes b = Ok bs -> decodes getVarintBytes bs b.
Proof.
  unfold getVarintBytes. destruct b as [b|]; intros H.
  - apply limit_Ok in H as [Hs ->].
    eapply decodes_bind; [apply decodes_getVarint; unfold inS, MaxInt32 in *; len_lia|].
    replace (len b =? -1) with false by (symmetry; apply Z.eqb_neq; len_lia).
    apply (decodes_map _ Some), decodes_getRawBytes.
  - injection H as <-. rewrite <- (app_nil_r (varint_bytes (-1))).
    eapply decodes_bind; [apply decodes_getVarint; unfold inS; lia | apply decodes_ret].
Qed.

Lemma decodes_getCompactBytes b bs : compact_bytes_bytes b = Ok bs -> decodes getCompactBytes bs b.
Proof.
  intros [Hs ->]%limit_Ok. unfold getCompactBytes. apply decodes_prefixed with (n := len b).
  - intros pre post Hp. apply getCompactLength_at; unfold MaxInt16 in *; len_lia.
  - apply rd_take_or_empty.
Qed.

Lemma decodes_getCompactString s bs : compact_string_bytes s = Ok bs -> decodes getCompactString bs s.
Proof.
  intros [Hs ->]%limit_Ok. unfold getCompactString. apply decodes_prefixed with (n := len s).
  - intros pre post Hp. apply getCompactLength_at; unfold MaxInt16 in *; len_lia.
  - apply rd_take_or_empty.
Qed.

Lemma decodes_getCompactNullableString s bs :
  compact_nullable_string_bytes s = Ok bs -> decodes getCompactNullableString bs s.
Proof.
  unfold getCompactNullableString. destruct s as [s|]; intros H.
  - apply limit_Ok in H as [Hs ->]. apply decodes_prefixed with (n := len s).
    + intros pre post Hp. apply getCompactNullableLength_at; unfold MaxInt16 in *; len_lia.
    + replace (len s <? 0) with false by (symmetry; apply Z.ltb_ge; len_lia).
      apply (decodes_map _ Some). by apply rd_take_decodes.
  - injection H as <-. rewrite <- (app_nil_r (varint_bytes 0)).
    apply decodes_prefixed with (n := -1); [|apply decodes_ret].
    intros pre post Hp. apply (getCompactNullableLength_at (-1)); len_lia.
Qed.

Lemma decodes_times {A} (m : decoder A) (g : A -> bytes) l :
  (forall a, a ∈ l -> decodes m (g a) a) ->
  decodes (times (length l) m) (concat (g <$> l)) l.
Proof.
  induction l as [|a l IH]; intros H; simpl; [apply decodes_ret|].
  apply decodes_bind with (a := a); [apply H; constructor|].
  apply (decodes_map _ (cons a)). apply IH. intros. apply H. by constructor.
Qed.

End readback.

Create HintDb decodes discriminated.
#[export] Hint Resolve decodes_ret decodes_getInt8 decodes_getInt16 decodes_getInt32
  decodes_getInt64 decodes_getVarint decodes_getBool decodes_getUUID decodes_getString
  decodes_getNullableString decodes_getBytes decodes_getVarintBytes decodes_getCompactBytes
  decodes_getCompactString decodes_getCompactNullableString : decodes.

(** [Decode] returns the value whose bytes fill the buffer. *)
Lemma Decode_decodes {A} (m : decoder A) bs a :
  decodes m bs a -> Decode (Some bs) m = Ok (Some a).
Proof.
  intros H. unfold Decode. specialize (H [] []).
  rewrite app_nil_r in H. unfold at_ in H. cbn [app len length] in H.
  change {| rd_raw := bs; rd_off := 0 |} with {| rd_raw := bs; rd_off := len (@nil byte) |}.
  rewrite H. cbn [rd_off app]. by rewrite Z.eqb_refl.
Qed.

(** ** Memory safety of the reads *)

Definition rd_wf (rd : realDecoder) : Prop := 0 <= rd_off rd <= len (rd_raw rd).

(** [m] started in a well-formed decoder satisfying [P] does not panic, stays
    well formed on every outcome, never moves backwards, and on success ends
    in [Q]. *)
Definition safe {A} (P : realDecoder -> Prop) (m : decoder A) (Q : A -> realDecoder -> Prop) : Prop :=
  forall rd, rd_wf rd -> P rd ->
    match m rd with
    | (Ok a, rd') => rd_wf rd' /\ remaining rd' <= remaining rd /\ Q a rd'
    | (Err _, rd') => rd_wf rd' /\ remaining rd' <= remaining rd
    | (Panic _, _) => False
    end.

Abbreviation always := (fun _ : realDecoder => True).

Lemma safe_bind {A B} (P : realDecoder -> Prop) (m : decoder A) (k : A -> decoder B) Q R :
  safe P m Q -> (forall a, safe (Q a) (k a) R) -> safe P (bind m k) R.
Proof.
  intros Hm Hk rd Hrd HP. unfold bind. specialize (Hm rd Hrd HP).
  destruct (m rd) as [[a|e|w] rd1]; try done.
  destruct Hm as (Hw & Hr & HQ). specialize (Hk a rd1 Hw HQ).
  destruct (k a rd1) as [[b|e|w] rd2]; [| |done].
  - destruct Hk as (? & ? & ?). split; [done|]. split; [lia|done].
  - destruct Hk as [? ?]. split; [done | lia].
Qed.

Lemma safe_ret {A} (P : realDecoder -> Prop) (a : A) Q :
  (forall rd, P rd -> Q a rd) -> safe P (ret a) Q.
Proof. intros H rd Hrd HP. simpl. auto with lia. Qed.

Lemma safe_fail {A} P e Q : safe P (@fail realDecoder A e) Q.
Proof. intros rd Hrd HP. simpl. auto with lia. Qed.

Lemma safe_get {A} P (k : realDecoder -> decoder A) Q :
  (forall rd0, safe (fun rd => rd = rd0 /\ P rd) (k rd0) Q) -> safe P (let* rd := get in k rd) Q.
Proof. intros H rd Hrd HP. apply (H rd rd Hrd). auto. Qed.

Lemma safe_weaken {A} (P P' : realDecoder -> Prop) (m : decoder A) (Q Q' : A -> realDecoder -> Prop) :
  safe P m Q -> (forall rd, P' rd -> P rd) -> (forall a rd, Q a rd -> Q' a rd) -> safe P' m Q'.
Proof.
  intros H HP HQ rd Hrd HP'. specialize (H rd Hrd (HP rd HP')).
  destruct (m rd) as [[a|e|w] rd']; [|done..].
  destruct H as (? & ? & ?). auto.
Qed.

Lemma safe_insufficient {A} P Q : safe P (@rd_insufficient A) Q.
Proof. intros rd [H1 H2] HP. unfold rd_insufficient, rd_wf, remaining. simpl. split; len_lia. Qed.

Lemma safe_take n (P : realDecoder -> Prop) :
  (forall rd, P rd -> 0 <= n <= remaining rd) -> safe P (rd_take n) (fun b _ => len b = n).
Proof.
  intros H rd [H1 H2] HP. specialize (H rd HP). unfold rd_take, bind, get, lift, remaining in *. simpl.
  destruct (slice_Ok (rd_raw rd) (rd_off rd) (rd_off rd + n)) as (b & -> & Hb); [lia..|].
  unfold rd_wf. simpl. lia.
Qed.

Lemma safe_take_be n (P : realDecoder -> Prop) :
  (forall rd, P rd -> Z.of_nat n <= remaining rd) -> safe P (rd_take_be n) (fun _ _ => True).
Proof.
  intros H rd [H1 H2] HP. specialize (H rd HP). unfold rd_take_be, bind, get, lift, remaining in *. simpl.
  unfold slice_from.
  destruct (slice_Ok (rd_raw rd) (rd_off rd) (len (rd_raw rd))) as (b & -> & Hb); [lia..|]. simpl.
  destruct (BigEndian_Uint_Ok n b) as [z ->]; [lia|]. unfold rd_wf. simpl. lia.
Qed.

Lemma safe_lift_slice_from P :
  safe P (let* rd := get in lift (slice_from (rd_raw rd) (rd_off rd)))
    (fun b rd => len b = remaining rd).
Proof.
  apply safe_get. intros rd0 rd [H1 H2] [-> HP]. unfold lift, slice_from, remaining.
  destruct (slice_Ok (rd_raw rd0) (rd_off rd0) (len (rd_raw rd0))) as (b & -> & Hb); [lia..|].
  unfold rd_wf. lia.
Qed.

Definition nonpanicking {A} (m : decoder A) : Prop := safe always m (fun _ _ => True).

Lemma nonpanicking_safe {A} P (m : decoder A) : nonpanicking m -> safe P m (fun _ _ => True).
Proof. intros H. by eapply safe_weaken; [apply H|..]. Qed.

Create HintDb safe discriminated.
#[export] Hint Resolve safe_fail safe_insufficient nonpanicking_safe : safe.
#[export] Hint Extern 1 (safe _ (ret _) _) => (apply safe_ret; intros; simpl in *; done || lia) : safe.
#[export] Hint Extern 1 (nonpanicking (ret _)) => (by apply safe_ret) : safe.

Lemma safe_int (m : decoder Z) n w :
  (forall rd, m rd = (let* rd := get in
     if remaining rd <? Z.of_nat n then rd_insufficient
     else let* v := rd_take_be n in ret (wrapS w v)) rd) -> nonpanicking m.
Proof.
  intros Hm. cut (nonpanicking (let* rd := get in
     if remaining rd <? Z.of_nat n then rd_insufficient
     else let* v := rd_take_be n in ret (wrapS w v))).
  { intros H rd Hrd HP. rewrite Hm. by apply H. }
  apply safe_get. intros rd0. destruct (_ <? _) eqn:E; [apply safe_insufficient|].
  apply Z.ltb_ge in E. eapply safe_bind.
  - apply safe_take_be. by intros rd [-> _].
  - intros a. by apply safe_ret.
Qed.

Lemma safe_getInt8 : nonpanicking getInt8.
Proof. by apply (safe_int _ 1 8). Qed.
Lemma safe_getInt16 : nonpanicking getInt16.
Proof. by apply (safe_int _ 2 16). Qed.
Lemma safe_getInt32 : nonpanicking getInt32.
Proof. by apply (safe_int _ 4 32). Qed.
Lemma safe_getInt64 : nonpanicking getInt64.
Proof. by apply (safe_int _ 8 64). Qed.
#[export] Hint Resolve safe_getInt8 safe_getInt16 safe_getInt32 safe_getInt64 : safe.

Lemma safe_set_off n (P : realDecoder -> Prop) :
  (forall rd, P rd -> rd_off rd <= n <= len (rd_raw rd)) -> safe P (rd_set_off n) (fun _ _ => True).
Proof.
  intros H rd [H1 H2] HP. specialize (H rd HP).
  unfold rd_set_off, modify, rd_wf, remaining. simpl. lia.
Qed.

Lemma safe_getVarint : nonpanicking getVarint.
Proof.
  apply safe_get. intros rd0 rd Hrd [-> _]. pose proof Hrd as [H1 H2].
  unfold bind at 1, lift, slice_from.
  destruct (slice_Ok (rd_raw rd0) (rd_off rd0) (len (rd_raw rd0))) as (b & -> & Hb); [lia..|].
  pose proof (Uvarint_bounds b) as Hn. destruct (Uvarint b) as [tmp n]. simpl in Hn.
  apply (safe_weaken (fun rd => rd = rd0) (fun rd => rd = rd0) _ (fun _ _ => True)); try done.
  destruct (n =? 0) eqn:E0; [apply safe_insufficient|]. apply Z.eqb_neq in E0.
  destruct (n <? 0) eqn:E1.
  - apply Z.ltb_lt in E1. eapply safe_bind; [apply safe_set_off; intros ? ->; lia|].
    intros. apply safe_fail.
  - apply Z.ltb_ge in E1. eapply safe_bind; [apply safe_set_off; intros ? ->; lia|].
    intros. by apply safe_ret.
Qed.
#[export] Hint Resolve safe_getVarint : safe.

(** A length in front of a body is accepted only when the body is there. *)
Lemma safe_length_check (lo n : Z) (e : error) P :
  safe P
    (let* rd := get in
     if n <? lo then fail e
     else if remaining rd <? n then rd_insufficient
     else ret n)
    (fun n rd => lo <= n <= remaining rd).
Proof.
  apply safe_get. intros rd0.
  destruct (n <? lo) eqn:E1; [apply safe_fail|]. apply Z.ltb_ge in E1.
  destruct (remaining rd0 <? n) eqn:E2; [apply safe_insufficient|]. apply Z.ltb_ge in E2.
  apply safe_ret. intros rd [-> _]. lia.
Qed.

Lemma safe_getStringLength :
  safe always getStringLength (fun n rd => -1 <= n <= remaining rd).
Proof. eapply safe_bind; [apply safe_getInt16|]. intros n. apply safe_length_check. Qed.

Lemma safe_getCompactLength :
  safe always getCompactLength (fun n rd => 0 <= n <= remaining rd).
Proof. eapply safe_bind; [apply safe_getVarint|]. intros n. apply safe_length_check. Qed.

Lemma safe_getCompactNullableLength :
  safe always getCompactNullableLength (fun n rd => -1 <= n <= remaining rd).
Proof. eapply safe_bind; [apply safe_getVarint|]. intros n. apply safe_length_check. Qed.

Lemma safe_getArrayLength :
  safe always getArrayLength (fun n rd => n <= 2 * MaxUint16 /\ n <= remaining rd).
Proof.
  apply safe_get. intros rd0.
  destruct (remaining rd0 <? 4) eqn:E; [apply safe_insufficient|]. apply Z.ltb_ge in E.
  eapply safe_bind; [apply safe_take_be; by intros rd [-> _]|].
  intros v. apply safe_get. intros rd1.
  destruct (remaining rd1 <? int32 v) eqn:E1; [apply safe_insufficient|]. apply Z.ltb_ge in E1.
  destruct (2 * MaxUint16 <? int32 v) eqn:E2; [apply safe_fail|]. apply Z.ltb_ge in E2.
  apply safe_ret. intros rd [-> _]. lia.
Qed.

Lemma safe_getRawBytes n : safe always (getRawBytes n) (fun b _ => len b = n).
Proof.
  unfold getRawBytes. destruct (n <? 0) eqn:E; [apply safe_fail|]. apply Z.ltb_ge in E.
  apply safe_get. intros rd0.
  destruct (remaining rd0 <? n) eqn:E1; [apply safe_insufficient|]. apply Z.ltb_ge in E1.
  apply safe_take. intros rd [-> _]. lia.
Qed.

(** The shape of the readers of optional, length-prefixed data. *)
Lemma safe_optional {A B} P (m : decoder A) (f : A -> B) Q :
  safe P m Q -> safe P (let* x := m in ret (f x)) (fun _ _ => True).
Proof. intros H. eapply safe_bind; [apply H|]. intros a. by apply safe_ret. Qed.

Lemma safe_read_raw (m : decoder Z) :
  nonpanicking m ->
  nonpanicking (let* tmp := m in
    if tmp =? -1 then ret None else let* b := getRawBytes tmp in ret (Some b)).
Proof.
  intros H. eapply safe_bind; [apply H|]. intros n. destruct (n =? -1); [by apply safe_ret|].
  eapply safe_optional, safe_weaken; [apply safe_getRawBytes|..]; done.
Qed.

Lemma safe_getBytes : nonpanicking getBytes.
Proof. apply safe_read_raw, safe_getInt32. Qed.

Lemma safe_getVarintBytes : nonpanicking getVarintBytes.
Proof. apply safe_read_raw, safe_getVarint. Qed.

Lemma safe_getUUID : safe always getUUID (fun u _ => len u = 16).
Proof. apply safe_getRawBytes. Qed.

Lemma safe_getBool : nonpanicking getBool.
Proof.
  eapply safe_bind; [apply safe_getInt8|]. intros b.
  destruct (b =? 0); [by apply safe_ret|]. destruct (negb _); [apply safe_fail|by apply safe_ret].
Qed.

(** The shape of the string readers: the length, then that many bytes unless
    the length is the one that stands for no data. *)
Lemma safe_read_string {A} (m : decoder Z) (lo : Z) (stop : Z -> bool) (z : A) (f : bytes -> A) :
  safe always m (fun n rd => lo <= n <= remaining rd) ->
  (forall n, lo <= n -> stop n = false -> 0 <= n) ->
  nonpanicking (let* n := m in if stop n then ret z else let* s := rd_take n in ret (f s)).
Proof.
  intros Hm Hs. eapply safe_bind; [apply Hm|]. intros n. simpl.
  destruct (stop n) eqn:E; [by apply safe_ret|].
  destruct (decide (lo <= n)).
  - eapply safe_optional, safe_take. intros rd Hr. assert (0 <= n) by auto. lia.
  - intros rd _ Hr. lia.
Qed.

Lemma safe_read_string_id (m : decoder Z) (lo : Z) (stop : Z -> bool) :
  safe always m (fun n rd => lo <= n <= remaining rd) ->
  (forall n, lo <= n -> stop n = false -> 0 <= n) ->
  nonpanicking (let* n := m in if stop n then ret [] else rd_take n).
Proof.
  intros Hm Hs rd Hrd HP.
  pose proof (safe_read_string m lo stop [] id Hm Hs rd Hrd HP) as H.
  unfold bind in *. destruct (m rd) as [[n|e|w] rd1]; try done.
  destruct (stop n); [done|]. destruct (rd_take n rd1) as [[b|e|w] rd2]; done.
Qed.

Lemma safe_getString : nonpanicking getString.
Proof. apply (safe_read_string_id _ (-1) (fun n => n =? -1) safe_getStringLength); intros n; rewrite ?Z.eqb_neq, ?Z.ltb_ge; lia. Qed.

Lemma safe_getNullableString : nonpanicking getNullableString.
Proof. apply (safe_read_string _ (-1) (fun n => n =? -1) None Some safe_getStringLength); intros n; rewrite ?Z.eqb_neq, ?Z.ltb_ge; lia. Qed.

Lemma safe_getCompactString : nonpanicking getCompactString.
Proof. apply (safe_read_string_id _ 0 (fun n => n =? 0) safe_getCompactLength); intros n; rewrite ?Z.eqb_neq, ?Z.ltb_ge; lia. Qed.

Lemma safe_getCompactBytes : nonpanicking getCompactBytes.
Proof. apply (safe_read_string_id _ 0 (fun n => n =? 0) safe_getCompactLength); intros n; rewrite ?Z.eqb_neq, ?Z.ltb_ge; lia. Qed.

Lemma safe_getCompactNullableString : nonpanicking getCompactNullableString.
Proof.
  apply (safe_read_string _ (-1) (fun n => n <? 0) None Some safe_getCompactNullableLength); intros n; rewrite ?Z.eqb_neq, ?Z.ltb_ge; lia.
Qed.

Lemma safe_times {A} n (m : decoder A) : nonpanicking m -> nonpanicking (times n m).
Proof.
  intros H. induction n as [|n IH]; simpl; [by apply safe_ret|].
  eapply safe_bind; [apply H|]. intros a. eapply safe_optional, IH.
Qed.

Lemma safe_getStringArray : nonpanicking getStringArray.
Proof.
  eapply safe_bind; [apply safe_getArrayLength|]. intros n.
  destruct (n =? -1); [by apply safe_ret|]. destruct (n <? -1); [apply safe_fail|].
  eapply safe_optional, nonpanicking_safe, safe_times, safe_getString.
Qed.

#[export] Hint Resolve safe_getBytes safe_getVarintBytes safe_getBool safe_getString
  safe_getNullableString safe_getCompactString safe_getCompactBytes
  safe_getCompactNullableString safe_getStringArray safe_times : safe.

(** [Decode] of a reader that does not panic does not panic. *)
Lemma Decode_nonpanicking {A} (m : decoder A) buf w :
  nonpanicking m -> Decode buf m <> Panic w.
Proof.
  intros H. unfold Decode. destruct buf as [buf|]; [|done].
  assert (rd_wf {| rd_raw := buf; rd_off := 0 |}) as Hwf by (unfold rd_wf; simpl; len_lia).
  specialize (H _ Hwf I). destruct (m _) as [[a|e|w'] rd]; [|done..].
  by destruct (negb _).
Qed.
