(* ===== verification/Errors.v ===== *)
(** Kafka error codes (proxy/protocol/errors.go): the [KError] constants and
    [KError.Error].  The error values of the package are constructors of
    [Prelude.error]. *)
From Stdlib Require Import ZArith Lia Strings.Byte.
From stdpp Require Import base list strings gmap pretty.
From S2P Require Import Prelude GoLib.

(** [KError] is an [int16]. *)
Abbreviation KError := Z (only parsing).

Definition KErrNoError : KError := 0.
Definition KErrUnknown : KError := (-1).
Definition KErrOffsetOutOfRange : KError := 1.
Definition KErrInvalidMessage : KError := 2.
Definition KErrUnknownTopicOrPartition : KError := 3.
Definition KErrInvalidMessageSize : KError := 4.
Definition KErrLeaderNotAvailable : KError := 5.
Definition KErrNotLeaderForPartition : KError := 6.
Definition KErrRequestTimedOut : KError := 7.
Definition KErrBrokerNotAvailable : KError := 8.
Definition KErrReplicaNotAvailable : KError := 9.
Definition KErrMessageSizeTooLarge : KError := 10.
Definition KErrStaleControllerEpochCode : KError := 11.
Definition KErrOffsetMetadataTooLarge : KError := 12.
Definition KErrNetworkException : KError := 13.
Definition KErrOffsetsLoadInProgress : KError := 14.
Definition KErrConsumerCoordinatorNotAvailable : KError := 15.
Definition KErrNotCoordinatorForConsumer : KError := 16.
Definition KErrInvalidTopic : KError := 17.
Definition KErrMessageSetSizeTooLarge : KError := 18.
Definition KErrNotEnoughReplicas : KError := 19.
Definition KErrNotEnoughReplicasAfterAppend : KError := 20.
Definition KErrInvalidRequiredAcks : KError := 21.
Definition KErrIllegalGeneration : KError := 22.
Definition KErrInconsistentGroupProtocol : KError := 23.
Definition KErrInvalidGroupId : KError := 24.
Definition KErrUnknownMemberId : KError := 25.
Definition KErrInvalidSessionTimeout : KError := 26.
Definition KErrRebalanceInProgress : KError := 27.
Definition KErrInvalidCommitOffsetSize : KError := 28.
Definition KErrTopicAuthorizationFailed : KError := 29.
Definition KErrGroupAuthorizationFailed : KError := 30.
Definition KErrClusterAuthorizationFailed : KError := 31.
Definition KErrInvalidTimestamp : KError := 32.
Definition KErrUnsupportedSASLMechanism : KError := 33.
Definition KErrIllegalSASLState : KError := 34.
Definition KErrUnsupportedVersion : KError := 35.
Definition KErrTopicAlreadyExists : KError := 36.
Definition KErrInvalidPartitions : KError := 37.
Definition KErrInvalidReplicationFactor : KError := 38.
Definition KErrInvalidReplicaAssignment : KError := 39.
Definition KErrInvalidConfig : KError := 40.
Definition KErrNotController : KError := 41.
Definition KErrInvalidRequest : KError := 42.
Definition KErrUnsupportedForMessageFormat : KError := 43.
Definition KErrPolicyViolation : KError := 44.
Definition KErrOutOfOrderSequenceNumber : KError := 45.
Definition KErrDuplicateSequenceNumber : KError := 46.
Definition KErrInvalidProducerEpoch : KError := 47.
Definition KErrInvalidTxnState : KError := 48.
Definition KErrInvalidProducerIDMapping : KError := 49.
Definition KErrInvalidTransactionTimeout : KError := 50.
Definition KErrConcurrentTransactions : KError := 51.
Definition KErrTransactionCoordinatorFenced : KError := 52.
Definition KErrTransactionalIDAuthorizationFailed : KError := 53.
Definition KErrSecurityDisabled : KError := 54.
Definition KErrOperationNotAttempted : KError := 55.
Definition KErrKafkaStorageError : KError := 56.
Definition KErrLogDirNotFound : KError := 57.
Definition KErrSASLAuthenticationFailed : KError := 58.
Definition KErrUnknownProducerID : KError := 59.
Definition KErrReassignmentInProgress : KError := 60.

Definition KError_Error (err : KError) : string :=
  if err =? KErrNoError then
    "kafka server: Not an error, why are you printing me?"
  else if err =? KErrUnknown then
    "kafka server: Unexpected (unknown?) server error."
  else if err =? KErrOffsetOutOfRange then
    "kafka server: The requested offset is outside the range of offsets maintained by the server for the given topic/partition."
  else if err =? KErrInvalidMessage then
    "kafka server: Message contents does not match its CRC."
  else if err =? KErrUnknownTopicOrPartition then
    "kafka server: Request was for a topic or partition that does not exist on this broker."
  else if err =? KErrInvalidMessageSize then
    "kafka server: The message has a negative size."
  else if err =? KErrLeaderNotAvailable then
    "kafka server: In the middle of a leadership election, there is currently no leader for this partition and hence it is unavailable for writes."
  else if err =? KErrNotLeaderForPartition then
    "kafka server: Tried to send a message to a replica that is not the leader for some partition. Your metadata is out of date."
  else if err =? KErrRequestTimedOut then
    "kafka server: Request exceeded the user-specified time limit in the request."
  else if err =? KErrBrokerNotAvailable then
    "kafka server: Broker not available. Not a client facing error, we should never receive this!!!"
  else if err =? KErrReplicaNotAvailable then
    "kafka server: Replica information not available, one or more brokers are down."
  else if err =? KErrMessageSizeTooLarge then
    "kafka server: Message was too large, server rejected it to avoid allocation error."
  else if err =? KErrStaleControllerEpochCode then
    "kafka server: StaleControllerEpochCode (internal error code for broker-to-broker communication)."
  else if err =? KErrOffsetMetadataTooLarge then
    "kafka server: Specified a string larger than the configured maximum for offset metadata."
  else if err =? KErrNetworkException then
    "kafka server: The server disconnected before a response was received."
  else if err =? KErrOffsetsLoadInProgress then
    "kafka server: The broker is still loading offsets after a leader change for that offset's topic partition."
  else if err =? KErrConsumerCoordinatorNotAvailable then
    "kafka server: Offset's topic has not yet been created."
  else if err =? KErrNotCoordinatorForConsumer then
    "kafka server: Request was for a consumer group that is not coordinated by this broker."
  else if err =? KErrInvalidTopic then
    "kafka server: The request attempted to perform an operation on an invalid topic."
  else if err =? KErrMessageSetSizeTooLarge then
    "kafka server: The request included message batch larger than the configured segment size on the server."
  else if err =? KErrNotEnoughReplicas then
    "kafka server: Messages are rejected since there are fewer in-sync replicas than required."
  else if err =? KErrNotEnoughReplicasAfterAppend then
    "kafka server: Messages are written to the log, but to fewer in-sync replicas than required."
  else if err =? KErrInvalidRequiredAcks then
    "kafka server: The number of required acks is invalid (should be either -1, 0, or 1)."
  else if err =? KErrIllegalGeneration then
    "kafka server: The provided generation id is not the current generation."
  else if err =? KErrInconsistentGroupProtocol then
    "kafka server: The provider group protocol type is incompatible with the other members."
  else if err =? KErrInvalidGroupId then
    "kafka server: The provided group id was empty."
  else if err =? KErrUnknownMemberId then
    "kafka server: The provided member is not known in the current generation."
  else if err =? KErrInvalidSessionTimeout then
    "kafka server: The provided session timeout is outside the allowed range."
  else if err =? KErrRebalanceInProgress then
    "kafka server: A rebalance for the group is in progress. Please re-join the group."
  else if err =? KErrInvalidCommitOffsetSize then
    "kafka server: The provided commit metadata was too large."
  else if err =? KErrTopicAuthorizationFailed then
    "kafka server: The client is not authorized to access this topic."
  else if err =? KErrGroupAuthorizationFailed then
    "kafka server: The client is not authorized to access this group."
  else if err =? KErrClusterAuthorizationFailed then
    "kafka server: The client is not authorized to send this request type."
  else if err =? KErrInvalidTimestamp then
    "kafka server: The timestamp of the message is out of acceptable range."
  else if err =? KErrUnsupportedSASLMechanism then
    "kafka server: The broker does not support the requested SASL mechanism."
  else if err =? KErrIllegalSASLState then
    "kafka server: Request is not valid given the current SASL state."
  else if err =? KErrUnsupportedVersion then
    "kafka server: The version of API is not supported."
  else if err =? KErrTopicAlreadyExists then
    "kafka server: Topic with this name already exists."
  else if err =? KErrInvalidPartitions then
    "kafka server: Number of partitions is invalid."
  else if err =? KErrInvalidReplicationFactor then
    "kafka server: Replication-factor is invalid."
  else if err =? KErrInvalidReplicaAssignment then
    "kafka server: Replica assignment is invalid."
  else if err =? KErrInvalidConfig then
    "kafka server: Configuration is invalid."
  else if err =? KErrNotController then
    "kafka server: This is not the correct controller for this cluster."
  else if err =? KErrInvalidRequest then
    "kafka server: This most likely occurs because of a request being malformed by the client library or the message was sent to an incompatible broker. See the broker logs for more details."
  else if err =? KErrUnsupportedForMessageFormat then
    "kafka server: The requested operation is not supported by the message format version."
  else if err =? KErrPolicyViolation then
    "kafka server: Request parameters do not satisfy the configured policy."
  else if err =? KErrOutOfOrderSequenceNumber then
    "kafka server: The broker received an out of order sequence number."
  else if err =? KErrDuplicateSequenceNumber then
    "kafka server: The broker received a duplicate sequence number."
  else if err =? KErrInvalidProducerEpoch then
    "kafka server: Producer attempted an operation with an old epoch."
  else if err =? KErrInvalidTxnState then
    "kafka server: The producer attempted a transactional operation in an invalid state."
  else if err =? KErrInvalidProducerIDMapping then
    "kafka server: The producer attempted to use a producer id which is not currently assigned to its transactional id."
  else if err =? KErrInvalidTransactionTimeout then
    "kafka server: The transaction timeout is larger than the maximum value allowed by the broker (as configured by max.transaction.timeout.ms)."
  else if err =? KErrConcurrentTransactions then
    "kafka server: The producer attempted to update a transaction while another concurrent operation on the same transaction was ongoing."
  else if err =? KErrTransactionCoordinatorFenced then
    "kafka server: The transaction coordinator sending a WriteTxnMarker is no longer the current coordinator for a given producer."
  else if err =? KErrTransactionalIDAuthorizationFailed then
    "kafka server: Transactional ID authorization failed."
  else if err =? KErrSecurityDisabled then
    "kafka server: Security features are disabled."
  else if err =? KErrOperationNotAttempted then
    "kafka server: The broker did not attempt to execute this operation."
  else if err =? KErrKafkaStorageError then
    "kafka server: Disk error when trying to access log file on the disk."
  else if err =? KErrLogDirNotFound then
    "kafka server: The specified log directory is not found in the broker config."
  else if err =? KErrSASLAuthenticationFailed then
    "kafka server: SASL Authentication failed."
  else if err =? KErrUnknownProducerID then
    "kafka server: The broker could not locate the producer metadata associated with the Producer ID."
  else if err =? KErrReassignmentInProgress then
    "kafka server: A partition reassignment is in progress."
  else ("Unknown error, how did this happen? Error code = " +:+ pretty err)%string.
