(* ===== verification/Schema.v ===== *)
(** Schema-driven messages (proxy/protocol/schema.go): the schema language,
    the dynamic values ([interface{}]) it reads and writes, [Struct] access,
    [DecodeSchema] and [EncodeSchema].

    A decoded message is a tree of freshly allocated values, so the pointers
    [*Struct] inside it are not aliased and in-place updates are modelled as
    updates of the tree. *)
From Stdlib Require Import ZArith Lia Strings.Byte.
From stdpp Require Import base list strings gmap.
From S2P Require Import Prelude GoLib Encoder Decoder.

(** ** Schemas and values *)

(** [Type*] are the singletons of the primitive types; [schema] is the struct
    built by [NewSchema]. *)
Inductive Schema :=
  | TypeBool
  | TypeInt16
  | TypeInt32
  | TypeStr
  | TypeNullableStr
  | TypeCompactStr
  | TypeCompactNullableStr
  | TypeUuid
  | schema (name : string) (fields : list Field)
with Field :=
  | Mfield (Name : string) (Ty : Schema)
  | SchemaTaggedFields (Name : string)
  | Array (Name : string) (Ty : Schema)
  | CompactArray (Name : string) (Ty : Schema)
  | CompactNullableArray (Name : string) (Ty : Schema).

Definition Field_GetName (f : Field) : string :=
  match f with
  | Mfield Name _ | SchemaTaggedFields Name | Array Name _ | CompactArray Name _
  | CompactNullableArray Name _ => Name
  end.

Definition GetFields (s : Schema) : list Field :=
  match s with schema _ fields => fields | _ => [] end.

(** [GetFieldsByName()[name]]: the index of the bound field, [None] for nil. *)
Fixpoint field_index (fs : list Field) (name : string) : option nat :=
  match fs with
  | [] => None
  | f :: fs' =>
      if decide (Field_GetName f = name) then Some O else S <$> field_index fs' name
  end.
Definition GetFieldsByName (s : Schema) (name : string) : option nat :=
  field_index (GetFields s) name.

(** [NewSchema] panics on the first field whose name was used before. *)
Fixpoint NewSchema_check (fs : list Field) (seen : list string) : res unit :=
  match fs with
  | [] => Ok tt
  | f :: fs' =>
      if decide (Field_GetName f ∈ seen) then Panic "Schema contains a duplicate field: %s"
      else NewSchema_check fs' (Field_GetName f :: seen)
  end.
Definition NewSchema (name : string) (fs : list Field) : res Schema :=
  do? NewSchema_check fs [] in Ok (schema name fs).

Record rawTaggedField := { tag : Z; data : option bytes }.

(** The dynamic types a schema produces or accepts; [VNil] is the nil
    interface and [VPString] a [*string]. *)
Inductive value :=
  | VNil
  | VBool (b : bool)
  | VInt16 (z : Z)
  | VInt32 (z : Z)
  | VString (s : bytes)
  | VPString (p : option bytes)
  | VUUID (u : bytes)
  | VTagged (l : list rawTaggedField)
  | VArray (l : list value)
  | VStruct (Schema : Schema) (Values : list value).

Record Struct := { Struct_Schema : Schema; Struct_Values : list value }.

(** ** Decoding *)

Definition decodeArrayElements (n : Z) (elementDecode : decoder value) : decoder value :=
  let* result := times (Z.to_nat n) elementDecode in ret (VArray result).

(** The [decode] methods of the primitive types. *)
Definition Bool_decode : decoder value := let* b := getBool in ret (VBool b).
Definition Int16_decode : decoder value := let* z := getInt16 in ret (VInt16 z).
Definition Int32_decode : decoder value := let* z := getInt32 in ret (VInt32 z).
Definition Str_decode : decoder value := let* s := getString in ret (VString s).
Definition NullableStr_decode : decoder value :=
  let* p := getNullableString in ret (VPString p).
Definition CompactStr_decode : decoder value :=
  let* s := getCompactString in ret (VString s).
Definition CompactNullableStr_decode : decoder value :=
  let* p := getCompactNullableString in ret (VPString p).
Definition Uuid_decode : decoder value := let* u := getUUID in ret (VUUID u).

(** The size of a [rawTaggedField]: an [int64] and a slice header. *)
Definition rawTaggedField_size : Z := 32.

Definition rawTaggedField_decode : decoder rawTaggedField :=
  let* tag := getVarint in
  let* data := getVarintBytes in
  ret {| tag := tag; data := data |}.

Definition SchemaTaggedFields_decode : decoder (list rawTaggedField) :=
  let* numTaggedFields := getVarint in
  if numTaggedFields =? 0 then ret []
  else if numTaggedFields <? 0 then fail (Errorf "Negative number of tagged fields %d")
  else
    do* lift (makeslice rawTaggedField_size numTaggedFields) in
    times (Z.to_nat numTaggedFields) rawTaggedField_decode.

(** The [decode] methods of the array fields, over [f.Ty.decode]. *)
Definition Array_decode (Ty_decode : decoder value) : decoder value :=
  let* n := getArrayLength in decodeArrayElements n Ty_decode.

Definition CompactArray_decode (Ty_decode : decoder value) : decoder value :=
  let* n := wrapf getCompactArrayLength "getCompactArrayLength field %s" in
  wrapf (decodeArrayElements n Ty_decode) "decodeArrayElements field %s".

Definition CompactNullableArray_decode (Ty_decode : decoder value) : decoder value :=
  let* n := getCompactNullableArrayLength in
  if n =? -1 then ret VNil else decodeArrayElements n Ty_decode.

Fixpoint Schema_decode (s : Schema) : decoder value :=
  match s with
  | TypeBool => Bool_decode
  | TypeInt16 => Int16_decode
  | TypeInt32 => Int32_decode
  | TypeStr => Str_decode
  | TypeNullableStr => NullableStr_decode
  | TypeCompactStr => CompactStr_decode
  | TypeCompactNullableStr => CompactNullableStr_decode
  | TypeUuid => Uuid_decode
  | schema _ fields =>
      let* values :=
        (fix decode_fields (fs : list Field) : decoder (list value) :=
           match fs with
           | [] => ret []
           | f :: fs' =>
               let* v := Field_decode f in let* vs := decode_fields fs' in ret (v :: vs)
           end) fields in
      ret (VStruct s values)
  end
with Field_decode (f : Field) : decoder value :=
  match f with
  | Mfield _ Ty => Schema_decode Ty
  | SchemaTaggedFields _ => let* l := SchemaTaggedFields_decode in ret (VTagged l)
  | Array _ Ty => Array_decode (Schema_decode Ty)
  | CompactArray _ Ty => CompactArray_decode (Schema_decode Ty)
  | CompactNullableArray _ Ty => CompactNullableArray_decode (Schema_decode Ty)
  end.

Fixpoint decode_fields (fs : list Field) : decoder (list value) :=
  match fs with
  | [] => ret []
  | f :: fs' => let* v := Field_decode f in let* vs := decode_fields fs' in ret (v :: vs)
  end.

(** [DecodeSchema]; [None] is the nil slice and the nil [*Struct]. *)
Definition DecodeSchema (buf : option bytes) (sch : Schema) : res (option Struct) :=
  match buf with
  | None => Ok None
  | Some buf =>
      match Schema_decode sch {| rd_raw := buf; rd_off := 0 |} with
      | (Ok v, helper) =>
          if negb (rd_off helper =? len buf) then Err (SchemaDecodingError "invalid length")
          else
            match v with
            | VStruct s vs => Ok (Some {| Struct_Schema := s; Struct_Values := vs |})
            | _ => Err (SchemaDecodingError
                          "internal error: schema decode should return *Struct")
            end
      | (Err e, _) => Err e
      | (Panic w, _) => Panic w
      end
  end.

(** ** Encoding *)

Definition not_a {S A} (format : string) : M S A := fail (SchemaEncodingError format).

Definition rawTaggedField_encode {E} `{packetEncoder E} (r : rawTaggedField) : M E unit :=
  do* putVarint (tag r) in putVarintBytes (data r).

Definition SchemaTaggedFields_encode {E} `{packetEncoder E} (l : list rawTaggedField) : M E unit :=
  do* putVarint (len l) in each rawTaggedField_encode l.

Section encoding.
Context {E : Type} {P : packetEncoder E}.

(** The [encode] methods of the primitive types. *)
Definition Bool_encode (v : value) : M E unit :=
  match v with VBool b => putBool b | _ => not_a "value %T not a bool" end.
Definition Int16_encode (v : value) : M E unit :=
  match v with VInt16 z => putInt16 z | _ => not_a "value %T not a int16" end.
Definition Int32_encode (v : value) : M E unit :=
  match v with VInt32 z => putInt32 z | _ => not_a "value %T not a int32" end.
Definition Str_encode (v : value) : M E unit :=
  match v with VString s => putString s | _ => not_a "value %T not a string" end.
Definition NullableStr_encode (v : value) : M E unit :=
  do* (match v with VNil => putNullableString None | _ => ret tt end) in
  match v with VPString p => putNullableString p | _ => not_a "value %T not a *string" end.
Definition CompactStr_encode (v : value) : M E unit :=
  match v with VString s => putCompactString s | _ => not_a "value %T not a string" end.
Definition CompactNullableStr_encode (v : value) : M E unit :=
  do* (match v with VNil => putCompactNullableString None | _ => ret tt end) in
  match v with VPString p => putCompactNullableString p | _ => not_a "value %T not a *string" end.
Definition Uuid_encode (v : value) : M E unit :=
  match v with VUUID u => putUUID u | _ => not_a "value %T not a uuid" end.

Definition encodeArrayElements (elementEncode : value -> M E unit) (l : list value) : M E unit :=
  each elementEncode l.

(** The [encode] methods of the array fields, over [f.Ty.encode]. *)
Definition Array_encode (Ty_encode : value -> M E unit) (v : value) : M E unit :=
  match v with
  | VArray l => do* putArrayLength (len l) in encodeArrayElements Ty_encode l
  | _ => not_a "value %T not a []interface{}"
  end.
Definition CompactArray_encode (Ty_encode : value -> M E unit) (v : value) : M E unit :=
  match v with
  | VArray l => do* putCompactArrayLength (len l) in encodeArrayElements Ty_encode l
  | _ => not_a "value %T not a []interface{}"
  end.
Definition CompactNullableArray_encode (Ty_encode : value -> M E unit) (v : value) : M E unit :=
  match v with
  | VNil => putCompactNullableArrayLength (-1)
  | VArray l => do* putCompactNullableArrayLength (len l) in encodeArrayElements Ty_encode l
  | _ => not_a "value %T not a []interface{}"
  end.

Fixpoint Schema_encode (s : Schema) (v : value) {struct s} : M E unit :=
  match s with
  | TypeBool => Bool_encode v
  | TypeInt16 => Int16_encode v
  | TypeInt32 => Int32_encode v
  | TypeStr => Str_encode v
  | TypeNullableStr => NullableStr_encode v
  | TypeCompactStr => CompactStr_encode v
  | TypeCompactNullableStr => CompactNullableStr_encode v
  | TypeUuid => Uuid_encode v
  | schema _ fields =>
      match v with
      | VStruct _ values =>
          if negb (length values =? length fields)%nat
          then not_a "length difference: values %d, struct fields %d"
          else
            (fix encode_fields (fs : list Field) (vs : list value) : M E unit :=
               match fs, vs with
               | f :: fs', v :: vs' => do* Field_encode f v in encode_fields fs' vs'
               | _, _ => ret tt
               end) fields values
      | _ => not_a "value %T not a *Struct"
      end
  end
with Field_encode (f : Field) (v : value) {struct f} : M E unit :=
  match f with
  | Mfield _ Ty => Schema_encode Ty v
  | SchemaTaggedFields _ =>
      match v with
      | VTagged l => SchemaTaggedFields_encode l
      | _ => not_a "value %T not a []rawTaggedField"
      end
  | Array _ Ty => Array_encode (Schema_encode Ty) v
  | CompactArray _ Ty => CompactArray_encode (Schema_encode Ty) v
  | CompactNullableArray _ Ty => CompactNullableArray_encode (Schema_encode Ty) v
  end.

Fixpoint encode_fields (fs : list Field) (vs : list value) : M E unit :=
  match fs, vs with
  | f :: fs', v :: vs' => do* Field_encode f v in encode_fields fs' vs'
  | _, _ => ret tt
  end.

End encoding.

(** [EncodeSchema]; [None] is the nil [*Struct] and the nil slice. *)
Definition EncodeSchema (s : option Struct) (sch : Schema) : res (option bytes) :=
  match s with
  | None => Ok None
  | Some s =>
      rmap Some (encode_passes (SchemaEncodingError "invalid request size (%d)")
        (fun E P => Schema_encode sch (VStruct (Struct_Schema s) (Struct_Values s))))
  end.

(** ** Struct access *)

Inductive Kind := KBool | KInt16 | KInt32 | KString | KPtr | KArray | KSlice.
#[export] Instance Kind_eq_dec : EqDecision Kind.
Proof. solve_decision. Defined.

(** [reflect.TypeOf(v).Kind()]; the type of the nil interface is nil. *)
Definition kind_of (v : value) : option Kind :=
  match v with
  | VNil => None
  | VBool _ => Some KBool
  | VInt16 _ => Some KInt16
  | VInt32 _ => Some KInt32
  | VString _ => Some KString
  | VPString _ | VStruct _ _ => Some KPtr
  | VUUID _ => Some KArray
  | VTagged _ | VArray _ => Some KSlice
  end.

Definition Struct_Get (s : Struct) (name : string) : value :=
  match GetFieldsByName (Struct_Schema s) name with
  | None => VNil
  | Some i => default VNil (Struct_Values s !! i)
  end.

Definition Struct_Replace (s : Struct) (name : string) (v : value) : res Struct :=
  match kind_of v with
  | None => Err (Errorf "field %s value in struct %s : new value must not be nil")
  | Some newKind =>
      match GetFieldsByName (Struct_Schema s) name with
      | None => Err (Errorf "field %s value in struct %s : name not found")
      | Some i =>
          match Struct_Values s !! i with
          | None => Err (Errorf "field %s value in struct %s : index %d gte %d")
          | Some old =>
              match kind_of old with
              | None => Err (Errorf "field %s value in struct %s : old value not found")
              | Some oldKind =>
                  if decide (oldKind = newKind)
                  then Ok {| Struct_Schema := Struct_Schema s;
                             Struct_Values := <[i := v]> (Struct_Values s) |}
                  else Err (Errorf "field %s value in struct %s : kinds differ %v to %v")
              end
          end
      end
  end.
