(* ===== verification/SchemaFacts.v ===== *)
(** The schema language is correct: a declarative typing of dynamic values,
    the bytes a typed value stands for, and the lemmas that decoding yields
    typed values, that encoding emits those bytes and that decoding reads
    them back. *)
From Stdlib Require Import ZArith Lia Strings.Byte.
From stdpp Require Import base list strings gmap.
From S2P Require Import Prelude GoLib Encoder Decoder Schema.

(** ** Induction over schemas and their fields *)

Section schema_induction.
Context (P : Schema -> Prop) (Q : Field -> Prop).
Context (HBool : P TypeBool) (HInt16 : P TypeInt16) (HInt32 : P TypeInt32)
  (HStr : P TypeStr) (HNullableStr : P TypeNullableStr) (HCompactStr : P TypeCompactStr)
  (HCompactNullableStr : P TypeCompactNullableStr) (HUuid : P TypeUuid)
  (Hschema : forall name fields, Forall Q fields -> P (schema name fields))
  (HMfield : forall Name Ty, P Ty -> Q (Mfield Name Ty))
  (HTagged : forall Name, Q (SchemaTaggedFields Name))
  (HArray : forall Name Ty, P Ty -> Q (Array Name Ty))
  (HCompactArray : forall Name Ty, P Ty -> Q (CompactArray Name Ty))
  (HCompactNullableArray : forall Name Ty, P Ty -> Q (CompactNullableArray Name Ty)).

Fixpoint Schema_rec (s : Schema) : P s :=
  match s with
  | TypeBool => HBool | TypeInt16 => HInt16 | TypeInt32 => HInt32 | TypeStr => HStr
  | TypeNullableStr => HNullableStr | TypeCompactStr => HCompactStr
  | TypeCompactNullableStr => HCompactNullableStr | TypeUuid => HUuid
  | schema name fields =>
      Hschema name fields
        ((fix go (fs : list Field) : Forall Q fs :=
            match fs with
            | [] => @List.Forall_nil _ Q
            | f :: fs' => @List.Forall_cons _ Q f fs' (Field_rec f) (go fs')
            end) fields)
  end
with Field_rec (f : Field) : Q f :=
  match f with
  | Mfield Name Ty => HMfield Name Ty (Schema_rec Ty)
  | SchemaTaggedFields Name => HTagged Name
  | Array Name Ty => HArray Name Ty (Schema_rec Ty)
  | CompactArray Name Ty => HCompactArray Name Ty (Schema_rec Ty)
  | CompactNullableArray Name Ty => HCompactNullableArray Name Ty (Schema_rec Ty)
  end.

Lemma schema_field_ind : (forall s, P s) /\ (forall f, Q f).
Proof using All. split; [apply Schema_rec | apply Field_rec]. Qed.
End schema_induction.

(** ** Unfolding the mutual definitions *)

Lemma Schema_decode_schema name fields :
  Schema_decode (schema name fields) =
    let* values := decode_fields fields in ret (VStruct (schema name fields) values).
Proof. done. Qed.

Lemma Schema_encode_schema {E} {P : packetEncoder E} name fields sch values :
  length values = length fields ->
  Schema_encode (schema name fields) (VStruct sch values) = encode_fields fields values.
Proof. intros H. cbn [Schema_encode]. by rewrite H, Nat.eqb_refl. Qed.

(** ** Decidable equality of schemas *)

Fixpoint Schema_eqb (s t : Schema) {struct s} : bool :=
  match s, t with
  | TypeBool, TypeBool | TypeInt16, TypeInt16 | TypeInt32, TypeInt32 | TypeStr, TypeStr
  | TypeNullableStr, TypeNullableStr | TypeCompactStr, TypeCompactStr
  | TypeCompactNullableStr, TypeCompactNullableStr | TypeUuid, TypeUuid => true
  | schema n fs, schema n' fs' =>
      bool_decide (n = n') &&
      (fix fields_eqb (fs gs : list Field) : bool :=
         match fs, gs with
         | [], [] => true
         | f :: fs', g :: gs' => Field_eqb f g && fields_eqb fs' gs'
         | _, _ => false
         end) fs fs'
  | _, _ => false
  end
with Field_eqb (f g : Field) {struct f} : bool :=
  match f, g with
  | Mfield n t, Mfield n' t' | Array n t, Array n' t' | CompactArray n t, CompactArray n' t'
  | CompactNullableArray n t, CompactNullableArray n' t' => bool_decide (n = n') && Schema_eqb t t'
  | SchemaTaggedFields n, SchemaTaggedFields n' => bool_decide (n = n')
  | _, _ => false
  end.

Lemma Schema_eqb_spec :
  (forall s t, Schema_eqb s t = true <-> s = t) /\ (forall f g, Field_eqb f g = true <-> f = g).
Proof.
  apply schema_field_ind; try (intros []; simpl; split; congruence).
  - intros name fields IH [| | | | | | | |name' fields']; try (simpl; split; congruence).
    simpl. rewrite andb_true_iff, bool_decide_eq_true.
    match goal with |- _ /\ ?b = true <-> _ => cut (b = true <-> fields = fields') end.
    { intros ->. split; [by intros [-> ->] | by intros [= -> ->]]. }
    revert fields'. induction IH as [|f fs Hf Hfs IH]; intros [|g gs]; try (split; congruence).
    rewrite andb_true_iff, Hf, IH. split; [by intros [-> ->] | by intros [= -> ->]].
  - intros N T IH [] ; simpl; try (split; congruence);
      rewrite andb_true_iff, bool_decide_eq_true, IH; split; [by intros [-> ->] | by intros [= -> ->]].
  - intros N []; simpl; try (split; congruence); rewrite bool_decide_eq_true; split; congruence.
  - intros N T IH [] ; simpl; try (split; congruence);
      rewrite andb_true_iff, bool_decide_eq_true, IH; split; [by intros [-> ->] | by intros [= -> ->]].
  - intros N T IH [] ; simpl; try (split; congruence);
      rewrite andb_true_iff, bool_decide_eq_true, IH; split; [by intros [-> ->] | by intros [= -> ->]].
  - intros N T IH [] ; simpl; try (split; congruence);
      rewrite andb_true_iff, bool_decide_eq_true, IH; split; [by intros [-> ->] | by intros [= -> ->]].
Qed.

#[export] Instance Schema_eq_dec : EqDecision Schema.
Proof.
  intros s t. destruct (Schema_eqb s t) eqn:E.
  - left. by apply Schema_eqb_spec.
  - right. intros H%Schema_eqb_spec. congruence.
Defined.

(** ** Typed values *)

Definition inSb (w z : Z) : bool := (- 2 ^ (w - 1) <=? z) && (z <? 2 ^ (w - 1)).
Lemma inSb_spec w z : inSb w z = true <-> inS w z.
Proof. unfold inSb, inS. rewrite andb_true_iff, Z.leb_le, Z.ltb_lt. done. Qed.

Definition tagged_typed (l : list rawTaggedField) : bool :=
  (len l <=? 2 ^ 43) && forallb (fun r => inSb 64 (tag r)) l.

(** [typed s v]: [v] has the dynamic type [s] decodes to, its integers are in
    range and its lists are not longer than a decoder accepts. *)
Fixpoint typed (s : Schema) (v : value) {struct s} : bool :=
  match s, v with
  | TypeBool, VBool _ => true
  | TypeInt16, VInt16 z => inSb 16 z
  | TypeInt32, VInt32 z => inSb 32 z
  | TypeStr, VString _ => true
  | TypeNullableStr, VPString _ => true
  | TypeCompactStr, VString _ => true
  | TypeCompactNullableStr, VPString _ => true
  | TypeUuid, VUUID u => (length u =? 16)%nat
  | schema name fields, VStruct s' values =>
      Schema_eqb (schema name fields) s' &&
      (fix typed_fields (fs : list Field) (vs : list value) : bool :=
         match fs, vs with
         | [], [] => true
         | f :: fs', v :: vs' => typed_field f v && typed_fields fs' vs'
         | _, _ => false
         end) fields values
  | _, _ => false
  end
with typed_field (f : Field) (v : value) {struct f} : bool :=
  match f, v with
  | Mfield _ Ty, _ => typed Ty v
  | SchemaTaggedFields _, VTagged l => tagged_typed l
  | Array _ Ty, VArray l => (len l <=? 2 * MaxUint16) && forallb (typed Ty) l
  | CompactArray _ Ty, VArray l => forallb (typed Ty) l
  | CompactNullableArray _ Ty, VNil => true
  | CompactNullableArray _ Ty, VArray l => forallb (typed Ty) l
  | _, _ => false
  end.

Fixpoint typed_fields (fs : list Field) (vs : list value) : bool :=
  match fs, vs with
  | [], [] => true
  | f :: fs', v :: vs' => typed_field f v && typed_fields fs' vs'
  | _, _ => false
  end.

Lemma typed_schema name fields s' values :
  typed (schema name fields) (VStruct s' values) = true <->
  s' = schema name fields /\ typed_fields fields values = true.
Proof.
  change (typed (schema name fields) (VStruct s' values))
    with (Schema_eqb (schema name fields) s' && typed_fields fields values).
  rewrite andb_true_iff. destruct Schema_eqb_spec as [-> _]. split; intros [? ?]; auto.
Qed.

Lemma typed_schema_inv name fields v :
  typed (schema name fields) v = true ->
  exists values, v = VStruct (schema name fields) values /\ typed_fields fields values = true.
Proof. intros H. destruct v; try done. apply typed_schema in H as [-> ?]. eauto. Qed.

Lemma typed_fields_length fs vs : typed_fields fs vs = true -> length vs = length fs.
Proof.
  revert vs. induction fs as [|f fs IH]; intros [|v vs]; simpl; try done.
  rewrite andb_true_iff. intros [_ H]. by rewrite (IH vs).
Qed.

(** ** Decoding yields typed values *)

(** [m] returns values satisfying [Q]. *)
Definition yields {A} (m : decoder A) (Q : A -> Prop) : Prop :=
  forall rd a rd', m rd = (Ok a, rd') -> Q a.

Lemma decoder_yields_bind {A B} (m : decoder A) (k : A -> decoder B) Q R :
  yields m Q -> (forall a, Q a -> yields (k a) R) -> yields (bind m k) R.
Proof. intros Hm Hk rd b rd' (a & rd1 & H1 & H2)%bind_inv. eapply Hk, H2. by eapply Hm. Qed.

Lemma decoder_yields_ret {A} (a : A) (Q : A -> Prop) : Q a -> yields (ret a) Q.
Proof. by intros H rd a' rd' [= <- <-]. Qed.

Lemma yields_fail {A} e (Q : A -> Prop) : yields (fail e) Q.
Proof. by intros rd a rd'. Qed.

Lemma yields_true {A} (m : decoder A) : yields m (fun _ => True).
Proof. done. Qed.

Lemma yields_map {A B} (m : decoder A) (f : A -> B) (Q : B -> Prop) :
  yields m (fun a => Q (f a)) -> yields (let* a := m in ret (f a)) Q.
Proof. intros H. eapply decoder_yields_bind; [apply H|]. intros a Ha. by apply decoder_yields_ret. Qed.

Lemma yields_wrapf {A} (m : decoder A) s Q : yields m Q -> yields (wrapf m s) Q.
Proof.
  intros H rd a rd'. unfold wrapf. destruct (m rd) as [[x|e|w] rd1] eqn:E; try done.
  intros [= <- <-]. by eapply H.
Qed.

Lemma decoder_yields_times {A} n (m : decoder A) (Q : A -> Prop) :
  yields m Q -> yields (times n m) (fun l => length l = n /\ Forall Q l).
Proof.
  intros H. induction n as [|n IH]; simpl; [by apply decoder_yields_ret|].
  eapply decoder_yields_bind; [apply H|]. intros a Ha. apply yields_map.
  intros rd l rd' Hl. destruct (IH rd l rd' Hl). split; [simpl; congruence | by constructor].
Qed.

Lemma yields_int (m : decoder Z) w :
  0 < w -> (forall rd z rd', m rd = (Ok z, rd') -> exists v, z = wrapS w v) ->
  yields m (fun z => inSb w z = true).
Proof. intros Hw H rd z rd' (v & ->)%H. apply inSb_spec. by apply wrapS_range. Qed.

Ltac int_result :=
  apply yields_int; [lia|]; intros rd z rd' H;
  unfold getInt8, getInt16, getInt32, getInt64, getVarint, bind, get, lift in H;
  repeat case_match; simplify_eq; unfold ret in *; simplify_eq; eauto.

Lemma yields_getInt16 : yields getInt16 (fun z => inSb 16 z = true).
Proof. int_result. Qed.
Lemma yields_getInt32 : yields getInt32 (fun z => inSb 32 z = true).
Proof. int_result. Qed.
Lemma yields_getVarint : yields getVarint (fun z => inSb 64 z = true).
Proof. int_result. Qed.

Lemma yields_getUUID : yields getUUID (fun u => length u = 16%nat).
Proof.
  intros rd u rd' H. unfold getUUID, getRawBytes in H. simpl in H.
  unfold bind at 1, get in H. destruct (remaining rd <? 16); [done|].
  unfold rd_take, bind, get, lift, rd_set_off, modify in H.
  destruct (slice _ _ _) as [b|e|w] eqn:E; simplify_eq.
  unfold slice in E. destruct (_ && _) eqn:Eb; [|done].
  apply andb_prop in Eb as [[E1 E2]%andb_prop E3]. rewrite Z.leb_le in E1, E2, E3.
  unfold ret in H. simplify_eq. rewrite length_take, length_drop. unfold len in *. lia.
Qed.

Lemma yields_getArrayLength : yields getArrayLength (fun n => n <= 2 * MaxUint16).
Proof.
  intros rd n rd' H. unfold getArrayLength, bind at 1, get in H.
  destruct (remaining rd <? 4); [done|]. apply bind_inv in H as (v & rd1 & _ & H).
  unfold bind, get in H. destruct (_ <? _); [done|].
  destruct (2 * MaxUint16 <? _) eqn:E; [done|]. apply Z.ltb_ge in E.
  unfold ret in H. by simplify_eq.
Qed.

Lemma makeslice_Ok size n : makeslice size n = Ok tt -> 0 <= n /\ size * n <= maxAlloc.
Proof.
  unfold makeslice. destruct (n <? 0) eqn:E1; [done|]. destruct (maxAlloc <? _) eqn:E2; [done|].
  apply Z.ltb_ge in E1, E2. done.
Qed.

Lemma yields_tagged : yields SchemaTaggedFields_decode (fun l => tagged_typed l = true).
Proof.
  eapply decoder_yields_bind; [apply yields_getVarint|]. intros n Hn.
  destruct (n =? 0); [by apply decoder_yields_ret|]. destruct (n <? 0); [by apply yields_fail|].
  intros rd l rd' H. apply bind_inv in H as ([] & rd1 & Hmake & H).
  unfold lift in Hmake. injection Hmake as Hmake <-. apply makeslice_Ok in Hmake as [H1 H2].
  assert (yields rawTaggedField_decode (fun r => inSb 64 (tag r) = true)) as Hraw.
  { eapply decoder_yields_bind; [apply yields_getVarint|]. intros t Ht.
    apply (yields_map _ (fun d => {| tag := t; data := d |})). intros ????. exact Ht. }
  destruct (decoder_yields_times _ _ _ Hraw rd l rd' H) as [Hl Hall].
  unfold tagged_typed. rewrite andb_true_iff, Z.leb_le. split.
  - unfold len, maxAlloc, rawTaggedField_size in *. lia.
  - apply forallb_forall. rewrite List.Forall_forall in Hall. exact Hall.
Qed.

Lemma yields_elements n (m : decoder value) (Q : value -> bool) :
  yields m (fun v => Q v = true) ->
  yields (decodeArrayElements n m)
    (fun v => exists l, v = VArray l /\ length l = Z.to_nat n /\ forallb Q l = true).
Proof.
  intros H. apply yields_map. intros rd l rd' Hl.
  destruct (decoder_yields_times _ _ _ H rd l rd' Hl) as [Hn Hall].
  exists l. split; [done|]. split; [done|]. apply forallb_forall. rewrite List.Forall_forall in Hall. exact Hall.
Qed.

(** Whatever bytes are decoded, the result has the type of the schema. *)
Lemma decode_typed :
  (forall s, yields (Schema_decode s) (fun v => typed s v = true)) /\
  (forall f, yields (Field_decode f) (fun v => typed_field f v = true)).
Proof.
  apply schema_field_ind; try (apply yields_map; by intros ????).
  - apply yields_map, yields_getInt16.
  - apply yields_map, yields_getInt32.
  - apply yields_map. intros rd u rd' H. simpl. rewrite (yields_getUUID _ _ _ H). done.
  - intros name fields Hall. rewrite Schema_decode_schema. apply yields_map.
    cut (yields (decode_fields fields) (fun vs => typed_fields fields vs = true)).
    { intros H rd vs rd' Hvs. apply typed_schema. split; [done|]. by eapply H. }
    induction Hall as [|f fs Hf Hfs IH]; simpl; [by apply decoder_yields_ret|].
    eapply decoder_yields_bind; [apply Hf|]. intros v Hv. apply yields_map.
    intros rd vs rd' Hvs. simpl. by rewrite Hv, (IH _ _ _ Hvs).
  - done.
  - intros Name. apply yields_map, yields_tagged.
  - intros Name Ty IH. eapply decoder_yields_bind; [apply yields_getArrayLength|]. intros n Hn.
    intros rd v rd' H. destruct (yields_elements n _ _ IH rd v rd' H) as (l & -> & Hl & Ht).
    simpl. rewrite Ht, andb_true_r, Z.leb_le. unfold len, MaxUint16 in *. lia.
  - intros Name Ty IH. eapply decoder_yields_bind; [apply yields_true|]. intros n _. apply yields_wrapf.
    intros rd v rd' H. by destruct (yields_elements n _ _ IH rd v rd' H) as (l & -> & Hl & Ht).
  - intros Name Ty IH. eapply decoder_yields_bind; [apply yields_true|]. intros n _.
    destruct (n =? -1); [by apply decoder_yields_ret|].
    intros rd v rd' H. by destruct (yields_elements n _ _ IH rd v rd' H) as (l & -> & Hl & Ht).
Qed.

(** ** The bytes of a typed value *)

Definition rawTaggedField_bytes (r : rawTaggedField) : res bytes :=
  rapp (Ok (varint_bytes (tag r))) (varint_bytes_bytes (data r)).

Definition tagged_bytes (l : list rawTaggedField) : res bytes :=
  rapp (Ok (varint_bytes (len l)))
       (foldr (fun r acc => rapp (rawTaggedField_bytes r) acc) (Ok []) l).

(** A value of the wrong dynamic type has no bytes. *)
Definition mistyped : res bytes := Err (SchemaEncodingError "mistyped").

Fixpoint value_bytes (s : Schema) (v : value) {struct s} : res bytes :=
  match s, v with
  | TypeBool, VBool b => Ok (bool_bytes b)
  | TypeInt16, VInt16 z => Ok (be_put 2 z)
  | TypeInt32, VInt32 z => Ok (be_put 4 z)
  | TypeStr, VString s => string_bytes s
  | TypeNullableStr, VPString p => nullable_string_bytes p
  | TypeCompactStr, VString s => compact_string_bytes s
  | TypeCompactNullableStr, VPString p => compact_nullable_string_bytes p
  | TypeUuid, VUUID u => Ok u
  | schema _ fields, VStruct _ values =>
      (fix fields_bytes (fs : list Field) (vs : list value) : res bytes :=
         match fs, vs with
         | f :: fs', v :: vs' => rapp (field_bytes f v) (fields_bytes fs' vs')
         | _, _ => Ok []
         end) fields values
  | _, _ => mistyped
  end
with field_bytes (f : Field) (v : value) {struct f} : res bytes :=
  match f, v with
  | Mfield _ Ty, _ => value_bytes Ty v
  | SchemaTaggedFields _, VTagged l => tagged_bytes l
  | Array _ Ty, VArray l =>
      rapp (array_length_bytes (len l)) (foldr (fun v r => rapp (value_bytes Ty v) r) (Ok []) l)
  | CompactArray _ Ty, VArray l =>
      rapp (compact_array_length_bytes (len l))
           (foldr (fun v r => rapp (value_bytes Ty v) r) (Ok []) l)
  | CompactNullableArray _ Ty, VNil => compact_array_length_bytes (-1)
  | CompactNullableArray _ Ty, VArray l =>
      rapp (compact_array_length_bytes (len l))
           (foldr (fun v r => rapp (value_bytes Ty v) r) (Ok []) l)
  | _, _ => mistyped
  end.

Fixpoint fields_bytes (fs : list Field) (vs : list value) : res bytes :=
  match fs, vs with
  | f :: fs', v :: vs' => rapp (field_bytes f v) (fields_bytes fs' vs')
  | _, _ => Ok []
  end.

Lemma emits_tagged l : emits (fun _ _ => SchemaTaggedFields_encode l) (tagged_bytes l).
Proof.
  apply (emits_bind (fun _ _ => putVarint (len l)) (fun E P => each rawTaggedField_encode l));
    [apply emits_putVarint|].
  apply (emits_each (fun r E P => rawTaggedField_encode r) rawTaggedField_bytes). intros r _.
  apply (emits_bind (fun _ _ => putVarint (tag r)) (fun _ _ => putVarintBytes (data r)));
    eauto with emits.
Qed.

(** Extensionality in the encoder, for the two encoders it is run with. *)
Lemma emits_ext (f g : encoder) r :
  (f prepEncoder _ = g prepEncoder _) -> (f realEncoder _ = g realEncoder _) ->
  emits g r -> emits f r.
Proof. intros H1 H2 [G1 G2]. split; [by rewrite H1 | by rewrite H2]. Qed.

Lemma emits_nullable (pre : encoder) (f : encoder) r :
  pre prepEncoder _ = ret tt -> pre realEncoder _ = ret tt ->
  emits f r -> emits (fun E P => do* pre E P in f E P) r.
Proof.
  intros H1 H2 [G1 G2]. split.
  - intros n. unfold bind. rewrite H1. apply G1.
  - intros bs raw off. unfold bind. rewrite H2. apply G2.
Qed.

(** A typed value is written as its bytes, by both passes. *)
Lemma emits_typed :
  (forall s v, typed s v = true -> emits (fun E P => Schema_encode s v) (value_bytes s v)) /\
  (forall f v, typed_field f v = true -> emits (fun E P => Field_encode f v) (field_bytes f v)).
Proof.
  apply schema_field_ind.
  - intros [] H; try done. apply emits_putBool.
  - intros [] H; try done. apply emits_putInt16.
  - intros [] H; try done. apply emits_putInt32.
  - intros [] H; try done. apply emits_putString.
  - intros [] H; try done. by apply (emits_nullable (fun _ _ => ret tt)), emits_putNullableString.
  - intros [] H; try done. apply emits_putCompactString.
  - intros [] H; try done.
    by apply (emits_nullable (fun _ _ => ret tt)), emits_putCompactNullableString.
  - intros [] H; try done. simpl in H. apply Nat.eqb_eq in H. by apply emits_putUUID.
  - intros name fields Hall v H. apply typed_schema_inv in H as (vs & -> & H).
    change (value_bytes _ _) with (fields_bytes fields vs).
    pose proof (typed_fields_length _ _ H) as Hlen.
    apply (emits_ext _ (fun E P => encode_fields fields vs));
      [by rewrite Schema_encode_schema..|]. clear Hlen.
    revert vs H. induction Hall as [|f fs Hf Hfs IH]; intros [|v vs] H; try done;
      [apply emits_ret|].
    simpl in H. apply andb_prop in H as [Hv Hvs].
    by apply (emits_bind (fun E P => Field_encode f v) (fun E P => encode_fields fs vs)); auto.
  - intros Name Ty IH v H. by apply IH.
  - intros Name [] H; try done. apply emits_tagged.
  - intros Name Ty IH [] H; try done. simpl in H. apply andb_prop in H as [_ H].
    apply (emits_bind (fun _ _ => putArrayLength (len l)) (fun E P => each (Schema_encode Ty) l));
      [apply emits_putArrayLength; len_lia|].
    apply (emits_each (fun v E P => Schema_encode Ty v)). intros v Hv. apply IH.
    rewrite forallb_forall in H. by apply H, list_elem_of_In.
  - intros Name Ty IH [] H; try done. simpl in H.
    apply (emits_bind (fun _ _ => putCompactArrayLength (len l)) (fun E P => each (Schema_encode Ty) l));
      [apply emits_putCompactArrayLength; len_lia|].
    apply (emits_each (fun v E P => Schema_encode Ty v)). intros v Hv. apply IH.
    rewrite forallb_forall in H. by apply H, list_elem_of_In.
  - intros Name Ty IH [] H; try done; [by apply emits_putCompactNullableArrayLength|]. simpl in H.
    apply (emits_bind (fun _ _ => putCompactNullableArrayLength (len l))
             (fun E P => each (Schema_encode Ty) l));
      [apply emits_putCompactNullableArrayLength; len_lia|].
    apply (emits_each (fun v E P => Schema_encode Ty v)). intros v Hv. apply IH.
    rewrite forallb_forall in H. by apply H, list_elem_of_In.
Qed.

(** ** Reading a typed value back *)

(** Every struct has a field, so every element of an array takes a byte; the
    decoder relies on it when it compares an array length with the bytes
    left. *)
Fixpoint solid (s : Schema) : bool :=
  match s with
  | schema _ fields =>
      match fields with [] => false | _ => true end &&
      (fix solid_fields (fs : list Field) : bool :=
         match fs with [] => true | f :: fs' => solid_field f && solid_fields fs' end) fields
  | _ => true
  end
with solid_field (f : Field) : bool :=
  match f with
  | Mfield _ Ty | Array _ Ty | CompactArray _ Ty | CompactNullableArray _ Ty => solid Ty
  | SchemaTaggedFields _ => true
  end.

Lemma solid_schema name fields :
  solid (schema name fields) = true -> fields <> [] /\ forallb solid_field fields = true.
Proof.
  intros H. change (match fields with [] => false | _ => true end && forallb solid_field fields = true) in H.
  apply andb_prop in H as [H1 H2]. split; [by destruct fields | done].
Qed.

Lemma rapp_Ok r1 r2 bs :
  rapp r1 r2 = Ok bs -> exists b1 b2, r1 = Ok b1 /\ r2 = Ok b2 /\ bs = b1 ++ b2.
Proof. destruct r1, r2; simpl; intros [= <-]; eauto. Qed.

Lemma foldr_rapp_inv {A} (h : A -> res bytes) l bs :
  foldr (fun a r => rapp (h a) r) (Ok []) l = Ok bs ->
  exists g, bs = concat (g <$> l) /\ forall a, a ∈ l -> h a = Ok (g a).
Proof.
  intros H. exists (fun a => match h a with Ok b => b | _ => [] end).
  revert bs H. induction l as [|a l IH]; intros bs H; simpl in H.
  - injection H as <-. split; [done|]. intros a Ha. by apply elem_of_nil in Ha.
  - apply rapp_Ok in H as (b1 & b2 & H1 & H2 & ->). destruct (IH b2 H2) as [-> Hl].
    split; [simpl; by rewrite H1|]. intros a' [-> | Ha']%elem_of_cons; [by rewrite H1 | by apply Hl].
Qed.

Lemma len_concat_ge {A} (g : A -> bytes) l :
  (forall a, a ∈ l -> 1 <= len (g a)) -> len l <= len (concat (g <$> l)).
Proof.
  induction l as [|a l IH]; intros H; [done|].
  rewrite fmap_cons. cbn [concat]. rewrite len_cons, len_app.
  assert (1 <= len (g a)) by (apply H; constructor).
  assert (len l <= len (concat (g <$> l))) by (apply IH; intros; apply H; by constructor). lia.
Qed.

Lemma limit_len max info s pre bs :
  limit max info s (pre ++ s) = Ok bs -> 1 <= len pre -> 1 <= len bs.
Proof. intros [_ ->]%limit_Ok H. rewrite len_app. len_lia. Qed.

Lemma len_varint_bytes v : 1 <= len (varint_bytes v).
Proof. apply len_PutUvarint. Qed.

#[local] Ltac nonempty_string :=
  first [ by eapply limit_len; [eassumption|]; rewrite ?len_be_put; [apply len_varint_bytes || lia]
        | by rewrite len_be_put | by apply len_varint_bytes ].

Lemma compact_array_length_bytes_Ok n bs :
  compact_array_length_bytes n = Ok bs -> n <= MaxInt16 /\ bs = varint_bytes (n + 1).
Proof.
  unfold compact_array_length_bytes. destruct (MaxInt16 <? n) eqn:E; [done|].
  apply Z.ltb_ge in E. by intros [= <-].
Qed.

Lemma solid_nonempty :
  (forall s, solid s = true -> forall v bs,
     typed s v = true -> value_bytes s v = Ok bs -> 1 <= len bs) /\
  (forall f, solid_field f = true -> forall v bs,
     typed_field f v = true -> field_bytes f v = Ok bs -> 1 <= len bs).
Proof.
  apply schema_field_ind.
  - intros _ [] bs Ht [= <-]; try done.
  - intros _ [] bs Ht [= <-]; try done.
  - intros _ [] bs Ht [= <-]; try done.
  - intros _ [] bs Ht H; try done. by eapply limit_len.
  - intros _ [| | | | |[s|]| | | |] bs Ht H; try done; [by eapply limit_len|by injection H as <-].
  - intros _ [] bs Ht H; try done. eapply limit_len, len_varint_bytes; exact H.
  - intros _ [| | | | |[s|]| | | |] bs Ht H; try done;
      [eapply limit_len, len_varint_bytes; exact H|injection H as <-; apply len_varint_bytes].
  - intros _ [] bs Ht [= <-]; try done. simpl in Ht. apply Nat.eqb_eq in Ht. unfold len. lia.
  - intros name fields Hall Hs v bs Ht H. apply solid_schema in Hs as [Hne Hs].
    apply typed_schema_inv in Ht as (vs & -> & Ht).
    change (fields_bytes fields vs = Ok bs) in H.
    destruct Hall as [|f fs Hf Hfs]; [done|]. destruct vs as [|v vs]; [done|].
    simpl in *. apply andb_prop in Ht as [Ht _]. apply andb_prop in Hs as [Hs _].
    apply rapp_Ok in H as (b1 & b2 & H1 & H2 & ->).
    specialize (Hf Hs v b1 Ht H1). rewrite len_app. len_lia.
  - intros Name Ty IH Hs v bs Ht H. by eapply IH.
  - intros Name _ [] bs Ht H; try done. cbn [field_bytes] in H. unfold tagged_bytes in H. apply rapp_Ok in H as (b1 & b2 & [= <-] & H2 & ->).
    rewrite len_app. pose proof (len_varint_bytes (len l)). len_lia.
  - intros Name Ty IH Hs [] bs Ht H; try done. cbn [field_bytes] in H. apply rapp_Ok in H as (b1 & b2 & H1 & H2 & ->).
    unfold array_length_bytes in H1. destruct (MaxInt32 <? _); [done|].
    injection H1 as <-. rewrite len_app. rewrite len_be_put. len_lia.
  - intros Name Ty IH Hs [] bs Ht H; try done. cbn [field_bytes] in H. apply rapp_Ok in H as (b1 & b2 & H1 & H2 & ->).
    apply compact_array_length_bytes_Ok in H1 as [_ ->]. rewrite len_app.
    pose proof (len_varint_bytes (len l + 1)). len_lia.
  - intros Name Ty IH Hs [] bs Ht H; try done.
    + apply compact_array_length_bytes_Ok in H as [_ ->]. apply len_varint_bytes.
    + cbn [field_bytes] in H. apply rapp_Ok in H as (b1 & b2 & H1 & H2 & ->).
      apply compact_array_length_bytes_Ok in H1 as [_ ->]. rewrite len_app.
      pose proof (len_varint_bytes (len l + 1)). len_lia.
Qed.

Lemma decodes_rawTaggedField r bs :
  inSb 64 (tag r) = true -> rawTaggedField_bytes r = Ok bs -> decodes rawTaggedField_decode bs r.
Proof.
  intros Ht%inSb_spec H. unfold rawTaggedField_bytes in H. apply rapp_Ok in H as (b1 & b2 & [= <-] & H2 & ->).
  eapply decodes_bind; [by apply decodes_getVarint|].
  destruct r as [t d]. apply (decodes_map _ (fun d => {| tag := t; data := d |})).
  by apply decodes_getVarintBytes.
Qed.

Lemma decodes_tagged l bs :
  tagged_typed l = true -> tagged_bytes l = Ok bs -> decodes SchemaTaggedFields_decode bs l.
Proof.
  unfold tagged_typed. intros [Hlen Htags]%andb_prop H. apply Z.leb_le in Hlen.
  unfold tagged_bytes in H. apply rapp_Ok in H as (b1 & b2 & [= <-] & H2 & ->).
  apply foldr_rapp_inv in H2 as (g & -> & Hg).
  eapply decodes_bind; [apply decodes_getVarint; unfold inS; len_lia|].
  destruct l as [|r l]; [apply decodes_ret|]. rewrite len_cons in *.
  replace (_ =? 0) with false by (symmetry; apply Z.eqb_neq; len_lia).
  replace (_ <? 0) with false by (symmetry; apply Z.ltb_ge; len_lia).
  rewrite <- (app_nil_l (concat _)). eapply decodes_bind with (a := tt).
  - intros pre post. unfold lift, makeslice.
    replace (_ || _) with false; [by rewrite app_nil_r|].
    symmetry. rewrite orb_false_iff, !Z.ltb_ge. unfold maxAlloc, rawTaggedField_size. len_lia.
  - replace (Z.to_nat (1 + len l)) with (length (r :: l)) by (unfold len; simpl; lia).
    apply decodes_times. intros r' Hr'. apply decodes_rawTaggedField; [|by apply Hg].
    rewrite forallb_forall in Htags. by apply Htags, list_elem_of_In.
Qed.

Lemma decodes_wrapf {A} (m : decoder A) s bs a : decodes m bs a -> decodes (wrapf m s) bs a.
Proof. intros H pre post. unfold wrapf. by rewrite H. Qed.

(** The elements of an array behind a length [n]. *)
Lemma decodes_elements (m : decoder value) (h : value -> res bytes) l bs :
  foldr (fun v r => rapp (h v) r) (Ok []) l = Ok bs ->
  (forall v b, v ∈ l -> h v = Ok b -> decodes m b v /\ 1 <= len b) ->
  decodes (decodeArrayElements (len l) m) bs (VArray l) /\ len l <= len bs.
Proof.
  intros H Hm. apply foldr_rapp_inv in H as (g & -> & Hg). split.
  - apply (decodes_map _ VArray). rewrite to_nat_len. apply decodes_times. intros v Hv. by apply Hm, Hg.
  - apply len_concat_ge. intros v Hv. by apply (Hm v), Hg.
Qed.

Lemma decodes_typed :
  (forall s, solid s = true -> forall v bs,
     typed s v = true -> value_bytes s v = Ok bs -> decodes (Schema_decode s) bs v) /\
  (forall f, solid_field f = true -> forall v bs,
     typed_field f v = true -> field_bytes f v = Ok bs -> decodes (Field_decode f) bs v).
Proof.
  destruct solid_nonempty as [Hsolid _].
  apply schema_field_ind.
  - intros _ [] bs Ht [= <-]; try done. apply (decodes_map _ VBool), decodes_getBool.
  - intros _ [] bs Ht [= <-]; try done. apply (decodes_map _ VInt16), decodes_getInt16. by apply inSb_spec.
  - intros _ [] bs Ht [= <-]; try done. apply (decodes_map _ VInt32), decodes_getInt32. by apply inSb_spec.
  - intros _ [] bs Ht H; try done. by apply (decodes_map _ VString), decodes_getString.
  - intros _ [] bs Ht H; try done. by apply (decodes_map _ VPString), decodes_getNullableString.
  - intros _ [] bs Ht H; try done. by apply (decodes_map _ VString), decodes_getCompactString.
  - intros _ [] bs Ht H; try done. by apply (decodes_map _ VPString), decodes_getCompactNullableString.
  - intros _ [] bs Ht [= <-]; try done. apply (decodes_map _ VUUID), decodes_getUUID.
    by apply Nat.eqb_eq.
  - intros name fields Hall Hs v bs Ht H. apply solid_schema in Hs as [_ Hs].
    apply typed_schema_inv in Ht as (vs & -> & Ht).
    change (fields_bytes fields vs = Ok bs) in H.
    rewrite Schema_decode_schema. apply (decodes_map _ (VStruct (schema name fields))).
    revert vs bs Ht H. induction Hall as [|f fs Hf Hfs IH]; intros [|v vs] bs Ht H; try done.
    { injection H as <-. apply decodes_ret. }
    simpl in *. apply andb_prop in Ht as [Ht Hts]. apply andb_prop in Hs as [Hs Hss].
    apply rapp_Ok in H as (b1 & b2 & H1 & H2 & ->).
    eapply decodes_bind; [by eapply Hf|]. apply (decodes_map _ (cons v)). by apply IH.
  - intros Name Ty IH Hs v bs Ht H. by apply IH.
  - intros Name _ [] bs Ht H; try done. by apply (decodes_map _ VTagged), decodes_tagged.
  - intros Name Ty IH Hs [] bs Ht H; try done. cbn [field_bytes] in H.
    apply rapp_Ok in H as (b1 & b2 & H1 & H2 & ->).
    unfold array_length_bytes in H1. destruct (MaxInt32 <? _); [done|]. injection H1 as <-.
    simpl in Ht. apply andb_prop in Ht as [Hl Ht]. apply Z.leb_le in Hl. rewrite forallb_forall in Ht.
    destruct (decodes_elements (Schema_decode Ty) (value_bytes Ty) l b2 H2) as [Hd Hle].
    { intros v b Hv%list_elem_of_In Hb. split; [apply IH | eapply Hsolid]; eauto. }
    eapply decodes_prefixed; [|exact Hd]. intros pre post Hp. apply getArrayLength_at; len_lia.
  - intros Name Ty IH Hs [] bs Ht H; try done. cbn [field_bytes] in H.
    apply rapp_Ok in H as (b1 & b2 & [Hl ->]%compact_array_length_bytes_Ok & H2 & ->).
    simpl in Ht. rewrite forallb_forall in Ht.
    destruct (decodes_elements (Schema_decode Ty) (value_bytes Ty) l b2 H2) as [Hd Hle].
    { intros v b Hv%list_elem_of_In Hb. split; [apply IH | eapply Hsolid]; eauto. }
    eapply decodes_prefixed; [|apply decodes_wrapf, Hd].
    intros pre post Hp. unfold wrapf, getCompactArrayLength.
    rewrite getCompactLength_at by (unfold MaxInt16 in *; len_lia). done.
  - intros Name Ty IH Hs [] bs Ht H; try done; cbn [field_bytes] in H.
    + apply compact_array_length_bytes_Ok in H as [_ ->]. rewrite <- (app_nil_r (varint_bytes _)).
      eapply decodes_prefixed with (n := -1); [|apply decodes_ret].
      intros pre post Hp. apply getCompactNullableLength_at; len_lia.
    + apply rapp_Ok in H as (b1 & b2 & [Hl ->]%compact_array_length_bytes_Ok & H2 & ->).
      simpl in Ht. rewrite forallb_forall in Ht.
      destruct (decodes_elements (Schema_decode Ty) (value_bytes Ty) l b2 H2) as [Hd Hle].
      { intros v b Hv%list_elem_of_In Hb. split; [apply IH | eapply Hsolid]; eauto. }
      eapply decodes_prefixed with (n := len l).
      * intros pre post Hp. apply getCompactNullableLength_at; unfold MaxInt16 in *; len_lia.
      * replace (len l =? -1) with false by (symmetry; apply Z.eqb_neq; len_lia). exact Hd.
Qed.

(** ** [EncodeSchema] and [DecodeSchema] *)

Lemma EncodeSchema_typed st sch :
  typed sch (VStruct (Struct_Schema st) (Struct_Values st)) = true ->
  EncodeSchema (Some st) sch =
    rmap Some (let? bs := value_bytes sch (VStruct (Struct_Schema st) (Struct_Values st)) in
               if MaxRequestSize <? len bs
               then Err (SchemaEncodingError "invalid request size (%d)") else Ok bs).
Proof.
  intros H. unfold EncodeSchema. f_equal. apply encode_passes_emits. by apply emits_typed.
Qed.

Lemma DecodeSchema_inv buf sch st :
  DecodeSchema (Some buf) sch = Ok (Some st) ->
  exists helper, Schema_decode sch {| rd_raw := buf; rd_off := 0 |} =
    (Ok (VStruct (Struct_Schema st) (Struct_Values st)), helper) /\ rd_off helper = len buf.
Proof.
  unfold DecodeSchema. destruct (Schema_decode _ _) as [[v|e|w] h]; [|done..].
  destruct (rd_off h =? len buf) eqn:E; [|done]. apply Z.eqb_eq in E. simpl.
  destruct v; try done. intros [= <-]. eauto.
Qed.

Lemma DecodeSchema_decodes sch bs s' vs :
  decodes (Schema_decode sch) bs (VStruct s' vs) ->
  DecodeSchema (Some bs) sch = Ok (Some {| Struct_Schema := s'; Struct_Values := vs |}).
Proof.
  intros H. unfold DecodeSchema. specialize (H [] []).
  rewrite app_nil_r in H. unfold at_ in H. cbn [app] in H.
  change {| rd_raw := bs; rd_off := 0 |} with {| rd_raw := bs; rd_off := len (@nil byte) |}.
  rewrite H. cbn [rd_off app]. by rewrite Z.eqb_refl.
Qed.

(** The bytes of an encoded message decode to it. *)
Lemma value_bytes_decode sch st bs :
  solid sch = true -> typed sch (VStruct (Struct_Schema st) (Struct_Values st)) = true ->
  value_bytes sch (VStruct (Struct_Schema st) (Struct_Values st)) = Ok bs ->
  DecodeSchema (Some bs) sch = Ok (Some st).
Proof.
  intros Hs Ht Hb. destruct decodes_typed as [Hd _].
  rewrite (DecodeSchema_decodes sch bs (Struct_Schema st) (Struct_Values st)); [by destruct st|].
  by apply Hd.
Qed.

Lemma EncodeSchema_Ok_inv st sch bs :
  typed sch (VStruct (Struct_Schema st) (Struct_Values st)) = true ->
  EncodeSchema (Some st) sch = Ok (Some bs) ->
  value_bytes sch (VStruct (Struct_Schema st) (Struct_Values st)) = Ok bs.
Proof.
  intros Ht H. rewrite EncodeSchema_typed in H by done.
  destruct (value_bytes _ _) as [b|e|w]; simpl in H; [|done..].
  destruct (MaxRequestSize <? len b); [done|]. simpl in H. by injection H as <-.
Qed.

Lemma EncodeSchema_DecodeSchema sch st bs :
  solid sch = true -> typed sch (VStruct (Struct_Schema st) (Struct_Values st)) = true ->
  EncodeSchema (Some st) sch = Ok (Some bs) -> DecodeSchema (Some bs) sch = Ok (Some st).
Proof. intros Hs Ht H. apply value_bytes_decode; auto. by apply EncodeSchema_Ok_inv. Qed.

Lemma DecodeSchema_result_typed buf sch st :
  DecodeSchema (Some buf) sch = Ok (Some st) ->
  typed sch (VStruct (Struct_Schema st) (Struct_Values st)) = true.
Proof.
  intros (h & H & _)%DecodeSchema_inv. destruct decode_typed as [Hd _]. by eapply Hd.
Qed.

(** ** Where decoding can panic

    Only the allocation of a tagged-field array sized by the wire can. *)

Fixpoint tagged (s : Schema) : bool :=
  match s with
  | schema _ fields =>
      (fix tagged_fields (fs : list Field) : bool :=
         match fs with [] => false | f :: fs' => tagged_field f || tagged_fields fs' end) fields
  | _ => false
  end
with tagged_field (f : Field) : bool :=
  match f with
  | Mfield _ Ty | Array _ Ty | CompactArray _ Ty | CompactNullableArray _ Ty => tagged Ty
  | SchemaTaggedFields _ => true
  end.

Definition makeslice_panic : string := "makeslice: len out of range".

(** [m] panics only in [make], and only when [b] holds. *)
Definition guarded {A} (b : bool) (m : decoder A) : Prop :=
  forall rd, rd_wf rd ->
    match m rd with
    | (Panic w, _) => b = true /\ w = makeslice_panic
    | (_, rd') => rd_wf rd'
    end.

Lemma guarded_bind {A B} b (m : decoder A) (k : A -> decoder B) :
  guarded b m -> (forall a, guarded b (k a)) -> guarded b (bind m k).
Proof.
  intros Hm Hk rd Hrd. unfold bind. specialize (Hm rd Hrd).
  destruct (m rd) as [[a|e|w] rd1]; [|done..]. by apply Hk.
Qed.

Lemma guarded_ret {A} b (a : A) : guarded b (ret a).
Proof. by intros rd Hrd. Qed.
Lemma guarded_fail {A} b e : guarded b (@fail realDecoder A e).
Proof. by intros rd Hrd. Qed.

Lemma guarded_nonpanicking {A} b (m : decoder A) : nonpanicking m -> guarded b m.
Proof.
  intros H rd Hrd. specialize (H rd Hrd I). destruct (m rd) as [[a|e|w] rd1]; [| |done].
  - by destruct H. - by destruct H.
Qed.

Lemma guarded_weaken {A} b (m : decoder A) : guarded false m -> guarded b m.
Proof.
  intros H rd Hrd. specialize (H rd Hrd). destruct (m rd) as [[a|e|w] rd1]; try done. by destruct H.
Qed.

Lemma guarded_wrapf {A} b (m : decoder A) s : guarded b m -> guarded b (wrapf m s).
Proof.
  intros H rd Hrd. specialize (H rd Hrd). unfold wrapf. by destruct (m rd) as [[a|e|w] rd1].
Qed.

Lemma guarded_times {A} b n (m : decoder A) : guarded b m -> guarded b (times n m).
Proof.
  intros H. induction n as [|n IH]; simpl; [apply guarded_ret|].
  apply guarded_bind; [done|]. intros a. apply guarded_bind; [done|]. intros. apply guarded_ret.
Qed.

#[local] Hint Resolve guarded_ret guarded_fail guarded_times guarded_wrapf : guarded.
#[local] Ltac guard_np := apply guarded_nonpanicking; eauto with safe.

Lemma guarded_tagged : guarded true SchemaTaggedFields_decode.
Proof.
  apply guarded_bind; [guard_np|]. intros n.
  destruct (n =? 0); [apply guarded_ret|]. destruct (n <? 0); [apply guarded_fail|].
  apply guarded_bind.
  - intros rd Hrd. unfold lift, makeslice. by destruct (_ || _).
  - intros _. apply guarded_times. apply guarded_bind; [guard_np|]. intros t.
    apply guarded_bind; [guard_np|]. intros. apply guarded_ret.
Qed.

Lemma guarded_elements b n (m : decoder value) : guarded b m -> guarded b (decodeArrayElements n m).
Proof. intros H. apply guarded_bind; [by apply guarded_times|]. intros. apply guarded_ret. Qed.

Lemma nonpanicking_of {A} (m : decoder A) Q : safe always m Q -> nonpanicking m.
Proof. intros H. by eapply safe_weaken; [apply H|..]. Qed.

Lemma decode_guarded :
  (forall s, guarded (tagged s) (Schema_decode s)) /\
  (forall f, guarded (tagged_field f) (Field_decode f)).
Proof.
  apply schema_field_ind.
  1-7: apply guarded_bind; [guard_np | intros; apply guarded_ret].
  - apply guarded_bind; [|intros; apply guarded_ret].
    apply guarded_nonpanicking. eapply nonpanicking_of, safe_getUUID.
  - intros name fields Hall. rewrite Schema_decode_schema.
    change (tagged (schema name fields)) with
      ((fix go fs := match fs with [] => false | f :: fs' => tagged_field f || go fs' end) fields).
    apply guarded_bind; [|intros; apply guarded_ret].
    induction Hall as [|f fs Hf Hfs IH]; [apply guarded_ret|]. simpl.
    apply guarded_bind; [|intros v; apply guarded_bind; [|intros; apply guarded_ret]].
    + intros rd Hrd. specialize (Hf rd Hrd). destruct (Field_decode f rd) as [[]]; try done.
      destruct Hf as [-> ->]. done.
    + intros rd Hrd. specialize (IH rd Hrd). destruct (decode_fields fs rd) as [[]]; try done.
      destruct IH as [-> ->]. by rewrite orb_true_r.
  - intros Name Ty IH. exact IH.
  - intros Name. apply guarded_bind; [apply guarded_tagged|intros; apply guarded_ret].
  - intros Name Ty IH. apply guarded_bind; [|intros; by apply guarded_elements].
    apply guarded_nonpanicking. eapply nonpanicking_of, safe_getArrayLength.
  - intros Name Ty IH. apply guarded_bind; [|intros; by apply guarded_wrapf, guarded_elements].
    apply guarded_wrapf, guarded_nonpanicking. eapply nonpanicking_of, safe_getCompactLength.
  - intros Name Ty IH. apply guarded_bind.
    + apply guarded_nonpanicking. eapply nonpanicking_of, safe_getCompactNullableLength.
    + intros n. destruct (n =? -1); [apply guarded_ret | by apply guarded_elements].
Qed.

Lemma DecodeSchema_panic buf sch w :
  DecodeSchema buf sch = Panic w -> tagged sch = true /\ w = makeslice_panic.
Proof.
  unfold DecodeSchema. destruct buf as [buf|]; [|done].
  assert (rd_wf {| rd_raw := buf; rd_off := 0 |}) as Hwf by (unfold rd_wf; simpl; len_lia).
  destruct decode_guarded as [Hg _]. specialize (Hg sch _ Hwf).
  destruct (Schema_decode _ _) as [[v|e|w'] rd].
  - destruct (negb _); [done|]. by destruct v.
  - done.
  - intros [= <-]. exact Hg.
Qed.

(** ** Writing never panics on what [value_bytes] describes *)

Definition calm {A} (r : res A) : Prop := forall w, r <> Panic w.

Lemma calm_Ok {A} (a : A) : calm (Ok a).
Proof. by intros w. Qed.
Lemma calm_Err {A} e : calm (@Err A e).
Proof. by intros w. Qed.
Lemma calm_rbind {A B} (r : res A) (k : A -> res B) :
  calm r -> (forall a, calm (k a)) -> calm (rbind r k).
Proof. intros Hr Hk w. destruct r; simpl; [apply Hk | done | by intros [= ->]; eapply Hr]. Qed.
Lemma calm_if {A} (b : bool) (r1 r2 : res A) : calm r1 -> calm r2 -> calm (if b then r1 else r2).
Proof. by destruct b. Qed.
Lemma calm_rapp r1 r2 : calm r1 -> calm r2 -> calm (rapp r1 r2).
Proof. intros. by repeat (apply calm_rbind; [done|intros]). Qed.
Lemma calm_foldr_rapp {A} (h : A -> res bytes) l :
  (forall a, calm (h a)) -> calm (foldr (fun a r => rapp (h a) r) (Ok []) l).
Proof. intros H. induction l; simpl; [done | by apply calm_rapp]. Qed.
Lemma calm_mistyped : calm mistyped.
Proof. done. Qed.
Lemma calm_limit max info s b : calm (limit max info s b).
Proof. by apply calm_if. Qed.
#[local] Hint Resolve calm_Ok calm_Err calm_if calm_rapp calm_foldr_rapp calm_mistyped calm_limit : calm.

Lemma value_bytes_calm : (forall s v, calm (value_bytes s v)) /\ (forall f v, calm (field_bytes f v)).
Proof.
  assert (forall s, calm (nullable_string_bytes s)) as Hn
    by (intros [s|]; simpl; unfold string_bytes; auto with calm).
  assert (forall s, calm (compact_nullable_string_bytes s)) as Hcn
    by (intros [s|]; simpl; unfold compact_string_bytes; auto with calm).
  assert (forall b, calm (varint_bytes_bytes b)) as Hv
    by (intros [b|]; simpl; auto with calm).
  apply schema_field_ind.
  1-8: intros v; destruct v; simpl; unfold string_bytes, compact_string_bytes; auto with calm.
  - intros name fields Hall v; destruct v; try done. change (calm (fields_bytes fields Values)).
    revert Values. induction Hall as [|f fs Hf Hfs IH]; intros [|v vs]; simpl; auto with calm.
  - intros Name Ty IH v. apply IH.
  - intros Name v; destruct v; simpl; unfold tagged_bytes; auto with calm.
    apply calm_rapp; [done|]. apply calm_foldr_rapp. intros r. by apply calm_rapp.
  - intros Name Ty IH v; destruct v; simpl; unfold array_length_bytes; auto with calm.
  - intros Name Ty IH v; destruct v; simpl; unfold compact_array_length_bytes; auto with calm.
  - intros Name Ty IH v; destruct v; simpl; unfold compact_array_length_bytes; auto with calm.
Qed.

Lemma EncodeSchema_calm st sch :
  typed sch (VStruct (Struct_Schema st) (Struct_Values st)) = true -> calm (EncodeSchema (Some st) sch).
Proof.
  intros H w. rewrite EncodeSchema_typed by done.
  destruct value_bytes_calm as [Hv _].
  specialize (Hv sch (VStruct (Struct_Schema st) (Struct_Values st)) w).
  destruct (value_bytes _ _); simpl; [by destruct (_ <? _) | done | congruence].
Qed.
