(* ===== verification/Messages.v ===== *)
(** Messages the proxy itself reads and writes (proxy/protocol/
    request_key_version.go, response_header*.go, request_v1.go, request_v2.go,
    tagged_fields.go, sasl_handshake.go, sasl_authenticate_v*.go).

    [decode] methods fill their receiver; here they return the filled value,
    taking the old one when the code reads fields of it.  [ProtocolBody] is
    the Go interface of request bodies, [ProtocolBodyLaws] what [Request] and
    [RequestV2] need from an implementation to round-trip. *)
From Stdlib Require Import ZArith Lia Strings.Byte.
From stdpp Require Import base list strings gmap.
From S2P Require Import Prelude GoLib Encoder Decoder Errors Schema SchemaFacts.

(** ** [RequestKeyVersion] *)

Record RequestKeyVersion := { Length : Z; ApiKey : Z; ApiVersion : Z }.

Definition RequestKeyVersion_decode : decoder RequestKeyVersion :=
  let* Length := getInt32 in
  if Length <=? 4 then fail (PacketDecodingError "message of length %d too small")
  else
    let* ApiKey := getInt16 in
    let* ApiVersion := getInt16 in
    ret {| Length := Length; ApiKey := ApiKey; ApiVersion := ApiVersion |}.

(** [if r.ApiVersion >= first { return 1 } else { return 0 }] *)
Definition headerSince (ApiVersion first : Z) : Z := if first <=? ApiVersion then 1 else 0.

(** The cases of the switch, in three parts; [None] when no case of the part
    matches. *)
Definition responseHeaderVersion_0_21 (ApiKey ApiVersion : Z) : option Z :=
  let since := headerSince ApiVersion in
  match ApiKey with
  | 0 => Some (since 9) (* Produce *)
  | 1 => Some (since 12) (* Fetch *)
  | 2 => Some (since 6) (* ListOffset *)
  | 3 => Some (since 9) (* Metadata *)
  | 4 => Some (since 4) (* LeaderAndIsr *)
  | 5 => Some (since 2) (* StopReplica *)
  | 6 => Some (since 6) (* UpdateMetadata *)
  | 7 => Some (since 3) (* ControlledShutdown *)
  | 8 => Some (since 8) (* OffsetCommit *)
  | 9 => Some (since 6) (* OffsetFetch *)
  | 10 => Some (since 3) (* FindCoordinator *)
  | 11 => Some (since 6) (* JoinGroup *)
  | 12 => Some (since 4) (* Heartbeat *)
  | 13 => Some (since 4) (* LeaveGroup *)
  | 14 => Some (since 4) (* SyncGroup *)
  | 15 => Some (since 5) (* DescribeGroups *)
  | 16 => Some (since 3) (* ListGroups *)
  | 17 => Some (0) (* SaslHandshake *)
  | 18 => Some (0) (* ApiVersions *)
  | 19 => Some (since 5) (* CreateTopics *)
  | 20 => Some (since 4) (* DeleteTopics *)
  | 21 => Some (since 2) (* DeleteRecords *)
  | _ => None
  end.
Definition responseHeaderVersion_22_47 (ApiKey ApiVersion : Z) : option Z :=
  let since := headerSince ApiVersion in
  match ApiKey with
  | 22 => Some (since 2) (* InitProducerId *)
  | 23 => Some (since 4) (* OffsetForLeaderEpoch *)
  | 24 => Some (since 3) (* AddPartitionsToTxn *)
  | 25 => Some (since 3) (* AddOffsetsToTxn *)
  | 26 => Some (since 3) (* EndTxn *)
  | 27 => Some (since 1) (* WriteTxnMarkers *)
  | 28 => Some (since 3) (* TxnOffsetCommit *)
  | 29 => Some (since 2) (* DescribeAcls *)
  | 30 => Some (since 2) (* CreateAcls *)
  | 31 => Some (since 2) (* DeleteAcls *)
  | 32 => Some (since 4) (* DescribeConfigs *)
  | 33 => Some (since 2) (* AlterConfigs *)
  | 34 => Some (since 2) (* AlterReplicaLogDirs *)
  | 35 => Some (since 2) (* DescribeLogDirs *)
  | 36 => Some (since 2) (* SaslAuthenticate *)
  | 37 => Some (since 2) (* CreatePartitions *)
  | 38 => Some (since 2) (* CreateDelegationToken *)
  | 39 => Some (since 2) (* RenewDelegationToken *)
  | 40 => Some (since 2) (* ExpireDelegationToken *)
  | 41 => Some (since 2) (* DescribeDelegationToken *)
  | 42 => Some (since 2) (* DeleteGroups *)
  | 43 => Some (since 2) (* ElectLeaders *)
  | 44 => Some (since 1) (* IncrementalAlterConfigs *)
  | 45 => Some (1) (* AlterPartitionReassignments *)
  | 46 => Some (1) (* ListPartitionReassignments *)
  | 47 => Some (0) (* OffsetDelete *)
  | _ => None
  end.
Definition responseHeaderVersion_48_87 (ApiKey ApiVersion : Z) : option Z :=
  let since := headerSince ApiVersion in
  match ApiKey with
  | 48 => Some (since 1) (* DescribeClientQuotas *)
  | 49 => Some (since 1) (* AlterClientQuotas *)
  | 50 => Some (1) (* DescribeUserScramCredentials *)
  | 51 => Some (1) (* AlterUserScramCredentials *)
  | 52 => Some (1) (* Vote *)
  | 53 => Some (0) (* BeginQuorumEpoch *)
  | 54 => Some (0) (* EndQuorumEpoch *)
  | 55 => Some (1) (* DescribeQuorum *)
  | 56 => Some (1) (* DescribeQuorum *)
  | 57 => Some (1) (* UpdateFeatures *)
  | 58 => Some (1) (* Envelope *)
  | 59 => Some (1) (* FetchSnapshot *)
  | 60 => Some (1) (* DescribeCluster *)
  | 61 => Some (1) (* DescribeProducers *)
  | 62 => Some (1) (* BrokerRegistration *)
  | 63 => Some (1) (* BrokerHeartbeat *)
  | 64 => Some (1) (* UnregisterBroker *)
  | 65 => Some (1) (* DescribeTransactions *)
  | 66 => Some (1) (* ListTransactions *)
  | 67 => Some (1) (* AllocateProducerIds *)
  | 68 => Some (1) (* ConsumerGroupHeartbeat *)
  | 69 => Some (1) (* ConsumerGroupDescribe *)
  | 70 => Some (1) (* ControllerRegistration *)
  | 71 => Some (1) (* GetTelemetrySubscriptions *)
  | 72 => Some (1) (* PushTelemetry *)
  | 73 => Some (1) (* AssignReplicasToDirs *)
  | 74 => Some (1) (* ListClientMetricsResources *)
  | 75 => Some (1) (* DescribeTopicPartitions *)
  | 76 => Some (1) (* ShareGroupHeartbeat *)
  | 77 => Some (1) (* ShareGroupDescribe *)
  | 78 => Some (1) (* ShareFetch *)
  | 79 => Some (1) (* ShareAcknowledge *)
  | 80 => Some (1) (* AddRaftVoter *)
  | 81 => Some (1) (* RemoveRaftVoter *)
  | 82 => Some (1) (* UpdateRaftVoter *)
  | 83 => Some (1) (* InitializeShareGroupState *)
  | 84 => Some (1) (* ReadShareGroupState *)
  | 85 => Some (1) (* WriteShareGroupState *)
  | 86 => Some (1) (* DeleteShareGroupState *)
  | 87 => Some (1) (* ReadShareGroupStateSummary *)
  | _ => None
  end.

(** New API keys are assumed to be flexible. *)
Definition ResponseHeaderVersion (r : RequestKeyVersion) : Z :=
  match responseHeaderVersion_0_21 (ApiKey r) (ApiVersion r) with
  | Some v => v
  | None =>
      match responseHeaderVersion_22_47 (ApiKey r) (ApiVersion r) with
      | Some v => v
      | None => default 1 (responseHeaderVersion_48_87 (ApiKey r) (ApiVersion r))
      end
  end.

(** ** Response headers *)

Record ResponseHeader := { rh_Length : Z; rh_CorrelationID : Z }.

Definition ResponseHeader_decode : decoder ResponseHeader :=
  let* Length := getInt32 in
  if Length <=? 4 then fail (PacketDecodingError "message of length %d too small")
  else
    let* CorrelationID := getInt32 in
    ret {| rh_Length := Length; rh_CorrelationID := CorrelationID |}.

Definition ResponseHeader_encode (r : ResponseHeader) : encoder := fun E P =>
  do* putInt32 (rh_Length r) in putInt32 (rh_CorrelationID r).

(** ** Tagged fields *)

Definition TaggedFields : Type := list rawTaggedField.

Definition TaggedFields_decode : decoder TaggedFields := SchemaTaggedFields_decode.
Definition TaggedFields_encode (r : TaggedFields) : encoder := fun E P => SchemaTaggedFields_encode r.

Record ResponseHeaderV1 := { rh1_Length : Z; rh1_CorrelationID : Z; RawTaggedFields : TaggedFields }.

Definition ResponseHeaderV1_decode : decoder ResponseHeaderV1 :=
  let* Length := getInt32 in
  if Length <=? 4 then fail (PacketDecodingError "message of length %d too small")
  else
    let* CorrelationID := getInt32 in
    let* rawTaggedFields := SchemaTaggedFields_decode in
    ret {| rh1_Length := Length; rh1_CorrelationID := CorrelationID;
           RawTaggedFields := rawTaggedFields |}.

Definition ResponseHeaderV1_encode (r : ResponseHeaderV1) : encoder := fun E P =>
  do* putInt32 (rh1_Length r) in
  do* putInt32 (rh1_CorrelationID r) in
  SchemaTaggedFields_encode (RawTaggedFields r).

(** ** Requests *)

Class ProtocolBody (B : Type) := {
  body_encode : B -> encoder;
  body_decode : B -> decoder B;
  key : B -> Z;
  version : B -> Z
}.

Section requests.
Context {B : Type} `{PB : ProtocolBody B}.

Record Request := { CorrelationID : Z; ClientID : bytes; Body : option B }.

(** [r.Body.key()] on the nil interface. *)
Definition nil_body {S A} : M S A := panic "invalid memory address or nil pointer dereference".

Definition Request_encode (r : Request) : encoder := fun E P =>
  match Body r with
  | None => nil_body
  | Some body =>
      do* putInt16 (key body) in
      do* putInt16 (version body) in
      do* putInt32 (CorrelationID r) in
      do* putString (ClientID r) in
      body_encode body E P
  end.

Definition Request_decode (r : Request) : decoder Request :=
  match Body r with
  | None => fail (PacketDecodingError "unknown body decoder")
  | Some body =>
      let* key' := getInt16 in
      let* version' := getInt16 in
      if negb (key body =? key') || negb (version body =? version') then
        fail (PacketDecodingError "expected request key,version %d,%d but got %d,%d")
      else
        let* CorrelationID := getInt32 in
        let* ClientID := getString in
        let* body := body_decode body in
        ret {| CorrelationID := CorrelationID; ClientID := ClientID; Body := Some body |}
  end.

Record RequestV2 := {
  r2_CorrelationID : Z; r2_ClientID : bytes; r2_TaggedFields : TaggedFields; r2_Body : option B
}.

Definition RequestV2_encode (r : RequestV2) : encoder := fun E P =>
  match r2_Body r with
  | None => nil_body
  | Some body =>
      do* putInt16 (key body) in
      do* putInt16 (version body) in
      do* putInt32 (r2_CorrelationID r) in
      do* putString (r2_ClientID r) in
      do* TaggedFields_encode (r2_TaggedFields r) E P in
      body_encode body E P
  end.

Definition RequestV2_decode (r : RequestV2) : decoder RequestV2 :=
  match r2_Body r with
  | None => fail (PacketDecodingError "unknown body decoder")
  | Some body =>
      let* key' := getInt16 in
      let* version' := getInt16 in
      if negb (key body =? key') || negb (version body =? version') then
        fail (PacketDecodingError "expected request key,version %d,%d but got %d,%d")
      else
        let* CorrelationID := getInt32 in
        let* ClientID := getString in
        let* tagged := TaggedFields_decode in
        let* body := body_decode body in
        ret {| r2_CorrelationID := CorrelationID; r2_ClientID := ClientID;
               r2_TaggedFields := tagged; r2_Body := Some body |}
  end.

End requests.
Arguments Request : clear implicits.
Arguments RequestV2 : clear implicits.

(** ** [SaslHandshake] *)

Record SaslHandshakeRequestV0orV1 := { Version : Z; Mechanism : bytes }.

Definition version_error : error := Errorf "SaslHandshakeRequestV0orV1 expects version 0 or 1".

Definition SaslHandshakeRequestV0orV1_encode (r : SaslHandshakeRequestV0orV1) : encoder := fun E P =>
  if negb (Version r =? 0) && negb (Version r =? 1) then fail version_error
  else putString (Mechanism r).

Definition SaslHandshakeRequestV0orV1_decode (r : SaslHandshakeRequestV0orV1)
    : decoder SaslHandshakeRequestV0orV1 :=
  if negb (Version r =? 0) && negb (Version r =? 1) then fail version_error
  else let* Mechanism := getString in ret {| Version := Version r; Mechanism := Mechanism |}.

#[export] Instance SaslHandshakeRequest_body : ProtocolBody SaslHandshakeRequestV0orV1 := {
  body_encode := SaslHandshakeRequestV0orV1_encode;
  body_decode := SaslHandshakeRequestV0orV1_decode;
  key := fun _ => 17;
  version := Version
}.

(** [EnabledMechanisms] keeps nil and empty apart. *)
Record SaslHandshakeResponseV0orV1 := {
  shr_Err : KError; EnabledMechanisms : option (list bytes)
}.

Definition SaslHandshakeResponseV0orV1_encode (r : SaslHandshakeResponseV0orV1) : encoder := fun E P =>
  do* putInt16 (int16 (shr_Err r)) in
  putStringArray (default [] (EnabledMechanisms r)).

Definition SaslHandshakeResponseV0orV1_decode : decoder SaslHandshakeResponseV0orV1 :=
  let* kerr := getInt16 in
  let* mechanisms := getStringArray in
  ret {| shr_Err := kerr; EnabledMechanisms := mechanisms |}.

(** ** [SaslAuthenticate] *)

Record SaslAuthenticateRequestV0 := { sar0_SaslAuthBytes : option bytes }.

Definition SaslAuthenticateRequestV0_encode (r : SaslAuthenticateRequestV0) : encoder := fun E P =>
  putBytes (sar0_SaslAuthBytes r).
Definition SaslAuthenticateRequestV0_decode : decoder SaslAuthenticateRequestV0 :=
  let* b := getBytes in ret {| sar0_SaslAuthBytes := b |}.

#[export] Instance SaslAuthenticateRequestV0_body : ProtocolBody SaslAuthenticateRequestV0 := {
  body_encode := SaslAuthenticateRequestV0_encode;
  body_decode := fun _ => SaslAuthenticateRequestV0_decode;
  key := fun _ => 36;
  version := fun _ => 0
}.

Record SaslAuthenticateRequestV1 := { sar1_SaslAuthBytes : option bytes }.

Definition SaslAuthenticateRequestV1_encode (r : SaslAuthenticateRequestV1) : encoder := fun E P =>
  putBytes (sar1_SaslAuthBytes r).
Definition SaslAuthenticateRequestV1_decode : decoder SaslAuthenticateRequestV1 :=
  let* b := getBytes in ret {| sar1_SaslAuthBytes := b |}.

#[export] Instance SaslAuthenticateRequestV1_body : ProtocolBody SaslAuthenticateRequestV1 := {
  body_encode := SaslAuthenticateRequestV1_encode;
  body_decode := fun _ => SaslAuthenticateRequestV1_decode;
  key := fun _ => 36;
  version := fun _ => 1
}.

Record SaslAuthenticateRequestV2 := { sar2_SaslAuthBytes : bytes; sar2_TaggedFields : TaggedFields }.

Definition SaslAuthenticateRequestV2_encode (r : SaslAuthenticateRequestV2) : encoder := fun E P =>
  do* putCompactBytes (sar2_SaslAuthBytes r) in
  TaggedFields_encode (sar2_TaggedFields r) E P.
Definition SaslAuthenticateRequestV2_decode : decoder SaslAuthenticateRequestV2 :=
  let* b := getCompactBytes in
  let* tagged := TaggedFields_decode in
  ret {| sar2_SaslAuthBytes := b; sar2_TaggedFields := tagged |}.

#[export] Instance SaslAuthenticateRequestV2_body : ProtocolBody SaslAuthenticateRequestV2 := {
  body_encode := SaslAuthenticateRequestV2_encode;
  body_decode := fun _ => SaslAuthenticateRequestV2_decode;
  key := fun _ => 36;
  version := fun _ => 2
}.

Record SaslAuthenticateResponseV0 := {
  sap0_Err : KError; sap0_ErrMsg : option bytes; sap0_SaslAuthBytes : option bytes
}.

Definition SaslAuthenticateResponseV0_encode (r : SaslAuthenticateResponseV0) : encoder := fun E P =>
  do* putInt16 (int16 (sap0_Err r)) in
  do* putNullableString (sap0_ErrMsg r) in
  putBytes (sap0_SaslAuthBytes r).
Definition SaslAuthenticateResponseV0_decode : decoder SaslAuthenticateResponseV0 :=
  let* kerr := getInt16 in
  let* msg := getNullableString in
  let* b := getBytes in
  ret {| sap0_Err := kerr; sap0_ErrMsg := msg; sap0_SaslAuthBytes := b |}.

Record SaslAuthenticateResponseV1 := {
  sap1_Err : KError; sap1_ErrMsg : option bytes; sap1_SaslAuthBytes : option bytes;
  sap1_SessionLifetimeMs : Z
}.

Definition SaslAuthenticateResponseV1_encode (r : SaslAuthenticateResponseV1) : encoder := fun E P =>
  do* putInt16 (int16 (sap1_Err r)) in
  do* putNullableString (sap1_ErrMsg r) in
  do* putBytes (sap1_SaslAuthBytes r) in
  putInt64 (sap1_SessionLifetimeMs r).
Definition SaslAuthenticateResponseV1_decode : decoder SaslAuthenticateResponseV1 :=
  let* kerr := getInt16 in
  let* msg := getNullableString in
  let* b := getBytes in
  let* ms := getInt64 in
  ret {| sap1_Err := kerr; sap1_ErrMsg := msg; sap1_SaslAuthBytes := b;
         sap1_SessionLifetimeMs := ms |}.

Record SaslAuthenticateResponseV2 := {
  sap2_Err : KError; sap2_ErrMsg : option bytes; sap2_SaslAuthBytes : bytes;
  sap2_SessionLifetimeMs : Z; sap2_TaggedFields : TaggedFields
}.

Definition SaslAuthenticateResponseV2_encode (r : SaslAuthenticateResponseV2) : encoder := fun E P =>
  do* putInt16 (int16 (sap2_Err r)) in
  do* putCompactNullableString (sap2_ErrMsg r) in
  do* putCompactBytes (sap2_SaslAuthBytes r) in
  do* putInt64 (sap2_SessionLifetimeMs r) in
  TaggedFields_encode (sap2_TaggedFields r) E P.
Definition SaslAuthenticateResponseV2_decode : decoder SaslAuthenticateResponseV2 :=
  let* kerr := getInt16 in
  let* msg := getCompactNullableString in
  let* b := getCompactBytes in
  let* ms := getInt64 in
  let* tagged := TaggedFields_decode in
  ret {| sap2_Err := kerr; sap2_ErrMsg := msg; sap2_SaslAuthBytes := b;
         sap2_SessionLifetimeMs := ms; sap2_TaggedFields := tagged |}.

(** ** Facts

    The messages of the proxy round-trip: what they are on the wire and that
    decoding reads it back; [Request] and [RequestV2] for any body that
    satisfies [ProtocolBodyLaws]. *)

(** ** Codecs *)

(** Splits a sequence of writes. *)
Ltac emits_seq :=
  repeat first
    [ solve [eauto with emits]
    | refine (emits_bind _ _ _ _ _ _); [solve [eauto with emits]|] ].

(** Splits a sequence of reads along the bytes [b1 ++ b2 ++ ...]. *)
Ltac decodes_seq :=
  repeat (refine (decodes_bind _ _ _ _ _ _ _ _); [solve [eauto with decodes]|]); eauto with decodes.

(** [bs] is the message [m] on the wire. *)
Lemma Encode_emits (e : encoder) r bs :
  emits e r -> Encode (Some e) = Ok (Some bs) -> r = Ok bs.
Proof.
  intros He. unfold Encode. rewrite (encode_passes_emits _ _ _ He).
  destruct r as [b|x|w]; simpl; [|done..]. destruct (_ <? _); simpl; [done|congruence].
Qed.

Lemma Encode_Decode {A} (e : encoder) (d : decoder A) r a bs :
  emits e r -> (forall bs, r = Ok bs -> decodes d bs a) ->
  Encode (Some e) = Ok (Some bs) -> Decode (Some bs) d = Ok (Some a).
Proof. intros He Hd H. apply Decode_decodes, Hd. by eapply Encode_emits. Qed.

Lemma rapp_Ok_l b r bs : rapp (Ok b) r = Ok bs -> exists b', r = Ok b' /\ bs = b ++ b'.
Proof. intros (b1 & b2 & [= <-] & ? & ->)%rapp_Ok. eauto. Qed.

(** Takes apart [rapp r1 (rapp r2 ...) = Ok bs]. *)
Ltac rapp_inv :=
  repeat match goal with
  | H : rapp (Ok _) _ = Ok _ |- _ =>
      let E := fresh "E" in destruct (rapp_Ok_l _ _ _ H) as (? & E & ->); clear H
  | H : rapp _ _ = Ok _ |- _ =>
      let E := fresh "E" in let E' := fresh "E" in
      destruct (rapp_Ok _ _ _ H) as (? & ? & E & E' & ->); clear H
  | H : Ok _ = Ok _ |- _ => injection H as <-
  end.

Lemma decodes_last {A B} (m : decoder A) (f : A -> B) bs a :
  decodes m bs a -> decodes (bind m (fun x => ret (f x))) bs (f a).
Proof. apply decodes_map. Qed.
#[export] Hint Resolve decodes_last : decodes.

(** ** String arrays *)

Lemma decodes_getStringArray l bs :
  len l <= 2 * MaxUint16 -> string_array_bytes l = Ok bs -> decodes getStringArray bs (Some l).
Proof.
  intros Hl H. unfold string_array_bytes in H. apply rapp_Ok in H as (b1 & b2 & H1 & H2 & ->).
  unfold array_length_bytes in H1. destruct (MaxInt32 <? _); [done|]. injection H1 as <-.
  apply foldr_rapp_inv in H2 as (g & -> & Hg).
  eapply decodes_prefixed with (n := len l).
  - intros pre post Hp. apply getArrayLength_at; [|done].
    pose proof (len_concat_ge g l) as Hge. len_facts. split; [lia|].
    etransitivity; [|exact Hp]. apply Hge. intros s Hs. specialize (Hg s Hs).
    apply limit_Ok in Hg as [_ ->]. len_lia.
  - replace (len l =? -1) with false by (symmetry; apply Z.eqb_neq; len_lia).
    replace (len l <? -1) with false by (symmetry; apply Z.ltb_ge; len_lia).
    rewrite to_nat_len. apply (decodes_map _ Some), decodes_times. intros s Hs.
    by apply decodes_getString, Hg.
Qed.

(** ** Bodies *)

(** What [Request] needs of a body: its bytes, written and read back; reading
    keeps of the receiver only what [key] and [version] show. *)
Class ProtocolBodyLaws (B : Type) `{ProtocolBody B} := {
  body_bytes : B -> res bytes;
  body_valid : B -> Prop;
  body_emits : forall b, emits (body_encode b) (body_bytes b);
  body_version : forall b, body_valid b -> inS 16 (key b) /\ inS 16 (version b);
  body_decodes : forall b0 b bs, body_valid b -> key b0 = key b -> version b0 = version b ->
    body_bytes b = Ok bs -> decodes (body_decode b0) bs b
}.

#[export] Program Instance SaslHandshakeRequest_laws : ProtocolBodyLaws SaslHandshakeRequestV0orV1 := {|
  body_bytes r :=
    if negb (Version r =? 0) && negb (Version r =? 1) then Err version_error
    else string_bytes (Mechanism r);
  body_valid r := Version r = 0 \/ Version r = 1
|}.
Next Obligation.
  intros r. cbn. unfold SaslHandshakeRequestV0orV1_encode.
  destruct (_ && _); [apply emits_fail | apply emits_putString].
Qed.
Next Obligation. intros r H. cbn. unfold inS. destruct H as [-> | ->]; lia. Qed.
Next Obligation.
  intros r0 [v m] bs Hv _ E H. cbn in *. unfold SaslHandshakeRequestV0orV1_decode. rewrite E.
  destruct (_ && _); [done|].
  apply (decodes_map _ (fun m => {| Version := v; Mechanism := m |})). by apply decodes_getString.
Qed.

#[export] Program Instance SaslAuthenticateRequestV0_laws : ProtocolBodyLaws SaslAuthenticateRequestV0 := {|
  body_bytes r := bytes_bytes (sar0_SaslAuthBytes r);
  body_valid _ := True
|}.
Next Obligation. intros r. apply emits_putBytes. Qed.
Next Obligation. intros r _. cbn. unfold inS. lia. Qed.
Next Obligation.
  intros r0 [b] bs _ _ _ H.
  apply (decodes_map _ (fun b => {| sar0_SaslAuthBytes := b |})). by apply decodes_getBytes.
Qed.

#[export] Program Instance SaslAuthenticateRequestV1_laws : ProtocolBodyLaws SaslAuthenticateRequestV1 := {|
  body_bytes r := bytes_bytes (sar1_SaslAuthBytes r);
  body_valid _ := True
|}.
Next Obligation. intros r. apply emits_putBytes. Qed.
Next Obligation. intros r _. cbn. unfold inS. lia. Qed.
Next Obligation.
  intros r0 [b] bs _ _ _ H.
  apply (decodes_map _ (fun b => {| sar1_SaslAuthBytes := b |})). by apply decodes_getBytes.
Qed.

Lemma emits_TaggedFields l : emits (TaggedFields_encode l) (tagged_bytes l).
Proof. apply emits_tagged. Qed.
#[export] Hint Resolve emits_TaggedFields : emits.

#[export] Program Instance SaslAuthenticateRequestV2_laws : ProtocolBodyLaws SaslAuthenticateRequestV2 := {|
  body_bytes r :=
    rapp (compact_bytes_bytes (sar2_SaslAuthBytes r)) (tagged_bytes (sar2_TaggedFields r));
  body_valid r := tagged_typed (sar2_TaggedFields r) = true
|}.
Next Obligation. intros r. cbn. unfold SaslAuthenticateRequestV2_encode. emits_seq. Qed.
Next Obligation. intros r _. cbn. unfold inS. lia. Qed.
Next Obligation.
  intros r0 [b t] bs Hv _ _ H. cbn in *. unfold SaslAuthenticateRequestV2_decode.
  apply rapp_Ok in H as (b1 & b2 & H1 & H2 & ->).
  eapply decodes_bind; [by apply decodes_getCompactBytes|].
  apply (decodes_map _ (fun t => {| sar2_SaslAuthBytes := b; sar2_TaggedFields := t |})).
  by apply decodes_tagged.
Qed.

(** ** Requests *)

Section requests.
Context {B : Type} {PB : ProtocolBody B} {PL : ProtocolBodyLaws B}.

Definition header_bytes (body : B) (correlation : Z) (client : bytes) (rest : res bytes) : res bytes :=
  rapp (Ok (be_put 2 (key body))) (rapp (Ok (be_put 2 (version body)))
    (rapp (Ok (be_put 4 correlation)) (rapp (string_bytes client) rest))).

Lemma header_bytes_Ok body corr client rest bs :
  header_bytes body corr client rest = Ok bs ->
  exists b1 b2, string_bytes client = Ok b1 /\ rest = Ok b2 /\
    bs = be_put 2 (key body) ++ be_put 2 (version body) ++ be_put 4 corr ++ b1 ++ b2.
Proof. unfold header_bytes. intros H. rapp_inv. eauto 10. Qed.

Definition Request_bytes (r : Request B) : res bytes :=
  match Body r with
  | Some body => header_bytes body (CorrelationID r) (ClientID r) (body_bytes body)
  | None => Panic "invalid memory address or nil pointer dereference"
  end.

Lemma emits_panic w : emits (fun _ _ => panic w) (Panic w).
Proof. split; [intros n; unfold panic; eauto | by intros]. Qed.

Lemma emits_Request r : emits (Request_encode r) (Request_bytes r).
Proof.
  unfold Request_encode, Request_bytes. destruct (Body r) as [body|]; [|apply emits_panic].
  unfold header_bytes. pose proof (body_emits body). emits_seq.
Qed.

(** Reading the common part of a request into a receiver with a body of the
    same key and version. *)
Lemma decodes_header {A} (b0 b : B) corr client b1 b2 (k : Z -> bytes -> decoder A) a :
  body_valid b -> key b0 = key b -> version b0 = version b -> inS 32 corr ->
  string_bytes client = Ok b1 -> decodes (k corr client) b2 a ->
  decodes (let* key' := getInt16 in
           let* version' := getInt16 in
           if negb (key b0 =? key') || negb (version b0 =? version') then
             fail (PacketDecodingError "expected request key,version %d,%d but got %d,%d")
           else let* c := getInt32 in let* s := getString in k c s)
    (be_put 2 (key b) ++ be_put 2 (version b) ++ be_put 4 corr ++ b1 ++ b2) a.
Proof.
  intros Hv Ek Ev Hc Hs Hk. destruct (body_version b Hv) as [H1 H2].
  eapply decodes_bind; [by apply decodes_getInt16|].
  eapply decodes_bind; [by apply decodes_getInt16|].
  rewrite Ek, Ev, !Z.eqb_refl. cbn [negb orb].
  eapply decodes_bind; [by apply decodes_getInt32|].
  eapply decodes_bind; [by apply decodes_getString|]. done.
Qed.

Lemma decodes_Request r0 r b0 b bs :
  Body r0 = Some b0 -> Body r = Some b -> key b0 = key b -> version b0 = version b ->
  body_valid b -> inS 32 (CorrelationID r) -> Request_bytes r = Ok bs ->
  decodes (Request_decode r0) bs r.
Proof.
  intros E0 E Ek Ev Hv Hc H. unfold Request_bytes in H. rewrite E in H.
  apply header_bytes_Ok in H as (b1 & b2 & H1 & H2 & ->).
  unfold Request_decode. rewrite E0. apply (decodes_header b0 b (CorrelationID r) (ClientID r) b1 _
    (fun c s => let* body := body_decode b0 in
       ret {| CorrelationID := c; ClientID := s; Body := Some body |})); try done.
  destruct r as [c s o]. simpl in *. subst o.
  apply (decodes_map _ (fun b => {| CorrelationID := c; ClientID := s; Body := Some b |})).
  by apply body_decodes.
Qed.

Definition RequestV2_bytes (r : RequestV2 B) : res bytes :=
  match r2_Body r with
  | Some body =>
      header_bytes body (r2_CorrelationID r) (r2_ClientID r)
        (rapp (tagged_bytes (r2_TaggedFields r)) (body_bytes body))
  | None => Panic "invalid memory address or nil pointer dereference"
  end.

Lemma emits_RequestV2 r : emits (RequestV2_encode r) (RequestV2_bytes r).
Proof.
  unfold RequestV2_encode, RequestV2_bytes. destruct (r2_Body r) as [body|]; [|apply emits_panic].
  unfold header_bytes. pose proof (body_emits body). emits_seq.
Qed.

Lemma decodes_RequestV2 r0 r b0 b bs :
  r2_Body r0 = Some b0 -> r2_Body r = Some b -> key b0 = key b -> version b0 = version b ->
  body_valid b -> inS 32 (r2_CorrelationID r) -> tagged_typed (r2_TaggedFields r) = true ->
  RequestV2_bytes r = Ok bs -> decodes (RequestV2_decode r0) bs r.
Proof.
  intros E0 E Ek Ev Hv Hc Ht H. unfold RequestV2_bytes in H. rewrite E in H.
  apply header_bytes_Ok in H as (b1 & b2 & H1 & H2 & ->). rapp_inv.
  unfold RequestV2_decode. rewrite E0. apply (decodes_header b0 b (r2_CorrelationID r) (r2_ClientID r) b1 _
    (fun c s => let* tagged := TaggedFields_decode in let* body := body_decode b0 in
       ret {| r2_CorrelationID := c; r2_ClientID := s; r2_TaggedFields := tagged;
              r2_Body := Some body |})); try done.
  destruct r as [c s t o]. simpl in *. subst o.
  eapply decodes_bind; [by apply decodes_tagged|].
  apply (decodes_map _ (fun b => {| r2_CorrelationID := c; r2_ClientID := s; r2_TaggedFields := t;
                                    r2_Body := Some b |})).
  by apply body_decodes.
Qed.

End requests.

(** ** Responses *)

Definition SaslHandshakeResponse_bytes (r : SaslHandshakeResponseV0orV1) : res bytes :=
  rapp (Ok (be_put 2 (int16 (shr_Err r)))) (string_array_bytes (default [] (EnabledMechanisms r))).

Definition SaslAuthenticateResponseV0_bytes (r : SaslAuthenticateResponseV0) : res bytes :=
  rapp (Ok (be_put 2 (int16 (sap0_Err r))))
    (rapp (nullable_string_bytes (sap0_ErrMsg r)) (bytes_bytes (sap0_SaslAuthBytes r))).

Definition SaslAuthenticateResponseV1_bytes (r : SaslAuthenticateResponseV1) : res bytes :=
  rapp (Ok (be_put 2 (int16 (sap1_Err r))))
    (rapp (nullable_string_bytes (sap1_ErrMsg r))
      (rapp (bytes_bytes (sap1_SaslAuthBytes r)) (Ok (be_put 8 (sap1_SessionLifetimeMs r))))).

Definition SaslAuthenticateResponseV2_bytes (r : SaslAuthenticateResponseV2) : res bytes :=
  rapp (Ok (be_put 2 (int16 (sap2_Err r))))
    (rapp (compact_nullable_string_bytes (sap2_ErrMsg r))
      (rapp (compact_bytes_bytes (sap2_SaslAuthBytes r))
        (rapp (Ok (be_put 8 (sap2_SessionLifetimeMs r))) (tagged_bytes (sap2_TaggedFields r))))).

Definition ResponseHeader_bytes (r : ResponseHeader) : bytes :=
  be_put 4 (rh_Length r) ++ be_put 4 (rh_CorrelationID r).

Definition ResponseHeaderV1_bytes (r : ResponseHeaderV1) : res bytes :=
  rapp (Ok (be_put 4 (rh1_Length r)))
    (rapp (Ok (be_put 4 (rh1_CorrelationID r))) (tagged_bytes (RawTaggedFields r))).

Lemma emits_SaslHandshakeResponse r :
  emits (SaslHandshakeResponseV0orV1_encode r) (SaslHandshakeResponse_bytes r).
Proof. unfold SaslHandshakeResponseV0orV1_encode, SaslHandshakeResponse_bytes. emits_seq. Qed.

Lemma emits_SaslAuthenticateResponseV0 r :
  emits (SaslAuthenticateResponseV0_encode r) (SaslAuthenticateResponseV0_bytes r).
Proof. unfold SaslAuthenticateResponseV0_encode, SaslAuthenticateResponseV0_bytes. emits_seq. Qed.

Lemma emits_SaslAuthenticateResponseV1 r :
  emits (SaslAuthenticateResponseV1_encode r) (SaslAuthenticateResponseV1_bytes r).
Proof. unfold SaslAuthenticateResponseV1_encode, SaslAuthenticateResponseV1_bytes. emits_seq. Qed.

Lemma emits_SaslAuthenticateResponseV2 r :
  emits (SaslAuthenticateResponseV2_encode r) (SaslAuthenticateResponseV2_bytes r).
Proof. unfold SaslAuthenticateResponseV2_encode, SaslAuthenticateResponseV2_bytes. emits_seq. Qed.

Lemma emits_ResponseHeader r : emits (ResponseHeader_encode r) (Ok (ResponseHeader_bytes r)).
Proof.
  unfold ResponseHeader_encode, ResponseHeader_bytes.
  apply (emits_bind (fun _ _ => putInt32 _) (fun _ _ => putInt32 _) (Ok _) (Ok _)); eauto with emits.
Qed.

Lemma emits_ResponseHeaderV1 r : emits (ResponseHeaderV1_encode r) (ResponseHeaderV1_bytes r).
Proof.
  unfold ResponseHeaderV1_encode, ResponseHeaderV1_bytes. pose proof (emits_tagged (RawTaggedFields r)).
  emits_seq.
Qed.

Lemma decodes_SaslHandshakeResponse r l bs :
  inS 16 (shr_Err r) -> EnabledMechanisms r = Some l -> len l <= 2 * MaxUint16 ->
  SaslHandshakeResponse_bytes r = Ok bs -> decodes SaslHandshakeResponseV0orV1_decode bs r.
Proof.
  intros He El Hl H. unfold SaslHandshakeResponse_bytes in H. rewrite El, wrapS_id in H by (done || lia).
  rapp_inv. eapply decodes_bind; [by apply decodes_getInt16|].
  destruct r as [e o]. simpl in *. subst o.
  apply (decodes_map _ (fun o => {| shr_Err := e; EnabledMechanisms := o |})).
  by apply decodes_getStringArray.
Qed.

Lemma decodes_SaslAuthenticateResponseV0 r bs :
  inS 16 (sap0_Err r) -> SaslAuthenticateResponseV0_bytes r = Ok bs ->
  decodes SaslAuthenticateResponseV0_decode bs r.
Proof.
  intros He H. unfold SaslAuthenticateResponseV0_bytes in H. rewrite wrapS_id in H by (done || lia).
  rapp_inv. unfold SaslAuthenticateResponseV0_decode. destruct r as [e m b].
  cbn [sap0_Err sap0_ErrMsg sap0_SaslAuthBytes] in *.
  eapply decodes_bind; [by apply decodes_getInt16|].
  eapply decodes_bind; [by apply decodes_getNullableString|].
  apply (decodes_map _ (fun b => {| sap0_Err := e; sap0_ErrMsg := m; sap0_SaslAuthBytes := b |})).
  by apply decodes_getBytes.
Qed.

Lemma decodes_SaslAuthenticateResponseV1 r bs :
  inS 16 (sap1_Err r) -> inS 64 (sap1_SessionLifetimeMs r) ->
  SaslAuthenticateResponseV1_bytes r = Ok bs -> decodes SaslAuthenticateResponseV1_decode bs r.
Proof.
  intros He Hm H. unfold SaslAuthenticateResponseV1_bytes in H. rewrite wrapS_id in H by (done || lia).
  rapp_inv. unfold SaslAuthenticateResponseV1_decode. destruct r as [e m b t].
  cbn [sap1_Err sap1_ErrMsg sap1_SaslAuthBytes sap1_SessionLifetimeMs] in *.
  eapply decodes_bind; [by apply decodes_getInt16|].
  eapply decodes_bind; [by apply decodes_getNullableString|].
  eapply decodes_bind; [by apply decodes_getBytes|].
  apply (decodes_map _ (fun t => {| sap1_Err := e; sap1_ErrMsg := m; sap1_SaslAuthBytes := b;
                                    sap1_SessionLifetimeMs := t |})).
  by apply decodes_getInt64.
Qed.

Lemma decodes_SaslAuthenticateResponseV2 r bs :
  inS 16 (sap2_Err r) -> inS 64 (sap2_SessionLifetimeMs r) -> tagged_typed (sap2_TaggedFields r) = true ->
  SaslAuthenticateResponseV2_bytes r = Ok bs -> decodes SaslAuthenticateResponseV2_decode bs r.
Proof.
  intros He Hm Ht H. unfold SaslAuthenticateResponseV2_bytes in H. rewrite wrapS_id in H by (done || lia).
  rapp_inv. unfold SaslAuthenticateResponseV2_decode. destruct r as [e m b t l].
  cbn [sap2_Err sap2_SessionLifetimeMs sap2_TaggedFields sap2_ErrMsg sap2_SaslAuthBytes] in *.
  eapply decodes_bind; [by apply decodes_getInt16|].
  eapply decodes_bind; [by apply decodes_getCompactNullableString|].
  eapply decodes_bind; [by apply decodes_getCompactBytes|].
  eapply decodes_bind; [by apply decodes_getInt64|].
  apply (decodes_map _ (fun l => {| sap2_Err := e; sap2_ErrMsg := m; sap2_SaslAuthBytes := b;
                                    sap2_SessionLifetimeMs := t; sap2_TaggedFields := l |})).
  by apply decodes_tagged.
Qed.

Lemma decodes_ResponseHeader r :
  4 < rh_Length r -> inS 32 (rh_Length r) -> inS 32 (rh_CorrelationID r) ->
  decodes ResponseHeader_decode (ResponseHeader_bytes r) r.
Proof.
  intros H1 H2 H3. eapply decodes_bind; [by apply decodes_getInt32|].
  replace (_ <=? 4) with false by (symmetry; apply Z.leb_gt; lia).
  destruct r as [l c]. apply (decodes_map _ (fun c => {| rh_Length := l; rh_CorrelationID := c |})).
  by apply decodes_getInt32.
Qed.

Lemma decodes_ResponseHeaderV1 r bs :
  4 < rh1_Length r -> inS 32 (rh1_Length r) -> inS 32 (rh1_CorrelationID r) ->
  tagged_typed (RawTaggedFields r) = true -> ResponseHeaderV1_bytes r = Ok bs ->
  decodes ResponseHeaderV1_decode bs r.
Proof.
  intros H1 H2 H3 Ht H. unfold ResponseHeaderV1_bytes in H. rapp_inv.
  eapply decodes_bind; [by apply decodes_getInt32|].
  replace (_ <=? 4) with false by (symmetry; apply Z.leb_gt; lia).
  eapply decodes_bind; [by apply decodes_getInt32|].
  destruct r as [l c t]. cbn [RawTaggedFields rh1_Length rh1_CorrelationID] in *.
  apply (decodes_map _ (fun t => {| rh1_Length := l; rh1_CorrelationID := c; RawTaggedFields := t |})).
  by apply decodes_tagged.
Qed.

(** ** Header versions *)

(** The first flexible version of every API key that has inflexible ones;
    [None] when no version of the key is flexible.  Keys not listed are
    flexible in all their versions. *)
Definition firstFlexible : list (Z * option Z) :=
  [(0, Some 9); (1, Some 12); (2, Some 6); (3, Some 9); (4, Some 4); (5, Some 2); (6, Some 6);
   (7, Some 3); (8, Some 8); (9, Some 6); (10, Some 3); (11, Some 6); (12, Some 4); (13, Some 4);
   (14, Some 4); (15, Some 5); (16, Some 3); (17, None); (18, None); (19, Some 5); (20, Some 4);
   (21, Some 2); (22, Some 2); (23, Some 4); (24, Some 3); (25, Some 3); (26, Some 3); (27, Some 1);
   (28, Some 3); (29, Some 2); (30, Some 2); (31, Some 2); (32, Some 4); (33, Some 2); (34, Some 2);
   (35, Some 2); (36, Some 2); (37, Some 2); (38, Some 2); (39, Some 2); (40, Some 2); (41, Some 2);
   (42, Some 2); (43, Some 2); (44, Some 1); (47, None); (48, Some 1); (49, Some 1); (53, None);
   (54, None)].

(** The response header version by that table. *)
Definition headerVersionSpec (ApiKey ApiVersion : Z) : Z :=
  match list_find (fun e => fst e = ApiKey) firstFlexible with
  | Some (_, (_, Some first)) => if first <=? ApiVersion then 1 else 0
  | Some (_, (_, None)) => 0
  | None => 1
  end.

Lemma ResponseHeaderVersion_table r : ResponseHeaderVersion r = headerVersionSpec (ApiKey r) (ApiVersion r).
Proof.
  unfold ResponseHeaderVersion. set (k := ApiKey r). set (v := ApiVersion r).
  destruct (decide (0 <= k < 88)) as [Hk|Hk].
  - assert (k ∈ seqZ 0 88) as Hin by (apply elem_of_seqZ; lia). revert Hin. clear Hk.
    generalize k. apply Forall_forall. repeat (constructor; [reflexivity|]). constructor.
  - assert (responseHeaderVersion_0_21 k v = None /\ responseHeaderVersion_22_47 k v = None /\
            responseHeaderVersion_48_87 k v = None) as (-> & -> & ->).
    { destruct k as [|p|p]; [lia| |done].
      do 7 (destruct p as [p|p|]; try done; try lia). }
    unfold headerVersionSpec. destruct (list_find _ _) as [[i e]|] eqn:E; [|done].
    apply list_find_Some in E as (E & He & _). exfalso. apply Hk. rewrite <- He.
    apply list_elem_of_lookup_2 in E.
    assert (Forall (fun e => 0 <= fst e < 88) firstFlexible) as Hall
      by (by apply (bool_decide_eq_true_1 _); vm_compute).
    rewrite Forall_forall in Hall. by apply Hall.
Qed.
