(* ===== verification/Net.v ===== *)
(** Connections and the readers of the proxy: [net.Conn] as a pair of byte
    streams, [io.ReadFull], [io.CopyN], [binary.Read], [binary.ReadUvarint],
    [io.TeeReader], and the stream readers of the protocol package
    (proxy/protocol/response_header.go, request_produce_reader.go).

    The receive stream holds the bytes the peer sends before the stream ends
    and the error it ends with, so how they are cut into [Read] results does
    not matter.  The send stream records what the peer was given; it may fail
    after some more bytes.  Deadlines are not values of the model: a deadline
    that expires is a stream that ends with a timeout error. *)
From Stdlib Require Import ZArith Lia Strings.Byte.
From stdpp Require Import base list strings gmap.
From S2P Require Import Prelude GoLib Encoder Decoder Errors Schema SchemaFacts Messages.

Record conn := {
  rx : bytes;                         (* bytes still to be received *)
  rx_end : error;                     (* the error after them *)
  tx : bytes;                         (* bytes sent *)
  tx_err : option (nat * error);      (* bytes accepted before a write error *)
  deadline_err : option error         (* the error of the Set*Deadline methods *)
}.

Definition set_rx (b : bytes) (c : conn) : conn :=
  {| rx := b; rx_end := rx_end c; tx := tx c; tx_err := tx_err c; deadline_err := deadline_err c |}.
Definition set_tx (b : bytes) (e : option (nat * error)) (c : conn) : conn :=
  {| rx := rx c; rx_end := rx_end c; tx := b; tx_err := e; deadline_err := deadline_err c |}.

(** [SetDeadline], [SetReadDeadline], [SetWriteDeadline] *)
Definition SetDeadline : M conn unit := fun c =>
  match deadline_err c with Some e => (Err e, c) | None => (Ok tt, c) end.

(** [io.ReadFull] into a buffer of [n] bytes. *)
Definition ReadFull (n : nat) : M conn bytes := fun c =>
  if (n <=? length (rx c))%nat then (Ok (take n (rx c)), set_rx (drop n (rx c)) c)
  else (Err (match rx c with
             | [] => rx_end c
             | _ => if decide (rx_end c = EOF) then ErrUnexpectedEOF else rx_end c
             end), set_rx [] c).

(** [buf := make([]byte, n); io.ReadFull(c, buf)] *)
Definition ReadFull_make (n : Z) : M conn bytes :=
  do* lift (makeslice 1 n) in ReadFull (Z.to_nat n).

Definition Write (b : bytes) : M conn unit := fun c =>
  match tx_err c with
  | None => (Ok tt, set_tx (tx c ++ b) None c)
  | Some (room, e) =>
      if (length b <=? room)%nat then (Ok tt, set_tx (tx c ++ b) (Some (room - length b, e)%nat) c)
      else (Err e, set_tx (tx c ++ take room b) (Some (O, e)) c)
  end.

(** [io.CopyN(io.Discard, c, n)]; a negative [n] copies nothing. *)
Definition CopyN_discard (n : Z) : M conn unit := fun c =>
  if n <=? len (rx c) then (Ok tt, set_rx (drop (Z.to_nat n) (rx c)) c)
  else (Err (rx_end c), set_rx [] c).

(** [binary.Read(c, binary.BigEndian, &v)] for a [v] of [n] bytes. *)
Definition binary_Read (n : nat) : M conn Z :=
  let* b := ReadFull n in ret (be_value b).

(** A run of [m] on a tee of the connection: also returns the bytes read. *)
Definition tee {A} (m : M conn A) : M conn (A * bytes) := fun c =>
  match m c with
  | (Ok a, c') => (Ok (a, take (length (rx c) - length (rx c')) (rx c)), c')
  | (Err e, c') => (Err e, c')
  | (Panic w, c') => (Panic w, c')
  end.

(** ** [binary.ReadUvarint] over [ByteReader] *)

Definition ReadByte : M conn byte := fun c =>
  match rx c with
  | [] => (Err (rx_end c), c)
  | b :: rest => (Ok b, set_rx rest c)
  end.

Definition errOverflow : error := Errorf "binary: varint overflows a 64-bit integer".

Fixpoint ReadUvarint_loop (fuel i : nat) (x s : Z) : M conn Z :=
  match fuel with
  | O => fail errOverflow
  | S fuel' =>
      let* b := (fun c => match ReadByte c with
                          | (Err e, c') =>
                              (Err (if (0 <? i)%nat && bool_decide (e = EOF)
                                    then ErrUnexpectedEOF else e), c')
                          | r => r
                          end) in
      if byteZ b <? 128 then
        if (i =? MaxVarintLen64 - 1)%nat && (1 <? byteZ b) then fail errOverflow
        else ret (Z.lor x (uint64 (Z.shiftl (byteZ b) s)))
      else ReadUvarint_loop fuel' (S i) (Z.lor x (uint64 (Z.shiftl (Z.land (byteZ b) 127) s))) (s + 7)
  end.

Definition ReadUvarint : M conn Z := ReadUvarint_loop MaxVarintLen64 0 0 0.

(** ** [ResponseHeaderTaggedFields] *)

Record ResponseHeaderTaggedFields := { rhtf_version : Z }.

(** The loop over [numTaggedFields]; an iteration takes two bytes or more, so
    the number of bytes left bounds the iterations. *)
Fixpoint readTaggedFields (fuel : nat) (n : Z) : M conn unit :=
  if n <=? 0 then ret tt
  else
    match fuel with
    | O => panic "out of fuel"
    | S fuel' =>
        do* wrapf ReadUvarint "error while reading tagged field tag" in
        let* size := wrapf ReadUvarint "error while reading tagged field size" in
        do* (if size =? 0 then ret tt
             else wrapf (CopyN_discard (int64 size)) "error while reading tagged field data") in
        readTaggedFields fuel' (n - 1)
    end.

Definition MaybeRead (r : ResponseHeaderTaggedFields) : M conn bytes :=
  if 1 <=? rhtf_version r then
    let* r := tee (
      let* numTaggedFields :=
        wrapf ReadUvarint "error while reading tagged field numTaggedFields" in
      let* c := get in
      readTaggedFields (S (length (rx c))) (int64 numTaggedFields)) in
    ret (snd r)
  else ret [].

Definition NewResponseHeaderTaggedFields (req : RequestKeyVersion) : res ResponseHeaderTaggedFields :=
  let version := ResponseHeaderVersion req in
  if version <? 0 then Err (PacketDecodingError "ResponseHeaderVersion: unknown ApiKey %d")
  else Ok {| rhtf_version := version |}.

(** ** [RequestAcksReader] *)

Definition readAndDiscardNullableString : M conn unit :=
  let* v := binary_Read 2 in
  let length := int16 v in
  if length <? -1 then fail errInvalidStringLength
  else if 0 <? length then CopyN_discard length
  else ret tt.

Definition ReadAndDiscardHeaderV1Part : M conn unit :=
  do* binary_Read 4 in readAndDiscardNullableString.

Definition ReadAndDiscardProduceAcks : M conn Z :=
  let* v := binary_Read 2 in ret (int16 v).

Definition ReadAndDiscardProduceTxnAcks : M conn Z :=
  do* readAndDiscardNullableString in
  let* v := binary_Read 2 in ret (int16 v).

(** ** Facts

    What the stream readers consume: every reader takes a prefix of the
    receive stream and touches nothing else; [MaybeRead] terminates and takes
    exactly the tagged fields of a response header. *)

(** [m] only reads: it consumes a prefix of the receive stream. *)
Definition reads {A} (m : M conn A) : Prop :=
  forall c, exists b, rx c = b ++ rx (snd (m c)) /\ snd (m c) = set_rx (rx (snd (m c))) c.

Lemma set_rx_id c : set_rx (rx c) c = c.
Proof. by destruct c. Qed.

Lemma reads_same {A} (m : M conn A) : (forall c, snd (m c) = c) -> reads m.
Proof. intros H c. exists []. rewrite H. split; [done|]. by rewrite set_rx_id. Qed.

Lemma net_reads_ret {A} (a : A) : reads (ret a).
Proof. by apply reads_same. Qed.
Lemma reads_fail {A} e : reads (@fail conn A e).
Proof. by apply reads_same. Qed.
Lemma reads_panic {A} w : reads (@panic conn A w).
Proof. by apply reads_same. Qed.
Lemma reads_lift {A} (r : res A) : reads (lift r).
Proof. by apply reads_same. Qed.

Lemma net_reads_bind {A B} (m : M conn A) (k : A -> M conn B) :
  reads m -> (forall a, reads (k a)) -> reads (bind m k).
Proof.
  intros Hm Hk c. unfold bind. specialize (Hm c) as (b & H1 & H2).
  destruct (m c) as [[a|e|w] c1]; simpl in *; [|by exists b..].
  destruct (Hk a c1) as (b' & H3 & H4). exists (b ++ b').
  revert H3 H4. generalize (snd (k a c1)). intros c2 H3 H4.
  split; [by rewrite H1, H3, app_assoc|]. rewrite H4, H2. done.
Qed.

Lemma reads_get {A} (k : conn -> M conn A) : (forall c, reads (k c)) -> reads (let* c := get in k c).
Proof. intros H c. apply (H c c). Qed.

Lemma reads_wrapf {A} (m : M conn A) s : reads m -> reads (wrapf m s).
Proof. intros H c. specialize (H c). unfold wrapf. by destruct (m c) as [[]]. Qed.

Lemma reads_ReadFull n : reads (ReadFull n).
Proof.
  intros c. unfold ReadFull. destruct (_ <=? _)%nat; simpl.
  - exists (take n (rx c)). by rewrite take_drop.
  - exists (rx c). by rewrite app_nil_r.
Qed.

Lemma reads_CopyN n : reads (CopyN_discard n).
Proof.
  intros c. unfold CopyN_discard. destruct (_ <=? _); simpl.
  - exists (take (Z.to_nat n) (rx c)). by rewrite take_drop.
  - exists (rx c). by rewrite app_nil_r.
Qed.

Lemma reads_ReadByte : reads ReadByte.
Proof.
  intros c. unfold ReadByte. destruct (rx c) as [|b l] eqn:E; simpl.
  - exists []. rewrite E. split; [done|]. by rewrite <- E, set_rx_id.
  - by exists [b].
Qed.

Lemma reads_tee {A} (m : M conn A) : reads m -> reads (tee m).
Proof. intros H c. specialize (H c). unfold tee. by destruct (m c) as [[]]. Qed.

Lemma tee_Ok {A} (m : M conn A) c a b c' :
  reads m -> tee m c = (Ok (a, b), c') -> m c = (Ok a, c') /\ rx c = b ++ rx c'.
Proof.
  intros H. specialize (H c) as (b' & H1 & H2). unfold tee.
  destruct (m c) as [[a'|e|w] c1]; simpl in *; [|done..]. intros [= -> <- <-].
  split; [done|]. rewrite H1 at 1 2 3. rewrite length_app.
  replace (length b' + length (rx c1) - length (rx c1))%nat with (length b') by lia.
  by rewrite take_app_length.
Qed.

Lemma reads_ReadUvarint_loop f : forall i x s, reads (ReadUvarint_loop f i x s).
Proof.
  induction f as [|f IH]; intros i x s; simpl; [apply reads_fail|].
  apply net_reads_bind.
  - intros c. destruct (reads_ReadByte c) as (b & H). exists b.
    by destruct (ReadByte c) as [[]].
  - intros b. destruct (_ <? _); [|apply IH]. destruct (_ && _); [apply reads_fail|apply net_reads_ret].
Qed.

Lemma reads_ReadUvarint : reads ReadUvarint.
Proof. apply reads_ReadUvarint_loop. Qed.

Create HintDb reads discriminated.
#[export] Hint Resolve net_reads_ret reads_fail reads_panic reads_lift reads_wrapf reads_ReadFull
  reads_CopyN reads_ReadUvarint reads_tee : reads.

Lemma reads_readTaggedFields f : forall n, reads (readTaggedFields f n).
Proof.
  induction f as [|f IH]; intros n; simpl; (destruct (n <=? 0); [apply net_reads_ret|]); [apply reads_panic|].
  apply net_reads_bind; [eauto with reads|]. intros _.
  apply net_reads_bind; [eauto with reads|]. intros size.
  apply net_reads_bind; [|intros; apply IH]. destruct (size =? 0); eauto with reads.
Qed.

Lemma reads_MaybeRead_inner :
  reads (let* n := wrapf ReadUvarint "error while reading tagged field numTaggedFields" in
         let* c := get in readTaggedFields (S (length (rx c))) (int64 n)).
Proof.
  apply net_reads_bind; [eauto with reads|]. intros n. apply reads_get. intros. apply reads_readTaggedFields.
Qed.

Lemma reads_MaybeRead r : reads (MaybeRead r).
Proof.
  unfold MaybeRead. destruct (_ <=? _); [|apply net_reads_ret].
  apply net_reads_bind; [apply reads_tee, reads_MaybeRead_inner | intros; apply net_reads_ret].
Qed.

(** The bytes [MaybeRead] returns are the bytes it took from the stream. *)
Lemma MaybeRead_prefix r c b c' :
  MaybeRead r c = (Ok b, c') -> rx c = b ++ rx c' /\ c' = set_rx (rx c') c.
Proof.
  intros H. pose proof (reads_MaybeRead r c) as (b' & H1 & H2). rewrite H in H1, H2. simpl in *.
  split; [|done]. unfold MaybeRead in H. destruct (_ <=? _).
  - apply bind_inv in H as ([a b1] & c1 & H & [= <- <-]). simpl.
    by destruct (tee_Ok _ _ _ _ _ reads_MaybeRead_inner H).
  - injection H as <- <-. done.
Qed.

(** ** Termination *)

(** A varint read consumes at least one byte. *)
Lemma ReadUvarint_loop_consumes f : forall i x s c v c',
  ReadUvarint_loop f i x s c = (Ok v, c') -> (length (rx c') < length (rx c))%nat.
Proof.
  induction f as [|f IH]; intros i x s c v c' H; simpl in H; [done|].
  apply bind_inv in H as (b & c1 & H1 & H).
  assert (length (rx c1) < length (rx c))%nat as Hlt.
  { unfold ReadByte in H1. destruct (rx c) eqn:E; [done|]. injection H1 as <- <-. simpl. lia. }
  destruct (_ <? _).
  - destruct (_ && _); [done|]. by injection H as <- <-.
  - apply IH in H. lia.
Qed.

(** *** Calls that succeed *)

Lemma SetDeadline_Ok c a c' : SetDeadline c = (Ok a, c') -> c' = c.
Proof. unfold SetDeadline. destruct (deadline_err c); congruence. Qed.

Lemma ReadFull_Ok n c b c' :
  ReadFull n c = (Ok b, c') -> rx c = b ++ rx c' /\ length b = n /\ c' = set_rx (rx c') c.
Proof.
  unfold ReadFull. destruct (_ <=? _)%nat eqn:E; [|done]. apply Nat.leb_le in E. intros [= <- <-].
  simpl. rewrite take_drop. split; [done|]. split; [|done]. rewrite length_take. lia.
Qed.

Lemma ReadFull_make_Ok n c b c' :
  ReadFull_make n c = (Ok b, c') -> rx c = b ++ rx c' /\ len b = n /\ c' = set_rx (rx c') c.
Proof.
  unfold ReadFull_make. intros H. apply bind_inv in H as ([] & c1 & H1 & H).
  unfold lift in H1. injection H1 as H1 <-. apply makeslice_Ok in H1 as [H1 _].
  apply ReadFull_Ok in H as (? & H2 & ?). split; [done|]. split; [unfold len; lia|done].
Qed.

Lemma Write_Ok b c a c' : Write b c = (Ok a, c') -> exists e, c' = set_tx (tx c ++ b) e c.
Proof.
  unfold Write. destruct (tx_err c) as [[room e]|]; [destruct (_ <=? _)%nat; [|done]|]; intros [= <-]; eauto.
Qed.

Definition total {A} (m : M conn A) : Prop := forall c w, fst (m c) <> Panic w.

Lemma total_bind {A B} (m : M conn A) (k : A -> M conn B) :
  total m -> (forall a, total (k a)) -> total (bind m k).
Proof.
  intros Hm Hk c w. unfold bind. specialize (Hm c w).
  destruct (m c) as [[a|e|w'] c1]; simpl in *; [apply Hk|done|congruence].
Qed.

Lemma total_wrapf {A} (m : M conn A) s : total m -> total (wrapf m s).
Proof. intros H c w. specialize (H c w). unfold wrapf. by destruct (m c) as [[]]. Qed.

Lemma total_ReadUvarint : total ReadUvarint.
Proof.
  unfold ReadUvarint. generalize MaxVarintLen64 at 1 as f.
  assert (forall f i x s, total (ReadUvarint_loop f i x s)) as H; [|intros; apply H].
  induction f as [|f IH]; intros i x s; simpl; [done|]. apply total_bind.
  - intros c w. unfold ReadByte. by destruct (rx c).
  - intros b. destruct (_ <? _); [|apply IH]. by destruct (_ && _).
Qed.

(** As many iterations as there are bytes left are enough. *)
Lemma readTaggedFields_total f : forall n c w,
  (length (rx c) < f)%nat -> fst (readTaggedFields f n c) <> Panic w.
Proof.
  induction f as [|f IH]; intros n c w Hf; simpl; (destruct (n <=? 0); [done|]); [lia|].
  unfold bind at 1, wrapf. pose proof (total_ReadUvarint c w) as H1.
  destruct (ReadUvarint c) as [[t|e|w'] c1] eqn:E1; simpl in *; [|done|congruence].
  apply ReadUvarint_loop_consumes in E1.
  unfold bind at 1. pose proof (total_ReadUvarint c1 w) as H2.
  destruct (ReadUvarint c1) as [[size|e|w'] c2] eqn:E2; simpl in *; [|done|congruence].
  apply ReadUvarint_loop_consumes in E2. unfold bind.
  destruct (size =? 0); [apply IH; lia|].
  pose proof (reads_CopyN (int64 size) c2) as (b & Hb & _).
  unfold CopyN_discard in *. destruct (_ <=? _); simpl; [|done].
  simpl in Hb. apply (f_equal length) in Hb. rewrite length_app in Hb. apply IH. simpl. lia.
Qed.

Lemma MaybeRead_total r : total (MaybeRead r).
Proof.
  unfold MaybeRead. destruct (_ <=? _); [|done]. apply total_bind; [|done]. intros c w. unfold tee.
  enough (forall w, fst ((let* n := wrapf ReadUvarint "error while reading tagged field numTaggedFields" in
         let* c := get in readTaggedFields (S (length (rx c))) (int64 n)) c) <> Panic w) as H.
  { destruct (bind _ _ c) as [[a|e|w'] c1]; simpl in *; [done|done|]. intros [= ->]. by eapply H. }
  clear w. intros w. unfold bind at 1. pose proof (total_wrapf _ "error while reading tagged field numTaggedFields" total_ReadUvarint c w) as H1.
  destruct (wrapf _ _ c) as [[n|e|w'] c1]; simpl in *; [|done|congruence].
  apply (readTaggedFields_total (S (length (rx c1)))). lia.
Qed.

(** ** Reading the tagged fields a peer wrote *)

(** The connection with [b] in front of what is to be received. *)
Definition fed (b : bytes) (c : conn) : conn := set_rx (b ++ rx c) c.

Lemma ReadUvarint_loop_buf f : forall b i x s c v n,
  (i + f = 10)%nat ->
  Uvarint_loop b i x s = (v, Z.of_nat i + n) -> 0 < n -> n = len b ->
  ReadUvarint_loop f i x s (fed b c) = (Ok v, c).
Proof.
  induction f as [|f IH]; intros b i x s c v n Hi H Hn Hl.
  - destruct b as [|b0 b]; [rewrite len_nil in Hl; lia|]. simpl in H.
    replace (i =? MaxVarintLen64)%nat with true in H by (symmetry; apply Nat.eqb_eq; unfold MaxVarintLen64; lia).
    injection H as _ H. lia.
  - destruct b as [|b0 b]; [rewrite len_nil in Hl; lia|]. simpl in H |- *.
    replace (i =? MaxVarintLen64)%nat with false in H by (symmetry; apply Nat.eqb_neq; unfold MaxVarintLen64; lia).
    unfold bind at 1, ReadByte, fed at 1. simpl. rewrite len_cons in Hl.
    destruct (byteZ b0 <? 128).
    + replace (i =? MaxVarintLen64 - 1)%nat with (i =? 9)%nat in H by done. simpl.
      destruct ((i =? 9)%nat && (1 <? byteZ b0)); [injection H as _ H; lia|].
      injection H as <- H. assert (len b = 0) as Hb by lia.
      destruct b; [|rewrite len_cons in Hb; len_lia]. unfold ret, set_rx. simpl. by destruct c.
    + change (set_rx (b ++ rx c) (set_rx _ c)) with (fed b c).
      assert (len b = 0 \/ 0 < len b) as [Hb|Hb] by len_lia.
      { destruct b; [|rewrite len_cons in Hb; len_lia]. simpl in H. injection H as _ H. lia. }
      apply (IH b (S i) _ _ c v (n - 1)); [lia| |lia|lia]. rewrite H. f_equal. lia.
Qed.

Lemma ReadUvarint_fed x c : inU 64 x -> ReadUvarint (fed (PutUvarint x) c) = (Ok x, c).
Proof.
  intros Hx. pose proof (Uvarint_PutUvarint x [] Hx) as H. rewrite app_nil_r in H.
  pose proof (len_PutUvarint x) as Hl.
  by apply (ReadUvarint_loop_buf 10 _ 0 0 0 c x (len (PutUvarint x))); [| |lia|].
Qed.

Lemma fed_app a b c : fed (a ++ b) c = fed a (fed b c).
Proof. unfold fed, set_rx. simpl. by rewrite app_assoc. Qed.

Lemma fed_nil c : fed [] c = c.
Proof. apply set_rx_id. Qed.

Lemma CopyN_fed b c : CopyN_discard (len b) (fed b c) = (Ok tt, c).
Proof.
  unfold CopyN_discard, fed. simpl. rewrite len_app, to_nat_len, drop_app_length.
  replace (_ <=? _) with true by (symmetry; apply Z.leb_le; len_lia).
  unfold set_rx. simpl. by destruct c.
Qed.

Lemma readTaggedFields_step f n r b rest c :
  0 < n -> rawTaggedField_bytes r = Ok b ->
  readTaggedFields (S f) n (fed (b ++ rest) c) = readTaggedFields f (n - 1) (fed rest c).
Proof.
  intros Hn H. unfold rawTaggedField_bytes in H.
  apply rapp_Ok in H as (b1 & b2 & [= <-] & H2 & ->).
  cbn [readTaggedFields]. replace (n <=? 0) with false by (symmetry; apply Z.leb_gt; lia).
  rewrite <- app_assoc, fed_app. unfold varint_bytes.
  erewrite bind_Ok by (unfold wrapf; by rewrite ReadUvarint_fed by (apply wrapU_range; lia)).
  destruct (data r) as [d|]; simpl in H2.
  - apply limit_Ok in H2 as [Hl ->]. rewrite <- app_assoc, fed_app. unfold varint_bytes.
    erewrite bind_Ok by (unfold wrapf; by rewrite ReadUvarint_fed by (apply wrapU_range; lia)).
    rewrite wrapU_id by (unfold inU, MaxInt32 in *; len_lia).
    destruct (len d =? 0) eqn:E.
    + apply Z.eqb_eq in E. destruct d; [|rewrite len_cons in E; len_lia].
      by erewrite bind_Ok by reflexivity.
    + rewrite wrapS_id by (unfold inS, MaxInt32 in *; len_lia). rewrite fed_app.
      by erewrite bind_Ok by (unfold wrapf; by rewrite CopyN_fed).
  - injection H2 as <-. rewrite fed_app. unfold varint_bytes.
    erewrite bind_Ok by (unfold wrapf; by rewrite ReadUvarint_fed by (apply wrapU_range; lia)).
    change (uint64 (-1) =? 0) with false. change (int64 (uint64 (-1))) with (-1).
    erewrite bind_Ok; [done|]. unfold wrapf, CopyN_discard.
    replace (_ <=? _) with true by (symmetry; apply Z.leb_le; len_lia).
    by rewrite drop_0, set_rx_id.
Qed.

Lemma readTaggedFields_all l : forall f bs c,
  (length l < f)%nat -> foldr (fun r acc => rapp (rawTaggedField_bytes r) acc) (Ok []) l = Ok bs ->
  readTaggedFields f (len l) (fed bs c) = (Ok tt, c).
Proof.
  induction l as [|r l IH]; intros f bs c Hf H.
  - injection H as <-. rewrite fed_nil, len_nil. by destruct f.
  - simpl in H, Hf. apply rapp_Ok in H as (b1 & b2 & H1 & H2 & ->).
    destruct f as [|f]; [lia|]. rewrite (readTaggedFields_step _ _ r) by (rewrite ?len_cons; done || len_lia).
    rewrite len_cons. replace (1 + len l - 1) with (len l) by lia. apply IH; [lia|done].
Qed.

(** The tagged fields the encoder writes are taken whole, and nothing after
    them. *)
Lemma MaybeRead_tagged r l bs c :
  1 <= rhtf_version r -> tagged_typed l = true -> tagged_bytes l = Ok bs ->
  MaybeRead r (fed bs c) = (Ok bs, c).
Proof.
  intros Hv [Hl _]%andb_prop H. apply Z.leb_le in Hl. unfold MaybeRead.
  replace (_ <=? _) with true by (symmetry; apply Z.leb_le; lia).
  pose proof H as H'. unfold tagged_bytes in H. apply rapp_Ok in H as (b1 & b2 & [= <-] & H2 & ->).
  rewrite (bind_Ok _ _ _ c (tt, varint_bytes (len l) ++ b2)); [done|]. unfold tee.
  erewrite bind_Ok by (unfold wrapf, varint_bytes; rewrite fed_app;
    by rewrite ReadUvarint_fed by (apply wrapU_range; lia)).
  rewrite wrapS_wrapU, wrapS_id by (unfold inS; len_lia).
  assert (len l <= len b2) as Hlen.
  { apply foldr_rapp_inv in H2 as (g & -> & Hg). apply len_concat_ge. intros a Ha.
    specialize (Hg a Ha). unfold rawTaggedField_bytes in Hg. apply rapp_Ok in Hg as (x & y & [= <-] & _ & ->).
    rewrite len_app. pose proof (len_varint_bytes (tag a)). len_lia. }
  unfold bind, get. rewrite readTaggedFields_all;
    [|unfold fed; simpl; rewrite length_app; unfold len in *; lia|done].
  do 3 f_equal. unfold fed, set_rx. simpl.
  replace (_ - _)%nat with (length (varint_bytes (len l) ++ b2)) by (rewrite !length_app; lia).
  by rewrite take_app_length.
Qed.
