(* ===== verification/Filters.v ===== *)
(** The filter chain (proxy/filter_chain.go, pkg/filter/interface.go).  A
    filter is a plugin process with a state of its own: its two calls are
    methods on the state [F] of everything outside the proxy. *)
From Stdlib Require Import ZArith Lia Strings.Byte.
From stdpp Require Import base list strings gmap.
From S2P Require Import Prelude GoLib.

Section chain.
Context {F : Type}.

(** [RequestArgs]/[ResponseArgs] are the API key, the API version and the
    body; the results are a body. *)
Record filter := {
  OnRequest : Z -> Z -> bytes -> M F bytes;
  OnResponse : Z -> Z -> bytes -> M F bytes
}.

Abbreviation FilterChain := (list filter).

(** [for _, f := range c.filters] *)
Fixpoint ApplyRequestFilters (filters : FilterChain) (apiKey apiVersion : Z) (body : bytes)
    : M F bytes :=
  match filters with
  | [] => ret body
  | f :: filters' =>
      let* currentBody := OnRequest f apiKey apiVersion body in
      ApplyRequestFilters filters' apiKey apiVersion currentBody
  end.

(** [for i := n - 1; i >= 0; i--] *)
Fixpoint ApplyResponseFilters_loop (filters : FilterChain) (n : nat) (apiKey apiVersion : Z)
    (body : bytes) : M F bytes :=
  match n with
  | O => ret body
  | S i =>
      match filters !! i with
      | None => panic "index out of range"
      | Some f =>
          let* currentBody := OnResponse f apiKey apiVersion body in
          ApplyResponseFilters_loop filters i apiKey apiVersion currentBody
      end
  end.

Definition ApplyResponseFilters (filters : FilterChain) (apiKey apiVersion : Z) (body : bytes)
    : M F bytes :=
  ApplyResponseFilters_loop filters (length filters) apiKey apiVersion body.

(** ** Facts *)

(** The response loop is the request loop over the reversed chain with the
    calls swapped. *)
Definition swap (f : filter) : filter := {| OnRequest := OnResponse f; OnResponse := OnRequest f |}.

Lemma ApplyResponseFilters_loop_app filters extra n k v body l :
  (n <= length filters)%nat ->
  ApplyResponseFilters_loop (filters ++ extra) n k v body l =
  ApplyResponseFilters_loop filters n k v body l.
Proof.
  revert body l. induction n as [|n IH]; intros body l Hn; [done|].
  cbn [ApplyResponseFilters_loop]. rewrite lookup_app_l by lia. destruct (lookup_lt_is_Some_2 filters n) as [f ->]; [lia|].
  unfold bind. destruct (OnResponse f k v body l) as [[b|e|w] l1]; [|done..]. apply IH. lia.
Qed.

Lemma ApplyResponseFilters_rev filters k v body l :
  ApplyResponseFilters filters k v body l = ApplyRequestFilters (reverse (swap <$> filters)) k v body l.
Proof.
  revert body l. induction filters as [|f filters IH] using rev_ind; intros body l; [done|].
  unfold ApplyResponseFilters. rewrite length_app, Nat.add_1_r.
  cbn [ApplyResponseFilters_loop]. rewrite lookup_app_r, Nat.sub_diag by lia. simpl.
  rewrite fmap_app, reverse_app. simpl. unfold bind.
  destruct (OnResponse f k v body l) as [[b|e|w] l1]; [|done..].
  rewrite ApplyResponseFilters_loop_app by lia. apply IH.
Qed.

Lemma ApplyRequestFilters_app f1 f2 k v body l :
  ApplyRequestFilters (f1 ++ f2) k v body l =
  (let* b := ApplyRequestFilters f1 k v body in ApplyRequestFilters f2 k v b) l.
Proof.
  revert body l. induction f1 as [|f f1 IH]; intros body l; [done|]. simpl.
  rewrite bind_assoc. unfold bind at 1 2.
  destruct (OnRequest f k v body l) as [[b|e|w] l1]; [apply IH|done..].
Qed.

(** [f] decodes on responses what it encodes on requests, whatever its
    state. *)
Definition inverse (k v : Z) (f : filter) : Prop :=
  forall body l body' l', OnRequest f k v body l = (Ok body', l') ->
    forall l1, exists l2, OnResponse f k v body' l1 = (Ok body, l2).

Lemma chain_inverse filters k v body l body' l' :
  Forall (inverse k v) filters ->
  ApplyRequestFilters filters k v body l = (Ok body', l') ->
  forall l1, exists l2, ApplyResponseFilters filters k v body' l1 = (Ok body, l2).
Proof.
  intros Hall. revert body l body' l'.
  induction Hall as [|f filters Hf Hall IH]; intros body l body' l' H l1.
  - injection H as <- <-. by exists l1.
  - simpl in H. apply bind_inv in H as (b & l2 & H1 & H2).
    destruct (IH _ _ _ _ H2 l1) as [l3 H3]. destruct (Hf _ _ _ _ H1 l3) as [l4 H4]. exists l4.
    rewrite ApplyResponseFilters_rev in H3 |- *. rewrite fmap_cons, reverse_cons, ApplyRequestFilters_app.
    unfold bind. rewrite H3. simpl. unfold bind. by rewrite H4.
Qed.

End chain.
Arguments filter : clear implicits.
Abbreviation FilterChain F := (list (filter F)).
