(* ===== verification/SaslLocal.v ===== *)
(** SASL authentication of clients by the proxy itself (proxy/sasl_local.go,
    sasl_local_auth.go).

    The methods run on the client connection and on the state [X] of what is
    outside the proxy (the password and token plugins). *)
From Stdlib Require Import ZArith Lia Strings.Byte.
From stdpp Require Import base list strings gmap.
From S2P Require Import Prelude GoLib GoStrings OAuthBearer Encoder Decoder Errors Schema Messages Net.

(** ** Methods on a connection and the outside *)

Definition on_conn {X A} (m : M conn A) : M (conn * X) A := fun s =>
  let '(r, c) := m (fst s) in (r, (c, snd s)).
Definition on_ext {X A} (m : M X A) : M (conn * X) A := fun s =>
  let '(r, x) := m (snd s) in (r, (fst s, x)).

Definition SASLPlain : bytes := $"PLAIN".
Definition SASLOAuthBearer : bytes := $"OAUTHBEARER".

Section local.
Context {X : Type}.

(** [apis.PasswordAuthenticator] and [apis.TokenInfo]: plugins. *)
Abbreviation PasswordAuthenticator := (bytes -> bytes -> M X (bool * Z)).
Abbreviation TokenInfo := (bytes -> M X (bool * Z)).

(** [error.Error()] of an authentication error: the text sent to the client. *)
Context (Error_text : error -> bytes).

Inductive LocalSaslAuth :=
  | LocalSaslPlain (localAuthenticator : option PasswordAuthenticator)
  | LocalSaslOauth (tokenAuthenticator : TokenInfo).

Definition doLocalAuthPlain (localAuthenticator : option PasswordAuthenticator)
    (saslAuthBytes : bytes) : M X unit :=
  match Split x00 saslAuthBytes with
  | [_; user; password] =>
      match localAuthenticator with
      | None => fail (PacketDecodingError "Listener authenticator is not set")
      | Some Authenticate =>
          let* r := Authenticate user password in
          let '(ok, status) := r in
          if negb ok then fail (errLocalAuthFailed user) else ret tt
      end
  | _ => fail (Errorf "invalid SASL/PLAIN request: expected 3 tokens, got %d")
  end.

Definition doLocalAuthOauth (VerifyToken : TokenInfo) (saslAuthBytes : bytes) : M X unit :=
  let* response := lift (GetClientInitialResponse saslAuthBytes) in
  let '(token, _, _) := response in
  let* r := VerifyToken token in
  let '(Success, Status) := r in
  if negb Success then fail (Errorf "local oauth verify token failed with status: %d") else ret tt.

Definition doLocalAuth (a : LocalSaslAuth) (saslAuthBytes : option bytes) : M X unit :=
  match a with
  | LocalSaslPlain p => doLocalAuthPlain p (default [] saslAuthBytes)
  | LocalSaslOauth t => doLocalAuthOauth t (default [] saslAuthBytes)
  end.

Record LocalSasl := {
  enabled : bool;
  localAuthenticators : list (bytes * LocalSaslAuth)
}.

Definition NewLocalSasl (enabled : bool) (passwordAuthenticator : option PasswordAuthenticator)
    (tokenAuthenticator : option TokenInfo) : LocalSasl :=
  {| enabled := enabled;
     localAuthenticators :=
       match passwordAuthenticator with
       | Some p => [(SASLPlain, LocalSaslPlain (Some p))]
       | None => []
       end ++
       match tokenAuthenticator with
       | Some t => [(SASLOAuthBearer, LocalSaslOauth t)]
       | None => []
       end |}.

(** [p.localAuthenticators[mechanism]] *)
Definition authenticator (p : LocalSasl) (mechanism : bytes) : option LocalSaslAuth :=
  snd <$> (snd <$> list_find (fun e => fst e = mechanism) (localAuthenticators p)).

(** The error of an authentication, as a value. *)
Definition attempt {S A} (m : M S A) : M S (option error) := fun s =>
  match m s with
  | (Ok _, s') => (Ok None, s')
  | (Err e, s') => (Ok (Some e), s')
  | (Panic w, s') => (Panic w, s')
  end.

(** [protocol.Encode(x)] of a message that is not nil. *)
Definition EncodeMessage (e : encoder) : res bytes :=
  let? b := Encode (Some e) in Ok (default [] b).

(** [protocol.Decode(buf, x)] of a buffer that is not nil. *)
Definition DecodeMessage {A} (buf : bytes) (d : decoder A) : res A :=
  let? a := Decode (Some buf) d in
  match a with Some a => Ok a | None => Panic "unreachable" end.

(** Reads the request whose first 8 bytes are [keyVersionBuf]. *)
Definition readRequest (requestKeyVersion : RequestKeyVersion) (keyVersionBuf : bytes)
    : M (conn * X) bytes :=
  let* resp := on_conn (ReadFull_make (Length requestKeyVersion - 4)) in
  ret (drop 4 keyVersionBuf ++ resp).

(** Writes a response header and a response body. *)
Definition writeResponse (header : Z -> encoder) (headerLen : Z) (response : encoder)
    : M (conn * X) unit :=
  let* newResponseBuf := lift (EncodeMessage response) in
  let* newHeaderBuf := lift (EncodeMessage (header (int32 (len newResponseBuf + headerLen)))) in
  do* on_conn (Write newHeaderBuf) in
  on_conn (Write newResponseBuf).

Definition receiveAndSendSaslV0orV1 (p : LocalSasl) (keyVersionBuf : bytes) (version : Z)
    : M (conn * X) LocalSaslAuth :=
  do* on_conn SetDeadline in
  if negb (length keyVersionBuf =? 8)%nat then fail (Errorf "length of keyVersionBuf should be 8")
  else
    let* requestKeyVersion := lift (DecodeMessage keyVersionBuf RequestKeyVersion_decode) in
    if negb ((ApiKey requestKeyVersion =? 17) && (ApiVersion requestKeyVersion =? version)) then
      fail (Errorf "SaslHandshake version %d is expected, but got %d")
    else if MaxRequestSize <? Length requestKeyVersion then
      fail (PacketDecodingError "sasl handshake message of length %d too large")
    else
      let* payload := readRequest requestKeyVersion keyVersionBuf in
      let blank := {| Version := version; Mechanism := [] |} in
      let* req := lift (DecodeMessage payload
        (Request_decode {| CorrelationID := 0; ClientID := []; Body := Some blank |})) in
      let Mechanism := Mechanism (default blank (Body req)) in
      let localSaslAuth := authenticator p Mechanism in
      let saslErr := match localSaslAuth with
                     | Some _ => KErrNoError
                     | None => KErrUnsupportedSASLMechanism
                     end in
      do* writeResponse
            (fun n => ResponseHeader_encode {| rh_Length := n; rh_CorrelationID := CorrelationID req |}) 4
            (SaslHandshakeResponseV0orV1_encode
               {| shr_Err := saslErr; EnabledMechanisms := Some [Mechanism] |}) in
      match localSaslAuth with
      | Some a => ret a
      | None => fail (Errorf "PLAIN or OAUTHBEARER mechanism expected, %v are configured, but got %s")
      end.

(** The reply of a [SaslAuthenticate] request, then the authentication error
    if there is one. *)
Definition replyAuth (authErr : option error) (reply : KError -> option bytes -> M (conn * X) unit)
    : M (conn * X) unit :=
  match authErr with
  | None => reply KErrNoError None
  | Some e => do* reply KErrSASLAuthenticationFailed (Some (Error_text e)) in fail e
  end.

Definition replyHeaderV0 (corr : Z) : Z -> encoder := fun n =>
  ResponseHeader_encode {| rh_Length := n; rh_CorrelationID := corr |}.
Definition replyHeaderV1 (corr : Z) : Z -> encoder := fun n =>
  ResponseHeaderV1_encode {| rh1_Length := n; rh1_CorrelationID := corr; RawTaggedFields := [] |}.

Definition authenticateV0 (localSaslAuth : LocalSaslAuth) (payload : bytes) : M (conn * X) unit :=
  let* req := lift (DecodeMessage payload (Request_decode
    {| CorrelationID := 0; ClientID := []; Body := Some {| sar0_SaslAuthBytes := None |} |})) in
  let* authErr := on_ext (attempt (doLocalAuth localSaslAuth (Body req ≫= sar0_SaslAuthBytes))) in
  replyAuth authErr (fun code msg =>
    writeResponse (replyHeaderV0 (CorrelationID req)) 4
      (SaslAuthenticateResponseV0_encode
         {| sap0_Err := code; sap0_ErrMsg := msg; sap0_SaslAuthBytes := Some [] |})).

Definition authenticateV1 (localSaslAuth : LocalSaslAuth) (payload : bytes) : M (conn * X) unit :=
  let* req := lift (DecodeMessage payload (Request_decode
    {| CorrelationID := 0; ClientID := []; Body := Some {| sar1_SaslAuthBytes := None |} |})) in
  let* authErr := on_ext (attempt (doLocalAuth localSaslAuth (Body req ≫= sar1_SaslAuthBytes))) in
  replyAuth authErr (fun code msg =>
    writeResponse (replyHeaderV0 (CorrelationID req)) 4
      (SaslAuthenticateResponseV1_encode
         {| sap1_Err := code; sap1_ErrMsg := msg; sap1_SaslAuthBytes := Some [];
            sap1_SessionLifetimeMs := 0 |})).

Definition authenticateV2 (localSaslAuth : LocalSaslAuth) (payload : bytes) : M (conn * X) unit :=
  let* req := lift (DecodeMessage payload (RequestV2_decode
    {| r2_CorrelationID := 0; r2_ClientID := []; r2_TaggedFields := [];
       r2_Body := Some {| sar2_SaslAuthBytes := []; sar2_TaggedFields := [] |} |})) in
  let* authErr := on_ext (attempt (doLocalAuth localSaslAuth (sar2_SaslAuthBytes <$> r2_Body req))) in
  replyAuth authErr (fun code msg =>
    writeResponse (replyHeaderV1 (r2_CorrelationID req)) 5
      (SaslAuthenticateResponseV2_encode
         {| sap2_Err := code; sap2_ErrMsg := msg; sap2_SaslAuthBytes := [];
            sap2_SessionLifetimeMs := 0; sap2_TaggedFields := [] |})).

Definition receiveAndSendAuthV1 (localSaslAuth : LocalSaslAuth) : M (conn * X) unit :=
  do* on_conn SetDeadline in
  let* keyVersionBuf := on_conn (ReadFull 8) in
  let* requestKeyVersion := lift (DecodeMessage keyVersionBuf RequestKeyVersion_decode) in
  if negb (ApiKey requestKeyVersion =? 36) then
    fail (Errorf "SaslAuthenticate is expected, but got apiKey %d")
  else if MaxRequestSize <? Length requestKeyVersion then
    fail (PacketDecodingError "sasl authenticate message of length %d too large")
  else
    let* payload := readRequest requestKeyVersion keyVersionBuf in
    if ApiVersion requestKeyVersion =? 0 then authenticateV0 localSaslAuth payload
    else if ApiVersion requestKeyVersion =? 1 then authenticateV1 localSaslAuth payload
    else if ApiVersion requestKeyVersion =? 2 then authenticateV2 localSaslAuth payload
    else fail (Errorf "SaslAuthenticate version 0,1 or 2 is expected, apiVersion %d").

(** [length] is the [uint32] of the size bytes; the limit is checked on its
    [int32] conversion. *)
Definition receiveAndSendAuthV0 (localSaslAuth : option LocalSaslAuth) : M (conn * X) unit :=
  do* on_conn SetDeadline in
  let* sizeBuf := on_conn (ReadFull 4) in
  let length := be_value sizeBuf in
  if MaxRequestSize <? int32 length then fail (PacketDecodingError "auth message of length %d too large")
  else
    let* saslAuthBytes := on_conn (ReadFull_make length) in
    match localSaslAuth with
    | None => fail (Errorf "localSaslAuth is nil")
    | Some a =>
        do* on_ext (doLocalAuth a (Some saslAuthBytes)) in
        on_conn (Write (replicate 4 x00))
    end.

Definition receiveAndSendSASLAuthV1 (p : LocalSasl) (readKeyVersionBuf : bytes) : M (conn * X) unit :=
  let* localSaslAuth := receiveAndSendSaslV0orV1 p readKeyVersionBuf 1 in
  receiveAndSendAuthV1 localSaslAuth.

Definition receiveAndSendSASLAuthV0 (p : LocalSasl) (readKeyVersionBuf : bytes) : M (conn * X) unit :=
  let* localSaslAuth := receiveAndSendSaslV0orV1 p readKeyVersionBuf 0 in
  receiveAndSendAuthV0 (Some localSaslAuth).

End local.
Arguments LocalSaslAuth : clear implicits.
Arguments LocalSasl : clear implicits.
