(* ===== verification/Responses.v ===== *)
(** Rewriting broker addresses in Metadata and FindCoordinator responses
    (proxy/protocol/responses.go): the response schemas, the modifiers and
    [responseModifier.Apply].

    [config.NetAddressMappingFunc] may start listeners, so it is a method on
    the state [L] of whoever provides it. *)
From Stdlib Require Import ZArith Lia Strings.Byte.
From stdpp Require Import base list strings gmap.
From S2P Require Import Prelude GoLib Encoder Decoder Schema SchemaFacts.

Definition apiKeyMetadata : Z := 3.
Definition apiKeyFindCoordinator : Z := 10.
Definition brokersKeyName : string := "brokers".
Definition hostKeyName : string := "host".
Definition portKeyName : string := "port".
Definition nodeKeyName : string := "node_id".
Definition coordinatorKeyName : string := "coordinator".
Definition coordinatorsKeyName : string := "coordinators".

(** ** Schemas *)

Definition metadataBrokerV0 : Schema := schema "metadata_broker_v0" [
  Mfield nodeKeyName TypeInt32;
  Mfield hostKeyName TypeStr;
  Mfield portKeyName TypeInt32
].
Definition partitionMetadataV0 : Schema := schema "partition_metadata_v0" [
  Mfield "error_code" TypeInt16;
  Mfield "partition" TypeInt32;
  Mfield "leader" TypeInt32;
  Array "replicas" TypeInt32;
  Array "isr" TypeInt32
].
Definition topicMetadataV0 : Schema := schema "topic_metadata_v0" [
  Mfield "error_code" TypeInt16;
  Mfield "topic" TypeStr;
  Array "partition_metadata" partitionMetadataV0
].
Definition metadataResponseV0 : Schema := schema "metadata_response_v0" [
  Array brokersKeyName metadataBrokerV0;
  Array "topic_metadata" topicMetadataV0
].
Definition metadataBrokerV1 : Schema := schema "metadata_broker_v1" [
  Mfield nodeKeyName TypeInt32;
  Mfield hostKeyName TypeStr;
  Mfield portKeyName TypeInt32;
  Mfield "rack" TypeNullableStr
].
Definition metadataBrokerSchema9 : Schema := schema "metadata_broker_schema9" [
  Mfield nodeKeyName TypeInt32;
  Mfield hostKeyName TypeCompactStr;
  Mfield portKeyName TypeInt32;
  Mfield "rack" TypeCompactNullableStr;
  SchemaTaggedFields "broker_tagged_fields"
].
Definition partitionMetadataV1 : Schema := partitionMetadataV0.
Definition partitionMetadataV2 : Schema := schema "partition_metadata_v2" [
  Mfield "error_code" TypeInt16;
  Mfield "partition" TypeInt32;
  Mfield "leader" TypeInt32;
  Array "replicas" TypeInt32;
  Array "isr" TypeInt32;
  Array "offline_replicas" TypeInt32
].
Definition partitionMetadataV7 : Schema := schema "partition_metadata_v7" [
  Mfield "error_code" TypeInt16;
  Mfield "partition" TypeInt32;
  Mfield "leader" TypeInt32;
  Mfield "leader_epoch" TypeInt32;
  Array "replicas" TypeInt32;
  Array "isr" TypeInt32;
  Array "offline_replicas" TypeInt32
].
Definition partitionMetadataSchema9 : Schema := schema "partition_metadata_schema9" [
  Mfield "error_code" TypeInt16;
  Mfield "partition" TypeInt32;
  Mfield "leader" TypeInt32;
  Mfield "leader_epoch" TypeInt32;
  CompactArray "replicas" TypeInt32;
  CompactArray "isr" TypeInt32;
  CompactArray "offline_replicas" TypeInt32;
  SchemaTaggedFields "partition_metadata_tagged_fields"
].
Definition topicMetadataV1 : Schema := schema "topic_metadata_v1" [
  Mfield "error_code" TypeInt16;
  Mfield "topic" TypeStr;
  Mfield "is_internal" TypeBool;
  Array "partition_metadata" partitionMetadataV1
].
Definition topicMetadataV2 : Schema := schema "topic_metadata_v2" [
  Mfield "error_code" TypeInt16;
  Mfield "topic" TypeStr;
  Mfield "is_internal" TypeBool;
  Array "partition_metadata" partitionMetadataV2
].
Definition topicMetadataV7 : Schema := schema "topic_metadata_v7" [
  Mfield "error_code" TypeInt16;
  Mfield "topic" TypeStr;
  Mfield "is_internal" TypeBool;
  Array "partition_metadata" partitionMetadataV7
].
Definition topicMetadataV8 : Schema := schema "topic_metadata_v8" [
  Mfield "error_code" TypeInt16;
  Mfield "name" TypeStr;
  Mfield "is_internal" TypeBool;
  Array "partition_metadata" partitionMetadataV7;
  Mfield "topic_authorized_operations" TypeInt32
].
Definition topicMetadataSchema9 : Schema := schema "topic_metadata_schema9" [
  Mfield "error_code" TypeInt16;
  Mfield "name" TypeCompactStr;
  Mfield "is_internal" TypeBool;
  CompactArray "partition_metadata" partitionMetadataSchema9;
  Mfield "topic_authorized_operations" TypeInt32;
  SchemaTaggedFields "topic_metadata_tagged_fields"
].
Definition topicMetadataSchema10 : Schema := schema "topic_metadata_schema10" [
  Mfield "error_code" TypeInt16;
  Mfield "name" TypeCompactStr;
  Mfield "topic_id" TypeUuid;
  Mfield "is_internal" TypeBool;
  CompactArray "partition_metadata" partitionMetadataSchema9;
  Mfield "topic_authorized_operations" TypeInt32;
  SchemaTaggedFields "topic_metadata_tagged_fields"
].
Definition topicMetadataSchema12 : Schema := schema "topic_metadata_schema12" [
  Mfield "error_code" TypeInt16;
  Mfield "name" TypeCompactNullableStr;
  Mfield "topic_id" TypeUuid;
  Mfield "is_internal" TypeBool;
  CompactArray "partition_metadata" partitionMetadataSchema9;
  Mfield "topic_authorized_operations" TypeInt32;
  SchemaTaggedFields "topic_metadata_tagged_fields"
].
Definition metadataResponseV1 : Schema := schema "metadata_response_v1" [
  Array brokersKeyName metadataBrokerV1;
  Mfield "controller_id" TypeInt32;
  Array "topic_metadata" topicMetadataV1
].
Definition metadataResponseV2 : Schema := schema "metadata_response_v2" [
  Array brokersKeyName metadataBrokerV1;
  Mfield "cluster_id" TypeNullableStr;
  Mfield "controller_id" TypeInt32;
  Array "topic_metadata" topicMetadataV1
].
Definition metadataResponseV3 : Schema := schema "metadata_response_v3" [
  Mfield "throttle_time_ms" TypeInt32;
  Array brokersKeyName metadataBrokerV1;
  Mfield "cluster_id" TypeNullableStr;
  Mfield "controller_id" TypeInt32;
  Array "topic_metadata" topicMetadataV1
].
Definition metadataResponseV4 : Schema := metadataResponseV3.
Definition metadataResponseV5 : Schema := schema "metadata_response_v5" [
  Mfield "throttle_time_ms" TypeInt32;
  Array brokersKeyName metadataBrokerV1;
  Mfield "cluster_id" TypeNullableStr;
  Mfield "controller_id" TypeInt32;
  Array "topic_metadata" topicMetadataV2
].
Definition metadataResponseV6 : Schema := metadataResponseV5.
Definition metadataResponseV7 : Schema := schema "metadata_response_v7" [
  Mfield "throttle_time_ms" TypeInt32;
  Array brokersKeyName metadataBrokerV1;
  Mfield "cluster_id" TypeNullableStr;
  Mfield "controller_id" TypeInt32;
  Array "topic_metadata" topicMetadataV7
].
Definition metadataResponseV8 : Schema := schema "metadata_response_v8" [
  Mfield "throttle_time_ms" TypeInt32;
  Array brokersKeyName metadataBrokerV1;
  Mfield "cluster_id" TypeNullableStr;
  Mfield "controller_id" TypeInt32;
  Array "topic_metadata" topicMetadataV8;
  Mfield "cluster_authorized_operations" TypeInt32
].
Definition metadataResponseV9 : Schema := schema "metadata_response_v9" [
  Mfield "throttle_time_ms" TypeInt32;
  CompactArray brokersKeyName metadataBrokerSchema9;
  Mfield "cluster_id" TypeCompactNullableStr;
  Mfield "controller_id" TypeInt32;
  CompactArray "topic_metadata" topicMetadataSchema9;
  Mfield "cluster_authorized_operations" TypeInt32;
  SchemaTaggedFields "response_tagged_fields"
].
Definition metadataResponseV10 : Schema := schema "metadata_response_v10" [
  Mfield "throttle_time_ms" TypeInt32;
  CompactArray brokersKeyName metadataBrokerSchema9;
  Mfield "cluster_id" TypeCompactNullableStr;
  Mfield "controller_id" TypeInt32;
  CompactArray "topic_metadata" topicMetadataSchema10;
  Mfield "cluster_authorized_operations" TypeInt32;
  SchemaTaggedFields "response_tagged_fields"
].
Definition metadataResponseV11 : Schema := schema "metadata_response_v11" [
  Mfield "throttle_time_ms" TypeInt32;
  CompactArray brokersKeyName metadataBrokerSchema9;
  Mfield "cluster_id" TypeCompactNullableStr;
  Mfield "controller_id" TypeInt32;
  CompactArray "topic_metadata" topicMetadataSchema10;
  SchemaTaggedFields "response_tagged_fields"
].
Definition metadataResponseV12 : Schema := schema "metadata_response_v12" [
  Mfield "throttle_time_ms" TypeInt32;
  CompactArray brokersKeyName metadataBrokerSchema9;
  Mfield "cluster_id" TypeCompactNullableStr;
  Mfield "controller_id" TypeInt32;
  CompactArray "topic_metadata" topicMetadataSchema12;
  SchemaTaggedFields "response_tagged_fields"
].
Definition metadataResponseV13 : Schema := schema "metadata_response_v13" [
  Mfield "throttle_time_ms" TypeInt32;
  CompactArray brokersKeyName metadataBrokerSchema9;
  Mfield "cluster_id" TypeCompactNullableStr;
  Mfield "controller_id" TypeInt32;
  CompactArray "topic_metadata" topicMetadataSchema12;
  Mfield "error_code" TypeInt16;
  SchemaTaggedFields "response_tagged_fields"
].

Definition metadataResponseSchemaVersions : list Schema := [
  metadataResponseV0; metadataResponseV1; metadataResponseV2; metadataResponseV3;
  metadataResponseV4; metadataResponseV5; metadataResponseV6; metadataResponseV7;
  metadataResponseV8; metadataResponseV9; metadataResponseV10; metadataResponseV11;
  metadataResponseV12; metadataResponseV13
].

Definition findCoordinatorBrokerV0 : Schema := schema "find_coordinator_broker_v0" [
  Mfield nodeKeyName TypeInt32;
  Mfield hostKeyName TypeStr;
  Mfield portKeyName TypeInt32
].
Definition findCoordinatorBrokerSchema9 : Schema := schema "find_coordinator_broker_schema9" [
  Mfield nodeKeyName TypeInt32;
  Mfield hostKeyName TypeCompactStr;
  Mfield portKeyName TypeInt32
].
Definition findCoordinatorResponseV0 : Schema := schema "find_coordinator_response_v0" [
  Mfield "error_code" TypeInt16;
  Mfield coordinatorKeyName findCoordinatorBrokerV0
].
Definition findCoordinatorResponseV1 : Schema := schema "find_coordinator_response_v1" [
  Mfield "throttle_time_ms" TypeInt32;
  Mfield "error_code" TypeInt16;
  Mfield "error_message" TypeNullableStr;
  Mfield coordinatorKeyName findCoordinatorBrokerV0
].
Definition findCoordinatorResponseV2 : Schema := findCoordinatorResponseV1.
Definition findCoordinatorResponseV3 : Schema := schema "find_coordinator_response_v3" [
  Mfield "throttle_time_ms" TypeInt32;
  Mfield "error_code" TypeInt16;
  Mfield "error_message" TypeCompactNullableStr;
  Mfield coordinatorKeyName findCoordinatorBrokerSchema9;
  SchemaTaggedFields "response_tagged_fields"
].
Definition findCoordinatorCoordinatorsSchema4 : Schema := schema "find_coordinator_coordinators_schema4" [
  Mfield "key" TypeCompactStr;
  Mfield coordinatorKeyName findCoordinatorBrokerSchema9;
  Mfield "error_code" TypeInt16;
  Mfield "error_message" TypeCompactNullableStr;
  SchemaTaggedFields "coordinators_tagged_fields"
].
Definition findCoordinatorResponseV4 : Schema := schema "find_coordinator_response_v4" [
  Mfield "throttle_time_ms" TypeInt32;
  CompactArray coordinatorsKeyName findCoordinatorCoordinatorsSchema4;
  SchemaTaggedFields "response_tagged_fields"
].
Definition findCoordinatorResponseV5 : Schema := findCoordinatorResponseV4.
Definition findCoordinatorResponseV6 : Schema := findCoordinatorResponseV5.

Definition findCoordinatorResponseSchemaVersions : list Schema := [
  findCoordinatorResponseV0; findCoordinatorResponseV1; findCoordinatorResponseV2;
  findCoordinatorResponseV3; findCoordinatorResponseV4; findCoordinatorResponseV5;
  findCoordinatorResponseV6
].

(** ** Modifiers *)

(** [config.NetAddressMappingFunc]: broker host, port and id to listener host
    and port. *)
Definition NetAddressMappingFunc (L : Type) : Type := bytes -> Z -> Z -> M L (bytes * Z).

(** The struct behind a pointer field after an update through the pointer. *)
Definition Struct_update (s : Struct) (name : string) (v : value) : Struct :=
  match GetFieldsByName (Struct_Schema s) name with
  | Some i => {| Struct_Schema := Struct_Schema s; Struct_Values := <[i := v]> (Struct_Values s) |}
  | None => s
  end.

Definition VPtr (s : Struct) : value := VStruct (Struct_Schema s) (Struct_Values s).

Section modifiers.
Context {L : Type}.

(** The part [modifyMetadataResponse] and [modifyCoordinator] share: read the
    three address fields, ask the mapping, replace what changed. *)
Definition rewriteAddress (noHost noPort noNode : string)
    (fn : NetAddressMappingFunc L) (b : Struct) : M L Struct :=
  match Struct_Get b hostKeyName with
  | VString host =>
      match Struct_Get b portKeyName with
      | VInt32 port =>
          match Struct_Get b nodeKeyName with
          | VInt32 nodeId =>
              if bool_decide (host = []) && (port <=? 0) then ret b
              else
                let* r := fn host port nodeId in
                let '(newHost, newPort) := r in
                let* b := (if bool_decide (host = newHost) then ret b
                           else lift (Struct_Replace b hostKeyName (VString newHost))) in
                if port =? newPort then ret b
                else lift (Struct_Replace b portKeyName (VInt32 newPort))
          | _ => fail (Errorf noNode)
          end
      | _ => fail (Errorf noPort)
      end
  | _ => fail (Errorf noHost)
  end.

(** [for _, e := range array { f(e.( *Struct)) }], the elements updated in
    place. *)
Fixpoint forStructs (f : Struct -> M L Struct) (l : list value) : M L (list value) :=
  match l with
  | [] => ret []
  | VStruct sch vs :: l' =>
      let* s := f {| Struct_Schema := sch; Struct_Values := vs |} in
      let* r := forStructs f l' in
      ret (VPtr s :: r)
  | _ :: _ => panic "interface conversion: interface {} is not *protocol.Struct"
  end.

Definition modifyBroker (fn : NetAddressMappingFunc L) : Struct -> M L Struct :=
  rewriteAddress "broker.host not found" "broker.port not found" "broker.node_id not found" fn.

Definition modifyMetadataResponse
    (decodedStruct : option Struct) (fn : option (NetAddressMappingFunc L)) : M L Struct :=
  match decodedStruct with
  | None => fail (Errorf "decoded struct must not be nil")
  | Some decodedStruct =>
      match fn with
      | None => fail (Errorf "net address mapper must not be nil")
      | Some fn =>
          match Struct_Get decodedStruct brokersKeyName with
          | VArray brokersArray =>
              let* brokers := forStructs (modifyBroker fn) brokersArray in
              ret (Struct_update decodedStruct brokersKeyName (VArray brokers))
          | _ => fail (Errorf "brokers list not found")
          end
      end
  end.

Definition modifyCoordinator (decodedStruct : Struct) (fn : NetAddressMappingFunc L) : M L Struct :=
  match Struct_Get decodedStruct coordinatorKeyName with
  | VStruct sch vs =>
      let* c := rewriteAddress "coordinator.host not found" "coordinator.port not found"
                  "coordinator.node_id not found" fn
                  {| Struct_Schema := sch; Struct_Values := vs |} in
      ret (Struct_update decodedStruct coordinatorKeyName (VPtr c))
  | _ => fail (Errorf "coordinator not found")
  end.

Definition modifyFindCoordinatorResponse
    (decodedStruct : option Struct) (fn : option (NetAddressMappingFunc L)) : M L Struct :=
  match decodedStruct with
  | None => fail (Errorf "decoded struct must not be nil")
  | Some decodedStruct =>
      match fn with
      | None => fail (Errorf "net address mapper must not be nil")
      | Some fn =>
          match Struct_Get decodedStruct coordinatorsKeyName with
          | VNil => modifyCoordinator decodedStruct fn
          | VArray coordinatorsArray =>
              let* cs := forStructs (fun c => modifyCoordinator c fn) coordinatorsArray in
              ret (Struct_update decodedStruct coordinatorsKeyName (VArray cs))
          | _ => fail (Errorf "coordinators list not found")
          end
      end
  end.

(** ** [ResponseModifier] *)

Record responseModifier := {
  rm_schema : Schema;
  modifyResponseFunc : option Struct -> option (NetAddressMappingFunc L) -> M L Struct;
  netAddressMappingFunc : option (NetAddressMappingFunc L)
}.

Definition Apply (f : responseModifier) (resp : option bytes) : M L (option bytes) :=
  let* decodedStruct := lift (DecodeSchema resp (rm_schema f)) in
  let* decodedStruct := modifyResponseFunc f decodedStruct (netAddressMappingFunc f) in
  lift (EncodeSchema (Some decodedStruct) (rm_schema f)).

Definition getResponseSchema (apiKey apiVersion : Z) (schemas : list Schema) : res Schema :=
  if (apiVersion <? 0) || (len schemas <=? apiVersion)
  then Err (Errorf "Unsupported response schema version %d for key %d ")
  else match schemas !! Z.to_nat apiVersion with
       | Some s => Ok s
       | None => Panic "index out of range"
       end.

Definition newResponseModifier (apiKey apiVersion : Z) (fn : option (NetAddressMappingFunc L))
    (schemas : list Schema)
    (modify : option Struct -> option (NetAddressMappingFunc L) -> M L Struct)
    : res (option responseModifier) :=
  let? sch := getResponseSchema apiKey apiVersion schemas in
  Ok (Some {| rm_schema := sch; modifyResponseFunc := modify; netAddressMappingFunc := fn |}).

Definition GetResponseModifier (apiKey apiVersion : Z) (fn : option (NetAddressMappingFunc L))
    : res (option responseModifier) :=
  if apiKey =? apiKeyMetadata then
    newResponseModifier apiKey apiVersion fn metadataResponseSchemaVersions modifyMetadataResponse
  else if apiKey =? apiKeyFindCoordinator then
    newResponseModifier apiKey apiVersion fn findCoordinatorResponseSchemaVersions
      modifyFindCoordinatorResponse
  else Ok None.

End modifiers.

Arguments responseModifier : clear implicits.
