(* ===== verification/ResponsesFacts.v ===== *)
(** Correctness of the response modifiers: what [Apply] does to a decoded
    response, for every supported version of both responses. *)
From Stdlib Require Import ZArith Lia Strings.Byte.
From stdpp Require Import base list strings gmap.
From S2P Require Import Prelude GoLib Encoder Decoder Schema SchemaFacts Responses.

(** ** Typed structs *)

Definition struct_typed (st : Struct) : bool := typed (Struct_Schema st) (VPtr st).

Lemma typed_fields_insert fs : forall vs i f v,
  typed_fields fs vs = true -> fs !! i = Some f -> typed_field f v = true ->
  typed_fields fs (<[i := v]> vs) = true.
Proof.
  induction fs as [|g fs IH]; intros [|w vs] i f v H Hf Hv; try done.
  simpl in H. apply andb_prop in H as [H1 H2].
  destruct i as [|i]; simpl in *; simplify_eq; rewrite andb_true_iff; [done|].
  split; [done|]. by eapply IH.
Qed.

Lemma typed_fields_lookup fs : forall vs i f,
  typed_fields fs vs = true -> fs !! i = Some f ->
  exists v, vs !! i = Some v /\ typed_field f v = true.
Proof.
  induction fs as [|g fs IH]; intros [|w vs] i f H Hf; try done.
  simpl in H. apply andb_prop in H as [H1 H2].
  destruct i as [|i]; simpl in *; simplify_eq; eauto.
Qed.

(** The field [name] of schema [s]. *)
Definition field_of (s : Schema) (name : string) : option Field :=
  GetFieldsByName s name ≫= fun i => GetFields s !! i.

Lemma struct_typed_inv st :
  GetFields (Struct_Schema st) <> [] ->
  struct_typed st = true <-> typed_fields (GetFields (Struct_Schema st)) (Struct_Values st) = true.
Proof.
  intros Hne. destruct st as [sch vs]. unfold struct_typed, VPtr. simpl in *.
  destruct sch; try done. simpl GetFields. rewrite typed_schema. naive_solver.
Qed.

Lemma field_of_nonempty s name f : field_of s name = Some f -> GetFields s <> [].
Proof. unfold field_of, GetFieldsByName. by destruct (GetFields s). Qed.

Lemma Struct_Get_typed st name f :
  struct_typed st = true -> field_of (Struct_Schema st) name = Some f ->
  typed_field f (Struct_Get st name) = true.
Proof.
  intros Ht Hf. pose proof (field_of_nonempty _ _ _ Hf) as Hne.
  rewrite struct_typed_inv in Ht by done. unfold field_of in Hf. unfold Struct_Get.
  destruct (GetFieldsByName _ name) as [i|]; [|done]. simpl in Hf.
  destruct (typed_fields_lookup _ _ _ _ Ht Hf) as (v & -> & Hv). done.
Qed.

Lemma Struct_update_schema st name v :
  Struct_Schema (Struct_update st name v) = Struct_Schema st.
Proof. unfold Struct_update. by destruct (GetFieldsByName _ _). Qed.

Lemma Struct_update_typed st name f v :
  struct_typed st = true -> field_of (Struct_Schema st) name = Some f -> typed_field f v = true ->
  struct_typed (Struct_update st name v) = true.
Proof.
  intros Ht Hf Hv. pose proof (field_of_nonempty _ _ _ Hf) as Hne.
  rewrite struct_typed_inv by (by rewrite Struct_update_schema).
  rewrite struct_typed_inv in Ht by done. rewrite Struct_update_schema.
  unfold field_of in Hf. unfold Struct_update.
  destruct (GetFieldsByName _ name) as [i|]; [|done]. by eapply typed_fields_insert.
Qed.

Lemma Struct_Get_lookup st name f :
  struct_typed st = true -> field_of (Struct_Schema st) name = Some f ->
  exists i, GetFieldsByName (Struct_Schema st) name = Some i /\
            Struct_Values st !! i = Some (Struct_Get st name).
Proof.
  intros Ht Hf. pose proof (field_of_nonempty _ _ _ Hf) as Hne.
  rewrite struct_typed_inv in Ht by done. unfold field_of in Hf. unfold Struct_Get.
  destruct (GetFieldsByName _ name) as [i|]; [|done]. simpl in Hf.
  destruct (typed_fields_lookup _ _ _ _ Ht Hf) as (v & Hv & _). exists i. by rewrite Hv.
Qed.

(** Updating a field with its own value changes nothing. *)
Lemma Struct_update_id st name f :
  struct_typed st = true -> field_of (Struct_Schema st) name = Some f ->
  Struct_update st name (Struct_Get st name) = st.
Proof.
  intros Ht Hf. destruct (Struct_Get_lookup st name f Ht Hf) as (i & Hi & Hv).
  unfold Struct_update. rewrite Hi, list_insert_id by done. by destruct st.
Qed.

(** [Replace] of a field by a value of the same kind is the update. *)
Lemma Struct_Replace_update st name f v :
  struct_typed st = true -> field_of (Struct_Schema st) name = Some f ->
  kind_of v <> None -> kind_of v = kind_of (Struct_Get st name) ->
  Struct_Replace st name v = Ok (Struct_update st name v).
Proof.
  intros Ht Hf Hk Hkk. destruct (Struct_Get_lookup st name f Ht Hf) as (i & Hi & Hv).
  unfold Struct_Replace, Struct_update. rewrite Hi, Hv. rewrite <- Hkk.
  destruct (kind_of v); [|done]. by rewrite decide_True.
Qed.

Lemma Struct_Get_update_eq st name f v :
  struct_typed st = true -> field_of (Struct_Schema st) name = Some f ->
  Struct_Get (Struct_update st name v) name = v.
Proof.
  intros Ht Hf. destruct (Struct_Get_lookup st name f Ht Hf) as (i & Hi & Hv).
  unfold Struct_Get. rewrite Struct_update_schema, Hi. unfold Struct_update. rewrite Hi. simpl.
  rewrite list_lookup_insert_eq; [done|]. by eapply lookup_lt_Some.
Qed.

Lemma field_index_inj fs : forall a b i,
  field_index fs a = Some i -> field_index fs b = Some i -> a = b.
Proof.
  induction fs as [|f fs IH]; intros a b i Ha Hb; simpl in *; [done|].
  destruct (decide (Field_GetName f = a)), (decide (Field_GetName f = b)); try congruence;
    destruct (field_index fs a) eqn:Ea, (field_index fs b) eqn:Eb; simplify_eq/=; try done.
  by eapply IH.
Qed.

Lemma Struct_Get_update_ne st name name' v :
  name <> name' -> Struct_Get (Struct_update st name v) name' = Struct_Get st name'.
Proof.
  intros Hne. unfold Struct_Get. rewrite Struct_update_schema. unfold Struct_update.
  destruct (GetFieldsByName _ name) as [i|] eqn:Ei; [|done].
  destruct (GetFieldsByName _ name') as [j|] eqn:Ej; [|done]. simpl.
  rewrite list_lookup_insert_ne; [done|]. intros ->. apply Hne. by eapply field_index_inj.
Qed.

(** ** Schemas of addresses and of the responses *)

Definition is_string_field (f : Field) : bool :=
  match f with Mfield _ TypeStr | Mfield _ TypeCompactStr => true | _ => false end.
Definition is_int32_field (f : Field) : bool :=
  match f with Mfield _ TypeInt32 => true | _ => false end.
Definition holds_field (p : Field -> bool) (s : Schema) (name : string) : bool :=
  match field_of s name with Some f => p f | None => false end.

(** A struct with a host, a port and a node id. *)
Definition address_schema (s : Schema) : bool :=
  holds_field is_string_field s hostKeyName && holds_field is_int32_field s portKeyName &&
  holds_field is_int32_field s nodeKeyName.

(** A field holding a list of structs of a schema satisfying [p]. *)
Definition struct_list_field (p : Schema -> bool) (f : Field) : bool :=
  match f with Array _ s | CompactArray _ s => p s | _ => false end.
Definition struct_field (p : Schema -> bool) (f : Field) : bool :=
  match f with Mfield _ s => p s | _ => false end.

Definition metadata_schema (s : Schema) : bool :=
  solid s && holds_field (struct_list_field address_schema) s brokersKeyName.

Definition coordinator_schema (s : Schema) : bool :=
  holds_field (struct_field address_schema) s coordinatorKeyName.
Definition find_coordinator_schema (s : Schema) : bool :=
  solid s &&
  (holds_field (struct_list_field coordinator_schema) s coordinatorsKeyName ||
   (bool_decide (field_of s coordinatorsKeyName = None) && coordinator_schema s)).

Lemma metadata_schemas : forallb metadata_schema metadataResponseSchemaVersions = true.
Proof. by vm_compute. Qed.

(** Every struct of a schema has distinct field names: [NewSchema] accepts
    it. *)
Fixpoint accepted (s : Schema) : bool :=
  match s with
  | schema _ fields =>
      match NewSchema_check fields [] with Ok _ => true | _ => false end &&
      (fix accepted_fields (fs : list Field) : bool :=
         match fs with [] => true | f :: fs' => accepted_field f && accepted_fields fs' end) fields
  | _ => true
  end
with accepted_field (f : Field) : bool :=
  match f with
  | Mfield _ Ty | Array _ Ty | CompactArray _ Ty | CompactNullableArray _ Ty => accepted Ty
  | SchemaTaggedFields _ => true
  end.

(** ** The specification of address rewriting *)

Section rewriting.
Context {L : Type} (fn : NetAddressMappingFunc L).

(** Host, port and node id of an address struct. *)
Definition address_of (b : Struct) : option (bytes * Z * Z) :=
  match Struct_Get b hostKeyName, Struct_Get b portKeyName, Struct_Get b nodeKeyName with
  | VString host, VInt32 port, VInt32 nodeId => Some (host, port, nodeId)
  | _, _, _ => None
  end.

(** [b] with another host and port. *)
Definition set_address (b : Struct) (host : bytes) (port : Z) : Struct :=
  Struct_update (Struct_update b hostKeyName (VString host)) portKeyName (VInt32 port).

(** An empty address is kept, any other goes through the mapping. *)
Definition mapAddress (b : Struct) : M L Struct :=
  match address_of b with
  | Some (host, port, nodeId) =>
      if bool_decide (host = []) && (port <=? 0) then ret b
      else let* r := fn host port nodeId in ret (set_address b (fst r) (snd r))
  | None => panic "not an address"
  end.

Definition mapCoordinator (c : Struct) : M L Struct :=
  match Struct_Get c coordinatorKeyName with
  | VStruct sch vs =>
      let* b := mapAddress {| Struct_Schema := sch; Struct_Values := vs |} in
      ret (Struct_update c coordinatorKeyName (VPtr b))
  | _ => panic "no coordinator"
  end.

(** [mapAll f name st]: every struct of the list [name] of [st] through [f]. *)
Definition mapAll (f : Struct -> M L Struct) (name : string) (st : Struct) : M L Struct :=
  match Struct_Get st name with
  | VArray l => let* l' := forStructs f l in ret (Struct_update st name (VArray l'))
  | _ => panic "no list"
  end.

(** The whole specification of both modifiers. *)
Definition rewriteMetadata : Struct -> M L Struct := mapAll mapAddress brokersKeyName.
Definition rewriteFindCoordinator (st : Struct) : M L Struct :=
  match field_of (Struct_Schema st) coordinatorsKeyName with
  | Some _ => mapAll mapCoordinator coordinatorsKeyName st
  | None => mapCoordinator st
  end.

Lemma holds_field_inv p s name :
  holds_field p s name = true -> exists f, field_of s name = Some f /\ p f = true.
Proof. unfold holds_field. destruct (field_of s name) as [f|]; [eauto|done]. Qed.

Lemma string_field_typed f v :
  is_string_field f = true -> typed_field f v = true <-> exists s, v = VString s.
Proof.
  destruct f as [N T| | | |]; try done. destruct T; try done; intros _;
    destruct v; simpl; naive_solver.
Qed.

Lemma int32_field_typed f v :
  is_int32_field f = true -> typed_field f v = true <-> exists z, v = VInt32 z /\ inS 32 z.
Proof.
  destruct f as [N T| | | |]; try done. destruct T; try done; intros _.
  destruct v; simpl; rewrite ?inSb_spec; naive_solver.
Qed.

(** What a typed address struct looks like. *)
Lemma address_typed b :
  struct_typed b = true -> address_schema (Struct_Schema b) = true ->
  exists fh fp host port node,
    field_of (Struct_Schema b) hostKeyName = Some fh /\ is_string_field fh = true /\
    field_of (Struct_Schema b) portKeyName = Some fp /\ is_int32_field fp = true /\
    Struct_Get b hostKeyName = VString host /\ Struct_Get b portKeyName = VInt32 port /\
    Struct_Get b nodeKeyName = VInt32 node.
Proof.
  intros Ht Hs. unfold address_schema in Hs. apply andb_prop in Hs as [[Hh Hp]%andb_prop Hn].
  apply holds_field_inv in Hh as (fh & Hfh & Hh), Hp as (fp & Hfp & Hp), Hn as (fn' & Hfn & Hn).
  pose proof (Struct_Get_typed b _ _ Ht Hfh) as Gh.
  pose proof (Struct_Get_typed b _ _ Ht Hfp) as Gp.
  pose proof (Struct_Get_typed b _ _ Ht Hfn) as Gn.
  apply string_field_typed in Gh as [host ?]; [|done].
  apply int32_field_typed in Gp as (port & ? & _); [|done].
  apply int32_field_typed in Gn as (node & ? & _); [|done].
  by exists fh, fp, host, port, node.
Qed.

(** The code rewrites an address as specified: comparing before replacing
    makes no difference, and no lookup or replacement fails. *)
Lemma rewriteAddress_map e1 e2 e3 b l :
  struct_typed b = true -> address_schema (Struct_Schema b) = true ->
  rewriteAddress e1 e2 e3 fn b l = mapAddress b l.
Proof.
  intros Ht Hs.
  destruct (address_typed b Ht Hs) as (fh & fp & host & port & node & Hfh & Hsh & Hfp & Hsp & Gh & Gp & Gn).
  unfold rewriteAddress, mapAddress, address_of. rewrite Gh, Gp, Gn.
  destruct (bool_decide _ && _); [done|].
  unfold bind. destruct (fn host port node l) as [[[h p]|e|w] l']; try done. simpl.
  set (b1 := Struct_update b hostKeyName (VString h)).
  assert ((if bool_decide (host = h) then ret b
           else lift (Struct_Replace b hostKeyName (VString h))) l' = (Ok b1, l')) as ->.
  { case_bool_decide as E.
    - subst h. unfold b1. rewrite <- Gh. by erewrite Struct_update_id.
    - unfold lift. erewrite Struct_Replace_update; [done|exact Ht|exact Hfh|done|by rewrite Gh]. }
  assert (struct_typed b1 = true) as Ht1.
  { eapply Struct_update_typed; [exact Ht|exact Hfh|]. apply string_field_typed; eauto. }
  assert (field_of (Struct_Schema b1) portKeyName = Some fp) as Hfp1
    by (unfold b1; by rewrite Struct_update_schema).
  assert (Struct_Get b1 portKeyName = VInt32 port) as Gp1
    by (unfold b1; by rewrite Struct_Get_update_ne).
  unfold set_address. fold b1. destruct (port =? p) eqn:E.
  - apply Z.eqb_eq in E. subst p. rewrite <- Gp1. by erewrite Struct_update_id.
  - unfold lift. erewrite Struct_Replace_update; [done|exact Ht1|exact Hfp1|done|by rewrite Gp1].
Qed.

(** The mapping returns an [int32] port, as its Go type says. *)
Definition returns_int32 : Prop :=
  forall h p n l hp l', fn h p n l = (Ok hp, l') -> inS 32 (snd hp).

Lemma mapAddress_typed b l b' l' :
  returns_int32 -> struct_typed b = true -> address_schema (Struct_Schema b) = true ->
  mapAddress b l = (Ok b', l') -> struct_typed b' = true /\ Struct_Schema b' = Struct_Schema b.
Proof.
  intros Hfn Ht Hs H.
  destruct (address_typed b Ht Hs) as (fh & fp & host & port & node & Hfh & Hsh & Hfp & Hsp & Gh & Gp & Gn).
  unfold mapAddress, address_of in H. rewrite Gh, Gp, Gn in H.
  destruct (bool_decide _ && _); [by unfold ret in H; simplify_eq|].
  apply bind_inv in H as ([h p] & l1 & H1 & H). unfold ret in H. simplify_eq. simpl.
  unfold set_address. rewrite !Struct_update_schema. split; [|done].
  eapply Struct_update_typed.
  - eapply Struct_update_typed; [exact Ht|exact Hfh|]. apply string_field_typed; eauto.
  - rewrite Struct_update_schema. exact Hfp.
  - apply int32_field_typed; [done|]. exists p. split; [done|]. exact (Hfn _ _ _ _ _ _ H1).
Qed.

End rewriting.

(** ** Lists of structs *)

Definition of_schema (s : Schema) (st : Struct) : Prop :=
  struct_typed st = true /\ Struct_Schema st = s.

Definition structs_of (s : Schema) (l : list value) : Prop :=
  Forall (fun v => exists st, v = VPtr st /\ of_schema s st) l.

Lemma typed_structs s l :
  GetFields s <> [] ->
  forallb (typed s) l = true -> structs_of s l.
Proof.
  intros Hne H. rewrite forallb_forall in H. apply Forall_forall. intros v Hv%list_elem_of_In.
  specialize (H v Hv). destruct s as [| | | | | | | |n fs]; try done.
  apply typed_schema_inv in H as (vs & -> & Hvs).
  exists {| Struct_Schema := schema n fs; Struct_Values := vs |}. split; [done|]. split; [|done].
  by apply struct_typed_inv.
Qed.

Lemma structs_typed s l : structs_of s l -> forallb (typed s) l = true.
Proof.
  intros H. apply forallb_forall. intros v Hv%list_elem_of_In.
  unfold structs_of in H. rewrite Forall_forall in H. destruct (H v Hv) as (st & -> & Ht & <-).
  exact Ht.
Qed.

Section lists.
Context {L : Type}.
Implicit Types (f g : Struct -> M L Struct).

Lemma forStructs_ext f g s vs l :
  structs_of s vs -> (forall st l, of_schema s st -> f st l = g st l) ->
  forStructs f vs l = forStructs g vs l.
Proof.
  intros H Hfg. revert l. induction H as [|v vs (st & -> & Hst) Hvs IH]; intros l; [done|].
  simpl. unfold bind. destruct st as [sch w]. simpl in *. rewrite Hfg by done.
  destruct (g _ l) as [[a|e|x] l1]; try done. by rewrite IH.
Qed.

Lemma forStructs_typed f s vs l vs' l' :
  structs_of s vs ->
  (forall st l st' l', of_schema s st -> f st l = (Ok st', l') -> of_schema s st') ->
  forStructs f vs l = (Ok vs', l') -> structs_of s vs' /\ length vs' = length vs.
Proof.
  intros H Hf. revert l vs' l'. induction H as [|v vs (st & -> & Hst) Hvs IH]; intros l vs' l' E.
  - simpl in E. unfold ret in E. simplify_eq. split; [constructor|done].
  - destruct st as [sch w]. simpl in E.
    apply bind_inv in E as (st' & l1 & E1 & E). apply bind_inv in E as (r & l2 & E2 & E).
    unfold ret in E. simplify_eq. destruct (IH _ _ _ E2) as [IH1 IH2].
    split; [|simpl; congruence]. constructor; [|done]. exists st'. split; [done|].
    by eapply Hf, E1.
Qed.

(** A struct whose list [name] is mapped by a schema-preserving [f]. *)
Lemma struct_list_field_inv p st name :
  struct_typed st = true -> holds_field (struct_list_field p) (Struct_Schema st) name = true ->
  (forall s, p s = true -> GetFields s <> []) ->
  exists s vs, p s = true /\ Struct_Get st name = VArray vs /\ structs_of s vs /\
    forall vs', structs_of s vs' -> length vs' = length vs ->
      of_schema (Struct_Schema st) (Struct_update st name (VArray vs')).
Proof.
  intros Ht H Hne. apply holds_field_inv in H as (f & Hf & Hp).
  pose proof (Struct_Get_typed st name f Ht Hf) as Hv.
  assert (forall vs', typed_field f (VArray vs') = true ->
    of_schema (Struct_Schema st) (Struct_update st name (VArray vs'))) as Hup.
  { intros vs' H'. split; [by eapply Struct_update_typed | by rewrite Struct_update_schema]. }
  destruct f as [| |N s|N s|]; try done; simpl in Hp, Hv; destruct (Struct_Get st name) eqn:E;
    try done; exists s, l.
  - apply andb_prop in Hv as [Hl Hv]. repeat split; try done.
    + apply typed_structs; auto.
    + apply Hup; simpl. rewrite structs_typed, andb_true_r by done.
      rewrite Z.leb_le in *. unfold len in *. lia.
    + by rewrite Struct_update_schema.
  - repeat split; try done.
    + apply typed_structs; auto.
    + apply Hup; simpl. by apply structs_typed.
    + by rewrite Struct_update_schema.
Qed.

End lists.

Lemma address_schema_nonempty s : address_schema s = true -> GetFields s <> [].
Proof.
  unfold address_schema. intros [[H _]%andb_prop _]%andb_prop.
  apply holds_field_inv in H as (f & Hf & _). by eapply field_of_nonempty.
Qed.

Lemma coordinator_schema_nonempty s : coordinator_schema s = true -> GetFields s <> [].
Proof.
  unfold coordinator_schema. intros H. apply holds_field_inv in H as (f & Hf & _).
  by eapply field_of_nonempty.
Qed.

(** ** The modifiers implement their specification *)

Section refinement.
Context {L : Type} (fn : NetAddressMappingFunc L).

Lemma modifyMetadataResponse_refines st l :
  struct_typed st = true -> metadata_schema (Struct_Schema st) = true ->
  modifyMetadataResponse (Some st) (Some fn) l = rewriteMetadata fn st l.
Proof.
  intros Ht [_ Hs]%andb_prop.
  destruct (struct_list_field_inv _ _ _ Ht Hs address_schema_nonempty) as (s & vs & Hp & G & Hvs & _).
  unfold modifyMetadataResponse, rewriteMetadata, mapAll. rewrite G. unfold bind.
  rewrite (forStructs_ext _ (mapAddress fn) s vs l Hvs); [done|].
  intros b l1 [Hb <-]. by apply rewriteAddress_map.
Qed.

Lemma rewriteMetadata_typed st l st' l' :
  returns_int32 fn -> struct_typed st = true -> metadata_schema (Struct_Schema st) = true ->
  rewriteMetadata fn st l = (Ok st', l') -> of_schema (Struct_Schema st) st'.
Proof.
  intros Hfn Ht [_ Hs]%andb_prop H.
  destruct (struct_list_field_inv _ _ _ Ht Hs address_schema_nonempty) as (s & vs & Hp & G & Hvs & Hup).
  unfold rewriteMetadata, mapAll in H. rewrite G in H.
  apply bind_inv in H as (vs' & l1 & H1 & H). unfold ret in H. simplify_eq.
  destruct (forStructs_typed _ _ _ _ _ _ Hvs ltac:(intros b l0 b' l1 [Hb <-] E;
    destruct (mapAddress_typed fn b l0 b' l1 Hfn Hb Hp E); by split) H1) as [H2 H3].
  by apply Hup.
Qed.

(** The coordinator struct inside [c]. *)
Lemma coordinator_typed c :
  struct_typed c = true -> coordinator_schema (Struct_Schema c) = true ->
  exists f b, field_of (Struct_Schema c) coordinatorKeyName = Some f /\
    Struct_Get c coordinatorKeyName = VPtr b /\ struct_typed b = true /\
    address_schema (Struct_Schema b) = true /\
    forall b', of_schema (Struct_Schema b) b' -> typed_field f (VPtr b') = true.
Proof.
  intros Ht Hs. apply holds_field_inv in Hs as (f & Hf & Hp).
  pose proof (Struct_Get_typed c _ f Ht Hf) as Hv.
  destruct f as [N s| | | |]; try done. simpl in Hp, Hv.
  destruct s as [| | | | | | | |n fs]; try done.
  pose proof Hv as Hv'. apply typed_schema_inv in Hv' as (vs & E & Hvs). rewrite E in Hv.
  exists (Mfield N (schema n fs)), {| Struct_Schema := schema n fs; Struct_Values := vs |}.
  repeat split; try done. intros b' [Hb' Hsch]. simpl in Hsch |- *.
  unfold struct_typed in Hb'. rewrite Hsch in Hb'. exact Hb'.
Qed.

Lemma modifyCoordinator_map c l :
  struct_typed c = true -> coordinator_schema (Struct_Schema c) = true ->
  modifyCoordinator c fn l = mapCoordinator fn c l.
Proof.
  intros Ht Hs. destruct (coordinator_typed c Ht Hs) as (f & b & Hf & G & Hb & Hsb & _).
  unfold modifyCoordinator, mapCoordinator. rewrite G. unfold VPtr, bind. destruct b as [sch vs].
  by rewrite rewriteAddress_map.
Qed.

Lemma mapCoordinator_typed c l c' l' :
  returns_int32 fn -> struct_typed c = true -> coordinator_schema (Struct_Schema c) = true ->
  mapCoordinator fn c l = (Ok c', l') -> of_schema (Struct_Schema c) c'.
Proof.
  intros Hfn Ht Hs H. destruct (coordinator_typed c Ht Hs) as (f & b & Hf & G & Hb & Hsb & Hty).
  unfold mapCoordinator in H. rewrite G in H. destruct b as [sch w]. unfold VPtr in H. simpl in H.
  apply bind_inv in H as (b' & l1 & H1 & H). unfold ret in H. simplify_eq.
  destruct (mapAddress_typed fn _ _ _ _ Hfn Hb Hsb H1) as [H2 H3].
  split; [|by rewrite Struct_update_schema].
  eapply Struct_update_typed; [exact Ht|exact Hf|]. apply Hty. by split.
Qed.

Lemma modifyFindCoordinatorResponse_refines st l :
  struct_typed st = true -> find_coordinator_schema (Struct_Schema st) = true ->
  modifyFindCoordinatorResponse (Some st) (Some fn) l = rewriteFindCoordinator fn st l.
Proof.
  intros Ht [_ Hs]%andb_prop. unfold modifyFindCoordinatorResponse, rewriteFindCoordinator.
  apply orb_prop in Hs as [Hs|[Hn%bool_decide_eq_true Hs]%andb_prop].
  - destruct (struct_list_field_inv _ _ _ Ht Hs coordinator_schema_nonempty)
      as (s & vs & Hp & G & Hvs & _).
    apply holds_field_inv in Hs as (f & -> & _). unfold mapAll. rewrite G. unfold bind.
    rewrite (forStructs_ext _ (mapCoordinator fn) s vs l Hvs); [done|].
    intros c l1 [Hc <-]. by apply modifyCoordinator_map.
  - rewrite Hn. replace (Struct_Get st coordinatorsKeyName) with VNil.
    + by apply modifyCoordinator_map.
    + symmetry. unfold Struct_Get. unfold field_of in Hn.
      destruct (GetFieldsByName _ coordinatorsKeyName) as [i|] eqn:Ei; [|done].
      simpl in Hn. pose proof (field_of_nonempty (Struct_Schema st)) as Hne.
      apply lookup_ge_None in Hn. assert (GetFields (Struct_Schema st) <> []) as Hne'.
      { by destruct (holds_field_inv _ _ _ Hs) as (f & Hf & _); eapply Hne. }
      rewrite struct_typed_inv in Ht by done. apply typed_fields_length in Ht.
      by rewrite lookup_ge_None_2 by lia.
Qed.

Lemma rewriteFindCoordinator_typed st l st' l' :
  returns_int32 fn -> struct_typed st = true -> find_coordinator_schema (Struct_Schema st) = true ->
  rewriteFindCoordinator fn st l = (Ok st', l') -> of_schema (Struct_Schema st) st'.
Proof.
  intros Hfn Ht [_ Hs]%andb_prop H. unfold rewriteFindCoordinator in H.
  apply orb_prop in Hs as [Hs|[Hn%bool_decide_eq_true Hs]%andb_prop].
  - destruct (struct_list_field_inv _ _ _ Ht Hs coordinator_schema_nonempty)
      as (s & vs & Hp & G & Hvs & Hup).
    apply holds_field_inv in Hs as (f & Hf & _). rewrite Hf in H. unfold mapAll in H. rewrite G in H.
    apply bind_inv in H as (vs' & l1 & H1 & H). unfold ret in H. simplify_eq.
    destruct (forStructs_typed _ _ _ _ _ _ Hvs ltac:(intros b l0 b' l1 [Hb <-] E;
      by apply (mapCoordinator_typed b l0 b' l1)) H1) as [H2 H3].
    by apply Hup.
  - rewrite Hn in H. by eapply mapCoordinator_typed.
Qed.

End refinement.

(** ** Both modifiers, by API key *)

Lemma find_coordinator_schemas :
  forallb find_coordinator_schema findCoordinatorResponseSchemaVersions = true.
Proof. by vm_compute. Qed.

(** The specification of the modifier registered for [apiKey]. *)
Definition rewriteResponse {L} (apiKey : Z) (fn : NetAddressMappingFunc L) : Struct -> M L Struct :=
  if apiKey =? apiKeyMetadata then rewriteMetadata fn else rewriteFindCoordinator fn.

(** The schemas registered for [apiKey], by version. *)
Definition responseSchemas (apiKey : Z) : list Schema :=
  if apiKey =? apiKeyMetadata then metadataResponseSchemaVersions
  else if apiKey =? apiKeyFindCoordinator then findCoordinatorResponseSchemaVersions
  else [].

Section modifiers.
Context {L : Type}.
Implicit Types (f : responseModifier L) (fn : NetAddressMappingFunc L).

Lemma getResponseSchema_spec apiKey apiVersion schemas :
  getResponseSchema apiKey apiVersion schemas =
    match (if apiVersion <? 0 then None else schemas !! Z.to_nat apiVersion) with
    | Some s => Ok s
    | None => Err (Errorf "Unsupported response schema version %d for key %d ")
    end.
Proof.
  unfold getResponseSchema. destruct (apiVersion <? 0) eqn:E; [done|]. apply Z.ltb_ge in E. simpl.
  destruct (len schemas <=? apiVersion) eqn:E1.
  - apply Z.leb_le in E1. by rewrite lookup_ge_None_2 by (unfold len in *; lia).
  - apply Z.leb_gt in E1. destruct (lookup_lt_is_Some_2 schemas (Z.to_nat apiVersion)) as [s ->];
      [unfold len in *; lia | done].
Qed.

(** What the modifier of an API key and version is made of. *)
Lemma GetResponseModifier_inv apiKey apiVersion fno f :
  GetResponseModifier apiKey apiVersion fno = Ok (Some f) ->
  0 <= apiVersion /\ responseSchemas apiKey !! Z.to_nat apiVersion = Some (rm_schema f) /\
  netAddressMappingFunc f = fno /\
  ((apiKey = apiKeyMetadata /\ modifyResponseFunc f = modifyMetadataResponse /\
    metadata_schema (rm_schema f) = true) \/
   (apiKey = apiKeyFindCoordinator /\ modifyResponseFunc f = modifyFindCoordinatorResponse /\
    find_coordinator_schema (rm_schema f) = true)).
Proof.
  pose proof metadata_schemas as Hm. pose proof find_coordinator_schemas as Hc.
  rewrite forallb_forall in Hm, Hc.
  unfold GetResponseModifier, responseSchemas, newResponseModifier. rewrite !getResponseSchema_spec.
  destruct (apiKey =? apiKeyMetadata) eqn:E1; [|destruct (apiKey =? apiKeyFindCoordinator) eqn:E2; [|done]];
    (destruct (apiVersion <? 0) eqn:E; [done|]); apply Z.ltb_ge in E;
    (destruct (_ !! _) as [s|] eqn:Es; simpl; [|done]); intros [= <-]; simpl;
    apply list_elem_of_lookup_2, list_elem_of_In in Es; repeat split; try done.
  - left. apply Z.eqb_eq in E1. auto.
  - right. apply Z.eqb_eq in E2. auto.
Qed.

(** A modifier's schema describes non-empty structs and its function refines
    the specification. *)
Lemma GetResponseModifier_refines apiKey apiVersion fn f :
  GetResponseModifier apiKey apiVersion (Some fn) = Ok (Some f) ->
  solid (rm_schema f) = true /\ netAddressMappingFunc f = Some fn /\
  forall st l, of_schema (rm_schema f) st ->
    modifyResponseFunc f (Some st) (Some fn) l = rewriteResponse apiKey fn st l /\
    (forall st' l', returns_int32 fn -> rewriteResponse apiKey fn st l = (Ok st', l') ->
       of_schema (rm_schema f) st').
Proof.
  intros (_ & _ & Hn & [(-> & Hf & Hs)|(-> & Hf & Hs)])%GetResponseModifier_inv;
    (split; [by apply andb_prop in Hs as [? _]|]); (split; [done|]);
    rewrite Hf; intros st l [Ht E]; rewrite <- E in *; split.
  - by apply modifyMetadataResponse_refines.
  - intros. by eapply rewriteMetadata_typed.
  - by apply modifyFindCoordinatorResponse_refines.
  - intros. by eapply rewriteFindCoordinator_typed.
Qed.

Lemma of_schema_result sch buf st :
  GetFields sch <> [] -> DecodeSchema (Some buf) sch = Ok (Some st) -> of_schema sch st.
Proof.
  intros Hne H%DecodeSchema_result_typed. destruct sch; try done.
  apply typed_schema in H as H'. destruct H' as [E _]. split; [|done].
  unfold struct_typed. by rewrite E.
Qed.

Lemma GetResponseModifier_fields apiKey apiVersion fno f :
  GetResponseModifier apiKey apiVersion fno = Ok (Some f) -> GetFields (rm_schema f) <> [].
Proof.
  intros (_ & _ & _ & [(_ & _ & Hs)|(_ & _ & Hs)])%GetResponseModifier_inv; apply andb_prop in Hs as [_ Hs].
  - apply holds_field_inv in Hs as (g & Hg & _). by eapply field_of_nonempty.
  - apply orb_prop in Hs as [Hs|[_ Hs]%andb_prop]; apply holds_field_inv in Hs as (g & Hg & _);
      by eapply field_of_nonempty.
Qed.

Lemma DecodeSchema_Some buf sch r : DecodeSchema (Some buf) sch = Ok r -> exists st, r = Some st.
Proof.
  unfold DecodeSchema. destruct (Schema_decode _ _) as [[v|e|w] h]; try done.
  destruct (negb _); [done|]. destruct v; try done. intros [= <-]. eauto.
Qed.

(** [Apply] is decode, specified rewriting, encode. *)
Lemma Apply_spec apiKey apiVersion fn f resp l :
  GetResponseModifier apiKey apiVersion (Some fn) = Ok (Some f) ->
  Apply f (Some resp) l =
    match DecodeSchema (Some resp) (rm_schema f) with
    | Ok (Some st) =>
        (let* st' := rewriteResponse apiKey fn st in
         lift (EncodeSchema (Some st') (rm_schema f))) l
    | Ok None => (Ok None, l)
    | Err e => (Err e, l)
    | Panic w => (Panic w, l)
    end.
Proof.
  intros H. pose proof (GetResponseModifier_fields _ _ _ _ H) as Hne.
  apply GetResponseModifier_refines in H as (_ & Hfn & Hr).
  unfold Apply, bind, lift. destruct (DecodeSchema _ _) as [r|e|w] eqn:E; [|done..].
  destruct (DecodeSchema_Some _ _ _ E) as [st ->].
  rewrite Hfn. by destruct (Hr st l (of_schema_result _ _ _ Hne E)) as [-> _].
Qed.

End modifiers.

(** ** The rewriting specification: what it keeps, when it panics *)

Section frame.
Context {L : Type} (fn : NetAddressMappingFunc L).

(** [b'] is [b] with the address [fn] maps it to, all else unchanged; an
    address struct with neither host nor port is left alone. *)
Definition readdressed (b b' : Struct) : Prop :=
  Struct_Schema b' = Struct_Schema b /\
  (forall name, name <> hostKeyName -> name <> portKeyName -> Struct_Get b' name = Struct_Get b name) /\
  exists host port node, address_of b = Some (host, port, node) /\
    if bool_decide (host = []) && (port <=? 0) then b' = b
    else exists l l' host' port', fn host port node l = (Ok (host', port'), l') /\
         address_of b' = Some (host', port', node).

Lemma mapAddress_readdressed b l b' l' :
  struct_typed b = true -> address_schema (Struct_Schema b) = true ->
  mapAddress fn b l = (Ok b', l') -> readdressed b b'.
Proof.
  intros Ht Hs H.
  destruct (address_typed b Ht Hs) as (fh & fp & host & port & node & Hfh & Hsh & Hfp & Hsp & Gh & Gp & Gn).
  assert (address_of b = Some (host, port, node)) as Ha by (unfold address_of; by rewrite Gh, Gp, Gn).
  unfold mapAddress in H. rewrite Ha in H. unfold readdressed.
  destruct (bool_decide _ && _) eqn:Hb.
  { unfold ret in H. simplify_eq. split; [done|]. split; [done|].
    exists host, port, node. by rewrite Hb. }
  apply bind_inv in H as ([h p] & l1 & H1 & H). unfold ret in H. simplify_eq. simpl.
  unfold set_address. split; [by rewrite !Struct_update_schema|]. split.
  - intros name N1 N2. by rewrite !Struct_Get_update_ne by done.
  - exists host, port, node. split; [done|]. rewrite Hb. exists l, l', h, p. split; [done|].
    unfold address_of. assert (struct_typed (Struct_update b hostKeyName (VString h)) = true) as Ht1.
    { eapply Struct_update_typed; [exact Ht|exact Hfh|]. apply string_field_typed; eauto. }
    rewrite (Struct_Get_update_ne _ portKeyName hostKeyName) by done.
    erewrite Struct_Get_update_eq by (exact Ht || exact Hfh).
    erewrite Struct_Get_update_eq; [|exact Ht1|by rewrite Struct_update_schema].
    by rewrite !Struct_Get_update_ne, Gn by done.
Qed.

(** A coordinator entry whose [coordinator] struct was readdressed. *)
Definition coordinator_readdressed (c c' : Struct) : Prop :=
  Struct_Schema c' = Struct_Schema c /\
  (forall name, name <> coordinatorKeyName -> Struct_Get c' name = Struct_Get c name) /\
  exists b b', Struct_Get c coordinatorKeyName = VPtr b /\
    Struct_Get c' coordinatorKeyName = VPtr b' /\ readdressed b b'.

Lemma mapCoordinator_readdressed c l c' l' :
  struct_typed c = true -> coordinator_schema (Struct_Schema c) = true ->
  mapCoordinator fn c l = (Ok c', l') -> coordinator_readdressed c c'.
Proof.
  intros Ht Hs H. destruct (coordinator_typed c Ht Hs) as (f & b & Hf & G & Hb & Hsb & _).
  unfold mapCoordinator in H. rewrite G in H. unfold VPtr in H. destruct b as [sch vs].
  apply bind_inv in H as (b' & l1 & H1 & H). unfold ret in H. simplify_eq.
  split; [by rewrite Struct_update_schema|]. split.
  - intros name N. by rewrite Struct_Get_update_ne.
  - exists {| Struct_Schema := sch; Struct_Values := vs |}, b'. split; [done|].
    split; [by erewrite Struct_Get_update_eq|]. by eapply mapAddress_readdressed.
Qed.

(** The list [name] of [st'] is that of [st] with every struct changed as [R]
    says; the other fields are those of [st]. *)
Definition list_changed (R : Struct -> Struct -> Prop) (name : string) (st st' : Struct) : Prop :=
  (forall name', name' <> name -> Struct_Get st' name' = Struct_Get st name') /\
  exists bs bs', Struct_Get st name = VArray (VPtr <$> bs) /\
    Struct_Get st' name = VArray (VPtr <$> bs') /\ Forall2 R bs bs'.

Lemma forStructs_Forall2 (f : Struct -> M L Struct) (R : Struct -> Struct -> Prop) s vs l vs' l' :
  structs_of s vs ->
  (forall st l st' l', of_schema s st -> f st l = (Ok st', l') -> R st st') ->
  forStructs f vs l = (Ok vs', l') ->
  exists bs bs', vs = VPtr <$> bs /\ vs' = VPtr <$> bs' /\ Forall2 R bs bs'.
Proof.
  intros H Hf. revert l vs' l'. induction H as [|v vs (st & -> & Hst) Hvs IH]; intros l vs' l' E.
  - simpl in E. unfold ret in E. simplify_eq. by exists [], [].
  - destruct st as [sch w]. simpl in E.
    apply bind_inv in E as (st' & l1 & E1 & E). apply bind_inv in E as (r & l2 & E2 & E).
    unfold ret in E. simplify_eq. destruct (IH _ _ _ E2) as (bs & bs' & -> & -> & HR).
    exists ({| Struct_Schema := sch; Struct_Values := w |} :: bs), (st' :: bs').
    split; [done|]. split; [done|]. constructor; [by eapply Hf, E1 | done].
Qed.

Lemma mapAll_changed (f : Struct -> M L Struct) R p name st l st' l' :
  struct_typed st = true -> holds_field (struct_list_field p) (Struct_Schema st) name = true ->
  (forall s, p s = true -> GetFields s <> []) ->
  (forall b l b' l', struct_typed b = true -> p (Struct_Schema b) = true -> f b l = (Ok b', l') -> R b b') ->
  mapAll f name st l = (Ok st', l') -> list_changed R name st st'.
Proof.
  intros Ht Hs Hne Hf H.
  destruct (struct_list_field_inv _ _ _ Ht Hs Hne) as (s & vs & Hp & G & Hvs & _).
  apply holds_field_inv in Hs as (g & Hg & _).
  unfold mapAll in H. rewrite G in H. apply bind_inv in H as (vs' & l1 & H1 & H).
  unfold ret in H. simplify_eq. split.
  - intros name' N. by rewrite Struct_Get_update_ne.
  - destruct (forStructs_Forall2 f R s vs l vs' l' Hvs ltac:(intros ???? [??] ?; subst; eauto) H1)
      as (bs & bs' & -> & -> & HR).
    exists bs, bs'. split; [done|]. split; [by erewrite Struct_Get_update_eq | done].
Qed.

(** What a rewritten response is, in terms of the response decoded. *)
Definition response_changed (apiKey : Z) (st st' : Struct) : Prop :=
  if apiKey =? apiKeyMetadata then list_changed readdressed brokersKeyName st st'
  else match field_of (Struct_Schema st) coordinatorsKeyName with
       | Some _ => list_changed coordinator_readdressed coordinatorsKeyName st st'
       | None => coordinator_readdressed st st'
       end.

Lemma rewriteResponse_changed apiKey apiVersion f st l st' l' :
  GetResponseModifier apiKey apiVersion (Some fn) = Ok (Some f) -> of_schema (rm_schema f) st ->
  rewriteResponse apiKey fn st l = (Ok st', l') -> response_changed apiKey st st'.
Proof.
  intros (_ & _ & _ & Hk)%GetResponseModifier_inv [Ht E] H. rewrite <- E in Hk.
  destruct Hk as [(-> & _ & [_ Hs]%andb_prop)|(-> & _ & [_ Hs]%andb_prop)].
  - eapply (mapAll_changed (mapAddress fn)); [done|exact Hs|apply address_schema_nonempty| |exact H].
    intros. by eapply mapAddress_readdressed.
  - unfold response_changed. unfold rewriteResponse, rewriteFindCoordinator in H.
    apply orb_prop in Hs as [Hs|[Hn%bool_decide_eq_true Hs]%andb_prop].
    + pose proof (holds_field_inv _ _ _ Hs) as (g & Hg & _). cbn in H |- *. rewrite Hg in *.
      eapply (mapAll_changed (mapCoordinator fn)); [done|exact Hs|apply coordinator_schema_nonempty| |exact H].
      intros. by eapply mapCoordinator_readdressed.
    + cbn in H |- *. rewrite Hn in *. by eapply mapCoordinator_readdressed.
Qed.

(** *** Panics *)

Definition calmM {A} (m : M L A) : Prop := forall l, calm (fst (m l)).

Lemma calmM_bind {A B} (m : M L A) (k : A -> M L B) :
  calmM m -> (forall a, calmM (k a)) -> calmM (bind m k).
Proof.
  intros Hm Hk l. unfold bind. specialize (Hm l).
  destruct (m l) as [[a|e|w] l1]; simpl in *; [apply Hk | done | by destruct (Hm w)].
Qed.
Lemma calmM_ret {A} (a : A) : calmM (@ret L A a).
Proof. by intros l w. Qed.

Context (Hfn : forall h p n, calmM (fn h p n)).

Lemma mapAddress_calm b :
  struct_typed b = true -> address_schema (Struct_Schema b) = true -> calmM (mapAddress fn b).
Proof.
  intros Ht Hs.
  destruct (address_typed b Ht Hs) as (fh & fp & host & port & node & _ & _ & _ & _ & Gh & Gp & Gn).
  unfold mapAddress, address_of. rewrite Gh, Gp, Gn. destruct (_ && _); [apply calmM_ret|].
  apply calmM_bind; [apply Hfn|]. intros. apply calmM_ret.
Qed.

Lemma mapCoordinator_calm c :
  struct_typed c = true -> coordinator_schema (Struct_Schema c) = true -> calmM (mapCoordinator fn c).
Proof.
  intros Ht Hs. destruct (coordinator_typed c Ht Hs) as (f & b & Hf & G & Hb & Hsb & _).
  unfold mapCoordinator. rewrite G. destruct b. apply calmM_bind; [by apply mapAddress_calm|].
  intros. apply calmM_ret.
Qed.

Lemma mapAll_calm (f : Struct -> M L Struct) p name st :
  struct_typed st = true -> holds_field (struct_list_field p) (Struct_Schema st) name = true ->
  (forall s, p s = true -> GetFields s <> []) ->
  (forall b, struct_typed b = true -> p (Struct_Schema b) = true -> calmM (f b)) ->
  calmM (mapAll f name st).
Proof.
  intros Ht Hs Hne Hf.
  destruct (struct_list_field_inv _ _ _ Ht Hs Hne) as (s & vs & Hp & G & Hvs & _).
  unfold mapAll. rewrite G. apply calmM_bind; [|intros; apply calmM_ret]. clear G.
  induction Hvs as [|v vs (b & -> & Hb & Eb) Hvs IH]; [apply calmM_ret|].
  destruct b as [sch w]. simpl. apply calmM_bind; [apply Hf; simpl in *; by subst|]. intros.
  apply calmM_bind; [done|]. intros. apply calmM_ret.
Qed.

Lemma rewriteResponse_calm apiKey apiVersion f st :
  GetResponseModifier apiKey apiVersion (Some fn) = Ok (Some f) -> of_schema (rm_schema f) st ->
  calmM (rewriteResponse apiKey fn st).
Proof.
  intros (_ & _ & _ & Hk)%GetResponseModifier_inv [Ht E]. rewrite <- E in Hk.
  destruct Hk as [(-> & _ & [_ Hs]%andb_prop)|(-> & _ & [_ Hs]%andb_prop)].
  - eapply mapAll_calm; [done|exact Hs|apply address_schema_nonempty|apply mapAddress_calm].
  - unfold rewriteResponse, rewriteFindCoordinator. cbn.
    apply orb_prop in Hs as [Hs|[Hn%bool_decide_eq_true Hs]%andb_prop].
    + pose proof (holds_field_inv _ _ _ Hs) as (g & Hg & _). rewrite Hg.
      eapply mapAll_calm; [done|exact Hs|apply coordinator_schema_nonempty|apply mapCoordinator_calm].
    + rewrite Hn. by apply mapCoordinator_calm.
Qed.

End frame.
