(* ===== verification/ResponseTheorems.v ===== *)
(** The properties of the response path: schema codecs and the rewriting of
    the broker addresses in metadata and find-coordinator responses. *)
From Stdlib Require Import ZArith Lia Strings.Byte.
From stdpp Require Import base list strings gmap.
From S2P Require Import Prelude GoLib Encoder Decoder Schema SchemaFacts Responses ResponsesFacts.

(** ** Inputs the witnesses are evaluated on *)

(** Broker 1 of every cluster is reachable at [localhost:30001]. *)
Definition example_mapping : NetAddressMappingFunc (list (bytes * Z)) :=
  fun host port node l => (Ok ($"localhost", 30000 + node mod 1000), (host, port) :: l).

(** A find-coordinator response, version 0, naming broker 1 at [k1:9092]. *)
Definition example_response : bytes :=
  be_put 2 0 ++ be_put 4 1 ++ be_put 2 2 ++ $"k1" ++ be_put 4 9092.
Definition example_rewritten : bytes :=
  be_put 2 0 ++ be_put 4 1 ++ be_put 2 9 ++ $"localhost" ++ be_put 4 30001.

Definition example_modifier : responseModifier (list (bytes * Z)) :=
  {| rm_schema := findCoordinatorResponseV0; modifyResponseFunc := modifyFindCoordinatorResponse;
     netAddressMappingFunc := Some example_mapping |}.
Definition example_struct : Struct :=
  match DecodeSchema (Some example_response) findCoordinatorResponseV0 with
  | Ok (Some st) => st
  | _ => {| Struct_Schema := TypeBool; Struct_Values := [] |}
  end.

(** The mapping on an address the proxy already rewrote. *)
Lemma example_mapping_int32 : returns_int32 example_mapping.
Proof.
  intros h p n l hp l' [= <- <-]. unfold inS. simpl.
  pose proof (Z.mod_pos_bound n 1000 eq_refl). lia.
Qed.

(** A metadata response, version 9, whose tagged-field count is 2^43 + 1. *)
Definition hostile_response : bytes :=
  be_put 4 0 ++ PutUvarint 1 ++ PutUvarint 0 ++ be_put 4 0 ++ PutUvarint 1 ++ be_put 4 0 ++
  PutUvarint (2 ^ 43 + 1).

(** ** Rewriting *)

(** C2: [ResponseModifier.Apply], for every API key and version the proxy has a
    modifier for: when it returns a response, decoding that response gives
    exactly the decoded input with the specified rewriting done to it, and the
    mapping function was called as the specification calls it. *)
Theorem Apply_rewrites_response {L} (apiKey apiVersion : Z) (fn : NetAddressMappingFunc L)
    (f : responseModifier L) (resp out : bytes) (l l' : L) :
  GetResponseModifier apiKey apiVersion (Some fn) = Ok (Some f) -> returns_int32 fn ->
  Apply f (Some resp) l = (Ok (Some out), l') ->
  exists st st',
    DecodeSchema (Some resp) (rm_schema f) = Ok (Some st) /\
    rewriteResponse apiKey fn st l = (Ok st', l') /\
    DecodeSchema (Some out) (rm_schema f) = Ok (Some st').
Proof.
  intros Hg Hfn H. rewrite (Apply_spec _ _ _ _ _ _ Hg) in H.
  pose proof (GetResponseModifier_fields _ _ _ _ Hg) as Hne.
  apply GetResponseModifier_refines in Hg as (Hs & _ & Hr).
  destruct (DecodeSchema _ _) as [[st|]|e|w] eqn:E; try done. exists st.
  apply bind_inv in H as (st' & l1 & H1 & H). unfold lift in H. simplify_eq. exists st'.
  split; [done|]. split; [done|]. apply EncodeSchema_DecodeSchema; [done| |done].
  destruct (Hr st l (of_schema_result _ _ _ Hne E)) as [_ Ht].
  destruct (Ht st' l' Hfn H1) as [Ht' <-]. exact Ht'.
Qed.

Lemma Apply_rewrites_response_witness :
  exists st st',
    DecodeSchema (Some example_response) findCoordinatorResponseV0 = Ok (Some st) /\
    rewriteResponse 10 example_mapping st [] = (Ok st', [($"k1", 9092)]) /\
    DecodeSchema (Some example_rewritten) findCoordinatorResponseV0 = Ok (Some st').
Proof.
  apply (Apply_rewrites_response 10 0 example_mapping example_modifier example_response).
  - reflexivity.
  - apply example_mapping_int32.
  - vm_compute. reflexivity.
Defined.

(** C9: the code of [Apply] with its two modify functions, run on any input
    (well formed or not), gives the result, error or panic of the
    specification: decode, rewrite every address through the mapping, encode.
    In particular the lookups, type assertions and [Replace] calls of the
    modify functions never fail on a decoded response. *)
Theorem Apply_refines_rewriting {L} (apiKey apiVersion : Z) (fn : NetAddressMappingFunc L)
    (f : responseModifier L) (resp : bytes) (l : L) :
  GetResponseModifier apiKey apiVersion (Some fn) = Ok (Some f) ->
  Apply f (Some resp) l =
    match DecodeSchema (Some resp) (rm_schema f) with
    | Ok (Some st) =>
        (let* st' := rewriteResponse apiKey fn st in
         lift (EncodeSchema (Some st') (rm_schema f))) l
    | Ok None => (Ok None, l)
    | Err e => (Err e, l)
    | Panic w => (Panic w, l)
    end.
Proof. intros H. by apply Apply_spec with (apiVersion := apiVersion). Qed.

Lemma Apply_refines_rewriting_witness :
  fst (Apply example_modifier (Some example_response) []) = Ok (Some example_rewritten).
Proof.
  rewrite (Apply_refines_rewriting 10 0 example_mapping example_modifier example_response []).
  - vm_compute. reflexivity.
  - reflexivity.
Defined.

(** A response that went through [Apply] differs from the original only in
    the host and port of its broker addresses: each becomes what the mapping
    returned for it (an address with an empty host and no port is kept), node
    ids, every other field and the number and order of entries are kept.*)
Theorem Apply_changes_only_addresses {L} (apiKey apiVersion : Z) (fn : NetAddressMappingFunc L)
    (f : responseModifier L) (resp out : bytes) (l l' : L) (st st' : Struct) :
  GetResponseModifier apiKey apiVersion (Some fn) = Ok (Some f) -> returns_int32 fn ->
  Apply f (Some resp) l = (Ok (Some out), l') ->
  DecodeSchema (Some resp) (rm_schema f) = Ok (Some st) ->
  DecodeSchema (Some out) (rm_schema f) = Ok (Some st') ->
  response_changed fn apiKey st st'.
Proof.
  intros Hg Hfn H D1 D2. pose proof Hg as Hg'.
  rewrite (Apply_spec _ _ _ _ _ _ Hg), D1 in H.
  pose proof (of_schema_result _ _ _ (GetResponseModifier_fields _ _ _ _ Hg) D1) as Hst.
  apply GetResponseModifier_refines in Hg as (Hs & _ & Hr).
  apply bind_inv in H as (st2 & l1 & H1 & H). unfold lift in H. simplify_eq.
  destruct (Hr st l Hst) as [_ Ht]. destruct (Ht st2 l' Hfn H1) as [Ht' E].
  unfold struct_typed in Ht'. rewrite E in Ht'.
  apply EncodeSchema_DecodeSchema in H; [|done..]. rewrite D2 in H. injection H as <-.
  eapply rewriteResponse_changed; [exact Hg'|exact Hst|exact H1].
Qed.

Lemma Apply_changes_only_addresses_witness :
  response_changed example_mapping 10 example_struct
    (match DecodeSchema (Some example_rewritten) findCoordinatorResponseV0 with
     | Ok (Some st) => st | _ => example_struct end).
Proof.
  apply (Apply_changes_only_addresses 10 0 example_mapping example_modifier
           example_response example_rewritten [] [($"k1", 9092)]).
  - reflexivity.
  - apply example_mapping_int32.
  - vm_compute. reflexivity.
  - vm_compute. reflexivity.
  - vm_compute. reflexivity.
Defined.

(** With a mapping that does not panic, [Apply] panics only in the [make]
    of [SchemaTaggedFields.decode], whose length comes from the wire, and only
    for the flexible versions, whose schemas have tagged fields. *)
Theorem Apply_panics_only_in_make {L} (apiKey apiVersion : Z) (fn : NetAddressMappingFunc L)
    (f : responseModifier L) (resp : bytes) (l : L) (w : string) :
  GetResponseModifier apiKey apiVersion (Some fn) = Ok (Some f) -> returns_int32 fn ->
  (forall h p n, calmM (fn h p n)) ->
  fst (Apply f (Some resp) l) = Panic w ->
  w = makeslice_panic /\
  ((apiKey = apiKeyMetadata /\ 9 <= apiVersion) \/ (apiKey = apiKeyFindCoordinator /\ 3 <= apiVersion)).
Proof.
  intros Hg Hfn Hcalm H. rewrite (Apply_spec _ _ _ _ _ _ Hg) in H.
  pose proof (GetResponseModifier_fields _ _ _ _ Hg) as Hne.
  destruct (DecodeSchema _ _) as [[st|]|e|w'] eqn:E; try done.
  - exfalso. pose proof (of_schema_result _ _ _ Hne E) as Hst.
    pose proof (rewriteResponse_calm fn Hcalm _ _ _ _ Hg Hst l) as Hc.
    apply GetResponseModifier_refines in Hg as (_ & _ & Hr). destruct (Hr st l Hst) as [_ Ht].
    unfold bind, lift in H. destruct (rewriteResponse _ _ _ l) as [[st'|e|w1] l1]; try done.
    + destruct (Ht st' l1 Hfn eq_refl) as [Ht' E']. unfold struct_typed in Ht'. rewrite E' in Ht'.
      by destruct (EncodeSchema_calm st' _ Ht' w).
    + by destruct (Hc w1).
  - simpl in H. injection H as ->. apply DecodeSchema_panic in E as [Ht ->]. split; [done|].
    apply GetResponseModifier_inv in Hg as (Hv & Hl & _ & Hk).
    apply lookup_lt_Some in Hl as Hlt.
    destruct Hk as [[-> _]|[-> _]]; [left|right]; (split; [done|]); cbn in Hl, Hlt.
    + assert (forallb (fun v => negb (tagged (nth v metadataResponseSchemaVersions TypeBool))) (seq 0 9) = true)
        as Hn by (by vm_compute).
      rewrite forallb_forall in Hn. apply Znot_gt_le. intros Hlt9.
      specialize (Hn (Z.to_nat apiVersion) ltac:(apply in_seq; lia)).
      unfold responseSchemas in Hl. cbn [Z.eqb apiKeyMetadata] in Hl.
      erewrite nth_lookup_Some in Hn by exact Hl. by rewrite Ht in Hn.
    + assert (forallb (fun v => negb (tagged (nth v findCoordinatorResponseSchemaVersions TypeBool))) (seq 0 3) = true)
        as Hn by (by vm_compute).
      rewrite forallb_forall in Hn. apply Znot_gt_le. intros Hlt9.
      specialize (Hn (Z.to_nat apiVersion) ltac:(apply in_seq; lia)).
      erewrite nth_lookup_Some in Hn by exact Hl. by rewrite Ht in Hn.
Qed.

Definition metadata_modifier (v : nat) : responseModifier (list (bytes * Z)) :=
  {| rm_schema := nth v metadataResponseSchemaVersions TypeBool;
     modifyResponseFunc := modifyMetadataResponse; netAddressMappingFunc := Some example_mapping |}.

(** The hypothesis that [Apply] panics can hold: the witness is a finding. *)
Lemma Apply_panics_only_in_make_witness :
  makeslice_panic = makeslice_panic /\ ((3 = 3 /\ 9 <= 9) \/ (3 = 10 /\ 3 <= 9)).
Proof.
  apply (Apply_panics_only_in_make 3 9 example_mapping (metadata_modifier 9) hostile_response []).
  - reflexivity.
  - apply example_mapping_int32.
  - intros h p n l w. done.
  - vm_compute. reflexivity.
Defined.

(** [GetResponseModifier] supports metadata versions 0 to 13 and
    find-coordinator versions 0 to 6, rejects every other version of the two
    keys with an error, and has no modifier for the other keys. *)
Theorem GetResponseModifier_versions {L} (apiKey apiVersion : Z)
    (fn : option (NetAddressMappingFunc L)) :
  match GetResponseModifier apiKey apiVersion fn with
  | Ok (Some f) =>
      netAddressMappingFunc f = fn /\
      ((apiKey = 3 /\ 0 <= apiVersion <= 13) \/ (apiKey = 10 /\ 0 <= apiVersion <= 6))
  | Ok None => apiKey <> 3 /\ apiKey <> 10
  | Err e =>
      e = Errorf "Unsupported response schema version %d for key %d " /\
      ((apiKey = 3 /\ ~ 0 <= apiVersion <= 13) \/ (apiKey = 10 /\ ~ 0 <= apiVersion <= 6))
  | Panic _ => False
  end.
Proof.
  unfold GetResponseModifier, newResponseModifier. rewrite !getResponseSchema_spec.
  unfold apiKeyMetadata, apiKeyFindCoordinator.
  destruct (Z.eqb_spec apiKey 3), (Z.eqb_spec apiKey 10); try lia; try done;
    (destruct (Z.ltb_spec apiVersion 0); [simpl; split; [done|lia]|]);
    match goal with |- context [?l !! ?i] => destruct (l !! i) eqn:E end; simpl;
    (split; [done|]);
    [apply lookup_lt_Some in E | apply lookup_ge_None in E
    |apply lookup_lt_Some in E | apply lookup_ge_None in E]; cbn in E; lia.
Qed.

(** ** Codecs *)

(** C11: a message [EncodeSchema] writes is read back by [DecodeSchema] as the
    same struct, for every schema whose structs have at least one field, when
    the struct is typed by the schema.  Typed includes the limit the decoder
    has and the encoder has not: the arrays that are not compact hold at most
    2 * 65535 elements; a longer one is written and then refused. *)
Theorem EncodeSchema_roundtrip (sch : Schema) (st : Struct) (bs : bytes) :
  solid sch = true -> typed sch (VStruct (Struct_Schema st) (Struct_Values st)) = true ->
  EncodeSchema (Some st) sch = Ok (Some bs) -> DecodeSchema (Some bs) sch = Ok (Some st).
Proof. apply EncodeSchema_DecodeSchema. Qed.

Lemma EncodeSchema_roundtrip_witness :
  DecodeSchema (Some example_response) findCoordinatorResponseV0 = Ok (Some example_struct).
Proof.
  apply (EncodeSchema_roundtrip findCoordinatorResponseV0 example_struct example_response);
    vm_compute; reflexivity.
Defined.

(** C40: whatever the bytes, a struct [DecodeSchema] returns is typed by the
    schema: dynamic types, integer ranges, array lengths, nested structs. *)
Theorem DecodeSchema_typed (buf : bytes) (sch : Schema) (st : Struct) :
  DecodeSchema (Some buf) sch = Ok (Some st) ->
  typed sch (VStruct (Struct_Schema st) (Struct_Values st)) = true.
Proof. apply DecodeSchema_result_typed. Qed.

Lemma DecodeSchema_typed_witness :
  typed findCoordinatorResponseV0
    (VStruct (Struct_Schema example_struct) (Struct_Values example_struct)) = true.
Proof. apply (DecodeSchema_typed example_response). vm_compute. reflexivity. Defined.

(** [EncodeSchema] of a typed struct runs its two passes in agreement: it
    returns the specified bytes, or the first limit error of the counting
    pass, or the size error; it never panics and never writes out of the
    counted buffer.*)
Theorem EncodeSchema_spec (sch : Schema) (st : Struct) :
  typed sch (VStruct (Struct_Schema st) (Struct_Values st)) = true ->
  EncodeSchema (Some st) sch =
    rmap Some (let? bs := value_bytes sch (VStruct (Struct_Schema st) (Struct_Values st)) in
               if MaxRequestSize <? len bs
               then Err (SchemaEncodingError "invalid request size (%d)") else Ok bs) /\
  calm (EncodeSchema (Some st) sch).
Proof. intros H. split; [by apply EncodeSchema_typed | by apply EncodeSchema_calm]. Qed.

Lemma EncodeSchema_spec_witness :
  EncodeSchema (Some example_struct) findCoordinatorResponseV0 = Ok (Some example_response).
Proof.
  destruct (EncodeSchema_spec findCoordinatorResponseV0 example_struct) as [-> _];
    vm_compute; reflexivity.
Defined.

(** The panic of [SchemaTaggedFields.decode] is reachable: a tagged-field
    count above 2^43 makes [DecodeSchema] panic, for every schema of a single
    tagged-field section and whatever follows the count. *)
Theorem DecodeSchema_huge_count_panics (name tags : string) (n : Z) (rest : bytes) :
  2 ^ 43 < n < 2 ^ 63 ->
  DecodeSchema (Some (varint_bytes n ++ rest)) (schema name [SchemaTaggedFields tags]) =
    Panic makeslice_panic.
Proof.
  intros Hn. unfold DecodeSchema. cbn [Schema_decode Field_decode].
  unfold SchemaTaggedFields_decode.
  pose proof (decodes_getVarint n ltac:(unfold inS; lia) [] rest) as Hv.
  unfold at_ in Hv. rewrite app_nil_l in Hv. cbn [len length Z.of_nat] in Hv.
  unfold bind at 1 2 3 4 5. rewrite len_nil in Hv. rewrite Hv.
  replace (n =? 0) with false by (symmetry; apply Z.eqb_neq; lia).
  replace (n <? 0) with false by (symmetry; apply Z.ltb_ge; lia).
  unfold bind at 1, lift, makeslice, rawTaggedField_size, maxAlloc.
  replace (n <? 0) with false by (symmetry; apply Z.ltb_ge; lia).
  by replace (2 ^ 48 <? 32 * n) with true by (symmetry; apply Z.ltb_lt; lia).
Qed.

Lemma DecodeSchema_huge_count_panics_witness :
  DecodeSchema (Some (varint_bytes (2 ^ 43 + 1) ++ [])) (schema "s" [SchemaTaggedFields "t"]) =
    Panic makeslice_panic.
Proof. apply DecodeSchema_huge_count_panics. lia. Defined.
