(* ===== verification/MessageTheorems.v ===== *)
(** The properties of the messages the proxy reads and writes itself: round
    trips, layouts, header versions, error texts. *)
From Stdlib Require Import ZArith Lia Strings.Byte.
From stdpp Require Import base list strings gmap pretty.
From S2P Require Import Prelude GoLib Encoder Decoder Errors Schema SchemaFacts Messages Net SaslLocal Responses ResponsesFacts.

(** ** Inputs the witnesses are evaluated on *)

Definition example_handshake : Request SaslHandshakeRequestV0orV1 :=
  {| CorrelationID := 7; ClientID := $"client"; Body := Some {| Version := 1; Mechanism := $"PLAIN" |} |}.
Definition example_handshake_bytes : bytes :=
  be_put 2 17 ++ be_put 2 1 ++ be_put 4 7 ++ be_put 2 6 ++ $"client" ++ be_put 2 5 ++ $"PLAIN".
Definition blank_handshake : Request SaslHandshakeRequestV0orV1 :=
  {| CorrelationID := 0; ClientID := []; Body := Some {| Version := 1; Mechanism := [] |} |}.

Definition example_authenticate : RequestV2 SaslAuthenticateRequestV2 :=
  {| r2_CorrelationID := 8; r2_ClientID := $"c"; r2_TaggedFields := [];
     r2_Body := Some {| sar2_SaslAuthBytes := $"tok";
                        sar2_TaggedFields := [{| tag := 3; data := Some ($"x") |}] |} |}.
Definition blank_authenticate : RequestV2 SaslAuthenticateRequestV2 :=
  {| r2_CorrelationID := 0; r2_ClientID := []; r2_TaggedFields := [];
     r2_Body := Some {| sar2_SaslAuthBytes := []; sar2_TaggedFields := [] |} |}.
Definition example_authenticate_bytes : bytes :=
  default [] (match Encode (Some (RequestV2_encode example_authenticate)) with Ok b => b | _ => None end).

(** ** Requests *)

(** A request the proxy encodes is read back by [Request.decode] into any
    receiver whose body has its key and version, for every body type that keeps
    the laws of [ProtocolBody]; and the same for the flexible requests, whose
    header and body carry tagged fields.*)
Theorem Requests_roundtrip {B} {PB : ProtocolBody B} {PL : ProtocolBodyLaws B} (b b0 : B) (bs : bytes) :
  key b0 = key b -> version b0 = version b -> body_valid b ->
  (forall r r0 : Request B, Body r = Some b -> Body r0 = Some b0 -> inS 32 (CorrelationID r) ->
     Encode (Some (Request_encode r)) = Ok (Some bs) ->
     Decode (Some bs) (Request_decode r0) = Ok (Some r)) /\
  (forall r r0 : RequestV2 B, r2_Body r = Some b -> r2_Body r0 = Some b0 -> inS 32 (r2_CorrelationID r) ->
     tagged_typed (r2_TaggedFields r) = true ->
     Encode (Some (RequestV2_encode r)) = Ok (Some bs) ->
     Decode (Some bs) (RequestV2_decode r0) = Ok (Some r)).
Proof.
  intros Ek Ev Hv. split.
  - intros r r0 E E0 Hc. apply (Encode_Decode _ _ _ _ _ (emits_Request r)).
    intros bs' H. by eapply decodes_Request.
  - intros r r0 E E0 Hc Ht. apply (Encode_Decode _ _ _ _ _ (emits_RequestV2 r)).
    intros bs' H. by eapply decodes_RequestV2.
Qed.

Lemma Requests_roundtrip_witness :
  Decode (Some example_handshake_bytes) (Request_decode blank_handshake) = Ok (Some example_handshake) /\
  Decode (Some example_authenticate_bytes) (RequestV2_decode blank_authenticate) = Ok (Some example_authenticate).
Proof.
  split.
  - destruct (Requests_roundtrip {| Version := 1; Mechanism := $"PLAIN" |} {| Version := 1; Mechanism := [] |}
                example_handshake_bytes) as [H _]; [reflexivity|reflexivity|right; reflexivity|].
    apply (H example_handshake blank_handshake).
    + reflexivity.
    + reflexivity.
    + unfold inS. simpl. lia.
    + vm_compute. reflexivity.
  - destruct (Requests_roundtrip
                {| sar2_SaslAuthBytes := $"tok"; sar2_TaggedFields := [{| tag := 3; data := Some ($"x") |}] |}
                {| sar2_SaslAuthBytes := []; sar2_TaggedFields := [] |}
                example_authenticate_bytes) as [_ H]; [reflexivity|reflexivity|reflexivity|].
    apply (H example_authenticate blank_authenticate).
    + reflexivity.
    + reflexivity.
    + unfold inS. simpl. lia.
    + reflexivity.
    + vm_compute. reflexivity.
Defined.

(** The eight bytes the proxy reads of every request are decoded as length,
    key and version, signed and big-endian; a length of four or less, which
    has no room for key and version, is an error.*)
Theorem RequestKeyVersion_decode_spec (buf : bytes) :
  length buf = 8%nat ->
  DecodeMessage buf RequestKeyVersion_decode =
    if int32 (be_value (take 4 buf)) <=? 4
    then Err (PacketDecodingError "message of length %d too small")
    else Ok {| Length := int32 (be_value (take 4 buf));
               ApiKey := int16 (be_value (take 2 (drop 4 buf)));
               ApiVersion := int16 (be_value (drop 6 buf)) |}.
Proof.
  intros H.
  set (L := int32 (be_value (take 4 buf))). set (k := int16 (be_value (take 2 (drop 4 buf)))).
  set (v := int16 (be_value (drop 6 buf))).
  assert (buf = be_put 4 L ++ be_put 2 k ++ be_put 2 v) as E0.
  { unfold L, k, v. rewrite (be_put_wrapS 4), !(be_put_wrapS 2) by lia.
    rewrite !be_put_value_length by (rewrite ?length_take, ?length_drop; lia).
    change 6%nat with (4 + 2)%nat. by rewrite <- drop_drop, !take_drop. }
  assert (inS 32 L /\ inS 16 k /\ inS 16 v) as (HL & Hk & Hv)
    by (split_and!; apply wrapS_range; lia).
  clearbody L k v. subst buf. clear H. unfold DecodeMessage. destruct (L <=? 4) eqn:E.
  - unfold Decode. change {| rd_raw := ?b; rd_off := 0 |} with (at_ [] b).
    unfold RequestKeyVersion_decode. erewrite bind_Ok by (apply decodes_getInt32; done).
    rewrite E. done.
  - rewrite (Decode_decodes RequestKeyVersion_decode _ {| Length := L; ApiKey := k; ApiVersion := v |});
      [done|].
    eapply decodes_bind; [by apply decodes_getInt32|]. rewrite E.
    eapply decodes_bind; [by apply decodes_getInt16|].
    apply (decodes_map _ (fun v => {| Length := L; ApiKey := k; ApiVersion := v |})).
    by apply decodes_getInt16.
Qed.

Lemma RequestKeyVersion_decode_spec_witness :
  DecodeMessage (be_put 4 42 ++ be_put 2 3 ++ be_put 2 9) RequestKeyVersion_decode =
    Ok {| Length := 42; ApiKey := 3; ApiVersion := 9 |}.
Proof. rewrite RequestKeyVersion_decode_spec; reflexivity. Defined.

(** ** Responses *)

(** The SASL responses the proxy writes are read back as written: the
    handshake and the three versions of the authentication response. *)
Theorem SaslResponses_roundtrip :
  (forall r l bs, inS 16 (shr_Err r) -> EnabledMechanisms r = Some l -> len l <= 2 * MaxUint16 ->
     Encode (Some (SaslHandshakeResponseV0orV1_encode r)) = Ok (Some bs) ->
     Decode (Some bs) SaslHandshakeResponseV0orV1_decode = Ok (Some r)) /\
  (forall r bs, inS 16 (sap0_Err r) ->
     Encode (Some (SaslAuthenticateResponseV0_encode r)) = Ok (Some bs) ->
     Decode (Some bs) SaslAuthenticateResponseV0_decode = Ok (Some r)) /\
  (forall r bs, inS 16 (sap1_Err r) -> inS 64 (sap1_SessionLifetimeMs r) ->
     Encode (Some (SaslAuthenticateResponseV1_encode r)) = Ok (Some bs) ->
     Decode (Some bs) SaslAuthenticateResponseV1_decode = Ok (Some r)) /\
  (forall r bs, inS 16 (sap2_Err r) -> inS 64 (sap2_SessionLifetimeMs r) ->
     tagged_typed (sap2_TaggedFields r) = true ->
     Encode (Some (SaslAuthenticateResponseV2_encode r)) = Ok (Some bs) ->
     Decode (Some bs) SaslAuthenticateResponseV2_decode = Ok (Some r)).
Proof.
  split_and!.
  - intros r l bs He El Hl. apply (Encode_Decode _ _ _ _ _ (emits_SaslHandshakeResponse r)).
    intros. by eapply decodes_SaslHandshakeResponse.
  - intros r bs He. apply (Encode_Decode _ _ _ _ _ (emits_SaslAuthenticateResponseV0 r)).
    intros. by apply decodes_SaslAuthenticateResponseV0.
  - intros r bs He Hm. apply (Encode_Decode _ _ _ _ _ (emits_SaslAuthenticateResponseV1 r)).
    intros. by apply decodes_SaslAuthenticateResponseV1.
  - intros r bs He Hm Ht. apply (Encode_Decode _ _ _ _ _ (emits_SaslAuthenticateResponseV2 r)).
    intros. by apply decodes_SaslAuthenticateResponseV2.
Qed.

Definition example_refusal : SaslAuthenticateResponseV2 :=
  {| sap2_Err := KErrSASLAuthenticationFailed; sap2_ErrMsg := Some ($"no"); sap2_SaslAuthBytes := [];
     sap2_SessionLifetimeMs := 0; sap2_TaggedFields := [] |}.
Definition example_refusal_bytes : bytes :=
  be_put 2 58 ++ PutUvarint 3 ++ $"no" ++ PutUvarint 1 ++ be_put 8 0 ++ PutUvarint 0.

Lemma SaslResponses_roundtrip_witness :
  Decode (Some example_refusal_bytes) SaslAuthenticateResponseV2_decode = Ok (Some example_refusal).
Proof.
  apply (proj2 (proj2 (proj2 SaslResponses_roundtrip)) example_refusal).
  - unfold inS. vm_compute. split; congruence.
  - unfold inS. vm_compute. split; congruence.
  - reflexivity.
  - vm_compute. reflexivity.
Defined.

(** The two response headers are read back as written when their length
    leaves room for the correlation id, and [ResponseHeader.decode] refuses
    every length of four or less. *)
Theorem ResponseHeaders_roundtrip :
  (forall r bs, inS 32 (rh_Length r) -> inS 32 (rh_CorrelationID r) ->
     Encode (Some (ResponseHeader_encode r)) = Ok (Some bs) ->
     length bs = 8%nat /\
     Decode (Some bs) ResponseHeader_decode =
       if rh_Length r <=? 4 then Err (PacketDecodingError "message of length %d too small")
       else Ok (Some r)) /\
  (forall r bs, 4 < rh1_Length r -> inS 32 (rh1_Length r) -> inS 32 (rh1_CorrelationID r) ->
     tagged_typed (RawTaggedFields r) = true ->
     Encode (Some (ResponseHeaderV1_encode r)) = Ok (Some bs) ->
     Decode (Some bs) ResponseHeaderV1_decode = Ok (Some r)).
Proof.
  split.
  - intros r bs H1 H2 H. apply (Encode_emits _ _ _ (emits_ResponseHeader r)) in H. injection H as <-.
    split; [unfold ResponseHeader_bytes; by rewrite length_app, !length_be_put|].
    destruct (rh_Length r <=? 4) eqn:E.
    + unfold Decode. change {| rd_raw := ?b; rd_off := 0 |} with (at_ [] b).
      unfold ResponseHeader_decode. erewrite bind_Ok by (apply decodes_getInt32; done).
      by rewrite E.
    + apply Decode_decodes, decodes_ResponseHeader; [lia|done..].
  - intros r bs H H1 H2 Ht. apply (Encode_Decode _ _ _ _ _ (emits_ResponseHeaderV1 r)).
    intros. by apply decodes_ResponseHeaderV1.
Qed.

Lemma ResponseHeaders_roundtrip_witness :
  Decode (Some (be_put 4 42 ++ be_put 4 7)) ResponseHeader_decode =
    Ok (Some {| rh_Length := 42; rh_CorrelationID := 7 |}).
Proof.
  apply (proj1 ResponseHeaders_roundtrip {| rh_Length := 42; rh_CorrelationID := 7 |}).
  - unfold inS. simpl. lia.
  - unfold inS. simpl. lia.
  - vm_compute. reflexivity.
Defined.

(** ** Header versions *)

(** [ResponseHeaderVersion] is the table of the first flexible version of
    every API key: 1 from that version on, 0 before, for all versions of the
    keys without a flexible one; keys not in the table have header version 1.
    It is never the negative value its callers check for. *)
Theorem ResponseHeaderVersion_spec (r : RequestKeyVersion) :
  ResponseHeaderVersion r = headerVersionSpec (ApiKey r) (ApiVersion r) /\
  (exists tf, NewResponseHeaderTaggedFields r = Ok tf /\ rhtf_version tf = ResponseHeaderVersion r).
Proof.
  rewrite ResponseHeaderVersion_table. split; [done|].
  unfold NewResponseHeaderTaggedFields. rewrite ResponseHeaderVersion_table.
  replace (headerVersionSpec (ApiKey r) (ApiVersion r) <? 0) with false; [by eexists|].
  unfold headerVersionSpec. destruct (list_find _ _) as [[? [? [first|]]]|]; [|done..].
  by destruct (first <=? ApiVersion r).
Qed.

(** The header version agrees with the response schemas: for every version
    of metadata and find-coordinator responses the proxy has a schema for, the
    header has tagged fields if and only if the body has.*)
Theorem ResponseHeaderVersion_agrees_with_schemas {L} (r : RequestKeyVersion)
    (fn : option (NetAddressMappingFunc L)) (f : responseModifier L) :
  GetResponseModifier (ApiKey r) (ApiVersion r) fn = Ok (Some f) ->
  ResponseHeaderVersion r = if tagged (rm_schema f) then 1 else 0.
Proof.
  intros Hg. apply GetResponseModifier_inv in Hg as (Hv & Hl & _ & Hk).
  rewrite ResponseHeaderVersion_table. apply lookup_lt_Some in Hl as Hlt.
  set (agrees := fun k => forallb (fun i =>
         headerVersionSpec k (Z.of_nat i) =? if tagged (nth i (responseSchemas k) TypeBool) then 1 else 0)
         (seq 0 (length (responseSchemas k)))).
  assert (agrees (ApiKey r) = true) as H by (destruct Hk as [[-> _]|[-> _]]; vm_compute; reflexivity).
  unfold agrees in H. rewrite forallb_forall in H.
  specialize (H (Z.to_nat (ApiVersion r)) ltac:(apply in_seq; lia)).
  erewrite nth_lookup_Some in H by exact Hl. rewrite Z2Nat.id in H by done. lia.
Qed.

Lemma ResponseHeaderVersion_agrees_with_schemas_witness :
  ResponseHeaderVersion {| Length := 20; ApiKey := 3; ApiVersion := 9 |} =
    if tagged (nth 9 metadataResponseSchemaVersions TypeBool) then 1 else 0.
Proof.
  apply (@ResponseHeaderVersion_agrees_with_schemas unit _ None
           {| rm_schema := nth 9 metadataResponseSchemaVersions TypeBool;
              modifyResponseFunc := modifyMetadataResponse; netAddressMappingFunc := None |}).
  reflexivity.
Defined.

(** ** Error codes *)

(** Every code from -1 to 60 has a text of its own that names the Kafka
    server (no two codes share one), and every other code gets the text of an
    unknown error with the code in it. *)
Theorem KError_Error_texts (err err' : KError) :
  (-1 <= err <= 60 -> String.prefix "kafka server: " (KError_Error err) = true /\
     (-1 <= err' <= 60 -> KError_Error err = KError_Error err' -> err = err')) /\
  (err < -1 \/ 60 < err ->
     KError_Error err = ("Unknown error, how did this happen? Error code = " +:+ pretty err)%string).
Proof.
  split.
  - intros H. assert (err ∈ seqZ (-1) 62) as Hin by (apply elem_of_seqZ; lia). split.
    + revert Hin. generalize err. apply Forall_forall, (bool_decide_eq_true_1 _). by vm_compute.
    + intros H' E. assert (err' ∈ seqZ (-1) 62) as Hin' by (apply elem_of_seqZ; lia).
      assert (NoDup (KError_Error <$> seqZ (-1) 62)) as Hnd
        by (apply (bool_decide_eq_true_1 _); by vm_compute).
      apply list_elem_of_lookup in Hin as [i Hi], Hin' as [j Hj].
      assert (i = j) as ->; [|congruence].
      eapply NoDup_lookup; [exact Hnd|by rewrite list_lookup_fmap, Hi|by rewrite list_lookup_fmap, Hj, E].
  - intros H. unfold KError_Error.
    repeat match goal with
    | |- context [err =? ?c] =>
        replace (err =? c) with false by (symmetry; apply Z.eqb_neq; unfold c; lia)
    end. done.
Qed.

Lemma KError_Error_texts_witness :
  KError_Error 61 = "Unknown error, how did this happen? Error code = 61"%string.
Proof. rewrite (proj2 (KError_Error_texts 61 0)); [reflexivity | lia]. Defined.

(** ** Tagged fields of response headers on the stream *)

(** [MaybeRead] never panics and always ends, whatever the stream holds;
    when it succeeds the bytes it returns are exactly those it took off the
    stream; on a header with well-formed tagged fields, followed by anything,
    it takes exactly their bytes, and nothing for header version 0.*)
Theorem MaybeRead_exact (r : ResponseHeaderTaggedFields) :
  (forall c w, fst (MaybeRead r c) <> Panic w) /\
  (forall c b c', MaybeRead r c = (Ok b, c') -> rx c = b ++ rx c' /\ c' = set_rx (rx c') c) /\
  (forall l bs c, 1 <= rhtf_version r -> tagged_typed l = true -> tagged_bytes l = Ok bs ->
     MaybeRead r (fed bs c) = (Ok bs, c)) /\
  (forall c, rhtf_version r < 1 -> MaybeRead r c = (Ok [], c)).
Proof.
  split_and!.
  - apply MaybeRead_total.
  - apply MaybeRead_prefix.
  - intros l bs c Hv Ht Hb. by apply (MaybeRead_tagged r l).
  - intros c Hv. unfold MaybeRead. by replace (1 <=? rhtf_version r) with false by (symmetry; apply Z.leb_gt; lia).
Qed.

Definition example_tags : list rawTaggedField := [{| tag := 3; data := Some ($"x") |}].
Definition example_tag_bytes : bytes := PutUvarint 1 ++ PutUvarint 3 ++ PutUvarint 1 ++ $"x".
Definition example_stream : conn :=
  {| rx := $"body"; rx_end := EOF; tx := []; tx_err := None; deadline_err := None |}.

Lemma MaybeRead_exact_witness :
  MaybeRead {| rhtf_version := 1 |} (fed example_tag_bytes example_stream) = (Ok example_tag_bytes, example_stream).
Proof.
  apply (proj1 (proj2 (proj2 (MaybeRead_exact {| rhtf_version := 1 |}))) example_tags).
  - simpl. lia.
  - reflexivity.
  - vm_compute. reflexivity.
Defined.
