(* ===== verification/Auth.v ===== *)
(** The gateway handshake between two proxies (proxy/auth.go): the client
    sends magic, length and method and token separated by a NUL; the server
    verifies them and answers four zero bytes. *)
From Stdlib Require Import ZArith Lia Strings.Byte.
From stdpp Require Import base list strings gmap.
From S2P Require Import Prelude GoLib GoStrings Encoder Decoder Errors Schema Messages Net SaslLocal.

Section auth.
Context {X : Type}.

(** [apis.TokenResponse] *)
Record TokenResponse := { Success : bool; Status : Z; Token : bytes }.

Record AuthClient := {
  ac_enabled : bool;
  ac_magic : Z;
  ac_method : bytes;
  ac_tokenProvider : M X TokenResponse
}.

Definition sendAndReceiveGatewayAuth (b : AuthClient) : M (conn * X) unit :=
  let* resp := on_ext (ac_tokenProvider b) in
  if negb (Success resp) then fail (Errorf "get token failed with status: %d")
  else if bool_decide (Token resp = []) then fail (Errorf "get token returned empty token")
  else
    let data := Token resp in
    let length := len (ac_method b) + 1 + len data in
    let buf := be_put 8 (ac_magic b) ++ be_put 4 (uint32 length) ++ ac_method b ++ [x00] ++ data in
    do* on_conn SetDeadline in
    do* wrapf (on_conn (Write buf)) "Failed to write gateway handshake" in
    fun s =>
      match on_conn (ReadFull 4) s with
      | (Ok _, s') => (Ok tt, s')
      | (Err e, s') =>
          (Err (if decide (e = EOF) then Errorf "Gateway auth failed"
                else Wrapf e "Failed to read response while gateway authenticating"), s')
      | (Panic w, s') => (Panic w, s')
      end.

Record AuthServer := {
  as_enabled : bool;
  as_magic : Z;
  as_method : bytes;
  as_tokenInfo : bytes -> M X (bool * Z)
}.

Definition receiveAndSendGatewayAuth (b : AuthServer) : M (conn * X) unit :=
  do* on_conn SetDeadline in
  let* headerBuf := wrapf (on_conn (ReadFull 12)) "Failed to read gateway bytes magic" in
  let magic := be_value (take 8 headerBuf) in
  if negb (magic =? as_magic b) then fail (Errorf "gateway handshake magic bytes mismatch")
  else
    let length := be_value (drop 8 headerBuf) in
    let* payload := wrapf (on_conn (ReadFull_make length)) "failed to read gateway handshake payload" in
    match Split x00 payload with
    | [method; data] =>
        if negb (bool_decide (method = as_method b)) then
          fail (Errorf "gateway handshake method mismatch: expected %s , got %s")
        else
          let* resp := on_ext (as_tokenInfo b data) in
          let '(Success, Status) := resp in
          if negb Success then fail (Errorf "gateway server verify token failed with status: %d")
          else on_conn (Write (replicate 4 x00))
    | _ => fail (Errorf "invalid gateway handshake: expected 2 tokens, got %d")
    end.

End auth.
Arguments AuthClient : clear implicits.
Arguments AuthServer : clear implicits.
