(* ===== verification/SaslFacts.v ===== *)
(** Local SASL and the gateway handshake: a run that succeeds was accepted by
    the authenticator of the requested mechanism, on the credentials sent; the server of the gateway
    handshake reads back what the client wrote. *)
From Stdlib Require Import ZArith Lia Strings.Byte.
From stdpp Require Import base list strings gmap.
From S2P Require Import Prelude GoLib GoStrings OAuthBearer Encoder Decoder Errors Schema SchemaFacts Messages Net SaslLocal Auth.

Section local.
Context {X : Type} (Error_text : error -> bytes).

Lemma on_conn_inv {A} (m : M conn A) (s : conn * X) a s' :
  on_conn m s = (Ok a, s') -> exists c, m (fst s) = (Ok a, c) /\ s' = (c, snd s).
Proof. unfold on_conn. destruct (m (fst s)) as [r c]. intros [= -> <-]. eauto. Qed.
Lemma on_ext_inv {A} (m : M X A) (s : conn * X) a s' :
  on_ext m s = (Ok a, s') -> exists x, m (snd s) = (Ok a, x) /\ s' = (fst s, x).
Proof. unfold on_ext. destruct (m (snd s)) as [r x]. intros [= -> <-]. eauto. Qed.

Lemma DecodeMessage_decodes {A} (d : decoder A) bs a : decodes d bs a -> DecodeMessage bs d = Ok a.
Proof. intros H. unfold DecodeMessage. by rewrite (Decode_decodes d bs a H). Qed.

Lemma RequestKeyVersion_decode_put L k v :
  4 < L -> inS 32 L -> inS 16 k -> inS 16 v ->
  DecodeMessage (be_put 4 L ++ be_put 2 k ++ be_put 2 v) RequestKeyVersion_decode =
    Ok {| Length := L; ApiKey := k; ApiVersion := v |}.
Proof.
  intros H4 HL Hk Hv. apply DecodeMessage_decodes.
  eapply decodes_bind; [by apply decodes_getInt32|].
  replace (L <=? 4) with false by (symmetry; apply Z.leb_gt; lia).
  eapply decodes_bind; [by apply decodes_getInt16|].
  apply (decodes_map _ (fun v => {| Length := L; ApiKey := k; ApiVersion := v |})).
  by apply decodes_getInt16.
Qed.

Lemma attempt_None {S A} (m : M S A) s s' : attempt m s = (Ok None, s') -> exists a, m s = (Ok a, s').
Proof. unfold attempt. destruct (m s) as [[a|e|w] s1]; intros [= <-]. eauto. Qed.

Lemma replyAuth_Ok authErr (reply : KError -> option bytes -> M (conn * X) unit) s a s' :
  replyAuth Error_text authErr reply s = (Ok a, s') -> authErr = None.
Proof.
  unfold replyAuth. destruct authErr; [|done]. intros H. by apply bind_inv in H as (? & ? & _ & ?).
Qed.

(** A response is written as its header with its length, then its body. *)
Lemma writeResponse_Ok (response : encoder) corr out c (x : X) :
  Encode (Some response) = Ok (Some out) -> tx_err c = None ->
  writeResponse (replyHeaderV0 corr) 4 response (c, x) =
    (Ok tt, (set_tx (tx c ++ be_put 4 (len out + 4) ++ be_put 4 corr ++ out) None c, x)).
Proof.
  intros Ho Ht. unfold writeResponse.
  erewrite bind_Ok by (unfold lift, EncodeMessage; rewrite Ho; reflexivity).
  change (default [] (Some out)) with out.
  assert (EncodeMessage (replyHeaderV0 corr (int32 (len out + 4))) =
          Ok (be_put 4 (len out + 4) ++ be_put 4 corr)) as Hh.
  { unfold EncodeMessage, replyHeaderV0, Encode.
    rewrite (encode_passes_emits _ _ _ (emits_ResponseHeader _)). unfold ResponseHeader_bytes.
    cbn [rh_Length rh_CorrelationID rbind rmap default]. rewrite len_app, !len_be_put.
    change (MaxRequestSize <? _) with false. cbn [rbind rmap default].
    by rewrite be_put_int32. }
  erewrite bind_Ok by (unfold lift; by rewrite Hh).
  assert (forall b d, tx_err d = None -> on_conn (Write b) (d, x) = (Ok tt, (set_tx (tx d ++ b) None d, x)))
    as HW by (intros b d E; unfold on_conn, Write; cbn [fst snd]; by rewrite E).
  erewrite bind_Ok by (by apply HW). rewrite HW by done. unfold set_tx. cbn [tx rx rx_end deadline_err].
  by rewrite <- !app_assoc.
Qed.

(** *** What the client sent *)

(** [h] is the rest of a [SaslHandshake] request of version [v] that begins
    with the 8 bytes [buf], and asks for the mechanism [m]. *)
Definition requested_mechanism (buf : bytes) (v : Z) (h m : bytes) : Prop :=
  let blank := {| Version := v; Mechanism := [] |} in
  exists r req,
    DecodeMessage buf RequestKeyVersion_decode = Ok r /\ ApiKey r = 17 /\ ApiVersion r = v /\
    len h = Length r - 4 /\
    DecodeMessage (drop 4 buf ++ h)
      (Request_decode {| CorrelationID := 0; ClientID := []; Body := Some blank |}) = Ok req /\
    m = Mechanism (default blank (Body req)).

(** The credentials in a [SaslAuthenticate] request, by its version. *)
Definition credentials_of (v : Z) (payload : bytes) (creds : option bytes) : Prop :=
  (v = 0 /\ exists req,
     DecodeMessage payload (Request_decode
       {| CorrelationID := 0; ClientID := []; Body := Some {| sar0_SaslAuthBytes := None |} |}) = Ok req /\
     creds = Body req ≫= sar0_SaslAuthBytes) \/
  (v = 1 /\ exists req,
     DecodeMessage payload (Request_decode
       {| CorrelationID := 0; ClientID := []; Body := Some {| sar1_SaslAuthBytes := None |} |}) = Ok req /\
     creds = Body req ≫= sar1_SaslAuthBytes) \/
  (v = 2 /\ exists req,
     DecodeMessage payload (RequestV2_decode
       {| r2_CorrelationID := 0; r2_ClientID := []; r2_TaggedFields := [];
          r2_Body := Some {| sar2_SaslAuthBytes := []; sar2_TaggedFields := [] |} |}) = Ok req /\
     creds = sar2_SaslAuthBytes <$> r2_Body req).

(** [b] carries the credentials after a handshake of version [v]: as they are
    behind their length, or in a whole [SaslAuthenticate] request. *)
Definition sent_credentials (v : Z) (b : bytes) (creds : option bytes) : Prop :=
  if v =? 0 then exists c, creds = Some c /\ b = be_put 4 (len c) ++ c
  else exists kv body r,
    b = kv ++ body /\ DecodeMessage kv RequestKeyVersion_decode = Ok r /\ ApiKey r = 36 /\
    len body = Length r - 4 /\ credentials_of (ApiVersion r) (drop 4 kv ++ body) creds.

(** The connection's input and the outside stay as they are. *)
Definition only_writes (s s' : conn * X) : Prop := rx (fst s') = rx (fst s) /\ snd s' = snd s.

Lemma writeResponse_only_writes header n (response : encoder) (s : conn * X) u s' :
  writeResponse header n response s = (Ok u, s') -> only_writes s s'.
Proof.
  intros H. unfold writeResponse in H. apply bind_inv in H as (? & s1 & (_ & ->)%lift_inv & H).
  apply bind_inv in H as (? & s2 & (_ & ->)%lift_inv & H). apply bind_inv in H as (? & s3 & H1 & H).
  apply on_conn_inv in H1 as (c1 & (e1 & ->)%Write_Ok & ->).
  by apply on_conn_inv in H as (c2 & (e2 & ->)%Write_Ok & ->).
Qed.

Lemma SetDeadline_inv (s : conn * X) u s' : on_conn SetDeadline s = (Ok u, s') -> s' = s.
Proof. intros (c & ->%SetDeadline_Ok & ->)%on_conn_inv. by destruct s. Qed.

Lemma ReadFull_inv n (s s' : conn * X) b :
  on_conn (ReadFull n) s = (Ok b, s') -> rx (fst s) = b ++ rx (fst s') /\ length b = n /\ snd s' = snd s.
Proof. by intros (c & (H1 & H2 & _)%ReadFull_Ok & ->)%on_conn_inv. Qed.

Lemma ReadFull_make_inv n (s s' : conn * X) b :
  on_conn (ReadFull_make n) s = (Ok b, s') -> rx (fst s) = b ++ rx (fst s') /\ len b = n /\ snd s' = snd s.
Proof. by intros (c & (H1 & H2 & _)%ReadFull_make_Ok & ->)%on_conn_inv. Qed.

Lemma readRequest_inv r kv (s s' : conn * X) payload :
  readRequest r kv s = (Ok payload, s') ->
  exists h, payload = drop 4 kv ++ h /\ len h = Length r - 4 /\ rx (fst s) = h ++ rx (fst s') /\ snd s' = snd s.
Proof.
  intros (h & s1 & (H1 & H2 & H3)%ReadFull_make_inv & H)%bind_inv. injection H as <- <-. eauto.
Qed.

(** The common shape of the three versions of [SaslAuthenticate]. *)
Lemma authenticate_shape {A} (r : res A) (creds : A -> option bytes) (a : LocalSaslAuth X)
    header n (response : A -> KError -> option bytes -> encoder) (s s' : conn * X) u :
  (let* req := lift r in
   let* authErr := on_ext (attempt (doLocalAuth a (creds req))) in
   replyAuth Error_text authErr (fun code msg => writeResponse (header req) n (response req code msg))) s
     = (Ok u, s') ->
  exists req, r = Ok req /\ doLocalAuth a (creds req) (snd s) = (Ok tt, snd s') /\ rx (fst s') = rx (fst s).
Proof.
  intros H. apply bind_inv in H as (req & s1 & (Hr & ->)%lift_inv & H). apply bind_inv in H as (e & s2 & H1 & H).
  pose proof (replyAuth_Ok _ _ _ _ _ H) as ->. apply on_ext_inv in H1 as (x & H1 & ->).
  apply attempt_None in H1 as [[] H1]. cbn [replyAuth] in H.
  apply writeResponse_only_writes in H as [H2 H3]. cbn [fst snd] in *. exists req. by rewrite H3.
Qed.

Lemma receiveAndSendAuthV1_Ok a (s s' : conn * X) u :
  receiveAndSendAuthV1 Error_text a s = (Ok u, s') ->
  exists b creds, rx (fst s) = b ++ rx (fst s') /\ sent_credentials 1 b creds /\
    doLocalAuth a creds (snd s) = (Ok tt, snd s').
Proof.
  intros H. unfold receiveAndSendAuthV1 in H.
  apply bind_inv in H as (? & s1 & ->%SetDeadline_inv & H).
  apply bind_inv in H as (kv & s2 & (Hkv & _ & E2)%ReadFull_inv & H).
  apply bind_inv in H as (r & s3 & (Hr & ->)%lift_inv & H).
  destruct (negb _) eqn:Ek; [done|]. apply negb_false_iff, Z.eqb_eq in Ek. destruct (_ <? _); [done|].
  apply bind_inv in H as (payload & s4 & (h & -> & Hl & Hh & E4)%readRequest_inv & H).
  rewrite <- E2, <- E4. exists (kv ++ h).
  cut (exists creds, credentials_of (ApiVersion r) (drop 4 kv ++ h) creds /\
         doLocalAuth a creds (snd s4) = (Ok tt, snd s') /\ rx (fst s') = rx (fst s4)).
  { intros (creds & Hc & Ha & Hs). exists creds. rewrite Hkv, Hh, Hs, <- app_assoc. split_and!; try done.
    exists kv, h, r. by split_and!. }
  destruct (Z.eqb_spec (ApiVersion r) 0) as [->|_]; [|destruct (Z.eqb_spec (ApiVersion r) 1) as [->|_];
    [|destruct (Z.eqb_spec (ApiVersion r) 2) as [->|_]; [|done]]];
    apply authenticate_shape in H as (req & Hd & Ha & Hs); eexists; (split; [|by split]).
  - left. eauto.
  - right. left. eauto.
  - right. right. eauto.
Qed.

Lemma receiveAndSendAuthV0_Ok a (s s' : conn * X) u :
  receiveAndSendAuthV0 (Some a) s = (Ok u, s') ->
  exists b creds, rx (fst s) = b ++ rx (fst s') /\ sent_credentials 0 b creds /\
    doLocalAuth a creds (snd s) = (Ok tt, snd s').
Proof.
  intros H. unfold receiveAndSendAuthV0 in H.
  apply bind_inv in H as (? & s1 & ->%SetDeadline_inv & H).
  apply bind_inv in H as (sz & s2 & (Hsz & Hl & E2)%ReadFull_inv & H).
  destruct (_ <? _); [done|]. apply bind_inv in H as (creds & s3 & (Hc & Hlc & E3)%ReadFull_make_inv & H).
  apply bind_inv in H as ([] & s4 & H1 & H). apply on_ext_inv in H1 as (z & H1 & ->).
  apply on_conn_inv in H as (c5 & (e & ->)%Write_Ok & ->). cbn [fst snd rx set_tx] in *.
  exists (sz ++ creds), (Some creds). split; [by rewrite Hsz, Hc, <- app_assoc|]. split; [|by rewrite <- E2, <- E3].
  exists creds. split; [done|]. by rewrite Hlc, (be_put_value_length 4).
Qed.

Lemma authenticator_configured (l : LocalSasl X) m a :
  authenticator l m = Some a -> (m, a) ∈ localAuthenticators l.
Proof.
  unfold authenticator. destruct (list_find _ _) as [[i [m' a']]|] eqn:E; [|done].
  apply list_find_Some in E as (E & Em & _). simpl in Em. subst m'. intros [= <-].
  by eapply list_elem_of_lookup_2.
Qed.

Lemma receiveAndSendSaslV0orV1_Ok (l : LocalSasl X) buf v (s s' : conn * X) a :
  receiveAndSendSaslV0orV1 l buf v s = (Ok a, s') ->
  exists h m, rx (fst s) = h ++ rx (fst s') /\ snd s' = snd s /\ requested_mechanism buf v h m /\
    authenticator l m = Some a.
Proof.
  intros H. unfold receiveAndSendSaslV0orV1 in H.
  apply bind_inv in H as (? & s1 & ->%SetDeadline_inv & H). destruct (negb _); [done|].
  apply bind_inv in H as (r & s2 & (Hr & ->)%lift_inv & H).
  destruct (negb _) eqn:Ek; [done|]. apply negb_false_iff, andb_true_iff in Ek as [Ek%Z.eqb_eq Ev%Z.eqb_eq].
  destruct (_ <? _); [done|].
  apply bind_inv in H as (payload & s3 & (h & -> & Hl & Hh & E3)%readRequest_inv & H).
  apply bind_inv in H as (req & s4 & (Hq & ->)%lift_inv & H).
  apply bind_inv in H as (? & s5 & [H5 E5]%writeResponse_only_writes & H).
  destruct (authenticator l _) as [a'|] eqn:E; [|done]. injection H as -> <-.
  exists h, (Mechanism (default {| Version := v; Mechanism := [] |} (Body req))).
  rewrite H5, E5. split_and!; try done. exists r, req. by split_and!.
Qed.

(** Either exchange ends well only when the authenticator of the mechanism the
    client asked for accepted the credentials the client sent. *)
Lemma receiveAndSendSASLAuth_Ok (l : LocalSasl X) buf v (s s' : conn * X) u :
  (v = 0 /\ receiveAndSendSASLAuthV0 l buf s = (Ok u, s')) \/
  (v = 1 /\ receiveAndSendSASLAuthV1 Error_text l buf s = (Ok u, s')) ->
  exists h b m a creds,
    rx (fst s) = h ++ b ++ rx (fst s') /\
    requested_mechanism buf v h m /\ authenticator l m = Some a /\ sent_credentials v b creds /\
    doLocalAuth a creds (snd s) = (Ok tt, snd s').
Proof.
  intros [[-> H]|[-> H]]; apply bind_inv in H as (a & s1 & H1 & H);
    apply receiveAndSendSaslV0orV1_Ok in H1 as (h & m & H1 & E1 & Hm & Ha);
    [apply receiveAndSendAuthV0_Ok in H as (b & creds & Hb & Hc & Hd)
    |apply receiveAndSendAuthV1_Ok in H as (b & creds & Hb & Hc & Hd)];
    exists h, b, m, a, creds; rewrite H1, Hb, <- E1; by split_and!.
Qed.

End local.

(** ** The gateway handshake *)

Section gateway.
Context {X : Type}.

(** The bytes the client of the gateway handshake writes. *)
Definition handshake_bytes (magic : Z) (method token : bytes) : bytes :=
  be_put 8 magic ++ be_put 4 (len method + 1 + len token) ++ method ++ [x00] ++ token.

Lemma ReadFull_fed b c : ReadFull (length b) (fed b c) = (Ok b, c).
Proof.
  unfold ReadFull, fed. simpl. rewrite length_app.
  replace (_ <=? _)%nat with true by (symmetry; apply Nat.leb_le; lia).
  rewrite take_app_length, drop_app_length. unfold set_rx. simpl. by destruct c.
Qed.

(** The client ends well only after it wrote the handshake and got an answer. *)
Lemma sendAndReceiveGatewayAuth_Ok (b : AuthClient X) c x u s' :
  sendAndReceiveGatewayAuth b (c, x) = (Ok u, s') ->
  exists resp, Success resp = true /\ Token resp <> [] /\
    tx (fst s') = tx c ++ be_put 8 (ac_magic b) ++ be_put 4 (len (ac_method b) + 1 + len (Token resp)) ++
                  ac_method b ++ [x00] ++ Token resp.
Proof.
  intros H. unfold sendAndReceiveGatewayAuth in H. apply bind_inv in H as (resp & s1 & H1 & H).
  apply on_ext_inv in H1 as (x1 & H1 & ->). exists resp.
  destruct (Success resp); [|done]. case_bool_decide as Ht; [done|].
  apply bind_inv in H as (? & s2 & H2 & H). apply on_conn_inv in H2 as (c2 & H2 & ->).
  apply bind_inv in H as (? & s3 & H3 & H).
  assert (c2 = c) as ->. { unfold SetDeadline in H2. simpl in H2. destruct (deadline_err c); congruence. }
  unfold wrapf in H3. destruct (on_conn (Write _) _) as [[]] eqn:E3; simplify_eq.
  apply on_conn_inv in E3 as (c3 & E3 & ->). cbn [fst snd] in E3, H.
  destruct (on_conn (ReadFull 4) (c3, x1)) as [[]] eqn:E4; simplify_eq.
  apply on_conn_inv in E4 as (c4 & E4 & ->). cbn [fst snd] in E4 |- *.
  split; [done|]. split; [done|].
  assert (tx c4 = tx c3) as ->.
  { unfold ReadFull in E4. destruct (_ <=? _)%nat; by simplify_eq. }
  unfold Write in E3. destruct (tx_err c) as [[room e]|]; [destruct (_ <=? _)%nat; [|done]|];
    simplify_eq; cbn [tx set_tx]; by rewrite be_put_uint32.
Qed.

(** The server ends well only for a handshake with its magic and method whose
    token was verified. *)
Lemma receiveAndSendGatewayAuth_Ok (b : AuthServer X) c x u s' :
  receiveAndSendGatewayAuth b (c, x) = (Ok u, s') ->
  exists token st rest x',
    rx c = be_put 8 (as_magic b) ++ be_put 4 (len (as_method b) + 1 + len token) ++
           as_method b ++ x00 :: token ++ rest /\
    as_tokenInfo b token x = (Ok (true, st), x') /\
    rx (fst s') = rest /\ tx (fst s') = tx c ++ replicate 4 x00.
Proof.
  intros H. unfold receiveAndSendGatewayAuth in H.
  apply bind_inv in H as (? & s1 & H1 & H). apply on_conn_inv in H1 as (c1 & H1%SetDeadline_Ok & ->).
  apply bind_inv in H as (hdr & s2 & H2 & H). apply wrapf_Ok, on_conn_inv in H2 as (c2 & H2 & ->).
  cbn [fst snd] in *. subst c1. apply ReadFull_Ok in H2 as (Hrx & Hh & Hc2).
  destruct (be_value (take 8 hdr) =? as_magic b) eqn:Em; [|done]. cbn [negb] in H. apply Z.eqb_eq in Em.
  apply bind_inv in H as (payload & s3 & H3 & H). apply wrapf_Ok, on_conn_inv in H3 as (c3 & H3 & ->).
  cbn [fst snd] in *. apply ReadFull_make_Ok in H3 as (Hrx3 & Hl & Hc3).
  pose proof (Join_Split x00 payload) as HJ.
  destruct (Split x00 payload) as [|m [|token [|? ?]]]; try done. case_bool_decide as Hm; [|done].
  cbn [negb] in H. apply bind_inv in H as ([ok st] & s4 & H4 & H).
  apply on_ext_inv in H4 as (x' & H4 & ->). cbn [fst snd] in *. destruct ok; [|done]. cbn [negb] in H.
  apply on_conn_inv in H as (c5 & H5 & ->). apply Write_Ok in H5 as (e & ->). cbn [fst snd] in *.
  simpl in HJ. subst payload m. exists token, st, (rx c3), x'.
  assert (len (as_method b) + 1 + len token = be_value (drop 8 hdr)) as -> by (rewrite <- Hl; len_lia).
  rewrite <- Em, (be_put_value_length 8), (be_put_value_length 4)
    by (rewrite ?length_take, ?length_drop; lia).
  rewrite app_assoc, take_drop, Hrx, Hrx3, <- app_assoc. rewrite Hc3, Hc2. by split_and!.
Qed.

(** The server, given the handshake of a client with the same magic and
    method, verifies exactly the client's token. *)
Lemma receiveAndSendGatewayAuth_fed (b : AuthServer X) token c x :
  x00 ∉ as_method b -> x00 ∉ token -> inU 64 (as_magic b) ->
  len (as_method b) + 1 + len token < 2 ^ 32 -> deadline_err c = None ->
  receiveAndSendGatewayAuth b (fed (handshake_bytes (as_magic b) (as_method b) token) c, x) =
    (let* resp := on_ext (as_tokenInfo b token) in
     if negb (fst resp) then fail (Errorf "gateway server verify token failed with status: %d")
     else on_conn (Write (replicate 4 x00))) (c, x).
Proof.
  intros Hm Ht Hmagic Hlen Hd. unfold receiveAndSendGatewayAuth, handshake_bytes.
  set (body := as_method b ++ [x00] ++ token).
  assert (len body = len (as_method b) + 1 + len token) as Hb by (unfold body; rewrite !len_app; len_lia).
  rewrite <- Hb in *. rewrite app_assoc, fed_app.
  set (hdr := be_put 8 (as_magic b) ++ be_put 4 (len body)).
  assert (length hdr = 12%nat) as Hh by (unfold hdr; rewrite length_app, !length_be_put; done).
  assert (SetDeadline (fed hdr (fed body c)) = (Ok tt, fed hdr (fed body c))) as HD.
  { unfold SetDeadline, fed. cbn [deadline_err set_rx]. by rewrite Hd. }
  erewrite bind_Ok by (unfold on_conn; cbn [fst snd]; by rewrite HD).
  pose proof (ReadFull_fed hdr (fed body c)) as HR. rewrite Hh in HR.
  erewrite bind_Ok by (unfold wrapf, on_conn; cbn [fst snd]; by rewrite HR).
  replace (take 8 hdr) with (be_put 8 (as_magic b))
    by (unfold hdr; rewrite take_app_length' by (by rewrite length_be_put); done).
  replace (drop 8 hdr) with (be_put 4 (len body))
    by (unfold hdr; rewrite drop_app_length' by (by rewrite length_be_put); done).
  rewrite !be_value_put. change (256 ^ Z.of_nat 8) with (2 ^ 64). change (256 ^ Z.of_nat 4) with (2 ^ 32).
  rewrite (Z.mod_small (as_magic b)) by apply Hmagic. rewrite Z.eqb_refl. cbn [negb].
  rewrite (Z.mod_small (len body)) by len_lia.
  erewrite bind_Ok; [|unfold wrapf, on_conn, ReadFull_make; cbn [fst snd];
    erewrite bind_Ok by (unfold lift, makeslice, maxAlloc;
      replace (len body <? 0) with false by (symmetry; apply Z.ltb_ge; len_lia);
      replace (2 ^ 48 <? 1 * len body) with false by (symmetry; apply Z.ltb_ge; lia); reflexivity);
    rewrite to_nat_len, ReadFull_fed; reflexivity].
  unfold body. cbn [app]. rewrite Split_app, (Split_notin _ token) by done. rewrite bool_decide_true by done.
  cbn [negb snd]. unfold bind. destruct (on_ext _ _) as [[[ok st]|e|w] s1]; [|done..]. done.
Qed.

End gateway.
