(* ===== verification/SaslTheorems.v ===== *)
(** The properties of authentication: local SASL of the clients and the
    gateway handshake between two proxies. *)
From Stdlib Require Import ZArith Lia Strings.Byte.
From stdpp Require Import base list strings gmap.
From S2P Require Import Prelude GoLib GoStrings OAuthBearer Encoder Decoder Errors Schema SchemaFacts Messages Net SaslLocal Auth SaslFacts.

(** ** Inputs the witnesses are evaluated on *)

(** A connection whose peer sends [b] and then closes. *)
Definition peer (b : bytes) : conn :=
  {| rx := b; rx_end := EOF; tx := []; tx_err := None; deadline_err := None |}.

(** A password plugin that knows one user and counts its calls. *)
Definition example_password : bytes -> bytes -> M nat (bool * Z) := fun user password n =>
  (Ok (bool_decide (user = $"alice" /\ password = $"secret"), 0), S n).
Definition example_sasl : LocalSasl nat := NewLocalSasl true (Some example_password) None.

Definition example_text (e : error) : bytes := $"refused".

(** The first 8 bytes of a [SaslHandshake] version 1 request, its rest, and
    the [SaslAuthenticate] request that follows. *)
Definition example_keyVersion : bytes := be_put 4 21 ++ be_put 2 17 ++ be_put 2 1.
Definition example_exchange : bytes :=
  be_put 4 5 ++ be_put 2 4 ++ $"test" ++ be_put 2 5 ++ $"PLAIN" ++
  be_put 4 31 ++ be_put 2 36 ++ be_put 2 0 ++ be_put 4 6 ++ be_put 2 4 ++ $"test" ++
  be_put 4 13 ++ [x00] ++ $"alice" ++ [x00] ++ $"secret".

Definition example_server : AuthServer nat :=
  {| as_enabled := true; as_magic := 123; as_method := $"google-id";
     as_tokenInfo := fun t n => (Ok (bool_decide (t = $"token"), 0), S n) |}.
Definition example_client : AuthClient nat :=
  {| ac_enabled := true; ac_magic := 123; ac_method := $"google-id";
     ac_tokenProvider := fun n => (Ok {| Success := true; Status := 0; Token := $"token" |}, S n) |}.

(** ** Local SASL *)

(** C10: a local SASL exchange, of either handshake version, returns without
    error only if the client's bytes are the rest of a handshake request that
    asks for a configured mechanism and then credentials (raw behind their
    length after a handshake of version 0, in a [SaslAuthenticate] request of
    version 0 to 2 after one of version 1), and the authenticator of that
    mechanism, run in the state of this exchange, accepted exactly these
    credentials.  There is no path around it, whatever the client sends. *)
Theorem local_sasl_sound {X} (Error_text : error -> bytes) (l : LocalSasl X) (buf : bytes) (v : Z)
    (s : conn * X) (u : unit) (s' : conn * X) :
  (v = 0 /\ receiveAndSendSASLAuthV0 l buf s = (Ok u, s')) \/
  (v = 1 /\ receiveAndSendSASLAuthV1 Error_text l buf s = (Ok u, s')) ->
  exists handshake b mechanism a creds,
    rx (fst s) = handshake ++ b ++ rx (fst s') /\
    requested_mechanism buf v handshake mechanism /\
    (mechanism, a) ∈ localAuthenticators l /\ authenticator l mechanism = Some a /\
    sent_credentials v b creds /\
    doLocalAuth a creds (snd s) = (Ok tt, snd s').
Proof.
  intros (h & b & m & a & creds & H1 & H2 & H3 & H4 & H5)%receiveAndSendSASLAuth_Ok.
  exists h, b, m, a, creds. split_and!; try done. by apply authenticator_configured.
Qed.

Lemma local_sasl_sound_witness :
  exists handshake b mechanism a creds,
    example_exchange = handshake ++ b ++ [] /\
    requested_mechanism example_keyVersion 1 handshake mechanism /\
    (mechanism, a) ∈ localAuthenticators example_sasl /\ authenticator example_sasl mechanism = Some a /\
    sent_credentials 1 b creds /\
    doLocalAuth a creds O = (Ok tt, 1%nat).
Proof.
  apply (local_sasl_sound example_text example_sasl example_keyVersion 1
           (peer example_exchange, O) tt
           (snd (receiveAndSendSASLAuthV1 example_text example_sasl
                   example_keyVersion (peer example_exchange, O)))).
  right. vm_compute. split; reflexivity.
Defined.

(** PLAIN credentials are accepted exactly when they are an authorisation
    id, a user and a password separated by NUL bytes, an authenticator is set,
    and it accepts that user with that password.*)
Theorem doLocalAuthPlain_iff {X}
    (p : option (bytes -> bytes -> M X (bool * Z))) (creds : bytes) (x x' : X) :
  doLocalAuth (LocalSaslPlain p) (Some creds) x = (Ok tt, x') <->
  exists Authenticate authz user password status,
    p = Some Authenticate /\ creds = authz ++ x00 :: user ++ x00 :: password /\
    x00 ∉ authz /\ x00 ∉ user /\ x00 ∉ password /\
    Authenticate user password x = (Ok (true, status), x').
Proof.
  unfold doLocalAuth, doLocalAuthPlain. change (default [] (Some creds)) with creds. split.
  - intros H. pose proof (Join_Split x00 creds) as HJ. pose proof (Split_parts x00 creds) as HP.
    destruct (Split x00 creds) as [|authz [|user [|password [|? ?]]]]; try done.
    destruct p as [Authenticate|]; [|done]. apply bind_inv in H as ([ok st] & x1 & H1 & H).
    destruct ok; [|done]. injection H as <-.
    apply Forall_cons in HP as [P1 HP]. apply Forall_cons in HP as [P2 HP].
    apply Forall_cons in HP as [P3 _].
    simpl in HJ. subst creds. by exists Authenticate, authz, user, password, st.
  - intros (Authenticate & authz & user & password & st & -> & -> & P1 & P2 & P3 & H).
    rewrite !Split_app, Split_notin by done. by erewrite bind_Ok by exact H.
Qed.

Lemma doLocalAuthPlain_iff_witness :
  doLocalAuth (LocalSaslPlain (Some example_password))
    (Some (x00 :: $"alice" ++ x00 :: $"secret")) O = (Ok tt, 1%nat).
Proof.
  apply doLocalAuthPlain_iff. exists example_password, [], ($"alice"), ($"secret"), 0.
  split_and!; try reflexivity; apply (bool_decide_eq_true_1 _); reflexivity.
Defined.

(** PLAIN authentication in a [SaslAuthenticate] exchange of version 0 that
    the authenticator rejects: the client is answered, on a healthy connection,
    with the SASL error code and the error text under its own correlation id,
    and the exchange fails, so the client is not let in.*)
Theorem rejected_credentials_are_answered {X} (Error_text : error -> bytes) (a : LocalSaslAuth X) (payload creds out : bytes)
    (corr : Z) (client : bytes) (e : error) (c : conn) (x x' : X) :
  inS 32 corr ->
  Encode (Some (Request_encode
    {| CorrelationID := corr; ClientID := client; Body := Some {| sar0_SaslAuthBytes := Some creds |} |}))
    = Ok (Some payload) ->
  doLocalAuth a (Some creds) x = (Err e, x') ->
  Encode (Some (SaslAuthenticateResponseV0_encode
    {| sap0_Err := KErrSASLAuthenticationFailed; sap0_ErrMsg := Some (Error_text e);
       sap0_SaslAuthBytes := Some [] |})) = Ok (Some out) ->
  tx_err c = None ->
  authenticateV0 Error_text a payload (c, x) =
    (Err e, (set_tx (tx c ++ be_put 4 (len out + 4) ++ be_put 4 corr ++ out) None c, x')).
Proof.
  intros Hc Hp Ha Ho Ht. unfold authenticateV0.
  assert (DecodeMessage payload (Request_decode
    {| CorrelationID := 0; ClientID := []; Body := Some {| sar0_SaslAuthBytes := None |} |}) =
    Ok {| CorrelationID := corr; ClientID := client; Body := Some {| sar0_SaslAuthBytes := Some creds |} |})
    as Hd.
  { unfold DecodeMessage. erewrite (Encode_Decode _ _ _ _ payload (emits_Request (PB := SaslAuthenticateRequestV0_body) _));
      [done| |exact Hp].
    intros bs H. by eapply decodes_Request. }
  erewrite bind_Ok by (unfold lift; by rewrite Hd).
  erewrite bind_Ok by (unfold on_ext, attempt; cbn [fst snd Body sar0_SaslAuthBytes mbind option_bind]; by rewrite Ha).
  unfold replyAuth. erewrite bind_Ok; [done|].
  by apply writeResponse_Ok.
Qed.

Definition example_request : bytes :=
  be_put 2 36 ++ be_put 2 0 ++ be_put 4 6 ++ be_put 2 4 ++ $"test" ++
  be_put 4 12 ++ [x00] ++ $"alice" ++ [x00] ++ $"wrong".

Lemma rejected_credentials_are_answered_witness :
  fst (authenticateV0 example_text (LocalSaslPlain (Some example_password))
         example_request (peer [], O)) = Err (errLocalAuthFailed ($"alice")).
Proof.
  rewrite (rejected_credentials_are_answered example_text
    (LocalSaslPlain (Some example_password)) example_request (x00 :: $"alice" ++ x00 :: $"wrong")
    (be_put 2 58 ++ be_put 2 7 ++ $"refused" ++ be_put 4 0) 6 ($"test")
    (errLocalAuthFailed ($"alice")) (peer []) O 1%nat).
  - reflexivity.
  - unfold inS. simpl. lia.
  - vm_compute. reflexivity.
  - vm_compute. reflexivity.
  - vm_compute. reflexivity.
  - reflexivity.
Defined.

(** ** The gateway handshake *)

(** C26: client and server of the gateway handshake agree.  A client that
    succeeds wrote the handshake of a non-empty token its provider gave it; a
    server with the same magic and method that receives that handshake asks
    its token plugin about exactly that token and follows its answer. *)
Theorem gateway_handshake_agrees {X Y} (cl : AuthClient X) (sv : AuthServer Y) :
  ac_magic cl = as_magic sv -> ac_method cl = as_method sv -> x00 ∉ as_method sv -> inU 64 (as_magic sv) ->
  forall c x u s', sendAndReceiveGatewayAuth cl (c, x) = (Ok u, s') ->
  exists token, token <> [] /\ tx (fst s') = tx c ++ handshake_bytes (as_magic sv) (as_method sv) token /\
    (x00 ∉ token -> len (as_method sv) + 1 + len token < 2 ^ 32 ->
     forall d y, deadline_err d = None ->
       receiveAndSendGatewayAuth sv
         (fed (handshake_bytes (as_magic sv) (as_method sv) token) d, y) =
       (let* resp := on_ext (as_tokenInfo sv token) in
        if negb (fst resp) then fail (Errorf "gateway server verify token failed with status: %d")
        else on_conn (Write (replicate 4 x00))) (d, y)).
Proof.
  intros Em Et Hm Hmagic c x u s' H. apply sendAndReceiveGatewayAuth_Ok in H as (resp & _ & Hne & Htx).
  exists (Token resp). split; [done|]. split; [by rewrite Htx, Em, Et|].
  intros Hn Hl d y Hd. by apply receiveAndSendGatewayAuth_fed.
Qed.

Lemma gateway_handshake_agrees_witness :
  exists token, token <> [] /\
    tx (fst (snd (sendAndReceiveGatewayAuth example_client (peer (replicate 4 x00), O)))) =
      [] ++ handshake_bytes 123 ($"google-id") token /\
    (x00 ∉ token -> len ($"google-id") + 1 + len token < 2 ^ 32 ->
     forall d y, deadline_err d = None ->
       receiveAndSendGatewayAuth example_server (fed (handshake_bytes 123 ($"google-id") token) d, y) =
       (let* resp := on_ext (as_tokenInfo example_server token) in
        if negb (fst resp) then fail (Errorf "gateway server verify token failed with status: %d")
        else on_conn (Write (replicate 4 x00))) (d, y)).
Proof.
  refine (gateway_handshake_agrees example_client example_server _ _ _ _ (peer (replicate 4 x00)) O tt
           (snd (sendAndReceiveGatewayAuth example_client (peer (replicate 4 x00), O))) _).
  - reflexivity.
  - reflexivity.
  - apply (bool_decide_eq_true_1 _). reflexivity.
  - unfold inU. simpl. lia.
  - vm_compute. reflexivity.
Defined.
