(* ===== verification/Processor.v ===== *)
(** The request and response processor of a proxied connection
    (proxy/processor.go, processor_default.go, processor_sasl_auth_v0.go,
    [myCopyN] of common.go).

    [world] is what the two loops of a connection share: the client and broker
    connections, the three channels, and the state [X] of what is outside
    (filters, authenticators, address mapping).  [handleRequest] and
    [handleResponse] are compositions of stages cut at the channel
    operations; the stages run in the loops' order here and are interleaved in
    [Loops]. *)
From Stdlib Require Import ZArith Lia Strings.Byte.
From stdpp Require Import base list strings gmap.
From S2P Require Import Prelude GoLib GoStrings OAuthBearer Encoder Decoder Errors Schema Messages Net Responses Filters SaslLocal Auth.

Definition minOpenRequests : Z := 16.
Definition defaultRequestBufferSize : Z := 4096.
Definition defaultResponseBufferSize : Z := 4096.
Definition apiKeyProduce : Z := 0.
Definition apiKeySaslHandshake : Z := 17.
Definition apiKeyApiApiVersions : Z := 18.
Definition minRequestApiKey : Z := 0.
Definition maxRequestApiKey : Z := 20000.

Inductive RequestHandler := defaultRequestHandler | saslAuthV0RequestHandler.
Inductive ResponseHandler := defaultResponseHandler | saslAuthV0ResponseHandler.

#[export] Instance RequestHandler_eq_dec : EqDecision RequestHandler.
Proof. solve_decision. Defined.
#[export] Instance ResponseHandler_eq_dec : EqDecision ResponseHandler.
Proof. solve_decision. Defined.

Section processor.
Context {X : Type} (Error_text : error -> bytes).

Record ProcessorConfig := {
  MaxOpenRequests : Z;
  cfg_NetAddressMappingFunc : option (NetAddressMappingFunc X);
  cfg_RequestBufferSize : Z;
  cfg_ResponseBufferSize : Z;
  cfg_LocalSasl : LocalSasl X;
  cfg_AuthServer : AuthServer X;
  cfg_ForbiddenApiKeys : list Z;
  cfg_ProducerAcks0Disabled : bool;
  cfg_FilterChain : option (FilterChain X)
}.

(** The fields the loops read; channel capacities come with the channels. *)
Record processor := {
  openRequestsCap : Z;
  nextRequestHandlerCap : Z;
  nextResponseHandlerCap : Z;
  netAddressMapping : option (NetAddressMappingFunc X);
  requestBufferSize : Z;
  responseBufferSize : Z;
  localSasl : LocalSasl X;
  authServer : AuthServer X;
  forbiddenApiKeys : list Z;
  producerAcks0Disabled : bool;
  filterChain : option (FilterChain X)
}.

Record world := {
  client : conn;
  broker : conn;
  ext : X;
  openRequestsChannel : list RequestKeyVersion;
  nextRequestHandlerChannel : list RequestHandler;
  nextResponseHandlerChannel : list ResponseHandler;
  localSaslDone : bool;
  readErr : bool                      (* the named result of the loops *)
}.

(** ** State access *)

Definition set_client (c : conn) (w : world) : world :=
  {| client := c; broker := broker w; ext := ext w;
     openRequestsChannel := openRequestsChannel w;
     nextRequestHandlerChannel := nextRequestHandlerChannel w;
     nextResponseHandlerChannel := nextResponseHandlerChannel w;
     localSaslDone := localSaslDone w; readErr := readErr w |}.
Definition set_broker (c : conn) (w : world) : world :=
  {| client := client w; broker := c; ext := ext w;
     openRequestsChannel := openRequestsChannel w;
     nextRequestHandlerChannel := nextRequestHandlerChannel w;
     nextResponseHandlerChannel := nextResponseHandlerChannel w;
     localSaslDone := localSaslDone w; readErr := readErr w |}.
Definition set_ext (x : X) (w : world) : world :=
  {| client := client w; broker := broker w; ext := x;
     openRequestsChannel := openRequestsChannel w;
     nextRequestHandlerChannel := nextRequestHandlerChannel w;
     nextResponseHandlerChannel := nextResponseHandlerChannel w;
     localSaslDone := localSaslDone w; readErr := readErr w |}.
Definition set_channels (o : list RequestKeyVersion) (q : list RequestHandler)
    (p : list ResponseHandler) (w : world) : world :=
  {| client := client w; broker := broker w; ext := ext w;
     openRequestsChannel := o; nextRequestHandlerChannel := q; nextResponseHandlerChannel := p;
     localSaslDone := localSaslDone w; readErr := readErr w |}.
Definition set_localSaslDone (w : world) : world :=
  {| client := client w; broker := broker w; ext := ext w;
     openRequestsChannel := openRequestsChannel w;
     nextRequestHandlerChannel := nextRequestHandlerChannel w;
     nextResponseHandlerChannel := nextResponseHandlerChannel w;
     localSaslDone := true; readErr := readErr w |}.
Definition set_readErr (b : bool) (w : world) : world :=
  {| client := client w; broker := broker w; ext := ext w;
     openRequestsChannel := openRequestsChannel w;
     nextRequestHandlerChannel := nextRequestHandlerChannel w;
     nextResponseHandlerChannel := nextResponseHandlerChannel w;
     localSaslDone := localSaslDone w; readErr := b |}.

(** Methods on one connection, on the client connection and the outside, on
    the outside. *)
Definition on_client {A} (m : M conn A) : M world A := fun w =>
  let '(r, c) := m (client w) in (r, set_client c w).
Definition on_broker {A} (m : M conn A) : M world A := fun w =>
  let '(r, c) := m (broker w) in (r, set_broker c w).
Definition on_client_ext {A} (m : M (conn * X) A) : M world A := fun w =>
  let '(r, (c, x)) := m (client w, ext w) in (r, set_ext x (set_client c w)).
Definition on_outside {A} (m : M X A) : M world A := fun w =>
  let '(r, x) := m (ext w) in (r, set_ext x w).

(** [if err := m(); err != nil { return b, err }] *)
Definition returning {A} (b : bool) (m : M world A) : M world A := fun w =>
  match m w with
  | (Err e, w') => (Err e, set_readErr b w')
  | r => r
  end.
Abbreviation rd := (returning true).
Abbreviation wr := (returning false).

(** ** Construction *)

Definition newProcessor (cfg : ProcessorConfig) : processor :=
  let maxOpenRequests := if MaxOpenRequests cfg <? minOpenRequests then minOpenRequests
                         else MaxOpenRequests cfg in
  {| openRequestsCap := maxOpenRequests;
     nextRequestHandlerCap := 1;
     nextResponseHandlerCap := maxOpenRequests + 1;
     netAddressMapping := cfg_NetAddressMappingFunc cfg;
     requestBufferSize := if cfg_RequestBufferSize cfg <=? 0 then defaultRequestBufferSize
                          else cfg_RequestBufferSize cfg;
     responseBufferSize := if cfg_ResponseBufferSize cfg <=? 0 then defaultResponseBufferSize
                           else cfg_ResponseBufferSize cfg;
     localSasl := cfg_LocalSasl cfg;
     authServer := cfg_AuthServer cfg;
     forbiddenApiKeys := cfg_ForbiddenApiKeys cfg;
     producerAcks0Disabled := cfg_ProducerAcks0Disabled cfg;
     filterChain := cfg_FilterChain cfg |}.

(** The channels after [newProcessor]. *)
Definition initial (c b : conn) (x : X) : world :=
  {| client := c; broker := b; ext := x;
     openRequestsChannel := [];
     nextRequestHandlerChannel := [defaultRequestHandler];
     nextResponseHandlerChannel := [defaultResponseHandler];
     localSaslDone := false; readErr := false |}.

Context (p : processor).

(** ** Channel operations

    A send to a full channel and a receive from an empty one fail: at once
    for the request handlers, when the 5 s timer fires for the others. *)

Definition putNextRequestHandler (h : RequestHandler) : M world unit := fun w =>
  if len (nextRequestHandlerChannel w) <? nextRequestHandlerCap p
  then (Ok tt, set_channels (openRequestsChannel w) (nextRequestHandlerChannel w ++ [h])
                 (nextResponseHandlerChannel w) w)
  else (Err (Errorf "next request handler channel is full"), w).

Definition putNextResponseHandler (h : ResponseHandler) : M world unit := fun w =>
  if len (nextResponseHandlerChannel w) <? nextResponseHandlerCap p
  then (Ok tt, set_channels (openRequestsChannel w) (nextRequestHandlerChannel w)
                 (nextResponseHandlerChannel w ++ [h]) w)
  else (Err (Errorf "next response handler channel is full"), w).

Definition putNextHandlers (nextRequestHandler : RequestHandler)
    (nextResponseHandler : ResponseHandler) : M world unit :=
  do* putNextRequestHandler nextRequestHandler in putNextResponseHandler nextResponseHandler.

Definition getNextRequestHandler : M world RequestHandler := fun w =>
  match nextRequestHandlerChannel w with
  | h :: q => (Ok h, set_channels (openRequestsChannel w) q (nextResponseHandlerChannel w) w)
  | [] => (Err (Errorf "next request handler is missing"), w)
  end.

Definition getNextResponseHandler : M world ResponseHandler := fun w =>
  match nextResponseHandlerChannel w with
  | h :: q => (Ok h, set_channels (openRequestsChannel w) (nextRequestHandlerChannel w) q w)
  | [] => (Err (Errorf "next response handler is missing"), w)
  end.

Definition sendRequestKeyVersion (request : RequestKeyVersion) : M world unit := fun w =>
  if len (openRequestsChannel w) <? openRequestsCap p
  then (Ok tt, set_channels (openRequestsChannel w ++ [request]) (nextRequestHandlerChannel w)
                 (nextResponseHandlerChannel w) w)
  else (Err (Errorf "open requests buffer is full"), w).

Definition receiveRequestKeyVersion : M world RequestKeyVersion := fun w =>
  match openRequestsChannel w with
  | r :: q => (Ok r, set_channels q (nextRequestHandlerChannel w) (nextResponseHandlerChannel w) w)
  | [] => (Err (Errorf "open request is missing"), w)
  end.

(** ** [DefaultRequestHandler] *)

(** Whether the broker replies to the request, and the bytes read to find
    out: a produce request with acks = 0 has no reply. *)
Definition mustReply (r : RequestKeyVersion) : M conn (bool * bytes) :=
  if ApiKey r =? apiKeyProduce then
    if producerAcks0Disabled p then ret (true, [])
    else
      let* acks :=
        tee (if (0 <=? ApiVersion r) && (ApiVersion r <=? 2) then
               do* ReadAndDiscardHeaderV1Part in ReadAndDiscardProduceAcks
             else
               do* ReadAndDiscardHeaderV1Part in ReadAndDiscardProduceTxnAcks) in
      ret (negb (fst acks =? 0), snd acks)
  else ret (true, []).

(** What a request handler does once the request was read: nothing more, or
    forward it. *)
Inductive request_outcome :=
  | Handled
  | Forward (r : RequestKeyVersion) (payload : bytes) (mustReply : bool).

Definition saslRequired : error :=
  Errorf "SASL Auth is required. Only SaslHandshake or ApiVersions requests are allowed".

(** The local SASL part: [true] when the request was handled here. *)
Definition handleLocalSasl (r : RequestKeyVersion) (keyVersionBuf : bytes) : M world bool :=
  let* w := get in
  if negb (enabled (localSasl p)) then ret false
  else if localSaslDone w then
    if ApiKey r =? apiKeySaslHandshake then wr (fail (Errorf "SASL Auth was already done"))
    else ret false
  else if ApiKey r =? apiKeySaslHandshake then
    do* rd (if ApiVersion r =? 0 then
              on_client_ext (receiveAndSendSASLAuthV0 (localSasl p) keyVersionBuf)
            else if ApiVersion r =? 1 then
              on_client_ext (receiveAndSendSASLAuthV1 Error_text
                               (localSasl p) keyVersionBuf)
            else fail (Errorf "only saslHandshake version 0 and 1 are supported, got version %d")) in
    do* modify set_localSaslDone in
    do* wr (on_client SetDeadline) in
    ret true
  else if ApiKey r =? apiKeyApiApiVersions then ret false
  else wr (fail saslRequired).

(** From the first byte of a request to the filtered payload. *)
Definition readRequestStage : M world request_outcome :=
  do* rd (on_client SetDeadline) in
  do* rd (on_broker SetDeadline) in
  let* keyVersionBuf := rd (on_client (ReadFull 8)) in
  let* r := rd (lift (DecodeMessage keyVersionBuf RequestKeyVersion_decode)) in
  if (ApiKey r <? minRequestApiKey) || (maxRequestApiKey <? ApiKey r) then
    rd (fail (Errorf "api key %d is invalid, possible cause: using plain connection instead of TLS"))
  else if bool_decide (ApiKey r ∈ forbiddenApiKeys p) then
    rd (fail (Errorf "api key %d is forbidden"))
  else
    let* handled := handleLocalSasl r keyVersionBuf in
    if handled : bool then
      do* wr (putNextRequestHandler defaultRequestHandler) in ret Handled
    else
      let* mr := rd (on_client (mustReply r)) in
      let '(mustReply, readBytes) := mr in
      let restLen := Length r - 4 - len readBytes in
      if restLen <? 0 then rd (fail (Errorf "invalid request length %d"))
      else
        let* restBuf := rd (on_client (ReadFull_make restLen)) in
        let payload := drop 4 keyVersionBuf ++ readBytes ++ restBuf in
        match filterChain p with
        | None => ret (Forward r payload mustReply)
        | Some chain =>
            let* payload := rd (on_outside (ApplyRequestFilters chain (ApiKey r) (ApiVersion r) payload)) in
            ret (Forward {| Length := int32 (len payload); ApiKey := ApiKey r;
                            ApiVersion := ApiVersion r |} payload mustReply)
        end.

(** The request is registered before it is sent. *)
Definition registerStage (r : RequestKeyVersion) (mustReply : bool) : M world unit :=
  if mustReply then rd (sendRequestKeyVersion r) else ret tt.

Definition writeRequestStage (r : RequestKeyVersion) (payload : bytes) : M world unit :=
  do* wr (on_broker SetDeadline) in
  do* rd (on_client SetDeadline) in
  do* wr (on_broker (Write (be_put 4 (uint32 (Length r))))) in
  wr (on_broker (Write payload)).

Definition nextHandlersStage (r : RequestKeyVersion) (mustReply : bool) : M world unit :=
  if (ApiKey r =? apiKeySaslHandshake) && (ApiVersion r =? 0) then
    wr (putNextHandlers saslAuthV0RequestHandler saslAuthV0ResponseHandler)
  else if mustReply then wr (putNextHandlers defaultRequestHandler defaultResponseHandler)
  else wr (putNextRequestHandler defaultRequestHandler).

Definition handleRequest : M world unit :=
  let* o := readRequestStage in
  match o with
  | Handled => ret tt
  | Forward r payload mustReply =>
      do* registerStage r mustReply in
      do* writeRequestStage r payload in
      nextHandlersStage r mustReply
  end.

(** ** [SaslAuthV0RequestHandler] *)

(** [myCopyN]: copies [size] bytes from the client to the broker through a
    buffer of [bufLen] bytes; the result tells a read error.  Every iteration
    but the last takes a byte, so one more than the bytes left bounds them. *)
Fixpoint myCopyN_loop (fuel : nat) (size : Z) (bufLen : nat) : M world unit :=
  if size <=? 0 then ret tt
  else
    match fuel with
    | O => panic "out of fuel"
    | S fuel' =>
        let* w := get in
        match rx (client w) with
        | [] => rd (fail (rx_end (client w)))
        | _ =>
            let n := Nat.min (Nat.min bufLen (Z.to_nat size)) (length (rx (client w))) in
            let* b := on_client (ReadFull n) in
            do* wr (on_broker (Write b)) in
            myCopyN_loop fuel' (size - len b) bufLen
        end
    end.

Definition myCopyN (size : Z) (bufLen : nat) : M world unit :=
  let* w := get in myCopyN_loop (S (length (rx (client w)))) size bufLen.

Definition copySaslAuthRequest : M world unit :=
  do* wr (on_broker SetDeadline) in
  do* rd (on_client SetDeadline) in
  let* sizeBuf := rd (on_client (ReadFull 4)) in
  let length := be_value sizeBuf in
  if MaxRequestSize <? int32 length then
    rd (fail (PacketDecodingError "auth message of length %d too large"))
  else
    do* wr (on_broker (Write sizeBuf)) in
    myCopyN length (Z.to_nat (requestBufferSize p)).

Definition handleSaslAuthV0Request : M world unit :=
  do* copySaslAuthRequest in
  wr (putNextHandlers defaultRequestHandler defaultResponseHandler).

Definition runRequestHandler (h : RequestHandler) : M world unit :=
  match h with
  | defaultRequestHandler => handleRequest
  | saslAuthV0RequestHandler => handleSaslAuthV0Request
  end.

(** ** [DefaultResponseHandler] *)

Definition readResponseHeaderStage : M world (bytes * ResponseHeader) :=
  do* rd (on_broker SetDeadline) in
  do* rd (on_client SetDeadline) in
  let* responseHeaderBuf := rd (on_broker (ReadFull 8)) in
  let* responseHeader := rd (lift (DecodeMessage responseHeaderBuf ResponseHeader_decode)) in
  ret (responseHeaderBuf, responseHeader).

(** The part of the body the modifier of the request changes. *)
Definition modifyResponse (r : RequestKeyVersion) (respBody : bytes) : M X bytes :=
  let* responseModifier := lift (GetResponseModifier (ApiKey r) (ApiVersion r) (netAddressMapping p)) in
  match responseModifier with
  | None => ret respBody
  | Some f => let* b := Apply f (Some respBody) in ret (default [] b)
  end.

Definition forwardResponseStage (responseHeaderBuf : bytes) (responseHeader : ResponseHeader)
    (r : RequestKeyVersion) : M world unit :=
  do* wr (on_client SetDeadline) in
  do* rd (on_broker SetDeadline) in
  let* tf := rd (lift (NewResponseHeaderTaggedFields r)) in
  let* unknownTaggedFields := rd (on_broker (MaybeRead tf)) in
  let remainingLen := rh_Length responseHeader - 4 - len unknownTaggedFields in
  if remainingLen <? 0 then rd (fail (Errorf "invalid response length %d"))
  else
    let* respBody := rd (on_broker (ReadFull_make remainingLen)) in
    let* respBody := rd (on_outside (modifyResponse r respBody)) in
    let payload := drop 4 responseHeaderBuf ++ unknownTaggedFields ++ respBody in
    let* payload :=
      (match filterChain p with
       | None => ret payload
       | Some chain => rd (on_outside (ApplyResponseFilters chain (ApiKey r) (ApiVersion r) payload))
       end) in
    do* wr (on_client (Write (be_put 4 (uint32 (len payload))))) in
    wr (on_client (Write payload)).

Definition handleResponse : M world unit :=
  let* h := readResponseHeaderStage in
  let '(responseHeaderBuf, responseHeader) := h in
  let* r := rd receiveRequestKeyVersion in
  forwardResponseStage responseHeaderBuf responseHeader r.

(** ** [SaslAuthV0ResponseHandler] *)

Definition copySaslAuthResponse : M world unit :=
  do* wr (on_client SetDeadline) in
  do* rd (on_broker SetDeadline) in
  let* header := rd (on_broker (ReadFull 4)) in
  wr (on_client (Write header)).

Definition runResponseHandler (h : ResponseHandler) : M world unit :=
  match h with
  | defaultResponseHandler => handleResponse
  | saslAuthV0ResponseHandler => copySaslAuthResponse
  end.

(** ** The loops, run alone

    [n] iterations of a loop; the code's loops end with an error or when the
    next request handler is missing, which ends [requestsLoop] without one. *)

Fixpoint requestsLoop (n : nat) : M world unit :=
  match n with
  | O => ret tt
  | S n' => fun w =>
      match getNextRequestHandler w with
      | (Ok h, w') => (do* runRequestHandler h in requestsLoop n') w'
      | (_, w') => (Ok tt, set_readErr false w')
      end
  end.

Fixpoint responsesLoop (n : nat) : M world unit :=
  match n with
  | O => ret tt
  | S n' =>
      let* h := wr getNextResponseHandler in
      do* runResponseHandler h in responsesLoop n'
  end.

(** [RequestsLoop]: the gateway handshake, then the loop. *)
Definition RequestsLoop (n : nat) : M world unit :=
  do* (if as_enabled (authServer p) then rd (on_client_ext (receiveAndSendGatewayAuth (authServer p)))
       else ret tt) in
  do* wr (on_client SetDeadline) in
  requestsLoop n.

End processor.
Arguments ProcessorConfig : clear implicits.
Arguments processor : clear implicits.
Arguments world : clear implicits.
