(* ===== verification/ProcessorFacts.v ===== *)
(** What the request and response handlers do on the connections: how much
    they read, exactly what they forward, when they refuse. *)
From Stdlib Require Import ZArith Lia Strings.Byte.
From stdpp Require Import base list strings gmap.
From S2P Require Import Prelude GoLib GoStrings OAuthBearer Encoder Decoder Errors Schema SchemaFacts Messages Net Filters SaslLocal Responses Auth SaslFacts Processor.

(** ** Bytes and the integers read from them *)

(** The bytes an integer getter took are the integer. *)
Lemma int_getter_inv (m : decoder Z) n w rd z rd' :
  w = 8 * Z.of_nat n -> (0 < n)%nat ->
  (forall rd, m rd = (let* rd := get in
     if remaining rd <? Z.of_nat n then rd_insufficient
     else let* v := rd_take_be n in ret (wrapS w v)) rd) ->
  rd_wf rd -> m rd = (Ok z, rd') ->
  inS w z /\ rd_off rd' = rd_off rd + Z.of_nat n /\ rd_raw rd' = rd_raw rd /\
  drop (Z.to_nat (rd_off rd)) (rd_raw rd) = be_put n z ++ drop (Z.to_nat (rd_off rd')) (rd_raw rd).
Proof.
  intros -> Hn Hm [Hw1 Hw2] H. rewrite Hm in H. unfold bind at 1, get in H.
  destruct (_ <? _) eqn:E; [done|]. apply Z.ltb_ge in E. unfold remaining in E.
  unfold rd_take_be in H. unfold bind, get, lift, slice_from, slice in H.
  replace (_ && _ && _) with true in H
    by (symmetry; repeat rewrite andb_true_iff; rewrite !Z.leb_le; lia).
  cbn [rbind] in H. set (tl := drop (Z.to_nat (rd_off rd)) (rd_raw rd)) in *.
  assert (length tl = Z.to_nat (len (rd_raw rd) - rd_off rd)) as Htl
    by (unfold tl, len; rewrite length_drop; unfold len in *; lia).
  rewrite take_ge in H by lia. unfold BigEndian_Uint in H.
  replace (_ <? n)%nat with false in H by (symmetry; apply Nat.ltb_ge; unfold len in *; lia).
  cbn in H. injection H as <- <-. cbn [rd_off rd_raw].
  split; [apply wrapS_range; lia|]. split; [done|]. split; [done|].
  rewrite be_put_wrapS by done.
  replace (be_put n (be_value (take n tl))) with (take n tl).
  - unfold tl. replace (Z.to_nat (rd_off rd + Z.of_nat n)) with (Z.to_nat (rd_off rd) + n)%nat by lia.
    by rewrite <- drop_drop, take_drop.
  - rewrite <- (be_put_value (take n tl)) at 1. f_equal. rewrite length_take. unfold len in *. lia.
Qed.

Lemma DecodeMessage_inv {A} buf (d : decoder A) a :
  DecodeMessage buf d = Ok a ->
  exists rd', d {| rd_raw := buf; rd_off := 0 |} = (Ok a, rd') /\ rd_off rd' = len buf.
Proof.
  unfold DecodeMessage, Decode. destruct (d _) as [[x|e|w] rd']; try done.
  destruct (rd_off rd' =? len buf) eqn:E; [|done]. apply Z.eqb_eq in E. intros [= ->]. eauto.
Qed.

(** A decoder in the middle of [pre ++ ...]. *)
Lemma int_getter_at (m : decoder Z) n w raw off z rd' :
  w = 8 * Z.of_nat n -> (0 < n)%nat ->
  (forall rd, m rd = (let* rd := get in
     if remaining rd <? Z.of_nat n then rd_insufficient
     else let* v := rd_take_be n in ret (wrapS w v)) rd) ->
  0 <= off <= len raw -> m {| rd_raw := raw; rd_off := off |} = (Ok z, rd') ->
  inS w z /\ rd' = {| rd_raw := raw; rd_off := off + Z.of_nat n |} /\ off + Z.of_nat n <= len raw /\
  drop (Z.to_nat off) raw = be_put n z ++ drop (Z.to_nat (off + Z.of_nat n)) raw.
Proof.
  intros Hw Hn Hm Ho H. pose proof (safe_int m n w Hm {| rd_raw := raw; rd_off := off |} Ho I) as Hs.
  rewrite H in Hs. destruct Hs as ([Hs1 Hs2] & _ & _).
  destruct (int_getter_inv m n w {| rd_raw := raw; rd_off := off |} _ _ Hw Hn Hm Ho H) as (H1 & H2 & H3 & H4).
  destruct rd' as [raw' off']. cbn [rd_raw rd_off] in *. subst. auto.
Qed.

Lemma RequestKeyVersion_decode_inv buf r :
  DecodeMessage buf RequestKeyVersion_decode = Ok r ->
  buf = be_put 4 (Length r) ++ be_put 2 (ApiKey r) ++ be_put 2 (ApiVersion r) /\
  4 < Length r /\ inS 32 (Length r) /\ inS 16 (ApiKey r) /\ inS 16 (ApiVersion r).
Proof.
  intros (rd' & H & Hl)%DecodeMessage_inv. unfold RequestKeyVersion_decode in H.
  apply bind_inv in H as (L & s1 & H1 & H).
  apply (int_getter_at getInt32 4 32) in H1 as (B1 & -> & L1 & D1); [|done|lia|done|len_lia].
  destruct (L <=? 4) eqn:E; [done|]. apply Z.leb_gt in E.
  apply bind_inv in H as (k & s2 & H2 & H).
  apply (int_getter_at getInt16 2 16) in H2 as (B2 & -> & L2 & D2); [|done|lia|done|lia].
  apply bind_inv in H as (v & s3 & H3 & H).
  apply (int_getter_at getInt16 2 16) in H3 as (B3 & -> & L3 & D3); [|done|lia|done|lia].
  injection H as <- <-. cbn [Length ApiKey ApiVersion rd_off] in *.
  split; [|auto]. change (Z.to_nat 0) with 0%nat in D1. rewrite drop_0 in D1.
  rewrite D1 at 1. rewrite D2, D3. rewrite (drop_ge buf); [by rewrite app_nil_r|].
  unfold len in Hl. lia.
Qed.

Lemma ResponseHeader_decode_inv buf r :
  DecodeMessage buf ResponseHeader_decode = Ok r ->
  buf = be_put 4 (rh_Length r) ++ be_put 4 (rh_CorrelationID r) /\ 4 < rh_Length r /\ inS 32 (rh_Length r).
Proof.
  intros (rd' & H & Hl)%DecodeMessage_inv. unfold ResponseHeader_decode in H.
  apply bind_inv in H as (L & s1 & H1 & H).
  apply (int_getter_at getInt32 4 32) in H1 as (B1 & -> & L1 & D1); [|done|lia|done|len_lia].
  destruct (L <=? 4) eqn:E; [done|]. apply Z.leb_gt in E.
  apply bind_inv in H as (c & s2 & H2 & H).
  apply (int_getter_at getInt32 4 32) in H2 as (B2 & -> & L2 & D2); [|done|lia|done|lia].
  injection H as <- <-. cbn [rh_Length rh_CorrelationID rd_off] in *.
  split; [|auto]. change (Z.to_nat 0) with 0%nat in D1. rewrite drop_0 in D1.
  rewrite D1 at 1. rewrite D2. rewrite (drop_ge buf); [by rewrite app_nil_r|].
  unfold len in Hl. lia.
Qed.

(** ** Runs of methods on the world *)

Section runs.
Context {X : Type}.
Implicit Types (w : world X).

Lemma returning_Ok {A} b (m : M (world X) A) w a w' :
  returning b m w = (Ok a, w') -> m w = (Ok a, w').
Proof. unfold returning. by destruct (m w) as [[]]. Qed.

Lemma on_client_Ok {A} (m : M conn A) w a w' :
  on_client m w = (Ok a, w') -> exists c, m (client w) = (Ok a, c) /\ w' = set_client c w.
Proof. unfold on_client. destruct (m (client w)) as [r c]. intros [= -> <-]. eauto. Qed.

Lemma on_broker_Ok {A} (m : M conn A) w a w' :
  on_broker m w = (Ok a, w') -> exists c, m (broker w) = (Ok a, c) /\ w' = set_broker c w.
Proof. unfold on_broker. destruct (m (broker w)) as [r c]. intros [= -> <-]. eauto. Qed.

Lemma on_outside_Ok {A} (m : M X A) w a w' :
  on_outside m w = (Ok a, w') -> exists x, m (ext w) = (Ok a, x) /\ w' = set_ext x w.
Proof. unfold on_outside. destruct (m (ext w)) as [r c]. intros [= -> <-]. eauto. Qed.

Lemma on_client_ext_Ok {A} (m : M (conn * X) A) w a w' :
  on_client_ext m w = (Ok a, w') ->
  exists c x, m (client w, ext w) = (Ok a, (c, x)) /\ w' = set_ext x (set_client c w).
Proof. unfold on_client_ext. destruct (m _) as [r [c x]]. intros [= -> <-]. eauto. Qed.

Lemma lift_Ok {A} (r : res A) w a w' : lift r w = (Ok a, w') -> r = Ok a /\ w' = w.
Proof. unfold lift. by intros [= -> ->]. Qed.

Lemma set_client_id w : set_client (client w) w = w.
Proof. by destruct w. Qed.
Lemma set_broker_id w : set_broker (broker w) w = w.
Proof. by destruct w. Qed.

Lemma client_SetDeadline_Ok w a w' : on_client SetDeadline w = (Ok a, w') -> w' = w.
Proof. intros (c & H%SetDeadline_Ok & ->)%on_client_Ok. subst. apply set_client_id. Qed.
Lemma broker_SetDeadline_Ok w a w' : on_broker SetDeadline w = (Ok a, w') -> w' = w.
Proof. intros (c & H%SetDeadline_Ok & ->)%on_broker_Ok. subst. apply set_broker_id. Qed.

Lemma reads_Ok {A} (m : M conn A) c a c' :
  reads m -> m c = (Ok a, c') -> exists b, rx c = b ++ rx c' /\ c' = set_rx (rx c') c.
Proof. intros H E. specialize (H c). by rewrite E in H. Qed.

End runs.

(** Splits a successful run of a handler. *)
Ltac handler_inv :=
  repeat match goal with
  | H : bind _ _ _ = (Ok _, _) |- _ =>
      let a := fresh "a" in let s := fresh "w" in let H1 := fresh "R" in
      apply bind_inv in H as (a & s & H1 & H)
  | H : returning _ _ _ = (Ok _, _) |- _ => apply returning_Ok in H
  | H : on_client SetDeadline _ = (Ok _, _) |- _ => apply client_SetDeadline_Ok in H; subst
  | H : on_broker SetDeadline _ = (Ok _, _) |- _ => apply broker_SetDeadline_Ok in H; subst
  | H : on_client _ _ = (Ok _, _) |- _ =>
      let c := fresh "c" in apply on_client_Ok in H as (c & H & ->)
  | H : on_broker _ _ = (Ok _, _) |- _ =>
      let c := fresh "c" in apply on_broker_Ok in H as (c & H & ->)
  | H : on_outside _ _ = (Ok _, _) |- _ =>
      let x := fresh "x" in apply on_outside_Ok in H as (x & H & ->)
  | H : lift _ _ = (Ok _, _) |- _ => apply lift_Ok in H as [H ->]
  | H : ret _ _ = (Ok _, _) |- _ => unfold ret in H; simplify_eq
  | H : fail _ _ = (Ok _, _) |- _ => discriminate H
  | H : get _ = (Ok _, _) |- _ => unfold get in H; simplify_eq
  | H : modify _ _ = (Ok _, _) |- _ => unfold modify in H; simplify_eq
  end.

Section handlers.
Context {X : Type} (Error_text : error -> bytes)
  (p : processor X).
Implicit Types (w : world X).

Lemma reads_binary_Read n : reads (binary_Read n).
Proof. apply net_reads_bind; eauto with reads. Qed.

Lemma reads_nullable : reads readAndDiscardNullableString.
Proof.
  apply net_reads_bind; [apply reads_binary_Read|]. intros v. cbv zeta.
  destruct (_ <? -1); [eauto with reads|]. destruct (0 <? _); eauto with reads.
Qed.

Lemma reads_HeaderV1 : reads ReadAndDiscardHeaderV1Part.
Proof. apply net_reads_bind; [apply reads_binary_Read|]. intros. apply reads_nullable. Qed.

Lemma reads_acks : reads ReadAndDiscardProduceAcks.
Proof. apply net_reads_bind; [apply reads_binary_Read|]. eauto with reads. Qed.

Lemma reads_txn_acks : reads ReadAndDiscardProduceTxnAcks.
Proof.
  apply net_reads_bind; [apply reads_nullable|]. intros _.
  apply net_reads_bind; [apply reads_binary_Read|]. eauto with reads.
Qed.

Lemma reads_mustReply_inner (b : bool) :
  reads (if b then do* ReadAndDiscardHeaderV1Part in ReadAndDiscardProduceAcks
         else do* ReadAndDiscardHeaderV1Part in ReadAndDiscardProduceTxnAcks).
Proof.
  destruct b; (apply net_reads_bind; [apply reads_HeaderV1|]); intros _; [apply reads_acks|apply reads_txn_acks].
Qed.

(** The bytes [mustReply] returns are the bytes it took. *)
Lemma mustReply_prefix r c mr b c' :
  mustReply p r c = (Ok (mr, b), c') -> rx c = b ++ rx c' /\ c' = set_rx (rx c') c.
Proof.
  unfold mustReply. destruct (_ =? _); [destruct (producerAcks0Disabled p)|].
  - intros [= <- <- <-]. by rewrite set_rx_id.
  - intros H. apply bind_inv in H as ([acks b1] & c1 & H & [= <- <- <-]). simpl.
    pose proof (reads_mustReply_inner ((0 <=? ApiVersion r) && (ApiVersion r <=? 2))) as Hr.
    apply reads_tee in Hr as Ht. destruct (reads_Ok _ _ _ _ Ht H) as (b' & _ & ->).
    apply tee_Ok in H as [_ H]; [done|exact Hr].
  - intros [= <- <- <-]. by rewrite set_rx_id.
Qed.

(** Only a produce request may have no reply. *)
Lemma mustReply_false r c b c' : mustReply p r c = (Ok (false, b), c') -> ApiKey r = apiKeyProduce.
Proof. unfold mustReply. destruct (_ =? _) eqn:E; [by apply Z.eqb_eq in E|]. by intros [=]. Qed.

(** The filters' part in a forwarded request. *)
Definition request_filtered (r : RequestKeyVersion) (payload payload' : bytes) (x x' : X) : Prop :=
  match filterChain p with
  | None => payload' = payload /\ x' = x
  | Some chain =>
      ApplyRequestFilters chain (ApiKey r) (ApiVersion r) payload x = (Ok payload', x')
  end.

Lemma handleLocalSasl_false r buf w w' :
  handleLocalSasl Error_text p r buf w = (Ok false, w') ->
  w' = w /\
  (enabled (localSasl p) = true ->
     (localSaslDone w = true /\ ApiKey r <> apiKeySaslHandshake) \/ ApiKey r = apiKeyApiApiVersions).
Proof.
  unfold handleLocalSasl. unfold bind at 1, get.
  destruct (enabled (localSasl p)); simpl; [|by intros [= <-]].
  destruct (localSaslDone w).
  - destruct (ApiKey r =? apiKeySaslHandshake) eqn:E; [done|]. apply Z.eqb_neq in E.
    intros [= <-]. auto.
  - destruct (ApiKey r =? apiKeySaslHandshake); [intros H; by handler_inv|].
    destruct (ApiKey r =? apiKeyApiApiVersions) eqn:E; [|done]. apply Z.eqb_eq in E.
    intros [= <-]. auto.
Qed.

Lemma handleLocalSasl_true r buf w w' :
  handleLocalSasl Error_text p r buf w = (Ok true, w') ->
  enabled (localSasl p) = true /\ localSaslDone w = false /\ ApiKey r = apiKeySaslHandshake /\
  exists c x,
    (receiveAndSendSASLAuthV0 (localSasl p) buf (client w, ext w) = (Ok tt, (c, x)) \/
     receiveAndSendSASLAuthV1 Error_text (localSasl p) buf (client w, ext w)
       = (Ok tt, (c, x))) /\
    w' = set_localSaslDone (set_ext x (set_client c w)).
Proof.
  unfold handleLocalSasl. unfold bind at 1, get.
  destruct (enabled (localSasl p)); simpl; [|done].
  destruct (localSaslDone w).
  { destruct (ApiKey r =? apiKeySaslHandshake); [done|]. by intros [=]. }
  destruct (ApiKey r =? apiKeySaslHandshake) eqn:E; [apply Z.eqb_eq in E|].
  - intros H. handler_inv. repeat split; try done.
    destruct (ApiVersion r =? 0).
    + apply on_client_ext_Ok in R as (c & x & R & ->). destruct a. exists c, x. auto.
    + destruct (ApiVersion r =? 1); [|done].
      apply on_client_ext_Ok in R as (c & x & R & ->). destruct a. exists c, x. auto.
  - destruct (ApiKey r =? apiKeyApiApiVersions); intros H; handler_inv; discriminate.
Qed.

Lemma request_filters_inv r0 payload mr0 r payload' mr w w' :
  len payload = Length r0 ->
  match filterChain p with
  | None => ret (Forward r0 payload mr0)
  | Some chain =>
      let* payload := returning true (on_outside (ApplyRequestFilters chain (ApiKey r0) (ApiVersion r0) payload)) in
      ret (Forward {| Length := int32 (len payload); ApiKey := ApiKey r0;
                      ApiVersion := ApiVersion r0 |} payload mr0)
  end w = (Ok (Forward r payload' mr), w') ->
  ApiKey r = ApiKey r0 /\ ApiVersion r = ApiVersion r0 /\ mr = mr0 /\
  be_put 4 (Length r) = be_put 4 (len payload') /\
  exists x', request_filtered r payload payload' (ext w) x' /\ w' = set_ext x' w.
Proof.
  intros Hl H. unfold request_filtered. destruct (filterChain p) as [chain|].
  - handler_inv. repeat split; [by apply (be_put_wrapS 4); lia|]. eauto.
  - handler_inv. rewrite Hl. repeat split. exists (ext w'). by destruct w'.
Qed.

(** A request that is to be forwarded: what was read, what is forwarded, and
    that nothing else changed. *)
Lemma readRequestStage_Forward w r payload' mr w' :
  readRequestStage Error_text p w = (Ok (Forward r payload' mr), w') ->
  exists L payload rest x',
    rx (client w) = be_put 4 L ++ payload ++ rest /\ len payload = L /\ 4 < L < 2 ^ 31 /\
    take 4 payload = be_put 2 (ApiKey r) ++ be_put 2 (ApiVersion r) /\
    inS 16 (ApiKey r) /\ inS 16 (ApiVersion r) /\
    request_filtered r payload payload' (ext w) x' /\ be_put 4 (Length r) = be_put 4 (len payload') /\
    w' = set_ext x' (set_client (set_rx rest (client w)) w) /\
    minRequestApiKey <= ApiKey r <= maxRequestApiKey /\ ApiKey r ∉ forbiddenApiKeys p /\
    (enabled (localSasl p) = true ->
      (localSaslDone w = true /\ ApiKey r <> apiKeySaslHandshake) \/ ApiKey r = apiKeyApiApiVersions) /\
    (mr = false -> ApiKey r = apiKeyProduce).
Proof.
  intros H. unfold readRequestStage in H.
  apply bind_inv in H as (? & ? & R & H). handler_inv.
  destruct ((ApiKey a1 <? minRequestApiKey) || (maxRequestApiKey <? ApiKey a1)) eqn:Ek; [by handler_inv|].
  apply orb_false_iff in Ek as [Ek1%Z.ltb_ge Ek2%Z.ltb_ge].
  case_bool_decide as Ef; [by handler_inv|].
  apply ReadFull_Ok in R1 as (Hrx & _ & Hc).
  apply RequestKeyVersion_decode_inv in R2 as (Hbuf & HL & BL & Bk & Bv).
  apply bind_inv in H as (handled & w1 & R & H). destruct handled; [by handler_inv|].
  apply handleLocalSasl_false in R as [-> Hsasl].
  apply bind_inv in H as ([mr1 b1] & w2 & R & H).
  destruct (Length a1 - 4 - len b1 <? 0) eqn:El; [by handler_inv|]. apply Z.ltb_ge in El.
  apply bind_inv in H as (b2 & w3 & R2 & H). handler_inv.
  pose proof R as Hmr. apply mustReply_prefix in R as (Hrx1 & Hc1). apply ReadFull_make_Ok in R2 as (Hrx2 & Hl2 & Hc2).
  cbn [client set_client] in *.
  exists (Length a1), (be_put 2 (ApiKey a1) ++ be_put 2 (ApiVersion a1) ++ b1 ++ b2), (rx c0).
  assert (drop 4 a0 = be_put 2 (ApiKey a1) ++ be_put 2 (ApiVersion a1)) as Hd by (by rewrite Hbuf).
  rewrite Hd in H.
  assert (len (be_put 2 (ApiKey a1) ++ be_put 2 (ApiVersion a1) ++ b1 ++ b2) = Length a1) as Hlen by len_lia.
  rewrite <- app_assoc in H.
  apply request_filters_inv in H as (Ekr & Evr & -> & Hput & x' & Hf & ->); [|done].
  exists x'. rewrite Ekr, Evr. cbn [client set_client ext] in *.
  assert (c0 = set_rx (rx c0) (client w)) as Hc0 by (rewrite Hc2, Hc1, Hc; done).
  rewrite Hrx, Hrx1, Hrx2, Hbuf, <- !app_assoc.
  unfold inS in BL. split_and!; try done; [lia..| |]; [by rewrite Hc0|].
  intros ->. by eapply mustReply_false.
Qed.

Lemma writeRequestStage_Ok r payload w a w' :
  writeRequestStage r payload w = (Ok a, w') ->
  exists e, w' = set_broker (set_tx (tx (broker w) ++ be_put 4 (Length r) ++ payload) e (broker w)) w.
Proof.
  intros H. unfold writeRequestStage in H. handler_inv.
  apply Write_Ok in R1 as (e1 & ->). apply Write_Ok in H as (e2 & ->). exists e2.
  rewrite (be_put_wrapU 4) by lia. unfold set_broker, set_tx. simpl. by rewrite <- app_assoc.
Qed.

(** The handlers a forwarded request queues. *)
Definition next_request_handler (r : RequestKeyVersion) : RequestHandler :=
  if (ApiKey r =? apiKeySaslHandshake) && (ApiVersion r =? 0) then saslAuthV0RequestHandler
  else defaultRequestHandler.
Definition next_response_handlers (r : RequestKeyVersion) (mr : bool) : list ResponseHandler :=
  if (ApiKey r =? apiKeySaslHandshake) && (ApiVersion r =? 0) then [saslAuthV0ResponseHandler]
  else if mr then [defaultResponseHandler] else [].

Lemma putNextRequestHandler_Ok h w a w' :
  putNextRequestHandler p h w = (Ok a, w') ->
  w' = set_channels (openRequestsChannel w) (nextRequestHandlerChannel w ++ [h])
         (nextResponseHandlerChannel w) w.
Proof. unfold putNextRequestHandler. destruct (_ <? _); [congruence|done]. Qed.

Lemma putNextHandlers_Ok h g w a w' :
  putNextHandlers p h g w = (Ok a, w') ->
  w' = set_channels (openRequestsChannel w) (nextRequestHandlerChannel w ++ [h])
         (nextResponseHandlerChannel w ++ [g]) w.
Proof.
  unfold putNextHandlers. intros H. apply bind_inv in H as (? & ? & R%putNextRequestHandler_Ok & H).
  subst. unfold putNextResponseHandler in H. destruct (_ <? _); [|done]. by injection H as <- <-.
Qed.

Lemma nextHandlersStage_Ok r mr w a w' :
  nextHandlersStage p r mr w = (Ok a, w') ->
  w' = set_channels (openRequestsChannel w) (nextRequestHandlerChannel w ++ [next_request_handler r])
         (nextResponseHandlerChannel w ++ next_response_handlers r mr) w.
Proof.
  unfold nextHandlersStage, next_request_handler, next_response_handlers.
  destruct (_ && _); [|destruct mr]; intros H%returning_Ok.
  - by eapply putNextHandlers_Ok.
  - by eapply putNextHandlers_Ok.
  - rewrite app_nil_r. by eapply putNextRequestHandler_Ok.
Qed.

Lemma registerStage_Ok r mr w a w' :
  registerStage p r mr w = (Ok a, w') ->
  w' = set_channels (openRequestsChannel w ++ if mr then [r] else [])
         (nextRequestHandlerChannel w) (nextResponseHandlerChannel w) w.
Proof.
  unfold registerStage. destruct mr; intros H.
  - apply returning_Ok in H. unfold sendRequestKeyVersion in H. destruct (_ <? _); [|done].
    by injection H as <- <-.
  - injection H as <- <-. rewrite app_nil_r. by destruct w.
Qed.

(** ** Frames: what the stages leave alone on every outcome *)

Lemma preserves_returning {A} (P : world X -> Prop) b (m : M (world X) A) :
  (forall w b, P w -> P (set_readErr b w)) -> preserves P m -> preserves P (returning b m).
Proof.
  intros HP Hm w Hw. specialize (Hm w Hw). unfold returning. destruct (m w) as [[]]; simpl in *; auto.
Qed.

(** [broker_is b]: the broker connection is [b]. *)
Definition broker_is (b : conn) (w : world X) : Prop := broker w = b.

Lemma broker_is_readErr b w e : broker_is b w -> broker_is b (set_readErr e w).
Proof. done. Qed.

Lemma broker_is_client {A} b (m : M conn A) : preserves (broker_is b) (on_client m).
Proof. intros w Hw. unfold on_client. by destruct (m (client w)). Qed.
Lemma broker_is_client_ext {A} b (m : M (conn * X) A) : preserves (broker_is b) (on_client_ext m).
Proof. intros w Hw. unfold on_client_ext. by destruct (m _) as [r [c x]]. Qed.
Lemma broker_is_outside {A} b (m : M X A) : preserves (broker_is b) (on_outside m).
Proof. intros w Hw. unfold on_outside. by destruct (m _). Qed.
Lemma broker_is_SetDeadline b : preserves (broker_is b) (on_broker SetDeadline).
Proof.
  intros w Hw. unfold on_broker, SetDeadline. destruct (deadline_err (broker w)); simpl; exact Hw.
Qed.
Lemma broker_is_lift {A} b (r : res A) : preserves (broker_is b) (lift r).
Proof. by intros w. Qed.
Lemma broker_is_put b h : preserves (broker_is b) (putNextRequestHandler p h).
Proof. intros w Hw. unfold putNextRequestHandler. by destruct (_ <? _). Qed.

Lemma broker_is_returning {A} b e (m : M (world X) A) :
  preserves (broker_is b) m -> preserves (broker_is b) (returning e m).
Proof. apply preserves_returning, broker_is_readErr. Qed.

Create HintDb frame discriminated.
#[local] Hint Resolve broker_is_client broker_is_client_ext broker_is_outside broker_is_SetDeadline
  broker_is_lift broker_is_put broker_is_returning preserves_ret preserves_fail : frame.

Lemma broker_is_handleLocalSasl b r buf :
  preserves (broker_is b) (handleLocalSasl Error_text p r buf).
Proof.
  intros w Hw. unfold handleLocalSasl, bind at 1, get.
  destruct (negb _); [done|]. destruct (localSaslDone w).
  { destruct (_ =? _); [|done]. by apply broker_is_returning; eauto with frame. }
  destruct (ApiKey r =? apiKeySaslHandshake).
  - revert w Hw. apply preserves_bind.
    + apply broker_is_returning. destruct (ApiVersion r =? 0); [eauto with frame|].
      destruct (ApiVersion r =? 1); eauto with frame.
    + intros _. apply preserves_bind; [by intros w Hw|]. intros _.
      apply preserves_bind; eauto with frame.
  - destruct (_ =? _); [done|]. by apply broker_is_returning; eauto with frame.
Qed.

Lemma broker_is_readRequestStage b :
  preserves (broker_is b) (readRequestStage Error_text p).
Proof.
  unfold readRequestStage. do 4 (apply preserves_bind; [eauto with frame|intros]).
  destruct (_ || _); [eauto with frame|]. case_bool_decide; [eauto with frame|].
  apply preserves_bind; [apply broker_is_handleLocalSasl|]. intros [].
  { apply preserves_bind; eauto with frame. }
  apply preserves_bind; [eauto with frame|]. intros [mr b1].
  destruct (_ <? 0); [eauto with frame|].
  apply preserves_bind; [eauto with frame|]. intros b2.
  destruct (filterChain p); [|eauto with frame]. apply preserves_bind; eauto with frame.
Qed.

Lemma broker_is_registerStage b r mr : preserves (broker_is b) (registerStage p r mr).
Proof.
  unfold registerStage. destruct mr; [|eauto with frame]. apply broker_is_returning.
  intros w Hw. unfold sendRequestKeyVersion. by destruct (_ <? _).
Qed.

(** Whatever the outcome, a request handler that sent something to the broker
    first read a request that passed the checks. *)
Lemma handleRequest_sends w :
  tx (broker (snd (handleRequest Error_text p w))) <> tx (broker w) ->
  exists r payload mr w1,
    readRequestStage Error_text p w = (Ok (Forward r payload mr), w1).
Proof.
  unfold handleRequest, bind at 1.
  pose proof (broker_is_readRequestStage (broker w) w eq_refl) as H.
  destruct (readRequestStage _ _ w) as [[[|r payload mr]|e|x] w1]; simpl in H |- *;
    try (unfold broker_is in H; by rewrite H). eauto 10.
Qed.

(** ** Responses *)

(** The filters' part in a forwarded response. *)
Definition response_filtered (r : RequestKeyVersion) (payload payload' : bytes) (x x' : X) : Prop :=
  match filterChain p with
  | None => payload' = payload /\ x' = x
  | Some chain =>
      ApplyResponseFilters chain (ApiKey r) (ApiVersion r) payload x = (Ok payload', x')
  end.

Lemma readResponseHeaderStage_Ok w hdr rh w' :
  readResponseHeaderStage w = (Ok (hdr, rh), w') ->
  hdr = be_put 4 (rh_Length rh) ++ be_put 4 (rh_CorrelationID rh) /\ 4 < rh_Length rh < 2 ^ 31 /\
  exists rest, rx (broker w) = hdr ++ rest /\ w' = set_broker (set_rx rest (broker w)) w.
Proof.
  intros H. unfold readResponseHeaderStage in H. handler_inv.
  apply ReadFull_Ok in R1 as (Hrx & _ & Hc). apply ResponseHeader_decode_inv in R2 as (Hb & HL & HB).
  split; [done|]. unfold inS in HB. split; [lia|]. exists (rx c). by rewrite <- Hc.
Qed.

Lemma receiveRequestKeyVersion_Ok w r w' :
  receiveRequestKeyVersion w = (Ok r, w') ->
  exists q, openRequestsChannel w = r :: q /\
    w' = set_channels q (nextRequestHandlerChannel w) (nextResponseHandlerChannel w) w.
Proof.
  unfold receiveRequestKeyVersion. destruct (openRequestsChannel w) as [|r0 q]; [done|].
  intros [= <- <-]. eauto.
Qed.

Lemma MaybeRead_v0 tf c b c' : rhtf_version tf <= 0 -> MaybeRead tf c = (Ok b, c') -> b = [].
Proof.
  intros Hv. unfold MaybeRead. replace (_ <=? _) with false by (symmetry; apply Z.leb_gt; lia).
  by intros [= <- _].
Qed.

Lemma forwardResponseStage_Ok hdr rh r w a w' :
  forwardResponseStage p hdr rh r w = (Ok a, w') ->
  exists tagged body body' payload' rest x1 x2 e,
    rx (broker w) = tagged ++ body ++ rest /\ len tagged + len body = rh_Length rh - 4 /\
    (ResponseHeaderVersion r = 0 -> tagged = []) /\
    modifyResponse p r body (ext w) = (Ok body', x1) /\
    response_filtered r (drop 4 hdr ++ tagged ++ body') payload' x1 x2 /\
    w' = set_ext x2 (set_client (set_tx (tx (client w) ++ be_put 4 (len payload') ++ payload') e (client w))
           (set_broker (set_rx rest (broker w)) w)).
Proof.
  intros H. unfold forwardResponseStage in H. apply bind_inv in H as (? & ? & R & H). handler_inv.
  destruct (rh_Length rh - 4 - len a2 <? 0) eqn:El; [by handler_inv|].
  apply bind_inv in H as (body & w1 & Rb & H). apply bind_inv in H as (body' & w2 & Rm & H).
  apply bind_inv in H as (payload' & w3 & Rf & H). handler_inv.
  apply MaybeRead_prefix in R2 as Hp. destruct Hp as (Hrx & Hc).
  apply ReadFull_make_Ok in Rb as (Hrx1 & Hl1 & Hc1). cbn [broker set_broker ext client] in *.
  assert (exists x2, response_filtered r (drop 4 hdr ++ a2 ++ body') payload' x0 x2 /\
    w3 = set_ext x2 (set_broker (set_rx (rx c2) (broker w)) w)) as (x2 & Hf & ->).
  { unfold response_filtered. assert (c2 = set_rx (rx c2) (broker w)) as Hc2 by (rewrite Hc1, Hc; done).
    destruct (filterChain p); handler_inv; rewrite <- Hc2; eauto. }
  apply Write_Ok in R as (e1 & ->). apply Write_Ok in H as (e2 & ->).
  exists a2, body, body', payload', (rx c2), x0, x2, e2.
  rewrite Hrx, Hrx1. split; [done|]. split; [lia|]. split.
  { intros Hv. eapply MaybeRead_v0; [|exact R2]. unfold NewResponseHeaderTaggedFields in R1.
    rewrite Hv in R1. injection R1 as <-. done. }
  split; [done|]. split; [done|]. cbn [tx client set_client set_ext set_tx set_broker].
  rewrite (be_put_wrapU 4) by lia. unfold set_ext, set_client, set_tx, set_broker. simpl.
  by rewrite <- app_assoc.
Qed.

(** ** The control state: channels and SASL flag *)

Definition ctl (w : world X) :=
  (openRequestsChannel w, nextRequestHandlerChannel w, nextResponseHandlerChannel w, localSaslDone w).

(** [m] keeps the control state on every outcome. *)
Definition keeps_ctl {A} (m : M (world X) A) : Prop := forall w, ctl (snd (m w)) = ctl w.

Lemma keeps_bind {A B} (m : M (world X) A) (k : A -> M (world X) B) :
  keeps_ctl m -> (forall a, keeps_ctl (k a)) -> keeps_ctl (bind m k).
Proof.
  intros Hm Hk w. unfold bind. specialize (Hm w). destruct (m w) as [[a|e|x] w1]; simpl in *; [|done..].
  by rewrite Hk.
Qed.
Lemma keeps_get {A} (k : world X -> M (world X) A) :
  (forall w, keeps_ctl (k w)) -> keeps_ctl (let* w := get in k w).
Proof. intros H w. apply (H w w). Qed.
Lemma keeps_ret {A} (a : A) : keeps_ctl (ret a).
Proof. done. Qed.
Lemma keeps_fail {A} e : keeps_ctl (@fail (world X) A e).
Proof. done. Qed.
Lemma keeps_panic {A} e : keeps_ctl (@panic (world X) A e).
Proof. done. Qed.
Lemma keeps_lift {A} (r : res A) : keeps_ctl (lift r).
Proof. done. Qed.
Lemma keeps_returning {A} b (m : M (world X) A) : keeps_ctl m -> keeps_ctl (returning b m).
Proof. intros H w. specialize (H w). unfold returning. by destruct (m w) as [[]]. Qed.
Lemma keeps_client {A} (m : M conn A) : keeps_ctl (on_client m).
Proof. intros w. unfold on_client. by destruct (m _). Qed.
Lemma keeps_broker {A} (m : M conn A) : keeps_ctl (on_broker m).
Proof. intros w. unfold on_broker. by destruct (m _). Qed.
Lemma keeps_client_ext {A} (m : M (conn * X) A) : keeps_ctl (on_client_ext m).
Proof. intros w. unfold on_client_ext. by destruct (m _) as [r [c x]]. Qed.
Lemma keeps_outside {A} (m : M X A) : keeps_ctl (on_outside m).
Proof. intros w. unfold on_outside. by destruct (m _). Qed.

Create HintDb keeps discriminated.
#[local] Hint Resolve keeps_ret keeps_fail keeps_panic keeps_lift keeps_returning keeps_client
  keeps_broker keeps_client_ext keeps_outside : keeps.
#[local] Ltac keeps_seq := repeat (apply keeps_bind; [solve [eauto with keeps]|intros]); eauto with keeps.

Lemma keeps_writeRequestStage r payload : keeps_ctl (writeRequestStage r payload).
Proof. unfold writeRequestStage. keeps_seq. Qed.

Lemma keeps_readResponseHeaderStage : keeps_ctl readResponseHeaderStage.
Proof. unfold readResponseHeaderStage. keeps_seq. Qed.

Lemma keeps_copySaslAuthResponse : keeps_ctl copySaslAuthResponse.
Proof. unfold copySaslAuthResponse. keeps_seq. Qed.

Lemma keeps_forwardResponseStage hdr rh r : keeps_ctl (forwardResponseStage p hdr rh r).
Proof.
  unfold forwardResponseStage. do 4 (apply keeps_bind; [eauto with keeps|intros]).
  destruct (_ <? 0); [eauto with keeps|]. keeps_seq.
  apply keeps_bind; [destruct (filterChain p); eauto with keeps|]. intros. keeps_seq.
Qed.

Lemma keeps_myCopyN_loop f : forall size n, keeps_ctl (myCopyN_loop f size n).
Proof.
  induction f as [|f IH]; intros size n; simpl; (destruct (size <=? 0); [eauto with keeps|]);
    [eauto with keeps|]. apply keeps_get. intros w. destruct (rx (client w)); [eauto with keeps|].
  keeps_seq.
Qed.

Lemma keeps_copySaslAuthRequest : keeps_ctl (copySaslAuthRequest p).
Proof.
  unfold copySaslAuthRequest. do 3 (apply keeps_bind; [eauto with keeps|intros]).
  destruct (_ <? _); [eauto with keeps|]. apply keeps_bind; [eauto with keeps|]. intros _.
  apply keeps_get. intros. apply keeps_myCopyN_loop.
Qed.

(** What the channels of the other loop see of [readRequestStage]. *)
Definition queues (w : world X) := (openRequestsChannel w, nextResponseHandlerChannel w).

Lemma ctl_queues (w w' : world X) : ctl w' = ctl w -> queues w' = queues w.
Proof. unfold ctl, queues. congruence. Qed.

Definition keeps_queues {A} (m : M (world X) A) : Prop := forall w, queues (snd (m w)) = queues w.

Lemma keeps_ctl_queues {A} (m : M (world X) A) : keeps_ctl m -> keeps_queues m.
Proof. intros H w. apply ctl_queues, H. Qed.

Lemma keeps_queues_bind {A B} (m : M (world X) A) (k : A -> M (world X) B) :
  keeps_queues m -> (forall a, keeps_queues (k a)) -> keeps_queues (bind m k).
Proof.
  intros Hm Hk w. unfold bind. specialize (Hm w). destruct (m w) as [[a|e|x] w1]; simpl in *; [|done..].
  by rewrite Hk.
Qed.

Lemma keeps_queues_returning {A} b (m : M (world X) A) : keeps_queues m -> keeps_queues (returning b m).
Proof. intros H w. specialize (H w). unfold returning. by destruct (m w) as [[]]. Qed.

Lemma keeps_queues_put h : keeps_queues (putNextRequestHandler p h).
Proof. intros w. unfold putNextRequestHandler. by destruct (_ <? _). Qed.

Lemma keeps_queues_handleLocalSasl r buf :
  keeps_queues (handleLocalSasl Error_text p r buf).
Proof.
  intros w. unfold handleLocalSasl, bind at 1, get.
  destruct (negb _); [done|]. destruct (localSaslDone w).
  { destruct (_ =? _); [|done]. apply keeps_queues_returning, keeps_ctl_queues. eauto with keeps. }
  destruct (ApiKey r =? apiKeySaslHandshake).
  - revert w. apply keeps_queues_bind; [|intros _; apply keeps_queues_bind; [done|]; intros _].
    + apply keeps_queues_returning, keeps_ctl_queues. destruct (ApiVersion r =? 0); [eauto with keeps|].
      destruct (ApiVersion r =? 1); eauto with keeps.
    + apply keeps_ctl_queues. keeps_seq.
  - destruct (_ =? _); [done|]. apply keeps_queues_returning, keeps_ctl_queues. eauto with keeps.
Qed.

Lemma keeps_queues_readRequestStage :
  keeps_queues (readRequestStage Error_text p).
Proof.
  unfold readRequestStage.
  do 4 (apply keeps_queues_bind; [apply keeps_ctl_queues; eauto with keeps|intros]).
  destruct (_ || _); [apply keeps_ctl_queues; eauto with keeps|].
  case_bool_decide; [apply keeps_ctl_queues; eauto with keeps|].
  apply keeps_queues_bind; [apply keeps_queues_handleLocalSasl|]. intros [].
  { apply keeps_queues_bind; [apply keeps_queues_returning, keeps_queues_put|]. done. }
  apply keeps_ctl_queues. apply keeps_bind; [eauto with keeps|]. intros [mr b1].
  destruct (_ <? 0); [eauto with keeps|]. keeps_seq. destruct (filterChain p); keeps_seq.
Qed.

(** A request handled by local SASL. *)
Lemma readRequestStage_Handled w w' :
  readRequestStage Error_text p w = (Ok Handled, w') ->
  enabled (localSasl p) = true /\ localSaslDone w = false /\ localSaslDone w' = true /\
  nextRequestHandlerChannel w' = nextRequestHandlerChannel w ++ [defaultRequestHandler].
Proof.
  intros H. unfold readRequestStage in H.
  apply bind_inv in H as (? & ? & R & H). handler_inv.
  destruct (_ || _); [by handler_inv|]. case_bool_decide; [by handler_inv|].
  apply bind_inv in H as (handled & w1 & R & H). destruct handled.
  - apply handleLocalSasl_true in R as (He & Hd & _ & c1 & x1 & _ & ->). handler_inv.
    apply putNextRequestHandler_Ok in R as ->. done.
  - exfalso. apply bind_inv in H as ([mr b1] & w2 & _ & H).
    destruct (_ <? 0); [by handler_inv|]. apply bind_inv in H as (b2 & w3 & _ & H).
    destruct (filterChain p); by handler_inv.
Qed.


End handlers.

#[export] Hint Resolve keeps_ret keeps_fail keeps_panic keeps_lift keeps_returning keeps_client
  keeps_broker keeps_client_ext keeps_outside keeps_writeRequestStage keeps_copySaslAuthRequest
  keeps_readResponseHeaderStage keeps_copySaslAuthResponse keeps_forwardResponseStage : keeps.
Ltac keeps_seq := repeat (apply keeps_bind; [solve [eauto with keeps]|intros]); eauto with keeps.

(** ** Facts

    The handlers on input they accept: the exact worlds they end in. *)

Section runs.
Context {X : Type} (Error_text : error -> bytes)
  (p : processor X).
Implicit Types w : world X.

(** Bytes sent to, bytes taken from a connection. *)
Definition sent_to_broker (b : bytes) w : world X :=
  set_broker (set_tx (tx (broker w) ++ b) None (broker w)) w.
Definition sent_to_client (b : bytes) w : world X :=
  set_client (set_tx (tx (client w) ++ b) None (client w)) w.
Definition client_left (b : bytes) w : world X := set_client (set_rx b (client w)) w.
Definition broker_left (b : bytes) w : world X := set_broker (set_rx b (broker w)) w.

(** No deadline or write on the two connections fails. *)
Record healthy w : Prop := {
  client_deadline : deadline_err (client w) = None;
  broker_deadline : deadline_err (broker w) = None;
  client_writes : tx_err (client w) = None;
  broker_writes : tx_err (broker w) = None
}.

Lemma client_SetDeadline w : deadline_err (client w) = None -> on_client SetDeadline w = (Ok tt, w).
Proof. intros H. unfold on_client, SetDeadline. rewrite H. by destruct w. Qed.
Lemma broker_SetDeadline w : deadline_err (broker w) = None -> on_broker SetDeadline w = (Ok tt, w).
Proof. intros H. unfold on_broker, SetDeadline. rewrite H. by destruct w. Qed.
Lemma broker_Write b w : tx_err (broker w) = None -> on_broker (Write b) w = (Ok tt, sent_to_broker b w).
Proof. intros H. unfold on_broker, Write. by rewrite H. Qed.
Lemma client_Write b w : tx_err (client w) = None -> on_client (Write b) w = (Ok tt, sent_to_client b w).
Proof. intros H. unfold on_client, Write. by rewrite H. Qed.
Lemma ReadFull_rx n b rest c : rx c = b ++ rest -> length b = n -> ReadFull n c = (Ok b, set_rx rest c).
Proof.
  intros H <-. unfold ReadFull. rewrite H, length_app, take_app_length, drop_app_length.
  by replace (_ <=? _)%nat with true by (symmetry; apply Nat.leb_le; lia).
Qed.
Lemma ReadFull_make_rx n b rest c :
  rx c = b ++ rest -> len b = n -> n < 2 ^ 32 -> ReadFull_make n c = (Ok b, set_rx rest c).
Proof.
  intros H Hn Hlt. unfold ReadFull_make. erewrite bind_Ok; [apply ReadFull_rx; [done|]|].
  - subst n. by rewrite to_nat_len.
  - unfold lift, makeslice, maxAlloc.
    replace (n <? 0) with false by (symmetry; apply Z.ltb_ge; subst n; len_lia).
    by replace (2 ^ 48 <? 1 * n) with false by (symmetry; apply Z.ltb_ge; lia).
Qed.
Lemma returning_run {A} b (m : M (world X) A) w a w' : m w = (Ok a, w') -> returning b m w = (Ok a, w').
Proof. unfold returning. by intros ->. Qed.
Lemma client_ReadFull n b rest w :
  rx (client w) = b ++ rest -> length b = n -> on_client (ReadFull n) w = (Ok b, client_left rest w).
Proof. intros H Hn. unfold on_client. by rewrite (ReadFull_rx n b rest). Qed.
Lemma broker_ReadFull n b rest w :
  rx (broker w) = b ++ rest -> length b = n -> on_broker (ReadFull n) w = (Ok b, broker_left rest w).
Proof. intros H Hn. unfold on_broker. by rewrite (ReadFull_rx n b rest). Qed.

(** ** [myCopyN] *)

Definition copied (n : nat) w : world X :=
  client_left (drop n (rx (client w))) (sent_to_broker (take n (rx (client w))) w).

Lemma copied_nothing n w :
  tx_err (broker w) = None -> take n (rx (client w)) = [] -> copied n w = w.
Proof.
  intros Ht H. unfold copied. rewrite H.
  replace (drop n (rx (client w))) with (rx (client w))
    by (rewrite <- (take_drop n (rx (client w))) at 1; by rewrite H).
  unfold sent_to_broker, client_left, set_client, set_broker, set_tx, set_rx. rewrite app_nil_r, <- Ht.
  by destruct w as [[] [] ? ? ? ? ? ?].
Qed.

Lemma copied_copied n m w :
  (n <= length (rx (client w)))%nat ->
  copied m (sent_to_broker (take n (rx (client w))) (client_left (drop n (rx (client w))) w)) =
  copied (n + m) w.
Proof.
  intros Hn. unfold copied, sent_to_broker, client_left, set_client, set_broker, set_tx, set_rx.
  cbn [client broker rx tx rx_end tx_err deadline_err ext openRequestsChannel
       nextRequestHandlerChannel nextResponseHandlerChannel localSaslDone readErr].
  by rewrite <- app_assoc, take_take_drop, drop_drop.
Qed.

(** Copies [size] bytes, or what there is and the error after it. *)
Lemma myCopyN_loop_spec fuel size bufLen w :
  (0 < bufLen)%nat -> (length (rx (client w)) < fuel)%nat -> tx_err (broker w) = None ->
  myCopyN_loop fuel size bufLen w =
    if size <=? len (rx (client w)) then (Ok tt, copied (Z.to_nat size) w)
    else (Err (rx_end (client w)), set_readErr true (copied (Z.to_nat size) w)).
Proof.
  intros Hb. revert size w. induction fuel as [|fuel IH]; intros size w Hf Ht; [lia|].
  cbn [myCopyN_loop]. destruct (Z.leb_spec size 0) as [Hs|Hs].
  { replace (size <=? len (rx (client w))) with true by (symmetry; apply Z.leb_le; len_lia).
    replace (Z.to_nat size) with O by lia. by rewrite copied_nothing. }
  unfold bind at 1, get. destruct (rx (client w)) as [|b0 l] eqn:Erx.
  { replace (size <=? len []) with false by (symmetry; apply Z.leb_gt; len_lia).
    rewrite copied_nothing; [done|done|]. by rewrite Erx, take_nil. }
  rewrite <- Erx in *.
  assert (0 < length (rx (client w)))%nat as Hpos by (rewrite Erx; simpl; lia). clear Erx b0 l.
  set (n := Nat.min (Nat.min bufLen (Z.to_nat size)) (length (rx (client w)))).
  assert (0 < n <= length (rx (client w)))%nat as Hn by lia.
  erewrite bind_Ok by (apply (client_ReadFull n (take n (rx (client w))) (drop n (rx (client w))));
    [by rewrite take_drop|rewrite length_take; lia]).
  erewrite bind_Ok by (by apply returning_run, broker_Write).
  rewrite IH by (cbn [client sent_to_broker client_left set_broker set_client set_rx rx broker set_tx tx_err];
    rewrite ?length_drop; first [lia|done]).
  cbn [client sent_to_broker client_left set_broker set_client set_rx rx broker set_tx tx_err rx_end].
  rewrite (len_take n), len_drop by lia.
  rewrite copied_copied by lia. replace (n + Z.to_nat (size - Z.of_nat n))%nat with (Z.to_nat size) by lia.
  by replace (size - Z.of_nat n <=? len (rx (client w)) - Z.of_nat n) with (size <=? len (rx (client w)))
    by (destruct (Z.leb_spec size (len (rx (client w)))); symmetry; [apply Z.leb_le|apply Z.leb_gt]; lia).
Qed.

Lemma myCopyN_spec size bufLen w :
  (0 < bufLen)%nat -> tx_err (broker w) = None ->
  myCopyN size bufLen w =
    if size <=? len (rx (client w)) then (Ok tt, copied (Z.to_nat size) w)
    else (Err (rx_end (client w)), set_readErr true (copied (Z.to_nat size) w)).
Proof. intros Hb Ht. unfold myCopyN, bind at 1, get. apply myCopyN_loop_spec; [done|lia|done]. Qed.

(** The raw SASL token: its size and its bytes, cut where the client stops. *)
Lemma copySaslAuthRequest_spec n rest w :
  healthy w -> 0 < requestBufferSize p -> inU 32 n -> rx (client w) = be_put 4 n ++ rest ->
  copySaslAuthRequest p w =
    if MaxRequestSize <? int32 n
    then (Err (PacketDecodingError "auth message of length %d too large"),
          set_readErr true (client_left rest w))
    else
      let w1 := sent_to_broker (be_put 4 n) (client_left rest w) in
      if n <=? len rest then (Ok tt, copied (Z.to_nat n) w1)
      else (Err (rx_end (client w)), set_readErr true (copied (Z.to_nat n) w1)).
Proof.
  intros [Hc Hb Hcw Hbw] Hbuf Hn Hrx. unfold copySaslAuthRequest.
  erewrite bind_Ok by (by apply returning_run, broker_SetDeadline).
  erewrite bind_Ok by (by apply returning_run, client_SetDeadline).
  erewrite bind_Ok by (apply returning_run, (client_ReadFull 4 (be_put 4 n) rest);
    [done|apply length_be_put]).
  rewrite be_value_put, (Z.mod_small n) by apply Hn. destruct (MaxRequestSize <? int32 n); [done|].
  erewrite bind_Ok by (by apply returning_run, broker_Write).
  rewrite myCopyN_spec by (done || lia). done.
Qed.

(** ** A request *)

(** The checks of [handleRequest] on a request. *)
Definition request_allowed (r : RequestKeyVersion) w : Prop :=
  minRequestApiKey <= ApiKey r <= maxRequestApiKey /\ inS 16 (ApiVersion r) /\
  ApiKey r ∉ forbiddenApiKeys p /\
  (enabled (localSasl p) = true ->
    if localSaslDone w then ApiKey r <> apiKeySaslHandshake else ApiKey r = apiKeyApiApiVersions).

(** There is room in the channels, and the request handler is taken. *)
Definition channels_have_room w : Prop :=
  len (openRequestsChannel w) < openRequestsCap p /\
  len (nextRequestHandlerChannel w) < nextRequestHandlerCap p /\
  len (nextResponseHandlerChannel w) < nextResponseHandlerCap p.

(** The frame of a request: length, key, version, the rest. *)
Definition request_frame_bytes (r : RequestKeyVersion) (body : bytes) : bytes :=
  be_put 4 (Length r) ++ be_put 2 (ApiKey r) ++ be_put 2 (ApiVersion r) ++ body.

Lemma RequestKeyVersion_decode_fields r :
  4 < Length r -> inS 32 (Length r) -> inS 16 (ApiKey r) -> inS 16 (ApiVersion r) ->
  DecodeMessage (be_put 4 (Length r) ++ be_put 2 (ApiKey r) ++ be_put 2 (ApiVersion r))
    RequestKeyVersion_decode = Ok r.
Proof. destruct r as [L k v]. apply RequestKeyVersion_decode_put. Qed.

Lemma handleLocalSasl_pass r buf w :
  request_allowed r w ->
  handleLocalSasl Error_text p r buf w = (Ok false, w).
Proof.
  intros (_ & _ & _ & Hs). unfold handleLocalSasl, bind, get.
  destruct (enabled (localSasl p)); [|done]. cbn [negb]. specialize (Hs eq_refl).
  destruct (localSaslDone w).
  - apply Z.eqb_neq in Hs. by rewrite Hs.
  - rewrite Hs. done.
Qed.

(** A nullable string of the protocol: its length, -1 for null, and its bytes. *)
Definition wire_nullable_string (s : option bytes) : bytes :=
  match s with Some b => be_put 2 (len b) ++ b | None => be_put 2 (-1) end.
Definition nullable_string_fits (s : option bytes) : Prop :=
  match s with Some b => len b < 2 ^ 15 | None => True end.

(** The acks field in the body of a produce request: it follows the
    correlation id and the client id, and from version 3 the transactional id. *)
Definition produce_acks (r : RequestKeyVersion) (body : bytes) (acks : Z) : Prop :=
  exists corr clientId txn more,
    body = be_put 4 corr ++ wire_nullable_string clientId ++ txn ++ be_put 2 acks ++ more /\
    nullable_string_fits clientId /\ inS 16 acks /\
    if (0 <=? ApiVersion r) && (ApiVersion r <=? 2) then txn = []
    else exists id, nullable_string_fits id /\ txn = wire_nullable_string id.

(** Whether the broker replies: always, but for a produce request with
    acks = 0 (which the proxy does not look for when told that there are none). *)
Definition broker_replies (r : RequestKeyVersion) (body : bytes) (mr : bool) : Prop :=
  if (ApiKey r =? apiKeyProduce) && negb (producerAcks0Disabled p)
  then exists acks, produce_acks r body acks /\ mr = negb (acks =? 0)
  else mr = true.

Lemma binary_Read_rx n z rest c :
  rx c = be_put n z ++ rest -> binary_Read n c = (Ok (z mod 256 ^ Z.of_nat n), set_rx rest c).
Proof.
  intros H. unfold binary_Read. erewrite bind_Ok by (apply (ReadFull_rx n _ _ _ H); by rewrite length_be_put).
  by rewrite be_value_put.
Qed.

Lemma int16_put z : inS 16 z -> int16 (z mod 256 ^ Z.of_nat 2) = z.
Proof.
  intros H. transitivity (int16 (wrapU 16 z)); [done|]. rewrite wrapS_wrapU by lia. by apply wrapS_id.
Qed.

Lemma nullable_string_rx s rest c :
  nullable_string_fits s -> rx c = wire_nullable_string s ++ rest ->
  readAndDiscardNullableString c = (Ok tt, set_rx rest c).
Proof.
  intros Hs Hrx. unfold readAndDiscardNullableString. destruct s as [b|]; cbn [wire_nullable_string nullable_string_fits] in Hs, Hrx.
  - rewrite <- app_assoc in Hrx. erewrite bind_Ok by (by apply binary_Read_rx). cbv zeta.
    rewrite int16_put by (unfold inS; len_lia).
    replace (len b <? -1) with false by (symmetry; apply Z.ltb_ge; len_lia).
    destruct (Z.ltb_spec 0 (len b)) as [Hb|Hb].
    + unfold CopyN_discard. cbn [rx set_rx rx_end]. replace (len b <=? len (b ++ rest)) with true
        by (symmetry; apply Z.leb_le; len_lia).
      by rewrite to_nat_len, drop_app_length.
    + destruct b; [done|]. rewrite len_cons in Hb. len_lia.
  - erewrite bind_Ok by (by apply binary_Read_rx). cbv zeta. by rewrite int16_put by (unfold inS; lia).
Qed.

Lemma HeaderV1_rx corr clientId rest c :
  nullable_string_fits clientId -> rx c = be_put 4 corr ++ wire_nullable_string clientId ++ rest ->
  ReadAndDiscardHeaderV1Part c = (Ok tt, set_rx rest c).
Proof.
  intros Hs Hrx. unfold ReadAndDiscardHeaderV1Part. erewrite bind_Ok by (by apply binary_Read_rx).
  by rewrite (nullable_string_rx clientId rest).
Qed.

Lemma acks_rx acks rest c :
  inS 16 acks -> rx c = be_put 2 acks ++ rest -> ReadAndDiscardProduceAcks c = (Ok acks, set_rx rest c).
Proof.
  intros Ha Hrx. unfold ReadAndDiscardProduceAcks. erewrite bind_Ok by (by apply binary_Read_rx).
  by rewrite int16_put.
Qed.

Lemma tee_run {A} (m : M conn A) (a : A) taken rest c :
  rx c = taken ++ rest -> m c = (Ok a, set_rx rest c) -> tee m c = (Ok (a, taken), set_rx rest c).
Proof.
  intros Hrx Hm. unfold tee. rewrite Hm. cbn [rx set_rx]. rewrite Hrx, length_app.
  replace (length taken + length rest - length rest)%nat with (length taken) by lia.
  by rewrite take_app_length.
Qed.

(** [mustReply] finds the acks field and takes no more than the request. *)
Lemma mustReply_run r body mr rest c :
  broker_replies r body mr -> rx c = body ++ rest ->
  exists taken left, body = taken ++ left /\ mustReply p r c = (Ok (mr, taken), set_rx (left ++ rest) c).
Proof.
  unfold broker_replies, mustReply. intros Hr Hrx.
  destruct (ApiKey r =? apiKeyProduce); [destruct (producerAcks0Disabled p)|]; cbn [andb negb] in Hr.
  1,3: subst mr; exists [], body; split; [done|]; by rewrite <- Hrx, set_rx_id.
  destruct Hr as (acks & (corr & clientId & txn & more & -> & Hc & Ha & Ht) & ->).
  exists (be_put 4 corr ++ wire_nullable_string clientId ++ txn ++ be_put 2 acks), more.
  split; [by rewrite <- !app_assoc|]. rewrite <- !app_assoc in Hrx.
  erewrite bind_Ok; cycle 1.
  { apply (tee_run _ acks (be_put 4 corr ++ wire_nullable_string clientId ++ txn ++ be_put 2 acks) (more ++ rest)).
    { by rewrite <- !app_assoc. }
    destruct ((0 <=? ApiVersion r) && (ApiVersion r <=? 2)).
    - subst txn. erewrite bind_Ok by exact (HeaderV1_rx _ _ _ c Hc Hrx). exact (acks_rx acks (more ++ rest) (set_rx _ c) Ha eq_refl).
    - destruct Ht as (id & Hid & ->). erewrite bind_Ok by exact (HeaderV1_rx _ _ _ c Hc Hrx).
      unfold ReadAndDiscardProduceTxnAcks. erewrite bind_Ok by (by apply (nullable_string_rx id)).
      exact (acks_rx acks (more ++ rest) (set_rx _ c) Ha eq_refl). }
  done.
Qed.

(** What the handler passes to the filters, and what it sends after them. *)
Definition request_payload (r : RequestKeyVersion) (body : bytes) : bytes :=
  be_put 2 (ApiKey r) ++ be_put 2 (ApiVersion r) ++ body.
Definition filtered_request (r : RequestKeyVersion) (payload' : bytes) : RequestKeyVersion :=
  {| Length := int32 (len payload'); ApiKey := ApiKey r; ApiVersion := ApiVersion r |}.

Lemma len_request_payload r body : len (request_payload r body) = 4 + len body.
Proof. unfold request_payload. len_lia. Qed.

Lemma filtered_unchanged r body :
  Length r = 4 + len body -> Length r < 2 ^ 31 -> filtered_request r (request_payload r body) = r.
Proof.
  intros HL Hlt. unfold filtered_request. rewrite len_request_payload, <- HL.
  rewrite wrapS_id; [by destruct r|lia|]. unfold inS. len_lia.
Qed.

(** A request that passes the checks is read whole, and filtered. *)
Lemma readRequestStage_run r body rest payload' x' mr w :
  healthy w -> rx (client w) = request_frame_bytes r body ++ rest ->
  Length r = 4 + len body -> 4 < Length r < 2 ^ 31 -> request_allowed r w ->
  broker_replies r body mr ->
  request_filtered p r (request_payload r body) payload' (ext w) x' ->
  readRequestStage Error_text p w =
    (Ok (Forward (filtered_request r payload') payload' mr), set_ext x' (client_left rest w)).
Proof.
  intros [Hc Hb Hcw Hbw] Hrx HL Hlt Hal Hpr Hf. unfold readRequestStage.
  pose proof Hal as ([Hk1 Hk2] & Hv & Hfb & _). unfold minRequestApiKey, maxRequestApiKey in *.
  erewrite bind_Ok by (by apply returning_run, client_SetDeadline).
  erewrite bind_Ok by (by apply returning_run, broker_SetDeadline).
  set (hdr := be_put 4 (Length r) ++ be_put 2 (ApiKey r) ++ be_put 2 (ApiVersion r)).
  assert (rx (client w) = hdr ++ body ++ rest) as Hrx1
    by (rewrite Hrx; unfold request_frame_bytes, hdr; by rewrite <- !app_assoc).
  erewrite bind_Ok by (apply returning_run, (client_ReadFull 8 hdr (body ++ rest)); [done|];
    unfold hdr; by rewrite !length_app, !length_be_put).
  erewrite bind_Ok by (apply returning_run; unfold lift, hdr;
    rewrite RequestKeyVersion_decode_fields by (unfold inS; lia || done); reflexivity).
  replace ((ApiKey r <? 0) || (20000 <? ApiKey r)) with false
    by (symmetry; apply orb_false_iff; split; apply Z.ltb_ge; lia).
  rewrite bool_decide_false by done.
  erewrite bind_Ok by (apply handleLocalSasl_pass; exact Hal).
  cbv beta iota.
  destruct (mustReply_run r body mr rest (client (client_left (body ++ rest) w)) Hpr eq_refl)
    as (taken & left & -> & Hmr).
  erewrite bind_Ok by (apply returning_run; unfold on_client; rewrite Hmr; reflexivity).
  cbv beta iota.
  replace (Length r - 4 - len taken) with (len left) by (rewrite HL, len_app; lia).
  replace (len left <? 0) with false by (symmetry; apply Z.ltb_ge; len_lia).
  rewrite len_app in HL. erewrite bind_Ok by (apply returning_run; unfold on_client;
    rewrite (ReadFull_make_rx (len left) left rest) by (done || len_lia); reflexivity).
  replace (drop 4 hdr) with (be_put 2 (ApiKey r) ++ be_put 2 (ApiVersion r))
    by (unfold hdr; by rewrite drop_app_length' by (by rewrite length_be_put)).
  rewrite <- app_assoc. change (_ ++ _ ++ taken ++ left) with (request_payload r (taken ++ left)).
  unfold request_filtered in Hf. destruct (filterChain p) as [chain|].
  - erewrite bind_Ok; [reflexivity|]. apply returning_run. unfold on_outside.
    cbn [ext set_client client_left]. by rewrite Hf.
  - destruct Hf as [-> ->]. rewrite filtered_unchanged by (rewrite ?len_app; lia). by destruct w.
Qed.

Definition registered (r : RequestKeyVersion) (mr : bool) w : world X :=
  set_channels (openRequestsChannel w ++ if mr then [r] else [])
    (nextRequestHandlerChannel w ++ [next_request_handler r])
    (nextResponseHandlerChannel w ++ next_response_handlers r mr) w.

Lemma writeRequestStage_run r payload w :
  healthy w -> inS 32 (Length r) ->
  writeRequestStage r payload w = (Ok tt, sent_to_broker (be_put 4 (Length r) ++ payload) w).
Proof.
  intros [Hc Hb Hcw Hbw] HL. unfold writeRequestStage.
  erewrite bind_Ok by (by apply returning_run, broker_SetDeadline).
  erewrite bind_Ok by (by apply returning_run, client_SetDeadline).
  erewrite bind_Ok by (by apply returning_run, broker_Write).
  erewrite returning_run by (by apply broker_Write).
  unfold sent_to_broker, set_broker, set_tx.
  cbn [broker tx client rx rx_end tx_err deadline_err ext openRequestsChannel nextRequestHandlerChannel
       nextResponseHandlerChannel localSaslDone readErr].
  by rewrite be_put_uint32, <- app_assoc.
Qed.

Lemma nextHandlersStage_run r mr w :
  len (nextRequestHandlerChannel w) < nextRequestHandlerCap p ->
  len (nextResponseHandlerChannel w) < nextResponseHandlerCap p ->
  nextHandlersStage p r mr w =
    (Ok tt, set_channels (openRequestsChannel w) (nextRequestHandlerChannel w ++ [next_request_handler r])
              (nextResponseHandlerChannel w ++ next_response_handlers r mr) w).
Proof.
  intros Hq Hp. unfold nextHandlersStage, next_request_handler, next_response_handlers, putNextHandlers,
    putNextRequestHandler, putNextResponseHandler.
  apply Z.ltb_lt in Hq, Hp.
  destruct (_ && _); [|destruct mr]; apply returning_run; unfold bind; rewrite Hq;
    cbn [set_channels nextResponseHandlerChannel]; rewrite ?Hp, ?app_nil_r; done.
Qed.

Lemma registerStage_run r mr w :
  len (openRequestsChannel w) < openRequestsCap p ->
  registerStage p r mr w =
    (Ok tt, set_channels (openRequestsChannel w ++ if mr then [r] else [])
              (nextRequestHandlerChannel w) (nextResponseHandlerChannel w) w).
Proof.
  intros Ho. unfold registerStage. destruct mr.
  - apply returning_run. unfold sendRequestKeyVersion. by rewrite (proj2 (Z.ltb_lt _ _) Ho).
  - rewrite app_nil_r. by destruct w.
Qed.

(** Such a request goes out as the filters return it, registered if the broker
    replies, and the handlers of the next request and of its reply are queued. *)
Lemma handleRequest_run_filtered r body rest payload' x' mr w :
  healthy w -> rx (client w) = request_frame_bytes r body ++ rest ->
  Length r = 4 + len body -> 4 < Length r < 2 ^ 31 -> request_allowed r w ->
  broker_replies r body mr ->
  request_filtered p r (request_payload r body) payload' (ext w) x' ->
  channels_have_room w ->
  handleRequest Error_text p w =
    (Ok tt, registered (filtered_request r payload') mr
       (sent_to_broker (be_put 4 (len payload') ++ payload') (set_ext x' (client_left rest w)))).
Proof.
  intros Hh Hrx HL Hlt Hal Hpr Hf (Ho & Hq & Hp). unfold handleRequest.
  erewrite bind_Ok by (by eapply readRequestStage_run). destruct Hh as [Hc Hb Hcw Hbw].
  erewrite bind_Ok by (by apply registerStage_run).
  erewrite bind_Ok by (apply writeRequestStage_run; [by split|apply wrapS_range; lia]).
  rewrite nextHandlersStage_run by done. cbn [Length filtered_request].
  by rewrite (be_put_wrapS 4) by lia.
Qed.

Lemma handleRequest_run r body rest w :
  healthy w -> rx (client w) = request_frame_bytes r body ++ rest ->
  Length r = 4 + len body -> 4 < Length r < 2 ^ 31 -> request_allowed r w ->
  ApiKey r <> apiKeyProduce \/ producerAcks0Disabled p = true -> filterChain p = None ->
  channels_have_room w ->
  handleRequest Error_text p w =
    (Ok tt, registered r true (sent_to_broker (request_frame_bytes r body) (client_left rest w))).
Proof.
  intros Hh Hrx HL Hlt Hal Hpr Hf Hr.
  erewrite (handleRequest_run_filtered r body rest (request_payload r body) (ext w) true); try done.
  - rewrite filtered_unchanged, len_request_payload, <- HL by lia. by destruct w.
  - unfold broker_replies. destruct (Z.eqb_spec (ApiKey r) apiKeyProduce); [|done].
    by destruct Hpr as [?| ->].
  - unfold request_filtered. by rewrite Hf.
Qed.

(** ** A response *)

(** The tagged fields of a response header of the version the request asks
    for. *)
Definition header_tags (r : RequestKeyVersion) (tags : bytes) : Prop :=
  if 1 <=? ResponseHeaderVersion r
  then exists l, tagged_typed l = true /\ tagged_bytes l = Ok tags
  else tags = [].

Lemma MaybeRead_run r tags rest c :
  header_tags r tags -> rx c = tags ++ rest ->
  exists tf, NewResponseHeaderTaggedFields r = Ok tf /\ MaybeRead tf c = (Ok tags, set_rx rest c).
Proof.
  intros Ht Hrx. unfold NewResponseHeaderTaggedFields, header_tags in *.
  assert (0 <= ResponseHeaderVersion r) as Hv.
  { rewrite ResponseHeaderVersion_table. unfold headerVersionSpec.
    destruct (list_find _ _) as [[? [? [first|]]]|]; [|lia..]. destruct (first <=? _); lia. }
  replace (ResponseHeaderVersion r <? 0) with false by (symmetry; apply Z.ltb_ge; lia).
  eexists. split; [done|]. assert (c = fed tags (set_rx rest c)) as Hc.
  { unfold fed, set_rx. cbn [rx rx_end tx tx_err deadline_err]. rewrite <- Hrx. by destruct c. }
  destruct (1 <=? ResponseHeaderVersion r) eqn:E.
  - destruct Ht as (l & Hl & Ht). rewrite Hc at 1. apply (MaybeRead_tagged _ l); [simpl; lia|done|done].
  - subst tags. unfold MaybeRead. cbn [rhtf_version]. rewrite E. rewrite Hc at 1. by rewrite fed_nil.
Qed.

Definition response_frame_bytes (corr : Z) (tags body : bytes) : bytes :=
  be_put 4 (4 + len tags + len body) ++ be_put 4 corr ++ tags ++ body.

Abbreviation response_filtered := (response_filtered p).

(** A response on time is forwarded with its body modified and the payload
    as the filters return it. *)
Lemma handleResponse_run_filtered r q corr tags body body' payload' rest x' x'' w :
  healthy w -> openRequestsChannel w = r :: q ->
  rx (broker w) = response_frame_bytes corr tags body ++ rest ->
  0 < len tags + len body < 2 ^ 31 - 4 -> inS 32 corr -> header_tags r tags ->
  modifyResponse p r body (ext w) = (Ok body', x') ->
  response_filtered r (be_put 4 corr ++ tags ++ body') payload' x' x'' ->
  handleResponse p w =
    (Ok tt, set_channels q (nextRequestHandlerChannel w) (nextResponseHandlerChannel w)
       (set_ext x'' (sent_to_client (be_put 4 (len payload') ++ payload') (broker_left rest w)))).
Proof.
  intros [Hc Hb Hcw Hbw] Hq Hrx Hlen Hcorr Htags Hm Hf. unfold handleResponse, readResponseHeaderStage.
  set (n := 4 + len tags + len body). set (hdr := be_put 4 n ++ be_put 4 corr).
  assert (rx (broker w) = hdr ++ tags ++ body ++ rest) as Hrx1
    by (rewrite Hrx; unfold response_frame_bytes, hdr, n; by rewrite <- !app_assoc).
  rewrite bind_assoc. erewrite bind_Ok by (by apply returning_run, broker_SetDeadline).
  rewrite bind_assoc. erewrite bind_Ok by (by apply returning_run, client_SetDeadline).
  rewrite bind_assoc. erewrite bind_Ok by (apply returning_run, (broker_ReadFull 8 hdr (tags ++ body ++ rest));
    [done|]; unfold hdr; by rewrite !length_app, !length_be_put).
  rewrite bind_assoc. erewrite bind_Ok; [|apply returning_run; unfold lift, DecodeMessage, hdr;
    erewrite Decode_decodes; [reflexivity|];
    apply (decodes_ResponseHeader {| rh_Length := n; rh_CorrelationID := corr |});
    cbn [rh_Length rh_CorrelationID]; unfold inS, n; (lia || done)].
  unfold ret at 1, bind at 1. cbv beta iota.
  erewrite bind_Ok by (apply returning_run; unfold receiveRequestKeyVersion;
    cbn [broker_left set_broker openRequestsChannel]; rewrite Hq; reflexivity).
  unfold forwardResponseStage.
  erewrite bind_Ok by (apply returning_run, client_SetDeadline; done).
  erewrite bind_Ok by (apply returning_run, broker_SetDeadline; done).
  destruct (MaybeRead_run r tags (body ++ rest) (set_rx (tags ++ body ++ rest) (broker w)) Htags eq_refl)
    as (tf & Htf & HMR).
  erewrite bind_Ok by (apply returning_run; unfold lift; by rewrite Htf).
  erewrite bind_Ok by (apply returning_run; unfold on_broker; cbn [broker set_channels broker_left set_broker];
    rewrite HMR; reflexivity).
  cbn [rh_Length]. replace (n - 4 - len tags) with (len body) by (unfold n; lia).
  replace (len body <? 0) with false by (symmetry; apply Z.ltb_ge; len_lia).
  erewrite bind_Ok by (apply returning_run; unfold on_broker; cbn [broker set_broker];
    rewrite (ReadFull_make_rx (len body) body rest) by (done || len_lia); reflexivity).
  erewrite bind_Ok by (apply returning_run; unfold on_outside; cbn [ext set_broker set_channels broker_left];
    rewrite Hm; reflexivity).
  replace (drop 4 hdr) with (be_put 4 corr)
    by (unfold hdr; by rewrite drop_app_length' by (by rewrite length_be_put)).
  erewrite bind_Ok.
  2:{ unfold response_filtered in Hf. destruct (filterChain p) as [chain|].
      - apply returning_run. unfold on_outside. cbn [ext set_ext]. rewrite Hf. reflexivity.
      - destruct Hf as [-> ->]. reflexivity. }
  erewrite bind_Ok by (apply returning_run, client_Write; done).
  erewrite returning_run by (apply client_Write; done).
  rewrite be_put_uint32.
  destruct w as [cl br x0 rq nr np ls re]. destruct cl as [a1 a2 a3 a4 a5], br as [b1 b2 b3 b4 b5].
  cbv beta iota delta [sent_to_client broker_left set_client set_broker set_ext set_channels set_tx set_rx
       broker tx client rx rx_end tx_err deadline_err ext openRequestsChannel nextRequestHandlerChannel
       nextResponseHandlerChannel localSaslDone readErr].
  by rewrite <- !app_assoc.
Qed.

Lemma handleResponse_run r q corr tags body body' rest x' w :
  healthy w -> openRequestsChannel w = r :: q ->
  rx (broker w) = response_frame_bytes corr tags body ++ rest ->
  0 < len tags + len body < 2 ^ 31 - 4 -> inS 32 corr -> header_tags r tags ->
  modifyResponse p r body (ext w) = (Ok body', x') -> filterChain p = None ->
  handleResponse p w =
    (Ok tt, set_channels q (nextRequestHandlerChannel w) (nextResponseHandlerChannel w)
       (set_ext x' (sent_to_client (response_frame_bytes corr tags body') (broker_left rest w)))).
Proof.
  intros ? ? ? ? ? ? ? Hf. erewrite handleResponse_run_filtered; [|done..|by unfold response_filtered; rewrite Hf].
  unfold response_frame_bytes. by rewrite !len_app, len_be_put, Z.add_assoc.
Qed.

(** ** A pipeline of requests *)

(** A request the loop forwards without further ado. *)
Definition plain_request (e : RequestKeyVersion * bytes) : Prop :=
  let '(r, body) := e in
  Length r = 4 + len body /\ 4 < Length r < 2 ^ 31 /\ inS 16 (ApiVersion r) /\
  minRequestApiKey <= ApiKey r <= maxRequestApiKey /\ ApiKey r ∉ forbiddenApiKeys p /\
  ApiKey r <> apiKeySaslHandshake /\
  (ApiKey r <> apiKeyProduce \/ producerAcks0Disabled p = true).

Definition frames_of (l : list (RequestKeyVersion * bytes)) : bytes :=
  concat ((fun e => request_frame_bytes (fst e) (snd e)) <$> l).

Lemma frames_of_cons e l : frames_of (e :: l) = request_frame_bytes (fst e) (snd e) ++ frames_of l.
Proof. done. Qed.

(** The request loop alone forwards as many requests as may be open. *)
Lemma requestsLoop_run l rest w :
  filterChain p = None -> nextRequestHandlerCap p = 1 -> nextResponseHandlerCap p = openRequestsCap p + 1 ->
  (enabled (localSasl p) = true -> localSaslDone w = true) -> Forall plain_request l ->
  healthy w -> rx (client w) = frames_of l ++ rest ->
  nextRequestHandlerChannel w = [defaultRequestHandler] ->
  len (openRequestsChannel w) + len l <= openRequestsCap p ->
  len (nextResponseHandlerChannel w) <= len (openRequestsChannel w) + 1 ->
  exists w',
    requestsLoop Error_text p (length l) w = (Ok tt, w') /\
    tx (broker w') = tx (broker w) ++ frames_of l /\ rx (client w') = rest /\ tx (client w') = tx (client w) /\
    openRequestsChannel w' = openRequestsChannel w ++ (fst <$> l) /\
    nextRequestHandlerChannel w' = [defaultRequestHandler] /\
    nextResponseHandlerChannel w' =
      nextResponseHandlerChannel w ++ replicate (length l) defaultResponseHandler.
Proof.
  intros Hf Hq1 Hq2. revert w. induction l as [|[r body] l IH]; intros w Hs Hl Hh Hrx Hq Hcap Hcap2.
  { exists w. simpl. rewrite !app_nil_r. by rewrite Hrx. }
  apply Forall_cons in Hl as [(HL & Hlt & Hv & Hk & Hfb & Hsh & Hpr) Hl].
  rewrite frames_of_cons, <- app_assoc in Hrx. cbn [fst snd] in Hrx. rewrite len_cons in Hcap.
  cbn [length requestsLoop]. unfold getNextRequestHandler at 1. rewrite Hq.
  set (w1 := set_channels (openRequestsChannel w) [] (nextResponseHandlerChannel w) w).
  assert (handleRequest Error_text p w1 =
    (Ok tt, registered r true (sent_to_broker (request_frame_bytes r body) (client_left (frames_of l ++ rest) w1))))
    as Hrun.
  { apply handleRequest_run; try done.
    - by destruct Hh.
    - split; [done|]. split; [done|]. split; [done|]. intros He. unfold w1. cbn [localSaslDone set_channels].
      by rewrite (Hs He).
    - unfold channels_have_room, w1.
      cbn [openRequestsChannel set_channels nextRequestHandlerChannel nextResponseHandlerChannel].
      rewrite Hq1, Hq2, len_nil. len_lia. }
  erewrite bind_Ok by exact Hrun.
  assert (next_request_handler r = defaultRequestHandler /\ next_response_handlers r true = [defaultResponseHandler])
    as [E1 E2] by (unfold next_request_handler, next_response_handlers; apply Z.eqb_neq in Hsh; by rewrite Hsh).
  clear Hrx. set (w2 := registered _ _ _) in *.
  assert (openRequestsChannel w2 = openRequestsChannel w ++ [r]) as F1 by reflexivity.
  assert (nextRequestHandlerChannel w2 = [defaultRequestHandler]) as F2 by (cbn; by rewrite E1).
  assert (nextResponseHandlerChannel w2 = nextResponseHandlerChannel w ++ [defaultResponseHandler]) as F3
    by (cbn; by rewrite E2).
  assert (tx (broker w2) = tx (broker w) ++ request_frame_bytes r body) as F4 by reflexivity.
  assert (tx (client w2) = tx (client w)) as F5 by reflexivity.
  assert (rx (client w2) = frames_of l ++ rest) as F6 by reflexivity.
  assert (localSaslDone w2 = localSaslDone w) as F7 by reflexivity.
  assert (healthy w2) as F8 by (destruct Hh; split; assumption || reflexivity).
  clearbody w2. clear Hrun w1.
  destruct (IH w2) as (w' & H1 & H2 & H3 & H4 & H5 & H6 & H7);
    [by rewrite F7|exact Hl|exact F8|exact F6|exact F2|rewrite F1; len_lia|rewrite F1, F3; len_lia|].
  exists w'. rewrite frames_of_cons, fmap_cons. cbn [fst snd].
  rewrite H2, H4, H5, H7, F1, F3, F4, F5, <- !app_assoc. by split_and!.
Qed.

End runs.
