(* ===== verification/ProcessorTheorems.v ===== *)
(** The properties of a proxied connection: what the handlers forward, what
    they refuse, and that the two loops pair replies with requests under every
    interleaving. *)
From Stdlib Require Import ZArith Lia Strings.Byte.
From stdpp Require Import base list strings gmap.
From S2P Require Import Prelude GoLib GoStrings OAuthBearer Encoder Decoder Errors Schema SchemaFacts Messages Net Filters SaslLocal Responses ResponsesFacts ResponseTheorems Auth SaslFacts SaslTheorems Processor ProcessorFacts.

(** ** Inputs the witnesses are evaluated on *)

(** A processor that rewrites addresses with the example mapping, forbids
    DeleteTopics, and has neither filters nor authentication. *)
Definition no_server : AuthServer (list (bytes * Z)) :=
  {| as_enabled := false; as_magic := 0; as_method := []; as_tokenInfo := fun _ => ret (false, 0) |}.
Definition example_config : ProcessorConfig (list (bytes * Z)) :=
  {| MaxOpenRequests := 1; cfg_NetAddressMappingFunc := Some example_mapping;
     cfg_RequestBufferSize := 0; cfg_ResponseBufferSize := 0;
     cfg_LocalSasl := NewLocalSasl false None None; cfg_AuthServer := no_server;
     cfg_ForbiddenApiKeys := [20]; cfg_ProducerAcks0Disabled := false; cfg_FilterChain := None |}.
Definition example_processor := newProcessor example_config.

(** A find-coordinator request, version 0, then an ApiVersions request. *)
Definition example_rkv : RequestKeyVersion := {| Length := 18; ApiKey := 10; ApiVersion := 0 |}.
Definition example_request_body : bytes := be_put 4 7 ++ be_put 2 4 ++ $"test" ++ be_put 2 2 ++ $"g1".
Definition example_rkv2 : RequestKeyVersion := {| Length := 14; ApiKey := 18; ApiVersion := 0 |}.
Definition example_request_body2 : bytes := be_put 4 8 ++ be_put 2 4 ++ $"test".
Definition example_requests : bytes :=
  request_frame_bytes example_rkv example_request_body ++
  request_frame_bytes example_rkv2 example_request_body2.

(** The broker's replies. *)
Definition example_reply2 : bytes := be_put 2 0 ++ be_put 4 0.
Definition example_replies : bytes :=
  response_frame_bytes 7 [] example_response ++ response_frame_bytes 8 [] example_reply2.

Definition example_world : world (list (bytes * Z)) :=
  initial (peer example_requests) (peer example_replies) [].
Definition idle_world : world (list (bytes * Z)) :=
  set_channels [] [] [defaultResponseHandler] example_world.

Lemma idle_world_healthy : healthy idle_world.
Proof. by split. Qed.

(** ** Forwarding *)




(** C3: whatever the client sent and however the request ended, error or panic
    included: if a single byte reached the broker, then the request was whole,
    its key is a valid one that is not forbidden, and with local SASL the
    client was authenticated before or the request is ApiVersions; a
    SaslHandshake then never reaches the broker. *)
Theorem handleRequest_refuses {X} (Error_text : error -> bytes) (p : processor X) (w : world X) :
  tx (broker (snd (handleRequest Error_text p w))) <> tx (broker w) ->
  exists L payload rest,
    rx (client w) = be_put 4 L ++ payload ++ rest /\ len payload = L /\ 4 < L < 2 ^ 31 /\
    exists k v, take 4 payload = be_put 2 k ++ be_put 2 v /\
      minRequestApiKey <= k <= maxRequestApiKey /\ k ∉ forbiddenApiKeys p /\
      (enabled (localSasl p) = true ->
        (localSaslDone w = true /\ k <> apiKeySaslHandshake) \/ k = apiKeyApiApiVersions).
Proof.
  intros (r & payload' & mr & w1 & H)%handleRequest_sends.
  apply readRequestStage_Forward in H
    as (L & payload & rest & x' & H1 & H2 & H3 & H4 & _ & _ & _ & _ & _ & H5 & H6 & H7 & _).
  exists L, payload, rest. split_and!; [done|done|lia|lia|]. by exists (ApiKey r), (ApiVersion r).
Qed.

Lemma handleRequest_refuses_witness :
  exists L payload rest,
    example_requests = be_put 4 L ++ payload ++ rest /\ len payload = L /\ 4 < L < 2 ^ 31 /\
    exists k v, take 4 payload = be_put 2 k ++ be_put 2 v /\
      minRequestApiKey <= k <= maxRequestApiKey /\ k ∉ [20] /\
      (false = true -> (false = true /\ k <> apiKeySaslHandshake) \/ k = apiKeyApiApiVersions).
Proof.
  apply (handleRequest_refuses example_text example_processor idle_world).
  vm_compute. discriminate.
Defined.

(** A request the handler forwards goes out as the filter chain returned it,
    framed with its new length (as it came when there is no chain): the proxy
    adds and drops nothing, takes exactly the request from the client, and
    sends the client nothing.*)
Theorem handleRequest_forwards_filtered {X} (Error_text : error -> bytes) (p : processor X) (w w' : world X) :
  handleRequest Error_text p w = (Ok tt, w') ->
  (enabled (localSasl p) = true /\ localSaslDone w = false /\ localSaslDone w' = true /\
   tx (broker w') = tx (broker w)) \/
  exists L payload rest r payload' x',
    rx (client w) = be_put 4 L ++ payload ++ rest /\ len payload = L /\
    take 4 payload = be_put 2 (ApiKey r) ++ be_put 2 (ApiVersion r) /\
    request_filtered p r payload payload' (ext w) x' /\
    tx (broker w') = tx (broker w) ++ be_put 4 (len payload') ++ payload' /\
    rx (client w') = rest /\ tx (client w') = tx (client w) /\ ext w' = x'.
Proof.
  unfold handleRequest. intros H. apply bind_inv in H as (o & w1 & H1 & H). destruct o as [|r payload' mr].
  - left. injection H as <-. pose proof (broker_is_readRequestStage Error_text p
      (broker w) w eq_refl) as Hb. rewrite H1 in Hb.
    apply readRequestStage_Handled in H1 as (A & B & C & _). split_and!; try done. by rewrite Hb.
  - right. apply bind_inv in H as (? & w2 & H2 & H). apply bind_inv in H as (? & w3 & H3 & H).
    apply readRequestStage_Forward in H1
      as (L & payload & rest & x' & A & B & _ & C & _ & _ & D & E & -> & _).
    apply registerStage_Ok in H2 as ->. apply writeRequestStage_Ok in H3 as (e & ->).
    apply nextHandlersStage_Ok in H as ->.
    exists L, payload, rest, r, payload', x'. by rewrite <- E.
Qed.

(** A filter that appends a byte to requests and drops it from responses. *)
Definition marker : filter (list (bytes * Z)) :=
  {| OnRequest := fun _ _ b l => (Ok (b ++ [xff]), l);
     OnResponse := fun _ _ b l => (Ok (take (length b - 1) b), l) |}.
Definition marking_processor : processor (list (bytes * Z)) := newProcessor
  {| MaxOpenRequests := 1; cfg_NetAddressMappingFunc := None;
     cfg_RequestBufferSize := 0; cfg_ResponseBufferSize := 0;
     cfg_LocalSasl := NewLocalSasl false None None; cfg_AuthServer := no_server;
     cfg_ForbiddenApiKeys := []; cfg_ProducerAcks0Disabled := false; cfg_FilterChain := Some [marker] |}.

Definition marked_request : bytes :=
  be_put 4 19 ++ be_put 2 10 ++ be_put 2 0 ++ example_request_body ++ [xff].
Definition marked_world : world (list (bytes * Z)) :=
  registered {| Length := 19; ApiKey := 10; ApiVersion := 0 |} true
    (sent_to_broker marked_request
       (client_left (request_frame_bytes example_rkv2 example_request_body2) idle_world)).

Lemma handleRequest_forwards_filtered_witness :
  (enabled (localSasl marking_processor) = true /\ localSaslDone idle_world = false /\
   localSaslDone marked_world = true /\ tx (broker marked_world) = tx (broker idle_world)) \/
  exists L payload rest r payload' x',
    rx (client idle_world) = be_put 4 L ++ payload ++ rest /\ len payload = L /\
    take 4 payload = be_put 2 (ApiKey r) ++ be_put 2 (ApiVersion r) /\
    request_filtered marking_processor r payload payload' (ext idle_world) x' /\
    tx (broker marked_world) = tx (broker idle_world) ++ be_put 4 (len payload') ++ payload' /\
    rx (client marked_world) = rest /\ tx (client marked_world) = tx (client idle_world) /\
    ext marked_world = x'.
Proof.
  apply (handleRequest_forwards_filtered example_text marking_processor).
  vm_compute. reflexivity.
Defined.


Definition waiting_world : world (list (bytes * Z)) := set_channels [example_rkv] [] [] idle_world.



(** A reply to a request the proxy has no modifier for (any key other than
    metadata and find-coordinator) passes through byte for byte. *)
Theorem handleResponse_transparent {X} (p : processor X) (r : RequestKeyVersion)
    (q : list RequestKeyVersion) (corr : Z) (tags body rest : bytes) (w : world X) :
  ApiKey r <> apiKeyMetadata -> ApiKey r <> apiKeyFindCoordinator ->
  healthy w -> filterChain p = None -> openRequestsChannel w = r :: q ->
  rx (broker w) = response_frame_bytes corr tags body ++ rest ->
  0 < len tags + len body < 2 ^ 31 - 4 -> inS 32 corr -> header_tags r tags ->
  exists w',
    handleResponse p w = (Ok tt, w') /\
    tx (client w') = tx (client w) ++ response_frame_bytes corr tags body /\
    rx (broker w') = rest /\ ext w' = ext w.
Proof.
  intros Hk1 Hk2 Hh Hf Hq Hrx Hl Hc Ht. eexists. split.
  - eapply handleResponse_run; try done. unfold modifyResponse, GetResponseModifier.
    apply Z.eqb_neq in Hk1, Hk2. rewrite Hk1, Hk2. reflexivity.
  - by split_and!.
Qed.

Definition waiting_world2 : world (list (bytes * Z)) :=
  set_broker (peer (response_frame_bytes 8 [] example_reply2)) (set_channels [example_rkv2] [] [] idle_world).

Lemma handleResponse_transparent_witness :
  exists w',
    handleResponse example_processor waiting_world2 = (Ok tt, w') /\
    tx (client w') = tx (client waiting_world2) ++ response_frame_bytes 8 [] example_reply2 /\
    rx (broker w') = [] /\ ext w' = ext waiting_world2.
Proof.
  apply (handleResponse_transparent example_processor example_rkv2 [] 8 [] example_reply2).
  - discriminate.
  - discriminate.
  - by split.
  - reflexivity.
  - reflexivity.
  - rewrite app_nil_r. reflexivity.
  - bounds.
  - bounds.
  - reflexivity.
Defined.

(** Whenever [handleResponse] succeeds, the client received one frame: the
    correlation id, the header tags and the modified body, passed through the
    filter chain, with the length of what was sent; the broker's next frame
    starts right after this one.*)
Theorem handleResponse_forwards_filtered {X} (p : processor X) (w w' : world X) :
  handleResponse p w = (Ok tt, w') ->
  exists n corr tags body body' payload' rest r q x1 x2,
    rx (broker w) = be_put 4 n ++ be_put 4 corr ++ tags ++ body ++ rest /\
    n = 4 + len tags + len body /\ openRequestsChannel w = r :: q /\
    modifyResponse p r body (ext w) = (Ok body', x1) /\
    response_filtered p r (be_put 4 corr ++ tags ++ body') payload' x1 x2 /\
    tx (client w') = tx (client w) ++ be_put 4 (len payload') ++ payload' /\
    rx (broker w') = rest /\ openRequestsChannel w' = q /\ ext w' = x2 /\
    rx (client w') = rx (client w) /\ tx (broker w') = tx (broker w).
Proof.
  intros H. unfold handleResponse in H. apply bind_inv in H as ([hdr rh] & w1 & H1 & H).
  apply bind_inv in H as (r & w2 & H2 & H).
  apply readResponseHeaderStage_Ok in H1 as (Hhdr & Hn & rest1 & Hrx & ->).
  apply returning_Ok, receiveRequestKeyVersion_Ok in H2 as (q & Hq & ->).
  apply forwardResponseStage_Ok in H
    as (tags & body & body' & payload' & rest & x1 & x2 & e & Hrx2 & Hl & _ & Hm & Hf & ->).
  cbn [broker set_broker set_channels set_rx rx] in Hrx2. subst rest1.
  exists (rh_Length rh), (rh_CorrelationID rh), tags, body, body', payload', rest, r, q, x1, x2.
  replace (drop 4 hdr) with (be_put 4 (rh_CorrelationID rh)) in Hf
    by (rewrite Hhdr; by rewrite drop_app_length' by (by rewrite length_be_put)).
  split_and!; try done; [|lia]. by rewrite Hrx, Hhdr, <- !app_assoc.
Qed.

Definition answered_world : world (list (bytes * Z)) :=
  set_channels [] [] [] (set_ext [($"k1", 9092)]
    (sent_to_client (response_frame_bytes 7 [] example_rewritten)
       (broker_left (response_frame_bytes 8 [] example_reply2) waiting_world))).

Lemma handleResponse_forwards_filtered_witness :
  exists n corr tags body body' payload' rest r q x1 x2,
    rx (broker waiting_world) = be_put 4 n ++ be_put 4 corr ++ tags ++ body ++ rest /\
    n = 4 + len tags + len body /\ openRequestsChannel waiting_world = r :: q /\
    modifyResponse example_processor r body (ext waiting_world) = (Ok body', x1) /\
    response_filtered example_processor r (be_put 4 corr ++ tags ++ body') payload' x1 x2 /\
    tx (client answered_world) = tx (client waiting_world) ++ be_put 4 (len payload') ++ payload' /\
    rx (broker answered_world) = rest /\ openRequestsChannel answered_world = q /\
    ext answered_world = x2 /\ rx (client answered_world) = rx (client waiting_world) /\
    tx (broker answered_world) = tx (broker waiting_world).
Proof.
  apply (handleResponse_forwards_filtered example_processor). vm_compute. reflexivity.
Defined.

(** ** The filter chain *)

(** Filters run on responses in the reverse of the order they run on
    requests, each once, and the first error ends the chain. *)
Theorem response_filters_run_in_reverse {F} (filters : FilterChain F) (k v : Z) (body : bytes) (l : F) :
  ApplyResponseFilters filters k v body l =
    foldl (fun (acc : res bytes * F) f =>
             match acc with (Ok b, l) => OnResponse f k v b l | stop => stop end)
          (Ok body, l) (reverse filters).
Proof.
  rewrite ApplyResponseFilters_rev, <- fmap_reverse. generalize (reverse filters) as fs. clear filters.
  intros fs. revert body l. induction fs as [|f fs IH]; intros body l; [done|]. simpl. unfold bind.
  destruct (OnResponse f k v body l) as [[b|e|w] l1]; [apply IH|clear IH..]; by induction fs.
Qed.

(** A chain of filters that each undo on responses what they do to
    requests (encrypt and decrypt, compress and expand) undoes as a chain what
    it did, because the response order is the reverse one.*)
Theorem filter_chain_inverts {F} (filters : FilterChain F) (k v : Z) (body body' : bytes) (l l' l1 : F) :
  Forall (inverse k v) filters ->
  ApplyRequestFilters filters k v body l = (Ok body', l') ->
  exists l2, ApplyResponseFilters filters k v body' l1 = (Ok body, l2).
Proof. intros H1 H2. by apply (chain_inverse filters k v body l body' l'). Qed.

(** A filter that puts a byte in front, and takes it off. *)
Definition wrapper : filter (list (bytes * Z)) :=
  {| OnRequest := fun _ _ b l => (Ok (x01 :: b), l);
     OnResponse := fun _ _ b l => (match b with _ :: b' => Ok b' | [] => Err EOF end, l) |}.

Lemma filter_chain_inverts_witness :
  exists l2, ApplyResponseFilters [wrapper; marker] 0 9 ([x01] ++ $"records" ++ [xff]) [] = (Ok ($"records"), l2).
Proof.
  apply (filter_chain_inverts [wrapper; marker] 0 9 ($"records") ([x01] ++ $"records" ++ [xff]) [] []).
  - repeat constructor.
    + intros b l b' l' H l1. injection H as <- <-. exists l1. reflexivity.
    + intros b l b' l' H l1. injection H as <- <-. exists l1. unfold OnResponse, marker.
      rewrite length_app, Nat.add_sub, take_app_length. reflexivity.
  - vm_compute. reflexivity.
Defined.
