(* ===== verification/Loops.v ===== *)
(** The request loop and the response loop of a connection running
    concurrently ([copyThenClose] of proxy/common.go over the stages of
    proxy/processor*.go).

    A [sys] is a world, the program counter of each loop, and history: the
    replies to expect in the order the proxy committed to them, the replies
    treated so far, the response handlers taken so far, and the requests
    sent.  [step] interleaves the stages; a stage that fails stops its loop;
    a loop that stops with an error closes both connections, one that panics
    does not ([withRecover] recovers the panic above [copyThenClose]). *)
From Stdlib Require Import ZArith Lia Strings.Byte.
From stdpp Require Import base list strings gmap.
From S2P Require Import Prelude GoLib GoStrings OAuthBearer Encoder Decoder Errors Schema SchemaFacts Messages Net Filters SaslLocal Responses Auth Processor ProcessorFacts.

(** A reply the proxy expects: to a Kafka request, or the raw SASL token
    reply after a [SaslHandshake] of version 0. *)
Inductive reply := KafkaReply (r : RequestKeyVersion) | RawReply.

Definition kind (e : reply) : ResponseHandler :=
  match e with KafkaReply _ => defaultResponseHandler | RawReply => saslAuthV0ResponseHandler end.
Definition request_of (e : reply) : option RequestKeyVersion :=
  match e with KafkaReply r => Some r | RawReply => None end.

Inductive request_pc :=
  | ReqIdle
  | ReqTaken (h : RequestHandler)
  | ReqRegister (r : RequestKeyVersion) (payload : bytes) (mustReply : bool)
  | ReqWrite (r : RequestKeyVersion) (payload : bytes) (mustReply : bool)
  | ReqPut (r : RequestKeyVersion) (mustReply : bool)
  | ReqRawPut
  | ReqStopped (r : res unit).

Inductive response_pc :=
  | RespIdle
  | RespTaken (h : ResponseHandler)
  | RespHeader (hdr : bytes) (rh : ResponseHeader)
  | RespForward (hdr : bytes) (rh : ResponseHeader) (r : RequestKeyVersion)
  | RespStopped (r : res unit).

(** [SaslHandshake] version 0, after which the raw exchange follows. *)
Definition handshakeV0 (r : RequestKeyVersion) : bool :=
  (ApiKey r =? apiKeySaslHandshake) && (ApiVersion r =? 0).

(** The outcome of a method that did not succeed. *)
Definition stopped {A} (r : res A) : option (res unit) :=
  match r with Ok _ => None | Err e => Some (Err e) | Panic w => Some (Panic w) end.

Section loops.
Context {X : Type} (Error_text : error -> bytes) (p : processor X).

Record sys := {
  sw : world X;
  rq : request_pc;
  rs : response_pc;
  expected : list reply;
  answered : list reply;
  taken : list ResponseHandler;
  sent : list (RequestKeyVersion * bool)
}.

Definition start (c b : conn) (x : X) : sys :=
  {| sw := initial c b x; rq := ReqIdle; rs := RespIdle;
     expected := []; answered := []; taken := []; sent := [] |}.

(** A connection after [Close]. *)
Definition closed (c : conn) : conn :=
  {| rx := []; rx_end := ErrClosed; tx := tx c; tx_err := Some (O, ErrClosed);
     deadline_err := Some ErrClosed |}.

Definition request_step (s : sys) (w : world X) (pc : request_pc) (e : list reply)
    (l : list (RequestKeyVersion * bool)) : sys :=
  {| sw := w; rq := pc; rs := rs s; expected := expected s ++ e; answered := answered s;
     taken := taken s; sent := sent s ++ l |}.
Definition response_step (s : sys) (w : world X) (pc : response_pc) (a : list reply)
    (t : list ResponseHandler) : sys :=
  {| sw := w; rq := rq s; rs := pc; expected := expected s; answered := answered s ++ a;
     taken := taken s ++ t; sent := sent s |}.

(** The stage a request program counter runs, and where it continues. *)
Definition request_stage (pc : request_pc) : option (M (world X) (request_pc * list reply * list (RequestKeyVersion * bool))) :=
  match pc with
  | ReqIdle => Some (let* h := getNextRequestHandler in ret (ReqTaken h, [], []))
  | ReqTaken defaultRequestHandler =>
      Some (let* o := readRequestStage Error_text p in
            ret (match o with
                 | Handled => ReqIdle
                 | Forward r payload mr => ReqRegister r payload mr
                 end, [], []))
  | ReqTaken saslAuthV0RequestHandler =>
      Some (do* copySaslAuthRequest p in ret (ReqRawPut, [], []))
  | ReqRegister r payload mr =>
      Some (do* registerStage p r mr in
            ret (ReqWrite r payload mr, if mr then [KafkaReply r] else [], []))
  | ReqWrite r payload mr =>
      Some (do* writeRequestStage r payload in ret (ReqPut r mr, [], [(r, mr)]))
  | ReqPut r mr =>
      Some (do* nextHandlersStage p r mr in
            ret (ReqIdle, if handshakeV0 r then [RawReply] else [], []))
  | ReqRawPut =>
      Some (do* returning false (putNextHandlers p defaultRequestHandler defaultResponseHandler) in
            ret (ReqIdle, [], []))
  | ReqStopped _ => None
  end.

Definition response_stage (pc : response_pc) : option (M (world X) (response_pc * list reply * list ResponseHandler)) :=
  match pc with
  | RespIdle => Some (let* h := getNextResponseHandler in ret (RespTaken h, [], [h]))
  | RespTaken defaultResponseHandler =>
      Some (let* h := readResponseHeaderStage in ret (RespHeader (fst h) (snd h), [], []))
  | RespTaken saslAuthV0ResponseHandler =>
      Some (do* copySaslAuthResponse in ret (RespIdle, [RawReply], []))
  | RespHeader hdr rh =>
      Some (let* r := returning true receiveRequestKeyVersion in
            ret (RespForward hdr rh r, [KafkaReply r], []))
  | RespForward hdr rh r =>
      Some (do* forwardResponseStage p hdr rh r in ret (RespIdle, [], []))
  | RespStopped _ => None
  end.

Inductive step : sys -> sys -> Prop :=
  | step_request s m w pc e l :
      request_stage (rq s) = Some m -> m (sw s) = (Ok (pc, e, l), w) ->
      step s (request_step s w pc e l)
  | step_request_stop s m w r o :
      request_stage (rq s) = Some m -> m (sw s) = (r, w) -> stopped r = Some o ->
      step s (request_step s w (ReqStopped o) [] [])
  | step_response s m w pc a t :
      response_stage (rs s) = Some m -> m (sw s) = (Ok (pc, a, t), w) ->
      step s (response_step s w pc a t)
  | step_response_stop s m w r o :
      response_stage (rs s) = Some m -> m (sw s) = (r, w) -> stopped r = Some o ->
      step s (response_step s w (RespStopped o) [] [])
  | step_close s :
      (exists e, rq s = ReqStopped (Err e)) \/ (exists e, rs s = RespStopped (Err e)) ->
      step s (request_step s (set_client (closed (client (sw s)))
                (set_broker (closed (broker (sw s))) (sw s))) (rq s) [] [])
  | step_outside s x :
      (* other connections use the same plugins *)
      step s (request_step s (set_ext x (sw s)) (rq s) [] []).

Inductive reachable (s0 : sys) : sys -> Prop :=
  | reachable_refl : reachable s0 s0
  | reachable_step s s' : reachable s0 s -> step s s' -> reachable s0 s'.

(** ** The stages run in order are the handlers *)

Lemma request_stages_handleRequest w r payload mr w1 w2 w3 w4 :
  readRequestStage Error_text p w = (Ok (Forward r payload mr), w1) ->
  registerStage p r mr w1 = (Ok tt, w2) -> writeRequestStage r payload w2 = (Ok tt, w3) ->
  nextHandlersStage p r mr w3 = (Ok tt, w4) ->
  runRequestHandler Error_text p defaultRequestHandler w = (Ok tt, w4).
Proof.
  intros H1 H2 H3 H4. simpl. unfold handleRequest.
  erewrite bind_Ok by exact H1.
  cbv beta iota. erewrite bind_Ok by exact H2. by erewrite bind_Ok by exact H3.
Qed.

Lemma response_stages_handleResponse w hdr rh r w1 w2 w3 :
  readResponseHeaderStage w = (Ok (hdr, rh), w1) -> receiveRequestKeyVersion w1 = (Ok r, w2) ->
  forwardResponseStage p hdr rh r w2 = (Ok tt, w3) ->
  runResponseHandler p defaultResponseHandler w = (Ok tt, w3).
Proof.
  intros H1 H2 H3. simpl. unfold handleResponse. erewrite bind_Ok by exact H1.
  cbv beta iota. erewrite bind_Ok by (unfold returning; by rewrite H2). exact H3.
Qed.

(** ** The invariant *)

(** The response handler queued ahead for the reply of a request that is not
    registered yet. *)
Definition ahead (s : sys) (tail : list ResponseHandler) : Prop :=
  match rq s with
  | ReqIdle =>
      (nextRequestHandlerChannel (sw s) = [defaultRequestHandler] /\ tail = [defaultResponseHandler]) \/
      (nextRequestHandlerChannel (sw s) = [saslAuthV0RequestHandler] /\ tail = [])
  | ReqTaken h =>
      nextRequestHandlerChannel (sw s) = [] /\
      tail = match h with defaultRequestHandler => [defaultResponseHandler] | _ => [] end
  | ReqRegister r _ mr =>
      nextRequestHandlerChannel (sw s) = [] /\ tail = [defaultResponseHandler] /\
      (handshakeV0 r = true -> mr = true)
  | ReqWrite r _ mr | ReqPut r mr =>
      nextRequestHandlerChannel (sw s) = [] /\
      tail = (if mr then [] else [defaultResponseHandler]) /\ (handshakeV0 r = true -> mr = true)
  | ReqRawPut => nextRequestHandlerChannel (sw s) = [] /\ tail = []
  | ReqStopped _ => tail = [] \/ tail = [defaultResponseHandler]
  end.

(** The handler taken for a reply that is not treated yet. *)
Definition pending (s : sys) (l : list ResponseHandler) : Prop :=
  match rs s with
  | RespIdle | RespForward _ _ _ => l = []
  | RespTaken h => l = [h]
  | RespHeader _ _ => l = [defaultResponseHandler]
  | RespStopped _ => True
  end.

Record paired (s : sys) : Prop := {
  paired_handlers : exists tail, ahead s tail /\
    taken s ++ nextResponseHandlerChannel (sw s) = (kind <$> expected s) ++ tail;
  paired_requests : exists rest,
    omap request_of (answered s) ++ rest ++ openRequestsChannel (sw s) = omap request_of (expected s) /\
    match rs s with RespStopped _ => True | _ => rest = [] end;
  paired_taken : exists l, pending s l /\ taken s = (kind <$> answered s) ++ l;
  paired_prefix : answered s `prefix_of` expected s
}.

Lemma start_paired c b x : paired (start c b x).
Proof.
  split; simpl.
  - exists [defaultResponseHandler]. split; [by left|done].
  - by exists [].
  - by exists [].
  - by apply prefix_nil.
Qed.

(** *** Its preservation *)

Lemma request_stage_stop s m w r o :
  request_stage (rq s) = Some m -> m (sw s) = (r, w) -> stopped r = Some o ->
  queues w = queues (sw s).
Proof.
  intros Hm Hr Ho.
  assert (forall A (n : M (world X) A) (f : A -> request_pc * list reply * list (RequestKeyVersion * bool)),
    keeps_queues n ->
    (let* a := n in ret (f a)) (sw s) = (r, w) -> queues w = queues (sw s)) as Hk.
  { intros A n f Hn E. pose proof (keeps_queues_bind n (fun a => ret (f a)) Hn ltac:(done) (sw s)) as H.
    by rewrite E in H. }
  destruct (rq s) as [|[]|r0 pl mr|r0 pl mr|r0 mr| |o']; simpl in Hm; simplify_eq.
  - unfold getNextRequestHandler, bind in Hr. destruct (nextRequestHandlerChannel (sw s)); unfold ret in *; by simplify_eq/=.
  - eapply Hk, Hr. apply keeps_queues_readRequestStage.
  - eapply Hk, Hr. apply keeps_ctl_queues, keeps_copySaslAuthRequest.
  - unfold registerStage, returning, sendRequestKeyVersion, bind in Hr.
    repeat case_match; unfold ret in *; by simplify_eq/=.
  - eapply Hk, Hr. apply keeps_ctl_queues, keeps_writeRequestStage.
  - unfold nextHandlersStage, returning, putNextHandlers, putNextRequestHandler,
      putNextResponseHandler, bind in Hr.
    repeat case_match; unfold ret in *; by simplify_eq/=.
  - unfold returning, putNextHandlers, putNextRequestHandler, putNextResponseHandler, bind in Hr.
    repeat case_match; unfold ret in *; by simplify_eq/=.
Qed.

Lemma ahead_tail s tail : ahead s tail -> tail = [] \/ tail = [defaultResponseHandler].
Proof.
  unfold ahead. destruct (rq s) as [|[]|? ? []|? ? []|? []| |]; intros; destruct_or?; destruct_and?;
    subst; auto.
Qed.

Lemma paired_request_stop s w o :
  queues w = queues (sw s) -> paired s -> paired (request_step s w (ReqStopped o) [] []).
Proof.
  intros [= Ho Hn] [(tail & Ha & H1) H2 H3 H4]. unfold request_step. split; simpl; rewrite ?app_nil_r.
  - exists tail. rewrite Hn. split; [by eapply ahead_tail|done].
  - by rewrite Ho.
  - done.
  - done.
Qed.

(** The request loop, stage by stage. *)
Lemma paired_request s m w pc e l :
  request_stage (rq s) = Some m -> m (sw s) = (Ok (pc, e, l), w) -> paired s ->
  paired (request_step s w pc e l).
Proof.
  intros Hm Hr [(tail & Ha & H1) (rest & H2 & H2') (tk & H3 & H3') H4].
  assert (forall e', answered s `prefix_of` expected s ++ e') as Hpre
    by (intros e'; by apply prefix_app_r).
  destruct (rq s) as [|[]|r0 pl mr|r0 pl mr|r0 mr| |o'] eqn:Eq; simpl in Hm; simplify_eq;
    unfold ahead in Ha; rewrite Eq in Ha.
  - (* take *)
    apply bind_inv in Hr as (h & w1 & Hr & [= <- <- <- <-]).
    unfold getNextRequestHandler in Hr.
    destruct Ha as [[Hn ->]|[Hn ->]]; rewrite Hn in Hr; injection Hr as <- <-;
      (split; simpl; rewrite ?app_nil_r; [eexists; split; [done|exact H1]|by exists rest|by exists tk|done]).
  - (* read *)
    apply bind_inv in Hr as (o & w1 & Hr & [= <- <- <- <-]). destruct Ha as [Hn ->].
    pose proof (keeps_queues_readRequestStage Error_text p (sw s)) as Hq.
    rewrite Hr in Hq. injection Hq as Ho Hp. simpl in Ho, Hp.
    split; simpl; rewrite ?app_nil_r; [|rewrite Ho; by exists rest|by exists tk|done].
    exists [defaultResponseHandler]. rewrite Hp. split; [|done]. destruct o as [|r payload mr].
    + apply readRequestStage_Handled in Hr as (_ & _ & _ & Hr). left. simpl. by rewrite Hr, Hn.
    + apply readRequestStage_Forward in Hr
        as (L & pl & rst & x' & _ & _ & _ & _ & _ & _ & _ & _ & -> & _ & _ & _ & Hmr).
      unfold ahead. simpl. split; [done|]. split; [done|]. unfold handshakeV0. intros Hh.
      destruct mr; [done|]. rewrite Hmr in Hh by done. done.
  - (* raw copy *)
    apply bind_inv in Hr as ([] & w1 & Hr & [= <- <- <- <-]). destruct Ha as [Hn ->].
    pose proof (keeps_copySaslAuthRequest p (sw s)) as Hq. rewrite Hr in Hq.
    injection Hq as Ho Hn' Hp _. simpl in *.
    split; simpl; rewrite ?app_nil_r; [|rewrite Ho; by exists rest|by exists tk|done].
    exists []. rewrite Hp. split; [|done]. split; [|done]. simpl. congruence.
  - (* register *)
    apply bind_inv in Hr as ([] & w1 & Hr & [= <- <- <- <-]). destruct Ha as (Hn & -> & Hh).
    apply registerStage_Ok in Hr as ->. split; simpl.
    + exists (if mr then [] else [defaultResponseHandler]). split; [done|].
      rewrite H1. destruct mr; rewrite ?fmap_app, ?app_nil_r, <- ?app_assoc; done.
    + exists rest. split; [|done].
      rewrite omap_app, <- H2, <- !app_assoc. by destruct mr.
    + by exists tk.
    + done.
  - (* write *)
    apply bind_inv in Hr as ([] & w1 & Hr & [= <- <- <- <-]). destruct Ha as (Hn & -> & Hh).
    apply writeRequestStage_Ok in Hr as (er & ->).
    split; simpl; rewrite ?app_nil_r; [|by exists rest|by exists tk|done].
    eexists. split; [split_and!; done|]. done.
  - (* put *)
    apply bind_inv in Hr as ([] & w1 & Hr & [= <- <- <- <-]). destruct Ha as (Hn & -> & Hh).
    apply nextHandlersStage_Ok in Hr as ->. split; simpl.
    + rewrite app_assoc, H1, Hn. unfold next_request_handler, next_response_handlers, handshakeV0 in *.
      destruct (_ && _).
      * rewrite Hh by done. exists []. split; [by right|]. rewrite fmap_app, !app_nil_r. done.
      * exists [defaultResponseHandler]. split; [by left|]. rewrite fmap_app, app_nil_r.
        destruct mr; rewrite ?app_nil_r; done.
    + exists rest. split; [|done]. rewrite omap_app, H2. by destruct (handshakeV0 r0); rewrite ?app_nil_r.
    + by exists tk.
    + done.
  - (* raw put *)
    apply bind_inv in Hr as ([] & w1 & Hr & [= <- <- <- <-]). destruct Ha as (Hn & ->).
    apply returning_Ok, putNextHandlers_Ok in Hr as ->. split; simpl; rewrite ?app_nil_r.
    + exists [defaultResponseHandler]. split; [left; by rewrite Hn|]. rewrite app_assoc, H1. by rewrite app_nil_r.
    + by exists rest.
    + by exists tk.
    + done.
Qed.

Lemma response_stage_ctl s m w r :
  response_stage (rs s) = Some m -> m (sw s) = (r, w) ->
  nextRequestHandlerChannel w = nextRequestHandlerChannel (sw s) /\
  localSaslDone w = localSaslDone (sw s) /\
  (forall o, stopped r = Some o -> queues w = queues (sw s)).
Proof.
  intros Hm Hr.
  assert (forall A (n : M (world X) A) (f : A -> response_pc * list reply * list ResponseHandler),
    keeps_ctl n -> (let* a := n in ret (f a)) (sw s) = (r, w) -> ctl w = ctl (sw s)) as Hk.
  { intros A n f Hn E. pose proof (keeps_bind n (fun a => ret (f a)) Hn ltac:(done) (sw s)) as H.
    by rewrite E in H. }
  assert (ctl w = ctl (sw s) -> nextRequestHandlerChannel w = nextRequestHandlerChannel (sw s) /\
    localSaslDone w = localSaslDone (sw s) /\
    (forall o, stopped r = Some o -> queues w = queues (sw s))) as Hc.
  { intros H. split_and!; [by injection H|by injection H|]. intros _ _. by apply ctl_queues. }
  destruct (rs s) as [|[]|hdr rh|hdr rh r0|o']; simpl in Hm; simplify_eq.
  - unfold getNextResponseHandler, bind in Hr.
    destruct (nextResponseHandlerChannel (sw s)); unfold ret in *; simplify_eq/=; by split_and!.
  - apply Hc. eapply Hk, Hr. apply keeps_readResponseHeaderStage.
  - apply Hc. eapply Hk, Hr. apply keeps_copySaslAuthResponse.
  - unfold returning, receiveRequestKeyVersion, bind in Hr.
    destruct (openRequestsChannel (sw s)); unfold ret in *; simplify_eq/=; by split_and!.
  - apply Hc. eapply Hk, Hr. apply keeps_forwardResponseStage.
Qed.

Lemma ahead_request s w pc a t tail :
  nextRequestHandlerChannel w = nextRequestHandlerChannel (sw s) -> ahead s tail ->
  ahead (response_step s w pc a t) tail.
Proof. intros H Ha. unfold ahead in *. simpl. by rewrite H. Qed.

Lemma paired_response_stop s m w r o :
  response_stage (rs s) = Some m -> m (sw s) = (r, w) -> stopped r = Some o -> paired s ->
  paired (response_step s w (RespStopped o) [] []).
Proof.
  intros Hm Hr Ho [(tail & Ha & H1) (rest & H2 & _) (l & _ & H3) H4].
  destruct (response_stage_ctl _ _ _ _ Hm Hr) as (Hn & _ & Hq). injection (Hq o Ho) as Hop Hp.
  split; simpl; rewrite ?app_nil_r.
  - exists tail. rewrite Hp. split; [by apply ahead_request|done].
  - exists rest. by rewrite Hop.
  - by exists l.
  - done.
Qed.

(** The next reply to treat is the next one expected. *)
Lemma paired_next s tail e l :
  taken s ++ l = (kind <$> expected s) ++ tail -> (tail = [] \/ tail = [defaultResponseHandler]) ->
  taken s = (kind <$> answered s) ++ [kind e] -> answered s `prefix_of` expected s ->
  (e = RawReply \/ (exists r q, e = KafkaReply r /\
     omap request_of (answered s) ++ r :: q = omap request_of (expected s))) ->
  answered s ++ [e] `prefix_of` expected s.
Proof.
  intros H1 Ht H3 [k Hk] He. rewrite Hk in H1, He |- *. rewrite H3, fmap_app, <- !app_assoc in H1.
  apply app_inv_head in H1. destruct k as [|e' k].
  - exfalso. simpl in H1. destruct He as [->|(r & q & -> & E)].
    + destruct Ht as [-> | ->]; discriminate.
    + rewrite app_nil_r in E. apply (f_equal length) in E. rewrite length_app in E. simpl in E. lia.
  - simpl in H1. injection H1 as Hkind _. exists k.
    assert (e' = e) as ->; [|by rewrite <- app_assoc].
    destruct He as [->|(r & q & -> & E)].
    + by destruct e'.
    + destruct e' as [r'|]; [|done]. rewrite omap_app in E. apply app_inv_head in E. simpl in E.
      by injection E as -> _.
Qed.

(** The response loop, stage by stage. *)
Lemma paired_response s m w pc a t :
  response_stage (rs s) = Some m -> m (sw s) = (Ok (pc, a, t), w) -> paired s ->
  paired (response_step s w pc a t).
Proof.
  intros Hm Hr [(tail & Ha & H1) (rest & H2 & H2') (l & Hp & H3) H4].
  destruct (response_stage_ctl _ _ _ _ Hm Hr) as (Hn & _ & _).
  pose proof (fun w pc a t => ahead_request s w pc a t tail) as Hahead.
  unfold pending in Hp.
  destruct (rs s) as [|[]|hdr rh|hdr rh r0|o'] eqn:Es; simpl in Hm; simplify_eq.
  - (* take *)
    apply bind_inv in Hr as (h & w1 & Hr & [= <- <- <- <-]). unfold getNextResponseHandler in Hr.
    destruct (nextResponseHandlerChannel (sw s)) as [|h0 q] eqn:Eq; [done|]. injection Hr as <- <-.
    split; simpl; rewrite ?app_nil_r.
    + exists tail. split; [by apply Hahead|]. by rewrite <- app_assoc.
    + by exists [].
    + exists [h0]. split; [done|]. by rewrite H3, app_nil_r.
    + done.
  - (* header *)
    apply bind_inv in Hr as (h & w1 & Hr & [= <- <- <- <-]).
    pose proof (keeps_readResponseHeaderStage (sw s)) as Hc. rewrite Hr in Hc.
    injection Hc as Ho _ Hpq _. simpl in *.
    split; simpl; rewrite ?app_nil_r.
    + exists tail. rewrite Hpq. split; [by apply Hahead|done].
    + exists []. by rewrite Ho.
    + by exists [defaultResponseHandler].
    + done.
  - (* raw reply *)
    apply bind_inv in Hr as ([] & w1 & Hr & [= <- <- <- <-]).
    pose proof (keeps_copySaslAuthResponse (sw s)) as Hc. rewrite Hr in Hc.
    injection Hc as Ho _ Hpq _. simpl in *.
    assert (answered s ++ [RawReply] `prefix_of` expected s) as Hpre.
    { eapply paired_next; [exact H1|by eapply ahead_tail|exact H3|done|by left]. }
    split; simpl; rewrite ?app_nil_r.
    + exists tail. rewrite Hpq. split; [by apply Hahead|done].
    + exists []. rewrite Ho, omap_app. simpl. by rewrite app_nil_r.
    + exists []. split; [done|]. by rewrite fmap_app, app_nil_r.
    + done.
  - (* receive *)
    apply bind_inv in Hr as (r & w1 & Hr & [= <- <- <- <-]).
    apply returning_Ok, receiveRequestKeyVersion_Ok in Hr as (q & Eo & ->). simpl in H2.
    rewrite Eo in H2.
    assert (answered s ++ [KafkaReply r] `prefix_of` expected s) as Hpre.
    { eapply paired_next; [exact H1|by eapply ahead_tail|exact H3|done|right; eauto]. }
    split; simpl; rewrite ?app_nil_r.
    + exists tail. split; [by apply Hahead|done].
    + exists []. rewrite omap_app, <- app_assoc. done.
    + exists []. split; [done|]. by rewrite fmap_app, app_nil_r.
    + done.
  - (* forward *)
    apply bind_inv in Hr as ([] & w1 & Hr & [= <- <- <- <-]).
    pose proof (keeps_forwardResponseStage p hdr rh r0 (sw s)) as Hc. rewrite Hr in Hc.
    injection Hc as Ho _ Hpq _. simpl in *.
    split; simpl; rewrite ?app_nil_r.
    + exists tail. rewrite Hpq. split; [by apply Hahead|done].
    + exists []. by rewrite Ho.
    + exists []. by rewrite H3, app_nil_r.
    + done.
Qed.

Lemma paired_step s s' : step s s' -> paired s -> paired s'.
Proof.
  intros [s0 m w pc e l Hm Hr|s0 m w r o Hm Hr Ho|s0 m w pc a t Hm Hr|s0 m w r o Hm Hr Ho|s0 Hc|s0 x] Hp.
  - by eapply paired_request.
  - apply paired_request_stop; [by eapply request_stage_stop|done].
  - by eapply paired_response.
  - by eapply paired_response_stop.
  - destruct Hp as [H1 H2 H3 H4]. split; unfold request_step, ahead in *; simpl; by rewrite ?app_nil_r.
  - destruct Hp as [H1 H2 H3 H4]. split; unfold request_step, ahead in *; simpl; by rewrite ?app_nil_r.
Qed.

Lemma reachable_paired c b x s : reachable (start c b x) s -> paired s.
Proof. induction 1; [apply start_paired | by eapply paired_step]. Qed.

(** ** Which requests reach the broker *)

(** The checks a forwarded request passed. *)
Definition admitted (r : RequestKeyVersion) : Prop :=
  minRequestApiKey <= ApiKey r <= maxRequestApiKey /\ ApiKey r ∉ forbiddenApiKeys p.

(** With local SASL, before it is done: ApiVersions only; never a
    SaslHandshake. *)
Definition sasl_admitted (done : bool) (r : RequestKeyVersion) : Prop :=
  enabled (localSasl p) = true ->
  ApiKey r <> apiKeySaslHandshake /\ (done = false -> ApiKey r = apiKeyApiApiVersions).

Definition pc_request (pc : request_pc) : option RequestKeyVersion :=
  match pc with
  | ReqRegister r _ _ | ReqWrite r _ _ | ReqPut r _ => Some r
  | _ => None
  end.

Record gated (s : sys) : Prop := {
  gated_sent : Forall (fun r => admitted (fst r) /\ sasl_admitted (localSaslDone (sw s)) (fst r)) (sent s);
  gated_pc : forall r, pc_request (rq s) = Some r ->
    admitted r /\ sasl_admitted (localSaslDone (sw s)) r;
  gated_raw : enabled (localSasl p) = true ->
    saslAuthV0RequestHandler ∉ nextRequestHandlerChannel (sw s) /\
    rq s <> ReqTaken saslAuthV0RequestHandler /\ rq s <> ReqRawPut
}.

Lemma sasl_admitted_mono d d' r : sasl_admitted d r -> (d = true -> d' = true) -> sasl_admitted d' r.
Proof. intros H Hd He. destruct (H He) as [H1 H2]. split; [done|]. destruct d, d'; auto; by discriminate Hd. Qed.

(** A step that sends nothing and holds no request it did not hold. *)
Lemma gated_frame s s' :
  gated s -> sent s' = sent s -> (localSaslDone (sw s) = true -> localSaslDone (sw s') = true) ->
  (forall r, pc_request (rq s') = Some r -> pc_request (rq s) = Some r) ->
  (enabled (localSasl p) = true ->
     saslAuthV0RequestHandler ∉ nextRequestHandlerChannel (sw s') /\
     rq s' <> ReqTaken saslAuthV0RequestHandler /\ rq s' <> ReqRawPut) ->
  gated s'.
Proof.
  intros [H1 H2 H3] Es Ed Eq Hn. split; [rewrite Es| |done].
  - eapply Forall_impl; [exact H1|]. intros r [? ?]. split; [done|]. by eapply sasl_admitted_mono.
  - intros r Hr%Eq. destruct (H2 r Hr). split; [done|]. by eapply sasl_admitted_mono.
Qed.

(** [readRequestStage] on every outcome: the flag only rises, and only the
    default request handler is queued. *)
Definition request_frame (w w' : world X) : Prop :=
  (localSaslDone w = true -> localSaslDone w' = true) /\
  (forall h, h ∈ nextRequestHandlerChannel w' ->
     h ∈ nextRequestHandlerChannel w \/ h = defaultRequestHandler).

Lemma request_frame_ctl w w' : ctl w' = ctl w -> request_frame w w'.
Proof. intros [= _ H2 _ H4]. unfold request_frame. rewrite H2, H4. auto. Qed.
Lemma request_frame_trans w1 w2 w3 : request_frame w1 w2 -> request_frame w2 w3 -> request_frame w1 w3.
Proof.
  intros [A1 B1] [A2 B2]. split; [auto|]. intros h Hh. destruct (B2 h Hh); [|auto]. auto.
Qed.
Definition frames {A} (m : M (world X) A) : Prop := forall w, request_frame w (snd (m w)).
Lemma frames_bind {A B} (m : M (world X) A) (k : A -> M (world X) B) :
  frames m -> (forall a, frames (k a)) -> frames (bind m k).
Proof.
  intros Hm Hk w. unfold bind. specialize (Hm w). destruct (m w) as [[a|e|x] w1]; simpl in *; [|done..].
  eapply request_frame_trans; [exact Hm|apply Hk].
Qed.
Lemma frames_ctl {A} (m : M (world X) A) : keeps_ctl m -> frames m.
Proof. intros H w. apply request_frame_ctl, H. Qed.
Lemma frames_returning {A} b (m : M (world X) A) : frames m -> frames (returning b m).
Proof. intros H w. specialize (H w). unfold returning. by destruct (m w) as [[]]. Qed.
Lemma frames_put : frames (putNextRequestHandler p defaultRequestHandler).
Proof.
  intros w. unfold putNextRequestHandler. destruct (_ <? _); split; simpl; auto.
  intros h [?| ->%list_elem_of_singleton]%elem_of_app; auto.
Qed.

Lemma frames_handleLocalSasl r buf :
  frames (handleLocalSasl Error_text p r buf).
Proof.
  intros w. unfold handleLocalSasl, bind at 1, get.
  destruct (negb _); [by apply frames_ctl|]. destruct (localSaslDone w).
  { destruct (_ =? _); apply frames_ctl; eauto with keeps. }
  destruct (ApiKey r =? apiKeySaslHandshake).
  - revert w. apply frames_bind; [|intros _; apply frames_bind; [|intros _]].
    + apply frames_returning, frames_ctl. destruct (ApiVersion r =? 0); [eauto with keeps|].
      destruct (ApiVersion r =? 1); eauto with keeps.
    + by split; simpl; auto.
    + apply frames_ctl. keeps_seq.
  - destruct (_ =? _); apply frames_ctl; eauto with keeps.
Qed.

Lemma frames_readRequestStage : frames (readRequestStage Error_text p).
Proof.
  unfold readRequestStage. do 4 (apply frames_bind; [apply frames_ctl; eauto with keeps|intros]).
  destruct (_ || _); [apply frames_ctl; eauto with keeps|].
  case_bool_decide; [apply frames_ctl; eauto with keeps|].
  apply frames_bind; [apply frames_handleLocalSasl|]. intros [].
  { apply frames_bind; [apply frames_returning, frames_put|]. intros. apply frames_ctl; eauto with keeps. }
  apply frames_ctl. apply keeps_bind; [eauto with keeps|]. intros [mr b1].
  destruct (_ <? 0); [eauto with keeps|]. keeps_seq. destruct (filterChain p); keeps_seq.
Qed.

Lemma gated_read s w o :
  rq s = ReqTaken defaultRequestHandler ->
  readRequestStage Error_text p (sw s) = (Ok o, w) -> gated s ->
  gated (request_step s w (match o with
                           | Handled => ReqIdle
                           | Forward r payload mr => ReqRegister r payload mr
                           end) [] []).
Proof.
  intros Hq Hr [H1 H2 H3].
  pose proof (frames_readRequestStage (sw s)) as [Hd Hn]. rewrite Hr in Hd, Hn. simpl in Hd, Hn.
  split; simpl; rewrite ?app_nil_r.
  - eapply Forall_impl; [exact H1|]. intros r [? ?]. split; [done|]. by eapply sasl_admitted_mono.
  - destruct o as [|r payload mr]; [by intros r [=]|]. intros r' [= <-].
    apply readRequestStage_Forward in Hr
      as (L & pl & rst & x' & _ & _ & _ & _ & _ & _ & _ & _ & -> & Hk & Hf & Hs & _).
    split; [by split|]. intros He. simpl. destruct (Hs He) as [[-> Hk']|Hk']; [by split|].
    rewrite Hk'. by split.
  - intros He. destruct (H3 He) as (A & B & C). split; [|by destruct o].
    intros Hin. by destruct (Hn _ Hin).
Qed.

Lemma gated_request_step s m w pc e l :
  request_stage (rq s) = Some m -> m (sw s) = (Ok (pc, e, l), w) -> gated s ->
  gated (request_step s w pc e l).
Proof.
  intros Hm Hr Hg. pose proof Hg as [H1 H2 H3].
  destruct (rq s) as [|[]|r0 pl mr|r0 pl mr|r0 mr| |o'] eqn:Eq; simpl in Hm; simplify_eq.
  - apply bind_inv in Hr as (h & w1 & Hr & [= <- <- <- <-]). unfold getNextRequestHandler in Hr.
    destruct (nextRequestHandlerChannel (sw s)) as [|h0 q] eqn:En; [done|]. injection Hr as <- <-.
    eapply gated_frame; [exact Hg|simpl; by rewrite app_nil_r|done|done|].
    intros He. destruct (H3 He) as (A & _ & _). rewrite elem_of_cons in A. simpl.
    split; [tauto|]. split; [|done]. intros [= ->]. tauto.
  - apply bind_inv in Hr as (o & w1 & Hr & [= <- <- <- <-]). by eapply gated_read.
  - apply bind_inv in Hr as ([] & w1 & Hr & [= <- <- <- <-]).
    pose proof (keeps_copySaslAuthRequest p (sw s)) as Hc. rewrite Hr in Hc. injection Hc as _ _ _ Hd.
    eapply gated_frame; [exact Hg|simpl; by rewrite app_nil_r|simpl; by rewrite Hd|done|].
    intros He. by destruct (H3 He) as (_ & B & _).
  - apply bind_inv in Hr as ([] & w1 & Hr & [= <- <- <- <-]). apply registerStage_Ok in Hr as ->.
    eapply gated_frame; [exact Hg|simpl; by rewrite app_nil_r|done|by rewrite Eq|].
    intros He. destruct (H3 He) as (A & _ & _). by split_and!.
  - apply bind_inv in Hr as ([] & w1 & Hr & [= <- <- <- <-]). apply writeRequestStage_Ok in Hr as (er & ->).
    split; simpl.
    + apply Forall_app. split; [exact H1|]. constructor; [|constructor]. by apply H2.
    + exact H2.
    + intros He. destruct (H3 He) as (A & _ & _). by split_and!.
  - apply bind_inv in Hr as ([] & w1 & Hr & [= <- <- <- <-]). apply nextHandlersStage_Ok in Hr as ->.
    eapply gated_frame; [exact Hg|simpl; by rewrite app_nil_r|done|done|].
    intros He. destruct (H3 He) as (A & _ & _). split; [|by split]. simpl.
    intros [?|Hin%list_elem_of_singleton]%elem_of_app; [done|].
    destruct (H2 r0 eq_refl) as [_ Hs]. destruct (Hs He) as [Hk _].
    unfold next_request_handler in Hin. apply Z.eqb_neq in Hk. by rewrite Hk in Hin.
  - apply bind_inv in Hr as ([] & w1 & Hr & [= <- <- <- <-]). apply returning_Ok, putNextHandlers_Ok in Hr as ->.
    eapply gated_frame; [exact Hg|simpl; by rewrite app_nil_r|done|done|].
    intros He. by destruct (H3 He) as (_ & _ & C).
Qed.

Lemma gated_request_stop s m w r o :
  request_stage (rq s) = Some m -> m (sw s) = (r, w) -> gated s ->
  gated (request_step s w (ReqStopped o) [] []).
Proof.
  intros Hm Hr Hg. pose proof Hg as [H1 H2 H3].
  assert (request_frame (sw s) w \/ exists r0, pc_request (rq s) = Some r0 /\
    localSaslDone w = localSaslDone (sw s) /\ (nextRequestHandlerChannel w = nextRequestHandlerChannel (sw s) \/
    nextRequestHandlerChannel w = nextRequestHandlerChannel (sw s) ++ [next_request_handler r0])) as Hf.
  { assert (forall A (n : M (world X) A) (f : A -> request_pc * list reply * list (RequestKeyVersion * bool)),
      frames n -> (let* a := n in ret (f a)) (sw s) = (r, w) -> request_frame (sw s) w) as Hk.
    { intros A n f Hn E. pose proof (frames_bind n (fun a => ret (f a)) Hn ltac:(by intros; apply frames_ctl)
        (sw s)) as H. by rewrite E in H. }
    destruct (rq s) as [|[]|r0 pl mr|r0 pl mr|r0 mr| |o'] eqn:Eq; simpl in Hm; simplify_eq.
    - left. unfold getNextRequestHandler, bind in Hr.
      destruct (nextRequestHandlerChannel (sw s)) eqn:En; unfold ret in *; simplify_eq/=; split; simpl; auto.
      rewrite En. intros h Hh. left. by constructor.
    - left. eapply Hk, Hr. apply frames_readRequestStage.
    - left. eapply Hk, Hr. apply frames_ctl, keeps_copySaslAuthRequest.
    - left. unfold registerStage, returning, sendRequestKeyVersion, bind in Hr.
      repeat case_match; unfold ret in *; simplify_eq/=; split; simpl; auto.
    - left. eapply Hk, Hr. apply frames_ctl, keeps_writeRequestStage.
    - right. exists r0. split; [done|].
      unfold nextHandlersStage, next_request_handler, returning, putNextHandlers, putNextRequestHandler,
        putNextResponseHandler, bind in *.
      destruct (_ && _); repeat case_match; unfold ret in *; simplify_eq/=; auto.
    - left. unfold returning, putNextHandlers, putNextRequestHandler, putNextResponseHandler, bind in Hr.
      repeat case_match; unfold ret in *; simplify_eq/=; split; simpl; auto;
        intros h [?| ->%list_elem_of_singleton]%elem_of_app; auto. }
  eapply gated_frame; [exact Hg|simpl; by rewrite app_nil_r| |by intros ? [=]|].
  - destruct Hf as [[Hd _]|(r0 & _ & Hd & _)]; simpl; [done|by rewrite Hd].
  - intros He. destruct (H3 He) as (A & _ & _). split; [|by split]. simpl.
    destruct Hf as [[_ Hn]|(r0 & Hpc & _ & [-> | ->])].
    + intros Hin. by destruct (Hn _ Hin).
    + done.
    + intros [?|Hin%list_elem_of_singleton]%elem_of_app; [done|].
      destruct (H2 r0 Hpc) as [_ Hs]. destruct (Hs He) as [Hk _].
      unfold next_request_handler in Hin. apply Z.eqb_neq in Hk. by rewrite Hk in Hin.
Qed.

Lemma gated_step s s' : step s s' -> gated s -> gated s'.
Proof.
  intros [s0 m w pc e l Hm Hr|s0 m w r o Hm Hr Ho|s0 m w pc a t Hm Hr|s0 m w r o Hm Hr Ho|s0 Hc|s0 x] Hg.
  - by eapply gated_request_step.
  - by eapply gated_request_stop.
  - destruct (response_stage_ctl _ _ _ _ Hm Hr) as (Hn & Hd & _).
    eapply gated_frame; [exact Hg|done|simpl; by rewrite Hd|done|]. simpl. rewrite Hn. by destruct Hg.
  - destruct (response_stage_ctl _ _ _ _ Hm Hr) as (Hn & Hd & _).
    eapply gated_frame; [exact Hg|done|simpl; by rewrite Hd|done|]. simpl. rewrite Hn. by destruct Hg.
  - eapply gated_frame; [exact Hg|simpl; by rewrite app_nil_r|done|done|]. by destruct Hg.
  - eapply gated_frame; [exact Hg|simpl; by rewrite app_nil_r|done|done|]. by destruct Hg.
Qed.

Lemma start_gated c b x : gated (start c b x).
Proof.
  split; simpl; [constructor|by intros r [=]|].
  intros _. split; [|done]. by intros [=]%list_elem_of_singleton.
Qed.

Lemma reachable_gated c b x s : reachable (start c b x) s -> gated s.
Proof. induction 1; [apply start_gated | by eapply gated_step]. Qed.

(** ** The order of registrations *)

(** The requests sent that have a reply. *)
Definition replied (s : sys) : list RequestKeyVersion :=
  omap (fun e : RequestKeyVersion * bool => if snd e then Some (fst e) else None) (sent s).

(** Requests are registered in the order they are sent; at most the last
    registered one is not sent. *)
Definition ordered (s : sys) : Prop := exists l,
  omap request_of (expected s) = replied s ++ l /\
  match rq s with
  | ReqWrite r _ true => l = [r]
  | ReqStopped _ => (length l <= 1)%nat
  | _ => l = []
  end.

Lemma ordered_request s m w pc e l :
  request_stage (rq s) = Some m -> m (sw s) = (Ok (pc, e, l), w) -> ordered s ->
  ordered (request_step s w pc e l).
Proof.
  intros Hm Hr (k & H & Hk). unfold ordered, replied. simpl. rewrite !omap_app, H. unfold replied.
  destruct (rq s) as [|[]|r0 pl [] |r0 pl [] |r0 mr| |o'] eqn:Eq; simpl in Hm; simplify_eq;
    apply bind_inv in Hr as (o & w1 & Hr & Hr'); unfold ret in Hr'; simplify_eq; simpl.
  all: try (exists []; rewrite ?app_nil_r; split; done).
  - exists []. rewrite !app_nil_r. split; [done|]. by destruct o.
  - exists [r0]. by rewrite !app_nil_r.
  - exists []. split; [|done]. destruct (handshakeV0 r0); simpl; by rewrite !app_nil_r.
Qed.

Lemma ordered_stop s w o :
  ordered s -> ordered (request_step s w (ReqStopped o) [] []).
Proof.
  intros (k & H & Hk). exists k. unfold replied. simpl. rewrite !app_nil_r. split; [exact H|].
  destruct (rq s) as [| |? ? ?|? ? []|? ?| |]; subst; simpl; lia.
Qed.

Lemma ordered_frame s s' :
  ordered s -> rq s' = rq s -> expected s' = expected s -> sent s' = sent s -> ordered s'.
Proof. unfold ordered, replied. by intros H -> -> ->. Qed.

Lemma ordered_step s s' : step s s' -> ordered s -> ordered s'.
Proof.
  intros [s0 m w pc e l Hm Hr|s0 m w r o Hm Hr Ho|s0 m w pc a t Hm Hr|s0 m w r o Hm Hr Ho|s0 Hc|s0 x] Hp.
  - by eapply ordered_request.
  - by apply ordered_stop.
  - by eapply ordered_frame.
  - by eapply ordered_frame.
  - eapply ordered_frame; [exact Hp|done|apply app_nil_r|apply app_nil_r].
  - eapply ordered_frame; [exact Hp|done|apply app_nil_r|apply app_nil_r].
Qed.

Lemma reachable_ordered c b x s : reachable (start c b x) s -> ordered s.
Proof. induction 1; [by exists [] | by eapply ordered_step]. Qed.

(** ** Running a schedule *)

(** One stage of the request loop ([true]) or of the response loop. *)
Definition tick (turn : bool) (s : sys) : sys :=
  if turn then
    match request_stage (rq s) with
    | Some m =>
        match m (sw s) with
        | (Ok (pc, e, l), w) => request_step s w pc e l
        | (Err e, w) => request_step s w (ReqStopped (Err e)) [] []
        | (Panic y, w) => request_step s w (ReqStopped (Panic y)) [] []
        end
    | None => s
    end
  else
    match response_stage (rs s) with
    | Some m =>
        match m (sw s) with
        | (Ok (pc, a, t), w) => response_step s w pc a t
        | (Err e, w) => response_step s w (RespStopped (Err e)) [] []
        | (Panic y, w) => response_step s w (RespStopped (Panic y)) [] []
        end
    | None => s
    end.

Definition run (schedule : list bool) (s : sys) : sys := foldl (fun s t => tick t s) s schedule.

Lemma tick_step t s : tick t s = s \/ step s (tick t s).
Proof.
  unfold tick. destruct t.
  - destruct (request_stage (rq s)) as [m|] eqn:Em; [right|by left].
    destruct (m (sw s)) as [[[[pc e] l]|e|y] w] eqn:Er.
    + by eapply step_request.
    + by eapply step_request_stop.
    + by eapply step_request_stop.
  - destruct (response_stage (rs s)) as [m|] eqn:Em; [right|by left].
    destruct (m (sw s)) as [[[[pc e] l]|e|y] w] eqn:Er.
    + by eapply step_response.
    + by eapply step_response_stop.
    + by eapply step_response_stop.
Qed.

Lemma run_reachable s0 schedule s : reachable s0 s -> reachable s0 (run schedule s).
Proof.
  revert s. induction schedule as [|t schedule IH]; intros s H; [done|]. simpl. apply IH.
  destruct (tick_step t s) as [-> | Hs]; [done|]. by eapply reachable_step.
Qed.

(** ** A handler run alone *)

(** The program counter after an outcome of a handler. *)
Definition request_done (r : res unit) : request_pc :=
  match stopped r with None => ReqIdle | Some o => ReqStopped o end.
Definition response_done (r : res unit) : response_pc :=
  match stopped r with None => RespIdle | Some o => RespStopped o end.

(** What a tick does when the stage is a method followed by a return. *)
Lemma tick_request {A} (m : M (world X) A) f s :
  request_stage (rq s) = Some (let* a := m in ret (f a)) ->
  sw (tick true s) = snd (m (sw s)) /\
  rq (tick true s) = match fst (m (sw s)) with
                     | Ok a => fst (fst (f a))
                     | Err e => ReqStopped (Err e)
                     | Panic y => ReqStopped (Panic y)
                     end /\
  rs (tick true s) = rs s.
Proof.
  intros H. unfold tick. rewrite H. unfold bind, ret. destruct (m (sw s)) as [[a|e|y] w]; try done.
  simpl. by destruct (f a) as [[pc e] l].
Qed.

Lemma tick_response {A} (m : M (world X) A) f s :
  response_stage (rs s) = Some (let* a := m in ret (f a)) ->
  sw (tick false s) = snd (m (sw s)) /\
  rs (tick false s) = match fst (m (sw s)) with
                      | Ok a => fst (fst (f a))
                      | Err e => RespStopped (Err e)
                      | Panic y => RespStopped (Panic y)
                      end /\
  rq (tick false s) = rq s.
Proof.
  intros H. unfold tick. rewrite H. unfold bind, ret. destruct (m (sw s)) as [[a|e|y] w]; try done.
  simpl. by destruct (f a) as [[pc e] l].
Qed.

Lemma run_S t n s : run (replicate (S n) t) s = run (replicate n t) (tick t s).
Proof. done. Qed.

(** From here on [s'] is where [n] more ticks of a loop end. *)
Definition request_ends (s : sys) (out : res unit * world X) : Prop :=
  exists n, sw (run (replicate n true) s) = snd out /\
            rq (run (replicate n true) s) = request_done (fst out).
Definition response_ends (s : sys) (out : res unit * world X) : Prop :=
  exists n, sw (run (replicate n false) s) = snd out /\
            rs (run (replicate n false) s) = response_done (fst out).

Lemma request_ends_tick s out : request_ends (tick true s) out -> request_ends s out.
Proof. intros (n & H). exists (S n). by rewrite run_S. Qed.
Lemma response_ends_tick s out : response_ends (tick false s) out -> response_ends s out.
Proof. intros (n & H). exists (S n). by rewrite run_S. Qed.

(** A stage, then what follows it in the handler. *)
Lemma request_ends_stage {A} (m : M (world X) A) f k s :
  request_stage (rq s) = Some (let* a := m in ret (f a)) ->
  (forall a s', rq s' = fst (fst (f a)) -> request_ends s' (k a (sw s'))) ->
  request_ends s ((let* a := m in k a) (sw s)).
Proof.
  intros H Hk. apply request_ends_tick. destruct (tick_request m f s H) as (Hw & Hq & _).
  unfold bind. destruct (m (sw s)) as [[a|e|y] w]; simpl in Hw, Hq.
  - rewrite <- Hw. by apply Hk.
  - by exists O.
  - by exists O.
Qed.

Lemma response_ends_stage {A} (m : M (world X) A) f k s :
  response_stage (rs s) = Some (let* a := m in ret (f a)) ->
  (forall a s', rs s' = fst (fst (f a)) -> response_ends s' (k a (sw s'))) ->
  response_ends s ((let* a := m in k a) (sw s)).
Proof.
  intros H Hk. apply response_ends_tick. destruct (tick_response m f s H) as (Hw & Hq & _).
  unfold bind. destruct (m (sw s)) as [[a|e|y] w]; simpl in Hw, Hq.
  - rewrite <- Hw. by apply Hk.
  - by exists O.
  - by exists O.
Qed.

(** The last stage of a handler. *)
Lemma request_ends_last (m : M (world X) unit) f s :
  request_stage (rq s) = Some (let* a := m in ret (f a)) -> fst (fst (f tt)) = ReqIdle ->
  request_ends s (m (sw s)).
Proof.
  intros H Hf. apply request_ends_tick. exists O. destruct (tick_request m f s H) as (Hw & Hq & _).
  simpl. destruct (m (sw s)) as [[[]|e|y] w]; simpl in *; by rewrite Hq, ?Hf.
Qed.

Lemma response_ends_last (m : M (world X) unit) f s :
  response_stage (rs s) = Some (let* a := m in ret (f a)) -> fst (fst (f tt)) = RespIdle ->
  response_ends s (m (sw s)).
Proof.
  intros H Hf. apply response_ends_tick. exists O. destruct (tick_response m f s H) as (Hw & Hq & _).
  simpl. destruct (m (sw s)) as [[[]|e|y] w]; simpl in *; by rewrite Hq, ?Hf.
Qed.

Lemma request_handler_ends h s :
  rq s = ReqTaken h ->
  request_ends s (runRequestHandler Error_text p h (sw s)).
Proof.
  intros Hq. destruct h; simpl; unfold handleRequest, handleSaslAuthV0Request.
  - eapply request_ends_stage; [by rewrite Hq|]. intros o s1 Hq1. destruct o as [|r payload mr].
    + exists O. simpl. by rewrite Hq1.
    + eapply request_ends_stage; [by rewrite Hq1|]. intros [] s2 Hq2.
      eapply request_ends_stage; [by rewrite Hq2|]. intros [] s3 Hq3.
      eapply request_ends_last; [by rewrite Hq3|done].
  - eapply request_ends_stage; [by rewrite Hq|]. intros [] s1 Hq1.
    eapply request_ends_last; [by rewrite Hq1|done].
Qed.

Lemma response_handler_ends h s :
  rs s = RespTaken h -> response_ends s (runResponseHandler p h (sw s)).
Proof.
  intros Hq. destruct h; simpl; unfold handleResponse.
  - eapply response_ends_stage; [by rewrite Hq|]. intros [hdr rh] s1 Hq1.
    eapply response_ends_stage; [by rewrite Hq1|]. intros r s2 Hq2.
    eapply response_ends_last; [by rewrite Hq2|done].
  - eapply response_ends_last; [by rewrite Hq|done].
Qed.

(** ** After the connections are closed *)

Definition both_closed (w : world X) : Prop :=
  deadline_err (client w) = Some ErrClosed /\ deadline_err (broker w) = Some ErrClosed.

(** [m] changes neither connection. *)
Definition same_conns (w w' : world X) : Prop := client w' = client w /\ broker w' = broker w.

(** Every stage that uses a connection sets its deadline first. *)
Lemma closed_client_fails {A} b (k : unit -> M (world X) A) w :
  both_closed w -> (let* x := returning b (on_client SetDeadline) in k x) w = (Err ErrClosed, set_readErr b w).
Proof. intros [H _]. unfold bind, returning, on_client, SetDeadline. rewrite H. by destruct w. Qed.
Lemma closed_broker_fails {A} b (k : unit -> M (world X) A) w :
  both_closed w -> (let* x := returning b (on_broker SetDeadline) in k x) w = (Err ErrClosed, set_readErr b w).
Proof. intros [_ H]. unfold bind, returning, on_broker, SetDeadline. rewrite H. by destruct w. Qed.

(** How many more of its stages a loop runs then, at most. *)
Definition request_rank (pc : request_pc) : nat :=
  match pc with
  | ReqStopped _ => 0
  | ReqTaken _ | ReqWrite _ _ _ => 1
  | ReqIdle | ReqRegister _ _ _ => 2
  | ReqPut _ _ | ReqRawPut => 3
  end.
Definition response_rank (pc : response_pc) : nat :=
  match pc with
  | RespStopped _ => 0
  | RespTaken _ | RespForward _ _ _ => 1
  | RespIdle | RespHeader _ _ => 2
  end.

Lemma channels_same_conns {A} (m : M (world X) A) w :
  (exists o q l, snd (m w) = set_channels o q l w) \/ snd (m w) = w \/
  (exists b, snd (m w) = set_readErr b w) -> same_conns w (snd (m w)).
Proof. by intros [(? & ? & ? & ->)|[-> |(? & ->)]]. Qed.

Lemma same_put h w : same_conns w (snd (putNextRequestHandler p h w)).
Proof. unfold putNextRequestHandler. by destruct (_ <? _). Qed.
Lemma same_returning {A} b (m : M (world X) A) w :
  same_conns w (snd (m w)) -> same_conns w (snd (returning b m w)).
Proof. unfold returning. by destruct (m w) as [[]]. Qed.
Lemma same_putNextHandlers h g w : same_conns w (snd (putNextHandlers p h g w)).
Proof.
  unfold putNextHandlers, putNextRequestHandler, putNextResponseHandler, bind.
  destruct (_ <? _); [|done]. simpl. by destruct (_ <? _).
Qed.

Lemma tick_request_closed s :
  both_closed (sw s) ->
  same_conns (sw s) (sw (tick true s)) /\ rs (tick true s) = rs s /\
  (request_rank (rq (tick true s)) <= request_rank (rq s) - 1)%nat.
Proof.
  intros Hc.
  assert (forall A (m : M (world X) A) f pc, rq s = pc ->
    request_stage pc = Some (let* a := m in ret (f a)) -> same_conns (sw s) (snd (m (sw s))) ->
    (forall a, fst (m (sw s)) = Ok a -> (request_rank (fst (fst (f a))) <= request_rank pc - 1)%nat) ->
    same_conns (sw s) (sw (tick true s)) /\ rs (tick true s) = rs s /\
    (request_rank (rq (tick true s)) <= request_rank pc - 1)%nat) as H.
  { intros A m f pc <- Hm Hs Hr. destruct (tick_request m f s Hm) as (-> & -> & ->). split; [done|]. split; [done|].
    destruct (fst (m (sw s))) as [a|e|y] eqn:E; [by apply Hr|simpl; lia..]. }
  destruct (rq s) as [|[]|r pl mr|r pl mr|r mr| |o] eqn:Eq; try (eapply H; [done|done| |]; clear H).
  - unfold getNextRequestHandler. by destruct (nextRequestHandlerChannel (sw s)).
  - simpl. lia.
  - unfold readRequestStage. by rewrite closed_client_fails.
  - unfold readRequestStage. by rewrite closed_client_fails.
  - unfold copySaslAuthRequest. by rewrite closed_broker_fails.
  - unfold copySaslAuthRequest. by rewrite closed_broker_fails.
  - unfold registerStage. destruct mr; [|done]. apply same_returning. unfold sendRequestKeyVersion.
    by destruct (_ <? _).
  - simpl. lia.
  - unfold writeRequestStage. by rewrite closed_broker_fails.
  - unfold writeRequestStage. by rewrite closed_broker_fails.
  - unfold nextHandlersStage. destruct (_ && _); [|destruct mr]; apply same_returning;
      first [apply same_putNextHandlers | apply same_put].
  - simpl. lia.
  - apply same_returning, same_putNextHandlers.
  - simpl. lia.
  - unfold tick. rewrite Eq. simpl. rewrite Eq. simpl. by split_and!.
Qed.

Lemma tick_response_closed s :
  both_closed (sw s) ->
  same_conns (sw s) (sw (tick false s)) /\ rq (tick false s) = rq s /\
  (response_rank (rs (tick false s)) <= response_rank (rs s) - 1)%nat.
Proof.
  intros Hc.
  assert (forall A (m : M (world X) A) f pc, rs s = pc ->
    response_stage pc = Some (let* a := m in ret (f a)) -> same_conns (sw s) (snd (m (sw s))) ->
    (forall a, fst (m (sw s)) = Ok a -> (response_rank (fst (fst (f a))) <= response_rank pc - 1)%nat) ->
    same_conns (sw s) (sw (tick false s)) /\ rq (tick false s) = rq s /\
    (response_rank (rs (tick false s)) <= response_rank pc - 1)%nat) as H.
  { intros A m f pc <- Hm Hs Hr. destruct (tick_response m f s Hm) as (-> & -> & ->). split; [done|]. split; [done|].
    destruct (fst (m (sw s))) as [a|e|y] eqn:E; [by apply Hr|simpl; lia..]. }
  destruct (rs s) as [|[]|hdr rh|hdr rh r|o] eqn:Eq; try (eapply H; [done|done| |]; clear H).
  - unfold getNextResponseHandler. by destruct (nextResponseHandlerChannel (sw s)).
  - simpl. lia.
  - unfold readResponseHeaderStage. by rewrite closed_broker_fails.
  - unfold readResponseHeaderStage. by rewrite closed_broker_fails.
  - unfold copySaslAuthResponse. by rewrite closed_client_fails.
  - unfold copySaslAuthResponse. by rewrite closed_client_fails.
  - apply same_returning. unfold receiveRequestKeyVersion. by destruct (openRequestsChannel (sw s)).
  - simpl. lia.
  - unfold forwardResponseStage. by rewrite closed_client_fails.
  - unfold forwardResponseStage. by rewrite closed_client_fails.
  - unfold tick. rewrite Eq. simpl. rewrite Eq. simpl. by split_and!.
Qed.

Definition turns (t : bool) (schedule : list bool) : nat := count_occ bool_eq_dec schedule t.

Lemma run_closed schedule s :
  both_closed (sw s) ->
  same_conns (sw s) (sw (run schedule s)) /\
  (request_rank (rq (run schedule s)) <= request_rank (rq s) - turns true schedule)%nat /\
  (response_rank (rs (run schedule s)) <= response_rank (rs s) - turns false schedule)%nat.
Proof.
  revert s. induction schedule as [|t schedule IH]; intros s Hc; [simpl; split; [done|lia]|].
  change (run (t :: schedule) s) with (run schedule (tick t s)).
  assert (both_closed (sw (tick t s)) /\ same_conns (sw s) (sw (tick t s))) as [Hc' Hs].
  { destruct t; [destruct (tick_request_closed s Hc) as (Hs & _)|destruct (tick_response_closed s Hc) as (Hs & _)];
      (split; [|exact Hs]); unfold both_closed; by destruct Hs as [-> ->]. }
  destruct (IH _ Hc') as ([A B] & H1 & H2). destruct Hs as [A' B'].
  split; [by split; congruence|]. unfold turns in *.
  destruct t; [destruct (tick_request_closed s Hc) as (_ & E & H)|destruct (tick_response_closed s Hc) as (_ & E & H)];
    rewrite E in *; cbn [count_occ]; repeat (destruct (bool_eq_dec _ _); try congruence); lia.
Qed.

End loops.
Arguments sys : clear implicits.
