(* ===== verification/LoopTheorems.v ===== *)
(** The properties of the two loops of a connection under every interleaving
    of their stages, and of the raw SASL exchange they leave the framing for. *)
From Stdlib Require Import ZArith Lia Strings.Byte.
From stdpp Require Import base list strings gmap.
From S2P Require Import Prelude GoLib GoStrings OAuthBearer Encoder Decoder Errors Schema SchemaFacts Messages Net Filters SaslLocal Responses ResponsesFacts ResponseTheorems Auth SaslFacts SaslTheorems Processor ProcessorFacts ProcessorTheorems Loops.

(** ** Inputs the witnesses are evaluated on *)

Definition example_start : sys (list (bytes * Z)) :=
  start (peer example_requests) (peer example_replies) [].

(** Two requests are pipelined before the first reply is read. *)
Definition example_schedule : list bool :=
  [true; true; true; false; true; true; true; true; false; true; true; true; false; false;
   false; false; false; false].
Definition example_end : sys (list (bytes * Z)) :=
  run example_text example_processor example_schedule example_start.

Lemma example_end_reachable :
  reachable example_text example_processor example_start example_end.
Proof. apply run_reachable, reachable_refl. Qed.

(** ** Pairing *)

(** C1: under every interleaving of the two loops, also with failures, closed
    connections and other connections changing the plugins' state: replies are
    treated in the order the proxy committed to them (a raw token reply exactly
    where the SaslHandshake of version 0 put it), with the handler of their
    kind; and requests were committed to in the order in which they were sent,
    before they were sent, at most one of them not sent. *)
Theorem replies_are_paired {X} (Error_text : error -> bytes) (p : processor X) (c b : conn) (x : X) (s : sys X) :
  reachable Error_text p (start c b x) s ->
  answered s `prefix_of` expected s /\
  taken s `prefix_of` (kind <$> expected s) ++ [defaultResponseHandler] /\
  exists l, omap request_of (expected s) = replied s ++ l /\ (length l <= 1)%nat.
Proof.
  intros Hr. pose proof (reachable_paired _ _ _ _ _ _ Hr) as [(tail & Ha & H1) _ _ H4].
  apply reachable_ordered in Hr as (l & H5 & H6). split; [done|]. split.
  - apply ahead_tail in Ha as [-> | ->].
    + rewrite app_nil_r in H1. rewrite <- H1. by do 2 apply prefix_app_r.
    + rewrite <- H1. by apply prefix_app_r.
  - exists l. split; [done|].
    destruct (rq s) as [| |? ? ?|? ? []|? ?| |]; subst; simpl; lia.
Qed.

Lemma replies_are_paired_witness :
  answered example_end `prefix_of` expected example_end /\
  taken example_end `prefix_of` (kind <$> expected example_end) ++ [defaultResponseHandler] /\
  exists l, omap request_of (expected example_end) = replied example_end ++ l /\ (length l <= 1)%nat.
Proof.
  apply (replies_are_paired example_text example_processor
           (peer example_requests) (peer example_replies) []).
  apply example_end_reachable.
Defined.

Example example_end_answered :
  answered example_end = [KafkaReply example_rkv; KafkaReply example_rkv2] /\
  tx (client (sw example_end)) =
    response_frame_bytes 7 [] example_rewritten ++ response_frame_bytes 8 [] example_reply2.
Proof. vm_compute. done. Qed.

(** ** Admission *)

(** C8: under every interleaving, each request that was sent to the broker has a
    valid key that is not forbidden; with local SASL no SaslHandshake is among
    them, and before the client was authenticated only ApiVersions requests
    are; the raw token exchange with the broker is never entered. *)
Theorem only_admitted_requests_are_sent {X} (Error_text : error -> bytes) (p : processor X) (c b : conn) (x : X) (s : sys X) :
  reachable Error_text p (start c b x) s ->
  Forall (fun e => admitted p (fst e) /\ sasl_admitted p (localSaslDone (sw s)) (fst e)) (sent s) /\
  (enabled (localSasl p) = true -> rq s <> ReqTaken saslAuthV0RequestHandler /\ rq s <> ReqRawPut).
Proof. intros [H1 H2 H3]%reachable_gated. split; [done|]. intros He. by destruct (H3 He) as (_ & ? & ?). Qed.

Lemma only_admitted_requests_are_sent_witness :
  Forall (fun e => admitted example_processor (fst e) /\
                   sasl_admitted example_processor (localSaslDone (sw example_end)) (fst e))
    (sent example_end) /\
  (enabled (localSasl example_processor) = true ->
   rq example_end <> ReqTaken saslAuthV0RequestHandler /\ rq example_end <> ReqRawPut).
Proof.
  apply (only_admitted_requests_are_sent example_text example_processor
           (peer example_requests) (peer example_replies) []).
  apply example_end_reachable.
Defined.

(** With the channel capacities of [newProcessor], the single slot for the
    next request handler never lets the request loop down: whenever the loop
    is between requests a handler is queued (so the loop never ends for want
    of one), and whenever it is in a request the slot is free (so queueing the
    next handler never fails).*)
Theorem request_handler_slot_suffices {X} (Error_text : error -> bytes) (cfg : ProcessorConfig X) (c b : conn) (x : X)
    (s : sys X) :
  reachable Error_text (newProcessor cfg) (start c b x) s ->
  match rq s with
  | ReqStopped _ => True
  | ReqIdle => exists h w, getNextRequestHandler (sw s) = (Ok h, w)
  | _ => forall h, exists w, putNextRequestHandler (newProcessor cfg) h (sw s) = (Ok tt, w)
  end.
Proof.
  intros [(tail & Ha & _) _ _ _]%reachable_paired. unfold ahead in Ha.
  unfold getNextRequestHandler, putNextRequestHandler.
  destruct (rq s); [|destruct Ha as (-> & _); cbn; by eauto ..|done].
  destruct Ha as [[-> _]|[-> _]]; eauto.
Qed.

Lemma request_handler_slot_suffices_witness :
  exists h w, getNextRequestHandler (sw example_start) = (Ok h, w).
Proof.
  apply (request_handler_slot_suffices example_text example_config
           (peer example_requests) (peer example_replies) [] example_start).
  apply reachable_refl.
Defined.

(** C16: while the gateway server is enabled, a connection on which any byte
    reached the broker has gone through the gateway handshake: the client sent
    the server's magic and method and a token its token plugin verified. *)
Theorem gateway_guards_the_broker {X} (Error_text : error -> bytes) (p : processor X) (n : nat) (w : world X) :
  as_enabled (authServer p) = true ->
  tx (broker (snd (RequestsLoop Error_text p n w))) <> tx (broker w) ->
  exists token st rest x',
    rx (client w) = be_put 8 (as_magic (authServer p)) ++
      be_put 4 (len (as_method (authServer p)) + 1 + len token) ++
      as_method (authServer p) ++ x00 :: token ++ rest /\
    as_tokenInfo (authServer p) token (ext w) = (Ok (true, st), x').
Proof.
  intros He H. unfold RequestsLoop in H. rewrite He in H. unfold bind at 1, returning at 1, on_client_ext in H.
  destruct (receiveAndSendGatewayAuth (authServer p) (client w, ext w)) as [[[]|e|y] [c1 x1]] eqn:E;
    [|done..].
  apply receiveAndSendGatewayAuth_Ok in E as (token & st & rest & x' & H1 & H2 & _).
  by exists token, st, rest, x'.
Qed.

Definition guarded_processor : processor nat :=
  newProcessor
    {| MaxOpenRequests := 1; cfg_NetAddressMappingFunc := None;
       cfg_RequestBufferSize := 0; cfg_ResponseBufferSize := 0;
       cfg_LocalSasl := NewLocalSasl false None None; cfg_AuthServer := example_server;
       cfg_ForbiddenApiKeys := []; cfg_ProducerAcks0Disabled := false; cfg_FilterChain := None |}.

Lemma gateway_guards_the_broker_witness :
  exists token st rest x',
    handshake_bytes 123 ($"google-id") ($"token") ++ example_requests =
      be_put 8 123 ++ be_put 4 (len ($"google-id") + 1 + len token) ++ $"google-id" ++ x00 :: token ++ rest /\
    as_tokenInfo example_server token O = (Ok (true, st), x').
Proof.
  apply (gateway_guards_the_broker example_text guarded_processor 1
           (initial (peer (handshake_bytes 123 ($"google-id") ($"token") ++ example_requests)) (peer []) O)).
  - reflexivity.
  - vm_compute. discriminate.
Defined.

(** ** Progress *)

(** The request loop of a new connection, fed a pipeline of well-formed
    requests that are allowed, forwards all of them unchanged and in order, as
    long as no more of them are open than [newProcessor] allows (16 at least);
    each is registered once.*)
Theorem requestsLoop_forwards_pipeline {X} (Error_text : error -> bytes) (cfg : ProcessorConfig X)
    (l : list (RequestKeyVersion * bytes)) (rest : bytes) (c b : conn) (x : X) :
  cfg_FilterChain cfg = None -> enabled (cfg_LocalSasl cfg) = false ->
  Forall (plain_request (newProcessor cfg)) l -> len l <= Z.max 16 (MaxOpenRequests cfg) ->
  healthy (initial c b x) -> rx c = frames_of l ++ rest ->
  exists w',
    requestsLoop Error_text (newProcessor cfg) (length l) (initial c b x) = (Ok tt, w') /\
    tx (broker w') = tx b ++ frames_of l /\ rx (client w') = rest /\ tx (client w') = tx c /\
    openRequestsChannel w' = fst <$> l.
Proof.
  intros Hf Hs Hl Hn Hh Hrx.
  assert (openRequestsCap (newProcessor cfg) = Z.max 16 (MaxOpenRequests cfg)) as Hcap.
  { unfold newProcessor, minOpenRequests. cbn [openRequestsCap].
    destruct (Z.ltb_spec (MaxOpenRequests cfg) 16); lia. }
  destruct (requestsLoop_run Error_text (newProcessor cfg) l rest (initial c b x))
    as (w' & H1 & H2 & H3 & H4 & H5 & _).
  - exact Hf.
  - reflexivity.
  - reflexivity.
  - cbn. by rewrite Hs.
  - exact Hl.
  - exact Hh.
  - exact Hrx.
  - reflexivity.
  - rewrite Hcap. cbn [initial openRequestsChannel]. len_lia.
  - reflexivity.
  - exists w'. by split_and!.
Qed.

Definition example_pipeline : list (RequestKeyVersion * bytes) :=
  [(example_rkv, example_request_body); (example_rkv2, example_request_body2)].

Lemma requestsLoop_forwards_pipeline_witness :
  exists w',
    requestsLoop example_text (newProcessor example_config) (length example_pipeline)
      (initial (peer (frames_of example_pipeline ++ $"more")) (peer []) []) = (Ok tt, w') /\
    tx (broker w') = [] ++ frames_of example_pipeline /\ rx (client w') = $"more" /\ tx (client w') = [] /\
    openRequestsChannel w' = fst <$> example_pipeline.
Proof.
  apply (requestsLoop_forwards_pipeline example_text example_config example_pipeline
           ($"more") (peer (frames_of example_pipeline ++ $"more")) (peer []) []).
  - reflexivity.
  - reflexivity.
  - repeat constructor; try solve [discriminate | reflexivity]; try bounds;
      try (apply (bool_decide_eq_true_1 _); reflexivity); left; discriminate.
  - bounds.
  - by split.
  - reflexivity.
Defined.

(** Each handler is its stages: a loop that has taken a handler and is not
    interleaved with the other reaches, after some stages, exactly the world
    the handler ends in, and is ready for the next one if it succeeded or
    stopped with its error or panic.*)
Theorem stages_refine_handlers {X} (Error_text : error -> bytes) (p : processor X) (s : sys X) :
  (forall h, rq s = ReqTaken h -> exists n,
     let s' := run Error_text p (replicate n true) s in
     let out := runRequestHandler Error_text p h (sw s) in
     sw s' = snd out /\ rq s' = request_done (fst out)) /\
  (forall h, rs s = RespTaken h -> exists n,
     let s' := run Error_text p (replicate n false) s in
     let out := runResponseHandler p h (sw s) in
     sw s' = snd out /\ rs s' = response_done (fst out)).
Proof. split; intros h H; [by apply request_handler_ends | by apply response_handler_ends]. Qed.

Definition example_taken : sys (list (bytes * Z)) :=
  run example_text example_processor [true] example_start.

Lemma stages_refine_handlers_witness :
  exists n,
    let s' := run example_text example_processor (replicate n true) example_taken in
    let out := runRequestHandler example_text example_processor defaultRequestHandler
                 (sw example_taken) in
    sw s' = snd out /\ rq s' = request_done (fst out).
Proof.
  apply (proj1 (stages_refine_handlers example_text example_processor example_taken)
           defaultRequestHandler).
  reflexivity.
Defined.

(** C37: once both connections are closed (as the first loop to stop does), the
    two loops stop: three turns of the request loop and two of the response
    loop, in any order, are enough from any state, and neither connection gets
    another byte meanwhile. *)
Theorem closed_loops_stop {X} (Error_text : error -> bytes) (p : processor X) (s : sys X) (schedule : list bool) :
  both_closed (sw s) -> (3 <= turns true schedule)%nat -> (2 <= turns false schedule)%nat ->
  let s' := run Error_text p schedule s in
  (exists o, rq s' = ReqStopped o) /\ (exists o, rs s' = RespStopped o) /\
  client (sw s') = client (sw s) /\ broker (sw s') = broker (sw s).
Proof.
  intros Hc H3 H2 s'.
  destruct (run_closed Error_text p schedule s Hc) as ([A B] & C & D).
  fold s' in A, B, C, D.
  assert (request_rank (rq s') = O) as E1
    by (assert (request_rank (rq s) <= 3)%nat by (destruct (rq s); simpl; lia); lia).
  assert (response_rank (rs s') = O) as E2
    by (assert (response_rank (rs s) <= 2)%nat by (destruct (rs s); simpl; lia); lia).
  split_and!; [| |done|done].
  - destruct (rq s'); try discriminate. by eexists.
  - destruct (rs s'); try discriminate. by eexists.
Qed.

Definition example_closed : sys (list (bytes * Z)) :=
  request_step example_end (set_client (closed (client (sw example_end)))
    (set_broker (closed (broker (sw example_end))) (sw example_end))) (rq example_end) [] [].

Lemma closed_loops_stop_witness :
  let s' := run example_text example_processor [true; true; true; false; false] example_closed in
  (exists o, rq s' = ReqStopped o) /\ (exists o, rs s' = RespStopped o) /\
  client (sw s') = client (sw example_closed) /\ broker (sw s') = broker (sw example_closed).
Proof.
  apply (closed_loops_stop example_text example_processor).
  - split; reflexivity.
  - apply Nat.leb_le. reflexivity.
  - apply Nat.leb_le. reflexivity.
Defined.

(** ** The raw SASL exchange *)

(** The raw token after a SaslHandshake of version 0 is forwarded as it is,
    size and bytes, in buffers of any positive size, and nothing after it is
    touched; if the client stops in the middle the broker has what was sent and
    the error is the client's.*)
Theorem copySaslAuthRequest_copies {X} (p : processor X) (token rest : bytes) (n : Z) (w : world X) :
  healthy w -> 0 < requestBufferSize p -> 0 <= n <= MaxRequestSize ->
  rx (client w) = be_put 4 n ++ token ++ rest -> (len token = n \/ (len token < n /\ rest = [])) ->
  exists w',
    copySaslAuthRequest p w = (if len token =? n then Ok tt else Err (rx_end (client w)), w') /\
    tx (broker w') = tx (broker w) ++ be_put 4 n ++ token /\ rx (client w') = rest /\
    tx (client w') = tx (client w) /\ ctl w' = ctl w.
Proof.
  intros Hh Hb Hn Hrx Hl. pose proof (keeps_copySaslAuthRequest p w) as Hk.
  assert (inU 32 n) as Hu by (unfold inU, MaxRequestSize in *; lia).
  rewrite (copySaslAuthRequest_spec p n (token ++ rest) w Hh Hb Hu Hrx) in Hk |- *.
  rewrite wrapS_id in Hk |- * by (unfold inS, MaxRequestSize in *; lia).
  replace (MaxRequestSize <? n) with false in Hk |- * by (symmetry; apply Z.ltb_ge; lia).
  cbv zeta in Hk |- *. unfold copied in *.
  cbn [client broker client_left sent_to_broker set_client set_broker set_rx rx set_tx tx] in *.
  destruct Hl as [Hl|[Hl ->]].
  - replace (n <=? len (token ++ rest)) with true in * by (symmetry; apply Z.leb_le; len_lia).
    replace (len token =? n) with true by (symmetry; apply Z.eqb_eq; lia). eexists. split; [done|].
    assert (Z.to_nat n = length token) as -> by (rewrite <- Hl; apply to_nat_len).
    cbn [client broker client_left sent_to_broker set_client set_broker set_rx rx set_tx tx].
    rewrite take_app_length, drop_app_length, <- app_assoc. by split_and!.
  - rewrite app_nil_r in *.
    replace (n <=? len token) with false in * by (symmetry; apply Z.leb_gt; len_lia).
    replace (len token =? n) with false by (symmetry; apply Z.eqb_neq; lia). eexists. split; [done|].
    cbn [client broker client_left sent_to_broker set_client set_broker set_rx rx set_tx tx set_readErr].
    rewrite take_ge, drop_ge, <- app_assoc by (unfold len in Hl; lia). by split_and!.
Qed.

Definition raw_world : world (list (bytes * Z)) :=
  initial (peer (be_put 4 5 ++ $"token" ++ $"more")) (peer []) [].

Lemma copySaslAuthRequest_copies_witness :
  exists w',
    copySaslAuthRequest example_processor raw_world = (Ok tt, w') /\
    tx (broker w') = tx (broker raw_world) ++ be_put 4 5 ++ $"token" /\ rx (client w') = $"more" /\
    tx (client w') = tx (client raw_world) /\ ctl w' = ctl raw_world.
Proof.
  apply (copySaslAuthRequest_copies example_processor ($"token") ($"more") 5 raw_world).
  - by split.
  - bounds.
  - bounds.
  - reflexivity.
  - left. reflexivity.
Defined.

(** The size limit of the raw token does not hold: the size is compared
    after a conversion to [int32], so every size from 2^31 on passes the check,
    although it is above [MaxRequestSize]; the size and all the client's bytes
    go to the broker.*)
Theorem copySaslAuthRequest_limit_bypassed {X} (p : processor X) (token : bytes) (n : Z) (w : world X) :
  healthy w -> 0 < requestBufferSize p -> 2 ^ 31 <= n < 2 ^ 32 -> len token < 2 ^ 31 ->
  rx (client w) = be_put 4 n ++ token ->
  MaxRequestSize < n /\
  exists w', copySaslAuthRequest p w = (Err (rx_end (client w)), w') /\
    tx (broker w') = tx (broker w) ++ be_put 4 n ++ token.
Proof.
  intros Hh Hb Hn Hl Hrx. split; [unfold MaxRequestSize; lia|].
  rewrite (copySaslAuthRequest_spec p n token w Hh Hb) by (unfold inU; lia || done).
  assert (int32 n < 0) as Hneg.
  { unfold wrapS. replace ((n + 2 ^ (32 - 1)) mod 2 ^ 32) with (n + 2 ^ 31 - 2 ^ 32); [lia|].
    symmetry. replace (n + 2 ^ (32 - 1)) with ((n + 2 ^ 31 - 2 ^ 32) + 1 * 2 ^ 32) by lia.
    rewrite Z.mod_add by lia. apply Z.mod_small. lia. }
  replace (MaxRequestSize <? int32 n) with false
    by (symmetry; apply Z.ltb_ge; unfold MaxRequestSize; lia).
  replace (n <=? len token) with false by (symmetry; apply Z.leb_gt; lia).
  eexists. split; [done|]. unfold copied.
  cbn [client broker client_left sent_to_broker set_client set_broker set_rx rx set_tx tx set_readErr].
  rewrite take_ge, <- app_assoc by (unfold len in Hl; lia). done.
Qed.

Definition oversized_world : world (list (bytes * Z)) :=
  initial (peer (be_put 4 (2 ^ 31) ++ $"token")) (peer []) [].

Lemma copySaslAuthRequest_limit_bypassed_witness :
  MaxRequestSize < 2 ^ 31 /\
  exists w', copySaslAuthRequest example_processor oversized_world = (Err EOF, w') /\
    tx (broker w') = tx (broker oversized_world) ++ be_put 4 (2 ^ 31) ++ $"token".
Proof.
  apply (copySaslAuthRequest_limit_bypassed example_processor ($"token") (2 ^ 31) oversized_world).
  - by split.
  - bounds.
  - bounds.
  - bounds.
  - reflexivity.
Defined.
