(* ===== verification/Listeners.v ===== *)
(** The listeners and the address mapping of the proxy (proxy/proxy.go,
    proxy_config.go).

    A [*ListenerConfig] is shared between the map of the brokers and the accept
    loop of its listener, and its broker address is replaced while the loop
    runs, so configurations live in a store and are named by their index; so are
    the loops, which run until their [Accept] fails.  The operating system, which
    picks the port of a listener and accepts connections, and [text/template],
    which renders the advertised host, are parameters. *)
From Stdlib Require Import ZArith Lia Strings.Byte.
From stdpp Require Import base list strings gmap.
From S2P Require Import Prelude GoLib NetAddr Schema SchemaFacts Net Responses ResponsesFacts.

(** [config.ListenerConfig] *)
Record config_ListenerConfig := {
  cfg_BrokerAddress : bytes;
  cfg_ListenerAddress : bytes;
  cfg_AdvertisedAddress : bytes
}.

Record ListenerConfig := {
  BrokerAddress : bytes;
  ListenerAddress : bytes;
  AdvertisedAddress : bytes;
  BrokerID : Z
}.

#[export] Instance ListenerConfig_eq_dec : EqDecision ListenerConfig.
Proof. solve_decision. Defined.

Definition UnknownBrokerID : Z := -1.

Definition FromListenerConfig (v : config_ListenerConfig) : ListenerConfig :=
  {| BrokerAddress := cfg_BrokerAddress v; ListenerAddress := cfg_ListenerAddress v;
     AdvertisedAddress := cfg_AdvertisedAddress v; BrokerID := UnknownBrokerID |}.
Definition NewListenerConfig (brokerAddress listenerAddress advertisedAddress : bytes) (brokerID : Z)
    : ListenerConfig :=
  {| BrokerAddress := brokerAddress; ListenerAddress := listenerAddress;
     AdvertisedAddress := advertisedAddress; BrokerID := brokerID |}.
Definition SetBrokerAddress (address : bytes) (c : ListenerConfig) : ListenerConfig :=
  {| BrokerAddress := address; ListenerAddress := ListenerAddress c;
     AdvertisedAddress := AdvertisedAddress c; BrokerID := BrokerID c |}.
(** [cfg.AdvertisedAddress = advertised; cfg.ListenerAddress = listener] *)
Definition set_addresses (advertised listener : bytes) (c : ListenerConfig) : ListenerConfig :=
  {| BrokerAddress := BrokerAddress c; ListenerAddress := listener;
     AdvertisedAddress := advertised; BrokerID := BrokerID c |}.

(** ** The configured servers *)

Fixpoint bootstrapServers (l : list config_ListenerConfig) (m : gmap bytes ListenerConfig)
    : res (gmap bytes ListenerConfig) :=
  match l with
  | [] => Ok m
  | v :: l' =>
      match m !! cfg_BrokerAddress v with
      | Some lc =>
          if negb (bool_decide (ListenerAddress lc = cfg_ListenerAddress v)) ||
             negb (bool_decide (AdvertisedAddress lc = cfg_AdvertisedAddress v))
          then Err (Errorf "bootstrap server mapping %s configured twice: %v and %v")
          else bootstrapServers l' m
      | None => bootstrapServers l' (<[cfg_BrokerAddress v := FromListenerConfig v]> m)
      end
  end.

Fixpoint externalServers (l : list config_ListenerConfig) (m : gmap bytes config_ListenerConfig)
    : res (gmap bytes config_ListenerConfig) :=
  match l with
  | [] => Ok m
  | v :: l' =>
      match m !! cfg_BrokerAddress v with
      | Some lc =>
          if negb (bool_decide (cfg_ListenerAddress lc = cfg_ListenerAddress v))
          then Err (Errorf "external server mapping %s configured twice: %s and %v")
          else externalServers l' m
      | None =>
          if negb (bool_decide (cfg_ListenerAddress v = cfg_AdvertisedAddress v))
          then Err (Errorf "external server mapping has different listener and advertised addresses %v")
          else externalServers l' (<[cfg_BrokerAddress v := v]> m)
      end
  end.

(** [for _, v := range externalToListenerConfig], in the order [l]. *)
Fixpoint mergeExternal (l : list config_ListenerConfig) (m : gmap bytes ListenerConfig)
    : res (gmap bytes ListenerConfig) :=
  match l with
  | [] => Ok m
  | v :: l' =>
      match m !! cfg_BrokerAddress v with
      | Some lc =>
          if negb (bool_decide (AdvertisedAddress lc = cfg_AdvertisedAddress v))
          then Err (Errorf "bootstrap and external server mappings %s with different advertised addresses: %v and %v")
          else mergeExternal l' m
      | None => mergeExternal l' (<[cfg_BrokerAddress v := FromListenerConfig v]> m)
      end
  end.

Definition getBrokerToListenerConfig (BootstrapServers ExternalServers : list config_ListenerConfig)
    : res (gmap bytes ListenerConfig) :=
  let? brokerToListenerConfig := bootstrapServers BootstrapServers ∅ in
  let? externalToListenerConfig := externalServers ExternalServers ∅ in
  mergeExternal (snd <$> map_to_list externalToListenerConfig) brokerToListenerConfig.

(** ** State *)

Section listeners.
Context {X : Type}.

(** Listens on an address; the port of the listener's own address. *)
Context (listenFunc : bytes -> M X Z).
(** The advertised listener template rendered for a broker id. *)
Context (renderTemplate : bytes -> Z -> res bytes).

(** The fields that do not change. *)
Record Listeners := {
  defaultListenerIP : bytes;
  dynamicAdvertisedListener : bytes;
  deterministicListeners : bool;
  disableDynamicListeners : bool;
  dynamicSequentialMinPort : Z;
  dynamicSequentialMaxPorts : Z;
  brokerToSNIMapping : gmap bytes bytes;
  sniListenerAddress : bytes
}.

Record state := {
  configs : list ListenerConfig;               (* the store of the configurations *)
  brokerToListenerConfig : gmap bytes nat;
  currentDynamicPortCounter : Z;
  instances : list nat;                        (* the running accept loops, by their configurations *)
  closedListeners : list nat;                  (* those that closed their listener and ended *)
  os : X
}.

Definition set_map (m : gmap bytes nat) (s : state) : state :=
  {| configs := configs s; brokerToListenerConfig := m;
     currentDynamicPortCounter := currentDynamicPortCounter s; instances := instances s;
     closedListeners := closedListeners s; os := os s |}.
Definition set_counter (n : Z) (s : state) : state :=
  {| configs := configs s; brokerToListenerConfig := brokerToListenerConfig s;
     currentDynamicPortCounter := n; instances := instances s; closedListeners := closedListeners s; os := os s |}.
Definition set_os (x : X) (s : state) : state :=
  {| configs := configs s; brokerToListenerConfig := brokerToListenerConfig s;
     currentDynamicPortCounter := currentDynamicPortCounter s; instances := instances s;
     closedListeners := closedListeners s; os := x |}.
Definition set_loops (running closed : list nat) (s : state) : state :=
  {| configs := configs s; brokerToListenerConfig := brokerToListenerConfig s;
     currentDynamicPortCounter := currentDynamicPortCounter s; instances := running;
     closedListeners := closed; os := os s |}.

(** [cfg := &ListenerConfig{...}] *)
Definition new_config (c : ListenerConfig) : M state nat := fun s =>
  (Ok (length (configs s)),
   {| configs := configs s ++ [c]; brokerToListenerConfig := brokerToListenerConfig s;
      currentDynamicPortCounter := currentDynamicPortCounter s; instances := instances s;
     closedListeners := closedListeners s; os := os s |}).
Definition update_config (i : nat) (f : ListenerConfig -> ListenerConfig) : M state unit := fun s =>
  (Ok tt,
   {| configs := alter f i (configs s); brokerToListenerConfig := brokerToListenerConfig s;
      currentDynamicPortCounter := currentDynamicPortCounter s; instances := instances s;
     closedListeners := closedListeners s; os := os s |}).

(** [listenInstance]: listens, and starts an accept loop that keeps [cfg]. *)
Definition listenInstance (i : nat) : M state Z := fun s =>
  match configs s !! i with
  | None => (Panic "invalid memory address or nil pointer dereference", s)
  | Some cfg =>
      let '(r, x) := listenFunc (ListenerAddress cfg) (os s) in
      (r, set_loops (instances s ++ match r with Ok _ => [i] | _ => [] end) (closedListeners s) (set_os x s))
  end.

(** [l.Accept()] and [l.Close()] of the listener of a loop. *)
Context (Accept : nat -> X -> (conn + error) * X) (Close : nat -> X -> X).

(** A turn of the accept loop of [listenInstance] over the configuration [i]:
    what it sends on, the accepted connection with the broker address that the
    configuration has at that time; after an error the listener is closed and
    the loop returns.  Options of TCP sockets are left out. *)
Definition acceptTurn (i : nat) : M state (option (bytes * conn)) := fun s =>
  match Accept i (os s) with
  | (inl c, x) =>
      match configs s !! i with
      | Some cfg => (Ok (Some (BrokerAddress cfg, c)), set_os x s)
      | None => (Panic "invalid memory address or nil pointer dereference", set_os x s)
      end
  | (inr _, x) =>
      (Ok None, set_loops (filter (fun j => j <> i) (instances s)) (closedListeners s ++ [i]) (set_os (Close i x) s))
  end.

Context (p : Listeners).

(** ** Dynamic listeners *)

Definition nextDynamicPort (portOffset : Z) : res Z :=
  if dynamicSequentialMaxPorts p =? 0 then Err (Errorf "dynamic sequential max ports is 0")
  else
    let port := uint16 (dynamicSequentialMinPort p + uint16 (portOffset mod dynamicSequentialMaxPorts p)) in
    if port <? dynamicSequentialMinPort p then Err (Errorf "port assignment overflow %s %d: %d")
    else Ok port.

(** The first entry with the broker id, in the order of [map_to_list]; the
    code's order is not specified. *)
Definition findListenerConfig (brokerId : Z) (s : state) : option (nat * ListenerConfig) :=
  head (omap (fun e : bytes * nat =>
                match configs s !! snd e with
                | Some c => if BrokerID c =? brokerId then Some (snd e, c) else None
                | None => None
                end) (map_to_list (brokerToListenerConfig s))).

Definition getDynamicAdvertisedAddress (brokerID port : Z) : res (bytes * Z) :=
  if bool_decide (dynamicAdvertisedListener p = []) then Ok (defaultListenerIP p, port)
  else
    let? rendered := renderTemplate (dynamicAdvertisedListener p) brokerID in
    match net_SplitHostPort rendered with
    | Ok (advHost, advPortStr) =>
        match Atoi advPortStr with
        | Ok advPort => Ok (advHost, advPort)
        | _ => Ok (rendered, port)
        end
    | _ => Ok (rendered, port)
    end.

(** The tail of [ListenDynamicInstance]: starts the listener and records it. *)
Definition startDynamic (brokerAddress : bytes) (brokerId : Z) (listenerAddress : bytes)
    : M state (bytes * Z) :=
  let* cfg := new_config (NewListenerConfig brokerAddress listenerAddress [] brokerId) in
  let* port := listenInstance cfg in
  let address := JoinHostPort (defaultListenerIP p) (Itoa port) in
  let* adv := lift (getDynamicAdvertisedAddress brokerId port) in
  let '(dynamicAdvertisedHost, dynamicAdvertisedPort) := adv in
  do* update_config cfg
        (set_addresses (JoinHostPort dynamicAdvertisedHost (Itoa dynamicAdvertisedPort)) address) in
  do* modify (fun s => set_map (<[brokerAddress := cfg]> (brokerToListenerConfig s)) s) in
  ret (dynamicAdvertisedHost, int32 dynamicAdvertisedPort).

(** The deterministic listener of a broker id that has one: it is moved to the
    new broker address. *)
Definition moveListener (brokerAddress : bytes) (i : nat) (cfg : ListenerConfig) : M state (bytes * Z) :=
  let oldBrokerAddress := BrokerAddress cfg in
  do* (if bool_decide (oldBrokerAddress = brokerAddress) then ret tt
       else
         do* modify (fun s => set_map (delete oldBrokerAddress (brokerToListenerConfig s)) s) in
         do* update_config i (SetBrokerAddress brokerAddress) in
         modify (fun s => set_map (<[brokerAddress := i]> (brokerToListenerConfig s)) s)) in
  lift (SplitHostPort (AdvertisedAddress cfg)).

Definition ListenDynamicInstance (brokerAddress : bytes) (brokerId : Z) : M state (bytes * Z) :=
  let* s := get in
  match brokerToListenerConfig s !! brokerAddress with
  | Some i =>
      match configs s !! i with
      | Some v => lift (SplitHostPort (AdvertisedAddress v))
      | None => panic "invalid memory address or nil pointer dereference"
      end
  | None =>
      if deterministicListeners p then
        if brokerId <? 0 then fail (Errorf "brokerId is negative %s %d")
        else
          let* deterministicPort := lift (nextDynamicPort brokerId) in
          match findListenerConfig brokerId s with
          | Some (i, cfg) => moveListener brokerAddress i cfg
          | None =>
              startDynamic brokerAddress brokerId
                (JoinHostPort (defaultListenerIP p) (Itoa deterministicPort))
          end
      else if dynamicSequentialMinPort p =? 0 then
        startDynamic brokerAddress brokerId (JoinHostPort (defaultListenerIP p) (Itoa 0))
      else
        let* port := lift (nextDynamicPort (currentDynamicPortCounter s)) in
        do* modify (fun s => set_counter (uint64 (currentDynamicPortCounter s + 1)) s) in
        startDynamic brokerAddress brokerId (JoinHostPort (defaultListenerIP p) (Itoa port))
  end.

(** The reverse SNI mapping, if it applies. *)
Definition sniAddress (brokerAddress : bytes) : option (bytes * Z) :=
  match brokerToSNIMapping p !! brokerAddress with
  | Some sniHostname =>
      if bool_decide (sniListenerAddress p = []) then None
      else match net_SplitHostPort (sniListenerAddress p) with
           | Ok (_, portStr) => Some (sniHostname, int32 (fst (Atoi_value portStr)))
           | _ => None
           end
  | None => None
  end.

Definition GetNetAddressMapping : NetAddressMappingFunc state := fun brokerHost brokerPort brokerId =>
  if bool_decide (brokerHost = []) || (brokerPort <=? 0) then
    fail (Errorf "broker address '%s:%d' is invalid")
  else
    let brokerAddress := JoinHostPort brokerHost (Itoa brokerPort) in
    let* s := get in
    match brokerToListenerConfig s !! brokerAddress with
    | Some i =>
        match configs s !! i with
        | Some listenerConfig => lift (SplitHostPort (AdvertisedAddress listenerConfig))
        | None => panic "invalid memory address or nil pointer dereference"
        end
    | None =>
        match sniAddress brokerAddress with
        | Some r => ret r
        | None =>
            if negb (disableDynamicListeners p) then ListenDynamicInstance brokerAddress brokerId
            else fail (Errorf "net address mapping for %s:%d was not found")
        end
    end.

(** ** Start *)

(** The maps of [NewListeners]. *)
Definition initial_state (m : gmap bytes ListenerConfig) (x : X) : state :=
  let l := map_to_list m in
  {| configs := snd <$> l;
     brokerToListenerConfig := list_to_map (imap (fun i e => (fst e, i)) l);
     currentDynamicPortCounter := 0; instances := []; closedListeners := []; os := x |}.

Fixpoint ListenInstances (cfgs : list config_ListenerConfig) : M state unit :=
  match cfgs with
  | [] => ret tt
  | v :: cfgs' =>
      let* cfg := new_config (FromListenerConfig v) in
      do* listenInstance cfg in
      ListenInstances cfgs'
  end.

End listeners.
Arguments state : clear implicits.

(** ** Facts

    The invariant of the listeners: the map names configurations by their
    broker address, a dynamic one has a running accept loop unless its listener
    was closed after a failed accept, a deterministic one is unique for its
    broker id. *)

Section facts.
Context {X : Type} (listenFunc : bytes -> M X Z) (renderTemplate : bytes -> Z -> res bytes) (p : Listeners).
Implicit Types s : state X.

(** The operating system gives ports. *)
Context (ports : forall a x n x', listenFunc a x = (Ok n, x') -> 0 <= n < 2 ^ 16).

(** ** The invariant *)

(** The first [n] configurations are the configured servers. *)
Record consistent (n : nat) s : Prop := {
  named : forall k i, brokerToListenerConfig s !! k = Some i ->
    exists c, configs s !! i = Some c /\ BrokerAddress c = k;
  running : forall k i, brokerToListenerConfig s !! k = Some i -> (n <= i)%nat -> i ∈ instances s \/ i ∈ closedListeners s;
  unique : deterministicListeners p = true -> forall k k' i i' c c',
    brokerToListenerConfig s !! k = Some i -> brokerToListenerConfig s !! k' = Some i' ->
    configs s !! i = Some c -> configs s !! i' = Some c' ->
    BrokerID c = BrokerID c' -> 0 <= BrokerID c -> k = k';
  sized : (n <= length (configs s))%nat
}.

(** Pointers in the map are distinct for distinct addresses. *)
Lemma named_inj n s k k' i :
  consistent n s -> brokerToListenerConfig s !! k = Some i -> brokerToListenerConfig s !! k' = Some i -> k = k'.
Proof. intros H H1 H2. destruct (named n s H k i H1) as (c & E & <-), (named n s H k' i H2) as (c' & E' & <-). congruence. Qed.

Lemma map_bound n s k i : consistent n s -> brokerToListenerConfig s !! k = Some i -> (i < length (configs s))%nat.
Proof. intros H H1. destruct (named n s H k i H1) as (c & E & _). by apply lookup_lt_Some in E. Qed.

(** ** [findListenerConfig] *)

Lemma findListenerConfig_Some id s i c :
  findListenerConfig id s = Some (i, c) ->
  exists k, brokerToListenerConfig s !! k = Some i /\ configs s !! i = Some c /\ BrokerID c = id.
Proof.
  unfold findListenerConfig. intros H. apply head_Some_elem_of, list_elem_of_omap in H as ([k j] & Hin & H).
  apply elem_of_map_to_list in Hin. simpl in H. destruct (configs s !! j) as [c'|] eqn:E; [|done].
  destruct (Z.eqb_spec (BrokerID c') id); [|done]. injection H as -> ->. eauto.
Qed.

Lemma findListenerConfig_None id s k i c :
  findListenerConfig id s = None -> brokerToListenerConfig s !! k = Some i -> configs s !! i = Some c ->
  BrokerID c <> id.
Proof.
  unfold findListenerConfig. intros H Hk Hc E. apply elem_of_map_to_list in Hk.
  set (f := fun e : bytes * nat => _) in H.
  assert ((i, c) ∈ omap f (map_to_list (brokerToListenerConfig s))) as Hin.
  { apply list_elem_of_omap. exists (k, i). split; [done|]. unfold f. simpl. rewrite Hc.
    by rewrite (proj2 (Z.eqb_eq _ _) E). }
  destruct (omap f _); [by apply not_elem_of_nil in Hin|done].
Qed.

(** ** The two ways to get a listener *)

(** A new listener: its configuration is the next one, and it is in the map if
    and only if everything succeeded. *)
Lemma startDynamic_inv b id la s r s' :
  startDynamic listenFunc renderTemplate p b id la s = (r, s') ->
  exists c, configs s' = configs s ++ [c] /\ BrokerAddress c = b /\ BrokerID c = id /\
    instances s ⊆ instances s' /\ closedListeners s' = closedListeners s /\
    match r with
    | Ok (h, ap) =>
        brokerToListenerConfig s' = <[b := length (configs s)]> (brokerToListenerConfig s) /\
        length (configs s) ∈ instances s' /\
        exists port, inS 64 port /\ AdvertisedAddress c = JoinHostPort h (Itoa port) /\ ap = int32 port
    | _ => brokerToListenerConfig s' = brokerToListenerConfig s
    end.
Proof.
  unfold startDynamic, bind at 1, new_config, bind at 1, listenInstance. cbn [configs].
  rewrite lookup_app_r, Nat.sub_diag by lia. cbn [lookup list_lookup].
  destruct (listenFunc _ _) as [rl x] eqn:EL. destruct rl as [port|e|w].
  - apply ports in EL. unfold bind at 1, lift.
    destruct (getDynamicAdvertisedAddress renderTemplate p id port) as [[h ap]|e|w] eqn:EA; intros [= <- <-].
    + cbn [configs brokerToListenerConfig instances set_map update_config].
      rewrite alter_app_r_alt, Nat.sub_diag by lia. eexists. split; [reflexivity|]. cbn.
      split; [done|]. split; [done|]. split; [set_solver|]. split; [done|]. split; [done|]. split; [set_solver|].
      exists ap. split_and!; try done.
      unfold getDynamicAdvertisedAddress in EA. assert (inS 64 port) as Hp by (unfold inS; lia).
      case_bool_decide; [by injection EA as _ <-|]. destruct (renderTemplate _ _) as [rd|e|w]; [|done..].
      cbn [rbind] in EA. destruct (net_SplitHostPort rd) as [[ah aps]|e|w]; [|by injection EA as _ <-..].
      destruct (Atoi aps) as [ap'|e|w] eqn:E; [|by injection EA as _ <-..].
      injection EA as _ <-. by apply Atoi_int64 in E.
    + eexists. split; [reflexivity|]. cbn. split_and!; try done. set_solver.
    + eexists. split; [reflexivity|]. cbn. split_and!; try done. set_solver.
  - intros [= <- <-]. eexists. split; [reflexivity|]. cbn. split_and!; try done. set_solver.
  - intros [= <- <-]. eexists. split; [reflexivity|]. cbn. split_and!; try done. set_solver.
Qed.

Lemma moveListener_inv b i cfg s r s' :
  BrokerAddress cfg <> b -> moveListener b i cfg s = (r, s') ->
  r = SplitHostPort (AdvertisedAddress cfg) /\
  configs s' = alter (SetBrokerAddress b) i (configs s) /\
  brokerToListenerConfig s' = <[b := i]> (delete (BrokerAddress cfg) (brokerToListenerConfig s)) /\
  instances s' = instances s /\ closedListeners s' = closedListeners s.
Proof.
  intros Hne. unfold moveListener. rewrite bool_decide_false by done.
  unfold bind, modify, update_config, lift. by intros [= <- <-].
Qed.

(** ** Preservation *)

Lemma consistent_same n s s' :
  consistent n s -> configs s' = configs s -> brokerToListenerConfig s' = brokerToListenerConfig s ->
  instances s' = instances s -> closedListeners s' = closedListeners s -> consistent n s'.
Proof. intros [H1 H2 H3 H4] E1 E2 E3 E4. split; rewrite ?E1, ?E2, ?E3, ?E4; done. Qed.

Lemma lookup_old (l : list ListenerConfig) c i c' :
  l !! i = Some c' -> (l ++ [c]) !! i = Some c'.
Proof. intros H. by rewrite lookup_app_l by (by apply lookup_lt_Some in H). Qed.

Lemma consistent_started n b id la s r s' :
  consistent n s -> brokerToListenerConfig s !! b = None ->
  (deterministicListeners p = true -> findListenerConfig id s = None) ->
  startDynamic listenFunc renderTemplate p b id la s = (r, s') -> consistent n s'.
Proof.
  intros Hc Hb Hid H. pose proof Hc as [H1 H2 H3 H4].
  apply startDynamic_inv in H as (c & E1 & Ec & Ei & Hin & Ecl & Hr).
  assert (forall k i, brokerToListenerConfig s !! k = Some i -> configs s' !! i = configs s !! i) as Hold.
  { intros k i Hk. rewrite E1, lookup_app_l; [done|]. by eapply map_bound. }
  destruct r as [[h ap]|e|w].
  - destruct Hr as (Em & Hnew & _). rewrite E1 in *.
    assert ((configs s ++ [c]) !! length (configs s) = Some c) as Hl
      by (by rewrite lookup_app_r, Nat.sub_diag by lia).
    split; rewrite ?Em, ?E1, ?Ecl.
    + intros k i [[<- <-]|[Hk Hi]]%lookup_insert_Some; [by exists c|].
      destruct (H1 k i Hi) as (c' & Hc' & ?). exists c'. split; [by apply lookup_old|done].
    + intros k i [[<- <-]|[Hk Hi]]%lookup_insert_Some Hn; [by left|].
      destruct (H2 k i Hi Hn); [left; by apply Hin|by right].
    + intros Hdet k k' i i' c1 c2 [[<- <-]|[Hk Hi]]%lookup_insert_Some [[<- <-]|[Hk' Hi']]%lookup_insert_Some
        L1 L2 Eid Hpos; [done| | |].
      * exfalso. rewrite Hl in L1. injection L1 as <-. rewrite (Hold _ _ Hi') in L2.
        eapply (findListenerConfig_None id s k' i' c2); [by apply Hid|done|done|congruence].
      * exfalso. rewrite Hl in L2. injection L2 as <-. rewrite (Hold _ _ Hi) in L1.
        eapply (findListenerConfig_None id s k i c1); [by apply Hid|done|done|congruence].
      * rewrite (Hold _ _ Hi) in L1. rewrite (Hold _ _ Hi') in L2. by eapply H3.
    + rewrite length_app. lia.
  - split; rewrite ?Hr, ?Ecl.
    + intros k i Hi. rewrite (Hold _ _ Hi). by apply H1.
    + intros k i Hi Hn. destruct (H2 k i Hi Hn); [left; by apply Hin|by right].
    + intros Hdet k k' i i' c1 c2 Hi Hi'. rewrite (Hold _ _ Hi), (Hold _ _ Hi'). by apply H3.
    + rewrite E1, length_app. lia.
  - split; rewrite ?Hr, ?Ecl.
    + intros k i Hi. rewrite (Hold _ _ Hi). by apply H1.
    + intros k i Hi Hn. destruct (H2 k i Hi Hn); [left; by apply Hin|by right].
    + intros Hdet k k' i i' c1 c2 Hi Hi'. rewrite (Hold _ _ Hi), (Hold _ _ Hi'). by apply H3.
    + rewrite E1, length_app. lia.
Qed.

Lemma consistent_moved n b i cfg s r s' :
  consistent n s -> brokerToListenerConfig s !! b = None ->
  brokerToListenerConfig s !! BrokerAddress cfg = Some i -> configs s !! i = Some cfg ->
  moveListener b i cfg s = (r, s') -> consistent n s'.
Proof.
  intros Hc Hb Hi Hcfg H. pose proof Hc as [H1 H2 H3 H4].
  assert (BrokerAddress cfg <> b) as Hne by congruence.
  apply (moveListener_inv b i cfg s r s' Hne) in H as (_ & E1 & Em & Ei & Ecl).
  (* the entries of the new map are those of the old one, with [b] for the old name *)
  assert (forall k j, brokerToListenerConfig s' !! k = Some j ->
    (k = b /\ j = i) \/ (k <> BrokerAddress cfg /\ j <> i /\ brokerToListenerConfig s !! k = Some j)) as Hm.
  { rewrite Em. intros k j [[<- <-]|[Hk Hj]]%lookup_insert_Some; [by left|]. right.
    apply lookup_delete_Some in Hj as [Hk' Hj]. split; [done|]. split; [|done]. intros ->.
    by assert (k = BrokerAddress cfg) by (by eapply named_inj). }
  assert (configs s' !! i = Some (SetBrokerAddress b cfg)) as Hi' by (rewrite E1, list_lookup_alter_eq, Hcfg; done).
  assert (forall j, j <> i -> configs s' !! j = configs s !! j) as Hj
    by (intros j Hji; rewrite E1; by apply list_lookup_alter_ne).
  split; rewrite ?Ei, ?Ecl.
  - intros k j [[-> ->]|(_ & Hji & Hk)]%Hm; [by eexists|]. rewrite Hj by done. by apply H1.
  - intros k j [[-> ->]|(_ & Hji & Hk)]%Hm; [by apply (H2 (BrokerAddress cfg))|by apply (H2 k)].
  - intros Hdet k k' j j' c1 c2 [[-> ->]|(Hk & Hji & Hkj)]%Hm [[-> ->]|(Hk' & Hji' & Hkj')]%Hm L1 L2 Eid Hpos;
      [done| | |].
    + exfalso. rewrite Hi' in L1. injection L1 as <-. rewrite Hj in L2 by done.
      assert (BrokerAddress cfg = k') by (eapply (H3 Hdet _ _ i j' cfg c2); done). congruence.
    + exfalso. rewrite Hi' in L2. injection L2 as <-. rewrite Hj in L1 by done.
      assert (k = BrokerAddress cfg) by (eapply (H3 Hdet _ _ j i c1 cfg); done). congruence.
    + rewrite Hj in L1, L2 by done. by eapply H3.
  - by rewrite E1, length_alter.
Qed.

Lemma consistent_ListenDynamicInstance n b id s :
  consistent n s -> consistent n (snd (ListenDynamicInstance listenFunc renderTemplate p b id s)).
Proof.
  intros Hc. unfold ListenDynamicInstance, bind at 1, get.
  destruct (brokerToListenerConfig s !! b) as [i|] eqn:Eb; [by destruct (configs s !! i)|].
  destruct (deterministicListeners p) eqn:Ed.
  - destruct (id <? 0); [done|]. unfold bind, lift. destruct (nextDynamicPort p id) as [port|e|w]; [|done..].
    destruct (findListenerConfig id s) as [[i cfg]|] eqn:Ef.
    + destruct (findListenerConfig_Some _ _ _ _ Ef) as (k & Hk & Hcfg & _).
      destruct (named n s Hc k i Hk) as (c & Hc1 & Hc2). assert (c = cfg) as -> by congruence. subst k.
      destruct (moveListener b i cfg s) as [r s'] eqn:Em. by eapply consistent_moved.
    + destruct (startDynamic _ _ _ _ _ _ s) as [r s'] eqn:Es. by eapply consistent_started.
  - destruct (dynamicSequentialMinPort p =? 0).
    + destruct (startDynamic _ _ _ _ _ _ s) as [r s'] eqn:Es. eapply consistent_started; try done. congruence.
    + unfold bind, lift, modify. destruct (nextDynamicPort p _) as [port|e|w]; [|done..].
      destruct (startDynamic _ _ _ _ _ _ _) as [r s'] eqn:Es. simpl.
      eapply consistent_started; [| | |exact Es]; [by eapply consistent_same|done|congruence].
Qed.

Lemma consistent_GetNetAddressMapping n host port id s :
  consistent n s -> consistent n (snd (GetNetAddressMapping listenFunc renderTemplate p host port id s)).
Proof.
  intros Hc. unfold GetNetAddressMapping. destruct (_ || _); [done|]. unfold bind at 1, get.
  destruct (brokerToListenerConfig s !! _) as [i|]; [by destruct (configs s !! i)|].
  destruct (sniAddress p _); [done|]. destruct (negb _); [|done]. by apply consistent_ListenDynamicInstance.
Qed.

(** ** Results *)

(** Where a mapped address leads. *)
Definition leads_to (n : nat) (b h : bytes) (ap : Z) s : Prop := exists i c,
  brokerToListenerConfig s !! b = Some i /\ configs s !! i = Some c /\ BrokerAddress c = b /\
  ((n <= i)%nat -> i ∈ instances s \/ i ∈ closedListeners s) /\
  (SplitHostPort (AdvertisedAddress c) = Ok (h, ap) \/
   exists port, inS 64 port /\ AdvertisedAddress c = JoinHostPort h (Itoa port) /\ ap = int32 port).

Lemma leads_to_mapped n b i h ap s c :
  consistent n s -> brokerToListenerConfig s !! b = Some i -> configs s !! i = Some c ->
  SplitHostPort (AdvertisedAddress c) = Ok (h, ap) -> leads_to n b h ap s.
Proof.
  intros Hc Hb Hi Hs. destruct (named n s Hc b i Hb) as (c' & Hc' & Hn). assert (c' = c) as -> by congruence.
  exists i, c. split_and!; try done; [by apply (running n s Hc b)|by left].
Qed.

Lemma leads_to_started n b id la s h ap s' :
  consistent n s -> startDynamic listenFunc renderTemplate p b id la s = (Ok (h, ap), s') ->
  leads_to n b h ap s'.
Proof.
  intros Hc H. apply startDynamic_inv in H as (c & E1 & Ec & _ & _ & _ & Em & Hi & Hp).
  exists (length (configs s)), c. rewrite Em, E1, lookup_insert_eq, lookup_app_r, Nat.sub_diag by lia.
  split_and!; try done; [by left|by right].
Qed.

Lemma ListenDynamicInstance_Ok n b id s h ap s' :
  consistent n s -> ListenDynamicInstance listenFunc renderTemplate p b id s = (Ok (h, ap), s') ->
  leads_to n b h ap s'.
Proof.
  intros Hc. unfold ListenDynamicInstance, bind at 1, get.
  destruct (brokerToListenerConfig s !! b) as [i|] eqn:Eb.
  { destruct (configs s !! i) as [c|] eqn:Ei; [|done]. unfold lift. intros [= H <-]. by eapply leads_to_mapped. }
  destruct (deterministicListeners p).
  - destruct (id <? 0); [done|]. unfold bind, lift. destruct (nextDynamicPort p id) as [port|e|w]; [|done..].
    destruct (findListenerConfig id s) as [[i cfg]|] eqn:Ef; [|by apply leads_to_started].
    destruct (findListenerConfig_Some _ _ _ _ Ef) as (k & Hk & Hcfg & _).
    destruct (named n s Hc k i Hk) as (c & Hc1 & Hc2). assert (c = cfg) as -> by congruence.
    intros H. assert (BrokerAddress cfg <> b) as Hne by congruence.
    apply (moveListener_inv b i cfg s _ _ Hne) in H as (Hr & E1 & Em & Ei & Ecl).
    exists i, (SetBrokerAddress b cfg). rewrite Em, E1, Ei, Ecl, lookup_insert_eq, list_lookup_alter_eq, Hcfg.
    split_and!; try done; [by apply (running n s Hc k)|by left].
  - destruct (dynamicSequentialMinPort p =? 0); [by apply leads_to_started|].
    unfold bind, lift, modify. destruct (nextDynamicPort p _) as [port|e|w]; [|done..].
    apply leads_to_started. by eapply consistent_same.
Qed.

Lemma GetNetAddressMapping_Ok n host port id s h ap s' :
  consistent n s ->
  GetNetAddressMapping listenFunc renderTemplate p host port id s = (Ok (h, ap), s') ->
  let b := JoinHostPort host (Itoa port) in
  host <> [] /\ 0 < port /\
  ((brokerToListenerConfig s !! b = None /\ sniAddress p b = Some (h, ap) /\ s' = s) \/ leads_to n b h ap s').
Proof.
  intros Hc H b. unfold GetNetAddressMapping in H. fold b in H.
  destruct (bool_decide (host = []) || (port <=? 0)) eqn:E; [done|].
  apply orb_false_iff in E as [E1%bool_decide_eq_false E2%Z.leb_gt]. split; [done|]. split; [done|].
  unfold bind at 1, get in H. destruct (brokerToListenerConfig s !! b) as [i|] eqn:Eb.
  { destruct (configs s !! i) as [c|] eqn:Ei; [|done]. injection H as H <-. right. by eapply leads_to_mapped. }
  destruct (sniAddress p b) as [r|] eqn:Es; [injection H as -> <-; by left|].
  destruct (negb _); [|done]. right. by eapply ListenDynamicInstance_Ok.
Qed.

(** A later call for a broker address that is mapped returns what it leads to. *)
Lemma GetNetAddressMapping_again n host port id s h ap :
  host <> [] -> 0 < port -> leads_to n (JoinHostPort host (Itoa port)) h ap s -> bracketless h ->
  GetNetAddressMapping listenFunc renderTemplate p host port id s = (Ok (h, ap), s).
Proof.
  intros Hh Hp (i & c & Hb & Hc & _ & _ & Ha) Hbr. unfold GetNetAddressMapping.
  rewrite bool_decide_false by done. replace (port <=? 0) with false by (symmetry; apply Z.leb_gt; lia).
  cbn [orb]. unfold bind at 1, get. rewrite Hb, Hc. unfold lift.
  destruct Ha as [->|(n0 & Hn & -> & ->)]; [done|]. by rewrite SplitHostPort_JoinHostPort.
Qed.

(** The contract of a mapping function. *)
Lemma GetNetAddressMapping_int32 : returns_int32 (GetNetAddressMapping listenFunc renderTemplate p).
Proof.
  intros host port id s [h ap] s' H. unfold GetNetAddressMapping in H. destruct (_ || _); [done|].
  assert (forall c s1, lift (SplitHostPort (AdvertisedAddress c)) s1 = (Ok (h, ap), s') -> inS 32 ap) as Hl
    by (intros c s1 [= H1 _]; by apply SplitHostPort_int32 in H1).
  assert (forall b la s1, startDynamic listenFunc renderTemplate p b id la s1 = (Ok (h, ap), s') -> inS 32 ap) as Hs.
  { intros b la s1 H1. apply startDynamic_inv in H1 as (c & _ & _ & _ & _ & _ & _ & _ & n & _ & _ & ->).
    apply wrapS_range. lia. }
  unfold bind at 1, get in H. destruct (brokerToListenerConfig s !! _) as [i|] eqn:Eb.
  { destruct (configs s !! i); [by eapply Hl|done]. }
  destruct (sniAddress p _) as [r|] eqn:Es.
  { injection H as -> _. unfold sniAddress in Es. destruct (brokerToSNIMapping p !! _); [|done].
    case_bool_decide; [done|]. destruct (net_SplitHostPort _) as [[? ?]|?|?]; [|done..].
    injection Es as _ <-. apply wrapS_range. lia. }
  destruct (negb _); [|done]. unfold ListenDynamicInstance, bind at 1, get in H. rewrite Eb in H.
  destruct (deterministicListeners p).
  - destruct (id <? 0); [done|]. unfold bind, lift in H. destruct (nextDynamicPort p id); [|done..].
    destruct (findListenerConfig id s) as [[i cfg]|]; [|by eapply Hs].
    unfold moveListener, bind in H. destruct (bool_decide _); simpl in H; by eapply Hl.
  - destruct (_ =? 0); [by eapply Hs|]. unfold bind, lift, modify in H.
    destruct (nextDynamicPort p _); [|done..]. by eapply Hs.
Qed.

(** ** What stays *)

(** The entries that no call can move: all of them without deterministic
    listeners, else those of the configured servers. *)
Definition kept s s' : Prop := forall k i c,
  brokerToListenerConfig s !! k = Some i -> configs s !! i = Some c ->
  deterministicListeners p = false \/ BrokerID c < 0 ->
  brokerToListenerConfig s' !! k = Some i /\ configs s' !! i = Some c.

(** What a call can add to the map: its own address. *)
Definition adds (b : bytes) s s' : Prop := forall k,
  k <> b -> brokerToListenerConfig s !! k = None -> brokerToListenerConfig s' !! k = None.

Lemma kept_started b id la s r s' :
  brokerToListenerConfig s !! b = None ->
  startDynamic listenFunc renderTemplate p b id la s = (r, s') -> kept s s' /\ adds b s s'.
Proof.
  intros Hb H. apply startDynamic_inv in H as (c & E1 & _ & _ & _ & _ & Hr).
  assert (brokerToListenerConfig s' = brokerToListenerConfig s \/
          brokerToListenerConfig s' = <[b := length (configs s)]> (brokerToListenerConfig s)) as Hm
    by (destruct r as [[h ap]|e|w]; [right; apply Hr|by left..]).
  split.
  - intros k i c0 Hk Hc _. rewrite E1. split; [|by apply lookup_old].
    destruct Hm as [->| ->]; [done|]. by rewrite lookup_insert_ne by congruence.
  - intros k Hk HN. destruct Hm as [->| ->]; [done|]. by rewrite lookup_insert_ne.
Qed.

Lemma kept_ListenDynamicInstance n b id s r s' :
  consistent n s -> ListenDynamicInstance listenFunc renderTemplate p b id s = (r, s') -> kept s s' /\ adds b s s'.
Proof.
  intros Hc.
  assert (forall (r' : res (bytes * Z)), (r', s) = (r, s') -> kept s s' /\ adds b s s') as Hsame
    by (intros r' [= _ <-]; split; [by intros k i c|by intros k]).
  unfold ListenDynamicInstance, bind at 1, get.
  destruct (brokerToListenerConfig s !! b) as [i|] eqn:Eb; [destruct (configs s !! i); by apply Hsame|].
  destruct (deterministicListeners p) eqn:Ed.
  - destruct (Z.ltb_spec id 0); [by apply Hsame|]. unfold bind, lift.
    destruct (nextDynamicPort p id) as [port|e|w]; [|by apply Hsame..].
    destruct (findListenerConfig id s) as [[i cfg]|] eqn:Ef; [|by apply kept_started].
    destruct (findListenerConfig_Some _ _ _ _ Ef) as (k & Hk & Hcfg & Hid).
    destruct (named n s Hc k i Hk) as (c & Hc1 & Hc2). assert (c = cfg) as -> by congruence.
    intros Em. assert (BrokerAddress cfg <> b) as Hne by congruence.
    apply (moveListener_inv b i cfg s _ _ Hne) in Em as (_ & E1 & Em & _). split.
    + intros k' j c' Hk' Hc' [?|Hneg]; [congruence|].
      assert (j <> i) as Hji by (intros ->; assert (c' = cfg) as -> by congruence; lia).
      by rewrite Em, E1, list_lookup_alter_ne, lookup_insert_ne, lookup_delete_ne by congruence.
    + intros k' Hk' HN. rewrite Em, lookup_insert_ne by done. apply lookup_delete_None. by right.
  - destruct (dynamicSequentialMinPort p =? 0); [by apply kept_started|].
    unfold bind, lift, modify. destruct (nextDynamicPort p _) as [port|e|w]; [|by apply Hsame..].
    intros Es. by eapply kept_started in Es.
Qed.

Lemma kept_GetNetAddressMapping n host port id s r s' :
  consistent n s -> GetNetAddressMapping listenFunc renderTemplate p host port id s = (r, s') ->
  kept s s' /\ (forall b, is_Some (sniAddress p b) -> brokerToListenerConfig s !! b = None ->
    brokerToListenerConfig s' !! b = None).
Proof.
  intros Hc.
  assert (forall (r' : res (bytes * Z)), (r', s) = (r, s') -> kept s s' /\ (forall b, is_Some (sniAddress p b) ->
    brokerToListenerConfig s !! b = None -> brokerToListenerConfig s' !! b = None)) as Hsame
    by (intros r' [= _ <-]; split; [by intros k i c|done]).
  unfold GetNetAddressMapping. destruct (_ || _); [by apply Hsame|]. unfold bind at 1, get.
  destruct (brokerToListenerConfig s !! JoinHostPort host (Itoa port)) as [i|];
    [destruct (configs s !! i); by apply Hsame|].
  destruct (sniAddress p (JoinHostPort host (Itoa port))) as [a|] eqn:Es; [by apply Hsame|].
  destruct (negb _); [|by apply Hsame]. intros H.
  destruct (kept_ListenDynamicInstance n (JoinHostPort host (Itoa port)) id s r s' Hc H) as [H1 H2].
  split; [done|]. intros b [a Ha] HN. apply H2; [|done]. congruence.
Qed.

(** The mapping calls of a list, one after the other. *)
Definition calls (l : list (bytes * Z * Z)) s : state X :=
  foldl (fun s '(host, port, id) => snd (GetNetAddressMapping listenFunc renderTemplate p host port id s)) s l.

Lemma calls_spec n l s :
  consistent n s ->
  consistent n (calls l s) /\ kept s (calls l s) /\
  (forall b, is_Some (sniAddress p b) -> brokerToListenerConfig s !! b = None ->
    brokerToListenerConfig (calls l s) !! b = None).
Proof.
  revert s. induction l as [|[[host port] id] l IH]; intros s Hc; [done|].
  cbn [calls foldl]. pose proof (consistent_GetNetAddressMapping n host port id s Hc) as Hc1.
  destruct (GetNetAddressMapping listenFunc renderTemplate p host port id s) as [r s1] eqn:E. cbn [snd] in *.
  destruct (kept_GetNetAddressMapping n host port id s r s1 Hc E) as [K1 N1].
  destruct (IH _ Hc1) as (H1 & K2 & N2). split; [done|]. split.
  - intros k i c Hk Hi Hor. destruct (K1 k i c Hk Hi Hor) as [Hk' Hi']. by apply K2.
  - intros b Hb HN. apply N2; [done|]. by apply N1.
Qed.

(** ** The start *)

Lemma consistent_ListenInstances n cfgs s :
  consistent n s -> consistent n (snd (ListenInstances listenFunc cfgs s)).
Proof.
  revert s. induction cfgs as [|v cfgs IH]; intros s Hc; [done|].
  cbn [ListenInstances]. unfold bind at 1, new_config.
  set (s1 := {| configs := _; brokerToListenerConfig := _ |}).
  assert (consistent n s1) as Hc1.
  { pose proof Hc as [H1 H2 H3 H4].
    assert (forall k i, brokerToListenerConfig s !! k = Some i -> configs s1 !! i = configs s !! i) as Ho
      by (intros k i Hk; cbn; rewrite lookup_app_l; [done|by eapply map_bound]).
    split; cbn [s1 brokerToListenerConfig instances].
    - intros k i Hk. rewrite (Ho k i Hk). by apply H1.
    - exact H2.
    - intros Hd k k' i i' c c' Hk Hk'. rewrite (Ho _ _ Hk), (Ho _ _ Hk'). by apply H3.
    - cbn. rewrite length_app. lia. }
  clearbody s1. unfold bind at 1, listenInstance. destruct (configs s1 !! _) as [cfg|]; [|done].
  destruct (listenFunc _ _) as [r x].
  set (s2 := set_loops _ _ _).
  assert (consistent n s2) as Hc2.
  { destruct Hc1 as [H1 H2 H3 H4]. split; [exact H1| |exact H3|exact H4].
    intros k i Hk Hn. cbn. destruct (H2 k i Hk Hn); [left|by right]. apply elem_of_app. by left. }
  destruct r; [by apply IH|done..].
Qed.

Lemma initial_lookup (m : gmap bytes ListenerConfig) (x : X) k i :
  brokerToListenerConfig (initial_state m x) !! k = Some i ->
  exists c, configs (initial_state m x) !! i = Some c /\ m !! k = Some c.
Proof.
  cbn. intros H. apply elem_of_list_to_map_2 in H. apply elem_of_lookup_imap in H as (j & [k' c] & [= -> ->] & H).
  exists c. rewrite list_lookup_fmap, H. split; [done|].
  apply elem_of_map_to_list. by eapply list_elem_of_lookup_2.
Qed.

Lemma consistent_initial (m : gmap bytes ListenerConfig) (x : X) :
  (forall k c, m !! k = Some c -> BrokerAddress c = k /\ BrokerID c = UnknownBrokerID) ->
  consistent (length (configs (initial_state m x))) (initial_state m x).
Proof.
  intros Hm. split.
  - intros k i H. apply initial_lookup in H as (c & Hc & Hk). exists c. split; [done|]. by apply Hm.
  - intros k i H Hn. apply initial_lookup in H as (c & Hc & _). apply lookup_lt_Some in Hc. lia.
  - intros _ k k' i i' c c' H _ Hc _ _ Hpos. apply initial_lookup in H as (c0 & Hc0 & Hk).
    assert (c0 = c) as -> by congruence. apply Hm in Hk as [_ Hid]. rewrite Hid in Hpos.
    unfold UnknownBrokerID in Hpos. lia.
  - done.
Qed.

(** ** The accept loops *)

(** What a turn of a loop does. *)
Lemma acceptTurn_spec Accept Close i s c :
  configs s !! i = Some c ->
  match Accept i (os s) with
  | (inl conn, x) => acceptTurn Accept Close i s = (Ok (Some (BrokerAddress c, conn)), set_os x s)
  | (inr _, x) => exists s', acceptTurn Accept Close i s = (Ok None, s') /\ os s' = Close i x /\
      configs s' = configs s /\ brokerToListenerConfig s' = brokerToListenerConfig s /\
      i ∉ instances s' /\ i ∈ closedListeners s'
  end.
Proof.
  intros Hc. unfold acceptTurn. destruct (Accept i (os s)) as [[conn|e] x]; [by rewrite Hc|].
  eexists. split; [reflexivity|]. cbn. split_and!; try done.
  - by intros [H _]%list_elem_of_filter.
  - apply elem_of_app. right. by apply list_elem_of_singleton.
Qed.

(** A turn leaves the map and the configurations, and a loop that was running
    still runs or is one whose listener was closed. *)
Lemma acceptTurn_keeps Accept Close i s :
  let s' := snd (acceptTurn Accept Close i s) in
  configs s' = configs s /\ brokerToListenerConfig s' = brokerToListenerConfig s /\
  (forall j, j ∈ instances s \/ j ∈ closedListeners s -> j ∈ instances s' \/ j ∈ closedListeners s').
Proof.
  cbv zeta. unfold acceptTurn. destruct (Accept i (os s)) as [[conn|e] x]; [by destruct (configs s !! i)|].
  cbn. split_and!; [done..|]. intros j [Hj|Hj]; [|right; apply elem_of_app; by left].
  destruct (decide (j = i)) as [->|Hne]; [right|left; by apply list_elem_of_filter].
  apply elem_of_app. right. by apply list_elem_of_singleton.
Qed.

Lemma consistent_acceptTurn n Accept Close i s :
  consistent n s -> consistent n (snd (acceptTurn Accept Close i s)).
Proof.
  intros [H1 H2 H3 H4]. destruct (acceptTurn_keeps Accept Close i s) as (E1 & E2 & Hj).
  split; rewrite ?E1, ?E2; [done| |done|done]. intros k j Hk Hn. by eapply Hj, H2.
Qed.

(** ** The loops of the configured servers *)

(** A configuration that is in the store and not in the map, whose loop runs or
    is one whose listener was closed. *)
Definition own_loop (i : nat) (c : ListenerConfig) s : Prop :=
  configs s !! i = Some c /\ (forall k, brokerToListenerConfig s !! k <> Some i) /\
  (i ∈ instances s \/ i ∈ closedListeners s).

(** The loops are over configurations of the store, no configuration has two,
    and none runs whose listener was closed. *)
Definition loops_ok s : Prop :=
  NoDup (instances s ++ closedListeners s) /\
  forall i, i ∈ instances s ++ closedListeners s -> (i < length (configs s))%nat.

Lemma loops_ok_same s s' :
  (length (configs s) <= length (configs s'))%nat -> instances s' = instances s -> closedListeners s' = closedListeners s ->
  loops_ok s -> loops_ok s'.
Proof. intros Hl E1 E2 [H1 H2]. split; rewrite E1, E2; [done|]. intros i Hi%H2. lia. Qed.

(** A loop over a new configuration. *)
Lemma loops_ok_started s s' :
  length (configs s') = S (length (configs s)) -> instances s' = instances s ++ [length (configs s)] ->
  closedListeners s' = closedListeners s -> loops_ok s -> loops_ok s'.
Proof.
  intros Hl E1 E2 [H1 H2].
  assert (instances s' ++ closedListeners s' ≡ₚ length (configs s) :: instances s ++ closedListeners s) as Hp
    by (rewrite E1, E2, <- app_assoc; symmetry; apply Permutation_middle).
  split.
  - rewrite Hp. apply NoDup_cons. split; [intros Hi%H2; lia|done].
  - intros i. rewrite Hp, Hl. intros [->|Hi%H2]%elem_of_cons; lia.
Qed.

Lemma loops_ok_acceptTurn Accept Close i s :
  i ∈ instances s -> loops_ok s -> loops_ok (snd (acceptTurn Accept Close i s)).
Proof.
  intros Hi [H1 H2]. unfold acceptTurn. destruct (Accept i (os s)) as [[conn|e] x]; [by destruct (configs s !! i)|].
  apply NoDup_app in H1 as (N1 & N2 & N3). split; cbn.
  - rewrite (Permutation_app_comm (closedListeners s)). cbn. rewrite <- Permutation_middle. apply NoDup_cons. split.
    + intros [[Hn _]%list_elem_of_filter|Hc]%elem_of_app; [done|]. by apply (N2 i).
    + apply NoDup_app. split_and!; [by apply NoDup_filter| |done]. intros j [_ Hj]%list_elem_of_filter. by apply N2.
  - intros j [[_ Hj]%list_elem_of_filter|[Hj|Hj%list_elem_of_singleton]%elem_of_app]%elem_of_app; apply H2, elem_of_app;
      [by left|by right|left; by subst].
Qed.

Lemma startDynamic_loops b id la s r s' :
  startDynamic listenFunc renderTemplate p b id la s = (r, s') -> loops_ok s -> loops_ok s'.
Proof.
  unfold startDynamic, bind at 1, new_config, bind at 1, listenInstance. cbn [configs].
  rewrite lookup_app_r, Nat.sub_diag by lia. cbn [lookup list_lookup].
  destruct (listenFunc _ _) as [[port|e|w] x].
  - unfold bind at 1, lift. destruct (getDynamicAdvertisedAddress renderTemplate p id port) as [[h ap]|e|w];
      intros [= _ <-]; apply loops_ok_started; try done; cbn; rewrite ?length_alter, length_app; simpl; lia.
  - intros [= _ <-]. apply loops_ok_same; cbn; rewrite ?length_app, ?app_nil_r; done || lia.
  - intros [= _ <-]. apply loops_ok_same; cbn; rewrite ?length_app, ?app_nil_r; done || lia.
Qed.

(** The configurations that are not in the map are out of reach of a call. *)
Definition keeps_own s s' : Prop :=
  (forall i c, own_loop i c s -> own_loop i c s') /\ closedListeners s' = closedListeners s /\ (loops_ok s -> loops_ok s').

Lemma keeps_own_started b id la s r s' :
  startDynamic listenFunc renderTemplate p b id la s = (r, s') -> keeps_own s s'.
Proof.
  intros H. pose proof (startDynamic_loops _ _ _ _ _ _ H) as HL.
  apply startDynamic_inv in H as (c & E1 & _ & _ & Hin & Ecl & Hr). split; [|done].
  intros i ci (Hc & Hk & Hl). split; [rewrite E1; by apply lookup_old|]. split.
  - assert (brokerToListenerConfig s' = brokerToListenerConfig s \/
            brokerToListenerConfig s' = <[b := length (configs s)]> (brokerToListenerConfig s)) as [->| ->]
      by (destruct r as [[h ap]|e|w]; [right; apply Hr|by left..]); [done|].
    intros k [[_ <-]|[_ Hki]]%lookup_insert_Some; [|by apply (Hk k)]. apply lookup_lt_Some in Hc. lia.
  - rewrite Ecl. destruct Hl; [left; by apply Hin|by right].
Qed.

Lemma keeps_own_moved b i cfg s r s' :
  BrokerAddress cfg <> b -> (exists k, brokerToListenerConfig s !! k = Some i) ->
  moveListener b i cfg s = (r, s') -> keeps_own s s'.
Proof.
  intros Hne [k0 Hk0] H. apply (moveListener_inv b i cfg s r s' Hne) in H as (_ & E1 & Em & Ei & Ecl).
  split; [|split; [done|apply loops_ok_same; rewrite ?E1, ?length_alter; done]].
  intros j cj (Hc & Hk & Hl). assert (j <> i) as Hji by (intros ->; by apply (Hk k0)).
  split; [by rewrite E1, list_lookup_alter_ne by congruence|]. split; [|by rewrite Ei, Ecl].
  intros k. rewrite Em. intros [[_ <-]|[_ [_ Hki]%lookup_delete_Some]]%lookup_insert_Some; [done|by apply (Hk k)].
Qed.

Lemma keeps_own_GetNetAddressMapping n host port id s r s' :
  consistent n s -> GetNetAddressMapping listenFunc renderTemplate p host port id s = (r, s') -> keeps_own s s'.
Proof.
  intros Hc. assert (forall (r' : res (bytes * Z)), (r', s) = (r, s') -> keeps_own s s') as Hsame
    by (intros r' [= _ <-]; by split).
  unfold GetNetAddressMapping. destruct (_ || _); [by apply Hsame|]. unfold bind at 1, get.
  set (b := JoinHostPort host (Itoa port)).
  destruct (brokerToListenerConfig s !! b) as [i|] eqn:Eb; [destruct (configs s !! i); by apply Hsame|].
  destruct (sniAddress p b); [by apply Hsame|]. destruct (negb _); [|by apply Hsame].
  unfold ListenDynamicInstance, bind at 1, get. rewrite Eb. destruct (deterministicListeners p).
  - destruct (id <? 0); [by apply Hsame|]. unfold bind, lift.
    destruct (nextDynamicPort p id) as [q|e|w]; [|by apply Hsame..].
    destruct (findListenerConfig id s) as [[i cfg]|] eqn:Ef; [|by apply keeps_own_started].
    destruct (findListenerConfig_Some _ _ _ _ Ef) as (k & Hk & Hcfg & _).
    destruct (named n s Hc k i Hk) as (c & Hc1 & Hc2). assert (c = cfg) as -> by congruence.
    apply keeps_own_moved; [congruence|by exists k].
  - destruct (dynamicSequentialMinPort p =? 0); [by apply keeps_own_started|]. unfold bind, lift, modify.
    destruct (nextDynamicPort p _) as [q|e|w]; [|by apply Hsame..]. apply keeps_own_started.
Qed.

(** The loops that the start has made. *)
Lemma ListenInstances_Ok n servers s s' :
  consistent n s -> ListenInstances listenFunc servers s = (Ok tt, s') ->
  keeps_own s s' /\ forall v, v ∈ servers -> exists i, own_loop i (FromListenerConfig v) s'.
Proof.
  revert s. induction servers as [|v servers IH]; intros s Hc H.
  - injection H as <-. split; [by split|]. by intros v ?%not_elem_of_nil.
  - pose proof (consistent_ListenInstances n [v] s Hc) as Hc2.
    cbn [ListenInstances] in H, Hc2. unfold bind at 1, new_config, bind at 1, listenInstance in H.
    unfold bind at 1, new_config, bind at 1, listenInstance in Hc2. cbn [configs instances os] in H, Hc2. rewrite lookup_app_r, Nat.sub_diag in H, Hc2 by lia.
    cbn [lookup list_lookup] in H, Hc2. destruct (listenFunc _ _) as [[q|e|w] x]; [|done..].
    cbn [snd ret] in Hc2. destruct (IH _ Hc2 H) as [(K1 & K2 & K3) Hv]. split.
    + split_and!; [|exact K2|intros HL; apply K3; revert HL; apply loops_ok_started; cbn; rewrite ?length_app; simpl; done || lia].
      intros i c (Hi & Hk & Hl). apply K1. split_and!; [cbn; by apply lookup_old|done|].
      destruct Hl; [left; cbn; apply elem_of_app; by left|by right].
    + intros v' [->|Hv']%elem_of_cons; [|by apply Hv]. exists (length (configs s)). apply K1. split_and!.
      * cbn. by rewrite lookup_app_r, Nat.sub_diag by lia.
      * intros k Hk. apply (map_bound n s k _ Hc) in Hk. lia.
      * left. cbn. apply elem_of_app. right. by apply list_elem_of_singleton.
Qed.

End facts.

(** ** Rewriting through a mapping *)

(** What the mapping function preserves, the rewriting of a response
    preserves. *)
Lemma preserves_forStructs {L} (P : L -> Prop) (f : Struct -> M L Struct) l :
  (forall b, preserves P (f b)) -> preserves P (forStructs f l).
Proof.
  intros Hf. induction l as [|v l IH]; [apply preserves_ret|]. simpl.
  destruct v; try (by intros ? ?). apply preserves_bind; [apply Hf|]. intros. apply preserves_bind; [done|].
  intros. apply preserves_ret.
Qed.

Lemma preserves_rewriteResponse {L} (P : L -> Prop) (fn : NetAddressMappingFunc L) k st :
  (forall h p n, preserves P (fn h p n)) -> preserves P (rewriteResponse k fn st).
Proof.
  intros Hfn.
  assert (forall b, preserves P (mapAddress fn b)) as Ha.
  { intros b. unfold mapAddress. destruct (address_of b) as [[[h p] n]|]; [|by intros ? ?].
    destruct (_ && _); [apply preserves_ret|]. apply preserves_bind; [apply Hfn|]. intros. apply preserves_ret. }
  assert (forall c, preserves P (mapCoordinator fn c)) as Hc.
  { intros c. unfold mapCoordinator. destruct (Struct_Get c _); try (by intros ? ?).
    apply preserves_bind; [apply Ha|]. intros. apply preserves_ret. }
  assert (forall f name st, (forall b, preserves P (f b)) -> preserves P (mapAll f name st)) as Hl.
  { intros f name st0 Hf. unfold mapAll. destruct (Struct_Get st0 _); try (by intros ? ?).
    apply preserves_bind; [by apply preserves_forStructs|]. intros. apply preserves_ret. }
  unfold rewriteResponse, rewriteMetadata, rewriteFindCoordinator.
  destruct (k =? apiKeyMetadata); [by apply Hl|]. destruct (field_of _ _); [by apply Hl|apply Hc].
Qed.

Lemma preserves_Apply {L} (P : L -> Prop) k v (fn : NetAddressMappingFunc L) f resp :
  GetResponseModifier k v (Some fn) = Ok (Some f) -> (forall h p n, preserves P (fn h p n)) ->
  preserves P (Apply f (Some resp)).
Proof.
  intros Hg Hfn l Hl. rewrite (Apply_spec _ _ _ _ _ _ Hg).
  destruct (DecodeSchema _ _) as [[st|]|e|w]; [|done..].
  revert l Hl. apply preserves_bind; [by apply preserves_rewriteResponse|]. by intros st' l.
Qed.
