(* ===== verification/ListenerTheorems.v ===== *)
(** The theorems of the listeners and of the address mapping. *)
From Stdlib Require Import ZArith Lia Strings.Byte.
From stdpp Require Import base list strings gmap.
From S2P Require Import Prelude GoLib NetAddr Schema Net Responses ResponsesFacts Listeners.

(** ** The configured servers *)

(** A loop that adds the entries of [l] to [m] under the keys that are free: [P]
    holds of an entry and what is found under its key, [Q] of the entries that
    were added. *)
Section collects.
Context {B : Type} (val : config_ListenerConfig -> B) (P : config_ListenerConfig -> B -> Prop)
  (Q : config_ListenerConfig -> Prop).
Implicit Types (l : list config_ListenerConfig) (m : gmap bytes B).

Definition collects l m m' : Prop :=
  m ⊆ m' /\
  (forall v, v ∈ l -> exists c, m' !! cfg_BrokerAddress v = Some c /\ P v c) /\
  (forall k c, m' !! k = Some c ->
     m !! k = Some c \/ exists v, v ∈ l /\ Q v /\ k = cfg_BrokerAddress v /\ c = val v).

Lemma collects_nil m : collects [] m m.
Proof. split_and!; [done|by intros v ?%not_elem_of_nil|by left]. Qed.

Lemma collects_skip v c l m m' :
  m !! cfg_BrokerAddress v = Some c -> P v c -> collects l m m' -> collects (v :: l) m m'.
Proof.
  intros Hc Hp (Hm & Hin & Hk). split; [done|]. split.
  - intros w [->|Hw]%elem_of_cons; [|by apply Hin]. exists c. split; [by eapply lookup_weaken|done].
  - intros k c' Hc'. destruct (Hk k c' Hc') as [?|(w & Hw & ?)]; [by left|right].
    exists w. split; [by right|done].
Qed.

Lemma collects_add v l m m' :
  m !! cfg_BrokerAddress v = None -> P v (val v) -> Q v ->
  collects l (<[cfg_BrokerAddress v := val v]> m) m' -> collects (v :: l) m m'.
Proof.
  intros Hn Hp Hq (Hm & Hin & Hk). split; [etrans; [by apply insert_subseteq|done]|]. split.
  - intros w [->|Hw]%elem_of_cons; [|by apply Hin]. exists (val v).
    split; [|done]. eapply lookup_weaken; [|done]. by rewrite lookup_insert_eq.
  - intros k c Hc. destruct (Hk k c Hc) as [[[<- <-]|[_ ?]]%lookup_insert_Some|(w & Hw & ?)].
    + right. exists v. split; [by left|done].
    + by left.
    + right. exists w. split; [by right|done].
Qed.
End collects.

Lemma bootstrapServers_spec l m m' :
  bootstrapServers l m = Ok m' ->
  collects FromListenerConfig
    (fun v c => ListenerAddress c = cfg_ListenerAddress v /\ AdvertisedAddress c = cfg_AdvertisedAddress v)
    (fun _ => True) l m m'.
Proof.
  revert m. induction l as [|v l IH]; intros m H; cbn [bootstrapServers] in H; [injection H as <-; apply collects_nil|].
  destruct (m !! cfg_BrokerAddress v) as [lc|] eqn:E; [|by apply collects_add; auto].
  destruct (negb _ || negb _) eqn:Eb; [done|].
  apply orb_false_iff in Eb as [E1%negb_false_iff%bool_decide_eq_true E2%negb_false_iff%bool_decide_eq_true].
  apply (collects_skip _ _ _ _ lc); auto.
Qed.

Lemma externalServers_spec l m m' :
  externalServers l m = Ok m' ->
  collects id (fun v c => cfg_ListenerAddress c = cfg_ListenerAddress v)
    (fun v => cfg_ListenerAddress v = cfg_AdvertisedAddress v) l m m'.
Proof.
  revert m. induction l as [|v l IH]; intros m H; cbn [externalServers] in H; [injection H as <-; apply collects_nil|].
  destruct (m !! cfg_BrokerAddress v) as [lc|] eqn:E; destruct (negb _) eqn:Eb; try done;
    apply negb_false_iff, bool_decide_eq_true in Eb.
  - apply (collects_skip _ _ _ _ lc); auto.
  - by apply collects_add; auto.
Qed.

Lemma mergeExternal_spec l m m' :
  mergeExternal l m = Ok m' ->
  collects FromListenerConfig (fun v c => AdvertisedAddress c = cfg_AdvertisedAddress v) (fun _ => True) l m m'.
Proof.
  revert m. induction l as [|v l IH]; intros m H; cbn [mergeExternal] in H; [injection H as <-; apply collects_nil|].
  destruct (m !! cfg_BrokerAddress v) as [lc|] eqn:E; [|by apply collects_add; auto].
  destruct (negb _) eqn:Eb; [done|]. apply negb_false_iff, bool_decide_eq_true in Eb.
  apply (collects_skip _ _ _ _ lc); auto.
Qed.

(** Every server of the configuration is in the map, and nothing else. *)
Lemma configured boots exts m :
  getBrokerToListenerConfig boots exts = Ok m ->
  (forall v, v ∈ boots -> m !! cfg_BrokerAddress v = Some (FromListenerConfig v)) /\
  (forall v, v ∈ exts -> exists c, m !! cfg_BrokerAddress v = Some c /\
     AdvertisedAddress c = cfg_ListenerAddress v) /\
  (forall k c, m !! k = Some c ->
     exists v, v ∈ boots ++ exts /\ k = cfg_BrokerAddress v /\ c = FromListenerConfig v).
Proof.
  unfold getBrokerToListenerConfig. intros H.
  destruct (bootstrapServers boots ∅) as [mb|e|w] eqn:Eb; [|done..]. cbn [rbind] in H.
  destruct (externalServers exts ∅) as [me|e|w] eqn:Ee; [|done..]. cbn [rbind] in H.
  apply bootstrapServers_spec in Eb as (_ & Hb & Kb). apply externalServers_spec in Ee as (_ & He & Ke).
  apply mergeExternal_spec in H as (Hm & Hx & Kx).
  assert (forall v, v ∈ snd <$> map_to_list me <-> exists k, me !! k = Some v) as Hme.
  { intros v. rewrite list_elem_of_fmap. split.
    - intros ([k w] & -> & Hw%elem_of_map_to_list). by exists k.
    - intros [k Hk]. exists (k, v). split; [done|]. by apply elem_of_map_to_list. }
  split_and!.
  - intros v Hv. destruct (Hb v Hv) as (c & Hc & Hl & Ha).
    apply (lookup_weaken _ _ _ _ Hc) in Hm. rewrite Hm. f_equal.
    destruct (Kb _ _ Hc) as [?|(w & _ & _ & Ew & ->)]; [done|]. unfold FromListenerConfig in *.
    cbn in Hl, Ha. congruence.
  - intros v Hv. destruct (He v Hv) as (c & Hc & Hl).
    destruct (Ke _ _ Hc) as [?|(w & _ & Ela & Ek & ->)]; [done|]. unfold id in *.
    destruct (Hx w) as (c' & Hc' & Ha); [apply Hme; eauto|]. exists c'. rewrite Ek, Hc'. split; [done|congruence].
  - intros k c Hc. destruct (Kx k c Hc) as [Hk|(v & Hv & _ & -> & ->)].
    + destruct (Kb k c Hk) as [?|(v & Hv & _ & -> & ->)]; [done|]. exists v. by rewrite elem_of_app; auto.
    + apply Hme in Hv as [k Hk]. destruct (Ke k v Hk) as [?|(w & Hv & _ & _ & ->)]; [done|].
      exists w. by rewrite elem_of_app; auto.
Qed.

Section listeners.
Context {X : Type} (listenFunc : bytes -> M X Z) (renderTemplate : bytes -> Z -> res bytes) (p : Listeners).
Context (Accept : nat -> X -> (conn + error) * X) (Close : nat -> X -> X).
Implicit Types s : state X.
Local Notation mapping := (GetNetAddressMapping listenFunc renderTemplate p).

(** ** The states of a running proxy *)

(** From a start that succeeded on: mapping calls, rewritten responses of every
    kind, turns of the running accept loops, and other programs that change the
    operating system. *)
Inductive reached (m : gmap bytes ListenerConfig) (servers : list config_ListenerConfig) : state X -> Prop :=
  | reached_start x s : ListenInstances listenFunc servers (initial_state m x) = (Ok tt, s) -> reached m servers s
  | reached_mapping host port id s : reached m servers s -> reached m servers (snd (mapping host port id s))
  | reached_response k v f resp s :
      reached m servers s -> GetResponseModifier k v (Some mapping) = Ok (Some f) ->
      reached m servers (snd (Apply f (Some resp) s))
  | reached_accept i s :
      reached m servers s -> i ∈ instances s -> reached m servers (snd (acceptTurn Accept Close i s))
  | reached_os x s : reached m servers s -> reached m servers (set_os x s).

Context (ports : forall a x n x', listenFunc a x = (Ok n, x') -> 0 <= n < 2 ^ 16).

(** The configured servers are in the map, as configured. *)
Definition has_configured (m : gmap bytes ListenerConfig) s : Prop := forall k c,
  m !! k = Some c -> exists i, brokerToListenerConfig s !! k = Some i /\ configs s !! i = Some c.

Lemma has_configured_initial m (x : X) : has_configured m (initial_state m x).
Proof.
  intros k c Hk. apply elem_of_map_to_list, list_elem_of_lookup_1 in Hk as [i Hi]. exists i. cbn. split.
  - apply elem_of_list_to_map_1.
    + rewrite fmap_imap. cbn.
      replace (imap (fun n => fst ∘ (fun e : bytes * ListenerConfig => (fst e, n))) (map_to_list m))
        with (map_to_list m).*1; [apply NoDup_fst_map_to_list|].
      apply list_eq. intros j. by rewrite list_lookup_imap, list_lookup_fmap.
    + apply elem_of_lookup_imap. by exists i, (k, c).
  - by rewrite list_lookup_fmap, Hi.
Qed.

Lemma has_configured_kept m s s' :
  (forall k c, m !! k = Some c -> BrokerID c < 0) -> kept p s s' -> has_configured m s -> has_configured m s'.
Proof.
  intros Hm Hk Hc k c H. destruct (Hc k c H) as (i & Hi & Hci). exists i. apply Hk; eauto.
Qed.

Lemma has_configured_ListenInstances m cfgs s :
  has_configured m s -> has_configured m (snd (ListenInstances listenFunc cfgs s)).
Proof.
  revert s. induction cfgs as [|v cfgs IH]; intros s Hc; [done|].
  cbn [ListenInstances]. unfold bind at 1, new_config, bind at 1, listenInstance. cbn [configs].
  rewrite lookup_app_r, Nat.sub_diag by lia. cbn [lookup list_lookup].
  destruct (listenFunc _ _) as [[n|e|w] x]; [apply IH|..]; intros k c H;
    destruct (Hc k c H) as (i & Hi & Hci); exists i; split; [done|by apply lookup_old|done|by apply lookup_old
    |done|by apply lookup_old].
Qed.

(** The listeners keep their invariant, the configured servers and their loops;
    a loop ends only when its [Accept] fails. *)
Record listening (m : gmap bytes ListenerConfig) (servers : list config_ListenerConfig) s : Prop := {
  l_consistent : consistent p (size m) s;
  l_configured : has_configured m s;
  l_own : forall v, v ∈ servers -> exists i, own_loop i (FromListenerConfig v) s;
  l_loops : loops_ok s;
  l_closed : (forall i x e x', Accept i x <> (inr e, x')) -> closedListeners s = []
}.

Lemma listening_mapping m servers host port id :
  (forall k c, m !! k = Some c -> BrokerID c < 0) -> preserves (listening m servers) (mapping host port id).
Proof.
  intros Hm s [H1 H2 H3 H4 H5].
  pose proof (consistent_GetNetAddressMapping listenFunc renderTemplate p ports _ host port id s H1) as Hc.
  destruct (mapping host port id s) as [r s'] eqn:E. cbn [snd] in *.
  destruct (keeps_own_GetNetAddressMapping listenFunc renderTemplate p ports _ _ _ _ _ _ _ H1 E) as (K1 & K2 & K3).
  split; [exact Hc| | |by apply K3|by rewrite K2].
  - apply (has_configured_kept m s); [done| |done]. by eapply kept_GetNetAddressMapping.
  - intros v Hv. destruct (H3 v Hv) as [i Hi]. exists i. by apply K1.
Qed.

Lemma listening_start m servers x s :
  (forall k c, m !! k = Some c -> BrokerAddress c = k /\ BrokerID c = UnknownBrokerID) ->
  ListenInstances listenFunc servers (initial_state m x) = (Ok tt, s) -> listening m servers s.
Proof.
  intros Hm H. pose proof (consistent_initial p m x Hm) as Hc. cbn in Hc. rewrite length_fmap, length_map_to_list in Hc.
  destruct (ListenInstances_Ok listenFunc p _ _ _ _ Hc H) as [(K1 & K2 & K3) Hv].
  pose proof (consistent_ListenInstances listenFunc p _ servers _ Hc) as Hc'.
  pose proof (has_configured_ListenInstances m servers _ (has_configured_initial m x)) as Hh. rewrite H in Hc', Hh.
  split; [exact Hc'|exact Hh|exact Hv| |by rewrite K2].
  apply K3. split; [constructor|]. intros i. cbn. by intros ?%not_elem_of_nil.
Qed.

Lemma listening_acceptTurn m servers i s :
  listening m servers s -> i ∈ instances s -> listening m servers (snd (acceptTurn Accept Close i s)).
Proof.
  intros [H1 H2 H3 H4 H5] Hi. destruct (acceptTurn_keeps Accept Close i s) as (E1 & E2 & Hj). split.
  - by apply consistent_acceptTurn.
  - intros k c Hk. rewrite E1, E2. by apply H2.
  - intros v Hv. destruct (H3 v Hv) as (j & Hc & Hk & Hl). exists j. unfold own_loop. rewrite E1, E2. split_and!; [done..|by apply Hj].
  - by apply loops_ok_acceptTurn.
  - intros HA. rewrite <- (H5 HA). unfold acceptTurn. destruct (Accept i (os s)) as [[conn|e] x] eqn:EA; [by destruct (configs s !! i)|].
    by apply HA in EA.
Qed.

Lemma reached_listening m servers s :
  (forall k c, m !! k = Some c -> BrokerAddress c = k /\ BrokerID c = UnknownBrokerID) ->
  reached m servers s -> listening m servers s.
Proof.
  intros Hm H.
  assert (forall k c, m !! k = Some c -> BrokerID c < 0) as Hneg
    by (intros k c Hc; destruct (Hm k c Hc) as [_ ->]; done).
  induction H as [x s Hs|host port id s _ IH|k v f resp s _ IH Hf|i s _ IH Hi|x s _ [[H1 H2 H3 H4] Hh Ho Hl Hcl]].
  - by eapply listening_start.
  - by apply listening_mapping.
  - apply (preserves_Apply (listening m servers) k v mapping f resp Hf); [|done]. intros. by apply listening_mapping.
  - by apply listening_acceptTurn.
  - split; [by split|exact Hh|exact Ho|exact Hl|exact Hcl].
Qed.

(** What the next turn of the loop [i] does: a connection that it accepts goes
    to [b]; after an error its listener is closed, the loop is over, and the
    map stays as it is. *)
Definition serves (i : nat) (b : bytes) s : Prop :=
  let '(r, s') := acceptTurn Accept Close i s in
  match Accept i (os s) with
  | (inl conn, x) => r = Ok (Some (b, conn)) /\ s' = set_os x s
  | (inr _, x) =>
      r = Ok None /\ os s' = Close i x /\ brokerToListenerConfig s' = brokerToListenerConfig s /\
      i ∉ instances s' /\ i ∈ closedListeners s'
  end.

Lemma serves_configured i c s : configs s !! i = Some c -> serves i (BrokerAddress c) s.
Proof.
  intros Hc. pose proof (acceptTurn_spec Accept Close i s c Hc) as H. unfold serves.
  destruct (Accept i (os s)) as [[conn|e] x]; [by rewrite H|].
  destruct H as (s' & -> & H1 & _ & H2 & H3 & H4). done.
Qed.

(** C28: whatever the proxy did since it started (brokers announced to clients
    in responses of every kind, mapping calls that failed half-way, ports
    refused by the system, connections accepted, listeners that failed to
    accept): every address in the map has a listener configuration of that
    broker address, and if it is a dynamic one, its accept loop runs or is one
    that ended after a failed [Accept]; every server listened on at start has a
    loop of its own, over its own configuration, in one of these two states; a
    loop that runs sends what it accepts to the broker of its configuration, or
    closes its listener after an error and ends, still in the map; no loop runs
    twice or after its end, and if [Accept] never fails none has ended; with
    deterministic listeners no broker id has two addresses; and every bootstrap
    server of the configuration is still in the map, unchanged. *)
Theorem listeners_stay_consistent boots exts m servers s :
  getBrokerToListenerConfig boots exts = Ok m -> reached m servers s ->
  (forall k i, brokerToListenerConfig s !! k = Some i ->
     BrokerAddress <$> configs s !! i = Some k /\
     ((size m <= i)%nat -> i ∈ instances s \/ i ∈ closedListeners s)) /\
  (forall v, v ∈ servers -> exists i,
     configs s !! i = Some (FromListenerConfig v) /\ (forall k, brokerToListenerConfig s !! k <> Some i) /\
     (i ∈ instances s \/ i ∈ closedListeners s)) /\
  (forall i, i ∈ instances s -> exists c, configs s !! i = Some c /\ serves i (BrokerAddress c) s) /\
  NoDup (instances s ++ closedListeners s) /\
  ((forall i x e x', Accept i x <> (inr e, x')) -> closedListeners s = []) /\
  (deterministicListeners p = true -> forall k k' i i' c c',
     brokerToListenerConfig s !! k = Some i -> brokerToListenerConfig s !! k' = Some i' ->
     configs s !! i = Some c -> configs s !! i' = Some c' ->
     BrokerID c = BrokerID c' -> 0 <= BrokerID c -> k = k') /\
  (forall v, v ∈ boots -> exists i,
     brokerToListenerConfig s !! cfg_BrokerAddress v = Some i /\ configs s !! i = Some (FromListenerConfig v)).
Proof.
  intros Hm H. destruct (configured boots exts m Hm) as (Hb & _ & Hk).
  assert (listening m servers s) as [Hc Hh Ho [Hn Hl] Hcl]
    by (apply reached_listening; [|done]; intros k c Hc; by destruct (Hk k c Hc) as (v & _ & -> & ->)).
  split_and!; [| | |done|done|exact (unique p _ s Hc)|].
  - intros k i Hi. destruct (named p _ s Hc k i Hi) as (c & Hci & <-). rewrite Hci. split; [done|].
    by apply (running p _ s Hc _ i Hi).
  - exact Ho.
  - intros i Hi. destruct (lookup_lt_is_Some_2 (configs s) i) as [c Hci]; [apply Hl, elem_of_app; by left|].
    exists c. split; [done|]. by apply serves_configured.
  - intros v Hv. by apply Hh, Hb.
Qed.

(** An address the mapping returns for a broker is either the SNI listener
    under the name configured for that broker, or the advertised address of a
    listener whose connections go to that broker, and which is running if it is
    not one of the [n] configured ones.*)
Theorem mapping_leads_to_broker n host port id s h ap s' b :
  b = JoinHostPort host (Itoa port) ->
  consistent p n s -> mapping host port id s = (Ok (h, ap), s') ->
  host <> [] /\ 0 < port /\
  (sniAddress p b = Some (h, ap) /\ s' = s \/
   exists i c, brokerToListenerConfig s' !! b = Some i /\ configs s' !! i = Some c /\
     BrokerAddress c = b /\ ((n <= i)%nat -> i ∈ instances s' \/ i ∈ closedListeners s') /\
     (bracketless h -> SplitHostPort (AdvertisedAddress c) = Ok (h, ap))).
Proof.
  intros -> Hc H. destruct (GetNetAddressMapping_Ok listenFunc renderTemplate p ports n _ _ _ _ _ _ _ Hc H)
    as (Hh & Hp & [(_ & Hs & ->)|(i & c & Hi & Hci & Hb & Hrun & Ha)]); split_and!; try done; [by left|].
  right. exists i, c. split_and!; try done.
  intros Hbr. destruct Ha as [?|(q & Hq & -> & ->)]; [done|]. by apply SplitHostPort_JoinHostPort.
Qed.

(** Without deterministic listeners, a broker keeps the address it was given:
    a later call for it, after any calls for it and for other brokers, returns
    the same and starts nothing.*)
Theorem mapping_is_stable n host port id id' s h ap s1 l :
  consistent p n s -> deterministicListeners p = false -> bracketless h ->
  mapping host port id s = (Ok (h, ap), s1) ->
  let s2 := calls listenFunc renderTemplate p l s1 in
  mapping host port id' s2 = (Ok (h, ap), s2).
Proof.
  intros Hc Hd Hbr H s2. set (b := JoinHostPort host (Itoa port)).
  assert (consistent p n s1) as Hc1.
  { pose proof (consistent_GetNetAddressMapping listenFunc renderTemplate p ports n host port id s Hc) as Hc1.
    by rewrite H in Hc1. }
  destruct (calls_spec listenFunc renderTemplate p ports n l s1 Hc1) as (Hc2 & Hk & Hn). fold s2 in Hc2, Hk, Hn.
  pose proof (GetNetAddressMapping_Ok listenFunc renderTemplate p ports n _ _ _ _ _ _ _ Hc H) as HX.
  cbv zeta in HX. fold b in HX. destruct HX as (Hh & Hp & [(HN & Hs & ->)|(i & c & Hi & Hci & Hb & Hrun & Ha)]).
  - unfold GetNetAddressMapping. rewrite bool_decide_false by done.
    replace (port <=? 0) with false by (symmetry; apply Z.leb_gt; lia). cbn [orb]. unfold bind at 1, get.
    fold b. by rewrite Hn, Hs by eauto.
  - destruct (Hk b i c Hi Hci (or_introl Hd)) as [Hi' Hci'].
    eapply (GetNetAddressMapping_again listenFunc renderTemplate p n); try done.
    exists i, c. split_and!; try done. by apply (running p n s2 Hc2 b).
Qed.

(** With deterministic listeners, a broker that announces a new address keeps
    its listener: nothing is started, clients keep the advertised address, the
    connections of the same accept loop now go to the new address, the old
    address is no longer mapped, and no other entry changes.*)
Theorem deterministic_listener_follows n host port id s b i c portOfId :
  consistent p n s -> deterministicListeners p = true -> disableDynamicListeners p = false ->
  brokerToListenerConfig s !! b = Some i -> configs s !! i = Some c -> BrokerID c = id -> 0 <= id ->
  nextDynamicPort p id = Ok portOfId -> host <> [] -> 0 < port ->
  let b' := JoinHostPort host (Itoa port) in
  brokerToListenerConfig s !! b' = None -> sniAddress p b' = None ->
  let '(r, s') := mapping host port id s in
  r = SplitHostPort (AdvertisedAddress c) /\
  BrokerAddress <$> configs s' !! i = Some b' /\ brokerToListenerConfig s' !! b' = Some i /\
  brokerToListenerConfig s' !! b = None /\
  (forall k, k <> b -> k <> b' -> brokerToListenerConfig s' !! k = brokerToListenerConfig s !! k) /\
  (forall j, j <> i -> configs s' !! j = configs s !! j) /\
  instances s' = instances s /\ closedListeners s' = closedListeners s /\ os s' = os s.
Proof.
  intros Hc Hd Hdis Hb Hci Hid Hpos Hport Hh Hp b' Hb' Hs.
  assert (mapping host port id s = moveListener b' i c s) as ->.
  { unfold GetNetAddressMapping. rewrite bool_decide_false by done.
    replace (port <=? 0) with false by (symmetry; apply Z.leb_gt; lia). cbn [orb]. unfold bind at 1, get.
    fold b'. rewrite Hb', Hs, Hdis. cbn [negb]. unfold ListenDynamicInstance, bind at 1, get. rewrite Hb', Hd.
    replace (id <? 0) with false by (symmetry; apply Z.ltb_ge; lia). unfold bind, lift. rewrite Hport.
    destruct (findListenerConfig id s) as [[j c']|] eqn:Ef.
    - destruct (findListenerConfig_Some _ _ _ _ Ef) as (k & Hk & Hcj & Hidj).
      assert (k = b) as -> by (eapply (unique p n s Hc Hd); try done; lia). congruence.
    - by destruct (findListenerConfig_None _ _ _ _ _ Ef Hb Hci). }
  destruct (named p n s Hc b i Hb) as (c0 & Hc0 & Hn). assert (c0 = c) as -> by congruence.
  assert (BrokerAddress c <> b') as Hne by congruence.
  assert (os (snd (moveListener b' i c s)) = os s) as Hos
    by (unfold moveListener; by rewrite bool_decide_false).
  destruct (moveListener b' i c s) as [r s'] eqn:Em.
  apply (moveListener_inv b' i c s r s' Hne) in Em as (-> & E1 & Em & Ei & Ecl).
  rewrite Em, E1, Ei, Ecl, Hn, lookup_insert_eq, lookup_insert_ne, lookup_delete_eq, list_lookup_alter_eq, Hci by congruence.
  split_and!; try done.
  - intros k Hk Hk'. by rewrite lookup_insert_ne, lookup_delete_ne by done.
  - intros j Hj. by rewrite list_lookup_alter_ne.
Qed.

(** The port asked of the system for a new broker. *)
Definition requested_port (id : Z) s : res Z :=
  if deterministicListeners p then nextDynamicPort p id
  else if dynamicSequentialMinPort p =? 0 then Ok 0
  else nextDynamicPort p (currentDynamicPortCounter s).

(** A broker that is not mapped yet gets a listener of its own: the proxy
    listens on the port of its allocation scheme, the port the system gives is
    returned with the proxy's address, the accept loop sends the connections to
    that broker, and the sequential counter advances by one exactly if it was
    used.*)
Theorem new_broker_gets_listener host port id s q x' n :
  let b := JoinHostPort host (Itoa port) in
  brokerToListenerConfig s !! b = None -> sniAddress p b = None ->
  host <> [] -> 0 < port -> disableDynamicListeners p = false -> dynamicAdvertisedListener p = [] ->
  (deterministicListeners p = true -> 0 <= id /\ findListenerConfig id s = None) ->
  requested_port id s = Ok q ->
  listenFunc (JoinHostPort (defaultListenerIP p) (Itoa q)) (os s) = (Ok n, x') ->
  let address := JoinHostPort (defaultListenerIP p) (Itoa n) in
  mapping host port id s =
    (Ok (defaultListenerIP p, n),
     {| configs := configs s ++ [NewListenerConfig b address address id];
        brokerToListenerConfig := <[b := length (configs s)]> (brokerToListenerConfig s);
        currentDynamicPortCounter :=
          if deterministicListeners p || (dynamicSequentialMinPort p =? 0) then currentDynamicPortCounter s
          else uint64 (currentDynamicPortCounter s + 1);
        instances := instances s ++ [length (configs s)]; closedListeners := closedListeners s;
        os := x' |}).
Proof.
  intros b Hb Hs Hh Hp Hdis Ht Hdet Hq Hl address.
  assert (int32 n = n) as Hn by (apply wrapS_id; apply ports in Hl; unfold inS; lia).
  assert (forall s0, brokerToListenerConfig s0 = brokerToListenerConfig s -> configs s0 = configs s ->
    instances s0 = instances s -> closedListeners s0 = closedListeners s -> os s0 = os s ->
    startDynamic listenFunc renderTemplate p b id (JoinHostPort (defaultListenerIP p) (Itoa q)) s0 =
    (Ok (defaultListenerIP p, n),
     {| configs := configs s ++ [NewListenerConfig b address address id];
        brokerToListenerConfig := <[b := length (configs s)]> (brokerToListenerConfig s);
        currentDynamicPortCounter := currentDynamicPortCounter s0;
        instances := instances s ++ [length (configs s)]; closedListeners := closedListeners s; os := x' |})) as Hstart.
  { intros s0 E1 E2 E3 E5 E4. unfold startDynamic, bind at 1, new_config, bind at 1, listenInstance.
    cbn [configs]. rewrite lookup_app_r, Nat.sub_diag by lia. cbn [lookup list_lookup ListenerAddress NewListenerConfig os].
    rewrite E4, Hl. unfold getDynamicAdvertisedAddress. rewrite bool_decide_true by done.
    unfold bind, lift, update_config, modify, ret, set_map, set_loops, set_os. cbn [configs brokerToListenerConfig instances closedListeners os currentDynamicPortCounter].
    rewrite alter_app_r_alt, Nat.sub_diag, Hn by lia. cbn [alter list_alter]. by rewrite E1, E2, E3, E5. }
  unfold GetNetAddressMapping. rewrite bool_decide_false by done.
  replace (port <=? 0) with false by (symmetry; apply Z.leb_gt; lia). cbn [orb]. unfold bind at 1, get.
  fold b. rewrite Hb, Hs, Hdis. cbn [negb]. unfold ListenDynamicInstance, bind at 1, get. rewrite Hb.
  unfold requested_port in Hq. destruct (deterministicListeners p) eqn:Ed.
  - destruct (Hdet eq_refl) as [Hid Hf]. replace (id <? 0) with false by (symmetry; apply Z.ltb_ge; lia).
    unfold bind, lift. rewrite Hq, Hf. by apply Hstart.
  - destruct (dynamicSequentialMinPort p =? 0) eqn:Em.
    + injection Hq as <-. by apply Hstart.
    + unfold bind, lift, modify. rewrite Hq. by apply (Hstart (set_counter _ s)).
Qed.

(** The dynamic ports are exactly those of the half open interval
    [min, min + max), in the order of the offset and starting over after [max];
    instead of a port beyond 65535 there is an error; two offsets below [max]
    never give the same port.*)
Theorem nextDynamicPort_bounds off port :
  0 <= dynamicSequentialMinPort p < 2 ^ 16 -> 0 <= dynamicSequentialMaxPorts p < 2 ^ 16 -> 0 <= off ->
  (nextDynamicPort p off = Ok port <->
   0 < dynamicSequentialMaxPorts p /\ port < 2 ^ 16 /\
   port = dynamicSequentialMinPort p + off mod dynamicSequentialMaxPorts p) /\
  (forall off', 0 <= off' -> off < dynamicSequentialMaxPorts p -> off' < dynamicSequentialMaxPorts p ->
   nextDynamicPort p off = Ok port -> nextDynamicPort p off' = Ok port -> off = off').
Proof.
  intros Hmin Hmax Hoff.
  assert (forall o, 0 <= o -> nextDynamicPort p o = Ok port <->
    0 < dynamicSequentialMaxPorts p /\ port < 2 ^ 16 /\
    port = dynamicSequentialMinPort p + o mod dynamicSequentialMaxPorts p) as H.
  { intros o Ho. unfold nextDynamicPort.
    destruct (Z.eqb_spec (dynamicSequentialMaxPorts p) 0) as [->|Hz]; [split; [done|lia]|].
    pose proof (Z.mod_pos_bound o (dynamicSequentialMaxPorts p) ltac:(lia)).
    unfold uint16, wrapU. set (a := o mod _) in *. rewrite (Z.mod_small a) by lia.
    destruct (Z.lt_ge_cases (dynamicSequentialMinPort p + a) (2 ^ 16)).
    - rewrite Z.mod_small by lia. rewrite (proj2 (Z.ltb_ge _ _)) by lia. split; [intros [= <-]; lia|].
      intros (_ & _ & ->). done.
    - rewrite <- (Z.mod_unique _ (2 ^ 16) 1 (dynamicSequentialMinPort p + a - 2 ^ 16)) by lia.
      rewrite (proj2 (Z.ltb_lt _ _)) by lia. split; [done|lia]. }
  split; [by apply H|]. intros off' Hoff' Hlt Hlt' (_ & _ & E)%H (_ & _ & E')%H; [|done..].
  rewrite Z.mod_small in E, E' by lia. lia.
Qed.

End listeners.

(** The configured servers: with a configuration that is accepted, every
    bootstrap server is mapped as configured, every external server is
    advertised under its listener address, and nothing else is mapped; so two
    bootstrap servers of one broker agree, and an external one agrees with the
    bootstrap server of its broker.*)
Theorem getBrokerToListenerConfig_spec boots exts m :
  getBrokerToListenerConfig boots exts = Ok m ->
  (forall v, v ∈ boots -> m !! cfg_BrokerAddress v = Some (FromListenerConfig v)) /\
  (forall v, v ∈ exts -> exists c, m !! cfg_BrokerAddress v = Some c /\
     AdvertisedAddress c = cfg_ListenerAddress v) /\
  (forall k c, m !! k = Some c ->
     exists v, v ∈ boots ++ exts /\ k = cfg_BrokerAddress v /\ c = FromListenerConfig v) /\
  (forall v w, v ∈ boots -> w ∈ boots -> cfg_BrokerAddress v = cfg_BrokerAddress w -> v = w) /\
  (forall v w, v ∈ boots -> w ∈ exts -> cfg_BrokerAddress v = cfg_BrokerAddress w ->
     cfg_AdvertisedAddress v = cfg_ListenerAddress w).
Proof.
  intros H. destruct (configured boots exts m H) as (Hb & He & Hk). split_and!; try done.
  - intros v w Hv Hw E. apply Hb in Hv. apply Hb in Hw. rewrite E, Hw in Hv. injection Hv as E1 E2.
    destruct v, w; simpl in *; congruence.
  - intros v w Hv Hw E. apply Hb in Hv. destruct (He w Hw) as (c & Hc & <-). rewrite E, Hc in Hv.
    by injection Hv as ->.
Qed.

(** Host and port survive the way through an address: what the proxy joins,
    clients and the proxy itself split again, IPv6 hosts included; and distinct
    brokers never share a key of the map.*)
Theorem SplitHostPort_roundtrip host host' n n' :
  bracketless host -> bracketless host' -> inS 32 n -> inS 32 n' ->
  SplitHostPort (JoinHostPort host (Itoa n)) = Ok (host, n) /\
  (JoinHostPort host (Itoa n) = JoinHostPort host' (Itoa n') -> host = host' /\ n = n').
Proof.
  intros Hh Hh' Hn Hn'. split; [|by apply JoinHostPort_inj].
  rewrite SplitHostPort_JoinHostPort; [|done|unfold inS in *; lia]. by rewrite wrapS_id.
Qed.

(** ** Witnesses *)

(** A system that gives the port it is asked for, or else the next free one. *)
Definition example_listen : bytes -> M Z Z := fun address free =>
  match SplitHostPort address with
  | Ok (_, n) =>
      if n =? 0 then (Ok (free mod 2 ^ 16), free + 1)
      else if (0 <? n) && (n <? 2 ^ 16) then (Ok n, free) else (Err (Errorf "bind"), free)
  | _ => (Err (Errorf "bad address"), free)
  end.
Definition example_render : bytes -> Z -> res bytes := fun template _ => Ok template.

Lemma example_ports a x n x' : example_listen a x = (Ok n, x') -> 0 <= n < 2 ^ 16.
Proof.
  unfold example_listen. destruct (SplitHostPort a) as [[h q]|e|w]; [|done..].
  destruct (Z.eqb_spec q 0); [intros [= <- _]; apply Z.mod_pos_bound; lia|].
  destruct (_ && _) eqn:E; [|done]. intros [= <- _].
  apply andb_true_iff in E as [E1%Z.ltb_lt E2%Z.ltb_lt]. lia.
Qed.

Definition example_listeners (deterministic : bool) : Listeners :=
  {| defaultListenerIP := $"10.0.0.1"; dynamicAdvertisedListener := [];
     deterministicListeners := deterministic; disableDynamicListeners := false;
     dynamicSequentialMinPort := 32400; dynamicSequentialMaxPorts := 100;
     brokerToSNIMapping := ∅; sniListenerAddress := [] |}.
Definition example_server : config_ListenerConfig :=
  {| cfg_BrokerAddress := $"b0:9092"; cfg_ListenerAddress := $"10.0.0.1:32000";
     cfg_AdvertisedAddress := $"10.0.0.1:32000" |}.
Definition example_external : config_ListenerConfig :=
  {| cfg_BrokerAddress := $"b9:9092"; cfg_ListenerAddress := $"proxy9:32000";
     cfg_AdvertisedAddress := $"proxy9:32000" |}.
Definition example_map : gmap bytes ListenerConfig :=
  <[$"b9:9092" := FromListenerConfig example_external]> {[$"b0:9092" := FromListenerConfig example_server]}.
(** Connections are accepted, until the system is out of file descriptors. *)
Definition example_Accept : nat -> Z -> (conn + error) * Z := fun _ x =>
  (if x =? 0 then inr (Errorf "accept: too many open files")
   else inl {| rx := []; rx_end := Errorf "EOF"; tx := []; tx_err := None; deadline_err := None |}, x).
Definition example_Close : nat -> Z -> Z := fun _ x => x.
Definition example_boot : state Z := snd (ListenInstances example_listen [example_server] (initial_state example_map 40000)).
(** Broker 3 has been announced. *)
Definition example_running (deterministic : bool) : state Z :=
  snd (GetNetAddressMapping example_listen example_render (example_listeners deterministic) ($"b3") 9092 3 example_boot).
(** The listener of broker 3 has failed to accept. *)
Definition example_failed (deterministic : bool) : state Z :=
  snd (acceptTurn example_Accept example_Close 3 (set_os 0 (example_running deterministic))).

Lemma example_reached deterministic :
  reached example_listen example_render (example_listeners deterministic) example_Accept example_Close
    example_map [example_server] (example_failed deterministic).
Proof.
  apply reached_accept; [apply reached_os, reached_mapping, (reached_start _ _ _ _ _ _ _ 40000); vm_compute; reflexivity|].
  destruct deterministic; vm_compute; right; left.
Qed.

Lemma example_consistent deterministic :
  consistent (example_listeners deterministic) 2 (example_running deterministic).
Proof.
  apply consistent_GetNetAddressMapping; [exact example_ports|].
  apply (listening_start example_listen (example_listeners deterministic) example_Accept
           example_map [example_server] 40000 example_boot); [|vm_compute; reflexivity].
  unfold example_map. intros k c [[<- <-]|[_ [<- <-]%lookup_singleton_Some]]%lookup_insert_Some; done.
Qed.

Lemma getBrokerToListenerConfig_spec_witness :
  example_map !! ($"b0:9092") = Some (FromListenerConfig example_server).
Proof.
  destruct (getBrokerToListenerConfig_spec [example_server] [example_external] example_map) as [H _].
  - reflexivity.
  - apply (H example_server). left.
Defined.

(** After the failed [Accept] the broker is still mapped to the ended loop. *)
Lemma listeners_stay_consistent_witness :
  let s := example_failed true in
  brokerToListenerConfig s !! ($"b3:9092") = Some 3%nat /\
  BrokerAddress <$> configs s !! 3%nat = Some ($"b3:9092") /\ 3%nat ∈ closedListeners s /\
  exists i, configs s !! i = Some (FromListenerConfig example_server) /\ (i ∈ instances s \/ i ∈ closedListeners s).
Proof.
  intros s.
  destruct (listeners_stay_consistent example_listen example_render (example_listeners true) example_Accept example_Close
              example_ports [example_server] [example_external] example_map [example_server] s) as (H & Hs & _).
  - reflexivity.
  - apply example_reached.
  - split; [vm_compute; reflexivity|]. destruct (H ($"b3:9092") 3%nat) as [H1 H2]; [vm_compute; reflexivity|].
    split; [exact H1|]. split.
    + destruct H2 as [Hi|Hi]; [vm_compute; lia| |exact Hi].
      exfalso. revert Hi. apply (bool_decide_eq_false_1 (3%nat ∈ instances s)). vm_compute. reflexivity.
    + destruct (Hs example_server) as (i & H3 & _ & H4); [left|]. exists i. split; [exact H3|exact H4].
Defined.

Lemma mapping_leads_to_broker_witness :
  exists i c, brokerToListenerConfig (example_running false) !! ($"b3:9092") = Some i /\
    configs (example_running false) !! i = Some c /\ BrokerAddress c = $"b3:9092".
Proof.
  destruct (mapping_leads_to_broker example_listen example_render (example_listeners false) example_ports 2
              ($"b3") 9092 3 (example_running false) ($"10.0.0.1") 32400 (example_running false) ($"b3:9092"))
    as (_ & _ & [[H _]|(i & c & H1 & H2 & H3 & _)]).
  - reflexivity.
  - apply example_consistent.
  - reflexivity.
  - discriminate H.
  - exists i, c. split; [exact H1|]. split; [exact H2|exact H3].
Defined.

(** Another broker is announced in between. *)
Lemma mapping_is_stable_witness :
  let s := calls example_listen example_render (example_listeners false) [(($"b4"), 9092, 4)] (example_running false) in
  GetNetAddressMapping example_listen example_render (example_listeners false) ($"b3") 9092 5 s =
  (Ok (($"10.0.0.1"), 32400), s).
Proof.
  apply (mapping_is_stable example_listen example_render (example_listeners false) example_ports 2
           ($"b3") 9092 3 5 (example_running false) ($"10.0.0.1") 32400 (example_running false) [(($"b4"), 9092, 4)]).
  - apply example_consistent.
  - reflexivity.
  - split; apply (bool_decide_eq_true_1 _); vm_compute; reflexivity.
  - reflexivity.
Defined.

(** Broker 3 moves to another host. *)
Lemma deterministic_listener_follows_witness :
  let '(r, s') := GetNetAddressMapping example_listen example_render (example_listeners true)
                    ($"c3") 9092 3 (example_running true) in
  r = Ok (($"10.0.0.1"), 32403) /\ BrokerAddress <$> configs s' !! 3%nat = Some ($"c3:9092").
Proof.
  pose proof (deterministic_listener_follows example_listen example_render (example_listeners true) 2
    ($"c3") 9092 3 (example_running true) ($"b3:9092") 3
    (NewListenerConfig ($"b3:9092") ($"10.0.0.1:32403") ($"10.0.0.1:32403") 3) 32403) as H.
  destruct (GetNetAddressMapping example_listen example_render (example_listeners true)
              ($"c3") 9092 3 (example_running true)) as [r s'].
  destruct H as (H1 & H2 & _).
  - apply example_consistent.
  - reflexivity.
  - reflexivity.
  - reflexivity.
  - reflexivity.
  - reflexivity.
  - lia.
  - reflexivity.
  - discriminate.
  - lia.
  - reflexivity.
  - reflexivity.
  - split; [|exact H2]. rewrite H1. vm_compute. reflexivity.
Defined.

Lemma new_broker_gets_listener_witness :
  fst (GetNetAddressMapping example_listen example_render (example_listeners false) ($"b4") 9092 4
         (example_running false)) = Ok (($"10.0.0.1"), 32401).
Proof.
  rewrite (new_broker_gets_listener example_listen example_render (example_listeners false) example_ports
             ($"b4") 9092 4 (example_running false) 32401 40000 32401).
  - reflexivity.
  - reflexivity.
  - reflexivity.
  - discriminate.
  - lia.
  - reflexivity.
  - reflexivity.
  - discriminate.
  - reflexivity.
  - reflexivity.
Defined.

(** The 101st offset starts over. *)
Lemma nextDynamicPort_bounds_witness : nextDynamicPort (example_listeners false) 100 = Ok 32400.
Proof.
  apply (nextDynamicPort_bounds (example_listeners false) 100 32400); [simpl; lia|simpl; lia|lia|].
  split; [simpl; lia|]. split; [lia|reflexivity].
Defined.

Lemma SplitHostPort_roundtrip_witness :
  SplitHostPort (JoinHostPort ($"::1") (Itoa 9092)) = Ok (($"::1"), 9092).
Proof.
  apply (SplitHostPort_roundtrip ($"::1") ($"b") 9092 1).
  - split; apply (bool_decide_eq_true_1 _); vm_compute; reflexivity.
  - split; apply (bool_decide_eq_true_1 _); vm_compute; reflexivity.
  - unfold inS. lia.
  - unfold inS. lia.
Defined.
