(* ===== verification/SaslProxy.v ===== *)
(** SASL authentication of the proxy to the brokers (proxy/sasl_by_proxy.go,
    sasl_scram.go, sasl_aws_msk_iam.go, sasl_gssapi.go).

    PLAIN, OAUTHBEARER and AWS_MSK_IAM run on the broker connection and on the
    state [X] of what is outside the program (the token plugin, the AWS
    signer).  SCRAM runs on the connection and on the correlation id of the
    [SASLSCRAMAuth] value, which all connections share; the conversation of the
    SCRAM library is a parameter.  GSSAPI is parametrised by the Kerberos
    library. *)
From Stdlib Require Import ZArith Lia Strings.Byte.
From stdpp Require Import base list strings gmap.
From S2P Require Import Prelude GoLib GoStrings OAuthBearer Encoder Decoder Errors Schema Messages Net NetAddr SaslLocal Auth.

Definition SASLSCRAM256 : bytes := $"SCRAM-SHA-256".
Definition SASLSCRAM512 : bytes := $"SCRAM-SHA-512".
Definition SASLSGSSAPI : bytes := $"GSSAPI".
Definition SASLIAMAAUTH : bytes := $"AWS_MSK_IAM".

(** ** Requests and replies on the wire *)

(** [bytes.Join([][]byte{sizeBuf, reqBuf}, nil)] *)
Definition sizePrefixed (reqBuf : bytes) : bytes := be_put 4 (uint32 (len reqBuf)) ++ reqBuf.

(** A write deadline, then the request with its size. *)
Definition sendSized (reqBuf : bytes) : M conn unit :=
  do* SetDeadline in Write (sizePrefixed reqBuf).

(** The header of a reply, then its payload: [length-4] is [uint32]
    arithmetic. *)
Definition payloadSize (header : bytes) : Z := uint32 (be_value (take 4 header) - 4).
Definition receivePayload (header_failed payload_failed : string) : M conn bytes :=
  let* header := wrapf (ReadFull 8) header_failed in
  wrapf (ReadFull_make (payloadSize header)) payload_failed.

Definition saslRequest {B} `{ProtocolBody B} (CorrelationID : Z) (clientID : bytes) (Body : B) : res bytes :=
  EncodeMessage (Request_encode {| CorrelationID := CorrelationID; ClientID := clientID; Body := Some Body |}).

(** ** [SASLHandshake] *)

Record SASLHandshake := { h_clientID : bytes; h_version : Z; h_mechanism : bytes }.

Definition handshakeRequest (b : SASLHandshake) : res bytes :=
  saslRequest 0 (h_clientID b) {| Version := h_version b; Mechanism := h_mechanism b |}.

Definition sendAndReceiveHandshake (b : SASLHandshake) : M conn unit :=
  let* reqBuf := lift (handshakeRequest b) in
  do* SetDeadline in
  do* wrapf (Write (sizePrefixed reqBuf)) "failed to send SASL handshake: %w" in
  do* SetDeadline in
  let* payload := receivePayload "failed to read SASL handshake header: %w"
                                 "failed to read SASL handshake payload: %w" in
  let* r := wrapf (lift (DecodeMessage payload SaslHandshakeResponseV0orV1_decode))
                  "failed to parse SASL handshake: %w" in
  if negb (shr_Err r =? KErrNoError) then fail (Wrapf (KafkaError (shr_Err r)) "invalid SASL Mechanism: %w")
  else ret tt.

(** ** [SASLPlainAuth] *)

Record SASLPlainAuth := { p_clientID : bytes; p_username : bytes; p_password : bytes }.

Definition plainHandshake (b : SASLPlainAuth) : SASLHandshake :=
  {| h_clientID := p_clientID b; h_version := 0; h_mechanism := SASLPlain |}.

Definition plainAuthBytes (b : SASLPlainAuth) : bytes :=
  let length := 1 + len (p_username b) + 1 + len (p_password b) in
  be_put 4 (uint32 length) ++ ([x00] ++ p_username b ++ [x00] ++ p_password b).

Definition sendSaslAuthenticatePlain (b : SASLPlainAuth) : M conn unit :=
  do* SetDeadline in
  do* wrapf (Write (plainAuthBytes b)) "failed to write SASL auth header: %w" in
  do* SetDeadline in
  fun c =>
    match ReadFull 4 c with
    | (Ok _, c') => (Ok tt, c')
    | (Err e, c') =>
        (Err (if decide (e = EOF) then Errorf "SASL/PLAIN auth for user %s failed"
              else Wrapf e "failed to read response while authenticating with SASL: %w"), c')
    | (Panic w, c') => (Panic w, c')
    end.

Definition sendAndReceiveSASLPlain (b : SASLPlainAuth) : M conn unit :=
  do* sendAndReceiveHandshake (plainHandshake b) in sendSaslAuthenticatePlain b.

(** ** [SASLOAuthBearerAuth] *)

Section oauth.
Context {X : Type}.

Record SASLOAuthBearerAuth := { o_clientID : bytes; o_tokenProvider : M X TokenResponse }.

Definition oauthHandshake (b : SASLOAuthBearerAuth) : SASLHandshake :=
  {| h_clientID := o_clientID b; h_version := 1; h_mechanism := SASLOAuthBearer |}.

Definition getOAuthBearerToken (b : SASLOAuthBearerAuth) : M X bytes :=
  let* resp := o_tokenProvider b in
  if negb (Success resp) then fail (Errorf "get sasl token failed with status: %d")
  else if bool_decide (Token resp = []) then fail (Errorf "get sasl token returned empty token")
  else ret (Token resp).

Definition oauthRequest (b : SASLOAuthBearerAuth) (token : bytes) : res bytes :=
  saslRequest 0 (o_clientID b) {| sar0_SaslAuthBytes := Some (ToBytes token [] ∅) |}.

Definition sendSaslAuthenticateOAuth (b : SASLOAuthBearerAuth) (token : bytes) : M conn unit :=
  let* reqBuf := lift (oauthRequest b token) in
  do* SetDeadline in
  do* wrapf (Write (sizePrefixed reqBuf)) "failed to send SASL auth request: %w" in
  do* SetDeadline in
  let* payload := receivePayload "failed to read SASL auth header: %w"
                                 "failed to read SASL auth payload: %w" in
  let* r := wrapf (lift (DecodeMessage payload SaslAuthenticateResponseV0_decode))
                  "failed to parse SASL auth response: %w" in
  if negb (sap0_Err r =? KErrNoError) then
    fail (Errorf "SASL authentication failed, error message is '%v'")
  else ret tt.

Definition sendAndReceiveSASLOAuth (b : SASLOAuthBearerAuth) : M (conn * X) unit :=
  let* token := on_ext (getOAuthBearerToken b) in
  do* on_conn (sendAndReceiveHandshake (oauthHandshake b)) in
  on_conn (sendSaslAuthenticateOAuth b token).

End oauth.
Arguments SASLOAuthBearerAuth : clear implicits.

(** ** [AwsMSKIamAuth] *)

Section aws.
Context {X : Type}.

(** [a.signer.SASLToken] drives the AWS SDK. *)
Record AwsMSKIamAuth := { a_clientID : bytes; SASLToken : bytes -> M X bytes }.

(** [a.write(conn, req)]; [reqBuf] is the outcome of encoding [req]. *)
Definition aws_write (reqBuf : res bytes) : M conn unit :=
  let* reqBuf := wrapf (lift reqBuf) "serializing request: %w" in
  do* wrapf SetDeadline "setting write deadline: %w" in
  wrapf (Write (sizePrefixed reqBuf)) "writing bytes: %w".

Definition aws_read : M conn bytes :=
  do* wrapf SetDeadline "setting read deadline: %w" in
  receivePayload "reading header: %w" "reading payload: %w".

Definition saslHandshake (a : AwsMSKIamAuth) : M conn unit :=
  do* wrapf (aws_write (saslRequest 0 (a_clientID a) {| Version := 1; Mechanism := SASLIAMAAUTH |}))
            "writing SASL handshake: %w" in
  let* payload := wrapf aws_read "reading SASL handshake: %w" in
  let* r := wrapf (lift (DecodeMessage payload SaslHandshakeResponseV0orV1_decode))
                  "parsing SASL handshake response: %w" in
  if negb (shr_Err r =? KErrNoError) then fail (Wrapf (KafkaError (shr_Err r)) "sasl handshake protocol error: %w")
  else ret tt.

Definition saslAuthenticate (a : AwsMSKIamAuth) (brokerString : bytes) : M (conn * X) unit :=
  match net_SplitHostPort brokerString with
  | Panic w => panic w
  | Err _ => fail (Errorf "failed to parse host/port: %v")
  | Ok (host, _) =>
      let* authBytes := fun s =>
        match on_ext (SASLToken a host) s with
        | (Err _, s') => (Err (Errorf "failed to generate SASL token %v"), s')
        | r => r
        end in
      do* wrapf (on_conn (aws_write (saslRequest 0 (a_clientID a) {| sar0_SaslAuthBytes := Some authBytes |})))
                "writing SASL authentication request: %w" in
      let* payload := wrapf (on_conn aws_read) "reading SASL authentication response: %w" in
      let* r := wrapf (lift (DecodeMessage payload SaslAuthenticateResponseV0_decode))
                      "parsing SASL authentication response: %w" in
      if negb (sap0_Err r =? KErrNoError) then
        fail (Wrapf (KafkaError (sap0_Err r)) "sasl authentication protocol error: %w")
      else ret tt
  end.

Definition sendAndReceiveSASLAws (a : AwsMSKIamAuth) (brokerString : bytes) : M (conn * X) unit :=
  do* wrapf (on_conn (saslHandshake a)) "handshake failed: %w" in
  wrapf (saslAuthenticate a brokerString) "authenticate failed: %w".

End aws.
Arguments AwsMSKIamAuth : clear implicits.

(** ** [SASLSCRAMAuth] *)

Section scram.

(** The client conversation of github.com/xdg-go/scram: [NewClient(username,
    password, "").NewConversation()] of the two hashes, [Step] and [Done]. *)
Context {Conversation : Type}.
Context (SHA256_NewConversation SHA512_NewConversation : bytes -> bytes -> res Conversation).
Context (Step : Conversation -> bytes -> res bytes * Conversation) (Done : Conversation -> bool).

Record SASLSCRAMAuth := { s_clientID : bytes; s_username : bytes; s_password : bytes; s_mechanism : bytes }.

(** The second component is [b.correlationID], an [int32]. *)
Abbreviation scram := (M (conn * Z)).

Definition next_correlationID : scram unit := modify (fun s => (fst s, int32 (snd s + 1))).
Definition correlationID : scram Z := fun s => (Ok (snd s), s).

Definition sendAndReceiveSASLHandshake (b : SASLSCRAMAuth) : scram unit :=
  let* buf := lift (saslRequest 0 (s_clientID b) {| Version := 1; Mechanism := s_mechanism b |}) in
  do* on_conn (sendSized buf) in
  do* next_correlationID in
  let* header := on_conn (ReadFull 8) in
  let* payload := on_conn (ReadFull_make (payloadSize header)) in
  let* r := lift (DecodeMessage payload SaslHandshakeResponseV0orV1_decode) in
  if negb (shr_Err r =? KErrNoError) then fail (KafkaError (shr_Err r)) else ret tt.

Definition sendSaslAuthenticateScram (b : SASLSCRAMAuth) (correlationID : Z) (msg : bytes) : scram unit :=
  let* buf := lift (saslRequest correlationID (s_clientID b) {| sar0_SaslAuthBytes := Some msg |}) in
  on_conn (sendSized buf).

Definition receiveSaslAuthenticateResponse (correlationID : Z) : scram bytes :=
  let* buf := on_conn (ReadFull 8) in
  let* header := lift (DecodeMessage buf ResponseHeader_decode) in
  if negb (rh_CorrelationID header =? correlationID) then
    fail (Errorf "correlation ID didn't match, wanted %d, got %d")
  else
    let* buf := on_conn (ReadFull_make (int32 (rh_Length header - 4))) in
    let* r := lift (DecodeMessage buf SaslAuthenticateResponseV0_decode) in
    if negb (sap0_Err r =? KErrNoError) then fail (KafkaError (sap0_Err r))
    else ret (default [] (sap0_SaslAuthBytes r)).

(** The loop until the conversation is done.  An iteration reads eight bytes
    or more, so one more than the bytes to come are enough iterations. *)
Fixpoint scramLoop (fuel : nat) (b : SASLSCRAMAuth) (conv : Conversation) (msg : bytes) : scram unit :=
  if Done conv then ret tt
  else
    match fuel with
    | O => panic "out of fuel"
    | S fuel' =>
        let* corr := correlationID in
        do* sendSaslAuthenticateScram b corr msg in
        do* next_correlationID in
        let* challenge := receiveSaslAuthenticateResponse corr in
        let '(r, conv') := Step conv challenge in
        let* msg' := lift r in
        scramLoop fuel' b conv' msg'
    end.

Definition newConversation (b : SASLSCRAMAuth) : res Conversation :=
  if bool_decide (s_mechanism b = SASLSCRAM256) then SHA256_NewConversation (s_username b) (s_password b)
  else if bool_decide (s_mechanism b = SASLSCRAM512) then SHA512_NewConversation (s_username b) (s_password b)
  else Err (Errorf "Invalid SCRAM specification provided: %s").

Definition sendAndReceiveSASLScram (b : SASLSCRAMAuth) : scram unit :=
  do* sendAndReceiveSASLHandshake b in
  let* conv := lift (newConversation b) in
  let '(r, conv') := Step conv [] in
  match r with
  | Err _ => fail (Errorf "failed to advance the SCRAM exchange: %s")
  | Panic w => panic w
  | Ok msg => fun s => scramLoop (S (length (rx (fst s)))) b conv' msg s
  end.

End scram.
