(* ===== verification/SaslProxyFacts.v ===== *)
(** The SASL clients of the proxy: what each method writes and reads on a
    healthy connection, and what the local SASL server makes of it. *)
From Stdlib Require Import ZArith Lia Strings.Byte.
From stdpp Require Import base list strings gmap.
From S2P Require Import Prelude GoLib GoStrings NetAddr OAuthBearer OAuthFacts Encoder Decoder Errors Schema SchemaFacts Messages Net SaslLocal Auth SaslFacts SaslProxy.

(** ** Healthy connections *)

(** Deadlines can be set and writes succeed. *)
Definition healthy (c : conn) : Prop := deadline_err c = None /\ tx_err c = None.

(** The connection after it has sent [b]. *)
Definition sent (b : bytes) (c : conn) : conn := set_tx (tx c ++ b) None c.

Lemma healthy_fed b c : healthy c -> healthy (fed b c).
Proof. done. Qed.
Lemma healthy_sent b c : healthy c -> healthy (sent b c).
Proof. by intros [H _]. Qed.
Lemma sent_fed a b c : sent a (fed b c) = fed b (sent a c).
Proof. done. Qed.
Lemma sent_sent a b c : sent b (sent a c) = sent (a ++ b) c.
Proof. unfold sent, set_tx. cbn [tx rx rx_end deadline_err]. by rewrite <- app_assoc. Qed.

Lemma sent_nil c : healthy c -> sent [] c = c.
Proof. intros [_ H]. unfold sent, set_tx. rewrite app_nil_r, <- H. by destruct c. Qed.

Lemma SetDeadline_healthy c : healthy c -> SetDeadline c = (Ok tt, c).
Proof. intros [H _]. unfold SetDeadline. by rewrite H. Qed.
Lemma Write_healthy b c : healthy c -> Write b c = (Ok tt, sent b c).
Proof. intros [_ H]. unfold Write. by rewrite H. Qed.

Lemma ReadFull_fed' n b c : length b = n -> ReadFull n (fed b c) = (Ok b, c).
Proof. intros <-. apply ReadFull_fed. Qed.

Lemma ReadFull_make_fed n b c : len b = n -> n <= 2 ^ 48 -> ReadFull_make n (fed b c) = (Ok b, c).
Proof.
  intros <- Hn. unfold ReadFull_make. rewrite bind_Ok with (a := tt) (s' := fed b c).
  - rewrite to_nat_len. apply ReadFull_fed.
  - unfold lift, makeslice, maxAlloc.
    replace (len b <? 0) with false by (symmetry; apply Z.ltb_ge; len_lia).
    by replace (2 ^ 48 <? 1 * len b) with false by (symmetry; apply Z.ltb_ge; lia).
Qed.

Lemma on_conn_run {X A} (m : M conn A) c (x : X) a c' : m c = (Ok a, c') -> on_conn m (c, x) = (Ok a, (c', x)).
Proof. unfold on_conn. cbn [fst snd]. by intros ->. Qed.

(** ** Frames *)

(** A reply of a broker: its length, the correlation id, the body. *)
Definition reply (corr : Z) (body : bytes) : bytes := be_put 4 (len body + 4) ++ be_put 4 corr ++ body.

Lemma len_reply corr body : len (reply corr body) = 8 + len body.
Proof. unfold reply. rewrite !len_app, !len_be_put. lia. Qed.

Lemma payloadSize_put n corr :
  4 <= n < 2 ^ 32 -> payloadSize (be_put 4 n ++ be_put 4 corr) = n - 4.
Proof.
  intros H. unfold payloadSize. rewrite take_app_length' by (by rewrite length_be_put).
  rewrite be_value_put. change (256 ^ Z.of_nat 4) with (2 ^ 32). rewrite Z.mod_small by lia.
  unfold uint32, wrapU. by rewrite Z.mod_small by lia.
Qed.

Lemma receivePayload_reply h p corr body c :
  len body + 4 < 2 ^ 32 -> receivePayload h p (fed (reply corr body) c) = (Ok body, c).
Proof.
  intros Hl. unfold receivePayload, reply. rewrite app_assoc, fed_app.
  erewrite bind_Ok by (apply wrapf_run, ReadFull_fed'; rewrite length_app, !length_be_put; done).
  apply wrapf_run, ReadFull_make_fed; rewrite payloadSize_put by len_lia; len_lia.
Qed.

(** A message encoded and what decoding the bytes gives. *)
Lemma EncodeMessage_Ok e out : EncodeMessage e = Ok out -> Encode (Some e) = Ok (Some out).
Proof.
  unfold EncodeMessage. destruct (Encode (Some e)) as [[b|]|?|?] eqn:E; try done; cbn [rbind default]; [by intros [= ->]|].
  unfold Encode in E. destruct (encode_passes _ e); [|done..]. discriminate E.
Qed.

Lemma EncodeMessage_emits e r out :
  emits e r -> EncodeMessage e = Ok out -> r = Ok out /\ len out <= MaxRequestSize.
Proof.
  intros He H%EncodeMessage_Ok. split; [by eapply Encode_emits|].
  unfold Encode in H. rewrite (encode_passes_emits _ _ _ He) in H.
  destruct r as [b|?|?]; cbn [rbind] in H; [|done..].
  destruct (Z.ltb_spec MaxRequestSize (len b)) as [?|Hl]; cbn [rmap] in H; congruence.
Qed.

Lemma EncodeMessage_bytes e out :
  emits e (Ok out) -> len out <= MaxRequestSize -> EncodeMessage e = Ok out.
Proof.
  intros He Hl. unfold EncodeMessage, Encode. rewrite (encode_passes_emits _ _ _ He). cbn [rbind].
  by replace (MaxRequestSize <? len out) with false by (symmetry; by apply Z.ltb_ge).
Qed.


(** A request decodes to what was sent, into any receiver for its key and
    version. *)
Lemma saslRequest_decodes {B} `{ProtocolBodyLaws B} corr id (b b0 : B) req :
  saslRequest corr id b = Ok req -> body_valid b -> key b0 = key b -> version b0 = version b -> inS 32 corr ->
  DecodeMessage req (Request_decode {| CorrelationID := 0; ClientID := []; Body := Some b0 |}) =
    Ok {| CorrelationID := corr; ClientID := id; Body := Some b |}.
Proof.
  intros Hr Hv Hk Hve Hc. apply (EncodeMessage_emits _ _ _ (emits_Request _)) in Hr as [Hr _].
  apply DecodeMessage_decodes. by eapply decodes_Request.
Qed.

(** The first four bytes of a request are the key and the version. *)
Lemma saslRequest_prefix {B} `{ProtocolBodyLaws B} corr id (b : B) req :
  saslRequest corr id b = Ok req ->
  8 <= len req <= MaxRequestSize /\ exists rest, req = be_put 2 (key b) ++ be_put 2 (version b) ++ rest.
Proof.
  intros Hr. apply (EncodeMessage_emits _ _ _ (emits_Request _)) in Hr as [Hr Hl].
  unfold Request_bytes in Hr. cbn [Body] in Hr. apply header_bytes_Ok in Hr as (b1 & b2 & _ & _ & ->).
  split; [|by eexists]. split; [|done]. rewrite !len_app, !len_be_put. len_lia.
Qed.

(** The first eight bytes of its frame, which the proxy reads first. *)
Lemma sizePrefixed_split {B} `{ProtocolBodyLaws B} corr id (b : B) req :
  saslRequest corr id b = Ok req -> body_valid b ->
  take 8 (sizePrefixed req) = be_put 4 (len req) ++ take 4 req /\
  drop 8 (sizePrefixed req) = drop 4 req /\
  DecodeMessage (take 8 (sizePrefixed req)) RequestKeyVersion_decode =
    Ok {| Length := len req; ApiKey := key b; ApiVersion := version b |}.
Proof.
  intros Hr Hb. destruct (saslRequest_prefix _ _ _ _ Hr) as ([H8 Hl] & rest & Er).
  assert (take 8 (sizePrefixed req) = be_put 4 (len req) ++ take 4 req) as E.
  { unfold sizePrefixed. rewrite be_put_uint32. rewrite take_app_ge; rewrite length_be_put; done || lia. }
  split; [done|]. split.
  { unfold sizePrefixed. rewrite drop_app_ge; rewrite length_be_put; done || lia. }
  rewrite E, Er. rewrite (app_assoc (be_put 2 _)), take_app_length' by (rewrite length_app, !length_be_put; done).
  rewrite <- app_assoc, <- Er. destruct (body_version b Hb). unfold MaxRequestSize in Hl.
  apply RequestKeyVersion_decode_put; [lia|unfold inS; lia|done|done].
Qed.

(** ** The handshake *)

(** The reply of the proxy's own server to a handshake it accepts. *)
Definition handshake_body (mechanism : bytes) : bytes :=
  be_put 2 0 ++ be_put 4 1 ++ be_put 2 (len mechanism) ++ mechanism.
Definition handshake_reply (mechanism : bytes) : bytes := reply 0 (handshake_body mechanism).

Lemma handshake_body_spec m :
  len m <= 32767 ->
  emits (SaslHandshakeResponseV0orV1_encode {| shr_Err := KErrNoError; EnabledMechanisms := Some [m] |})
        (Ok (handshake_body m)) /\
  decodes SaslHandshakeResponseV0orV1_decode (handshake_body m)
          {| shr_Err := KErrNoError; EnabledMechanisms := Some [m] |}.
Proof.
  intros Hm.
  assert (SaslHandshakeResponse_bytes {| shr_Err := KErrNoError; EnabledMechanisms := Some [m] |} =
          Ok (handshake_body m)) as E.
  { unfold SaslHandshakeResponse_bytes, handshake_body, string_array_bytes, string_bytes, limit.
    cbn [shr_Err EnabledMechanisms default foldr]. unfold id. cbn [foldr].
    replace (MaxInt16 <? len m) with false by (symmetry; apply Z.ltb_ge; unfold MaxInt16; lia).
    change (array_length_bytes (len [m])) with (Ok (be_put 4 1)). unfold rapp. cbn [rbind rmap].
    by rewrite app_nil_r. }
  split; [rewrite <- E; apply emits_SaslHandshakeResponse|].
  eapply decodes_SaslHandshakeResponse; [| | |exact E]; [bounds|done|].
  rewrite len_cons, len_nil. unfold MaxUint16. lia.
Qed.

Lemma handshakeRequest_mechanism b req : handshakeRequest b = Ok req -> len (h_mechanism b) <= 32767.
Proof.
  intros H. apply (EncodeMessage_emits _ _ _ (emits_Request _)) in H as [H _].
  unfold Request_bytes in H. cbn [Body] in H. apply header_bytes_Ok in H as (b1 & b2 & _ & H & _).
  cbn [body_bytes SaslHandshakeRequest_laws Mechanism Version] in H. destruct (_ && _); [done|].
  unfold string_bytes in H. by apply limit_Ok in H as [H _].
Qed.

(** The client accepts any reply without an error. *)
Lemma sendAndReceiveHandshake_run b req corr body r c :
  handshakeRequest b = Ok req -> len body + 4 < 2 ^ 32 ->
  DecodeMessage body SaslHandshakeResponseV0orV1_decode = Ok r -> shr_Err r = KErrNoError -> healthy c ->
  sendAndReceiveHandshake b (fed (reply corr body) c) = (Ok tt, sent (sizePrefixed req) c).
Proof.
  intros Hr Hl Hd He Hc. unfold sendAndReceiveHandshake.
  erewrite bind_Ok by (unfold lift; by rewrite Hr).
  erewrite bind_Ok by (by apply SetDeadline_healthy).
  erewrite bind_Ok by (apply wrapf_run; by apply Write_healthy). rewrite sent_fed.
  erewrite bind_Ok by (apply SetDeadline_healthy; by apply healthy_fed, healthy_sent).
  erewrite bind_Ok by (by apply receivePayload_reply).
  erewrite bind_Ok by (apply wrapf_run; unfold lift; by rewrite Hd). by rewrite He.
Qed.

(** What a successful handshake and a successful PLAIN exchange did to the
    connection: the requests that were written, the replies that were read. *)
Definition plain_exchanged (b : SASLPlainAuth) (c c' : conn) : Prop :=
  exists req header payload r answer,
    handshakeRequest (plainHandshake b) = Ok req /\
    tx c' = tx c ++ sizePrefixed req ++ plainAuthBytes b /\
    rx c = header ++ payload ++ answer ++ rx c' /\
    length header = 8%nat /\ len payload = payloadSize header /\
    DecodeMessage payload SaslHandshakeResponseV0orV1_decode = Ok r /\ shr_Err r = KErrNoError /\
    length answer = 4%nat.

Lemma sendAndReceiveHandshake_inv b c u c' :
  sendAndReceiveHandshake b c = (Ok u, c') ->
  exists req header payload r,
    handshakeRequest b = Ok req /\ tx c' = tx c ++ sizePrefixed req /\ rx c = header ++ payload ++ rx c' /\
    length header = 8%nat /\ len payload = payloadSize header /\
    DecodeMessage payload SaslHandshakeResponseV0orV1_decode = Ok r /\ shr_Err r = KErrNoError.
Proof.
  intros H. unfold sendAndReceiveHandshake in H.
  apply bind_inv in H as (req & c1 & (Hr & ->)%lift_inv & H).
  apply bind_inv in H as (? & c2 & ->%SetDeadline_Ok & H).
  apply bind_inv in H as (? & c3 & (e & ->)%wrapf_Ok%Write_Ok & H).
  apply bind_inv in H as (? & c4 & ->%SetDeadline_Ok & H).
  apply bind_inv in H as (payload & c5 & H5 & H).
  apply bind_inv in H5 as (header & c6 & (H6 & L6 & E6)%wrapf_Ok%ReadFull_Ok & H5).
  apply wrapf_Ok, ReadFull_make_Ok in H5 as (H5 & L5 & E5).
  apply bind_inv in H as (r & c7 & H7 & H). apply wrapf_Ok, lift_inv in H7 as [Hd ->].
  destruct (negb _) eqn:Ee; [done|]. apply negb_false_iff, Z.eqb_eq in Ee. injection H as _ <-.
  exists req, header, payload, r. rewrite E5, E6. cbn [tx rx set_rx set_tx] in *. rewrite H6, H5. by split_and!.
Qed.

Lemma sendAndReceiveSASLPlain_inv b c u c' :
  sendAndReceiveSASLPlain b c = (Ok u, c') -> plain_exchanged b c c'.
Proof.
  intros H. apply bind_inv in H as (? & c1 & H1 & H).
  apply sendAndReceiveHandshake_inv in H1 as (req & header & payload & r & H1 & H2 & H3 & H4 & H5 & H6 & H7).
  unfold sendSaslAuthenticatePlain in H. apply bind_inv in H as (? & c2 & ->%SetDeadline_Ok & H).
  apply bind_inv in H as (? & c3 & (e & ->)%wrapf_Ok%Write_Ok & H).
  apply bind_inv in H as (? & c4 & ->%SetDeadline_Ok & H).
  destruct (ReadFull 4 _) as [[answer| |] c5] eqn:E5; [|done..]. injection H as _ <-.
  apply ReadFull_Ok in E5 as (E5 & L5 & Ec). exists req, header, payload, r, answer.
  rewrite Ec. cbn [tx rx set_rx set_tx] in *. rewrite H2, H3, E5, <- app_assoc. by split_and!.
Qed.

(** Reading the rest of a request. *)
Lemma readRequest_run {X} {B} `{ProtocolBodyLaws B} corr id (b : B) req c (x : X) :
  saslRequest corr id b = Ok req -> body_valid b ->
  readRequest {| Length := len req; ApiKey := key b; ApiVersion := version b |} (take 8 (sizePrefixed req))
    (fed (drop 8 (sizePrefixed req)) c, x) = (Ok req, (c, x)).
Proof.
  intros Hr Hb. destruct (saslRequest_prefix _ _ _ _ Hr) as ([H8 Hl] & _).
  destruct (sizePrefixed_split _ _ _ _ Hr Hb) as (Et & Ed & _).
  unfold readRequest. cbn [Length]. rewrite Ed.
  erewrite bind_Ok by (apply on_conn_run, ReadFull_make_fed; [rewrite len_drop; unfold len in *; lia|unfold MaxRequestSize in *; lia]).
  unfold ret. rewrite Et, drop_app_length' by (by rewrite length_be_put). by rewrite take_drop.
Qed.

Lemma writeResponse_run {X} (response : encoder) corr out c (x : X) :
  emits response (Ok out) -> len out <= MaxRequestSize -> healthy c ->
  writeResponse (replyHeaderV0 corr) 4 response (c, x) = (Ok tt, (sent (reply corr out) c, x)).
Proof.
  intros Ho Hl [_ Ht]. rewrite (writeResponse_Ok response corr out c x); [done| |done].
  apply EncodeMessage_Ok. by apply EncodeMessage_bytes.
Qed.

(** The server answers it and chooses the authenticator of the mechanism. *)
Lemma receiveAndSendSaslV0orV1_run {X} (l : LocalSasl X) b req a c x :
  handshakeRequest b = Ok req -> (h_version b = 0 \/ h_version b = 1) ->
  authenticator l (h_mechanism b) = Some a -> healthy c ->
  receiveAndSendSaslV0orV1 l (take 8 (sizePrefixed req)) (h_version b)
    (fed (drop 8 (sizePrefixed req)) c, x) = (Ok a, (sent (handshake_reply (h_mechanism b)) c, x)).
Proof.
  intros Hr Hv Ha Hc. pose proof (handshakeRequest_mechanism b req Hr) as Hm.
  assert (body_valid {| Version := h_version b; Mechanism := h_mechanism b |}) as Hb by exact Hv.
  destruct (sizePrefixed_split _ _ _ _ Hr Hb) as (Et & _ & Hk).
  destruct (saslRequest_prefix _ _ _ _ Hr) as ([H8 Hl] & _).
  assert (length (take 8 (sizePrefixed req)) = 8%nat) as Hkv
    by (rewrite Et, length_app, length_be_put, length_take; unfold len in H8; lia).
  unfold receiveAndSendSaslV0orV1. erewrite bind_Ok by (apply on_conn_run; by apply SetDeadline_healthy).
  rewrite Hkv. change (negb (8 =? 8)%nat) with false. cbv iota.
  erewrite bind_Ok by (unfold lift; by rewrite Hk). cbn [ApiKey ApiVersion Length].
  change (key _) with 17. change (version _) with (h_version b). rewrite !Z.eqb_refl. cbn [andb negb].
  replace (MaxRequestSize <? len req) with false by (symmetry; apply Z.ltb_ge; lia).
  erewrite bind_Ok by (by apply (readRequest_run _ _ _ _ _ _ Hr Hb)).
  erewrite bind_Ok by (unfold lift; by rewrite (saslRequest_decodes _ _ _ _ _ Hr)).
  cbv beta zeta. unfold from_option, id. cbn [Body Mechanism CorrelationID]. rewrite Ha.
  erewrite bind_Ok; [done|]. apply writeResponse_run; [|unfold handshake_body|done].
  - by apply handshake_body_spec.
  - rewrite !len_app, !len_be_put. unfold MaxRequestSize. lia.
Qed.

(** ** PLAIN *)

Lemma plainAuthBytes_frame b :
  plainAuthBytes b =
    be_put 4 (len (x00 :: p_username b ++ x00 :: p_password b)) ++ x00 :: p_username b ++ x00 :: p_password b.
Proof.
  unfold plainAuthBytes. rewrite be_put_uint32. cbn [app]. do 2 f_equal. len_lia.
Qed.

(** The client takes any four bytes for an answer. *)
Lemma sendSaslAuthenticatePlain_run b z c :
  length z = 4%nat -> healthy c ->
  sendSaslAuthenticatePlain b (fed z c) = (Ok tt, sent (plainAuthBytes b) c).
Proof.
  intros Hz Hc. unfold sendSaslAuthenticatePlain.
  erewrite bind_Ok by (by apply SetDeadline_healthy).
  erewrite bind_Ok by (apply wrapf_run; by apply Write_healthy). rewrite sent_fed.
  erewrite bind_Ok by (apply SetDeadline_healthy; by apply healthy_fed, healthy_sent).
  by rewrite ReadFull_fed'.
Qed.

(** The server asks the authenticator about exactly its credentials. *)
Lemma receiveAndSendAuthV0_run {X} (Authenticate : bytes -> bytes -> M X (bool * Z)) b c x :
  x00 ∉ p_username b -> x00 ∉ p_password b ->
  2 + len (p_username b) + len (p_password b) <= MaxRequestSize -> healthy c ->
  receiveAndSendAuthV0 (Some (LocalSaslPlain (Some Authenticate))) (fed (plainAuthBytes b) c, x) =
    (let* r := on_ext (Authenticate (p_username b) (p_password b)) in
     if fst r then on_conn (Write (replicate 4 x00)) else fail (errLocalAuthFailed (p_username b))) (c, x).
Proof.
  intros Hu Hp Hl Hc. rewrite plainAuthBytes_frame. set (creds := x00 :: _ ++ _).
  assert (len creds <= MaxRequestSize) as Hcr by (unfold creds; len_lia).
  unfold receiveAndSendAuthV0.
  erewrite bind_Ok by (apply on_conn_run; by apply SetDeadline_healthy). rewrite fed_app.
  erewrite bind_Ok by (apply on_conn_run, ReadFull_fed'; by rewrite length_be_put).
  rewrite be_value_put. change (256 ^ Z.of_nat 4) with (2 ^ 32). unfold MaxRequestSize in *.
  rewrite Z.mod_small by len_lia. cbv zeta.
  assert (int32 (len creds) = len creds) as -> by (apply wrapS_id; [lia|unfold inS; len_lia]).
  replace (_ <? len creds) with false by (symmetry; apply Z.ltb_ge; lia).
  erewrite bind_Ok by (apply on_conn_run, ReadFull_make_fed; [done|lia]).
  unfold doLocalAuth, doLocalAuthPlain. change (default [] (Some creds)) with creds.
  assert (Split x00 creds = [[]; p_username b; p_password b]) as ->
    by (change creds with ([] ++ x00 :: p_username b ++ x00 :: p_password b);
        rewrite !Split_app, Split_notin by (done || by apply not_elem_of_nil); done).
  unfold bind, on_ext. cbn [fst snd].
  by destruct (Authenticate _ _ x) as [[[[] st]|e|w] x'].
Qed.

(** ** [SaslAuthenticate] *)

Definition authenticate_body (code : Z) (msg : option bytes) : bytes :=
  be_put 2 code ++ match msg with None => be_put 2 (-1) | Some m => be_put 2 (len m) ++ m end ++ be_put 4 0.

Lemma authenticate_body_spec code msg :
  inS 16 code -> match msg with None => True | Some m => len m <= 32767 end ->
  let r := {| sap0_Err := code; sap0_ErrMsg := msg; sap0_SaslAuthBytes := Some [] |} in
  emits (SaslAuthenticateResponseV0_encode r) (Ok (authenticate_body code msg)) /\
  decodes SaslAuthenticateResponseV0_decode (authenticate_body code msg) r.
Proof.
  intros Hc Hm r.
  assert (SaslAuthenticateResponseV0_bytes r = Ok (authenticate_body code msg)) as E.
  { unfold SaslAuthenticateResponseV0_bytes, authenticate_body, r. cbn [sap0_Err sap0_ErrMsg sap0_SaslAuthBytes].
    change (bytes_bytes (Some [])) with (Ok (be_put 4 0)). rewrite wrapS_id by (done || lia).
    destruct msg as [m|]; [|done]. cbn [nullable_string_bytes]. unfold string_bytes, limit.
    by replace (MaxInt16 <? len m) with false by (symmetry; apply Z.ltb_ge; unfold MaxInt16; lia). }
  split; [rewrite <- E; apply emits_SaslAuthenticateResponseV0|].
  by apply decodes_SaslAuthenticateResponseV0.
Qed.

Lemma len_authenticate_body code msg :
  match msg with None => True | Some m => len m <= 32767 end -> len (authenticate_body code msg) <= 32775.
Proof.
  intros Hm. unfold authenticate_body. destruct msg; rewrite !len_app, !len_be_put; lia.
Qed.

(** The server reads the frame of a request of version 0. *)
Lemma receiveAndSendAuthV1_request {X} (Error_text : error -> bytes) (a : LocalSaslAuth X) id authBytes req c x :
  saslRequest 0 id {| sar0_SaslAuthBytes := authBytes |} = Ok req -> healthy c ->
  receiveAndSendAuthV1 Error_text a (fed (sizePrefixed req) c, x) = authenticateV0 Error_text a req (c, x).
Proof.
  intros Hr Hc. assert (body_valid {| sar0_SaslAuthBytes := authBytes |}) as Hb by done.
  destruct (sizePrefixed_split _ _ _ _ Hr Hb) as (Et & _ & Hk).
  destruct (saslRequest_prefix _ _ _ _ Hr) as ([H8 Hl] & _).
  rewrite <- (take_drop 8 (sizePrefixed req)), fed_app.
  unfold receiveAndSendAuthV1. erewrite bind_Ok by (apply on_conn_run; by apply SetDeadline_healthy).
  erewrite bind_Ok by (apply on_conn_run, ReadFull_fed';
    rewrite Et, length_app, length_be_put, length_take; unfold len in H8; lia).
  erewrite bind_Ok by (unfold lift; by rewrite Hk). cbn [ApiKey ApiVersion Length].
  change (key _) with 36. change (version _) with 0. change (negb (36 =? 36)) with false.
  replace (MaxRequestSize <? len req) with false by (symmetry; apply Z.ltb_ge; lia). cbv iota.
  erewrite bind_Ok by (apply (readRequest_run _ _ _ _ _ _ Hr Hb)). done.
Qed.

Lemma authenticateV0_run {X} (Error_text : error -> bytes) (a : LocalSaslAuth X) id authBytes req c x r x' :
  saslRequest 0 id {| sar0_SaslAuthBytes := Some authBytes |} = Ok req -> healthy c ->
  doLocalAuth a (Some authBytes) x = (r, x') ->
  (forall e, r = Err e -> len (Error_text e) <= 32767) -> (forall w, r <> Panic w) ->
  authenticateV0 Error_text a req (c, x) =
    (r, (sent (reply 0 match r with
                       | Err e => authenticate_body KErrSASLAuthenticationFailed (Some (Error_text e))
                       | _ => authenticate_body KErrNoError None
                       end) c, x')).
Proof.
  intros Hr Hc Ha He Hp. assert (body_valid {| sar0_SaslAuthBytes := Some authBytes |}) as Hb by done.
  unfold authenticateV0.
  erewrite bind_Ok by (unfold lift; rewrite (saslRequest_decodes 0 id _ {| sar0_SaslAuthBytes := None |} _ Hr); done || bounds).
  cbn [Body mbind option_bind sar0_SaslAuthBytes CorrelationID].
  destruct r as [[]|e|w]; [| |by destruct (Hp w)].
  - erewrite bind_Ok by (unfold on_ext, attempt; cbn [fst snd]; by rewrite Ha).
    unfold replyAuth. apply writeResponse_run; [apply authenticate_body_spec; [bounds|done]| |done].
    pose proof (len_authenticate_body KErrNoError None I). unfold MaxRequestSize. lia.
  - specialize (He e eq_refl). erewrite bind_Ok by (unfold on_ext, attempt; cbn [fst snd]; by rewrite Ha).
    unfold replyAuth. erewrite bind_Ok; [done|].
    apply writeResponse_run; [by apply authenticate_body_spec; [bounds|]| |done].
    pose proof (len_authenticate_body KErrSASLAuthenticationFailed (Some (Error_text e)) He). unfold MaxRequestSize. lia.
Qed.

(** ** OAUTHBEARER *)

(** The client follows the error code of the reply. *)
Lemma sendSaslAuthenticateOAuth_run {X} (b : SASLOAuthBearerAuth X) token req corr body r c :
  oauthRequest b token = Ok req -> len body + 4 < 2 ^ 32 ->
  DecodeMessage body SaslAuthenticateResponseV0_decode = Ok r -> healthy c ->
  sendSaslAuthenticateOAuth b token (fed (reply corr body) c) =
    (if sap0_Err r =? KErrNoError then Ok tt
     else Err (Errorf "SASL authentication failed, error message is '%v'"), sent (sizePrefixed req) c).
Proof.
  intros Hr Hl Hd Hc. unfold sendSaslAuthenticateOAuth.
  erewrite bind_Ok by (unfold lift; by rewrite Hr).
  erewrite bind_Ok by (by apply SetDeadline_healthy).
  erewrite bind_Ok by (apply wrapf_run; by apply Write_healthy). rewrite sent_fed.
  erewrite bind_Ok by (apply SetDeadline_healthy; by apply healthy_fed, healthy_sent).
  erewrite bind_Ok by (by apply receivePayload_reply).
  erewrite bind_Ok by (apply wrapf_run; unfold lift; by rewrite Hd). by destruct (_ =? _).
Qed.

(** The server verifies exactly the token of the client's message. *)
Lemma doLocalAuthOauth_ToBytes {X} (VerifyToken : bytes -> M X (bool * Z)) token x :
  token_ok token ->
  doLocalAuth (LocalSaslOauth VerifyToken) (Some (ToBytes token [] ∅)) x =
    (let* r := VerifyToken token in
     if fst r then ret tt else fail (Errorf "local oauth verify token failed with status: %d")) x.
Proof.
  intros Ht. unfold doLocalAuth, doLocalAuthOauth. change (default [] (Some ?b)) with b.
  erewrite bind_Ok by (unfold lift; rewrite GetClientInitialResponse_ToBytes; [done|done|constructor|];
    split; [done|apply map_Forall_empty]).
  cbv beta iota. unfold bind. by destruct (VerifyToken token x) as [[[[] st]|e|w] x'].
Qed.

(** ** Facts

    The SCRAM exchange with a broker: the dialogue it may have, and that the
    loop is exactly that dialogue. *)

(** ** The reply to a message *)

(** [rep] is a reply frame with the correlation id [corr], without an error,
    that carries [challenge]. *)
Definition carries (corr : Z) (rep challenge : bytes) : Prop :=
  exists n body r, rep = be_put 4 n ++ be_put 4 corr ++ body /\ 4 < n < 2 ^ 31 /\ len body = n - 4 /\
    DecodeMessage body SaslAuthenticateResponseV0_decode = Ok r /\ sap0_Err r = KErrNoError /\
    challenge = default [] (sap0_SaslAuthBytes r).

Lemma carries_len corr rep challenge : carries corr rep challenge -> 8 < len rep.
Proof. intros (n & body & r & -> & Hn & Hl & _). rewrite !len_app, !len_be_put. lia. Qed.

Lemma ResponseHeader_decode_run n corr :
  inS 32 n -> 4 < n -> inS 32 corr ->
  DecodeMessage (be_put 4 n ++ be_put 4 corr) ResponseHeader_decode = Ok {| rh_Length := n; rh_CorrelationID := corr |}.
Proof.
  intros Hn H4 Hc. apply DecodeMessage_decodes. eapply decodes_bind; [by apply decodes_getInt32|].
  replace (n <=? 4) with false by (symmetry; apply Z.leb_gt; lia).
  apply (decodes_map _ (fun c => {| rh_Length := n; rh_CorrelationID := c |})). by apply decodes_getInt32.
Qed.

(** Eight bytes are two signed integers. *)
Lemma two_words buf :
  length buf = 8%nat -> exists n k, buf = be_put 4 n ++ be_put 4 k /\ inS 32 n /\ inS 32 k.
Proof.
  intros H. exists (int32 (be_value (take 4 buf))), (int32 (be_value (drop 4 buf))).
  rewrite !(be_put_wrapS 4) by lia.
  rewrite !be_put_value_length, take_drop by (rewrite ?length_take, ?length_drop; lia).
  split; [done|]. split; apply wrapS_range; lia.
Qed.

Lemma ResponseHeader_decode_short n k :
  inS 32 n -> n <= 4 ->
  DecodeMessage (be_put 4 n ++ be_put 4 k) ResponseHeader_decode = Err (PacketDecodingError "message of length %d too small").
Proof.
  intros Hn H4. unfold DecodeMessage, Decode. change {| rd_raw := ?b; rd_off := 0 |} with (at_ [] b).
  unfold ResponseHeader_decode. erewrite bind_Ok by (apply decodes_getInt32; done).
  by replace (n <=? 4) with true by (symmetry; by apply Z.leb_le).
Qed.

Lemma receiveSaslAuthenticateResponse_iff corr c k challenge s :
  inS 32 corr ->
  receiveSaslAuthenticateResponse corr (c, k) = (Ok challenge, s) <->
  exists rep c', c = fed rep c' /\ carries corr rep challenge /\ s = (c', k).
Proof.
  intros Hcorr. split.
  - unfold receiveSaslAuthenticateResponse. intros H.
    apply bind_inv in H as (buf & s1 & H1 & H). apply on_conn_inv in H1 as (c1 & H1 & ->). cbn [fst snd] in *.
    apply ReadFull_Ok in H1 as (Hrx & Hl & Hc1). destruct (two_words buf Hl) as (n & k' & -> & Hn & Hk').
    apply bind_inv in H as (header & s2 & H2 & H). apply lift_inv in H2 as [H2 ->].
    destruct (Z.le_gt_cases n 4) as [H4|H4]; [by rewrite ResponseHeader_decode_short in H2|].
    rewrite ResponseHeader_decode_run in H2 by done. injection H2 as <-. cbn [rh_CorrelationID rh_Length] in H.
    destruct (Z.eqb_spec k' corr) as [->|]; [cbn [negb] in H|done].
    apply bind_inv in H as (body & s3 & H3 & H). apply on_conn_inv in H3 as (c3 & H3 & ->). cbn [fst snd] in *.
    apply ReadFull_make_Ok in H3 as (Hrx3 & Hlb & Hc3).
    apply bind_inv in H as (r & s4 & H4' & H). apply lift_inv in H4' as [H4' ->].
    destruct (Z.eqb_spec (sap0_Err r) KErrNoError) as [He|]; [cbn [negb] in H|done]. injection H as <- <-.
    assert (int32 (n - 4) = n - 4) as E by (apply wrapS_id; [lia|unfold inS in *; lia]). rewrite E in Hlb.
    exists ((be_put 4 n ++ be_put 4 corr) ++ body), c3. split; [|split; [|done]].
    + rewrite fed_app. unfold fed. rewrite Hc3, Hc1. cbn [rx set_rx rx_end tx tx_err deadline_err].
      rewrite <- Hrx3, <- Hrx. by destruct c.
    + exists n, body, r. rewrite <- app_assoc. unfold inS in Hn. split_and!; done || lia.
  - intros (rep & c' & -> & (n & body & r & -> & Hn & Hl & Hd & He & ->) & ->).
    assert (inS 32 n) as Hn' by (unfold inS; lia).
    unfold receiveSaslAuthenticateResponse. rewrite app_assoc, fed_app.
    erewrite bind_Ok by (apply on_conn_run, ReadFull_fed'; by rewrite length_app, !length_be_put).
    erewrite bind_Ok by (unfold lift; by rewrite ResponseHeader_decode_run by (done || lia)).
    cbn [rh_CorrelationID rh_Length]. rewrite Z.eqb_refl. cbn [negb].
    assert (int32 (n - 4) = n - 4) as -> by (apply wrapS_id; [lia|unfold inS; lia]).
    erewrite bind_Ok by (apply on_conn_run, ReadFull_make_fed; [done|lia]).
    erewrite bind_Ok by (unfold lift; by rewrite Hd). by rewrite He.
Qed.

(** ** The dialogue *)

Section dialogue.
Context {Conversation : Type} (Step : Conversation -> bytes -> res bytes * Conversation) (Done : Conversation -> bool).
Context (b : SASLSCRAMAuth).

(** From the conversation [conv] with the message [msg] to send, the client
    sends [out] and the broker [in_]; every message carries the next
    correlation id and is answered under it; the dialogue goes on until the
    conversation is done. *)
Inductive dialogue : Z -> Conversation -> bytes -> bytes -> bytes -> Z -> Conversation -> Prop :=
  | dialogue_done k conv msg :
      Done conv = true -> dialogue k conv msg [] [] k conv
  | dialogue_step k conv msg req rep challenge conv1 msg1 out in_ k' conv' :
      Done conv = false ->
      saslRequest k (s_clientID b) {| sar0_SaslAuthBytes := Some msg |} = Ok req ->
      carries k rep challenge ->
      Step conv challenge = (Ok msg1, conv1) ->
      dialogue (int32 (k + 1)) conv1 msg1 out in_ k' conv' ->
      dialogue k conv msg (sizePrefixed req ++ out) (rep ++ in_) k' conv'.

Lemma sendSized_run {X} req c (x : X) : healthy c -> on_conn (sendSized req) (c, x) = (Ok tt, (sent (sizePrefixed req) c, x)).
Proof.
  intros Hc. apply on_conn_run. unfold sendSized.
  erewrite bind_Ok by (by apply SetDeadline_healthy). by apply Write_healthy.
Qed.

(** What a connection receives after it has sent [a] it had to receive before. *)
Lemma sent_is_fed a rep c c' :
  healthy c -> sent a c = fed rep c' -> exists c1, c = fed rep c1 /\ c' = sent a c1 /\ healthy c1.
Proof.
  intros [Hd Ht] H. exists (set_tx (tx c) None c').
  destruct c, c'. unfold sent, fed, set_tx, set_rx, healthy in *. cbn in *. simplify_eq. done.
Qed.

Lemma scramLoop_sound f : forall conv msg c k s,
  healthy c -> inS 32 k -> scramLoop Step Done f b conv msg (c, k) = (Ok tt, s) ->
  exists out in_ c' k' conv', dialogue k conv msg out in_ k' conv' /\ c = fed in_ c' /\ s = (sent out c', k').
Proof.
  induction f as [|f IH]; intros conv msg c k s Hc Hk H; cbn [scramLoop] in H; destruct (Done conv) eqn:Hd; try done.
  - injection H as <-. exists [], [], c, k, conv. rewrite fed_nil, sent_nil by done. by repeat constructor.
  - injection H as <-. exists [], [], c, k, conv. rewrite fed_nil, sent_nil by done. by repeat constructor.
  - apply bind_inv in H as (k0 & s0 & H0 & H). injection H0 as <- <-.
    apply bind_inv in H as ([] & s1 & H1 & H). unfold sendSaslAuthenticateScram in H1. cbn [snd] in *.
    apply bind_inv in H1 as (req & s2 & H2 & H1). apply lift_inv in H2 as [H2 ->].
    rewrite sendSized_run in H1 by done. injection H1 as <-.
    apply bind_inv in H as ([] & s3 & H3 & H). injection H3 as <-. cbn [fst snd] in H.
    apply bind_inv in H as (ch & s4 & H4 & H).
    apply receiveSaslAuthenticateResponse_iff in H4 as (rep & c4 & Ec & Hrep & ->); [|done].
    destruct (Step conv ch) as [r conv1] eqn:Es. apply bind_inv in H as (msg1 & s5 & H5 & H).
    apply lift_inv in H5 as [-> ->].
    destruct (sent_is_fed _ _ _ _ Hc Ec) as (c1 & -> & -> & Hc1).
    apply IH in H as (out & in_ & c' & k' & conv' & Hdi & Ec' & ->);
      [|by apply healthy_sent|apply wrapS_range; lia].
    destruct (sent_is_fed _ _ _ _ Hc1 Ec') as (c2 & -> & -> & _).
    exists (sizePrefixed req ++ out), (rep ++ in_), c2, k', conv'.
    split; [by econstructor|]. by rewrite fed_app, sent_sent.
Qed.

(** A dialogue with enough fuel for its replies. *)
Lemma scramLoop_complete f k conv msg out in_ k' conv' c :
  dialogue k conv msg out in_ k' conv' -> healthy c -> inS 32 k -> (length in_ <= f)%nat ->
  scramLoop Step Done f b conv msg (fed in_ c, k) = (Ok tt, (sent out c, k')).
Proof.
  intros Hdi. revert f c. induction Hdi as [k conv msg Hd|k conv msg req rep ch conv1 msg1 out in_ k' conv' Hd Hreq Hrep Hs _ IH];
    intros f c Hc Hk Hf.
  - rewrite fed_nil, sent_nil by done. destruct f; cbn [scramLoop]; by rewrite Hd.
  - pose proof (carries_len _ _ _ Hrep) as Hlen. rewrite length_app in Hf.
    destruct f as [|f]; [unfold len in Hlen; lia|]. cbn [scramLoop]. rewrite Hd.
    erewrite bind_Ok by reflexivity. cbn [snd]. unfold sendSaslAuthenticateScram at 1. rewrite bind_assoc.
    erewrite bind_Ok by (unfold lift; by rewrite Hreq).
    erewrite bind_Ok by (by apply sendSized_run). cbv beta. erewrite bind_Ok by reflexivity. cbn [fst snd].
    rewrite sent_fed, fed_app.
    erewrite bind_Ok by (apply receiveSaslAuthenticateResponse_iff; [done|]; by eexists rep, _).
    rewrite Hs. erewrite bind_Ok by reflexivity.
    rewrite IH; [|by apply healthy_sent|apply wrapS_range; lia|unfold len in Hlen; lia]. by rewrite sent_sent.
Qed.

(** ** Fuel *)

(** Sending keeps what is to be received; a reply takes bytes from it. *)
Lemma scram_send_rx corr msg s a s' :
  sendSaslAuthenticateScram b corr msg s = (Ok a, s') -> rx (fst s') = rx (fst s).
Proof.
  unfold sendSaslAuthenticateScram, sendSized. intros H.
  apply bind_inv in H as (req & s1 & [_ ->]%lift_inv & H). apply on_conn_inv in H as (c' & H & ->).
  apply bind_inv in H as (? & c1 & H1 & H). apply SetDeadline_Ok in H1 as ->.
  by apply Write_Ok in H as (e & ->).
Qed.

Lemma receiveSaslAuthenticateResponse_rx corr s a s' :
  receiveSaslAuthenticateResponse corr s = (Ok a, s') -> (length (rx (fst s')) < length (rx (fst s)))%nat.
Proof.
  unfold receiveSaslAuthenticateResponse. intros H.
  apply bind_inv in H as (buf & s1 & H1 & H). apply on_conn_inv in H1 as (c1 & H1 & ->). cbn [fst snd] in *.
  apply ReadFull_Ok in H1 as (Hrx & Hl & _). apply bind_inv in H as (h & s2 & [_ ->]%lift_inv & H).
  destruct (negb _); [done|]. apply bind_inv in H as (body & s3 & H3 & H).
  apply on_conn_inv in H3 as (c3 & H3 & ->). cbn [fst snd] in *. apply ReadFull_make_Ok in H3 as (Hrx3 & _ & _).
  apply bind_inv in H as (r & s4 & [_ ->]%lift_inv & H). destruct (negb _); [done|]. injection H as _ <-.
  cbn [fst]. rewrite Hrx, Hrx3, !length_app. lia.
Qed.

Lemma bind_ext {S A B} (m : M S A) (k1 k2 : A -> M S B) s :
  (forall a s', m s = (Ok a, s') -> k1 a s' = k2 a s') -> bind m k1 s = bind m k2 s.
Proof. intros H. unfold bind. destruct (m s) as [[a|e|w] s']; auto. Qed.

(** Any fuel above the bytes to come gives the same run. *)
Lemma scramLoop_fuel f : forall g conv msg s,
  (length (rx (fst s)) < f)%nat -> (length (rx (fst s)) < g)%nat ->
  scramLoop Step Done f b conv msg s = scramLoop Step Done g b conv msg s.
Proof.
  induction f as [|f IH]; intros [|g] conv msg s Hf Hg; [lia..|]. cbn [scramLoop]. destruct (Done conv); [done|].
  apply bind_ext. intros corr s0 [= <- <-]. apply bind_ext. intros ? s1 E1%scram_send_rx.
  apply bind_ext. intros ? s2 [= _ <-]. apply bind_ext. intros ch s3 E3%receiveSaslAuthenticateResponse_rx.
  cbn [fst] in E3. rewrite E1 in E3. destruct (Step conv ch) as [r conv']. apply bind_ext. intros msg' s4 [_ ->]%lift_inv.
  apply IH; lia.
Qed.

End dialogue.

(** ** The handshake of SCRAM *)

(** A reply without an error to a handshake; its payload is as long as the
    header says modulo 2^32. *)
Definition accepts_handshake (rep : bytes) : Prop :=
  exists header payload r, rep = header ++ payload /\ length header = 8%nat /\ len payload = payloadSize header /\
    DecodeMessage payload SaslHandshakeResponseV0orV1_decode = Ok r /\ shr_Err r = KErrNoError.

Lemma sendAndReceiveSASLHandshake_iff b c k s :
  healthy c ->
  sendAndReceiveSASLHandshake b (c, k) = (Ok tt, s) <->
  exists req rep c', saslRequest 0 (s_clientID b) {| Version := 1; Mechanism := s_mechanism b |} = Ok req /\
    accepts_handshake rep /\ c = fed rep c' /\ s = (sent (sizePrefixed req) c', int32 (k + 1)).
Proof.
  intros Hc. unfold sendAndReceiveSASLHandshake. split.
  - intros H. apply bind_inv in H as (req & s1 & [Hr ->]%lift_inv & H).
    rewrite (bind_Ok _ _ _ _ _ (sendSized_run req c k Hc)) in H. rewrite bind_Ok with (a := tt) (s' := (sent (sizePrefixed req) c, int32 (k + 1))) in H by done.
    apply bind_inv in H as (h & s2 & H2 & H). apply on_conn_inv in H2 as (c2 & H2 & ->). cbn [fst snd] in *.
    apply ReadFull_Ok in H2 as (Hrx & Hh & Hc2).
    apply bind_inv in H as (pl & s3 & H3 & H). apply on_conn_inv in H3 as (c3 & H3 & ->). cbn [fst snd] in *.
    apply ReadFull_make_Ok in H3 as (Hrx3 & Hl & Hc3).
    apply bind_inv in H as (r & s4 & [Hd ->]%lift_inv & H).
    destruct (Z.eqb_spec (shr_Err r) KErrNoError) as [He|]; [cbn [negb] in H|done]. injection H as <-.
    assert (sent (sizePrefixed req) c = fed (h ++ pl) c3) as E.
    { rewrite fed_app. unfold fed. rewrite Hc3, Hc2. cbn [rx set_rx rx_end tx tx_err deadline_err].
      rewrite <- Hrx3, <- Hrx. by destruct c. }
    apply sent_is_fed in E as (c1 & -> & -> & _); [|done].
    exists req, (h ++ pl), c1. split; [done|]. split; [|done]. by exists h, pl, r.
  - intros (req & rep & c' & Hr & (h & pl & r & -> & Hh & Hl & Hd & He) & -> & ->).
    erewrite bind_Ok by (unfold lift; by rewrite Hr).
    rewrite (bind_Ok _ _ _ _ _ (sendSized_run req _ k Hc)), sent_fed, fed_app.
    erewrite bind_Ok by reflexivity. cbn [fst snd].
    erewrite bind_Ok by (apply on_conn_run; by apply ReadFull_fed').
    erewrite bind_Ok by (apply on_conn_run, ReadFull_make_fed; [done|];
      unfold payloadSize, uint32, wrapU; pose proof (Z.mod_pos_bound (be_value (take 4 h) - 4) (2 ^ 32)); lia).
    erewrite bind_Ok by (unfold lift; by rewrite Hd). by rewrite He.
Qed.
