(* ===== verification/Config.v ===== *)
(** The configuration (config/config.go): the parsers of the server and dial
    mappings, the defaults, and [Validate], which also fills in what it derives.

    The anonymous structs of [Config] are records; fields the modelled code does
    not use (logging, metrics, TLS files, plugin parameters) are left out.
    Durations are nanoseconds.  [url.Parse] and [net.ParseIP] are parameters of
    [Validate]. *)
From Stdlib Require Import ZArith Lia Strings.Byte.
From stdpp Require Import base list strings gmap.
From S2P Require Import Prelude GoLib GoStrings NetAddr OAuthBearer Listeners.

(** ** The structs *)

Record DialAddressMapping := { SourceAddress : bytes; DestinationAddress : bytes }.

#[export] Instance DialAddressMapping_eq_dec : EqDecision DialAddressMapping.
Proof. solve_decision. Defined.

Record GSSAPIConfig := {
  AuthType : bytes; KeyTabPath : bytes; KerberosConfigPath : bytes; ServiceName : bytes;
  GSSAPI_Username : bytes; GSSAPI_Password : bytes; GSSAPI_Realm : bytes;
  SPNHostsMapping : gmap bytes bytes
}.
Record SASLPlugin := {
  Plugin_Enable : bool; Plugin_Command : bytes; Plugin_Mechanism : bytes; Plugin_Timeout : Z
}.
Record SASLConfig := {
  SASL_Enable : bool; SASL_Username : bytes; SASL_Password : bytes; JaasConfigFile : bytes;
  SASL_Method : bytes; SASL_Plugin : SASLPlugin; GSSAPI : GSSAPIConfig
}.
Record KafkaConfig := {
  Kafka_ClientID : bytes; Kafka_MaxOpenRequests : Z; Kafka_ForbiddenApiKeys : list Z;
  DialTimeout : Z; WriteTimeout : Z; ReadTimeout : Z; KeepAlive : Z;
  KafkaTLS_Enable : bool; KafkaTLS_ClientCertFile : bytes; SameClientCertEnable : bool;
  SASL : SASLConfig; Acks0Disabled : bool
}.
Record ProxyConfig := {
  DefaultListenerIP : bytes;
  BootstrapServers : list config_ListenerConfig; ExternalServers : list config_ListenerConfig;
  DeterministicListeners : bool; DialAddressMappings : list DialAddressMapping;
  DisableDynamicListeners : bool; DynamicAdvertisedListener : bytes;
  DynamicSequentialMinPort : Z; DynamicSequentialMaxPorts : Z;
  Proxy_RequestBufferSize : Z; Proxy_ResponseBufferSize : Z; ListenerKeepAlive : Z;
  ProxyTLS_Enable : bool; ListenerCertFile : bytes; ListenerKeyFile : bytes;
  SNIMapping : gmap bytes bytes; SNIListenerAddress : bytes
}.
Record LocalConfig := {
  Local_Enable : bool; Local_Command : bytes; Local_Mechanism : bytes; Local_Timeout : Z
}.
Record GatewayConfig := {
  Gateway_Enable : bool; Gateway_Method : bytes; Gateway_Magic : Z; Gateway_Command : bytes; Gateway_Timeout : Z
}.
Record ForwardProxyConfig := {
  Url : bytes; Scheme : bytes; Address : bytes; Proxy_Username : bytes; Proxy_Password : bytes
}.
Record Config := {
  Proxy : ProxyConfig; Local : LocalConfig; GatewayClient : GatewayConfig; GatewayServer : GatewayConfig;
  Kafka : KafkaConfig; ForwardProxy : ForwardProxyConfig
}.

Definition KRB5_USER_AUTH : bytes := $"USER".
Definition KRB5_KEYTAB_AUTH : bytes := $"KEYTAB".
Definition defaultClientID : bytes := $"kafka-proxy".

(** ** Server and dial mappings *)

Definition joined (hp : bytes * Z) : bytes := JoinHostPort (fst hp) (Itoa (snd hp)).

Definition parseDialAddressMapping (v : bytes) : res DialAddressMapping :=
  match Split comma v with
  | [src; dst] =>
      let? src := SplitHostPort src in
      let? dst := SplitHostPort dst in
      Ok {| SourceAddress := joined src; DestinationAddress := joined dst |}
  | _ => Err (Errorf "dial-mapping must be in form 'srchost:srcport,dsthost:dstport'")
  end.

Definition parseListenerConfig (v : bytes) : res config_ListenerConfig :=
  let config remote local advertised :=
    {| cfg_BrokerAddress := joined remote; cfg_ListenerAddress := joined local;
       cfg_AdvertisedAddress := joined advertised |} in
  match Split comma v with
  | [remote; local] =>
      let? remote := SplitHostPort remote in
      let? local := SplitHostPort local in
      Ok (config remote local local)
  | [remote; local; advertised] =>
      let? remote := SplitHostPort remote in
      let? local := SplitHostPort local in
      let? advertised := SplitHostPort advertised in
      Ok (config remote local advertised)
  | _ => Err (Errorf "server-mapping must be in form 'remotehost:remoteport,localhost:localport(,advhost:advport)'")
  end.

(** The loop that parses every element, or stops with the first error. *)
Fixpoint parseAll {A} (f : bytes -> res A) (l : list bytes) : res (list A) :=
  match l with
  | [] => Ok []
  | v :: l' => let? a := f v in let? rest := parseAll f l' in Ok (a :: rest)
  end.

Definition getDialAddressMappings (dialMapping : list bytes) : res (list DialAddressMapping) :=
  parseAll parseDialAddressMapping dialMapping.
Definition getListenerConfigs (serversMapping : list bytes) : res (list config_ListenerConfig) :=
  parseAll parseListenerConfig serversMapping.

(** ** Defaults *)

Definition second : Z := 1000000000.

Definition NewConfig : Config := {|
  Proxy := {|
    DefaultListenerIP := $"0.0.0.0"; BootstrapServers := []; ExternalServers := [];
    DeterministicListeners := false; DialAddressMappings := []; DisableDynamicListeners := false;
    DynamicAdvertisedListener := []; DynamicSequentialMinPort := 0; DynamicSequentialMaxPorts := 0;
    Proxy_RequestBufferSize := 4096; Proxy_ResponseBufferSize := 4096; ListenerKeepAlive := 60 * second;
    ProxyTLS_Enable := false; ListenerCertFile := []; ListenerKeyFile := [];
    SNIMapping := ∅; SNIListenerAddress := [] |};
  Local := {| Local_Enable := false; Local_Command := []; Local_Mechanism := []; Local_Timeout := 0 |};
  GatewayClient := {| Gateway_Enable := false; Gateway_Method := []; Gateway_Magic := 0; Gateway_Command := []; Gateway_Timeout := 0 |};
  GatewayServer := {| Gateway_Enable := false; Gateway_Method := []; Gateway_Magic := 0; Gateway_Command := []; Gateway_Timeout := 0 |};
  Kafka := {|
    Kafka_ClientID := defaultClientID; Kafka_MaxOpenRequests := 256; Kafka_ForbiddenApiKeys := [];
    DialTimeout := 15 * second; WriteTimeout := 30 * second; ReadTimeout := 30 * second; KeepAlive := 60 * second;
    KafkaTLS_Enable := false; KafkaTLS_ClientCertFile := []; SameClientCertEnable := false;
    SASL := {|
      SASL_Enable := false; SASL_Username := []; SASL_Password := []; JaasConfigFile := []; SASL_Method := [];
      SASL_Plugin := {| Plugin_Enable := false; Plugin_Command := []; Plugin_Mechanism := []; Plugin_Timeout := 0 |};
      GSSAPI := {| AuthType := []; KeyTabPath := []; KerberosConfigPath := []; ServiceName := [];
                   GSSAPI_Username := []; GSSAPI_Password := []; GSSAPI_Realm := []; SPNHostsMapping := ∅ |} |};
    Acks0Disabled := false |};
  ForwardProxy := {| Url := []; Scheme := []; Address := []; Proxy_Username := []; Proxy_Password := [] |}
|}.

(** ** [Validate] *)

Section validate.

(** What [Validate] uses of a [*url.URL]; the user with [Username()] and the
    string of [Password()]. *)
Record URL := { url_Scheme : bytes; url_Host : bytes; url_Port : bytes; url_User : option (bytes * bytes) }.
Context (url_Parse : bytes -> res URL) (ParseIP : bytes -> bool).

(** [if bad { return errors.New(msg) }] *)
Definition refuse (bad : bool) (msg : string) : res unit := if bad then Err (Errorf msg) else Ok tt.
Definition empty (s : bytes) : bool := bool_decide (s = []).

Definition validateGSSAPI (g : GSSAPIConfig) : res unit :=
  do? (if bool_decide (AuthType g = KRB5_USER_AUTH) then
         refuse (empty (GSSAPI_Password g)) "GSSAPI.Password is required for GSSAPI.AuthType USER"
       else if bool_decide (AuthType g = KRB5_KEYTAB_AUTH) then
         refuse (empty (KeyTabPath g)) "GSSAPI.KeyTabPath is required for GSSAPI.AuthType KEYTAB"
       else Err (Errorf "Unsupported GSSAPI.AuthType %s")) in
  do? refuse (empty (KerberosConfigPath g)) "GSSAPI KerberosConfigPath must not be empty" in
  do? refuse (empty (GSSAPI_Username g)) "GSSAPI Username must not be empty" in
  refuse (empty (GSSAPI_Realm g)) "GSSAPI Realm must not be empty".

Definition validateSASL (s : SASLConfig) : res unit :=
  let plugin := SASL_Plugin s in
  if SASL_Enable s then
    if Plugin_Enable plugin then
      do? refuse (empty (Plugin_Command plugin)) "Command is required when Kafka.SASL.Plugin.Enable is enabled" in
      do? refuse (Plugin_Timeout plugin <=? 0) "Kafka.SASL.Plugin.Timeout must be greater than 0" in
      refuse (negb (bool_decide (Plugin_Mechanism plugin = $"OAUTHBEARER")))
        "Mechanism OAUTHBEARER is required when Kafka.SASL.Plugin.Enable is enabled"
    else if bool_decide (SASL_Method s = $"GSSAPI") then validateGSSAPI (GSSAPI s)
    else if bool_decide (SASL_Method s = $"AWS_MSK_IAM") then Ok tt
    else refuse (empty (SASL_Username s) || empty (SASL_Password s))
           "SASL.Username and SASL.Password are required when SASL is enabled and plugin is not used"
  else refuse (Plugin_Enable plugin) "Kafka.SASL.Plugin.Enable must be disabled, when SASL is disabled".

Definition validateKafka (k : KafkaConfig) : res unit :=
  do? refuse (KeepAlive k <? 0) "KeepAlive must be greater or equal 0" in
  do? refuse (DialTimeout k <? 0) "DialTimeout must be greater or equal 0" in
  do? refuse (ReadTimeout k <? 0) "ReadTimeout must be greater or equal 0" in
  do? refuse (WriteTimeout k <? 0) "WriteTimeout must be greater or equal 0" in
  refuse (Kafka_MaxOpenRequests k <? 1) "MaxOpenRequests must be greater than 0".

Definition validateProxy (p : ProxyConfig) : res unit :=
  do? refuse ((len (BootstrapServers p) =? 0) && empty (SNIListenerAddress p))
        "list of bootstrap-server-mapping must not be empty unless sni-listener-address is configured" in
  do? refuse (empty (DefaultListenerIP p)) "DefaultListenerIP must not be empty" in
  do? refuse (negb (ParseIP (DefaultListenerIP p))) "DefaultListerIP is not a valid IP" in
  do? refuse (Proxy_RequestBufferSize p <? 1) "RequestBufferSize must be greater than 0" in
  do? refuse (Proxy_ResponseBufferSize p <? 1) "ResponseBufferSize must be greater than 0" in
  do? refuse (ListenerKeepAlive p <? 0) "ListenerKeepAlive must be greater or equal 0" in
  refuse (ProxyTLS_Enable p && (empty (ListenerKeyFile p) || empty (ListenerCertFile p)))
    "ListenerKeyFile and ListenerCertFile are required when Proxy TLS is enabled".

Definition validateGateway (g : GatewayConfig) (required timeout : string) : res unit :=
  do? refuse (Gateway_Enable g && (empty (Gateway_Command g) || empty (Gateway_Method g) || (Gateway_Magic g =? 0))) required in
  refuse (Gateway_Enable g && (Gateway_Timeout g <=? 0)) timeout.

Definition validateAuth (c : Config) : res unit :=
  let l := Local c in
  do? refuse (Local_Enable l && empty (Local_Command l)) "Command is required when Auth.Local.Enable is enabled" in
  do? refuse (Local_Enable l && (negb (bool_decide (Local_Mechanism l = $"PLAIN")) &&
                                 negb (bool_decide (Local_Mechanism l = $"OAUTHBEARER"))))
        "Mechanism PLAIN or OAUTHBEARER is required when Auth.Local.Enable is enabled" in
  do? refuse (Local_Enable l && (Local_Timeout l <=? 0)) "Auth.Local.Timeout must be greater than 0" in
  do? validateGateway (GatewayClient c)
        "Command, Method and Magic are required when Auth.Gateway.Client.Enable is enabled"
        "Auth.Gateway.Client.Timeout must be greater than 0" in
  validateGateway (GatewayServer c)
    "Command, Method and Magic are required when Auth.Gateway.Server.Enable is enabled"
    "Auth.Gateway.Server.Timeout must be greater than 0".

(** The forward proxy; what is assigned before an error is kept. *)
Definition set_Address (a : bytes) (f : ForwardProxyConfig) : ForwardProxyConfig :=
  {| Url := Url f; Scheme := Scheme f; Address := a; Proxy_Username := Proxy_Username f; Proxy_Password := Proxy_Password f |}.
Definition set_Scheme (a : bytes) (f : ForwardProxyConfig) : ForwardProxyConfig :=
  {| Url := Url f; Scheme := a; Address := Address f; Proxy_Username := Proxy_Username f; Proxy_Password := Proxy_Password f |}.
Definition set_User (u p : bytes) (f : ForwardProxyConfig) : ForwardProxyConfig :=
  {| Url := Url f; Scheme := Scheme f; Address := Address f; Proxy_Username := u; Proxy_Password := p |}.

Definition validateForwardProxy : M ForwardProxyConfig unit :=
  let* f := get in
  if empty (Url f) then ret tt
  else
    let* proxyUrl := lift (url_Parse (Url f)) in
    do* lift (refuse (empty (url_Port proxyUrl)) "Port part of ForwardProxy.Url must not be empty") in
    do* modify (set_Address (url_Host proxyUrl)) in
    do* lift (refuse (negb (bool_decide (url_Scheme proxyUrl = $"http")) && negb (bool_decide (url_Scheme proxyUrl = $"socks5")))
                "ForwardProxy.Url Scheme must be http or socks5") in
    do* modify (set_Scheme (url_Scheme proxyUrl)) in
    match url_User proxyUrl with
    | None => ret tt
    | Some (username, password) =>
        do* lift (refuse (empty username || empty password) "Both ForwardProxy Url Username and Password must be provided") in
        modify (set_User username password)
    end.

Definition set_MaxPorts (n : Z) (p : ProxyConfig) : ProxyConfig :=
  {| DefaultListenerIP := DefaultListenerIP p; BootstrapServers := BootstrapServers p;
     ExternalServers := ExternalServers p; DeterministicListeners := DeterministicListeners p;
     DialAddressMappings := DialAddressMappings p; DisableDynamicListeners := DisableDynamicListeners p;
     DynamicAdvertisedListener := DynamicAdvertisedListener p;
     DynamicSequentialMinPort := DynamicSequentialMinPort p; DynamicSequentialMaxPorts := n;
     Proxy_RequestBufferSize := Proxy_RequestBufferSize p; Proxy_ResponseBufferSize := Proxy_ResponseBufferSize p;
     ListenerKeepAlive := ListenerKeepAlive p; ProxyTLS_Enable := ProxyTLS_Enable p;
     ListenerCertFile := ListenerCertFile p; ListenerKeyFile := ListenerKeyFile p;
     SNIMapping := SNIMapping p; SNIListenerAddress := SNIListenerAddress p |}.

(** The ports of the dynamic listeners; a missing maximum is set so that no
    port exceeds 65535. *)
Definition validateDynamicPorts (p : ProxyConfig) : res ProxyConfig :=
  if DisableDynamicListeners p then Ok p
  else
    do? refuse ((DynamicSequentialMinPort p =? 0) && DeterministicListeners p)
      "Proxy.DynamicSequentialMinPort must be set to a positive value between 1 and 65535 when Proxy.DeterministicListeners is enabled" in
    do? refuse ((DynamicSequentialMinPort p =? 0) && (0 <? DynamicSequentialMaxPorts p))
      "Proxy.DynamicSequentialMinPort must be set to a positive value between 1 and 65535 when Proxy.DynamicSequentialMaxPorts is set" in
    Ok (if (DynamicSequentialMaxPorts p =? 0) && (0 <? DynamicSequentialMinPort p)
        then set_MaxPorts (uint16 (uint32 (65536 - uint32 (DynamicSequentialMinPort p)))) p
        else p).

Definition validateSNI (p : ProxyConfig) : res unit :=
  if empty (SNIListenerAddress p) then Ok tt
  else
    do? refuse (negb (ProxyTLS_Enable p)) "Proxy TLS must be enabled when SNIListenerAddress is configured" in
    refuse (size (SNIMapping p) =? 0)%nat "SNIMapping must not be empty when SNIListenerAddress is configured".

Definition validateListeners : M ProxyConfig unit :=
  let* p := get in
  let* p' := lift (validateDynamicPorts p) in
  do* modify (fun _ => p') in
  lift (validateSNI p').

(** A method on a field of the configuration. *)
Definition on_ForwardProxy (m : M ForwardProxyConfig unit) : M Config unit := fun c =>
  let '(r, f) := m (ForwardProxy c) in
  (r, {| Proxy := Proxy c; Local := Local c; GatewayClient := GatewayClient c; GatewayServer := GatewayServer c;
         Kafka := Kafka c; ForwardProxy := f |}).
Definition on_Proxy (m : M ProxyConfig unit) : M Config unit := fun c =>
  let '(r, p) := m (Proxy c) in
  (r, {| Proxy := p; Local := Local c; GatewayClient := GatewayClient c; GatewayServer := GatewayServer c;
         Kafka := Kafka c; ForwardProxy := ForwardProxy c |}).

Definition Validate : M Config unit :=
  let* c := get in
  do* lift (validateSASL (SASL (Kafka c))) in
  do* lift (validateKafka (Kafka c)) in
  do* lift (validateProxy (Proxy c)) in
  do* lift (refuse (SameClientCertEnable (Kafka c) &&
                    (negb (KafkaTLS_Enable (Kafka c)) || empty (KafkaTLS_ClientCertFile (Kafka c)) ||
                     negb (ProxyTLS_Enable (Proxy c))))
    "ClientCertFile is required on Kafka TLS and TLS must be enabled on both Proxy and Kafka connections when SameClientCertEnable is enabled") in
  do* lift (validateAuth c) in
  do* on_ForwardProxy validateForwardProxy in
  on_Proxy validateListeners.

End validate.

(** [NewListeners]: what the listeners take of the configuration.  Of two SNI
    names of one broker the reverse mapping keeps the last one visited; the
    order is not specified, [map_fold]'s here. *)
Definition newListeners (c : Config) : Listeners :=
  {| defaultListenerIP := DefaultListenerIP (Proxy c);
     dynamicAdvertisedListener := DynamicAdvertisedListener (Proxy c);
     deterministicListeners := DeterministicListeners (Proxy c);
     disableDynamicListeners := DisableDynamicListeners (Proxy c);
     dynamicSequentialMinPort := DynamicSequentialMinPort (Proxy c);
     dynamicSequentialMaxPorts := DynamicSequentialMaxPorts (Proxy c);
     brokerToSNIMapping := map_fold (fun sni broker m => <[broker := sni]> m) ∅ (SNIMapping (Proxy c));
     sniListenerAddress := SNIListenerAddress (Proxy c) |}.

(** ** Theorems

    The properties of the configuration. *)

(** ** Facts about the steps of [Validate] *)

Lemma refuse_Ok bad msg u : refuse bad msg = Ok u -> bad = false.
Proof. unfold refuse. by destruct bad. Qed.
Lemma refuse_run bad msg : bad = false -> refuse bad msg = Ok tt.
Proof. by intros ->. Qed.

Lemma rbind_inv {A B} (r : res A) (k : A -> res B) b : rbind r k = Ok b -> exists a, r = Ok a /\ k a = Ok b.
Proof. destruct r as [a|e|w]; [|done..]. eauto. Qed.

Lemma lift_bind_inv {S A B} (r : res A) (k : A -> M S B) s b s' :
  (let* a := lift r in k a) s = (Ok b, s') -> exists a, r = Ok a /\ k a s = (Ok b, s').
Proof. intros (a & s1 & H & Hk)%bind_inv. unfold lift in H. injection H as -> <-. eauto. Qed.

Section validate.
Context (url_Parse : bytes -> res URL) (ParseIP : bytes -> bool).

(** The forward proxy that validation leaves validates to itself. *)
Lemma validateForwardProxy_again f f' :
  validateForwardProxy url_Parse f = (Ok tt, f') -> Url f' = Url f /\ validateForwardProxy url_Parse f' = (Ok tt, f').
Proof.
  unfold validateForwardProxy. intros H. rewrite bind_Ok with (a := f) (s' := f) in H by done.
  destruct (empty (Url f)) eqn:Eu.
  { injection H as <-. split; [done|]. rewrite bind_Ok with (a := f) (s' := f) by done. by rewrite Eu. }
  apply lift_bind_inv in H as (u & Hu & H). apply lift_bind_inv in H as ([] & Hp & H).
  rewrite bind_Ok with (a := tt) (s' := set_Address (url_Host u) f) in H by done.
  apply lift_bind_inv in H as ([] & Hs & H).
  rewrite bind_Ok with (a := tt) (s' := set_Scheme (url_Scheme u) (set_Address (url_Host u) f)) in H by done.
  assert (forall g, Url g = Url f -> Address g = url_Host u -> Scheme g = url_Scheme u ->
            match url_User u with None => True | Some (n, p) => refuse (empty n || empty p)
               "Both ForwardProxy Url Username and Password must be provided" = Ok tt /\ Proxy_Username g = n /\ Proxy_Password g = p end ->
            validateForwardProxy url_Parse g = (Ok tt, g)) as Hagain.
  { intros g E1 E2 E3 E4. unfold validateForwardProxy. rewrite bind_Ok with (a := g) (s' := g) by done.
    rewrite E1, Eu. erewrite bind_Ok by (unfold lift; by rewrite Hu). erewrite bind_Ok by (unfold lift; by rewrite Hp).
    erewrite bind_Ok by reflexivity. erewrite bind_Ok by (unfold lift; by rewrite Hs). erewrite bind_Ok by reflexivity.
    assert (set_Scheme (url_Scheme u) (set_Address (url_Host u) g) = g) as -> by (rewrite <- E2, <- E3; by destruct g).
    destruct (url_User u) as [[n p]|]; [|done]. destruct E4 as (E4 & E5 & E6).
    erewrite bind_Ok by (unfold lift; by rewrite E4). unfold modify. f_equal. rewrite <- E5, <- E6. by destruct g. }
  destruct (url_User u) as [[n p]|].
  - apply lift_bind_inv in H as ([] & Hq & H). injection H as <-. split; [done|]. by apply Hagain.
  - injection H as <-. split; [done|]. by apply Hagain.
Qed.

Lemma default_MaxPorts n : 0 < n < 2 ^ 16 -> uint16 (uint32 (65536 - uint32 n)) = 65536 - n.
Proof. intros H. unfold uint16, uint32, wrapU. rewrite (Z.mod_small n), (Z.mod_small (65536 - n)), Z.mod_small by lia. done. Qed.

(** What validation makes of the ports: a maximum, if one is needed and not
    given, that ends the interval at 65535. *)
Lemma validateDynamicPorts_spec p p' :
  0 <= DynamicSequentialMinPort p < 2 ^ 16 -> 0 <= DynamicSequentialMaxPorts p < 2 ^ 16 ->
  validateDynamicPorts p = Ok p' ->
  validateDynamicPorts p' = Ok p' /\
  (p' = p \/ p' = set_MaxPorts (65536 - DynamicSequentialMinPort p) p) /\
  (DisableDynamicListeners p = false ->
     (DynamicSequentialMinPort p = 0 -> DeterministicListeners p = false /\ DynamicSequentialMaxPorts p' = 0) /\
     (0 < DynamicSequentialMinPort p -> 0 < DynamicSequentialMaxPorts p' < 2 ^ 16 /\
        (DynamicSequentialMaxPorts p = 0 -> DynamicSequentialMinPort p + DynamicSequentialMaxPorts p' = 65536))).
Proof.
  intros Hmin Hmax H. unfold validateDynamicPorts in H. destruct (DisableDynamicListeners p) eqn:Ed.
  { injection H as <-. unfold validateDynamicPorts. rewrite Ed. split; [done|]. split; [by left|done]. }
  apply rbind_inv in H as ([] & H1%refuse_Ok & H). apply rbind_inv in H as ([] & H2%refuse_Ok & H). injection H as <-.
  destruct (Z.eqb_spec (DynamicSequentialMinPort p) 0) as [E|E]; cbn [andb] in H1, H2.
  - apply Z.ltb_ge in H2. assert (DynamicSequentialMaxPorts p = 0) as E2 by lia.
    rewrite E, E2. change ((0 =? 0) && (0 <? 0)) with false. cbv iota.
    split; [unfold validateDynamicPorts; rewrite Ed, E, H1, E2; done|]. split; [by left|]. intros _. split; [done|lia].
  - assert (0 < DynamicSequentialMinPort p < 2 ^ 16) as Hp by lia.
    replace (0 <? DynamicSequentialMinPort p) with true by (symmetry; apply Z.ltb_lt; lia).
    rewrite default_MaxPorts by done. rewrite andb_true_r.
    assert (forall q, DisableDynamicListeners q = false -> DynamicSequentialMinPort q = DynamicSequentialMinPort p ->
              DynamicSequentialMaxPorts q <> 0 -> validateDynamicPorts q = Ok q) as Hq.
    { intros q Q1 Q2 Q3. unfold validateDynamicPorts. rewrite Q1, Q2.
      replace (DynamicSequentialMinPort p =? 0) with false by (symmetry; by apply Z.eqb_neq).
      by replace (DynamicSequentialMaxPorts q =? 0) with false by (symmetry; by apply Z.eqb_neq). }
    destruct (Z.eqb_spec (DynamicSequentialMaxPorts p) 0) as [E2|E2].
    + split; [apply Hq; [done|done|cbn; lia]|]. split; [by right|]. intros _. split; [done|]. cbn. lia.
    + split; [by apply Hq|]. split; [by left|]. intros _. split; [done|]. split; [lia|done].
Qed.

Lemma validateListeners_Ok p p' :
  validateListeners p = (Ok tt, p') <-> validateDynamicPorts p = Ok p' /\ validateSNI p' = Ok tt.
Proof.
  unfold validateListeners. rewrite bind_Ok with (a := p) (s' := p) by done. split.
  - intros (q & Hq & H)%lift_bind_inv. rewrite bind_Ok with (a := tt) (s' := q) in H by done.
    unfold lift in H. injection H as H <-. done.
  - intros [H1 H2]. erewrite bind_Ok by (unfold lift; by rewrite H1). erewrite bind_Ok by reflexivity.
    unfold lift. by rewrite H2.
Qed.

(** The parts of a successful validation. *)
Lemma Validate_Ok c c' :
  Validate url_Parse ParseIP c = (Ok tt, c') <->
  validateSASL (SASL (Kafka c)) = Ok tt /\ validateKafka (Kafka c) = Ok tt /\
  validateProxy ParseIP (Proxy c) = Ok tt /\
  SameClientCertEnable (Kafka c) &&
    (negb (KafkaTLS_Enable (Kafka c)) || empty (KafkaTLS_ClientCertFile (Kafka c)) || negb (ProxyTLS_Enable (Proxy c))) = false /\
  validateAuth c = Ok tt /\
  exists f p, validateForwardProxy url_Parse (ForwardProxy c) = (Ok tt, f) /\ validateListeners (Proxy c) = (Ok tt, p) /\
    c' = {| Proxy := p; Local := Local c; GatewayClient := GatewayClient c; GatewayServer := GatewayServer c;
            Kafka := Kafka c; ForwardProxy := f |}.
Proof.
  unfold Validate. rewrite bind_Ok with (a := c) (s' := c) by done. split.
  - intros H. apply lift_bind_inv in H as ([] & H1 & H). apply lift_bind_inv in H as ([] & H2 & H).
    apply lift_bind_inv in H as ([] & H3 & H). apply lift_bind_inv in H as ([] & H4%refuse_Ok & H).
    apply lift_bind_inv in H as ([] & H5 & H). apply bind_inv in H as ([] & c1 & H6 & H).
    unfold on_ForwardProxy in H6. destruct (validateForwardProxy _ _) as [r f] eqn:Ef. injection H6 as -> <-.
    unfold on_Proxy in H. cbn [Proxy] in H. destruct (validateListeners _) as [r p] eqn:Ep. injection H as -> <-.
    split_and!; try done. by exists f, p.
  - intros (H1 & H2 & H3 & H4 & H5 & f & p & Hf & Hp & ->).
    erewrite bind_Ok by (unfold lift; by rewrite H1). erewrite bind_Ok by (unfold lift; by rewrite H2).
    erewrite bind_Ok by (unfold lift; by rewrite H3). erewrite bind_Ok by (unfold lift; by rewrite refuse_run).
    erewrite bind_Ok by (unfold lift; by rewrite H5).
    erewrite bind_Ok by (unfold on_ForwardProxy; by rewrite Hf). unfold on_Proxy. cbn [Proxy]. by rewrite Hp.
Qed.
End validate.

(** ** Validation *)

Definition example_config : Config :=
  let c := NewConfig in
  {| Proxy := {|
       DefaultListenerIP := $"0.0.0.0";
       BootstrapServers := [{| cfg_BrokerAddress := $"kafka:9092"; cfg_ListenerAddress := $"127.0.0.1:30001";
                               cfg_AdvertisedAddress := $"127.0.0.1:30001" |}];
       ExternalServers := []; DeterministicListeners := true; DialAddressMappings := [];
       DisableDynamicListeners := false; DynamicAdvertisedListener := []; DynamicSequentialMinPort := 30000;
       DynamicSequentialMaxPorts := 0; Proxy_RequestBufferSize := 4096; Proxy_ResponseBufferSize := 4096;
       ListenerKeepAlive := 60 * second; ProxyTLS_Enable := false; ListenerCertFile := []; ListenerKeyFile := [];
       SNIMapping := ∅; SNIListenerAddress := [] |};
     Local := Local c; GatewayClient := GatewayClient c; GatewayServer := GatewayServer c; Kafka := Kafka c;
     ForwardProxy := {| Url := $"http://u:p@squid:3128"; Scheme := []; Address := []; Proxy_Username := []; Proxy_Password := [] |} |}.
Definition example_Parse (s : bytes) : res URL :=
  if bool_decide (s = $"http://u:p@squid:3128")
  then Ok {| url_Scheme := $"http"; url_Host := $"squid:3128"; url_Port := $"3128"; url_User := Some ($"u", $"p") |}
  else Err (Errorf "invalid URL").
Definition example_ParseIP (s : bytes) : bool := bool_decide (s = $"0.0.0.0").
Definition validated_example : Config := snd (Validate example_Parse example_ParseIP example_config).

(** Validating a configuration that was validated changes nothing more and
    succeeds; what validation changes is the address, scheme and user of the
    forward proxy, taken from its URL, and a maximum of dynamic ports that was
    not given. *)
Theorem Validate_idempotent (url_Parse : bytes -> res URL) (ParseIP : bytes -> bool) (c c' : Config) :
  0 <= DynamicSequentialMinPort (Proxy c) < 2 ^ 16 -> 0 <= DynamicSequentialMaxPorts (Proxy c) < 2 ^ 16 ->
  Validate url_Parse ParseIP c = (Ok tt, c') ->
  Validate url_Parse ParseIP c' = (Ok tt, c') /\
  Kafka c' = Kafka c /\ Local c' = Local c /\ GatewayClient c' = GatewayClient c /\ GatewayServer c' = GatewayServer c /\
  Url (ForwardProxy c') = Url (ForwardProxy c) /\
  (Proxy c' = Proxy c \/ Proxy c' = set_MaxPorts (65536 - DynamicSequentialMinPort (Proxy c)) (Proxy c)).
Proof.
  intros Hmin Hmax (H1 & H2 & H3 & H4 & H5 & f & p & Hf & Hp & ->)%Validate_Ok.
  destruct (validateForwardProxy_again _ _ _ Hf) as [Hu Hf'].
  apply validateListeners_Ok in Hp as [Hd Hs]. destruct (validateDynamicPorts_spec _ _ Hmin Hmax Hd) as (Hd' & Hc & _).
  cbn [Proxy Kafka Local GatewayClient GatewayServer ForwardProxy].
  split; [|split_and!; done]. apply Validate_Ok. cbn [Proxy Kafka Local GatewayClient GatewayServer ForwardProxy].
  split_and!; [done|done| | |done|].
  - by destruct Hc as [-> | ->].
  - by destruct Hc as [-> | ->].
  - exists f, p. split; [done|]. split; [by apply validateListeners_Ok|done].
Qed.

Lemma Validate_idempotent_witness :
  Validate example_Parse example_ParseIP validated_example = (Ok tt, validated_example) /\
  Address (ForwardProxy validated_example) = $"squid:3128" /\
  DynamicSequentialMaxPorts (Proxy validated_example) = 35536.
Proof.
  split; [|vm_compute; done].
  refine (proj1 (Validate_idempotent example_Parse example_ParseIP example_config validated_example _ _ _)).
  - bounds.
  - bounds.
  - vm_compute. reflexivity.
Defined.

(** Ports of the dynamic listeners under a validated configuration: with
    deterministic listeners there is a first port; every listener gets a port
    if and only if the interval of ports ends at 65535 or before, which a
    maximum that was left out ensures.*)
Theorem validated_ports (url_Parse : bytes -> res URL) (ParseIP : bytes -> bool) (c c' : Config) :
  0 <= DynamicSequentialMinPort (Proxy c) < 2 ^ 16 -> 0 <= DynamicSequentialMaxPorts (Proxy c) < 2 ^ 16 ->
  Validate url_Parse ParseIP c = (Ok tt, c') -> DisableDynamicListeners (Proxy c) = false ->
  let p := newListeners c' in
  (deterministicListeners p = true -> 0 < dynamicSequentialMinPort p) /\
  (0 < dynamicSequentialMinPort p ->
     ((forall off, 0 <= off -> exists port, nextDynamicPort p off = Ok port) <->
      dynamicSequentialMinPort p + dynamicSequentialMaxPorts p <= 65536) /\
     (DynamicSequentialMaxPorts (Proxy c) = 0 ->
      dynamicSequentialMinPort p + dynamicSequentialMaxPorts p = 65536)).
Proof.
  intros Hmin Hmax (_ & _ & _ & _ & _ & f & q & _ & Hq & ->)%Validate_Ok Hen p.
  apply validateListeners_Ok in Hq as [Hq _].
  destruct (validateDynamicPorts_spec _ _ Hmin Hmax Hq) as (_ & Hc & Hp). destruct (Hp Hen) as [Hp0 Hp1].
  assert (dynamicSequentialMinPort p = DynamicSequentialMinPort (Proxy c) /\
          deterministicListeners p = DeterministicListeners (Proxy c)) as [Emin Edet]
    by (subst p; cbn; by destruct Hc as [-> | ->]).
  assert (dynamicSequentialMaxPorts p = DynamicSequentialMaxPorts q) as Emax by done.
  rewrite Emin, Edet, Emax. split.
  - intros Hdet. destruct (Z.eq_dec (DynamicSequentialMinPort (Proxy c)) 0) as [E|]; [|lia].
    destruct (Hp0 E). congruence.
  - intros Hpos. destruct (Hp1 Hpos) as [Hm H0]. split; [|done].
    assert (forall off, 0 <= off -> nextDynamicPort p off =
      let port := uint16 (DynamicSequentialMinPort (Proxy c) + off mod DynamicSequentialMaxPorts q) in
      if port <? DynamicSequentialMinPort (Proxy c) then Err (Errorf "port assignment overflow %s %d: %d") else Ok port) as Hn.
    { intros off Ho. unfold nextDynamicPort. rewrite Emax, Emin.
      replace (DynamicSequentialMaxPorts q =? 0) with false by (symmetry; apply Z.eqb_neq; lia).
      pose proof (Z.mod_pos_bound off (DynamicSequentialMaxPorts q) ltac:(lia)).
      unfold uint16 at 2, wrapU. by rewrite (Z.mod_small (off mod _)) by lia. }
    split.
    + intros Hall. destruct (Z.le_gt_cases (DynamicSequentialMinPort (Proxy c) + DynamicSequentialMaxPorts q) 65536); [done|].
      destruct (Hall (65536 - DynamicSequentialMinPort (Proxy c))) as [port Hport]; [lia|].
      rewrite Hn in Hport by lia. rewrite Z.mod_small in Hport by lia.
      replace (DynamicSequentialMinPort (Proxy c) + (65536 - DynamicSequentialMinPort (Proxy c))) with 65536 in Hport by lia.
      change (uint16 65536) with 0 in Hport. cbv zeta in Hport.
      replace (0 <? DynamicSequentialMinPort (Proxy c)) with true in Hport by (symmetry; by apply Z.ltb_lt). done.
    + intros Hle off Ho. rewrite Hn by done.
      pose proof (Z.mod_pos_bound off (DynamicSequentialMaxPorts q) ltac:(lia)).
      unfold uint16, wrapU. rewrite Z.mod_small by lia. cbv zeta.
      replace (_ <? _) with false by (symmetry; apply Z.ltb_ge; lia). by eexists.
Qed.

Lemma validated_ports_witness :
  exists port, nextDynamicPort (newListeners validated_example) 123456 = Ok port.
Proof.
  assert (0 < dynamicSequentialMinPort (newListeners validated_example)) as Hpos by bounds.
  refine (proj2 (proj1 (proj2 (validated_ports example_Parse example_ParseIP example_config validated_example _ _ _ _) Hpos)) _ 123456 _).
  - bounds.
  - bounds.
  - vm_compute. reflexivity.
  - reflexivity.
  - bounds.
  - bounds.
Defined.

(** ** Mappings *)

(** A host the parsers can tell apart in a list. *)
Definition plain_host (h : bytes) : Prop := bracketless h /\ comma ∉ h.
Definition endpoint_ok (e : bytes * Z) : Prop := plain_host (fst e) /\ inS 32 (snd e).

(** A server mapping as it is written: remote, local, and the advertised
    endpoint if there is one. *)
Record mapping := { remote : bytes * Z; local : bytes * Z; advertised : option (bytes * Z) }.
Definition mapping_ok (m : mapping) : Prop :=
  endpoint_ok (remote m) /\ endpoint_ok (local m) /\ from_option endpoint_ok True (advertised m).
Definition print_mapping (m : mapping) : bytes :=
  joined (remote m) ++ comma :: joined (local m) ++
  match advertised m with Some a => comma :: joined a | None => [] end.
Definition mapping_config (m : mapping) : config_ListenerConfig :=
  {| cfg_BrokerAddress := joined (remote m); cfg_ListenerAddress := joined (local m);
     cfg_AdvertisedAddress := joined (default (local m) (advertised m)) |}.

Lemma comma_joined e : plain_host (fst e) -> comma ∉ joined e.
Proof.
  intros [_ Hc]. unfold joined, JoinHostPort.
  assert (comma ∉ Itoa (snd e)) as Hi.
  { intros [H|H]%Itoa_bytes; [|done]. vm_compute in H. destruct H as [H _]. by apply H. }
  assert (comma ∉ [lbracket]) as H1 by (apply (bool_decide_eq_true_1 _); reflexivity).
  assert (comma ∉ [rbracket; colon]) as H2 by (apply (bool_decide_eq_true_1 _); reflexivity).
  assert (comma ∉ [colon]) as H3 by (apply (bool_decide_eq_true_1 _); reflexivity).
  change ([rbracket; colon] ++ ?l) with ([rbracket; colon] ++ l).
  destruct (IndexByte _ _); rewrite !not_elem_of_app; tauto.
Qed.

Lemma SplitHostPort_joined e : endpoint_ok e -> SplitHostPort (joined e) = Ok e.
Proof.
  intros [[Hb _] Hn]. unfold joined. rewrite SplitHostPort_JoinHostPort by (done || by unfold inS in *; lia).
  rewrite wrapS_id by (done || lia). by destruct e.
Qed.

Lemma parseListenerConfig_print m : mapping_ok m -> parseListenerConfig (print_mapping m) = Ok (mapping_config m).
Proof.
  intros (Hr & Hl & Ha). unfold parseListenerConfig, print_mapping, mapping_config.
  rewrite Split_app by (apply comma_joined, Hr).
  destruct (advertised m) as [a|]; cbn [default from_option] in *.
  - rewrite Split_app by (apply comma_joined, Hl). rewrite Split_notin by (apply comma_joined, Ha).
    by rewrite !SplitHostPort_joined.
  - rewrite app_nil_r, Split_notin by (apply comma_joined, Hl). by rewrite !SplitHostPort_joined.
Qed.

Lemma parseAll_fmap {A B} (f : bytes -> res A) (print : B -> bytes) (g : B -> A) l :
  Forall (fun b => f (print b) = Ok (g b)) l -> parseAll f (print <$> l) = Ok (g <$> l).
Proof. induction 1 as [|b l H _ IH]; [done|]. cbn [fmap list_fmap parseAll]. rewrite H. cbn [rbind]. by rewrite IH. Qed.

(** Server mappings are read back as written: a list of mappings with plain
    hosts and ports gives exactly their configurations, the advertised address
    defaulting to the listener's; and the listeners accept such a list when no
    broker is mapped twice. *)
Theorem getListenerConfigs_roundtrip (l : list mapping) :
  Forall mapping_ok l ->
  getListenerConfigs (print_mapping <$> l) = Ok (mapping_config <$> l) /\
  (NoDup (remote <$> l) ->
   exists m, getBrokerToListenerConfig (mapping_config <$> l) [] = Ok m /\
     forall x, x ∈ l -> m !! joined (remote x) = Some (FromListenerConfig (mapping_config x))).
Proof.
  intros Hl. split.
  - apply parseAll_fmap. eapply Forall_impl; [exact Hl|]. apply parseListenerConfig_print.
  - intros Hd. unfold getBrokerToListenerConfig.
    assert (forall m : gmap bytes ListenerConfig, (forall x, x ∈ l -> m !! joined (remote x) = None) ->
      exists m', bootstrapServers (mapping_config <$> l) m = Ok m' /\
        (forall x, x ∈ l -> m' !! joined (remote x) = Some (FromListenerConfig (mapping_config x))) /\
        (forall k, (forall x, x ∈ l -> joined (remote x) <> k) -> m' !! k = m !! k)) as H.
    { induction l as [|x l IH]; intros m Hm.
      - exists m. split; [done|]. split; [by intros x Hx%elem_of_nil|done].
      - apply Forall_cons in Hl as [Hx Hl]. apply NoDup_cons in Hd as [Hn Hd].
        assert (forall y, y ∈ l -> joined (remote y) <> joined (remote x)) as Hne.
        { intros y Hy E. rewrite Forall_forall in Hl. destruct (Hl y Hy) as (Hry & _ & _), Hx as (Hrx & _ & _).
          apply Hn. apply JoinHostPort_inj in E as [E1 E2]; [|by apply Hry|by apply Hrx|apply Hry|apply Hrx].
          apply list_elem_of_fmap. exists y. split; [|done]. destruct (remote x), (remote y); cbn in *; congruence. }
        cbn [fmap list_fmap bootstrapServers]. change (cfg_BrokerAddress (mapping_config x)) with (joined (remote x)).
        rewrite Hm by apply list_elem_of_here.
        destruct (IH Hl Hd (<[joined (remote x) := FromListenerConfig (mapping_config x)]> m)) as (m' & -> & H1 & H2).
        { intros y Hy. rewrite lookup_insert_ne by (symmetry; by apply Hne). apply Hm. by right. }
        exists m'. split; [done|]. split.
        + intros y [->|Hy]%elem_of_cons; [|by apply H1].
          rewrite H2 by (intros z Hz; by apply Hne). by rewrite lookup_insert_eq.
        + intros k Hk. rewrite H2 by (intros z Hz; apply Hk; by right).
          rewrite lookup_insert_ne; [done|]. apply Hk. by left. }
    destruct (H ∅) as (m & -> & Hm & _); [intros; apply lookup_empty|]. by exists m.
Qed.

Lemma getListenerConfigs_roundtrip_witness :
  getListenerConfigs [$"kafka-1:9092,0.0.0.0:30001"; $"[::1]:9093,0.0.0.0:30002,proxy:30002"] =
    Ok [{| cfg_BrokerAddress := $"kafka-1:9092"; cfg_ListenerAddress := $"0.0.0.0:30001"; cfg_AdvertisedAddress := $"0.0.0.0:30001" |};
        {| cfg_BrokerAddress := $"[::1]:9093"; cfg_ListenerAddress := $"0.0.0.0:30002"; cfg_AdvertisedAddress := $"proxy:30002" |}].
Proof.
  refine (proj1 (getListenerConfigs_roundtrip
    [{| remote := ($"kafka-1", 9092); local := ($"0.0.0.0", 30001); advertised := None |};
     {| remote := ($"::1", 9093); local := ($"0.0.0.0", 30002); advertised := Some ($"proxy", 30002) |}] _)).
  repeat constructor; first [apply (bool_decide_eq_true_1 _); reflexivity | bounds].
Defined.
