(* ===== verification/Gssapi.v ===== *)
(** GSSAPI authentication of the proxy to the brokers (proxy/sasl_gssapi.go).

    The Kerberos library is a parameter: the client of the key distribution
    centre, the AP-REQ message, wrap tokens and ASN.1. *)
From Stdlib Require Import ZArith Lia Strings.Byte.
From stdpp Require Import base list strings gmap.
From S2P Require Import Prelude GoLib GoStrings Encoder Decoder Errors Schema Messages Net NetAddr Listeners Config SaslLocal SaslProxy.

Definition TOK_ID_KRB_AP_REQ : Z := 256.
Definition GSS_API_GENERIC_TAG : byte := x60.

(** ** Packages on the wire *)

(** The [uint64] size is compared with [math.MaxInt32]. *)
Definition writePackage (payload : bytes) : M conn Z :=
  do* SetDeadline in
  let length := len payload in
  let size := length + 4 in
  if MaxInt32 <? size then fail (Errorf "payload too large, will overflow int32")
  else do* Write (be_put 4 (uint32 length) ++ payload) in ret size.

Definition readPackage : M conn (bytes * Z) :=
  do* SetDeadline in
  let* lengthInBytes := ReadFull 4 in
  let* payloadBytes := ReadFull_make (be_value lengthInBytes) in
  ret (payloadBytes, 4 + len payloadBytes).

(** ** The authenticator *)

(** [binary.LittleEndian] of 32 bits. *)
Definition le_put32 (z : Z) : bytes := rev (be_put 4 z).
Definition le_value (b : bytes) : Z := be_value (rev b).

(** [flags] are [gssapi.ContextFlagInteg] and [gssapi.ContextFlagConf]. *)
Definition newAuthenticatorChecksum (flags : list Z) : bytes :=
  let a := splice (replicate 24 x00) 0 (le_put32 16) in
  foldl (fun a i => splice a 20 (le_put32 (Z.lor (le_value (take 4 (drop 20 a))) (uint32 i)))) a flags.

Section gssapi.
Context {X Client Ticket Key WrapToken : Type}.

(** What the code uses of github.com/jcmturner/gokrb5. *)
Record gokrb5 := {
  newKerberosClient : M X Client;
  Login : Client -> M X unit;
  GetServiceTicket : Client -> bytes -> M X (Ticket * Key);
  Destroy : Client -> M X unit;
  flags : list Z;
  (* [types.NewAuthenticator], [messages.NewAPReq] and its [Marshal] *)
  APReq_Marshal : Client -> Ticket -> Key -> bytes -> M X bytes;
  OIDKRB5 : res bytes;
  MarshalLengthBytes : Z -> bytes;
  Unmarshal : bytes -> res WrapToken;
  Verify : WrapToken -> Key -> bool * option error;
  Payload : WrapToken -> bytes;
  NewInitiatorWrapToken : bytes -> Key -> res WrapToken;
  WrapToken_Marshal : WrapToken -> res bytes
}.
Context (k : gokrb5) (cfg : GSSAPIConfig).

Definition createApReq (cl : Client) (ticket : Ticket) (sessionKey : Key) : M X bytes :=
  let* tb := APReq_Marshal k cl ticket sessionKey (newAuthenticatorChecksum (flags k)) in
  let aprBytes := be_put 2 TOK_ID_KRB_AP_REQ ++ tb in
  let* oidBytes := lift (OIDKRB5 k) in
  let tkoLengthBytes := MarshalLengthBytes k (len oidBytes + len aprBytes) in
  ret ([GSS_API_GENERIC_TAG] ++ tkoLengthBytes ++ oidBytes ++ aprBytes).

(** [fmt.Sprintf("%s/%s", g.gssapiConfig.ServiceName, host)] for the host of
    the address, or the one it is mapped to. *)
Definition spn (brokerAddress : bytes) : bytes :=
  let host := default [] (head (SplitN2 colon brokerAddress)) in
  let host := match SPNHostsMapping cfg !! host with
              | Some h => if bool_decide (h = []) then host else h
              | None => host
              end in
  ServiceName cfg ++ $"/" ++ host.

(** [defer m]: [m] runs whatever the outcome. *)
Definition deferring {S A} (d : M S unit) (m : M S A) : M S A := fun s =>
  let '(r, s1) := m s in (r, snd (d s1)).

Definition acceptWrapToken (encKey : Key) (receivedBytes : bytes) : M (conn * X) unit :=
  let* wrapTokenReq := lift (Unmarshal k receivedBytes) in
  let '(isValid, err) := Verify k wrapTokenReq encKey in
  if negb isValid then match err with Some e => fail e | None => ret tt end
  else
    let* wrapTokenResponse := lift (NewInitiatorWrapToken k (Payload k wrapTokenReq) encKey) in
    let* packBytes := lift (WrapToken_Marshal k wrapTokenResponse) in
    do* on_conn (writePackage packBytes) in ret tt.

Definition sendAndReceiveSASLGssapi (brokerAddress : bytes) : M (conn * X) unit :=
  let* cl := on_ext (newKerberosClient k) in
  do* on_ext (Login k cl) in
  let* t := on_ext (GetServiceTicket k cl (spn brokerAddress)) in
  let '(ticket, encKey) := t in
  deferring (on_ext (Destroy k cl))
    (let* aprBytes := on_ext (createApReq cl ticket encKey) in
     do* on_conn (writePackage aprBytes) in
     let* r := on_conn readPackage in
     acceptWrapToken encKey (fst r)).

End gssapi.
Arguments gokrb5 : clear implicits.

Example checksum_flags :
  newAuthenticatorChecksum [32; 16] =
    [x10; x00; x00; x00] ++ replicate 16 x00 ++ [x30; x00; x00; x00].
Proof. reflexivity. Qed.
Definition example_gssapi (m : gmap bytes bytes) : GSSAPIConfig :=
  {| AuthType := KRB5_USER_AUTH; KeyTabPath := []; KerberosConfigPath := $"/etc/krb5.conf"; ServiceName := $"kafka";
     GSSAPI_Username := $"alice"; GSSAPI_Password := $"secret"; GSSAPI_Realm := $"EXAMPLE"; SPNHostsMapping := m |}.
Example spn_mapped :
  spn (example_gssapi {[ $"127.0.0.1" := $"localhost" ]}) ($"127.0.0.1:9092") = $"kafka/localhost".
Proof. reflexivity. Qed.
(** An IPv6 address is cut at its first colon. *)
Example spn_ipv6 :
  spn (example_gssapi ∅) ($"[::1]:9092") = $"kafka/[".
Proof. reflexivity. Qed.
