(* ===== verification/SaslProxyTheorems.v ===== *)
(** The properties of the SASL clients of the proxy. *)
From Stdlib Require Import ZArith Lia Strings.Byte.
From stdpp Require Import base list strings gmap.
From S2P Require Import Prelude GoLib GoStrings NetAddr OAuthBearer OAuthFacts Encoder Decoder Errors Schema SchemaFacts Messages Net SaslLocal Auth SaslFacts Listeners SaslProxy SaslProxyFacts Config Gssapi.

(** ** Inputs the witnesses are evaluated on *)

(** A peer that sends nothing and closes. *)
Definition quiet : conn := {| rx := []; rx_end := EOF; tx := []; tx_err := None; deadline_err := None |}.
Definition proxy_plain : SASLPlainAuth :=
  {| p_clientID := $"proxy"; p_username := $"alice"; p_password := $"secret" |}.
Definition proxy_oauth : SASLOAuthBearerAuth nat :=
  {| o_clientID := $"proxy"; o_tokenProvider := fun n => (Ok {| Success := true; Status := 0; Token := $"abc.def" |}, S n) |}.
Definition accept_alice : bytes -> bytes -> M nat (bool * Z) := fun user password n =>
  (Ok (bool_decide (user = $"alice" /\ password = $"secret"), 0), S n).
Definition accept_token : bytes -> M nat (bool * Z) := fun token n =>
  (Ok (bool_decide (token = $"abc.def"), 0), S n).
Definition two_way_sasl : LocalSasl nat := NewLocalSasl true (Some accept_alice) (Some accept_token).
Definition refused : error -> bytes := fun _ => $"refused".

(** ** PLAIN and OAUTHBEARER *)

(** C21: The PLAIN client of the proxy and the proxy's own server agree.  Given
    the replies of the server, the client succeeds, having written a handshake
    and its credentials; the server that is sent these asks its authenticator
    about exactly the user and the password of the client, lets the client in
    when it accepts them, and answers what the client expects. *)
Theorem plain_client_and_server_agree {X} (b : SASLPlainAuth) (l : LocalSasl X)
    (Authenticate : bytes -> bytes -> M X (bool * Z)) (req : bytes) :
  handshakeRequest (plainHandshake b) = Ok req ->
  x00 ∉ p_username b -> x00 ∉ p_password b -> 2 + len (p_username b) + len (p_password b) <= MaxRequestSize ->
  authenticator l SASLPlain = Some (LocalSaslPlain (Some Authenticate)) ->
  (forall c, healthy c ->
     sendAndReceiveSASLPlain b (fed (handshake_reply SASLPlain ++ replicate 4 x00) c) =
       (Ok tt, sent (sizePrefixed req ++ plainAuthBytes b) c)) /\
  (forall d y, healthy d ->
     receiveAndSendSASLAuthV0 l (take 8 (sizePrefixed req)) (fed (drop 8 (sizePrefixed req) ++ plainAuthBytes b) d, y) =
       (let* r := on_ext (Authenticate (p_username b) (p_password b)) in
        if fst r then on_conn (Write (replicate 4 x00)) else fail (errLocalAuthFailed (p_username b)))
       (sent (handshake_reply SASLPlain) d, y)).
Proof.
  intros Hr Hu Hp Hl Ha. split.
  - intros c Hc. unfold sendAndReceiveSASLPlain. rewrite fed_app.
    destruct (handshake_body_spec SASLPlain) as [_ Hd]; [bounds|].
    erewrite bind_Ok by (eapply sendAndReceiveHandshake_run; [exact Hr|bounds|by apply DecodeMessage_decodes|done|
      by apply healthy_fed]).
    rewrite sent_fed, sendSaslAuthenticatePlain_run by (done || by apply healthy_sent). by rewrite sent_sent.
  - intros d y Hd. unfold receiveAndSendSASLAuthV0. rewrite fed_app.
    erewrite bind_Ok by (apply (receiveAndSendSaslV0orV1_run l (plainHandshake b)); [done|by left|done|by apply healthy_fed]).
    cbn [h_mechanism plainHandshake]. rewrite sent_fed. by apply receiveAndSendAuthV0_run; [| | |apply healthy_sent].
Qed.

Lemma plain_client_and_server_agree_witness :
  fst (receiveAndSendSASLAuthV0 two_way_sasl
         (take 8 (sizePrefixed (be_put 2 17 ++ be_put 2 0 ++ be_put 4 0 ++ be_put 2 5 ++ $"proxy" ++ be_put 2 5 ++ $"PLAIN")))
         (fed (drop 8 (sizePrefixed (be_put 2 17 ++ be_put 2 0 ++ be_put 4 0 ++ be_put 2 5 ++ $"proxy" ++ be_put 2 5 ++ $"PLAIN")) ++
               plainAuthBytes proxy_plain) quiet, O)) = Ok tt.
Proof.
  destruct (plain_client_and_server_agree proxy_plain two_way_sasl accept_alice
    (be_put 2 17 ++ be_put 2 0 ++ be_put 4 0 ++ be_put 2 5 ++ $"proxy" ++ be_put 2 5 ++ $"PLAIN")) as [_ H].
  - vm_compute. reflexivity.
  - apply (bool_decide_eq_true_1 _). reflexivity.
  - apply (bool_decide_eq_true_1 _). reflexivity.
  - bounds.
  - reflexivity.
  - rewrite H by done. vm_compute. reflexivity.
Defined.

(** C24: The OAUTHBEARER client of the proxy and the proxy's own server agree, for
    a token made of the characters the server's pattern takes (letters, digits,
    dots, underscores and hyphens; a token with another character, such as the
    tilde, plus, slash and equals sign that RFC 6750 allows, is cut there).
    The server that is sent the two requests of the client verifies exactly the
    token the client's provider gave; when it is accepted, the client that is
    sent the server's replies succeeds, and when it is rejected the client
    reports that the authentication failed.  The texts of errors are assumed
    to fit a protocol string. *)
Theorem oauth_client_and_server_agree {X Y} (Error_text : error -> bytes) (b : SASLOAuthBearerAuth X) (l : LocalSasl Y)
    (VerifyToken : bytes -> M Y (bool * Z)) (token hs req : bytes) (x x' : X) :
  getOAuthBearerToken b x = (Ok token, x') -> token_ok token ->
  handshakeRequest (oauthHandshake b) = Ok hs -> oauthRequest b token = Ok req ->
  authenticator l SASLOAuthBearer = Some (LocalSaslOauth VerifyToken) ->
  (forall e, len (Error_text e) <= 32767) ->
  forall d y ok st y', healthy d -> VerifyToken token y = (Ok (ok, st), y') ->
  exists r replies,
    receiveAndSendSASLAuthV1 Error_text l (take 8 (sizePrefixed hs)) (fed (drop 8 (sizePrefixed hs) ++ sizePrefixed req) d, y) =
      (r, (sent replies d, y')) /\
    (r = Ok tt <-> ok = true) /\
    (forall c, healthy c ->
       sendAndReceiveSASLOAuth b (fed replies c, x) =
         (if ok then Ok tt else Err (Errorf "SASL authentication failed, error message is '%v'"),
          (sent (sizePrefixed hs ++ sizePrefixed req) c, x'))).
Proof.
  intros Ht Htok Hhs Hreq Ha He d y ok st y' Hd Hv.
  set (r := if ok then Ok tt else Err (Errorf "local oauth verify token failed with status: %d")).
  set (body := match r with
               | Err e => authenticate_body KErrSASLAuthenticationFailed (Some (Error_text e))
               | _ => authenticate_body KErrNoError None
               end).
  assert (doLocalAuth (LocalSaslOauth VerifyToken) (Some (ToBytes token [] ∅)) y = (r, y')) as Hl.
  { rewrite doLocalAuthOauth_ToBytes by done. erewrite bind_Ok by exact Hv. by destruct ok. }
  exists r, (handshake_reply SASLOAuthBearer ++ reply 0 body). split; [|split; [by subst r; destruct ok|]].
  - unfold receiveAndSendSASLAuthV1. rewrite fed_app.
    erewrite bind_Ok by (apply (receiveAndSendSaslV0orV1_run l (oauthHandshake b)); [done|by right|done|by apply healthy_fed]).
    cbn [h_mechanism oauthHandshake]. rewrite sent_fed.
    erewrite receiveAndSendAuthV1_request by (exact Hreq || by apply healthy_sent).
    erewrite authenticateV0_run; [|exact Hreq|by apply healthy_sent|exact Hl|by intros; apply He|by subst r; destruct ok].
    by rewrite sent_sent.
  - intros c Hc. unfold sendAndReceiveSASLOAuth. rewrite fed_app.
    erewrite bind_Ok by (unfold on_ext; cbn [fst snd]; by rewrite Ht).
    destruct (handshake_body_spec SASLOAuthBearer) as [_ Hdec]; [bounds|].
    erewrite bind_Ok by (apply on_conn_run; eapply sendAndReceiveHandshake_run;
      [exact Hhs|bounds|by apply DecodeMessage_decodes|done|by apply healthy_fed]).
    rewrite sent_fed. unfold on_conn. cbn [fst snd].
    assert (exists resp, decodes SaslAuthenticateResponseV0_decode body resp /\
              sap0_Err resp = (if ok then KErrNoError else KErrSASLAuthenticationFailed) /\ len body <= 32775) as (resp & Hdb & Hcode & Hlb).
    { unfold body, r. destruct ok; eexists; (split; [apply authenticate_body_spec; [bounds|]|split; [reflexivity|by apply len_authenticate_body]]); done. }
    erewrite (sendSaslAuthenticateOAuth_run b token req 0 body resp);
      [|exact Hreq|lia|by apply DecodeMessage_decodes|by apply healthy_sent].
    rewrite Hcode, sent_sent. by destruct ok.
Qed.

Definition oauth_hs : bytes :=
  be_put 2 17 ++ be_put 2 1 ++ be_put 4 0 ++ be_put 2 5 ++ $"proxy" ++ be_put 2 11 ++ $"OAUTHBEARER".
Definition oauth_req : bytes :=
  be_put 2 36 ++ be_put 2 0 ++ be_put 4 0 ++ be_put 2 5 ++ $"proxy" ++ be_put 4 25 ++ ToBytes ($"abc.def") [] ∅.

Lemma oauth_client_and_server_agree_witness :
  exists r replies,
    receiveAndSendSASLAuthV1 refused two_way_sasl (take 8 (sizePrefixed oauth_hs))
      (fed (drop 8 (sizePrefixed oauth_hs) ++ sizePrefixed oauth_req) quiet, O) = (r, (sent replies quiet, 1%nat)) /\
    (r = Ok tt <-> true = true) /\
    (forall c, healthy c ->
       sendAndReceiveSASLOAuth proxy_oauth (fed replies c, O) =
         (Ok tt, (sent (sizePrefixed oauth_hs ++ sizePrefixed oauth_req) c, 1%nat))).
Proof.
  apply (oauth_client_and_server_agree refused proxy_oauth two_way_sasl accept_token ($"abc.def") oauth_hs oauth_req
           O 1%nat) with (st := 0).
  - reflexivity.
  - split; [discriminate|repeat constructor].
  - vm_compute. reflexivity.
  - vm_compute. reflexivity.
  - reflexivity.
  - intros e. bounds.
  - done.
  - vm_compute. reflexivity.
Defined.

(** ** SCRAM *)

(** A three-step conversation: the states count the steps; the server's final
    message must be ["v=ok"]. *)
Definition toy_Step (conv : nat) (challenge : bytes) : res bytes * nat :=
  match conv with
  | 0%nat => (Ok ($"n,,n=alice,r=1"), 1%nat)
  | 1%nat => (Ok ($"c=biws,p=x"), 2%nat)
  | 2%nat => if bool_decide (challenge = $"v=ok") then (Ok [], 3%nat) else (Err (Errorf "server validation failed"), 3%nat)
  | _ => (Err (Errorf "Conversation already completed"), conv)
  end.
Definition toy_Done (conv : nat) : bool := (3 <=? conv)%nat.
Definition toy_New (user password : bytes) : res nat := Ok 0%nat.
Definition proxy_scram : SASLSCRAMAuth :=
  {| s_clientID := $"proxy"; s_username := $"alice"; s_password := $"secret"; s_mechanism := SASLSCRAM256 |}.
Definition scram_reply (corr : Z) (challenge : bytes) : bytes :=
  reply corr (be_put 2 0 ++ be_put 2 (-1) ++ be_put 4 (len challenge) ++ challenge).
Definition scram_broker : conn :=
  fed (handshake_reply SASLSCRAM256 ++ scram_reply 1 ($"r=1,s=2") ++ scram_reply 2 ($"v=ok")) quiet.

(** C22: On a healthy connection the SCRAM client succeeds exactly when the
    connection carries a handshake without an error and then a complete
    dialogue: every message of the conversation goes out under the next
    correlation id, the broker answers under that id without an error, the
    answer is the challenge of the next step, and the conversation ends
    done.  Fuel does not matter: any more than the bytes to come gives the same
    run. *)
Theorem scram_is_a_dialogue {Conversation} (New256 New512 : bytes -> bytes -> res Conversation)
    (Step : Conversation -> bytes -> res bytes * Conversation) (Done : Conversation -> bool) (b : SASLSCRAMAuth) :
  (forall c k s, healthy c -> inS 32 k ->
     sendAndReceiveSASLScram New256 New512 Step Done b (c, k) = (Ok tt, s) <->
     exists hs rep conv0 conv msg out in_ c' k' conv',
       saslRequest 0 (s_clientID b) {| Version := 1; Mechanism := s_mechanism b |} = Ok hs /\ accepts_handshake rep /\
       newConversation New256 New512 b = Ok conv0 /\ Step conv0 [] = (Ok msg, conv) /\
       dialogue Step Done b (int32 (k + 1)) conv msg out in_ k' conv' /\
       c = fed (rep ++ in_) c' /\ s = (sent (sizePrefixed hs ++ out) c', k')) /\
  (forall f g conv msg s, (length (rx (fst s)) < f)%nat -> (length (rx (fst s)) < g)%nat ->
     scramLoop Step Done f b conv msg s = scramLoop Step Done g b conv msg s).
Proof.
  split; [|apply scramLoop_fuel]. intros c k s Hc Hk. assert (inS 32 (int32 (k + 1))) as Hk1 by (apply wrapS_range; lia). split.
  - unfold sendAndReceiveSASLScram. intros H. apply bind_inv in H as ([] & s1 & H1 & H).
    apply sendAndReceiveSASLHandshake_iff in H1 as (hs & rep & c1 & Hhs & Hrep & -> & ->); [|done].
    apply bind_inv in H as (conv0 & s2 & [Hn ->]%lift_inv & H).
    destruct (Step conv0 []) as [[msg|?|?] conv] eqn:Es; [|done..].
    apply scramLoop_sound in H as (out & in_ & c' & k' & conv' & Hdi & Ec & ->); [|by apply healthy_sent|done].
    apply sent_is_fed in Ec as (c2 & -> & -> & _); [|done].
    exists hs, rep, conv0, conv, msg, out, in_, c2, k', conv'. rewrite fed_app, sent_sent. by split_and!.
  - intros (hs & rep & conv0 & conv & msg & out & in_ & c' & k' & conv' & Hhs & Hrep & Hn & Es & Hdi & -> & ->).
    unfold sendAndReceiveSASLScram. rewrite fed_app.
    erewrite bind_Ok by (apply sendAndReceiveSASLHandshake_iff; [done|]; by eexists hs, rep, _).
    erewrite bind_Ok by (unfold lift; by rewrite Hn). rewrite Es, sent_fed.
    rewrite (scramLoop_complete Step Done b _ _ _ _ out in_ k' conv'); [by rewrite sent_sent|done|by apply healthy_sent|done|].
    cbn [fst]. unfold fed, sent, set_tx, set_rx. cbn [rx]. rewrite length_app. lia.
Qed.

Lemma scram_is_a_dialogue_witness :
  exists hs rep conv0 conv msg out in_ c' k' conv',
    saslRequest 0 ($"proxy") {| Version := 1; Mechanism := SASLSCRAM256 |} = Ok hs /\ accepts_handshake rep /\
    newConversation toy_New toy_New proxy_scram = Ok conv0 /\ toy_Step conv0 [] = (Ok msg, conv) /\
    dialogue toy_Step toy_Done proxy_scram 1 conv msg out in_ k' conv' /\
    scram_broker = fed (rep ++ in_) c' /\
    snd (sendAndReceiveSASLScram toy_New toy_New toy_Step toy_Done proxy_scram (scram_broker, 0)) =
      (sent (sizePrefixed hs ++ out) c', k').
Proof.
  refine (proj1 (proj1 (scram_is_a_dialogue toy_New toy_New toy_Step toy_Done proxy_scram) scram_broker 0 _ _ _) _).
  - done.
  - bounds.
  - vm_compute. reflexivity.
Defined.

(** ** GSSAPI *)

Lemma writePackage_run payload c :
  healthy c -> len payload + 4 <= MaxInt32 ->
  writePackage payload c = (Ok (len payload + 4), sent (be_put 4 (len payload) ++ payload) c).
Proof.
  intros Hc Hl. unfold writePackage. erewrite bind_Ok by (by apply SetDeadline_healthy). cbv zeta.
  replace (MaxInt32 <? _) with false by (symmetry; by apply Z.ltb_ge).
  erewrite bind_Ok by (by apply Write_healthy). by rewrite be_put_uint32.
Qed.

Lemma writePackage_inv payload c n c' :
  writePackage payload c = (Ok n, c') -> exists e, c' = set_tx (tx c ++ be_put 4 (len payload) ++ payload) e c.
Proof.
  unfold writePackage. intros H. apply bind_inv in H as (? & c1 & H1%SetDeadline_Ok & H). subst c1. cbv zeta in H.
  destruct (_ <? _); [done|]. apply bind_inv in H as (? & c2 & H2 & H). injection H as _ <-.
  rewrite be_put_uint32 in H2. by apply Write_Ok in H2.
Qed.

(** Packages survive the wire: what one side writes the other reads, up to
    the size an [int32] holds; anything larger is refused before a byte is
    written. *)
Theorem packages_roundtrip (payload : bytes) (c d : conn) :
  healthy c -> healthy d ->
  (len payload + 4 <= MaxInt32 ->
     exists frame, writePackage payload c = (Ok (len payload + 4), sent frame c) /\
       readPackage (fed frame d) = (Ok (payload, len payload + 4), d)) /\
  (MaxInt32 < len payload + 4 ->
     writePackage payload c = (Err (Errorf "payload too large, will overflow int32"), c)).
Proof.
  intros Hc Hd. split.
  - intros Hl. exists (be_put 4 (len payload) ++ payload). split; [by apply writePackage_run|].
    unfold readPackage. erewrite bind_Ok by (by apply SetDeadline_healthy). rewrite fed_app.
    erewrite bind_Ok by (apply ReadFull_fed'; by rewrite length_be_put).
    rewrite be_value_put. change (256 ^ Z.of_nat 4) with (2 ^ 32). unfold MaxInt32 in Hl.
    rewrite Z.mod_small by len_lia. erewrite bind_Ok by (apply ReadFull_make_fed; [done|lia]).
    unfold ret. do 3 f_equal. lia.
  - intros Hl. unfold writePackage. erewrite bind_Ok by (by apply SetDeadline_healthy). cbv zeta.
    by replace (MaxInt32 <? _) with true by (symmetry; by apply Z.ltb_lt).
Qed.

Lemma packages_roundtrip_witness :
  exists frame, writePackage ($"token") quiet = (Ok 9, sent frame quiet) /\
    readPackage (fed frame quiet) = (Ok ($"token", 9), quiet).
Proof. refine (proj1 (packages_roundtrip ($"token") quiet quiet _ _) _); [done|done|bounds]. Defined.

(** A GSSAPI exchange that succeeds went through every step: a ticket for the
    service of the broker's host was issued, the request for it was written, the
    broker's wrap token was verified with the key of that ticket, and a token
    with its payload was sent back.  This needs that [Verify] never reports a
    token as invalid without an error: the code returns that error, so a nil one
    would count as success.*)
Theorem gssapi_success_is_verified {X Client Ticket Key WrapToken} (k : gokrb5 X Client Ticket Key WrapToken)
    (cfg : GSSAPIConfig) (brokerAddress : bytes) (c c' : conn) (x x' : X) :
  (forall w key, Verify k w key <> (false, None)) ->
  sendAndReceiveSASLGssapi k cfg brokerAddress (c, x) = (Ok tt, (c', x')) ->
  exists cl ticket key x1 x2 apr x3 x4 token w w' pack,
    GetServiceTicket k cl (spn cfg brokerAddress) x1 = (Ok (ticket, key), x2) /\
    createApReq k cl ticket key x3 = (Ok apr, x4) /\
    rx c = be_put 4 (len token) ++ token ++ rx c' /\
    Unmarshal k token = Ok w /\ fst (Verify k w key) = true /\
    NewInitiatorWrapToken k (Payload k w) key = Ok w' /\ WrapToken_Marshal k w' = Ok pack /\
    tx c' = tx c ++ (be_put 4 (len apr) ++ apr) ++ (be_put 4 (len pack) ++ pack).
Proof.
  intros Hver H. unfold sendAndReceiveSASLGssapi in H.
  apply bind_inv in H as (cl & s1 & H1 & H). apply on_ext_inv in H1 as (x1 & _ & ->).
  apply bind_inv in H as (? & s2 & H2 & H). apply on_ext_inv in H2 as (x2 & _ & ->).
  apply bind_inv in H as ([ticket key] & s3 & H3 & H). apply on_ext_inv in H3 as (x3 & H3 & ->). cbn [fst snd] in *.
  unfold deferring in H. destruct (bind _ _ (c, x3)) as [r [cc xx]] eqn:E. injection H as -> H.
  assert (cc = c') as ->. { unfold on_ext in H. cbn [fst snd] in H. destruct (Destroy k cl xx). by injection H. }
  clear H. apply bind_inv in E as (apr & s4 & H4 & H). apply on_ext_inv in H4 as (x4 & H4 & ->). cbn [fst snd] in *.
  apply bind_inv in H as (n & s5 & H5 & H). apply on_conn_inv in H5 as (c5 & H5 & ->). cbn [fst snd] in *.
  apply writePackage_inv in H5 as (e5 & ->).
  apply bind_inv in H as ([token m] & s6 & H6 & H). apply on_conn_inv in H6 as (c6 & H6 & ->). cbn [fst snd] in *.
  unfold readPackage in H6. apply bind_inv in H6 as (? & c7 & H7%SetDeadline_Ok & H6). subst c7.
  apply bind_inv in H6 as (lb & c7 & H7 & H6). apply ReadFull_Ok in H7 as (Hrx7 & Hlb & Hc7).
  apply bind_inv in H6 as (pl & c8 & H8 & H6). apply ReadFull_make_Ok in H8 as (Hrx8 & Hpl & Hc8).
  injection H6 as <- _ <-. unfold acceptWrapToken in H.
  apply bind_inv in H as (w & s9 & [Hw ->]%lift_inv & H).
  destruct (Verify k w key) as [[] e] eqn:Ev; cbn [negb] in H; [|by destruct e; [|destruct (Hver w key)]].
  apply bind_inv in H as (w' & s10 & [Hw' ->]%lift_inv & H). apply bind_inv in H as (pack & s11 & [Hp ->]%lift_inv & H).
  apply bind_inv in H as (? & s12 & H12 & H). apply on_conn_inv in H12 as (c12 & H12 & ->). cbn [fst snd] in *.
  injection H as <- _. apply writePackage_inv in H12 as (e12 & ->).
  exists cl, ticket, key, x2, x3, apr, x3, x4, pl, w, w', pack. split_and!; try done.
  - cbn [rx set_tx]. cbn [rx set_tx] in Hrx7. rewrite Hrx7, Hrx8, Hpl. by rewrite be_put_value_length.
  - by rewrite Ev.
  - cbn [tx set_tx]. rewrite Hc8, Hc7. cbn [tx set_tx set_rx]. by rewrite <- !app_assoc.
Qed.

(** A library whose tokens are their payload, prefixed with ["W"]. *)
Definition toy_krb : gokrb5 nat unit unit bytes bytes := {|
  newKerberosClient := ret tt; Login := fun _ => ret tt;
  GetServiceTicket := fun _ s n => (Ok (tt, s), S n); Destroy := fun _ n => (Ok tt, O);
  flags := [32; 16]; APReq_Marshal := fun _ _ _ sum => ret sum; OIDKRB5 := Ok ($"oid");
  MarshalLengthBytes := fun n => [Zbyte n];
  Unmarshal := fun b => match b with x57 :: p => Ok p | _ => Err (Errorf "bad token") end;
  Verify := fun _ _ => (true, None); Payload := fun w => w;
  NewInitiatorWrapToken := fun p _ => Ok p; WrapToken_Marshal := fun w => Ok (x57 :: w) |}.
Definition gssapi_broker : conn := fed (be_put 4 3 ++ $"Wok") quiet.

Lemma gssapi_success_is_verified_witness :
  exists cl ticket key x1 x2 apr x3 x4 token w w' pack,
    GetServiceTicket toy_krb cl ($"kafka/broker") x1 = (Ok (ticket, key), x2) /\
    createApReq toy_krb cl ticket key x3 = (Ok apr, x4) /\
    rx gssapi_broker = be_put 4 (len token) ++ token ++ [] /\
    Unmarshal toy_krb token = Ok w /\ fst (Verify toy_krb w key) = true /\
    NewInitiatorWrapToken toy_krb (Payload toy_krb w) key = Ok w' /\ WrapToken_Marshal toy_krb w' = Ok pack /\
    tx (fst (snd (sendAndReceiveSASLGssapi toy_krb (example_gssapi ∅) ($"broker:9092") (gssapi_broker, O)))) =
      [] ++ (be_put 4 (len apr) ++ apr) ++ (be_put 4 (len pack) ++ pack).
Proof.
  refine (gssapi_success_is_verified toy_krb (example_gssapi ∅) ($"broker:9092") gssapi_broker
            (fst (snd (sendAndReceiveSASLGssapi toy_krb (example_gssapi ∅) ($"broker:9092") (gssapi_broker, O)))) O
            (snd (snd (sendAndReceiveSASLGssapi toy_krb (example_gssapi ∅) ($"broker:9092") (gssapi_broker, O)))) _ _).
  - intros w key. vm_compute. discriminate.
  - vm_compute. reflexivity.
Defined.

(** ** Replies with a short length *)

(** A reply whose length is below four makes the client ask for almost four
    gibibytes: the subtraction wraps around, the buffer is allocated, and the
    client takes whatever the broker sends for the payload until the
    connection ends.*)
Theorem short_reply_wraps_around (n corr : Z) (rest : bytes) (c : conn) (h p : string) :
  0 <= n < 4 -> len (rest ++ rx c) < 2 ^ 32 - 4 + n ->
  payloadSize (be_put 4 n ++ be_put 4 corr) = 2 ^ 32 - 4 + n /\
  exists e, receivePayload h p (fed (be_put 4 n ++ be_put 4 corr ++ rest) c) = (Err (Wrapf e p), set_rx [] c).
Proof.
  intros Hn Hl.
  assert (payloadSize (be_put 4 n ++ be_put 4 corr) = 2 ^ 32 - 4 + n) as E.
  { unfold payloadSize. rewrite take_app_length' by (by rewrite length_be_put).
    rewrite be_value_put. change (256 ^ Z.of_nat 4) with (2 ^ 32). rewrite Z.mod_small by lia.
    unfold uint32, wrapU. rewrite <- (Z.mod_add (n - 4) 1) by lia. rewrite Z.mod_small by lia. lia. }
  split; [done|]. unfold receivePayload. rewrite (app_assoc (be_put 4 n)), fed_app.
  erewrite bind_Ok by (apply wrapf_run, ReadFull_fed'; by rewrite length_app, !length_be_put). rewrite E.
  unfold wrapf, ReadFull_make. erewrite bind_Ok by (unfold lift, makeslice, maxAlloc;
    replace (2 ^ 32 - 4 + n <? 0) with false by (symmetry; apply Z.ltb_ge; lia);
    replace (2 ^ 48 <? 1 * (2 ^ 32 - 4 + n)) with false by (symmetry; apply Z.ltb_ge; lia); reflexivity).
  unfold ReadFull. replace (_ <=? _)%nat with false
    by (symmetry; apply Nat.leb_gt; unfold fed, set_rx; cbn [rx]; unfold len in Hl; lia).
  eexists. reflexivity.
Qed.

Lemma short_reply_wraps_around_witness :
  payloadSize (be_put 4 0 ++ be_put 4 0) = 4294967292 /\
  exists e, receivePayload "header" "payload" (fed (be_put 4 0 ++ be_put 4 0 ++ $"junk") quiet) =
    (Err (Wrapf e "payload"), set_rx [] quiet).
Proof. apply (short_reply_wraps_around 0 0 ($"junk") quiet "header" "payload"); bounds. Defined.
