(* ===== verification/LoopPanics.v ===== *)
(** A loop that panics: [withRecover] recovers the panic above [copyThenClose],
    so nothing closes the connections; and a client reaches that state before it
    is authenticated. *)
From Stdlib Require Import ZArith Lia Strings.Byte.
From stdpp Require Import base list strings gmap.
From S2P Require Import Prelude GoLib GoStrings OAuthBearer OAuthFacts Encoder Decoder Errors Schema Messages Net Filters SaslLocal Responses Auth SaslFacts SaslTheorems Processor ProcessorFacts ProcessorTheorems Loops SaslProxy SaslProxyFacts.

(** ** Open connections *)

Definition is_open (c : conn) : Prop := tx_err c = None /\ deadline_err c = None.

Create HintDb open discriminated.

(** Reading leaves a connection open. *)
Lemma open_reads {A} (m : M conn A) : reads m -> preserves is_open m.
Proof. intros Hm c Hc. destruct (Hm c) as (b & _ & ->). done. Qed.
Lemma open_SetDeadline : preserves is_open SetDeadline.
Proof. intros c H. unfold SetDeadline. by destruct (deadline_err c). Qed.
Lemma open_Write b : preserves is_open (Write b).
Proof. intros c [H1 H2]. unfold Write. by rewrite H1. Qed.
Lemma open_ReadFull n : preserves is_open (ReadFull n).
Proof. apply open_reads, reads_ReadFull. Qed.
Lemma open_ReadFull_make n : preserves is_open (ReadFull_make n).
Proof. apply open_reads, net_reads_bind; [apply reads_lift|]. intros. apply reads_ReadFull. Qed.
Lemma open_MaybeRead tf : preserves is_open (MaybeRead tf).
Proof. apply open_reads, reads_MaybeRead. Qed.
#[local] Hint Resolve open_SetDeadline open_Write open_ReadFull open_ReadFull_make open_MaybeRead : open.

Section panics.
Context {X : Type} (Error_text : error -> bytes) (p : processor X).

Definition both_open (w : world X) : Prop := is_open (client w) /\ is_open (broker w).

Lemma both_open_client {A} (m : M conn A) : preserves is_open m -> preserves both_open (on_client m).
Proof.
  intros Hm w [Hc Hb]. unfold on_client. specialize (Hm _ Hc). by destruct (m (client w)).
Qed.
Lemma both_open_broker {A} (m : M conn A) : preserves is_open m -> preserves both_open (on_broker m).
Proof.
  intros Hm w [Hc Hb]. unfold on_broker. specialize (Hm _ Hb). by destruct (m (broker w)).
Qed.
Lemma both_open_outside {A} (m : M X A) : preserves both_open (on_outside m).
Proof. intros w H. unfold on_outside. by destruct (m _). Qed.
Lemma both_open_lift {A} (r : res A) : preserves both_open (lift r).
Proof. by intros w. Qed.
Lemma both_open_returning {A} b (m : M (world X) A) : preserves both_open m -> preserves both_open (returning b m).
Proof. by apply preserves_returning. Qed.
#[local] Hint Resolve both_open_client both_open_broker both_open_outside both_open_lift both_open_returning
  preserves_ret preserves_fail preserves_bind : open.

Lemma both_open_response_stage pc m : response_stage p pc = Some m -> preserves both_open m.
Proof.
  assert (preserves both_open (getNextResponseHandler (X:=X))) as Hg
    by (intros w H; unfold getNextResponseHandler; by destruct (nextResponseHandlerChannel w)).
  assert (preserves both_open (receiveRequestKeyVersion (X:=X))) as Hr
    by (intros w H; unfold receiveRequestKeyVersion; by destruct (openRequestsChannel w)).
  destruct pc as [|[]|hdr rh|hdr rh r|o]; intros [= <-];
    (apply preserves_bind; [|intros; apply preserves_ret]); [done| | |auto with open|].
  - unfold readResponseHeaderStage. repeat (apply preserves_bind; [auto with open|intros]). auto with open.
  - unfold copySaslAuthResponse. repeat (apply preserves_bind; [auto with open|intros]). auto with open.
  - unfold forwardResponseStage. do 4 (apply preserves_bind; [auto with open|intros]).
    destruct (_ <? 0); [auto with open|]. do 2 (apply preserves_bind; [auto with open|intros]).
    apply preserves_bind; [destruct (filterChain p); auto with open|intros].
    apply preserves_bind; auto with open.
Qed.

(** The request loop has panicked: then only the response loop runs, and the
    connections are open until it fails with an error. *)
Definition hung (y : string) (s : sys X) : Prop :=
  rq s = ReqStopped (Panic y) /\ (both_open (sw s) \/ exists e, rs s = RespStopped (Err e)).

Lemma hung_step y s s' : step Error_text p s s' -> hung y s -> hung y s'.
Proof.
  intros [s0 m w pc e l Hm Hr|s0 m w r o Hm Hr Ho|s0 m w pc a t Hm Hr|s0 m w r o Hm Hr Ho|s0 Hc|s0 x] [Hq Ho'].
  - by rewrite Hq in Hm.
  - by rewrite Hq in Hm.
  - split; [exact Hq|]. destruct Ho' as [Ho'|[e He]]; [left|by rewrite He in Hm].
    pose proof (both_open_response_stage _ _ Hm (sw s0) Ho') as H. by rewrite Hr in H.
  - split; [exact Hq|]. destruct Ho' as [Ho'|[e He]]; [|by rewrite He in Hm].
    left. pose proof (both_open_response_stage _ _ Hm (sw s0) Ho') as H. by rewrite Hr in H.
  - split; [exact Hq|]. right. destruct Hc as [[e He]|[e He]]; [congruence|by exists e].
  - split; [exact Hq|]. destruct Ho' as [Ho'|?]; [by left|by right].
Qed.

Lemma hung_reachable y s s' : reachable Error_text p s s' -> hung y s -> hung y s'.
Proof. induction 1; [done|]. intros. by eapply hung_step; [|auto]. Qed.
End panics.

(** ** A client that makes the loop panic *)

(** An authorization without a token. *)
Definition tokenless : bytes := message [] [(saslOauthAuthKey, $"Bearer")].

(** The client asks for OAUTHBEARER and sends it: a [SaslHandshake] of version
    1 and a [SaslAuthenticate] of version 0. *)
Definition tokenless_handshake : SASLHandshake :=
  {| h_clientID := $"test"; h_version := 1; h_mechanism := SASLOAuthBearer |}.
Definition tokenless_first : bytes :=
  be_put 2 17 ++ be_put 2 1 ++ be_put 4 0 ++ be_put 2 4 ++ $"test" ++ be_put 2 11 ++ $"OAUTHBEARER".
Definition tokenless_second : bytes :=
  be_put 2 36 ++ be_put 2 0 ++ be_put 4 0 ++ be_put 2 4 ++ $"test" ++ be_put 4 (len tokenless) ++ tokenless.
Definition tokenless_requests : bytes := sizePrefixed tokenless_first ++ sizePrefixed tokenless_second.

Definition tokenless_message : string := "index out of range [1] with length 0".

Lemma set_rx_fed b1 b2 rest c : set_rx (b1 ++ b2 ++ rest) c = fed b1 (fed b2 (set_rx rest c)).
Proof. done. Qed.

Section attack.
Context {X : Type} (Error_text : error -> bytes) (p : processor X).
Context (VerifyToken : bytes -> M X (bool * Z)).
Hypothesis Hon : enabled (localSasl p) = true.
Hypothesis Hauth : authenticator (localSasl p) SASLOAuthBearer = Some (LocalSaslOauth VerifyToken).
Hypothesis Hkey : apiKeySaslHandshake ∉ forbiddenApiKeys p.

(** The server panics on the token it does not find. *)
Lemma tokenless_exchange c x :
  SaslProxyFacts.healthy c ->
  receiveAndSendSASLAuthV1 Error_text (localSasl p) (take 8 (sizePrefixed tokenless_first))
    (fed (drop 8 (sizePrefixed tokenless_first)) (fed (sizePrefixed tokenless_second) c), x) =
  (Panic tokenless_message, (SaslProxyFacts.sent (handshake_reply SASLOAuthBearer) c, x)).
Proof.
  intros Hc. unfold receiveAndSendSASLAuthV1.
  pose proof (receiveAndSendSaslV0orV1_run (localSasl p) tokenless_handshake tokenless_first (LocalSaslOauth VerifyToken)
    (fed (sizePrefixed tokenless_second) c) x ltac:(vm_compute; reflexivity) (or_intror eq_refl) Hauth (healthy_fed _ _ Hc)) as E.
  cbn [h_version h_mechanism tokenless_handshake] in E. erewrite bind_Ok by exact E. rewrite sent_fed.
  assert (saslRequest 0 ($"test") {| sar0_SaslAuthBytes := Some tokenless |} = Ok tokenless_second) as Hr
    by (vm_compute; reflexivity).
  clear E. set (hr := handshake_reply SASLOAuthBearer). clearbody hr. revert Hr. generalize tokenless_second. intros req Hr.
  rewrite (receiveAndSendAuthV1_request Error_text _ _ _ _ _ _ Hr) by (by apply healthy_sent).
  unfold authenticateV0.
  erewrite bind_Ok by (unfold lift; rewrite (saslRequest_decodes 0 _ _ {| sar0_SaslAuthBytes := None |} _ Hr); done || bounds).
  cbn [Body mbind option_bind sar0_SaslAuthBytes].
  assert (doLocalAuth (LocalSaslOauth VerifyToken) (Some tokenless) x = (Panic tokenless_message, x)) as Ed.
  { unfold doLocalAuth, doLocalAuthOauth, bind, lift. change (default [] (Some tokenless)) with tokenless.
    by replace (GetClientInitialResponse tokenless) with (@Panic (bytes * bytes * gmap bytes bytes) tokenless_message)
      by (vm_compute; reflexivity). }
  unfold bind, on_ext, attempt. cbn [fst snd]. by rewrite Ed.
Qed.
(** The request loop, with the handler taken, reads the handshake. *)
Lemma tokenless_stage c b x rest :
  is_open c -> is_open b -> rx c = tokenless_requests ++ rest ->
  exists w, readRequestStage Error_text p (set_channels [] [] [defaultResponseHandler] (initial c b x)) =
      (Panic tokenless_message, w) /\ both_open w /\ localSaslDone w = false.
Proof.
  intros [Hc1 Hc2] [Hb1 Hb2] Hrx. set (w0 := set_channels [] [] [defaultResponseHandler] (initial c b x)).
  unfold readRequestStage.
  erewrite bind_Ok by (by apply returning_run, client_SetDeadline).
  erewrite bind_Ok by (by apply returning_run, broker_SetDeadline).
  set (kv := take 8 (sizePrefixed tokenless_first)). set (body := drop 8 (sizePrefixed tokenless_first)).
  assert (rx (client w0) = kv ++ body ++ sizePrefixed tokenless_second ++ rest) as Hrx1.
  { cbn [client w0 set_channels initial]. rewrite Hrx. unfold tokenless_requests, kv, body.
    by rewrite (app_assoc (take 8 _)), take_drop, <- app_assoc. }
  erewrite bind_Ok by (apply returning_run, (client_ReadFull 8 kv _ _ Hrx1); reflexivity).
  erewrite bind_Ok by (apply returning_run; unfold lift;
    replace (DecodeMessage kv RequestKeyVersion_decode)
      with (@Ok RequestKeyVersion {| Length := len tokenless_first; ApiKey := 17; ApiVersion := 1 |})
      by (vm_compute; reflexivity); reflexivity).
  cbn [ApiKey]. change ((17 <? minRequestApiKey) || (maxRequestApiKey <? 17)) with false. cbv iota.
  rewrite bool_decide_false by done.
  set (w1 := client_left _ w0). unfold bind at 1, handleLocalSasl. unfold bind at 1, get. rewrite Hon.
  cbn [negb]. change (localSaslDone w1) with false. cbv iota. cbn [ApiKey ApiVersion].
  change (17 =? apiKeySaslHandshake) with true. change (1 =? 0) with false. change (1 =? 1) with true. cbv iota.
  unfold bind at 1, returning at 1, on_client_ext.
  change (client w1) with (set_rx (body ++ sizePrefixed tokenless_second ++ rest) c). rewrite set_rx_fed.
  rewrite (tokenless_exchange _ (ext w1)) by (by split).
  eexists. split; [reflexivity|]. split; [split; [by split|by split]|reflexivity].
Qed.

Lemma tokenless_panics c b x rest :
  is_open c -> is_open b -> rx c = tokenless_requests ++ rest ->
  exists s, reachable Error_text p (start c b x) s /\ localSaslDone (sw s) = false /\
    rq s = ReqStopped (Panic tokenless_message) /\ both_open (sw s).
Proof.
  intros Hc Hb Hrx. destruct (tokenless_stage c b x rest Hc Hb Hrx) as (w & E & Ho & Hl).
  set (s1 := tick Error_text p true (start c b x)).
  destruct (tick_request Error_text p (readRequestStage Error_text p)
    (fun o => (match o with Handled => ReqIdle | Forward r payload mr => ReqRegister r payload mr end, [], [])) s1 eq_refl)
    as (H1 & H2 & _).
  change (sw s1) with (set_channels (X:=X) [] [] [defaultResponseHandler] (initial c b x)) in H1, H2. rewrite E in H1, H2.
  exists (tick Error_text p true s1). rewrite H1, H2. split_and!; try done.
  apply (run_reachable Error_text p _ [true; true]), reachable_refl.
Qed.
End attack.

(** C38: a panic in the request loop is recovered without closing anything: from
    then on no step stops the loop otherwise, and both connections stay open
    until the response loop fails with an error of its own.  And a client that
    is not authenticated can cause one: with local SASL on and a token
    authenticator configured, a client that begins with the 2 requests of
    [tokenless_requests] brings its connection into that state, whatever the
    authenticator, the broker and the rest of its bytes are. *)
Theorem panicked_request_loop_closes_nothing {X} (Error_text : error -> bytes) (p : processor X) :
  (forall (y : string) (s s' : sys X),
    rq s = ReqStopped (Panic y) -> both_open (sw s) -> reachable Error_text p s s' ->
    (forall e, rs s' <> RespStopped (Err e)) ->
    rq s' = ReqStopped (Panic y) /\ both_open (sw s')) /\
  (forall (VerifyToken : bytes -> M X (bool * Z)) (c b : conn) (x : X) (rest : bytes),
    enabled (localSasl p) = true ->
    authenticator (localSasl p) SASLOAuthBearer = Some (LocalSaslOauth VerifyToken) ->
    apiKeySaslHandshake ∉ forbiddenApiKeys p ->
    is_open c -> is_open b -> rx c = tokenless_requests ++ rest ->
    exists s, reachable Error_text p (start c b x) s /\ localSaslDone (sw s) = false /\
      rq s = ReqStopped (Panic tokenless_message) /\ both_open (sw s)).
Proof.
  split.
  - intros y s s' Hq Ho Hr He.
    destruct (hung_reachable Error_text p y s s' Hr) as [Hq' [Ho'|[e He']]]; [by split; [|left]|done|].
    by destruct (He e).
  - intros VerifyToken c b x rest Hon Ha Hk Hc Hb Hrx.
    exact (tokenless_panics Error_text p VerifyToken Hon Ha Hk c b x rest Hc Hb Hrx).
Qed.

(** ** Witness *)

(** A server that accepts every token; a broker that sends nothing and stays
    connected. *)
Definition oauth_config : ProcessorConfig (list (bytes * Z)) :=
  {| MaxOpenRequests := 1; cfg_NetAddressMappingFunc := None; cfg_RequestBufferSize := 0;
     cfg_ResponseBufferSize := 0;
     cfg_LocalSasl := NewLocalSasl true None (Some (fun _ => ret (true, 0))); cfg_AuthServer := no_server;
     cfg_ForbiddenApiKeys := []; cfg_ProducerAcks0Disabled := false; cfg_FilterChain := None |}.
Definition oauth_processor := newProcessor oauth_config.
Definition silent (b : bytes) : conn :=
  {| rx := b; rx_end := Errorf "i/o timeout"; tx := []; tx_err := None; deadline_err := None |}.

Lemma panicked_request_loop_closes_nothing_witness :
  exists s : sys (list (bytes * Z)),
    reachable example_text oauth_processor (start (silent tokenless_requests) (silent []) []) s /\
    localSaslDone (sw s) = false /\ rq s = ReqStopped (Panic tokenless_message) /\ both_open (sw s) /\
    forall s', reachable example_text oauth_processor s s' -> (forall e, rs s' <> RespStopped (Err e)) ->
      rq s' = ReqStopped (Panic tokenless_message) /\ both_open (sw s').
Proof.
  destruct (panicked_request_loop_closes_nothing example_text oauth_processor) as [H1 H2].
  destruct (H2 (fun _ => ret (true, 0)) (silent tokenless_requests) (silent []) [] []) as (s & Hr & Hl & Hq & Ho).
  - reflexivity.
  - reflexivity.
  - apply not_elem_of_nil.
  - by split.
  - by split.
  - symmetry. apply app_nil_r.
  - exists s. split; [exact Hr|]. split; [exact Hl|]. split; [exact Hq|]. split; [exact Ho|].
    intros s'. by apply H1.
Defined.
