(* ===== verification/ConnSet.v ===== *)
(** The set of client connections (proxy/common.go, [ConnSet]): a map from
    broker addresses to the connections to them, in the order they came, and
    that it implements a multiset of pairs.  Its methods hold a lock, so each
    is one step. *)
From Stdlib Require Import ZArith Lia Strings.Byte.
From stdpp Require Import base list strings gmap gmultiset.
From S2P Require Import Prelude GoLib.

Abbreviation ConnSet C := (gmap bytes (list C)).

Section connset.
Context {C : Type} `{Countable C}.

Definition NewConnSet : ConnSet C := ∅.

(** [c.m[id]], nil when there is none. *)
Definition conns_of (c : ConnSet C) (id : bytes) : list C := default [] (c !! id).

Definition Add (id : bytes) (conn : C) : M (ConnSet C) unit :=
  modify (fun c => <[id := conns_of c id ++ [conn]]> c).

(** The order of a map is not specified; [map_to_list]'s here. *)
Definition IDs (c : ConnSet C) : list bytes := (map_to_list c).*1.

Definition Conns (ids : list bytes) (c : ConnSet C) : list C := concat (conns_of c <$> ids).

Definition Count (c : ConnSet C) : gmap bytes Z := len <$> c.

Definition Remove (id : bytes) (conn : C) : M (ConnSet C) unit := fun c =>
  let conns := conns_of c id in
  match fst <$> list_find (fun cc => cc = conn) conns with
  | None => (Err (Errorf "couldn't find connection %v for id %s"), c)
  | Some pos =>
      (Ok tt, if len conns =? 1 then delete id c
              else <[id := take pos conns ++ drop (S pos) conns]> c)
  end.

(** Closes every connection and collects the errors. *)
Definition Close {X} (close : C -> X -> option error * X) (c : ConnSet C) : M X unit := fun x =>
  let '(failed, x') :=
    fold_left (fun '(failed, x) conn =>
                 let '(e, x') := close conn x in (failed || bool_decide (is_Some e), x'))
      (concat (map_to_list c).*2) (false, x) in
  (if failed : bool then Err (Errorf "%s close error: %v") else Ok tt, x').

(** ** The multiset *)

(** Every address of the map has a connection. *)
Definition wf (c : ConnSet C) : Prop := map_Forall (fun _ l => l <> []) c.

(** The pairs in the set. *)
Definition pairs (c : ConnSet C) (id : bytes) : gmultiset C := list_to_set_disj (conns_of c id).

Lemma wf_New : wf NewConnSet.
Proof. apply map_Forall_empty. Qed.

Lemma conns_of_insert c id l : conns_of (<[id := l]> c) id = l.
Proof. unfold conns_of. by rewrite lookup_insert_eq. Qed.
Lemma conns_of_insert_ne c id id' l : id <> id' -> conns_of (<[id := l]> c) id' = conns_of c id'.
Proof. intros Hne. unfold conns_of. by rewrite lookup_insert_ne. Qed.

Lemma Add_spec id conn c :
  exists c', Add id conn c = (Ok tt, c') /\ (wf c -> wf c') /\
    pairs c' id = pairs c id ⊎ {[+ conn +]} /\
    forall id', id' <> id -> conns_of c' id' = conns_of c id'.
Proof.
  eexists. split; [reflexivity|]. split.
  - intros Hwf. apply map_Forall_insert_2; [|done]. by destruct (conns_of c id).
  - split; [|intros; by apply conns_of_insert_ne].
    unfold pairs. rewrite conns_of_insert, list_to_set_disj_app. simpl. by rewrite gmultiset_disj_union_right_id.
Qed.

Lemma Remove_spec id conn c :
  wf c ->
  match Remove id conn c with
  | (Ok _, c') =>
      conn ∈ pairs c id /\ wf c' /\ pairs c' id = pairs c id ∖ {[+ conn +]} /\
      forall id', id' <> id -> conns_of c' id' = conns_of c id'
  | (Err _, c') => conn ∉ pairs c id /\ c' = c
  | (Panic _, _) => False
  end.
Proof.
  intros Hwf. unfold Remove. destruct (list_find _ _) as [[pos cc]|] eqn:E; cbn [fmap option_fmap option_map fst].
  - apply list_find_Some in E as (Hl & -> & _).
    assert (conns_of c id = take pos (conns_of c id) ++ conn :: drop (S pos) (conns_of c id)) as Es
      by (symmetry; by apply take_drop_middle).
    set (l1 := take pos (conns_of c id)) in *. set (l2 := drop (S pos) (conns_of c id)) in *.
    assert (pairs c id = list_to_set_disj (l1 ++ l2) ⊎ {[+ conn +]}) as Ep.
    { unfold pairs. rewrite Es, !list_to_set_disj_app. simpl. multiset_solver. }
    assert (conn ∈ pairs c id) as Hin by (rewrite Ep; multiset_solver).
    split; [done|].
    assert (list_to_set_disj (l1 ++ l2) = pairs c id ∖ {[+ conn +]}) as Ed by (rewrite Ep; multiset_solver).
    destruct (Z.eqb_spec (len (conns_of c id)) 1) as [E1|E1].
    + assert (l1 ++ l2 = []) as E0.
      { rewrite Es in E1. rewrite len_app, len_cons in E1. apply nil_length_inv. rewrite length_app. unfold len in E1. lia. }
      split; [by apply map_Forall_delete|]. split; [|intros; unfold conns_of; by rewrite lookup_delete_ne].
      rewrite <- Ed, E0. unfold pairs, conns_of. by rewrite lookup_delete_eq.
    + split; [|split; [|intros; by apply conns_of_insert_ne]].
      * apply map_Forall_insert_2; [|done]. intros E0. apply E1. rewrite Es.
        apply app_eq_nil in E0 as [-> ->]. done.
      * unfold pairs at 1. by rewrite conns_of_insert, Ed.
  - apply list_find_None in E. split; [|done]. unfold pairs. rewrite elem_of_list_to_set_disj.
    intros Hin. rewrite Forall_forall in E. apply list_elem_of_In in Hin. by destruct (E conn Hin).
Qed.

(** ** Histories *)

Inductive event := Added (id : bytes) (conn : C) | Removed (id : bytes) (conn : C).

Definition run_event (e : event) : M (ConnSet C) unit :=
  match e with Added id conn => Add id conn | Removed id conn => Remove id conn end.
(** The errors of [Remove] are only logged. *)
Definition run_events (l : list event) (c : ConnSet C) : ConnSet C := fold_left (fun c e => snd (run_event e c)) l c.

(** The abstract set: a multiset of connections for every address. *)
Definition abstract_event (e : event) (m : bytes -> gmultiset C) : bytes -> gmultiset C :=
  match e with
  | Added id conn => fun k => if decide (k = id) then m k ⊎ {[+ conn +]} else m k
  | Removed id conn => fun k => if decide (k = id) then m k ∖ {[+ conn +]} else m k
  end.
Definition abstract_events (l : list event) (m : bytes -> gmultiset C) : bytes -> gmultiset C :=
  fold_left (fun m e => abstract_event e m) l m.

Lemma run_event_refines e c m :
  wf c -> (forall id, pairs c id = m id) ->
  wf (snd (run_event e c)) /\ forall id, pairs (snd (run_event e c)) id = abstract_event e m id.
Proof.
  intros Hwf Hm. destruct e as [id conn|id conn]; cbn [run_event abstract_event].
  - destruct (Add_spec id conn c) as (c' & -> & Hw & Hp & Ho). split; [by apply Hw|]. intros k. cbn [snd].
    destruct (decide (k = id)) as [->|Hk]; [by rewrite Hp, Hm|]. unfold pairs. rewrite Ho by done. apply Hm.
  - pose proof (Remove_spec id conn c Hwf) as Hs. destruct (Remove id conn c) as [[[]|e|w] c']; [| |done]; cbn [snd].
    + destruct Hs as (_ & Hw & Hp & Ho). split; [done|]. intros k.
      destruct (decide (k = id)) as [->|Hk]; [by rewrite Hp, Hm|]. unfold pairs. rewrite Ho by done. apply Hm.
    + destruct Hs as [Hn ->]. split; [done|]. intros k. rewrite Hm. destruct (decide (k = id)) as [->|]; [|done].
      rewrite Hm in Hn. multiset_solver.
Qed.

Lemma run_events_refine l : forall c m,
  wf c -> (forall id, pairs c id = m id) ->
  wf (run_events l c) /\ forall id, pairs (run_events l c) id = abstract_events l m id.
Proof.
  induction l as [|e l IH]; intros c m Hw Hm; [done|]. destruct (run_event_refines e c m Hw Hm) as [Hw' Hm'].
  by apply IH.
Qed.

Lemma IDs_wf c id : wf c -> id ∈ IDs c <-> pairs c id <> ∅.
Proof.
  intros Hw. unfold IDs, pairs, conns_of. rewrite list_elem_of_fmap. split.
  - intros ([k l] & -> & Hl%elem_of_map_to_list). cbn [fst]. rewrite Hl. cbn [default from_option id].
    specialize (Hw _ _ Hl). destruct l as [|x l]; [done|]. simpl. multiset_solver.
  - destruct (c !! id) as [l|] eqn:E; [|done]. intros _. exists (id, l). split; [done|]. by apply elem_of_map_to_list.
Qed.

Lemma Count_pairs c id : default 0 (Count c !! id) = Z.of_nat (size (pairs c id)).
Proof.
  unfold Count, pairs, conns_of. rewrite lookup_fmap. destruct (c !! id) as [l|]; cbn; [|done].
  unfold len. f_equal. induction l as [|x l IH]; [done|]. cbn [list_to_set_disj foldr length].
  rewrite gmultiset_size_disj_union, gmultiset_size_singleton. cbn in IH. rewrite <- IH. done.
Qed.
End connset.
Arguments event : clear implicits.

(** The connection set implements a multiset of connections per broker
    address: after any sequence of [Add] and [Remove], from the new set, [Conns]
    of an address are the connections added and not removed, [Count] their
    number, and [IDs] lists exactly the addresses that have one.*)
Theorem ConnSet_refines_multiset {C} `{Countable C} (l : list (event C)) (id : bytes) :
  let c := run_events l NewConnSet in
  let m := abstract_events l (fun _ => ∅) in
  list_to_set_disj (Conns [id] c) = m id /\
  default 0 (Count c !! id) = Z.of_nat (size (m id)) /\
  (id ∈ IDs c <-> m id <> ∅).
Proof.
  intros c m. destruct (run_events_refine l NewConnSet (fun _ => ∅) wf_New) as [Hw Hm]; [done|].
  split_and!.
  - unfold Conns. simpl. rewrite app_nil_r. apply Hm.
  - by rewrite Count_pairs, Hm.
  - rewrite IDs_wf by done. by rewrite Hm.
Qed.
