(* ===== verification/Client.v ===== *)
(** Dialing and authenticating broker connections (proxy/client.go): what
    [NewClient] builds of a configuration, the dial address mappings,
    [DialAndAuth], and the part of [handleConn] before the two copy loops.

    Dialing itself, the TLS set-up and the handshake with the client are
    parameters, as are the libraries of the SASL clients. *)
From Stdlib Require Import ZArith Lia Strings.Byte.
From stdpp Require Import base list strings gmap.
From S2P Require Import Prelude GoLib GoStrings NetAddr OAuthBearer Encoder Decoder Errors Schema Messages Net Responses Filters Listeners Config SaslLocal Auth SaslProxy Gssapi Processor Loops ConnSet.

(** ** Dial address mappings *)

Fixpoint addDialAddressMappings (l : list DialAddressMapping) (m : gmap bytes DialAddressMapping)
    : res (gmap bytes DialAddressMapping) :=
  match l with
  | [] => Ok m
  | v :: l' =>
      match m !! SourceAddress v with
      | Some lc =>
          if negb (bool_decide (SourceAddress lc = SourceAddress v)) ||
             negb (bool_decide (DestinationAddress lc = DestinationAddress v))
          then Err (Errorf "dial address mapping %s configured twice: %v and %v")
          else addDialAddressMappings l' m
      | None => addDialAddressMappings l' (<[SourceAddress v := v]> m)
      end
  end.

Definition getAddressToDialAddressMapping (cfg : Config) : res (gmap bytes DialAddressMapping) :=
  addDialAddressMappings (DialAddressMappings (Proxy cfg)) ∅.

(** ** Dialers *)

Inductive Dialer :=
  | directDialer (dialTimeout keepAlive : Z)
  | socks5Dialer (direct : Dialer) (proxyAddr username password : bytes)
  | httpProxy (forwardDialer : Dialer) (hostPort username password : bytes)
  | tlsDialer (timeout : Z) (rawDialer : Dialer).

(** [tlsConfig] tells whether the TLS configuration function gives one. *)
Definition newDialer (c : Config) (tlsConfig : bool) : res Dialer :=
  let direct := directDialer (DialTimeout (Kafka c)) (KeepAlive (Kafka c)) in
  let f := ForwardProxy c in
  let? rawDialer :=
    (if negb (empty (Url f)) then
       if bool_decide (Scheme f = $"socks5") then
         Ok (socks5Dialer direct (Address f) (Proxy_Username f) (Proxy_Password f))
       else if bool_decide (Scheme f = $"http") then
         Ok (httpProxy direct (Address f) (Proxy_Username f) (Proxy_Password f))
       else Err (Errorf "Only http or socks5 proxy is supported")
     else Ok direct) in
  if KafkaTLS_Enable (Kafka c) then
    if negb tlsConfig then Err (Errorf "tlsConfigFunc must not be nil")
    else Ok (tlsDialer (DialTimeout (Kafka c)) rawDialer)
  else Ok rawDialer.

Section client.
Context {X Cert KrbClient Ticket Key WrapToken Conversation : Type}.

(** The libraries of the SASL clients. *)
Context (krb : gokrb5 X KrbClient Ticket Key WrapToken).
Context (New256 New512 : bytes -> bytes -> res Conversation).
Context (Step : Conversation -> bytes -> res bytes * Conversation) (Done : Conversation -> bool).

(** The state the connections share: the correlation id of the SCRAM client and
    what is outside the program. *)
Record outside := { scramCorrelationID : Z; lib : X }.

Definition with_lib {A} (m : M (conn * X) A) : M (conn * outside) A := fun s =>
  let '(r, (c, x)) := m (fst s, lib (snd s)) in
  (r, (c, {| scramCorrelationID := scramCorrelationID (snd s); lib := x |})).
Definition with_correlationID {A} (m : M (conn * Z) A) : M (conn * outside) A := fun s =>
  let '(r, (c, k)) := m (fst s, scramCorrelationID (snd s)) in
  (r, (c, {| scramCorrelationID := k; lib := lib (snd s) |})).

(** ** [SASLAuthByProxy] *)

Inductive SASLAuthByProxy :=
  | PlainAuth (b : SASLPlainAuth)
  | OAuthBearerAuth (b : SASLOAuthBearerAuth X)
  | ScramAuth (b : SASLSCRAMAuth)
  | GssapiAuth (gssapiConfig : GSSAPIConfig)
  | AwsAuth (a : AwsMSKIamAuth X).

Definition sendAndReceiveSASLAuth (a : SASLAuthByProxy) (brokerAddress : bytes) : M (conn * outside) unit :=
  match a with
  | PlainAuth b => on_conn (sendAndReceiveSASLPlain b)
  | OAuthBearerAuth b => with_lib (sendAndReceiveSASLOAuth b)
  | ScramAuth b => with_correlationID (sendAndReceiveSASLScram New256 New512 Step Done b)
  | GssapiAuth g => with_lib (sendAndReceiveSASLGssapi krb g brokerAddress)
  | AwsAuth a => with_lib (sendAndReceiveSASLAws a brokerAddress)
  end.

(** ** [NewClient] *)

Record Client := {
  config : Config;
  dialer : Dialer;
  saslAuthByProxy : option SASLAuthByProxy;
  authClient : AuthClient X;
  processorConfig : ProcessorConfig X;
  dialAddressMapping : gmap bytes DialAddressMapping;
  kafkaClientCert : option Cert
}.

(** The plugins given to [NewClient]; any of them may be nil. *)
Record plugins := {
  localPasswordAuthenticator : option (bytes -> bytes -> M X (bool * Z));
  localTokenAuthenticator : option (bytes -> M X (bool * Z));
  saslTokenProvider : option (M X TokenResponse);
  gatewayTokenProvider : option (M X TokenResponse);
  gatewayTokenInfo : option (bytes -> M X (bool * Z))
}.

(** [newTLSClientConfig], [parseCertificate] and [NewAwsMSKIamAuth] read files and
    call services. *)
Context (newTLSClientConfig : Config -> res bool) (parseCertificate : bytes -> res Cert).
Context (NewAwsMSKIamAuth : bytes -> res (AwsMSKIamAuth X)).

(** The switch over the configured SASL method. *)
Definition newSASLAuthByProxy (c : Config) (saslTokenProvider : option (M X TokenResponse))
    : res (option SASLAuthByProxy) :=
  let s := SASL (Kafka c) in
  let clientID := Kafka_ClientID (Kafka c) in
  if Plugin_Enable (SASL_Plugin s) then
    match saslTokenProvider with
    | Some tokenProvider =>
        if bool_decide (Plugin_Mechanism (SASL_Plugin s) = SASLOAuthBearer)
        then Ok (Some (OAuthBearerAuth {| o_clientID := clientID; o_tokenProvider := tokenProvider |}))
        else Err (Errorf "SASLAuthByProxy plugin unsupported or plugin misconfiguration for mechanism '%s' ")
    | None => Err (Errorf "SASLAuthByProxy plugin unsupported or plugin misconfiguration for mechanism '%s' ")
    end
  else if SASL_Enable s then
    if bool_decide (SASL_Method s = SASLPlain) then
      Ok (Some (PlainAuth {| p_clientID := clientID; p_username := SASL_Username s; p_password := SASL_Password s |}))
    else if bool_decide (SASL_Method s = SASLSCRAM256) || bool_decide (SASL_Method s = SASLSCRAM512) then
      Ok (Some (ScramAuth {| s_clientID := clientID; s_username := SASL_Username s; s_password := SASL_Password s;
                             s_mechanism := SASL_Method s |}))
    else if bool_decide (SASL_Method s = SASLSGSSAPI) then Ok (Some (GssapiAuth (GSSAPI s)))
    else if bool_decide (SASL_Method s = SASLIAMAAUTH) then
      match NewAwsMSKIamAuth clientID with
      | Ok a => Ok (Some (AwsAuth a))
      | Err _ => Err (Errorf "Failed to create IAM Auth: %v")
      | Panic w => Panic w
      end
    else Err (Errorf "SASL Mechanism not valid '%s'")
  else Ok None.

Definition nil_call {A} : M X A := panic "invalid memory address or nil pointer dereference".

Definition newProcessorConfig (c : Config) (netAddressMappingFunc : option (NetAddressMappingFunc X))
    (pl : plugins) (filterChain : option (FilterChain X)) : ProcessorConfig X :=
  {| MaxOpenRequests := Kafka_MaxOpenRequests (Kafka c);
     cfg_NetAddressMappingFunc := netAddressMappingFunc;
     cfg_RequestBufferSize := Proxy_RequestBufferSize (Proxy c);
     cfg_ResponseBufferSize := Proxy_ResponseBufferSize (Proxy c);
     cfg_LocalSasl := NewLocalSasl (Local_Enable (Local c)) (localPasswordAuthenticator pl) (localTokenAuthenticator pl);
     cfg_AuthServer := {| as_enabled := Gateway_Enable (GatewayServer c); as_magic := Gateway_Magic (GatewayServer c);
                          as_method := Gateway_Method (GatewayServer c);
                          as_tokenInfo := default (fun _ => nil_call) (gatewayTokenInfo pl) |};
     cfg_ForbiddenApiKeys := int16 <$> Kafka_ForbiddenApiKeys (Kafka c);
     cfg_ProducerAcks0Disabled := Acks0Disabled (Kafka c);
     cfg_FilterChain := filterChain |}.

Definition NewClient (c : Config) (netAddressMappingFunc : option (NetAddressMappingFunc X)) (pl : plugins)
    (filterChain : option (FilterChain X)) : res Client :=
  let? tlsConfig := (if KafkaTLS_Enable (Kafka c) then newTLSClientConfig c else Ok false) in
  let? kafkaClientCert :=
    (if KafkaTLS_Enable (Kafka c) && SameClientCertEnable (Kafka c)
     then rmap Some (parseCertificate (KafkaTLS_ClientCertFile (Kafka c))) else Ok None) in
  let? dialer := newDialer c tlsConfig in
  do? refuse (Local_Enable (Local c) && match localPasswordAuthenticator pl, localTokenAuthenticator pl with
                                        | None, None => true | _, _ => false end)
        "Auth.Local.Enable is enabled but passwordAuthenticator and localTokenAuthenticator are nil" in
  do? refuse (Gateway_Enable (GatewayClient c) && negb (bool_decide (is_Some (gatewayTokenProvider pl))))
        "Auth.Gateway.Client.Enable is enabled but tokenProvider is nil" in
  do? refuse (Gateway_Enable (GatewayServer c) && negb (bool_decide (is_Some (gatewayTokenInfo pl))))
        "Auth.Gateway.Server.Enable is enabled but tokenInfo is nil" in
  let? saslAuthByProxy := newSASLAuthByProxy c (saslTokenProvider pl) in
  let? dialAddressMapping := getAddressToDialAddressMapping c in
  Ok {| config := c; dialer := dialer; saslAuthByProxy := saslAuthByProxy;
        authClient := {| ac_enabled := Gateway_Enable (GatewayClient c); ac_magic := Gateway_Magic (GatewayClient c);
                         ac_method := Gateway_Method (GatewayClient c);
                         ac_tokenProvider := default nil_call (gatewayTokenProvider pl) |};
        processorConfig := newProcessorConfig c netAddressMappingFunc pl filterChain;
        dialAddressMapping := dialAddressMapping; kafkaClientCert := kafkaClientCert |}.

(** ** [DialAndAuth] *)

Context (Dial : Dialer -> bytes -> M X conn).
Context (cl : Client).

(** [if err != nil { conn.Close(); return err }] *)
Definition closing {A} (m : M (conn * outside) A) : M (conn * outside) A := fun s =>
  match m s with
  | (Err e, (c, o)) => (Err e, (closed c, o))
  | r => r
  end.

Definition auth (brokerAddress : bytes) : M (conn * outside) unit :=
  do* (if Gateway_Enable (GatewayClient (config cl)) then
         do* closing (with_lib (sendAndReceiveGatewayAuth (authClient cl))) in
         closing (on_conn SetDeadline)
       else ret tt) in
  if SASL_Enable (SASL (Kafka (config cl))) then
    match saslAuthByProxy cl with
    | None => panic "invalid memory address or nil pointer dereference"
    | Some a =>
        do* closing (sendAndReceiveSASLAuth a brokerAddress) in
        closing (on_conn SetDeadline)
    end
  else ret tt.

(** The result, the connection that was dialed as it was left, and the outside. *)
Definition DialAndAuth (brokerAddress : bytes) (o : outside) : res conn * option conn * outside :=
  match Dial (dialer cl) brokerAddress (lib o) with
  | (Ok c, x) =>
      let o := {| scramCorrelationID := scramCorrelationID o; lib := x |} in
      match (do* closing (on_conn SetDeadline) in auth brokerAddress) (c, o) with
      | (Ok _, (c, o)) => (Ok c, Some c, o)
      | (Err e, (c, o)) => (Err e, Some c, o)
      | (Panic w, (c, o)) => (Panic w, Some c, o)
      end
  | (Err e, x) => (Err e, None, {| scramCorrelationID := scramCorrelationID o; lib := x |})
  | (Panic w, x) => (Panic w, None, {| scramCorrelationID := scramCorrelationID o; lib := x |})
  end.

(** ** [handleConn] *)

Definition dialAddress (brokerAddress : bytes) : bytes :=
  match dialAddressMapping cl !! brokerAddress with
  | Some addressMapping => DestinationAddress addressMapping
  | None => brokerAddress
  end.

(** [handshakeAsTLSAndValidateClientCert] *)
Context (handshakeAsTLSAndValidateClientCert : Cert -> M conn unit).

(** What a connection comes to before it is copied: dropped, with the client
    connection and the broker connection, if one was dialed, as they were left;
    or ready to be copied. *)
Inductive handled :=
  | Dropped (local : conn) (server : option conn)
  | Copied (local server : conn)
  | Recovered (why : string) (local : conn) (server : option conn).

Definition handleConn (brokerAddress : bytes) (local : conn) (o : outside) : handled * outside :=
  match match kafkaClientCert cl with
        | Some cert => handshakeAsTLSAndValidateClientCert cert local
        | None => (Ok tt, local)
        end with
  | (Err _, local) => (Dropped (closed local) None, o)
  | (Panic w, local) => (Recovered w local None, o)
  | (Ok _, local) =>
      match DialAndAuth (dialAddress brokerAddress) o with
      | (Ok server, _, o) => (Copied local server, o)
      | (Err _, server, o) => (Dropped (closed local) server, o)
      | (Panic w, server, o) => (Recovered w local server, o)
      end
  end.

End client.
Arguments outside : clear implicits.
Arguments SASLAuthByProxy : clear implicits.
Arguments Client : clear implicits.
Arguments plugins : clear implicits.

(** ** [Run] *)

(** The connections of a running client, numbered as they are added to the set:
    those being copied, and those whose goroutine panicked, which [withRecover]
    ends above the call of [Remove]. *)
Record running := {
  conns : ConnSet nat;
  copying : gmap nat bytes;
  panicked : gmap nat bytes;
  next : nat
}.

Definition not_running : running := {| conns := NewConnSet; copying := ∅; panicked := ∅; next := O |}.

Inductive run_step (s : running) : running -> Prop :=
  | run_added id :
      (* handleConn: Add, then copyThenClose *)
      run_step s {| conns := snd (Add id (next s) (conns s)); copying := <[next s := id]> (copying s);
                    panicked := panicked s; next := S (next s) |}
  | run_removed n id :
      (* copyThenClose returns, then Remove *)
      copying s !! n = Some id ->
      run_step s {| conns := snd (Remove id n (conns s)); copying := delete n (copying s);
                    panicked := panicked s; next := next s |}
  | run_panicked n id :
      copying s !! n = Some id ->
      run_step s {| conns := conns s; copying := delete n (copying s);
                    panicked := <[n := id]> (panicked s); next := next s |}.

Inductive run_reachable : running -> Prop :=
  | run_start : run_reachable not_running
  | run_next s s' : run_reachable s -> run_step s s' -> run_reachable s'.
