(* ===== verification/ClientTheorems.v ===== *)
(** The properties of dialing brokers and of the connection set of a running
    client. *)
From Stdlib Require Import ZArith Lia Strings.Byte.
From stdpp Require Import base list strings gmap gmultiset.
From S2P Require Import Prelude GoLib GoStrings NetAddr OAuthBearer Encoder Decoder Errors Schema Messages Net Filters SaslLocal Responses Auth SaslFacts Processor Loops Listeners SaslProxy SaslProxyFacts Config Gssapi SaslProxyTheorems ConnSet Client.

Section client.
Context {X Cert KrbClient Ticket Key WrapToken Conversation : Type}.
Context (krb : gokrb5 X KrbClient Ticket Key WrapToken).
Context (New256 New512 : bytes -> bytes -> res Conversation).
Context (Step : Conversation -> bytes -> res bytes * Conversation) (Done : Conversation -> bool).
Context (Dial : Dialer -> bytes -> M X conn) (cl : Client X Cert).

(** The SASL exchange ran to its end on a connection: for PLAIN with the bytes
    it is made of, for the others as a run of their protocol, whose properties
    are in SaslProxyTheorems.v. *)
Definition exchanged (a : SASLAuthByProxy X) (brokerAddress : bytes) (s s' : conn * outside X) : Prop :=
  match a with
  | PlainAuth b => plain_exchanged b (fst s) (fst s') /\ snd s' = snd s
  | OAuthBearerAuth b => with_lib (sendAndReceiveSASLOAuth b) s = (Ok tt, s')
  | ScramAuth b => with_correlationID (sendAndReceiveSASLScram New256 New512 Step Done b) s = (Ok tt, s')
  | GssapiAuth g => with_lib (sendAndReceiveSASLGssapi krb g brokerAddress) s = (Ok tt, s')
  | AwsAuth a => with_lib (sendAndReceiveSASLAws a brokerAddress) s = (Ok tt, s')
  end.

(** The gateway handshake ran to its end: the token was written behind the magic
    number and the method, and was answered. *)
Definition gateway_exchanged (s s' : conn * outside X) : Prop :=
  with_lib (sendAndReceiveGatewayAuth (authClient cl)) s = (Ok tt, s') /\
  exists token, token <> [] /\
    tx (fst s') = tx (fst s) ++ handshake_bytes (ac_magic (authClient cl)) (ac_method (authClient cl)) token.

(** What the configuration asks for was done, one after the other, on one
    connection: [s] is the connection and the outside before, [s'] after. *)
Definition authenticated (brokerAddress : bytes) (s s' : conn * outside X) : Prop :=
  exists s1,
    (if Gateway_Enable (GatewayClient (config cl)) then gateway_exchanged s s1 else s1 = s) /\
    (if SASL_Enable (SASL (Kafka (config cl)))
     then exists a, saslAuthByProxy cl = Some a /\ exchanged a brokerAddress s1 s' else s' = s1).

(** [server] is the connection dialed from [o], as the exchanges left it. *)
Definition dialed_and_authenticated (brokerAddress : bytes) (o : outside X) (server : conn) (o' : outside X) : Prop :=
  exists c x, Dial (dialer cl) brokerAddress (lib o) = (Ok c, x) /\
    authenticated brokerAddress (c, {| scramCorrelationID := scramCorrelationID o; lib := x |}) (server, o').

Lemma with_lib_inv {A} (m : M (conn * X) A) s a s' :
  with_lib m s = (Ok a, s') ->
  exists c x, m (fst s, lib (snd s)) = (Ok a, (c, x)) /\
    s' = (c, {| scramCorrelationID := scramCorrelationID (snd s); lib := x |}).
Proof. unfold with_lib. destruct (m _) as [r [c x]] eqn:E. intros [= -> <-]. eauto. Qed.

Lemma closing_inv {A} (m : M (conn * outside X) A) s a s' : closing m s = (Ok a, s') -> m s = (Ok a, s').
Proof. unfold closing. by destruct (m s) as [[b|e|w] [c o]]. Qed.
Lemma closing_Err {A} (m : M (conn * outside X) A) s e s' : closing m s = (Err e, s') -> exists c, fst s' = closed c.
Proof. unfold closing. destruct (m s) as [[b|e'|w] [c o]]; intros [= _ <-]. by exists c. Qed.

Lemma bind_Err_inv {S A B} (m : M S A) (k : A -> M S B) s e s' :
  bind m k s = (Err e, s') -> m s = (Err e, s') \/ exists a s1, m s = (Ok a, s1) /\ k a s1 = (Err e, s').
Proof. unfold bind. destruct (m s) as [[a|e'|w] s1]; intros; simplify_eq; eauto. Qed.

Lemma closing_SetDeadline (s s' : conn * outside X) u : closing (on_conn SetDeadline) s = (Ok u, s') -> s' = s.
Proof. intros H%closing_inv. apply on_conn_inv in H as (c & ->%SetDeadline_Ok & ->). by destruct s. Qed.

Lemma exchange_inv a brokerAddress s s' :
  sendAndReceiveSASLAuth krb New256 New512 Step Done a brokerAddress s = (Ok tt, s') ->
  exchanged a brokerAddress s s'.
Proof.
  destruct a; cbn [sendAndReceiveSASLAuth exchanged]; try done.
  intros (c & H%sendAndReceiveSASLPlain_inv & ->)%on_conn_inv. done.
Qed.

Lemma gateway_inv s s' :
  with_lib (sendAndReceiveGatewayAuth (authClient cl)) s = (Ok tt, s') -> gateway_exchanged s s'.
Proof.
  intros H. split; [done|]. apply with_lib_inv in H as (c & x & H & ->).
  apply sendAndReceiveGatewayAuth_Ok in H as (resp & _ & Ht & Htx). by exists (Token resp).
Qed.

Lemma auth_Ok brokerAddress s s' :
  auth krb New256 New512 Step Done cl brokerAddress s = (Ok tt, s') -> authenticated brokerAddress s s'.
Proof.
  unfold auth, authenticated. intros H. apply bind_inv in H as ([] & s1 & H1 & H). exists s1. split.
  - destruct (Gateway_Enable _).
    + apply bind_inv in H1 as ([] & s2 & H2%closing_inv & H1%closing_SetDeadline). subst s1. by apply gateway_inv.
    + by injection H1 as <-.
  - destruct (SASL_Enable _).
    + destruct (saslAuthByProxy cl) as [a|]; [|done]. exists a. split; [done|].
      apply bind_inv in H as ([] & s2 & H2%closing_inv & H%closing_SetDeadline). subst s'. by apply exchange_inv.
    + by injection H as <-.
Qed.

Lemma auth_Err brokerAddress s e s' :
  auth krb New256 New512 Step Done cl brokerAddress s = (Err e, s') -> exists c, fst s' = closed c.
Proof.
  unfold auth. intros [H|(a & s1 & _ & H)]%bind_Err_inv.
  - destruct (Gateway_Enable _); [|done].
    apply bind_Err_inv in H as [H|(? & ? & _ & H)]; by apply closing_Err in H.
  - destruct (SASL_Enable _); [|done]. destruct (saslAuthByProxy cl) as [b|]; [|done].
    apply bind_Err_inv in H as [H|(? & ? & _ & H)]; by apply closing_Err in H.
Qed.

(** A connection that is handed out is the one that was dialed, as the gateway
    handshake and the SASL exchange left it, each if it is enabled; every error
    after the broker was dialed closes the connection. *)
Lemma DialAndAuth_spec (brokerAddress : bytes) (o o' : outside X) (r : res conn) (dialed : option conn) :
  DialAndAuth krb New256 New512 Step Done Dial cl brokerAddress o = (r, dialed, o') ->
  (forall c, r = Ok c -> dialed = Some c /\ dialed_and_authenticated brokerAddress o c o') /\
  (forall e c, r = Err e -> dialed = Some c -> exists c0, c = closed c0).
Proof.
  unfold DialAndAuth, dialed_and_authenticated. destruct (Dial _ _ _) as [[c0|e|w] x].
  - destruct (bind _ _ _) as [[[]|e|w] [c1 o1]] eqn:E; intros [= <- <- <-].
    + split; [|done]. intros c [= <-]. split; [done|]. exists c0, x. split; [done|].
      apply bind_inv in E as ([] & s1 & ->%closing_SetDeadline & E). by apply auth_Ok.
    + split; [done|]. intros e' c [= <-] [= <-].
      apply bind_Err_inv in E as [E|(? & s1 & _ & E)]; [by apply closing_Err in E|by apply auth_Err in E].
    + done.
  - by intros [= <- <- <-].
  - by intros [= <- <- <-].
Qed.

(** C20: A client connection is copied only with the broker connection that was
    dialed for it, at the mapped address, as the gateway handshake and the
    SASL exchange that the configuration asks for left it when they succeeded,
    and after the client's certificate was accepted if one is required; a
    connection that is dropped is closed, and so is the broker connection
    dialed for it. *)
Theorem handleConn_copies_or_closes (validate : Cert -> M conn unit) (brokerAddress : bytes) (local : conn) (o o' : outside X) (h : handled) :
  handleConn krb New256 New512 Step Done Dial cl validate brokerAddress local o = (h, o') ->
  match h with
  | Copied local' server =>
      dialed_and_authenticated (dialAddress cl brokerAddress) o server o' /\
      match kafkaClientCert cl with
      | Some cert => validate cert local = (Ok tt, local')
      | None => local' = local
      end
  | Dropped local' server =>
      (exists c, local' = closed c) /\ forall s, server = Some s -> exists c, s = closed c
  | Recovered _ _ _ => True
  end.
Proof.
  unfold handleConn. destruct (match kafkaClientCert cl with Some cert => _ | None => _ end) as [[[]|e|w] l] eqn:El.
  - destruct (DialAndAuth _ _ _ _ _ _ _ _ _) as [[r dialed] o1] eqn:E. apply DialAndAuth_spec in E as [H1 H2].
    destruct r as [server|e|w]; intros [= <- <-]; [| |done].
    + split; [by apply H1|]. destruct (kafkaClientCert cl); [done|]. by injection El.
    + split; [by exists l|]. intros s ->. by eapply H2.
  - intros [= <- _]. split; [by exists l|done].
  - by intros [= <- _].
Qed.

End client.

(** ** Dial address mappings *)

Lemma addDialAddressMappings_spec l : forall m m',
  addDialAddressMappings l m = Ok m' ->
  (forall k v, m !! k = Some v -> SourceAddress v = k) ->
  (forall v, v ∈ l -> m' !! SourceAddress v = Some v) /\
  (forall k v, m !! k = Some v -> m' !! k = Some v) /\
  (forall k v, m' !! k = Some v -> SourceAddress v = k /\ (v ∈ l \/ m !! k = Some v)).
Proof.
  induction l as [|v l IH]; intros m m' H Hm; cbn [addDialAddressMappings] in H.
  - injection H as <-. split; [by intros v Hv%elem_of_nil|]. split; [done|]. intros k v Hv. split; [by apply Hm|by right].
  - destruct (m !! SourceAddress v) as [lc|] eqn:E.
    + destruct (_ || _) eqn:Eb; [done|]. apply orb_false_iff in Eb as [E1 E2].
      apply negb_false_iff, bool_decide_eq_true in E1, E2.
      assert (lc = v) as -> by (destruct lc, v; cbn in *; congruence).
      destruct (IH m m' H Hm) as (H1 & H2 & H3). split_and!.
      * intros w [->|Hw]%elem_of_cons; [by apply H2|by apply H1].
      * done.
      * intros k w Hw. destruct (H3 k w Hw) as [? [?|?]]; split; try done; [left; by right|by right].
    + destruct (IH _ m' H) as (H1 & H2 & H3).
      { intros k w. rewrite lookup_insert_Some. intros [[<- <-]|[_ Hk]]; [done|by apply Hm]. }
      split_and!.
      * intros w [->|Hw]%elem_of_cons; [apply H2, lookup_insert_eq|by apply H1].
      * intros k w Hk. apply H2. rewrite lookup_insert_ne; [done|congruence].
      * intros k w Hw. destruct (H3 k w Hw) as [Hs [?|Hk]]; [split; [done|left; by right]|].
        apply lookup_insert_Some in Hk as [[<- <-]|[_ Hk]]; [split; [done|left; by left]|split; [done|by right]].
Qed.

Lemma addDialAddressMappings_total l : forall m,
  (forall k v, m !! k = Some v -> SourceAddress v = k) ->
  (forall v w, v ∈ l -> w ∈ l \/ m !! SourceAddress v = Some w -> SourceAddress v = SourceAddress w -> v = w) ->
  exists m', addDialAddressMappings l m = Ok m'.
Proof.
  induction l as [|v l IH]; intros m Hm Hd; cbn [addDialAddressMappings]; [eauto|].
  destruct (m !! SourceAddress v) as [lc|] eqn:E.
  - assert (v = lc) as <-.
    { apply Hd; [by left|by right|]. symmetry. by apply Hm. }
    rewrite !bool_decide_true by done. cbn [negb orb]. apply IH; [done|].
    intros a b Ha [Hb|Hb]; apply Hd; [by right|left; by right|by right|by right].
  - apply IH.
    + intros k w. rewrite lookup_insert_Some. intros [[<- <-]|[_ Hk]]; [done|by apply Hm].
    + intros a b Ha [Hb|Hb]; [apply Hd; [by right|left; by right]|].
      apply lookup_insert_Some in Hb as [[_ <-]|[_ Hb]]; [apply Hd; [by right|left; by left]|apply Hd; [by right|by right]].
Qed.

(** Dial address mappings are accepted exactly when no source has two
    destinations, and then a broker is dialed at the destination of its mapping,
    a broker without one at its own address. *)
Theorem dial_address_mappings {X Cert} (cfg : Config) (cl : Client X Cert) :
  ((exists m, getAddressToDialAddressMapping cfg = Ok m) <->
   forall v w, v ∈ DialAddressMappings (Proxy cfg) -> w ∈ DialAddressMappings (Proxy cfg) ->
     SourceAddress v = SourceAddress w -> v = w) /\
  (getAddressToDialAddressMapping cfg = Ok (dialAddressMapping cl) ->
   (forall v, v ∈ DialAddressMappings (Proxy cfg) -> dialAddress cl (SourceAddress v) = DestinationAddress v) /\
   (forall a, (forall v, v ∈ DialAddressMappings (Proxy cfg) -> SourceAddress v <> a) -> dialAddress cl a = a)).
Proof.
  unfold getAddressToDialAddressMapping. split; [split|].
  - intros [m H]. apply addDialAddressMappings_spec in H as (H1 & _ & _); [|by intros ? ? ?].
    intros v w Hv%H1 Hw%H1 E. rewrite E in Hv. congruence.
  - intros Hd. apply addDialAddressMappings_total; [by intros ? ? ?|].
    intros v w Hv [Hw|Hw]; [by apply Hd|done].
  - intros H. apply addDialAddressMappings_spec in H as (H1 & _ & H3); [|by intros ? ? ?]. unfold dialAddress. split.
    + intros v Hv. by rewrite H1.
    + intros a Ha. destruct (dialAddressMapping cl !! a) as [v|] eqn:E; [|done].
      apply H3 in E as [Es [Hv|Hv]]; [by destruct (Ha v Hv)|done].
Qed.

(** ** A validated configuration *)

Lemma Ok_inj {A} (x y : A) : Ok x = Ok y -> x = y.
Proof. congruence. Qed.

(** The cases of the first test in [H]. *)
Ltac destruct_if H := match type of H with context [if ?b then _ else _] => destruct b end.

(** A validated configuration has a dialer, once there is a TLS configuration. *)
Lemma newDialer_validated (url_Parse : bytes -> res URL) (ParseIP : bytes -> bool) (c0 c : Config) :
  Validate url_Parse ParseIP c0 = (Ok tt, c) ->
  forall tls, tls || negb (KafkaTLS_Enable (Kafka c)) = true -> exists d, newDialer c tls = Ok d.
Proof.
  intros (H1 & H2 & H3 & _ & _ & f & q & Hf & Hq & ->)%Validate_Ok tls Ht.
  cbn [Kafka] in Ht. unfold newDialer. cbn [Kafka ForwardProxy]. unfold validateForwardProxy in Hf.
  rewrite bind_Ok with (a := ForwardProxy c0) (s' := ForwardProxy c0) in Hf by done.
  destruct (empty (Url (ForwardProxy c0))) eqn:Eu.
  + injection Hf as <-. rewrite Eu. cbn [negb rbind]. destruct (KafkaTLS_Enable _), tls; (done || by eexists).
  + apply lift_bind_inv in Hf as (u & _ & Hf). apply lift_bind_inv in Hf as ([] & _ & Hf).
    erewrite bind_Ok in Hf by reflexivity. apply lift_bind_inv in Hf as ([] & Hs%refuse_Ok & Hf).
    erewrite bind_Ok in Hf by reflexivity.
    assert (Scheme f = url_Scheme u /\ Url f = Url (ForwardProxy c0)) as [E1 E2].
    { destruct (url_User u) as [[n p]|]; [|by injection Hf as <-].
      apply lift_bind_inv in Hf as ([] & _ & Hf). by injection Hf as <-. }
    rewrite E1, E2, Eu. cbn [negb]. apply andb_false_iff in Hs as [Hs|Hs]; apply negb_false_iff in Hs; rewrite Hs.
    * destruct (bool_decide (url_Scheme u = $"socks5")); cbn [rbind]; destruct (KafkaTLS_Enable _), tls; (done || by eexists).
    * cbn [rbind]. destruct (KafkaTLS_Enable _), tls; (done || by eexists).
Qed.

(** What [Validate] accepts is fit for [NewClient] and for what it builds: the
    dialer exists when a TLS configuration does; there is a SASL client exactly
    when SASL is enabled, so authenticating never meets a nil one; the buffers
    have the sizes configured, which are positive, and the queue of open requests
    the configured one or the minimum; and enabled local SASL has an authenticator.*)
Theorem validated_client {X Cert} (url_Parse : bytes -> res URL) (ParseIP : bytes -> bool)
    (newTLSClientConfig : Config -> res bool) (parseCertificate : bytes -> res Cert)
    (NewAwsMSKIamAuth : bytes -> res (AwsMSKIamAuth X)) mapping pl filterChain (c0 c : Config) :
  Validate url_Parse ParseIP c0 = (Ok tt, c) ->
  (exists d, newDialer c true = Ok d) /\
  (forall cl, NewClient newTLSClientConfig parseCertificate NewAwsMSKIamAuth c mapping pl filterChain = Ok cl ->
     config cl = c /\
     (SASL_Enable (SASL (Kafka c)) = true <-> is_Some (saslAuthByProxy cl)) /\
     (let p := newProcessor (processorConfig cl) in
      openRequestsCap p = Z.max minOpenRequests (Kafka_MaxOpenRequests (Kafka c)) /\
      requestBufferSize p = Proxy_RequestBufferSize (Proxy c) /\ 0 < requestBufferSize p /\
      responseBufferSize p = Proxy_ResponseBufferSize (Proxy c) /\ 0 < responseBufferSize p /\
      (enabled (localSasl p) = true -> localAuthenticators (localSasl p) <> []))).
Proof.
  intros Hv. destruct (proj1 (Validate_Ok _ _ _ _) Hv) as (H1 & H2 & H3 & _ & _ & f & q & Hf & Hq & ->).
  assert (Proxy_RequestBufferSize q = Proxy_RequestBufferSize (Proxy c0) /\
          Proxy_ResponseBufferSize q = Proxy_ResponseBufferSize (Proxy c0)) as [Eq1 Eq2].
  { apply validateListeners_Ok in Hq as [Hq _]. unfold validateDynamicPorts in Hq.
    destruct (DisableDynamicListeners _); [by injection Hq as <-|].
    apply rbind_inv in Hq as (? & _ & Hq). apply rbind_inv in Hq as (? & _ & Hq). injection Hq as <-.
    by destruct (_ && _). }
  split.
  - destruct (newDialer_validated _ _ _ _ Hv true eq_refl) as [d Hd]. by exists d.
  - intros cl H. unfold NewClient in H. cbn [Kafka Proxy Local] in H.
    apply rbind_inv in H as (tls & _ & H). apply rbind_inv in H as (cert & _ & H).
    apply rbind_inv in H as (d & _ & H). apply rbind_inv in H as ([] & Hl%refuse_Ok & H).
    apply rbind_inv in H as ([] & _ & H). apply rbind_inv in H as ([] & _ & H).
    apply rbind_inv in H as (a & Ha & H). apply rbind_inv in H as (m & _ & H). injection H as <-.
    cbn [config saslAuthByProxy processorConfig]. split; [done|]. split.
    + unfold newSASLAuthByProxy in Ha. cbn [Kafka] in Ha |- *. unfold validateSASL in H1.
      destruct (SASL_Enable (SASL (Kafka c0))).
      * split; [intros _|done]. destruct (Plugin_Enable _).
        -- destruct (saslTokenProvider pl); [|done]. destruct_if Ha; [|done]. apply Ok_inj in Ha; subst a; by eexists.
        -- destruct_if Ha; [apply Ok_inj in Ha; subst a; by eexists|]. destruct_if Ha; [apply Ok_inj in Ha; subst a; by eexists|].
           destruct_if Ha; [apply Ok_inj in Ha; subst a; by eexists|]. destruct_if Ha; [|done].
           destruct (NewAwsMSKIamAuth _); [apply Ok_inj in Ha; subst a; by eexists|done..].
      * apply refuse_Ok in H1. rewrite H1 in Ha. simplify_eq. split; [done|]. by intros [? ?].
    + unfold validateKafka in H2. do 4 (apply rbind_inv in H2 as (? & _ & H2)). apply refuse_Ok, Z.ltb_ge in H2.
      unfold validateProxy in H3. do 3 (apply rbind_inv in H3 as (? & _ & H3)).
      apply rbind_inv in H3 as (? & Hb1%refuse_Ok & H3). apply rbind_inv in H3 as (? & Hb2%refuse_Ok & H3).
      apply Z.ltb_ge in Hb1, Hb2.
      unfold newProcessor, newProcessorConfig. cbn. rewrite Eq1, Eq2.
      replace (Proxy_RequestBufferSize (Proxy c0) <=? 0) with false by (symmetry; apply Z.leb_gt; lia).
      replace (Proxy_ResponseBufferSize (Proxy c0) <=? 0) with false by (symmetry; apply Z.leb_gt; lia).
      split_and!; try lia; try done; [by destruct (Z.ltb_spec (Kafka_MaxOpenRequests (Kafka c0)) minOpenRequests); lia|].
      intros He. rewrite He in Hl.
      by destruct (localPasswordAuthenticator pl), (localTokenAuthenticator pl).
Qed.

(** ** The connection set of a running client *)

Lemma elem_of_pairs (c : ConnSet nat) id n : n ∈ pairs c id <-> n ∈ conns_of c id.
Proof. unfold pairs. apply elem_of_list_to_set_disj. Qed.

Lemma run_reachable_inv s :
  run_reachable s ->
  wf (conns s) /\
  (forall n id, multiplicity n (pairs (conns s) id) =
     if decide (copying s !! n = Some id \/ panicked s !! n = Some id) then 1%nat else 0%nat) /\
  (forall n, is_Some (copying s !! n) \/ is_Some (panicked s !! n) -> (n < next s)%nat) /\
  (forall n, is_Some (copying s !! n) -> panicked s !! n = None).
Proof.
  induction 1 as [|s s' _ (Hw & Hp & Hn & Hd) Hs].
  - split; [apply wf_New|]. split; [|split; [|by intros n [? ?]]]; [|by intros n [[? ?]|[? ?]]].
    intros n id. destruct (decide _) as [[?|?]|]; done.
  - destruct Hs as [id|n id Hc|n id Hc]; cbn [conns copying panicked next].
    + destruct (Add_spec id (next s) (conns s)) as (c' & -> & Hw' & Hpe & Ho). cbn [snd].
      assert (copying s !! next s = None /\ panicked s !! next s = None) as [F1 F2].
      { split; apply eq_None_not_Some; intros Hx; [destruct (Nat.lt_irrefl (next s)); apply Hn; by left|
          destruct (Nat.lt_irrefl (next s)); apply Hn; by right]. }
      split; [by apply Hw'|]. split; [|split].
      * intros n k. destruct (decide (k = id)) as [->|Hk].
        -- rewrite Hpe, multiplicity_disj_union, Hp. destruct (decide (n = next s)) as [->|Hne].
           ++ rewrite multiplicity_singleton, lookup_insert_eq, F1, F2. by repeat case_decide; naive_solver.
           ++ rewrite multiplicity_singleton_ne by done. rewrite lookup_insert_ne by done. lia.
        -- unfold pairs. rewrite Ho by done. fold (pairs (conns s) k). rewrite Hp.
           destruct (decide (n = next s)) as [->|Hne]; [|by rewrite lookup_insert_ne by done].
           rewrite lookup_insert_eq, F1, F2. by repeat case_decide; naive_solver.
      * intros n [Hx|Hx]; [|specialize (Hn n (or_intror Hx)); lia].
        destruct (decide (n = next s)) as [->|Hne]; [lia|]. rewrite lookup_insert_ne in Hx by done.
        specialize (Hn n (or_introl Hx)). lia.
      * intros n Hx. destruct (decide (n = next s)) as [->|Hne]; [done|]. rewrite lookup_insert_ne in Hx by done. by apply Hd.
    + pose proof (Remove_spec id n (conns s) Hw) as Hr. specialize (Hp n id) as Hpn.
      rewrite decide_True in Hpn by (by left).
      destruct (Remove id n (conns s)) as [[[]|e|w] c']; cbn [snd]; [| |done].
      * destruct Hr as (_ & Hw' & Hpe & Ho). split; [done|]. split; [|split].
        -- intros m k. destruct (decide (m = n)) as [->|Hm].
           ++ rewrite lookup_delete_eq. assert (panicked s !! n = None) as Hpn0 by (apply Hd; by eexists).
              rewrite Hpn0.
              destruct (decide (k = id)) as [->|Hk].
              ** rewrite Hpe, multiplicity_difference, Hpn, multiplicity_singleton. by repeat case_decide; naive_solver.
              ** unfold pairs. rewrite Ho by done. fold (pairs (conns s) k). rewrite Hp, Hc, Hpn0. by repeat case_decide; naive_solver.
           ++ rewrite lookup_delete_ne by done. destruct (decide (k = id)) as [->|Hk].
              ** rewrite Hpe, multiplicity_difference, Hp, multiplicity_singleton_ne by done. lia.
              ** unfold pairs. rewrite Ho by done. apply Hp.
        -- intros m [Hx|Hx]; apply Hn; [left|by right]. destruct Hx as [y Hx]. apply lookup_delete_Some in Hx as [_ Hx]. by eexists.
        -- intros m [y Hx]. apply lookup_delete_Some in Hx as [_ Hx]. apply Hd. by eexists.
      * destruct Hr as [Hr _]. apply not_elem_of_multiplicity in Hr. lia.
    + assert (panicked s !! n = None) as Hpn0 by (apply Hd; by eexists).
      split; [done|]. split; [|split].
      * intros m k. rewrite Hp. destruct (decide (m = n)) as [->|Hm].
        -- rewrite lookup_delete_eq, lookup_insert_eq, Hc, Hpn0. apply decide_ext. naive_solver.
        -- rewrite lookup_delete_ne, lookup_insert_ne by done. done.
      * intros m [Hx|Hx]; apply Hn; destruct Hx as [y Hx].
        -- apply lookup_delete_Some in Hx as [_ Hx]. left. by eexists.
        -- apply lookup_insert_Some in Hx as [[<- _]|[_ Hx]]; [left; by eexists|right; by eexists].
      * intros m [y Hx]. apply lookup_delete_Some in Hx as [Hm Hx]. rewrite lookup_insert_ne by done. apply Hd. by eexists.
Qed.

(** The connection set of a running client, under any order of arrivals, ends
    and panics: it holds a connection, once, exactly when it is being copied or
    its goroutine panicked, and [Remove] never fails; so a panic leaves its
    connection in the set for good, and only that does.*)
Theorem connections_are_tracked (s : running) :
  run_reachable s ->
  (forall n id, n ∈ Conns [id] (conns s) <-> copying s !! n = Some id \/ panicked s !! n = Some id) /\
  (forall id, NoDup (Conns [id] (conns s))) /\
  (forall n id, copying s !! n = Some id -> fst (Remove id n (conns s)) = Ok tt).
Proof.
  intros (Hw & Hp & _ & _)%run_reachable_inv.
  assert (forall n id, n ∈ conns_of (conns s) id <-> copying s !! n = Some id \/ panicked s !! n = Some id) as He.
  { intros n id. rewrite <- elem_of_pairs, elem_of_multiplicity, Hp. destruct (decide _); split; intros; (done || lia || by destruct n0). }
  assert (forall id, Conns [id] (conns s) = conns_of (conns s) id) as Ec by (intros id; unfold Conns; simpl; by rewrite app_nil_r).
  split_and!.
  - intros n id. rewrite Ec. apply He.
  - intros id. rewrite Ec.
    assert (forall l : list nat, (forall n, (multiplicity n (list_to_set_disj l : gmultiset nat) <= 1)%nat) -> NoDup l) as Hnd.
    { induction l as [|x l IH]; intros Hm; constructor.
      - intros Hx. specialize (Hm x). change (list_to_set_disj (x :: l)) with ({[+ x +]} ⊎ list_to_set_disj l : gmultiset nat) in Hm.
        rewrite multiplicity_disj_union, multiplicity_singleton, decide_True in Hm by done.
        apply elem_of_list_to_set_disj in Hx. rewrite elem_of_multiplicity in Hx. lia.
      - apply IH. intros n. specialize (Hm n).
        change (list_to_set_disj (x :: l)) with ({[+ x +]} ⊎ list_to_set_disj l : gmultiset nat) in Hm.
        rewrite multiplicity_disj_union in Hm. lia. }
    apply Hnd. intros n. specialize (Hp n id). unfold pairs in Hp. rewrite Hp. destruct (decide _); lia.
  - intros n id Hc. pose proof (Remove_spec id n (conns s) Hw) as Hr.
    destruct (Remove id n (conns s)) as [[[]|e|w] c']; [done| |done]. destruct Hr as [Hr _]. destruct Hr.
    apply elem_of_pairs, He. by left.
Qed.

(** ** Witnesses *)

(** PLAIN to a broker that answers the handshake and accepts the credentials,
    found at a mapped address. *)
Definition plain_config : Config :=
  let c := NewConfig in let k := Kafka c in let p := Proxy c in
  {| Proxy := {| DefaultListenerIP := $"0.0.0.0"; BootstrapServers := BootstrapServers (Proxy example_config); ExternalServers := [];
       DeterministicListeners := false;
       DialAddressMappings := [{| SourceAddress := $"kafka:9092"; DestinationAddress := $"10.0.0.1:9092" |}];
       DisableDynamicListeners := false; DynamicAdvertisedListener := []; DynamicSequentialMinPort := 0;
       DynamicSequentialMaxPorts := 0; Proxy_RequestBufferSize := 4096; Proxy_ResponseBufferSize := 4096;
       ListenerKeepAlive := 60 * second; ProxyTLS_Enable := false; ListenerCertFile := []; ListenerKeyFile := [];
       SNIMapping := ∅; SNIListenerAddress := [] |};
     Local := Local c; GatewayClient := GatewayClient c; GatewayServer := GatewayServer c;
     Kafka := {| Kafka_ClientID := $"proxy"; Kafka_MaxOpenRequests := 256; Kafka_ForbiddenApiKeys := [20];
       DialTimeout := DialTimeout k; WriteTimeout := WriteTimeout k; ReadTimeout := ReadTimeout k; KeepAlive := KeepAlive k;
       KafkaTLS_Enable := false; KafkaTLS_ClientCertFile := []; SameClientCertEnable := false;
       SASL := {| SASL_Enable := true; SASL_Username := $"alice"; SASL_Password := $"secret"; JaasConfigFile := [];
                  SASL_Method := $"PLAIN"; SASL_Plugin := SASL_Plugin (SASL k); GSSAPI := GSSAPI (SASL k) |};
       Acks0Disabled := false |};
     ForwardProxy := ForwardProxy c |}.
Definition no_plugins : plugins nat :=
  {| localPasswordAuthenticator := None; localTokenAuthenticator := None; saslTokenProvider := None;
     gatewayTokenProvider := None; gatewayTokenInfo := None |}.
Definition no_aws : bytes -> res (AwsMSKIamAuth nat) := fun _ => Err (Errorf "no AWS configuration").
Definition no_cert : bytes -> res unit := fun _ => Err (Errorf "no certificate").
Definition plain_client : Client nat unit :=
  match NewClient (fun _ => Ok true) no_cert no_aws plain_config None no_plugins None with
  | Ok cl => cl
  | _ => {| config := plain_config; dialer := directDialer 0 0; saslAuthByProxy := None;
            authClient := {| ac_enabled := false; ac_magic := 0; ac_method := []; ac_tokenProvider := nil_call |};
            processorConfig := newProcessorConfig plain_config None no_plugins None;
            dialAddressMapping := ∅; kafkaClientCert := None |}
  end.
Definition plain_dial : Dialer -> bytes -> M nat conn := fun _ addr n =>
  if bool_decide (addr = $"10.0.0.1:9092")
  then (Ok (fed (handshake_reply SASLPlain ++ replicate 4 x00) quiet), S n)
  else (Err (Errorf "connection refused"), S n).
Definition nothing_outside : outside nat := {| scramCorrelationID := 0; lib := O |}.

Lemma handleConn_copies_or_closes_witness :
  exists server o', dialed_and_authenticated toy_krb toy_New toy_New toy_Step toy_Done plain_dial plain_client
    (dialAddress plain_client ($"kafka:9092")) nothing_outside server o'.
Proof.
  pose (run := handleConn toy_krb toy_New toy_New toy_Step toy_Done plain_dial plain_client (fun _ => ret tt)
                 ($"kafka:9092") quiet nothing_outside).
  eexists _, _.
  exact (proj1 (handleConn_copies_or_closes toy_krb toy_New toy_New toy_Step toy_Done plain_dial plain_client
           (fun _ => ret tt) ($"kafka:9092") quiet nothing_outside (snd run) (fst run) ltac:(vm_compute; reflexivity))).
Defined.

Lemma dial_address_mappings_witness :
  dialAddress plain_client ($"kafka:9092") = $"10.0.0.1:9092" /\ dialAddress plain_client ($"other:9092") = $"other:9092".
Proof.
  destruct (proj2 (dial_address_mappings plain_config plain_client)) as [H1 H2]; [reflexivity|]. split.
  - apply (H1 {| SourceAddress := $"kafka:9092"; DestinationAddress := $"10.0.0.1:9092" |}). by left.
  - apply H2. intros v [->|Hv%elem_of_nil]%elem_of_cons; [discriminate|done].
Defined.

Lemma validated_client_witness :
  SASL_Enable (SASL (Kafka plain_config)) = true <-> is_Some (saslAuthByProxy plain_client).
Proof.
  destruct (validated_client example_Parse example_ParseIP (fun _ => Ok true) no_cert no_aws None no_plugins None
              plain_config plain_config ltac:(vm_compute; reflexivity)) as [_ H].
  exact (proj1 (proj2 (H plain_client ltac:(vm_compute; reflexivity)))).
Defined.

(** Two connections to one broker; the first one's goroutine panics. *)
Definition two_connections : running :=
  {| conns := {[ $"kafka:9092" := [0%nat; 1%nat] ]}; copying := {[ 1%nat := $"kafka:9092" ]};
     panicked := {[ 0%nat := $"kafka:9092" ]}; next := 2%nat |}.

Lemma connections_are_tracked_witness :
  0%nat ∈ Conns [$"kafka:9092"] (conns two_connections) /\
  fst (Remove ($"kafka:9092") 1%nat (conns two_connections)) = Ok tt.
Proof.
  destruct (connections_are_tracked two_connections) as (H1 & _ & H3).
  - eapply run_next; [eapply run_next; [eapply run_next; [apply run_start|apply (run_added _ ($"kafka:9092"))]|
      apply (run_added _ ($"kafka:9092"))]|].
    refine (eq_rect _ (run_step _) (run_panicked _ 0%nat ($"kafka:9092") _) _ _); vm_compute; reflexivity.
  - split; [apply H1; right; reflexivity|apply H3; reflexivity].
Defined.
