(* ===== verification/Kbin.v ===== *)
(** The wire primitives of the vendored Kafka message library
    (vendor/github.com/twmb/franz-go/pkg/kmsg/internal/kbin/primitives.go) the
    encryption plugins parse and print records with: zigzag varints, the
    [Append*] functions, and the [Reader], which reads zeros once it ran out
    of bytes and reports it in the end. *)
From Stdlib Require Import ZArith Lia Strings.Byte.
From stdpp Require Import base list strings gmap sorting.
From S2P Require Import Prelude GoLib.

Definition ErrNotEnoughData : error := Errorf "response did not contain enough data to be valid".

(** ** Lengths of varints *)

(** [bits.Len32] and [bits.Len64] of an unsigned integer. *)
Definition bits_Len (u : Z) : Z := if u =? 0 then 0 else Z.log2 u + 1.

(** Indexed by the number of significant bits; the 256-entry string is zero
    beyond 64 bits. *)
Definition uvarintLens : list Z :=
  [1; 1; 1; 1; 1; 1; 1; 1; 2; 2; 2; 2; 2; 2; 2; 3; 3; 3; 3; 3; 3; 3; 4; 4; 4; 4; 4; 4; 4;
   5; 5; 5; 5; 5; 5; 5; 6; 6; 6; 6; 6; 6; 6; 7; 7; 7; 7; 7; 7; 7; 8; 8; 8; 8; 8; 8; 8;
   9; 9; 9; 9; 9; 9; 9; 10].

Definition lens_at (i : Z) : Z := default 0 (uvarintLens !! Z.to_nat (uint8 i)).

Definition UvarintLen (u : Z) : Z := lens_at (bits_Len u).
Definition uvarlongLen (u : Z) : Z := lens_at (bits_Len u).

(** [uint32(i)<<1 ^ uint32(i>>31)], and its 64-bit sibling. *)
Definition zigzag (w i : Z) : Z :=
  Z.lxor (wrapU w (Z.shiftl (wrapU w i) 1)) (wrapU w (Z.shiftr i (w - 1))).

Definition VarintLen (i : Z) : Z := UvarintLen (zigzag 32 i).
Definition VarlongLen (i : Z) : Z := uvarlongLen (zigzag 64 i).

(** ** Decoding varints

    The code unrolls these loops: every byte but the last carries seven bits
    and a continuation flag, and the last may carry at most [lim]. *)
Fixpoint uvar_loop (last : nat) (w lim : Z) (i : nat) (x : Z) (inp : bytes) : Z * Z :=
  match inp with
  | [] => (0, 0)
  | b :: inp' =>
      let s := 7 * Z.of_nat i in
      if (i =? last)%nat then
        if byteZ b <=? lim then (Z.lor x (wrapU w (Z.shiftl (byteZ b) s)), Z.of_nat i + 1)
        else (0, - (Z.of_nat i + 1))
      else
        let x' := Z.lor x (wrapU w (Z.shiftl (Z.land (byteZ b) 127) s)) in
        if Z.land (byteZ b) 128 =? 0 then (x', Z.of_nat i + 1)
        else uvar_loop last w lim (S i) x' inp'
  end.

Definition Uvarint (inp : bytes) : Z * Z := uvar_loop 4 32 15 0 0 inp.
Definition uvarlong (inp : bytes) : Z * Z := uvar_loop 9 64 1 0 0 inp.

(** [int32((x >> 1) ^ -(x & 1))] on an unsigned [x] of [w] bits. *)
Definition unzigzag (w x : Z) : Z :=
  wrapS w (Z.lxor (Z.shiftr x 1) (wrapU w (- Z.land x 1))).

Definition Varint (inp : bytes) : Z * Z :=
  let '(x, n) := Uvarint inp in (unzigzag 32 x, n).
Definition Varlong (inp : bytes) : Z * Z :=
  let '(x, n) := uvarlong inp in (unzigzag 64 x, n).

(** ** Printing *)

Definition AppendInt8 (dst : bytes) (i : Z) : bytes := dst ++ be_put 1 i.
Definition AppendInt16 (dst : bytes) (i : Z) : bytes := dst ++ be_put 2 i.
Definition AppendInt32 (dst : bytes) (i : Z) : bytes := dst ++ be_put 4 i.
Definition AppendInt64 (dst : bytes) (i : Z) : bytes := dst ++ be_put 8 i.
Definition AppendUuid (dst uuid : bytes) : bytes := dst ++ uuid.

(** The bytes of [u] as [n] septets, the continuation flag set on all but the
    last. *)
Fixpoint septets (n : nat) (u : Z) : bytes :=
  match n with
  | O => []
  | 1%nat => [Zbyte u]
  | S n' => Zbyte (Z.lor (Z.land u 127) 128) :: septets n' (Z.shiftr u 7)
  end.

(** [switch UvarintLen(u)]: a length without a case appends nothing. *)
Definition AppendUvarint (dst : bytes) (u : Z) : bytes :=
  let n := UvarintLen u in
  if (1 <=? n) && (n <=? 5) then dst ++ septets (Z.to_nat n) u else dst.

Definition appendUvarlong (dst : bytes) (u : Z) : bytes :=
  let n := uvarlongLen u in
  if (1 <=? n) && (n <=? 10) then dst ++ septets (Z.to_nat n) u else dst.

Definition AppendVarint (dst : bytes) (i : Z) : bytes := AppendUvarint dst (zigzag 32 i).
Definition AppendVarlong (dst : bytes) (i : Z) : bytes := appendUvarlong dst (zigzag 64 i).

Definition AppendString (dst s : bytes) : bytes := AppendInt16 dst (int16 (len s)) ++ s.
Definition AppendCompactString (dst s : bytes) : bytes :=
  AppendUvarint dst (uint32 (1 + uint32 (len s))) ++ s.
Definition AppendNullableString (dst : bytes) (s : option bytes) : bytes :=
  match s with None => AppendInt16 dst (-1) | Some s => AppendString dst s end.
Definition AppendCompactNullableString (dst : bytes) (s : option bytes) : bytes :=
  match s with None => AppendUvarint dst 0 | Some s => AppendCompactString dst s end.
Definition AppendBytes (dst b : bytes) : bytes := AppendInt32 dst (int32 (len b)) ++ b.
Definition AppendCompactBytes (dst b : bytes) : bytes :=
  AppendUvarint dst (uint32 (1 + uint32 (len b))) ++ b.
Definition AppendNullableBytes (dst : bytes) (b : option bytes) : bytes :=
  match b with None => AppendInt32 dst (-1) | Some b => AppendBytes dst b end.
Definition AppendCompactNullableBytes (dst : bytes) (b : option bytes) : bytes :=
  match b with None => AppendUvarint dst 0 | Some b => AppendCompactBytes dst b end.
Definition AppendVarintString (dst s : bytes) : bytes := AppendVarint dst (int32 (len s)) ++ s.
Definition AppendVarintBytes (dst : bytes) (b : option bytes) : bytes :=
  match b with
  | None => AppendVarint dst (-1)
  | Some b => AppendVarint dst (int32 (len b)) ++ b
  end.
Definition AppendArrayLen (dst : bytes) (l : Z) : bytes := AppendInt32 dst (int32 l).
Definition AppendCompactArrayLen (dst : bytes) (l : Z) : bytes :=
  AppendUvarint dst (uint32 (1 + uint32 l)).
Definition AppendNullableArrayLen (dst : bytes) (l : Z) (isNil : bool) : bytes :=
  if isNil then AppendInt32 dst (-1) else AppendInt32 dst (int32 l).
Definition AppendCompactNullableArrayLen (dst : bytes) (l : Z) (isNil : bool) : bytes :=
  if isNil then AppendUvarint dst 0 else AppendUvarint dst (uint32 (1 + uint32 l)).

(** ** The reader *)

(** [Src] is [None] for the nil slice an invalidated reader is left with. *)
Record Reader := { Src : option bytes; bad : bool }.

Definition NewReader (src : bytes) : Reader := {| Src := Some src; bad := false |}.
Definition src_of (b : Reader) : bytes := default [] (Src b).
Definition advance (b : Reader) (n : Z) : Reader :=
  {| Src := drop (Z.to_nat n) <$> Src b; bad := bad b |}.
Definition invalidated : Reader := {| Src := None; bad := true |}.

(** The fixed-width reads: [n] bytes, or 0 from an invalidated reader. *)
Definition read_fixed (n : nat) (conv : Z -> Z) : M Reader Z := fun b =>
  if len (src_of b) <? Z.of_nat n then (Ok 0, invalidated)
  else (Ok (conv (be_value (take n (src_of b)))), advance b (Z.of_nat n)).

Definition Int8 : M Reader Z := read_fixed 1 int8.
Definition Int16 : M Reader Z := read_fixed 2 int16.
Definition Int32 : M Reader Z := read_fixed 4 int32.
Definition Int64 : M Reader Z := read_fixed 8 int64.

(** The variable-length reads, from a decoder that gives a value and the
    number of bytes it used, not positive when it failed. *)
Definition read_var (dec : bytes -> Z * Z) : M Reader Z := fun b =>
  let '(val, n) := dec (src_of b) in
  if n <=? 0 then (Ok 0, invalidated) else (Ok val, advance b n).

Definition Reader_Varint : M Reader Z := read_var Varint.
Definition Reader_Varlong : M Reader Z := read_var Varlong.
Definition Reader_Uvarint : M Reader Z := read_var Uvarint.

(** [r := b.Src[:l:l]] of a nil slice is nil. *)
Definition Span (l : Z) : M Reader (option bytes) := fun b =>
  if (len (src_of b) <? l) || (l <? 0) then (Ok None, invalidated)
  else (Ok (take (Z.to_nat l) <$> Src b), advance b l).

Definition span_bytes (l : Z) : M Reader bytes :=
  let* s := Span l in ret (default [] s).

(** [copy(r[:], b.Span(16))] into a zeroed array. *)
Definition Uuid : M Reader bytes :=
  let* s := span_bytes 16 in ret (take 16 (s ++ replicate (16 - length s) (Zbyte 0))).

Definition String : M Reader bytes := let* l := Int16 in span_bytes l.
Definition CompactString : M Reader bytes := let* l := Reader_Uvarint in span_bytes (l - 1).
Definition NullableString : M Reader (option bytes) :=
  let* l := Int16 in
  if l <? 0 then ret None else let* s := span_bytes l in ret (Some s).
Definition CompactNullableString : M Reader (option bytes) :=
  let* u := Reader_Uvarint in
  if u - 1 <? 0 then ret None else let* s := span_bytes (u - 1) in ret (Some s).
Definition NullableBytes : M Reader (option bytes) :=
  let* l := Int32 in if l <? 0 then ret None else Span l.
Definition CompactNullableBytes : M Reader (option bytes) :=
  let* u := Reader_Uvarint in if u - 1 <? 0 then ret None else Span (u - 1).
Definition VarintBytes : M Reader (option bytes) :=
  let* l := Reader_Varint in if l <? 0 then ret None else Span l.
Definition VarintString : M Reader bytes :=
  let* s := VarintBytes in ret (default [] s).

(** [if len(b.Src) < int(r) { b.bad = true; ... return 0 }] *)
Definition checked_len (r : Z) : M Reader Z := fun b =>
  if len (src_of b) <? r then (Ok 0, invalidated) else (Ok r, b).

Definition ArrayLen : M Reader Z := let* r := Int32 in checked_len r.
Definition VarintArrayLen : M Reader Z := let* r := Reader_Varint in checked_len r.
Definition CompactArrayLen : M Reader Z :=
  let* u := Reader_Uvarint in checked_len (int32 (int32 u - 1)).

Definition Reader_Ok (b : Reader) : bool := negb (bad b).
Definition Complete : M Reader unit := fun b =>
  if bad b then (Err ErrNotEnoughData, b) else (Ok tt, b).

(** [if !b.Ok() { return b.Complete() }] *)
Definition check_ok : M Reader unit := Complete.

(** [for i := int32(0); i < l; i++] over the elements just allocated. *)
Fixpoint read_times {A} (n : nat) (elem : M Reader A) : M Reader (list A) :=
  match n with
  | O => ret []
  | S n' => let* a := elem in let* l := read_times n' elem in ret (a :: l)
  end.

(** The decoding of an array: its length, the early return, its elements. *)
Definition read_array {A} (readLen : M Reader Z) (elem : M Reader A) : M Reader (list A) :=
  let* l := readLen in
  do* check_ok in
  read_times (Z.to_nat l) elem.

(** ** Facts

    The wire primitives read back what they print: zigzag is a bijection, a
    varint has the length the table gives and decodes to its value, and every
    read of the [Reader] inverts the corresponding [Append*]. *)

(** ** Zigzag *)

Lemma lxor_ones w a : 0 <= w -> inU w a -> Z.lxor a (2 ^ w - 1) = 2 ^ w - 1 - a.
Proof.
  intros Hw Ha. assert (2 ^ w - 1 = Z.ones w) as -> by (rewrite Z.ones_equiv; lia).
  assert (forall n, w <= n -> Z.testbit a n = false) as Hhigh.
  { intros n Hn. rewrite <- (Z.mod_small a (2 ^ w)) by (unfold inU in Ha; lia).
    by apply Z.mod_pow2_bits_high. }
  symmetry. rewrite Z.sub_nocarry_ldiff.
  2:{ apply Z.bits_inj'. intros n Hn. rewrite Z.ldiff_spec, Z.bits_0.
      destruct (decide (n < w)); [rewrite Z.ones_spec_low by lia; apply andb_false_r|].
      by rewrite Hhigh by lia. }
  apply Z.bits_inj'. intros n Hn. rewrite Z.ldiff_spec, Z.lxor_spec.
  destruct (decide (n < w)).
  - rewrite Z.ones_spec_low by lia. by destruct (Z.testbit a n).
  - by rewrite Z.ones_spec_high, Hhigh by lia.
Qed.

Definition zigzag_value (i : Z) : Z := if i <? 0 then -2 * i - 1 else 2 * i.

Lemma pow2_half w : 0 < w -> 2 ^ w = 2 * 2 ^ (w - 1).
Proof. intros. rewrite <- Z.pow_succ_r by lia. f_equal. lia. Qed.

Lemma wrapU_neg w z : 0 <= w -> - 2 ^ w <= z < 0 -> wrapU w z = 2 ^ w + z.
Proof.
  intros Hw Hz. unfold wrapU. rewrite <- (Z.mod_small (2 ^ w + z) (2 ^ w)) by lia.
  rewrite <- (Z.mod_add z 1) by lia. f_equal. lia.
Qed.

Lemma zigzag_eq w i : 0 < w -> inS w i -> zigzag w i = zigzag_value i.
Proof.
  intros Hw Hi. pose proof (pow2_half w Hw) as E. unfold inS in Hi.
  assert (1 <= 2 ^ (w - 1)) by (pose proof (Z.pow_pos_nonneg 2 (w - 1)); lia).
  unfold zigzag, zigzag_value. rewrite Z.shiftr_div_pow2, Z.shiftl_mul_pow2 by lia.
  change (2 ^ 1) with 2.
  destruct (i <? 0) eqn:Hn; [apply Z.ltb_lt in Hn|apply Z.ltb_ge in Hn].
  - replace (i / 2 ^ (w - 1)) with (-1).
    2:{ apply (Z.div_unique_pos _ _ _ (i + 2 ^ (w - 1))); lia. }
    rewrite (wrapU_neg w i), (wrapU_neg w (-1)) by lia.
    replace (wrapU w ((2 ^ w + i) * 2)) with (2 ^ w + 2 * i).
    2:{ unfold wrapU. rewrite <- (Z.mod_small (2 ^ w + 2 * i) (2 ^ w)) by lia.
        rewrite <- (Z.mod_add (2 ^ w + 2 * i) 1) by lia. f_equal. lia. }
    replace (2 ^ w + -1) with (2 ^ w - 1) by lia.
    rewrite lxor_ones by (unfold inU; lia). lia.
  - rewrite Z.div_small by lia. rewrite (wrapU_id w i), (wrapU_id w (i * 2)), (wrapU_id w 0) by (unfold inU; lia).
    rewrite Z.lxor_0_r. lia.
Qed.

Lemma zigzag_value_range w i : 0 < w -> inS w i -> inU w (zigzag_value i).
Proof.
  intros Hw. unfold inS, inU, zigzag_value. rewrite (pow2_half w Hw). destruct (Z.ltb_spec i 0); lia.
Qed.

Lemma unzigzag_zigzag w i : 0 < w -> inS w i -> unzigzag w (zigzag w i) = i.
Proof.
  intros Hw Hi. pose proof (zigzag_value_range w i Hw Hi) as Hr.
  rewrite zigzag_eq by done. unfold unzigzag, zigzag_value in *.
  rewrite Z.shiftr_div_pow2 by lia. change (2 ^ 1) with 2.
  assert (forall z, Z.land z 1 = z mod 2) as E1 by (intros z; by apply (Z.land_ones z 1)).
  rewrite E1.
  pose proof (pow2_half w Hw). unfold inS, inU in *.
  destruct (Z.ltb_spec i 0).
  - replace ((-2 * i - 1) / 2) with (- i - 1) by (apply (Z.div_unique_pos _ _ _ 1); lia).
    replace ((-2 * i - 1) mod 2) with 1 by (apply (Z.mod_unique_pos _ _ (- i - 1)); lia).
    change (- (1)) with (-1). rewrite wrapU_neg by lia.
    replace (2 ^ w + -1) with (2 ^ w - 1) by lia. rewrite lxor_ones by (unfold inU; lia).
    unfold wrapS. replace (2 ^ w - 1 - (- i - 1) + 2 ^ (w - 1)) with (i + 2 ^ (w - 1) + 1 * 2 ^ w) by lia.
    rewrite Z.mod_add by lia. rewrite Z.mod_small; lia.
  - rewrite Z.mul_comm, Z.div_mul, Z.mod_mul by lia. change (- (0)) with 0.
    rewrite wrapU_id by (unfold inU; lia). rewrite Z.lxor_0_r. apply wrapS_id; [lia|]. unfold inS. lia.
Qed.

(** ** The length table *)

Lemma bits_Len_spec u n : 0 <= n -> 0 <= u -> bits_Len u <= n <-> u < 2 ^ n.
Proof.
  intros Hn Hu. unfold bits_Len. destruct (Z.eqb_spec u 0) as [->|Hz].
  - pose proof (Z.pow_pos_nonneg 2 n). lia.
  - rewrite (Z.log2_lt_pow2 u n) by lia. lia.
Qed.

Lemma bits_Len_nonneg u : 0 <= bits_Len u.
Proof. unfold bits_Len. destruct (u =? 0); [lia|]. pose proof (Z.log2_nonneg u). lia. Qed.

(** The table at [l] bits holds the number of septets [l] bits need. *)
Lemma lens_at_spec l :
  0 <= l <= 64 -> 1 <= lens_at l <= 10 /\ l <= 7 * lens_at l /\ (lens_at l = 1 \/ 7 * (lens_at l - 1) < l).
Proof.
  intros H.
  assert (Forall (fun l => 1 <= lens_at l <= 10 /\ l <= 7 * lens_at l /\
                           (lens_at l = 1 \/ 7 * (lens_at l - 1) < l)) (seqZ 0 65)) as HF
    by (apply (bool_decide_eq_true_1 _); vm_compute; reflexivity).
  rewrite Forall_forall in HF. apply HF, elem_of_seqZ. lia.
Qed.

Lemma UvarintLen_spec w u :
  0 <= w <= 64 -> inU w u ->
  let n := UvarintLen u in 1 <= n <= 10 /\ u < 2 ^ (7 * n) /\ 7 * (n - 1) <= w.
Proof.
  intros Hw Hu n. unfold inU in Hu. pose proof (bits_Len_nonneg u).
  pose proof (proj2 (bits_Len_spec u w ltac:(lia) ltac:(lia)) ltac:(lia)).
  pose proof (lens_at_spec (bits_Len u) ltac:(lia)) as (H1 & H2 & H3).
  subst n. unfold UvarintLen. split; [done|]. split; [|lia].
  apply bits_Len_spec; lia.
Qed.

Lemma length_septets n u : length (septets n u) = n.
Proof.
  revert u. induction n as [|n IH]; intros u; [done|].
  destruct n as [|n]; [done|]. cbn [septets length] in *. f_equal. apply IH.
Qed.

(** ** Decoding a printed varint *)

Lemma byteZ_continuation7 u : byteZ (Zbyte (Z.lor (Z.land u 127) 128)) = u mod 128 + 128.
Proof.
  change 127 with (Z.ones 7). rewrite Z.land_ones by lia. change (2 ^ 7) with 128.
  rewrite <- (Z.mod_mod u 128) at 2 by lia.
  rewrite <- byteZ_continuation. f_equal. f_equal. f_equal.
  change 255 with (Z.ones 8). rewrite Z.land_ones by lia.
  symmetry. apply Z.mod_small. pose proof (Z.mod_pos_bound u 128 ltac:(lia)).
  change (2 ^ 8) with 256. lia.
Qed.

Lemma land_127 x : 0 <= x < 128 -> Z.land x 127 = x /\ Z.land x 128 = 0.
Proof.
  intros H.
  assert (Forall (fun x => Z.land x 127 = x /\ Z.land x 128 = 0) (seqZ 0 128)) as HF
    by (apply (bool_decide_eq_true_1 _); vm_compute; reflexivity).
  rewrite Forall_forall in HF. apply HF, elem_of_seqZ. lia.
Qed.

Lemma land_128 x : 0 <= x < 128 -> Z.land (x + 128) 127 = x /\ Z.land (x + 128) 128 = 128.
Proof.
  intros H.
  assert (Forall (fun x => Z.land (x + 128) 127 = x /\ Z.land (x + 128) 128 = 128) (seqZ 0 128)) as HF
    by (apply (bool_decide_eq_true_1 _); vm_compute; reflexivity).
  rewrite Forall_forall in HF. apply HF, elem_of_seqZ. lia.
Qed.

(** The decoder after [i] bytes, [x] being the value so far. *)
Lemma uvar_loop_septets last w lim rest : forall n i x u,
  (1 <= n)%nat -> (i + n <= S last)%nat -> 7 * Z.of_nat last < w -> lim < 128 ->
  2 ^ (w - 7 * Z.of_nat last) <= lim + 1 ->
  0 <= u < 2 ^ (7 * Z.of_nat n) -> u < 2 ^ (w - 7 * Z.of_nat i) ->
  0 <= x < 2 ^ (7 * Z.of_nat i) ->
  uvar_loop last w lim i x (septets n u ++ rest)
  = (x + u * 2 ^ (7 * Z.of_nat i), Z.of_nat i + Z.of_nat n).
Proof.
  induction n as [|n IH]; intros i x u Hn Hi Hw Hlim Hlast Hu Hu' Hx; [lia|].
  set (s := 7 * Z.of_nat i) in *.
  assert (2 ^ w = 2 ^ (w - s) * 2 ^ s) as Ew by (rewrite <- Z.pow_add_r by lia; f_equal; lia).
  assert (0 < 2 ^ s) as Hs by (apply Z.pow_pos_nonneg; lia).
  destruct n as [|n].
  - change (2 ^ (7 * Z.of_nat 1)) with 128 in Hu. cbn [septets app uvar_loop].
    assert (byteZ (Zbyte u) = u) as -> by (rewrite byteZ_Zbyte, Z.mod_small; lia).
    destruct (Nat.eqb_spec i last) as [->|Hne].
    + replace (u <=? lim) with true by (symmetry; apply Z.leb_le; unfold s in Hu'; lia).
      fold s. rewrite wrapU_id by (unfold inU; rewrite Z.shiftl_mul_pow2 by lia; nia).
      rewrite lor_shift_add by lia. done.
    + destruct (land_127 u) as [-> ->]; [lia|]. fold s. cbn [Z.eqb].
      rewrite wrapU_id by (unfold inU; rewrite Z.shiftl_mul_pow2 by lia; nia).
      rewrite lor_shift_add by lia. done.
  - change (septets (S (S n)) u) with (Zbyte (Z.lor (Z.land u 127) 128) :: septets (S n) (Z.shiftr u 7)).
    cbn [app uvar_loop]. rewrite byteZ_continuation7.
    replace (i =? last)%nat with false by (symmetry; apply Nat.eqb_neq; lia).
    pose proof (Z.mod_pos_bound u 128 ltac:(lia)) as Hm.
    destruct (land_128 (u mod 128)) as [-> ->]; [lia|]. fold s. cbn [Z.eqb].
    pose proof (Z.div_mod u 128 ltac:(lia)) as Hdiv.
    assert (u mod 128 * 2 ^ s <= u * 2 ^ s)
      by (apply Z.mul_le_mono_nonneg_r; [lia|apply Z.mod_le; lia]).
    assert (u * 2 ^ s < 2 ^ (w - s) * 2 ^ s) by (apply Z.mul_lt_mono_pos_r; lia).
    rewrite wrapU_id by (unfold inU; rewrite Z.shiftl_mul_pow2 by lia; nia).
    rewrite lor_shift_add by lia. rewrite Z.shiftr_div_pow2 by lia. change (2 ^ 7) with 128.
    assert (7 * Z.of_nat (S i) = s + 7) as Es by lia.
    assert (2 ^ (s + 7) = 2 ^ s * 128) as E7 by (rewrite Z.pow_add_r by lia; done).
    rewrite IH; rewrite ?Es, ?E7; try lia.
    + f_equal; [nia|lia].
    + split; [apply Z.div_pos; lia|]. apply Z.div_lt_upper_bound; [lia|].
      change 128 with (2 ^ 7). rewrite <- Z.pow_add_r by lia.
      replace (7 + 7 * Z.of_nat (S n)) with (7 * Z.of_nat (S (S n))) by lia. lia.
    + apply Z.div_lt_upper_bound; [lia|]. change 128 with (2 ^ 7). rewrite <- Z.pow_add_r by lia.
      replace (7 + (w - (s + 7))) with (w - s) by lia. lia.
    + split; nia.
Qed.

(** ** The printed bytes do not depend on what precedes them *)

Lemma AppendUvarint_app dst u : AppendUvarint dst u = dst ++ AppendUvarint [] u.
Proof. unfold AppendUvarint. case_match; [done|]. by rewrite app_nil_r. Qed.
Lemma appendUvarlong_app dst u : appendUvarlong dst u = dst ++ appendUvarlong [] u.
Proof. unfold appendUvarlong. case_match; [done|]. by rewrite app_nil_r. Qed.
Lemma AppendVarint_app dst i : AppendVarint dst i = dst ++ AppendVarint [] i.
Proof. apply AppendUvarint_app. Qed.
Lemma AppendVarlong_app dst i : AppendVarlong dst i = dst ++ AppendVarlong [] i.
Proof. apply appendUvarlong_app. Qed.
Lemma AppendVarintBytes_app dst b : AppendVarintBytes dst b = dst ++ AppendVarintBytes [] b.
Proof. destruct b; simpl; rewrite AppendVarint_app, <- ?app_assoc; done. Qed.
Lemma AppendVarintString_app dst s : AppendVarintString dst s = dst ++ AppendVarintString [] s.
Proof. unfold AppendVarintString. by rewrite AppendVarint_app, <- app_assoc. Qed.

(** ** Lengths *)

Lemma AppendUvarint_septets u :
  inU 32 u -> AppendUvarint [] u = septets (Z.to_nat (UvarintLen u)) u.
Proof.
  intros Hu. destruct (UvarintLen_spec 32 u ltac:(lia) Hu) as (H1 & _ & H3).
  unfold AppendUvarint.
  by replace (_ && _) with true by (symmetry; rewrite andb_true_iff, !Z.leb_le; lia).
Qed.

Lemma appendUvarlong_septets u :
  inU 64 u -> appendUvarlong [] u = septets (Z.to_nat (uvarlongLen u)) u.
Proof.
  intros Hu. destruct (UvarintLen_spec 64 u ltac:(lia) Hu) as (H1 & _ & H3).
  unfold appendUvarlong. change (uvarlongLen u) with (UvarintLen u).
  by replace (_ && _) with true by (symmetry; rewrite andb_true_iff, !Z.leb_le; lia).
Qed.

Lemma zigzag_range w i : 0 < w -> inS w i -> inU w (zigzag w i).
Proof. intros Hw Hi. rewrite zigzag_eq by done. by apply zigzag_value_range. Qed.

Lemma len_AppendVarint i : inS 32 i -> len (AppendVarint [] i) = VarintLen i.
Proof.
  intros Hi. pose proof (zigzag_range 32 i ltac:(lia) Hi) as Hu.
  unfold AppendVarint, VarintLen. rewrite AppendUvarint_septets by done.
  destruct (UvarintLen_spec 32 _ ltac:(lia) Hu). unfold len. rewrite length_septets. lia.
Qed.

Lemma len_AppendVarlong i : inS 64 i -> len (AppendVarlong [] i) = VarlongLen i.
Proof.
  intros Hi. pose proof (zigzag_range 64 i ltac:(lia) Hi) as Hu.
  unfold AppendVarlong, VarlongLen. rewrite appendUvarlong_septets by done.
  destruct (UvarintLen_spec 64 _ ltac:(lia) Hu) as (H1 & _). unfold len. rewrite length_septets.
  change (uvarlongLen (zigzag 64 i)) with (UvarintLen (zigzag 64 i)). lia.
Qed.

Lemma VarintLen_range i : inS 32 i -> 1 <= VarintLen i <= 5.
Proof.
  intros Hi. pose proof (zigzag_range 32 i ltac:(lia) Hi) as Hu.
  destruct (UvarintLen_spec 32 _ ltac:(lia) Hu) as (H1 & _ & H3). unfold VarintLen. lia.
Qed.

(** ** Decoding what was printed, whatever follows *)

Lemma Uvarint_Append u rest : inU 32 u -> Uvarint (AppendUvarint [] u ++ rest) = (u, UvarintLen u).
Proof.
  intros Hu. rewrite AppendUvarint_septets by done.
  destruct (UvarintLen_spec 32 u ltac:(lia) Hu) as (H1 & H2 & H3). unfold inU in Hu.
  unfold Uvarint. rewrite uvar_loop_septets.
  - change (2 ^ (7 * Z.of_nat 0)) with 1. f_equal; lia.
  - lia.
  - lia.
  - done.
  - done.
  - by vm_compute.
  - split; [lia|]. by rewrite Z2Nat.id by lia.
  - by apply Hu.
  - done.
Qed.

Lemma uvarlong_Append u rest : inU 64 u -> uvarlong (appendUvarlong [] u ++ rest) = (u, uvarlongLen u).
Proof.
  intros Hu. rewrite appendUvarlong_septets by done.
  destruct (UvarintLen_spec 64 u ltac:(lia) Hu) as (H1 & H2 & H3). unfold inU in Hu.
  unfold uvarlong. change (uvarlongLen u) with (UvarintLen u). rewrite uvar_loop_septets.
  - change (2 ^ (7 * Z.of_nat 0)) with 1. f_equal; lia.
  - lia.
  - lia.
  - done.
  - done.
  - by vm_compute.
  - split; [lia|]. by rewrite Z2Nat.id by lia.
  - by apply Hu.
  - done.
Qed.

(** ** Readers that consume exactly what was printed *)

Definition reads {A} (m : M Reader A) (bs : bytes) (a : A) : Prop :=
  forall rest, m (NewReader (bs ++ rest)) = (Ok a, NewReader rest).

Lemma reads_ret {A} (a : A) : reads (ret a) [] a.
Proof. by intros rest. Qed.

Lemma reads_bind {A B} (m : M Reader A) (k : A -> M Reader B) bs1 bs2 a b :
  reads m bs1 a -> reads (k a) bs2 b -> reads (bind m k) (bs1 ++ bs2) b.
Proof. intros H1 H2 rest. unfold bind. rewrite <- app_assoc, H1. apply H2. Qed.

Lemma reads_bind_nil {A B} (m : M Reader A) (k : A -> M Reader B) bs a b :
  reads m bs a -> reads (k a) [] b -> reads (bind m k) bs b.
Proof. intros H1 H2. rewrite <- (app_nil_r bs). by eapply reads_bind. Qed.

Lemma reads_check_ok : reads check_ok [] tt.
Proof. by intros rest. Qed.

Lemma src_NewReader bs : src_of (NewReader bs) = bs.
Proof. done. Qed.

Lemma advance_app bs rest : advance (NewReader (bs ++ rest)) (len bs) = NewReader rest.
Proof. unfold advance, NewReader. simpl. by rewrite to_nat_len, drop_app_len. Qed.

Lemma read_fixed_reads n conv z :
  reads (read_fixed n conv) (be_put n z) (conv (z mod 256 ^ Z.of_nat n)).
Proof.
  intros rest. unfold read_fixed. rewrite src_NewReader, len_app, len_be_put.
  replace (_ <? _) with false by (symmetry; apply Z.ltb_ge; len_lia).
  rewrite take_app_length' by (by rewrite length_be_put). rewrite be_value_put.
  rewrite <- (len_be_put n z), advance_app. done.
Qed.

Lemma read_int_reads (n : nat) z :
  (0 < n)%nat -> inS (8 * Z.of_nat n) z ->
  reads (read_fixed n (wrapS (8 * Z.of_nat n))) (be_put n z) z.
Proof.
  intros Hn Hz. pose proof (read_fixed_reads n (wrapS (8 * Z.of_nat n)) z) as H.
  change 256 with (2 ^ 8) in H. rewrite <- Z.pow_mul_r in H by lia.
  fold (wrapU (8 * Z.of_nat n) z) in H. rewrite wrapS_wrapU, wrapS_id in H by (done || lia). done.
Qed.

Lemma Int8_reads z : inS 8 z -> reads Int8 (be_put 1 z) z.
Proof. intros. by apply (read_int_reads 1); [lia|]. Qed.
Lemma Int16_reads z : inS 16 z -> reads Int16 (be_put 2 z) z.
Proof. intros. by apply (read_int_reads 2); [lia|]. Qed.
Lemma Int32_reads z : inS 32 z -> reads Int32 (be_put 4 z) z.
Proof. intros. by apply (read_int_reads 4); [lia|]. Qed.
Lemma Int64_reads z : inS 64 z -> reads Int64 (be_put 8 z) z.
Proof. intros. by apply (read_int_reads 8); [lia|]. Qed.

Lemma read_var_reads dec bs v :
  0 < len bs -> (forall rest, dec (bs ++ rest) = (v, len bs)) -> reads (read_var dec) bs v.
Proof.
  intros Hl H rest. unfold read_var. rewrite src_NewReader, H.
  replace (_ <=? 0) with false by (symmetry; apply Z.leb_gt; lia). by rewrite advance_app.
Qed.

Lemma Uvarint_reads u : inU 32 u -> reads Reader_Uvarint (AppendUvarint [] u) u.
Proof.
  intros Hu. destruct (UvarintLen_spec 32 u ltac:(lia) Hu) as (H1 & _ & _).
  assert (len (AppendUvarint [] u) = UvarintLen u) as Hl
    by (rewrite AppendUvarint_septets by done; unfold len; rewrite length_septets; lia).
  apply read_var_reads; [lia|]. intros rest. rewrite Hl. by apply Uvarint_Append.
Qed.

Lemma Varint_Append i rest : inS 32 i -> Varint (AppendVarint [] i ++ rest) = (i, VarintLen i).
Proof.
  intros Hi. unfold Varint, AppendVarint. rewrite Uvarint_Append by (by apply zigzag_range).
  by rewrite unzigzag_zigzag.
Qed.

Lemma Varint_reads i : inS 32 i -> reads Reader_Varint (AppendVarint [] i) i.
Proof.
  intros Hi. pose proof (VarintLen_range i Hi). pose proof (len_AppendVarint i Hi).
  apply read_var_reads; [lia|]. intros rest. rewrite Varint_Append by done. f_equal. lia.
Qed.

Lemma Varlong_reads i : inS 64 i -> reads Reader_Varlong (AppendVarlong [] i) i.
Proof.
  intros Hi. pose proof (len_AppendVarlong i Hi) as Hl.
  pose proof (zigzag_range 64 i ltac:(lia) Hi) as Hu.
  destruct (UvarintLen_spec 64 _ ltac:(lia) Hu) as (H1 & _).
  apply read_var_reads; [unfold VarlongLen, uvarlongLen in *; unfold UvarintLen in H1; lia|].
  intros rest. rewrite Hl. unfold Varlong, AppendVarlong, VarlongLen.
  rewrite uvarlong_Append by done. by rewrite unzigzag_zigzag.
Qed.

Lemma Span_reads bs : reads (Span (len bs)) bs (Some bs).
Proof.
  intros rest. unfold Span. rewrite src_NewReader, len_app.
  replace (_ || _) with false by (symmetry; rewrite orb_false_iff, !Z.ltb_ge; len_lia).
  rewrite advance_app. simpl. by rewrite to_nat_len, take_app_len.
Qed.

Lemma span_bytes_reads bs : reads (span_bytes (len bs)) bs bs.
Proof. eapply reads_bind_nil; [apply Span_reads|apply reads_ret]. Qed.

(** A slice whose length fits an [int32], as the printers assume. *)
Definition small (b : bytes) : Prop := len b < 2 ^ 31.

Lemma small_int32 b : small b -> inS 32 (len b) /\ int32 (len b) = len b.
Proof.
  intros H. assert (inS 32 (len b)) by (unfold small, inS in *; pose proof (len_nonneg b); lia).
  split; [done|]. by apply wrapS_id.
Qed.

Lemma VarintBytes_reads b :
  (forall s, b = Some s -> small s) -> reads VarintBytes (AppendVarintBytes [] b) b.
Proof.
  intros Hb. destruct b as [s|]; cbn [AppendVarintBytes].
  - destruct (small_int32 s (Hb s eq_refl)) as [H1 ->].
    eapply reads_bind; [by apply Varint_reads|].
    replace (len s <? 0) with false by (symmetry; apply Z.ltb_ge; len_lia). apply Span_reads.
  - eapply reads_bind_nil; [apply Varint_reads; by vm_compute|]. apply reads_ret.
Qed.

Lemma VarintString_reads s : small s -> reads VarintString (AppendVarintString [] s) s.
Proof.
  intros Hs. apply (reads_bind_nil _ _ _ (Some s)); [|apply reads_ret].
  apply (VarintBytes_reads (Some s)). by intros ? [= <-].
Qed.

(** [Complete] after a read that consumed everything. *)
Lemma reads_run {A} (m : M Reader A) bs a :
  reads m bs a -> fst (m (NewReader bs)) = Ok a.
Proof. intros H. specialize (H []). rewrite app_nil_r in H. by rewrite H. Qed.

(** ** Arrays *)

Lemma reads_times {A} (elem : M Reader A) (enc : A -> bytes) (l : list A) :
  Forall (fun x => reads elem (enc x) x) l -> reads (read_times (length l) elem) (l ≫= enc) l.
Proof.
  induction 1 as [|x l Hx _ IH]; [apply reads_ret|].
  cbn [length read_times mbind list_bind]. eapply reads_bind; [exact Hx|].
  eapply reads_bind_nil; [exact IH|apply reads_ret].
Qed.

Lemma len_bind_ge {A} (enc : A -> bytes) (l : list A) :
  Forall (fun x => 1 <= len (enc x)) l -> len l <= len (l ≫= enc).
Proof.
  induction 1 as [|x l Hx _ IH]; [done|]. cbn [mbind list_bind]. change (len (x :: l) <= len (enc x ++ (l ≫= enc))).
  rewrite len_cons, len_app. lia.
Qed.

(** An array whose elements take at least one byte each passes the length
    check of the [ArrayLen] family. *)
Lemma reads_array {A} (m : M Reader Z) (elem : M Reader A) (enc : A -> bytes) bs (l : list A) :
  reads m bs (len l) ->
  Forall (fun x => reads elem (enc x) x) l -> Forall (fun x => 1 <= len (enc x)) l ->
  reads (read_array (bind m checked_len) elem) (bs ++ (l ≫= enc)) l.
Proof.
  intros Hm Hall Hlen rest. unfold read_array. rewrite bind_assoc, <- app_assoc.
  erewrite bind_Ok by apply Hm. unfold bind at 1, checked_len.
  rewrite src_NewReader, len_app. pose proof (len_bind_ge enc l Hlen).
  replace (_ <? _) with false by (symmetry; apply Z.ltb_ge; len_lia).
  unfold bind. simpl. rewrite to_nat_len. by apply reads_times.
Qed.

(** ** [Complete] *)

(** A read that invalidates the reader, or that starts from an invalidated
    one, leaves it invalidated. *)
Definition stays_bad {A} (m : M Reader A) : Prop :=
  forall b, bad b = true -> bad (snd (m b)) = true.

Lemma stays_bad_ret {A} (a : A) : stays_bad (ret a).
Proof. by intros b. Qed.
Lemma stays_bad_bind {A B} (m : M Reader A) (k : A -> M Reader B) :
  stays_bad m -> (forall a, stays_bad (k a)) -> stays_bad (bind m k).
Proof.
  intros Hm Hk b Hb. unfold bind. specialize (Hm b Hb).
  destruct (m b) as [[a|e|w] b1]; simpl in *; [by apply Hk|done..].
Qed.
Lemma stays_bad_fixed n conv : stays_bad (read_fixed n conv).
Proof. intros b Hb. unfold read_fixed. by case_match. Qed.
Lemma stays_bad_var dec : stays_bad (read_var dec).
Proof. intros b Hb. unfold read_var. destruct (dec _). by case_match. Qed.
Lemma stays_bad_Span l : stays_bad (Span l).
Proof. intros b Hb. unfold Span. by case_match. Qed.
Lemma stays_bad_check_ok : stays_bad check_ok.
Proof. intros b Hb. unfold check_ok, Complete. by rewrite Hb. Qed.
Lemma stays_bad_checked_len r : stays_bad (checked_len r).
Proof. intros b Hb. unfold checked_len. by case_match. Qed.

Create HintDb kbin.
#[export] Hint Resolve stays_bad_ret stays_bad_bind stays_bad_fixed stays_bad_var stays_bad_Span
  stays_bad_check_ok stays_bad_checked_len : kbin.

Lemma stays_bad_times {A} n (elem : M Reader A) : stays_bad elem -> stays_bad (read_times n elem).
Proof. intros H. induction n as [|n IH]; simpl; eauto with kbin. Qed.
Lemma stays_bad_array {A} readLen (elem : M Reader A) :
  stays_bad readLen -> stays_bad elem -> stays_bad (read_array readLen elem).
Proof. intros. unfold read_array. eauto using stays_bad_times with kbin. Qed.
#[export] Hint Resolve stays_bad_times stays_bad_array : kbin.

(** ** What a read can give

    The values of a read are within their types whatever the bytes. *)
Definition yields {A} (m : M Reader A) (P : A -> Prop) : Prop :=
  forall b a b', m b = (Ok a, b') -> P a.

Lemma yields_ret {A} (a : A) (P : A -> Prop) : P a -> yields (ret a) P.
Proof. by intros H b a' b' [= <- <-]. Qed.
Lemma yields_bind {A B} (m : M Reader A) (k : A -> M Reader B) P Q :
  yields m P -> (forall a, P a -> yields (k a) Q) -> yields (bind m k) Q.
Proof. intros Hm Hk b a b' H. apply bind_inv in H as (x & b1 & H1 & H2). eapply Hk; eauto. Qed.
Lemma yields_any {A} (m : M Reader A) : yields m (fun _ => True).
Proof. done. Qed.

Lemma zero_inS w : 0 < w -> inS w 0.
Proof. intros. unfold inS. pose proof (Z.pow_pos_nonneg 2 (w - 1)). lia. Qed.

Lemma yields_fixed n w : 0 < w -> yields (read_fixed n (wrapS w)) (inS w).
Proof.
  intros Hw b a b' H. unfold read_fixed in H. case_match; simplify_eq.
  - by apply zero_inS.
  - by apply wrapS_range.
Qed.
Lemma yields_Int8 : yields Int8 (inS 8).
Proof. by apply yields_fixed. Qed.
Lemma yields_Int16 : yields Int16 (inS 16).
Proof. by apply yields_fixed. Qed.
Lemma yields_Int32 : yields Int32 (inS 32).
Proof. by apply yields_fixed. Qed.
Lemma yields_Int64 : yields Int64 (inS 64).
Proof. by apply yields_fixed. Qed.

Lemma yields_Varint : yields Reader_Varint (inS 32).
Proof.
  intros b a b' H. unfold Reader_Varint, read_var, Varint in H.
  destruct (Uvarint _) as [x n]. case_match; simplify_eq; [by apply zero_inS|by apply wrapS_range].
Qed.
Lemma yields_Varlong : yields Reader_Varlong (inS 64).
Proof.
  intros b a b' H. unfold Reader_Varlong, read_var, Varlong in H.
  destruct (uvarlong _) as [x n]. case_match; simplify_eq; [by apply zero_inS|by apply wrapS_range].
Qed.

Lemma yields_Span l : yields (Span l) (fun s => forall x, s = Some x -> len x <= l).
Proof.
  intros b a b' H x ->. unfold Span in H. destruct (_ || _) eqn:E; simplify_eq.
  apply orb_false_iff in E as [E1 E2]. rewrite Z.ltb_ge in E1, E2.
  destruct (Src b) as [s|] eqn:Es; simpl in *; simplify_eq.
  unfold len. rewrite length_take. lia.
Qed.

Lemma yields_VarintBytes : yields VarintBytes (fun s => forall x, s = Some x -> small x).
Proof.
  eapply yields_bind; [apply yields_Varint|]. intros l Hl. case_match; [by apply yields_ret|].
  intros b a b' Hr x ->. pose proof (yields_Span _ _ _ _ Hr x eq_refl). unfold small, inS in *. lia.
Qed.

Lemma yields_VarintString : yields VarintString small.
Proof.
  eapply yields_bind; [apply yields_VarintBytes|]. intros s Hs. apply yields_ret.
  destruct s as [x|]; simpl; [by apply Hs|]. by vm_compute.
Qed.

Lemma yields_times {A} n (elem : M Reader A) P :
  yields elem P -> yields (read_times n elem) (fun l => length l = n /\ Forall P l).
Proof.
  intros He. induction n as [|n IH]; simpl; [by apply yields_ret|].
  eapply yields_bind; [exact He|]. intros a Ha. eapply yields_bind; [exact IH|].
  intros l [Hl HP]. apply yields_ret. simpl. auto.
Qed.

Lemma yields_VarintArray {A} (elem : M Reader A) P :
  yields elem P ->
  yields (read_array VarintArrayLen elem) (fun l => len l < 2 ^ 31 /\ Forall P l).
Proof.
  intros He. unfold read_array, VarintArrayLen.
  apply (yields_bind _ _ (inS 32)).
  - eapply yields_bind; [apply yields_Varint|]. intros l Hl b a b' H.
    unfold checked_len in H. case_match; simplify_eq; [by apply zero_inS|done].
  - intros l Hl. eapply yields_bind; [apply yields_any|]. intros _ _ b a b' H.
    destruct (yields_times _ elem P He _ _ _ H) as [H1 H2].
    split; [|done]. unfold len, inS in *. rewrite H1. lia.
Qed.
