(* ===== verification/Records.v ===== *)
(** Record batches and records as the vendored Kafka message library has them
    (vendor/github.com/twmb/franz-go/pkg/kmsg/generated.go and record.go):
    their printers and readers, and that reading inverts printing. *)
From Stdlib Require Import ZArith Lia Strings.Byte.
From stdpp Require Import base list strings gmap.
From S2P Require Import Prelude GoLib Kbin.

Record Header := { Header_Key : bytes; Header_Value : option bytes }.

(** [kmsg.Record]; a nil slice is [None]. *)
Record KRecord := {
  Record_Length : Z;
  Attributes : Z;
  TimestampDelta : Z;
  TimestampDelta64 : Z;
  OffsetDelta : Z;
  Key : option bytes;
  Value : option bytes;
  Headers : list Header
}.

Record RecordBatch := {
  FirstOffset : Z;
  Batch_Length : Z;
  PartitionLeaderEpoch : Z;
  Magic : Z;
  CRC : Z;
  Batch_Attributes : Z;
  LastOffsetDelta : Z;
  FirstTimestamp : Z;
  MaxTimestamp : Z;
  ProducerID : Z;
  ProducerEpoch : Z;
  FirstSequence : Z;
  NumRecords : Z;
  Batch_Records : bytes
}.

(** ** Printers *)

Definition Header_AppendTo (dst : bytes) (v : Header) : bytes :=
  AppendVarintBytes (AppendVarintString dst (Header_Key v)) (Header_Value v).

Definition Record_AppendTo (v : KRecord) (dst : bytes) : bytes :=
  let dst := AppendVarint dst (Record_Length v) in
  let dst := AppendInt8 dst (Attributes v) in
  let d := if TimestampDelta64 v =? 0 then TimestampDelta v else TimestampDelta64 v in
  let dst := AppendVarlong dst d in
  let dst := AppendVarint dst (OffsetDelta v) in
  let dst := AppendVarintBytes dst (Key v) in
  let dst := AppendVarintBytes dst (Value v) in
  let dst := AppendVarint dst (int32 (len (Headers v))) in
  foldl Header_AppendTo dst (Headers v).

Definition RecordBatch_AppendTo (v : RecordBatch) (dst : bytes) : bytes :=
  let dst := AppendInt64 dst (FirstOffset v) in
  let dst := AppendInt32 dst (Batch_Length v) in
  let dst := AppendInt32 dst (PartitionLeaderEpoch v) in
  let dst := AppendInt8 dst (Magic v) in
  let dst := AppendInt32 dst (CRC v) in
  let dst := AppendInt16 dst (Batch_Attributes v) in
  let dst := AppendInt32 dst (LastOffsetDelta v) in
  let dst := AppendInt64 dst (FirstTimestamp v) in
  let dst := AppendInt64 dst (MaxTimestamp v) in
  let dst := AppendInt64 dst (ProducerID v) in
  let dst := AppendInt16 dst (ProducerEpoch v) in
  let dst := AppendInt32 dst (FirstSequence v) in
  let dst := AppendInt32 dst (NumRecords v) in
  dst ++ Batch_Records v.

(** ** Readers *)

Definition Header_read : M Reader Header :=
  let* k := VarintString in
  let* v := VarintBytes in
  ret {| Header_Key := k; Header_Value := v |}.

Definition Record_read : M Reader KRecord :=
  let* l := Reader_Varint in
  let* a := Int8 in
  let* d := Reader_Varlong in
  let* o := Reader_Varint in
  let* k := VarintBytes in
  let* v := VarintBytes in
  let* hs := read_array VarintArrayLen Header_read in
  ret {| Record_Length := l; Attributes := a; TimestampDelta := int32 d; TimestampDelta64 := d;
         OffsetDelta := o; Key := k; Value := v; Headers := hs |}.

(** [return b.Complete()]: bytes left over are not an error. *)
Definition complete {A} (m : M Reader A) : M Reader A :=
  let* a := m in do* Complete in ret a.

Definition Record_ReadFrom (src : bytes) : res KRecord := fst (complete Record_read (NewReader src)).

Definition RecordBatch_read : M Reader RecordBatch :=
  let* first := Int64 in
  let* l := Int32 in
  let* epoch := Int32 in
  let* magic := Int8 in
  let* crc := Int32 in
  let* attrs := Int16 in
  let* last := Int32 in
  let* t0 := Int64 in
  let* t1 := Int64 in
  let* pid := Int64 in
  let* pepoch := Int16 in
  let* seq := Int32 in
  let* num := Int32 in
  let* records := span_bytes (l - 49) in
  ret {| FirstOffset := first; Batch_Length := l; PartitionLeaderEpoch := epoch; Magic := magic;
         CRC := crc; Batch_Attributes := attrs; LastOffsetDelta := last; FirstTimestamp := t0;
         MaxTimestamp := t1; ProducerID := pid; ProducerEpoch := pepoch; FirstSequence := seq;
         NumRecords := num; Batch_Records := records |}.

Definition RecordBatch_ReadFrom (src : bytes) : res RecordBatch :=
  fst (complete RecordBatch_read (NewReader src)).

(** ** Facts *)

(** The integers of a record are within their types, and the slices short
    enough for their lengths to be printed. *)
Definition header_ok (h : Header) : Prop :=
  small (Header_Key h) /\ forall s, Header_Value h = Some s -> small s.

Record record_ok (r : KRecord) : Prop := {
  ok_Length : inS 32 (Record_Length r);
  ok_Attributes : inS 8 (Attributes r);
  ok_Delta64 : inS 64 (TimestampDelta64 r);
  ok_Delta : TimestampDelta r = int32 (TimestampDelta64 r);
  ok_Offset : inS 32 (OffsetDelta r);
  ok_Key : forall s, Key r = Some s -> small s;
  ok_Value : forall s, Value r = Some s -> small s;
  ok_Headers : len (Headers r) < 2 ^ 31 /\ Forall header_ok (Headers r)
}.

Definition delta (r : KRecord) : Z :=
  if TimestampDelta64 r =? 0 then TimestampDelta r else TimestampDelta64 r.

Definition header_bytes (h : Header) : bytes := Header_AppendTo [] h.

Lemma Header_AppendTo_app dst h : Header_AppendTo dst h = dst ++ header_bytes h.
Proof.
  unfold header_bytes, Header_AppendTo. rewrite (AppendVarintBytes_app (AppendVarintString dst _)).
  rewrite (AppendVarintBytes_app (AppendVarintString [] _)), AppendVarintString_app.
  by rewrite <- app_assoc.
Qed.

Lemma foldl_Header_AppendTo hs dst : foldl Header_AppendTo dst hs = dst ++ (hs ≫= header_bytes).
Proof.
  revert dst. induction hs as [|h hs IH]; intros dst; simpl; [by rewrite app_nil_r|].
  by rewrite IH, Header_AppendTo_app, <- app_assoc.
Qed.

(** What follows the length of a record. *)
Definition record_body (r : KRecord) : bytes :=
  be_put 1 (Attributes r) ++ AppendVarlong [] (delta r) ++ AppendVarint [] (OffsetDelta r) ++
  AppendVarintBytes [] (Key r) ++ AppendVarintBytes [] (Value r) ++
  AppendVarint [] (int32 (len (Headers r))) ++ (Headers r ≫= header_bytes).

Lemma Record_AppendTo_eq r dst :
  Record_AppendTo r dst = dst ++ AppendVarint [] (Record_Length r) ++ record_body r.
Proof.
  unfold Record_AppendTo, record_body. fold (delta r).
  rewrite foldl_Header_AppendTo, AppendVarint_app.
  rewrite (AppendVarintBytes_app (AppendVarintBytes _ _)), (AppendVarintBytes_app (AppendVarint _ _)).
  rewrite (AppendVarint_app (AppendVarlong _ _)), (AppendVarlong_app (AppendInt8 _ _)).
  unfold AppendInt8. rewrite (AppendVarint_app dst). by rewrite <- !app_assoc.
Qed.

Lemma Record_AppendTo_nil r : Record_AppendTo r [] = AppendVarint [] (Record_Length r) ++ record_body r.
Proof. by rewrite Record_AppendTo_eq. Qed.

(** The bytes of a batch that its checksum covers: everything after it. *)
Definition batch_tail (v : RecordBatch) : bytes :=
  be_put 2 (Batch_Attributes v) ++ be_put 4 (LastOffsetDelta v) ++ be_put 8 (FirstTimestamp v) ++
  be_put 8 (MaxTimestamp v) ++ be_put 8 (ProducerID v) ++ be_put 2 (ProducerEpoch v) ++
  be_put 4 (FirstSequence v) ++ be_put 4 (NumRecords v) ++ Batch_Records v.

Definition batch_head (v : RecordBatch) : bytes :=
  be_put 8 (FirstOffset v) ++ be_put 4 (Batch_Length v) ++ be_put 4 (PartitionLeaderEpoch v) ++
  be_put 1 (Magic v) ++ be_put 4 (CRC v).

Lemma RecordBatch_AppendTo_eq v dst :
  RecordBatch_AppendTo v dst = dst ++ batch_head v ++ batch_tail v.
Proof.
  unfold RecordBatch_AppendTo, AppendInt8, AppendInt16, AppendInt32, AppendInt64, batch_head, batch_tail.
  by rewrite <- !app_assoc.
Qed.

Lemma len_batch_head v : len (batch_head v) = 21.
Proof. unfold batch_head. by rewrite !len_app, !len_be_put. Qed.

Lemma len_batch_tail v : len (batch_tail v) = 40 + len (Batch_Records v).
Proof. unfold batch_tail. rewrite !len_app, !len_be_put. lia. Qed.

(** ** Reading inverts printing *)

Lemma len_AppendVarint_pos i : inS 32 i -> 1 <= len (AppendVarint [] i).
Proof. intros Hi. rewrite len_AppendVarint by done. pose proof (VarintLen_range i Hi). lia. Qed.

Lemma Header_reads h : header_ok h -> reads Header_read (header_bytes h) h.
Proof.
  intros [Hk Hv]. unfold header_bytes, Header_AppendTo. rewrite AppendVarintBytes_app.
  eapply reads_bind; [by apply VarintString_reads|].
  eapply reads_bind_nil; [by apply VarintBytes_reads|]. by destruct h.
Qed.

Lemma len_header_bytes h : header_ok h -> 1 <= len (header_bytes h).
Proof.
  intros [Hk Hv]. unfold header_bytes, Header_AppendTo. rewrite AppendVarintBytes_app, len_app.
  unfold AppendVarintString. rewrite len_app. destruct (small_int32 _ Hk) as [Hs ->].
  pose proof (len_AppendVarint_pos _ Hs). len_lia.
Qed.

Lemma delta_eq r : TimestampDelta r = int32 (TimestampDelta64 r) -> delta r = TimestampDelta64 r.
Proof. unfold delta. intros ->. by destruct (Z.eqb_spec (TimestampDelta64 r) 0) as [->|]. Qed.

Lemma Record_reads r : record_ok r -> reads Record_read (Record_AppendTo r []) r.
Proof.
  intros [Hl Ha Hd He Ho Hk Hv [Hn Hh]]. rewrite Record_AppendTo_nil. unfold record_body.
  rewrite delta_eq by done.
  eapply reads_bind; [by apply Varint_reads|].
  eapply reads_bind; [by apply Int8_reads|].
  eapply reads_bind; [by apply Varlong_reads|].
  eapply reads_bind; [by apply Varint_reads|].
  eapply reads_bind; [by apply VarintBytes_reads|].
  eapply reads_bind; [by apply VarintBytes_reads|].
  assert (inS 32 (len (Headers r))) as Hi by (unfold inS; pose proof (len_nonneg (Headers r)); lia).
  eapply reads_bind_nil.
  - rewrite wrapS_id by (done || lia). apply reads_array; [by apply Varint_reads|..].
    + eapply Forall_impl; [exact Hh|]. apply Header_reads.
    + eapply Forall_impl; [exact Hh|]. apply len_header_bytes.
  - rewrite <- He. by destruct r.
Qed.

Lemma Record_ReadFrom_AppendTo r :
  record_ok r -> Record_ReadFrom (Record_AppendTo r []) = Ok r.
Proof.
  intros Hr. pose proof (Record_reads r Hr []) as H. rewrite app_nil_r in H.
  unfold Record_ReadFrom, complete. by erewrite bind_Ok by exact H.
Qed.

(** A batch whose fields are within their types and whose length agrees with
    its records. *)
Record batch_ok (v : RecordBatch) : Prop := {
  ok_FirstOffset : inS 64 (FirstOffset v);
  ok_Epoch : inS 32 (PartitionLeaderEpoch v);
  ok_Magic : inS 8 (Magic v);
  ok_CRC : inS 32 (CRC v);
  ok_BAttributes : inS 16 (Batch_Attributes v);
  ok_LastOffsetDelta : inS 32 (LastOffsetDelta v);
  ok_FirstTimestamp : inS 64 (FirstTimestamp v);
  ok_MaxTimestamp : inS 64 (MaxTimestamp v);
  ok_ProducerID : inS 64 (ProducerID v);
  ok_ProducerEpoch : inS 16 (ProducerEpoch v);
  ok_FirstSequence : inS 32 (FirstSequence v);
  ok_NumRecords : inS 32 (NumRecords v);
  ok_BLength : Batch_Length v = 49 + len (Batch_Records v) /\ inS 32 (Batch_Length v)
}.

Lemma RecordBatch_reads v : batch_ok v -> reads RecordBatch_read (RecordBatch_AppendTo v []) v.
Proof.
  intros [? ? ? ? ? ? ? ? ? ? ? ? [Hl Hl']]. rewrite RecordBatch_AppendTo_eq.
  unfold batch_head, batch_tail. rewrite app_nil_l, <- !app_assoc.
  eapply reads_bind; [by apply Int64_reads|].
  eapply reads_bind; [by apply Int32_reads|].
  eapply reads_bind; [by apply Int32_reads|].
  eapply reads_bind; [by apply Int8_reads|].
  eapply reads_bind; [by apply Int32_reads|].
  eapply reads_bind; [by apply Int16_reads|].
  eapply reads_bind; [by apply Int32_reads|].
  eapply reads_bind; [by apply Int64_reads|].
  eapply reads_bind; [by apply Int64_reads|].
  eapply reads_bind; [by apply Int64_reads|].
  eapply reads_bind; [by apply Int16_reads|].
  eapply reads_bind; [by apply Int32_reads|].
  eapply reads_bind; [by apply Int32_reads|].
  eapply reads_bind_nil.
  - replace (Batch_Length v - 49) with (len (Batch_Records v)) by lia. apply span_bytes_reads.
  - by destruct v.
Qed.

Lemma RecordBatch_ReadFrom_AppendTo v :
  batch_ok v -> RecordBatch_ReadFrom (RecordBatch_AppendTo v []) = Ok v.
Proof.
  intros Hv. pose proof (RecordBatch_reads v Hv []) as H. rewrite app_nil_r in H.
  unfold RecordBatch_ReadFrom, complete. by erewrite bind_Ok by exact H.
Qed.

(** ** What is read is well formed *)

Lemma Header_read_ok : yields Header_read header_ok.
Proof.
  eapply yields_bind; [apply yields_VarintString|]. intros k Hk.
  eapply yields_bind; [apply yields_VarintBytes|]. intros v Hv. by apply yields_ret.
Qed.

Lemma Record_read_ok : yields Record_read record_ok.
Proof.
  eapply yields_bind; [apply yields_Varint|]. intros l Hl.
  eapply yields_bind; [apply yields_Int8|]. intros a Ha.
  eapply yields_bind; [apply yields_Varlong|]. intros d Hd.
  eapply yields_bind; [apply yields_Varint|]. intros o Ho.
  eapply yields_bind; [apply yields_VarintBytes|]. intros k Hk.
  eapply yields_bind; [apply yields_VarintBytes|]. intros v Hv.
  eapply yields_bind; [apply yields_VarintArray, Header_read_ok|]. intros hs Hhs.
  by apply yields_ret.
Qed.

Lemma complete_inv {A} (m : M Reader A) src a :
  fst (complete m (NewReader src)) = Ok a -> exists b, m (NewReader src) = (Ok a, b).
Proof.
  unfold complete. destruct (bind m _ _) as [r b] eqn:E. simpl. intros ->.
  apply bind_inv in E as (x & b1 & H1 & H2). apply bind_inv in H2 as (y & b2 & _ & H2).
  injection H2 as -> _. eauto.
Qed.

Lemma Record_ReadFrom_ok src r : Record_ReadFrom src = Ok r -> record_ok r.
Proof. intros H. apply complete_inv in H as [b H]. by eapply Record_read_ok. Qed.

(** The fields of a batch read from the wire; [Batch_Length] may be anything
    the slice covers. *)
Definition batch_fields_ok (v : RecordBatch) : Prop :=
  inS 64 (FirstOffset v) /\ inS 32 (PartitionLeaderEpoch v) /\ inS 8 (Magic v) /\
  inS 16 (Batch_Attributes v) /\ inS 32 (LastOffsetDelta v) /\ inS 64 (FirstTimestamp v) /\
  inS 64 (MaxTimestamp v) /\ inS 64 (ProducerID v) /\ inS 16 (ProducerEpoch v) /\
  inS 32 (FirstSequence v) /\ inS 32 (NumRecords v).

Lemma RecordBatch_read_ok : yields RecordBatch_read batch_fields_ok.
Proof.
  eapply yields_bind; [apply yields_Int64|]. intros v1 ?.
  eapply yields_bind; [apply yields_Int32|]. intros v2 ?.
  eapply yields_bind; [apply yields_Int32|]. intros v3 ?.
  eapply yields_bind; [apply yields_Int8|]. intros v4 ?.
  eapply yields_bind; [apply yields_Int32|]. intros v5 ?.
  eapply yields_bind; [apply yields_Int16|]. intros v6 ?.
  eapply yields_bind; [apply yields_Int32|]. intros v7 ?.
  eapply yields_bind; [apply yields_Int64|]. intros v8 ?.
  eapply yields_bind; [apply yields_Int64|]. intros v9 ?.
  eapply yields_bind; [apply yields_Int64|]. intros v10 ?.
  eapply yields_bind; [apply yields_Int16|]. intros v11 ?.
  eapply yields_bind; [apply yields_Int32|]. intros v12 ?.
  eapply yields_bind; [apply yields_Int32|]. intros v13 ?.
  eapply yields_bind; [apply yields_any|]. intros v14 _.
  apply yields_ret. unfold batch_fields_ok. cbn. by split_and!.
Qed.

Lemma RecordBatch_ReadFrom_ok src v : RecordBatch_ReadFrom src = Ok v -> batch_fields_ok v.
Proof. intros H. apply complete_inv in H as [b H]. by eapply RecordBatch_read_ok. Qed.
