(* ===== verification/Encryption.v ===== *)
(** The record level of the encryption plugins
    (plugin/vault-encryption/main.go; plugin/gcp-kms-encryption/main.go has
    the same functions): splitting a partition's bytes into batches and
    records, envelope encryption of the values, and rebuilding the batches.

    The KMS that wraps data keys, the random source and AES-GCM are the
    interfaces [KMS] and [Crypto] over a state [W] of the outside world. *)
From Stdlib Require Import ZArith Lia Strings.Byte.
From stdpp Require Import base list strings gmap.
From S2P Require Import Prelude GoLib Kbin Records.

(** ** Varints of the plugin *)

(** [for i, b := range in]: [s] is 7 times the index. *)
Fixpoint uvarintDecode_loop (inp : bytes) (i : Z) (x : Z) : Z * Z :=
  match inp with
  | [] => (0, 0)
  | b :: inp' =>
      if 5 <=? i then (0, - i)
      else if byteZ b <? 128 then
        if (9 <? i) || ((i =? 9) && (1 <? byteZ b)) then (0, - i)
        else (Z.lor x (uint32 (Z.shiftl (byteZ b) (7 * i))), i + 1)
      else uvarintDecode_loop inp' (i + 1) (Z.lor x (uint32 (Z.shiftl (Z.land (byteZ b) 127) (7 * i))))
  end.

Definition uvarintDecode (inp : bytes) : Z * Z := uvarintDecode_loop inp 0 0.

(** [int32(u>>1) ^ -int32(u&1), n] *)
Definition varintDecode (inp : bytes) : Z * Z :=
  let '(u, n) := uvarintDecode inp in
  (Z.lxor (int32 (Z.shiftr u 1)) (int32 (- int32 (Z.land u 1))), n).

Definition uvarintLen (u : Z) : Z := lens_at (bits_Len u).
Definition varintLen (i : Z) : Z := uvarintLen (zigzag 32 i).
Definition varlongLen (i : Z) : Z := uvarintLen (zigzag 64 i).
Definition varintBytesLen (b : option bytes) : Z :=
  match b with None => varintLen (-1) | Some b => varintLen (int32 (len b)) + len b end.
Definition varintStringLen (s : bytes) : Z := varintLen (int32 (len s)) + len s.

(** ** Splitting *)

(** [for len(b) > 0]; a batch that is read takes at least 61 bytes, so the
    fuel [length b] is never exhausted. *)
Fixpoint readRecordBatches_loop (fuel : nat) (b : bytes) : res (list RecordBatch) :=
  match b with
  | [] => Ok []
  | _ =>
      match fuel with
      | O => Panic "out of fuel"
      | S fuel' =>
          if len b <? 12 then Err (Errorf "not enough data for batch header")
          else
            let? l8 := slice b 8 12 in
            let? u := BigEndian_Uint 4 l8 in
            let totalSize := 12 + int32 u in
            if len b <? totalSize then Err (Errorf "not enough data for full batch")
            else
              let? chunk := slice b 0 totalSize in
              let? batch := RecordBatch_ReadFrom chunk in
              let? b' := slice_from b totalSize in
              let? batches := readRecordBatches_loop fuel' b' in
              Ok (batch :: batches)
      end
  end.

Definition readRecordBatches (b : bytes) : res (list RecordBatch) :=
  readRecordBatches_loop (length b) b.

Fixpoint readRecords_loop (n : nat) (b : bytes) : res (list KRecord) :=
  match n with
  | O => Ok []
  | S n' =>
      let '(l, n) := varintDecode b in
      if n <=? 0 then Err (Errorf "failed to decode record length")
      else
        let totalSize := n + l in
        if len b <? totalSize then Err (Errorf "not enough data for record")
        else
          let? chunk := slice b 0 totalSize in
          let? rec := Record_ReadFrom chunk in
          let? b' := slice_from b totalSize in
          let? records := readRecords_loop n' b' in
          Ok (rec :: records)
  end.

Definition readRecords (numRecords : Z) (b : bytes) : res (list KRecord) :=
  if numRecords <? 0 then Ok [] else readRecords_loop (Z.to_nat numRecords) b.

(** ** Rebuilding *)

Definition calculateRecordLength (r : KRecord) : Z :=
  let l := 1 + varlongLen (TimestampDelta64 r) + varintLen (OffsetDelta r) in
  let l := l + varintBytesLen (Key r) + varintBytesLen (Value r) in
  let l := l + varintLen (int32 (len (Headers r))) in
  let l := foldl (fun l h => l + varintStringLen (Header_Key h) + varintBytesLen (Header_Value h))
             l (Headers r) in
  int32 l.

Definition set_Length (l : Z) (r : KRecord) : KRecord :=
  {| Record_Length := l; Attributes := Attributes r; TimestampDelta := TimestampDelta r;
     TimestampDelta64 := TimestampDelta64 r; OffsetDelta := OffsetDelta r; Key := Key r;
     Value := Value r; Headers := Headers r |}.

Definition set_Value (v : option bytes) (r : KRecord) : KRecord :=
  {| Record_Length := Record_Length r; Attributes := Attributes r; TimestampDelta := TimestampDelta r;
     TimestampDelta64 := TimestampDelta64 r; OffsetDelta := OffsetDelta r; Key := Key r;
     Value := v; Headers := Headers r |}.

(** [hash/crc32] with the Castagnoli polynomial, bit by bit. *)
Definition crc_bit (c : Z) : Z :=
  if Z.testbit c 0 then Z.lxor (Z.shiftr c 1) 0x82F63B78 else Z.shiftr c 1.
Definition crc_byte (c : Z) (b : byte) : Z := Nat.iter 8 crc_bit (Z.lxor c (byteZ b)).
Definition Castagnoli_Checksum (data : bytes) : Z :=
  Z.lxor (foldl crc_byte 0xFFFFFFFF data) 0xFFFFFFFF.

Example Castagnoli_check_value : Castagnoli_Checksum ($"123456789") = 0xE3069283.
Proof. by vm_compute. Qed.

Definition with_records (batch : RecordBatch) (raw : bytes) (n l crc : Z) : RecordBatch :=
  {| FirstOffset := FirstOffset batch; Batch_Length := l;
     PartitionLeaderEpoch := PartitionLeaderEpoch batch; Magic := Magic batch; CRC := crc;
     Batch_Attributes := Batch_Attributes batch; LastOffsetDelta := LastOffsetDelta batch;
     FirstTimestamp := FirstTimestamp batch; MaxTimestamp := MaxTimestamp batch;
     ProducerID := ProducerID batch; ProducerEpoch := ProducerEpoch batch;
     FirstSequence := FirstSequence batch; NumRecords := n; Batch_Records := raw |}.

(** [rec.Length = calculateRecordLength(rec); newRawRecords = rec.AppendTo(newRawRecords)] *)
Definition append_record (raw : bytes) (r : KRecord) : bytes :=
  Record_AppendTo (set_Length (calculateRecordLength r) r) raw.

(** The batch's bytes are printed with a zero checksum to compute the
    checksum; patching it into those bytes has no effect, they are dropped. *)
Definition updateBatch (batch : RecordBatch) (recs : list KRecord) : res RecordBatch :=
  let newRawRecords := foldl append_record [] recs in
  let batch := with_records batch newRawRecords (int32 (len recs))
                 (int32 (49 + int32 (len newRawRecords))) 0 in
  let fullBytes := RecordBatch_AppendTo batch [] in
  if len fullBytes <? 21 then Err (Errorf "batch too short to calculate CRC")
  else
    let? body := slice_from fullBytes 21 in
    let crc := Castagnoli_Checksum body in
    Ok (with_records batch (Batch_Records batch) (NumRecords batch) (Batch_Length batch) (int32 crc)).

(** ** Envelope encryption *)

(** The key management service: it wraps a data key under the key of a topic. *)
Class KMS (W : Type) := {
  wrapDEK : bytes -> bytes -> M W bytes;
  unwrapDEK : bytes -> bytes -> M W bytes
}.

(** [rand.Reader], and AES-GCM without additional data: sealing a plaintext
    under a key and a nonce, and opening it, when it authenticates. *)
Class Crypto (W : Type) := {
  rand_ReadFull : Z -> M W bytes;
  gcm_Seal : bytes -> bytes -> bytes -> bytes;
  gcm_Open : bytes -> bytes -> bytes -> option bytes
}.

Definition EncryptionVersion : Z := 1.
Definition NonceSize : Z := 12.

(** [aes.NewCipher]: AES-128, AES-192 or AES-256. *)
Definition aes_NewCipher (key : bytes) : res unit :=
  if (len key =? 16) || (len key =? 24) || (len key =? 32) then Ok tt
  else Err (Errorf "crypto/aes: invalid key size").

(** [gcm.Open(nil, ...)] appends to a nil slice: an empty plaintext is
    returned as nil. *)
Definition nil_if_empty (b : bytes) : option bytes := match b with [] => None | _ => Some b end.

Section plugin.
Context {W : Type} `{KMS W} `{Crypto W}.

(** The packed value: version, length of the wrapped key, the wrapped key,
    the nonce and the ciphertext. *)
Definition pack (encryptedDEK encryptedPayload : bytes) : bytes :=
  Zbyte EncryptionVersion :: be_put 2 (uint16 (len encryptedDEK)) ++ encryptedDEK ++ encryptedPayload.

Definition encryptValue (topic payload : bytes) : M W bytes :=
  let* dek := rand_ReadFull 32 in
  let* encryptedDEK := wrapDEK topic dek in
  do* lift (aes_NewCipher dek) in
  let* nonce := rand_ReadFull NonceSize in
  ret (pack encryptedDEK (nonce ++ gcm_Seal dek nonce payload)).

(** The slice bounds [3 : 3+dekLen] are computed in [uint16]. *)
Definition decryptValue (topic data : bytes) : M W (option bytes) :=
  if len data <? 3 then fail (Errorf "data too short")
  else
    let* version := lift (BigEndian_Uint 1 data) in
    if negb (version =? EncryptionVersion) then fail (Errorf "unknown encryption version: %d")
    else
      let* l := lift (slice data 1 3) in
      let* dekLen := lift (BigEndian_Uint 2 l) in
      if len data <? 3 + dekLen then fail (Errorf "data too short for DEK")
      else
        let* encryptedDEK := lift (slice data 3 (uint16 (3 + dekLen))) in
        let* encryptedPayload := lift (slice_from data (uint16 (3 + dekLen))) in
        let* dek := unwrapDEK topic encryptedDEK in
        do* lift (aes_NewCipher dek) in
        if len encryptedPayload <? NonceSize then fail (Errorf "ciphertext too short")
        else
          let* nonce := lift (slice encryptedPayload 0 NonceSize) in
          let* ciphertext := lift (slice_from encryptedPayload NonceSize) in
          match gcm_Open dek nonce ciphertext with
          | None => fail (Errorf "cipher: message authentication failed")
          | Some plaintext => ret (nil_if_empty plaintext)
          end.

(** [for j := range recs]: a nil value is skipped. *)
Fixpoint transform_values (f : bytes -> M W (option bytes)) (recs : list KRecord)
    : M W (list KRecord) :=
  match recs with
  | [] => ret []
  | rec :: recs' =>
      let* rec' := match Value rec with
                   | None => ret rec
                   | Some v => let* v' := f v in ret (set_Value v' rec)
                   end in
      let* recs'' := transform_values f recs' in
      ret (rec' :: recs'')
  end.

(** [for i := range batches] *)
Fixpoint transform_batches (f : bytes -> M W (option bytes)) (batches : list RecordBatch)
    : M W (list RecordBatch) :=
  match batches with
  | [] => ret []
  | batch :: batches' =>
      let* recs := lift (readRecords (NumRecords batch) (Batch_Records batch)) in
      let* recs' := transform_values f recs in
      let* batch' := lift (updateBatch batch recs') in
      let* batches'' := transform_batches f batches' in
      ret (batch' :: batches'')
  end.

Definition AppendBatches (batches : list RecordBatch) : bytes :=
  foldl (fun dst batch => RecordBatch_AppendTo batch dst) [] batches.

Definition transform_records (f : bytes -> M W (option bytes)) (records : option bytes)
    : M W (option bytes) :=
  let b := default [] records in
  if len b =? 0 then ret records
  else
    let* batches := lift (readRecordBatches b) in
    let* batches' := transform_batches f batches in
    ret (Some (AppendBatches batches')).

Definition encryptRecords (topic : bytes) : option bytes -> M W (option bytes) :=
  transform_records (fun v => let* e := encryptValue topic v in ret (Some e)).
Definition decryptRecords (topic : bytes) : option bytes -> M W (option bytes) :=
  transform_records (decryptValue topic).

End plugin.

(** ** Facts

    Facts about the record level of the encryption plugins: a record has the
    length [calculateRecordLength] says, rebuilt batches parse back to what
    they were built from, and packed values unpack. *)

(** ** Varints of the plugin *)

Lemma land_byte_127 b : byteZ b < 128 -> Z.land (byteZ b) 127 = byteZ b /\ Z.land (byteZ b) 128 = 0.
Proof. intros. apply land_127. pose proof (byteZ_range b). lia. Qed.

Lemma land_byte_128 b : 128 <= byteZ b -> Z.land (byteZ b) 128 <> 0.
Proof.
  intros H. pose proof (byteZ_range b).
  replace (byteZ b) with (byteZ b - 128 + 128) by lia.
  destruct (land_128 (byteZ b - 128)) as [_ ->]; lia.
Qed.

(** Where the library's decoder succeeds, the plugin's agrees. *)
Lemma uvarintDecode_loop_agrees inp : forall (i : nat) x u n,
  (i <= 4)%nat -> uvar_loop 4 32 15 i x inp = (u, n) -> 0 < n ->
  uvarintDecode_loop inp (Z.of_nat i) x = (u, n).
Proof.
  induction inp as [|b inp IH]; intros i x u n Hi H Hn; cbn [uvar_loop uvarintDecode_loop] in *;
    [injection H as <- <-; lia|].
  replace (5 <=? Z.of_nat i) with false by (symmetry; apply Z.leb_gt; lia).
  replace (9 <? Z.of_nat i) with false by (symmetry; apply Z.ltb_ge; lia).
  replace (Z.of_nat i =? 9) with false by (symmetry; apply Z.eqb_neq; lia). cbn [orb andb].
  destruct (Nat.eqb_spec i 4) as [->|Hne].
  - destruct (byteZ b <=? 15) eqn:Eb; [|injection H as <- <-; lia]. apply Z.leb_le in Eb.
    replace (byteZ b <? 128) with true by (symmetry; apply Z.ltb_lt; lia). done.
  - destruct (Z.ltb_spec (byteZ b) 128) as [Hb|Hb].
    + destruct (land_byte_127 b Hb) as [E1 E2]. rewrite E1, E2 in H. done.
    + pose proof (land_byte_128 b Hb) as E. rewrite <- Z.eqb_neq in E. rewrite E in H.
      replace (Z.of_nat i + 1) with (Z.of_nat (S i)) by lia. apply IH; [lia|done..].
Qed.

Lemma int32_zigzag i :
  inS 32 i ->
  Z.lxor (int32 (Z.shiftr (zigzag 32 i) 1)) (int32 (- int32 (Z.land (zigzag 32 i) 1))) = i.
Proof.
  intros Hi. rewrite zigzag_eq by done. rewrite Z.shiftr_div_pow2 by lia. change (2 ^ 1) with 2.
  rewrite (Z.land_ones _ 1) by lia. change (2 ^ 1) with 2.
  unfold zigzag_value, inS in *. change (2 ^ (32 - 1)) with 2147483648 in Hi.
  destruct (Z.ltb_spec i 0).
  - replace ((-2 * i - 1) / 2) with (- i - 1) by (apply (Z.div_unique_pos _ _ _ 1); lia).
    replace ((-2 * i - 1) mod 2) with 1 by (apply (Z.mod_unique_pos _ _ (- i - 1)); lia).
    rewrite wrapS_id by (unfold inS; change (2 ^ (32 - 1)) with 2147483648; lia).
    change (int32 (- int32 1)) with (-1). rewrite Z.lxor_m1_r. unfold Z.lnot. lia.
  - rewrite Z.mul_comm, Z.div_mul, Z.mod_mul by lia. change (int32 (- int32 0)) with 0.
    rewrite Z.lxor_0_r. apply wrapS_id; [lia|]. unfold inS. change (2 ^ (32 - 1)) with 2147483648. lia.
Qed.

(** A printed varint is decoded, whatever follows it. *)
Lemma varintDecode_Append i rest :
  inS 32 i -> varintDecode (AppendVarint [] i ++ rest) = (i, VarintLen i).
Proof.
  intros Hi. unfold varintDecode, AppendVarint.
  pose proof (zigzag_range 32 i ltac:(lia) Hi) as Hu.
  pose proof (Uvarint_Append (zigzag 32 i) rest Hu) as H.
  pose proof (VarintLen_range i Hi) as Hn. unfold uvarintDecode.
  pose proof (uvarintDecode_loop_agrees _ 0 0 _ (VarintLen i) ltac:(lia) H ltac:(lia)) as E.
  change (Z.of_nat 0) with 0 in E. rewrite E.
  by rewrite int32_zigzag.
Qed.

(** ** Lengths of records *)

Lemma len_AppendVarintString s : small s -> len (AppendVarintString [] s) = varintStringLen s.
Proof.
  intros Hs. unfold AppendVarintString, varintStringLen. rewrite len_app.
  destruct (small_int32 s Hs) as [Hi ->]. by rewrite len_AppendVarint.
Qed.

Lemma len_AppendVarintBytes b :
  (forall s, b = Some s -> small s) -> len (AppendVarintBytes [] b) = varintBytesLen b.
Proof.
  intros Hb. destruct b as [s|]; simpl; [|by rewrite len_AppendVarint by (by vm_compute)].
  rewrite len_app. destruct (small_int32 s (Hb s eq_refl)) as [Hi ->]. by rewrite len_AppendVarint.
Qed.

Lemma len_headers hs l :
  Forall header_ok hs ->
  foldl (fun l h => l + varintStringLen (Header_Key h) + varintBytesLen (Header_Value h)) l hs
  = l + len (hs ≫= header_bytes).
Proof.
  intros Hh. revert l. induction Hh as [|h hs [Hk Hv] _ IH]; intros l; [simpl; change (len (@nil byte)) with 0; lia|].
  cbn [foldl]. rewrite IH. change ((h :: hs) ≫= header_bytes) with (header_bytes h ++ (hs ≫= header_bytes)).
  rewrite len_app. unfold header_bytes at 2, Header_AppendTo.
  rewrite AppendVarintBytes_app, len_app, len_AppendVarintString, len_AppendVarintBytes by done. lia.
Qed.

(** [calculateRecordLength] is the number of bytes that follow the length. *)
Lemma calculateRecordLength_eq r :
  record_ok r -> calculateRecordLength r = int32 (len (record_body r)).
Proof.
  intros [Hl Ha Hd He Ho Hk Hv [Hn Hh]]. unfold calculateRecordLength, record_body. f_equal.
  rewrite len_headers, !len_app, len_be_put by done.
  assert (inS 32 (len (Headers r))) as Hi by (unfold inS; pose proof (len_nonneg (Headers r)); lia).
  rewrite (wrapS_id 32 (len (Headers r))) by (done || lia).
  rewrite delta_eq, len_AppendVarlong, !len_AppendVarint, !len_AppendVarintBytes by done.
  change varlongLen with VarlongLen. change varintLen with VarintLen. lia.
Qed.

(** A record with its length set as [updateBatch] sets it. *)
Definition relength (r : KRecord) : KRecord := set_Length (calculateRecordLength r) r.

Definition record_bytes (r : KRecord) : bytes := Record_AppendTo (relength r) [].

Lemma record_body_set_Length l r : record_body (set_Length l r) = record_body r.
Proof. done. Qed.

Lemma record_bytes_eq r :
  record_bytes r = AppendVarint [] (calculateRecordLength r) ++ record_body r.
Proof. unfold record_bytes. by rewrite Record_AppendTo_nil. Qed.

Lemma relength_ok r : record_ok r -> record_ok (relength r).
Proof.
  intros [? ? ? ? ? ? ? ?]. split; try done. by apply wrapS_range.
Qed.

Lemma relength_relength r : relength (relength r) = relength r.
Proof. done. Qed.

Lemma set_Value_ok r v : record_ok r -> (forall s, v = Some s -> small s) -> record_ok (set_Value v r).
Proof. intros [? ? ? ? ? ? ? ?] Hv. by split. Qed.

(** Records whose bytes fit an [int32] are read back one by one. *)
Lemma readRecords_loop_bytes rs rest :
  Forall record_ok rs -> Forall (fun r => len (record_body r) < 2 ^ 31) rs ->
  readRecords_loop (length rs) ((rs ≫= record_bytes) ++ rest) = Ok (relength <$> rs).
Proof.
  intros Hok Hlen. induction Hok as [|r rs Hr _ IH]; [done|].
  inversion_clear Hlen as [|? ? Hb Hbs].
  change ((r :: rs) ≫= record_bytes) with (record_bytes r ++ (rs ≫= record_bytes)).
  cbn [length readRecords_loop fmap list_fmap].
  pose proof (calculateRecordLength_eq r Hr) as El.
  assert (inS 32 (len (record_body r))) as Hi by (unfold inS; pose proof (len_nonneg (record_body r)); lia).
  rewrite wrapS_id in El by (done || lia).
  assert (len (record_bytes r) = VarintLen (calculateRecordLength r) + calculateRecordLength r) as Elen
    by (rewrite record_bytes_eq, len_app, len_AppendVarint, El by (by rewrite El); done).
  rewrite record_bytes_eq at 1. rewrite <- !app_assoc, varintDecode_Append by (by rewrite El).
  pose proof (VarintLen_range (calculateRecordLength r) ltac:(by rewrite El)).
  replace (VarintLen _ <=? 0) with false by (symmetry; apply Z.leb_gt; lia).
  rewrite <- Elen.
  replace (_ <? _) with false by (symmetry; apply Z.ltb_ge; len_lia).
  pose proof (slice_app [] (record_bytes r) ((rs ≫= record_bytes) ++ rest)) as Hs.
  rewrite app_nil_l, len_nil, Z.add_0_l in Hs. rewrite Hs. cbn [rbind].
  unfold record_bytes at 1. rewrite Record_ReadFrom_AppendTo by (by apply relength_ok). cbn [rbind].
  rewrite slice_from_app. cbn [rbind]. by rewrite IH.
Qed.

(** ** Rebuilding a batch *)

Lemma foldl_append_record rs raw : foldl append_record raw rs = raw ++ (rs ≫= record_bytes).
Proof.
  revert raw. induction rs as [|r rs IH]; intros raw; [by rewrite app_nil_r|]. cbn [foldl].
  rewrite IH. change ((r :: rs) ≫= record_bytes) with (record_bytes r ++ (rs ≫= record_bytes)).
  rewrite app_assoc. f_equal. unfold append_record, record_bytes.
  by rewrite (Record_AppendTo_eq _ raw), Record_AppendTo_nil.
Qed.

(** The batch [updateBatch] makes of [batch] with the records [rs]. *)
Definition rebuilt (batch : RecordBatch) (rs : list KRecord) : RecordBatch :=
  let raw := rs ≫= record_bytes in
  let b := with_records batch raw (int32 (len rs)) (int32 (49 + int32 (len raw))) 0 in
  with_records b raw (NumRecords b) (Batch_Length b) (int32 (Castagnoli_Checksum (batch_tail b))).

Lemma updateBatch_rebuilt batch rs : updateBatch batch rs = Ok (rebuilt batch rs).
Proof.
  unfold updateBatch. rewrite foldl_append_record, app_nil_l, RecordBatch_AppendTo_eq, app_nil_l.
  set (b := with_records batch _ _ _ 0).
  replace (_ <? 21) with false.
  2:{ symmetry. apply Z.ltb_ge. rewrite len_app, len_batch_head, len_batch_tail. len_lia. }
  rewrite <- (len_batch_head b), slice_from_app. done.
Qed.

(** The checksum of a rebuilt batch is that of the bytes after it. *)
Lemma rebuilt_CRC batch rs :
  CRC (rebuilt batch rs) = int32 (Castagnoli_Checksum (batch_tail (rebuilt batch rs))).
Proof. done. Qed.

Definition batch_bytes (v : RecordBatch) : bytes := RecordBatch_AppendTo v [].

Lemma AppendBatches_eq bs : AppendBatches bs = bs ≫= batch_bytes.
Proof.
  unfold AppendBatches. change (bs ≫= batch_bytes) with ([] ++ (bs ≫= batch_bytes)).
  generalize (@nil byte) as dst. induction bs as [|b bs IH]; intros dst; [by rewrite app_nil_r|].
  cbn [foldl]. rewrite IH. change ((b :: bs) ≫= batch_bytes) with (batch_bytes b ++ (bs ≫= batch_bytes)).
  rewrite app_assoc. f_equal. unfold batch_bytes. by rewrite !RecordBatch_AppendTo_eq.
Qed.

Lemma len_batch_bytes v : len (batch_bytes v) = 61 + len (Batch_Records v).
Proof.
  unfold batch_bytes. rewrite RecordBatch_AppendTo_eq, !len_app, len_batch_head, len_batch_tail, len_nil.
  lia.
Qed.

Lemma len_records_ge rs : len rs <= len (rs ≫= record_bytes).
Proof.
  apply len_bind_ge, Forall_forall. intros r _. rewrite record_bytes_eq, len_app.
  unfold record_body. rewrite len_app, len_be_put. len_lia.
Qed.

Lemma rebuilt_ok batch rs :
  batch_fields_ok batch -> 49 + len (rs ≫= record_bytes) < 2 ^ 31 -> batch_ok (rebuilt batch rs).
Proof.
  intros (? & ? & ? & ? & ? & ? & ? & ? & ? & ? & _) Hl.
  pose proof (len_nonneg (rs ≫= record_bytes)). pose proof (len_records_ge rs).
  assert (int32 (49 + int32 (len (rs ≫= record_bytes))) = 49 + len (rs ≫= record_bytes)) as E.
  { rewrite (wrapS_id 32 (len _)) by (unfold inS; lia). apply wrapS_id; unfold inS; lia. }
  split; try done; cbn.
  - by apply wrapS_range.
  - by apply wrapS_range.
  - split; [done|]. by apply wrapS_range.
Qed.

(** ** Splitting what was rebuilt *)

Lemma slice_mid {A} (pre mid post : list A) lo hi :
  lo = len pre -> hi = lo + len mid -> slice (pre ++ mid ++ post) lo hi = Ok mid.
Proof. intros -> ->. apply slice_app. Qed.

Lemma slice_pre {A} (mid post : list A) hi : hi = len mid -> slice (mid ++ post) 0 hi = Ok mid.
Proof. intros ->. apply (slice_mid [] mid post); len_lia. Qed.

(** The length field of a printed batch. *)
Lemma length_field v rest :
  batch_ok v ->
  (let? l8 := slice (batch_bytes v ++ rest) 8 12 in BigEndian_Uint 4 l8) = Ok (Batch_Length v mod 2 ^ 32).
Proof.
  intros Hv. unfold batch_bytes. rewrite RecordBatch_AppendTo_eq. unfold batch_head.
  rewrite app_nil_l, <- !app_assoc.
  rewrite (slice_mid (be_put 8 _) (be_put 4 (Batch_Length v))) by (by rewrite ?len_be_put).
  cbn [rbind]. pose proof (BigEndian_Uint_put 4 (Batch_Length v) []) as H. by rewrite app_nil_r in H.
Qed.

Lemma readRecordBatches_loop_bytes bs : forall fuel,
  Forall batch_ok bs -> (length (bs ≫= batch_bytes) <= fuel)%nat ->
  readRecordBatches_loop fuel (bs ≫= batch_bytes) = Ok bs.
Proof.
  induction bs as [|v bs IH]; intros fuel Hok Hf; [by destruct fuel|].
  inversion_clear Hok as [|? ? Hv Hbs].
  change ((v :: bs) ≫= batch_bytes) with (batch_bytes v ++ (bs ≫= batch_bytes)) in *.
  pose proof (len_batch_bytes v) as El. pose proof (ok_BLength v Hv) as [Hl Hl'].
  pose proof (len_nonneg (Batch_Records v)). pose proof (len_nonneg (bs ≫= batch_bytes)).
  rewrite length_app in Hf. unfold len in El.
  destruct fuel as [|fuel]; [lia|].
  pose proof (length_field v (bs ≫= batch_bytes) Hv) as Hlen.
  pose proof (len_app (batch_bytes v) (bs ≫= batch_bytes)) as Eapp.
  set (b := batch_bytes v ++ (bs ≫= batch_bytes)) in *.
  assert (len b = 61 + len (Batch_Records v) + len (bs ≫= batch_bytes)) as Eb
    by (rewrite Eapp, len_batch_bytes; done).
  cbn [readRecordBatches_loop]. destruct b as [|x b'] eqn:Eqb; [rewrite len_nil in Eb; lia|].
  rewrite <- Eqb in *.
  replace (_ <? 12) with false by (symmetry; apply Z.ltb_ge; lia).
  destruct (slice b 8 12) as [l8| |] eqn:Es; cbn [rbind] in Hlen |- *; [|discriminate..].
  rewrite Hlen. cbn [rbind].
  assert (int32 (Batch_Length v mod 2 ^ 32) = Batch_Length v) as ->.
  { fold (wrapU 32 (Batch_Length v)). rewrite wrapS_wrapU by lia. by apply wrapS_id. }
  rewrite Hl. replace (12 + (49 + len (Batch_Records v))) with (len (batch_bytes v))
    by (rewrite len_batch_bytes; lia).
  replace (_ <? _) with false by (symmetry; apply Z.ltb_ge; rewrite len_batch_bytes; lia).
  subst b. rewrite slice_pre by done. cbn [rbind].
  unfold batch_bytes at 1. rewrite RecordBatch_ReadFrom_AppendTo by done. cbn [rbind].
  rewrite slice_from_app. cbn [rbind]. rewrite IH by (done || lia). done.
Qed.

Lemma readRecordBatches_bytes bs : Forall batch_ok bs -> readRecordBatches (bs ≫= batch_bytes) = Ok bs.
Proof. intros. by apply readRecordBatches_loop_bytes. Qed.

(** ** Fuel *)

Lemma slice_inv {A} (s : list A) lo hi t :
  slice s lo hi = Ok t -> 0 <= lo <= hi /\ hi <= len s /\ t = take (Z.to_nat (hi - lo)) (drop (Z.to_nat lo) s).
Proof.
  unfold slice. destruct (_ && _ && _) eqn:E; [|discriminate].
  rewrite !andb_true_iff, !Z.leb_le in E. intros [= <-]. split_and!; [lia..|done].
Qed.

Lemma RecordBatch_ReadFrom_nonempty b v : RecordBatch_ReadFrom b = Ok v -> b <> [].
Proof. intros H ->. vm_compute in H. discriminate. Qed.

(** More fuel than the length changes nothing: the splitting terminates. *)
Lemma readRecordBatches_loop_fuel b : forall fuel fuel',
  (length b <= fuel)%nat -> (length b <= fuel')%nat ->
  readRecordBatches_loop fuel b = readRecordBatches_loop fuel' b.
Proof.
  remember (length b) as n eqn:En. revert b En.
  induction n as [n IH] using lt_wf_ind. intros b En fuel fuel' Hf Hf'.
  destruct b as [|x b]; [by destruct fuel, fuel'|].
  set (s := x :: b) in *. destruct fuel as [|fuel]; [simpl in En; lia|].
  destruct fuel' as [|fuel']; [simpl in En; lia|].
  subst s. cbn [readRecordBatches_loop]. set (s := x :: b) in *.
  case_match; [done|]. destruct (slice s 8 12); [|done..]. cbn [rbind].
  destruct (BigEndian_Uint 4 a) as [u| |]; [|done..]. cbn [rbind]. case_match; [done|].
  destruct (slice s 0 (12 + int32 u)) as [chunk| |] eqn:Ec; [|done..]. cbn [rbind].
  destruct (RecordBatch_ReadFrom chunk) as [v| |] eqn:Ev; [|done..]. cbn [rbind].
  destruct (slice_from s (12 + int32 u)) as [s'| |] eqn:Es; [|done..]. cbn [rbind].
  apply slice_inv in Ec as (Hc1 & Hc2 & ->). apply slice_inv in Es as (_ & _ & ->).
  apply RecordBatch_ReadFrom_nonempty in Ev.
  assert (0 < 12 + int32 u).
  { destruct (Z.eq_dec (12 + int32 u) 0) as [E|]; [|lia]. by rewrite E in Ev. }
  erewrite (IH (length (take (Z.to_nat (len s - (12 + int32 u))) (drop (Z.to_nat (12 + int32 u)) s))));
    [reflexivity|..]; rewrite ?length_take, ?length_drop; unfold len in *; simpl in *; lia.
Qed.

(** ** Records up to their length field *)

Definition same_but_length (r1 r2 : KRecord) : Prop := set_Length 0 r1 = set_Length 0 r2.

Lemma same_but_length_bytes r1 r2 : same_but_length r1 r2 -> record_bytes r1 = record_bytes r2.
Proof.
  intros H. change (record_bytes r1) with (record_bytes (set_Length 0 r1)). by rewrite H.
Qed.

Lemma bind_record_bytes rs1 rs2 :
  Forall2 same_but_length rs1 rs2 -> (rs1 ≫= record_bytes) = (rs2 ≫= record_bytes).
Proof.
  induction 1 as [|r1 r2 rs1 rs2 H _ IH]; [done|].
  change ((?r :: ?rs) ≫= record_bytes) with (record_bytes r ++ (rs ≫= record_bytes)).
  by rewrite IH, (same_but_length_bytes r1 r2 H).
Qed.

Lemma rebuilt_same batch rs1 rs2 :
  Forall2 same_but_length rs1 rs2 -> rebuilt batch rs1 = rebuilt batch rs2.
Proof.
  intros H. unfold rebuilt. rewrite (bind_record_bytes rs1 rs2 H).
  assert (len rs1 = len rs2) as -> by (unfold len; by erewrite Forall2_length). done.
Qed.

(** Rebuilding overwrites what an earlier rebuilding set. *)
Lemma rebuilt_rebuilt batch rs rs' : rebuilt (rebuilt batch rs) rs' = rebuilt batch rs'.
Proof. done. Qed.

(** ** Runs over values and batches *)

Section runs.
Context {W : Type}.
Implicit Types (f g : bytes -> M W (option bytes)) (w : W).

Definition value_step f (r r' : KRecord) : Prop :=
  match Value r with
  | None => r' = r
  | Some v => exists v' w0 w1, f v w0 = (Ok v', w1) /\ r' = set_Value v' r
  end.

Lemma transform_values_inv f rs : forall w rs' w',
  transform_values f rs w = (Ok rs', w') -> Forall2 (value_step f) rs rs'.
Proof.
  induction rs as [|r rs IH]; intros w rs' w' H; cbn [transform_values] in H; [run_inv; constructor|].
  apply bind_inv in H as (r' & w1 & H1 & H). apply bind_inv in H as (rs'' & w2 & H2 & H).
  run_inv. constructor; [|by eapply IH]. unfold value_step.
  destruct (Value r) as [v|]; run_inv; [|done]. eauto 6.
Qed.

Lemma transform_values_length f rs w rs' w' :
  transform_values f rs w = (Ok rs', w') -> length rs = length rs'.
Proof. intros H. eapply Forall2_length, transform_values_inv, H. Qed.

(** The batches with the records parsed from them. *)
Fixpoint parse_batches (bs : list RecordBatch) : res (list (RecordBatch * list KRecord)) :=
  match bs with
  | [] => Ok []
  | b :: bs' =>
      let? rs := readRecords (NumRecords b) (Batch_Records b) in
      let? es := parse_batches bs' in
      Ok ((b, rs) :: es)
  end.

Definition parse_records (records : bytes) : res (list (RecordBatch * list KRecord)) :=
  let? bs := readRecordBatches records in parse_batches bs.

Definition batch_step f (e : RecordBatch * list KRecord) (b' : RecordBatch) : Prop :=
  exists rs', Forall2 (value_step f) (snd e) rs' /\ b' = rebuilt (fst e) rs'.

Lemma transform_batches_inv f bs : forall w bs' w',
  transform_batches f bs w = (Ok bs', w') ->
  exists es, parse_batches bs = Ok es /\ Forall2 (batch_step f) es bs'.
Proof.
  induction bs as [|b bs IH]; intros w bs' w' H; cbn [transform_batches parse_batches] in *;
    [run_inv; by exists []|].
  apply bind_inv in H as (rs & w1 & H1 & H). apply bind_inv in H as (rs' & w2 & H2 & H).
  apply bind_inv in H as (b' & w3 & H3 & H). apply bind_inv in H as (bs'' & w4 & H4 & H).
  unfold lift in H1, H3. rewrite updateBatch_rebuilt in H3. injection H1 as H1 <-. run_inv.
  destruct (IH _ _ _ H4) as (es & -> & Hes).
  rewrite H1. cbn [rbind]. eexists; split; [done|].
  constructor; [|done]. eexists. split; [by eapply transform_values_inv|done].
Qed.

(** A run of [g] on every value, from and to states with [up]. *)
Lemma transform_values_run (up : W -> Prop) g (rs rs' : list KRecord) :
  Forall2 (fun r r' => match Value r with
                       | None => r' = r
                       | Some v => exists v', r' = set_Value v' r /\
                           forall w, up w -> exists w', g v w = (Ok v', w') /\ up w'
                       end) rs rs' ->
  forall w, up w -> exists w', transform_values g rs w = (Ok rs', w') /\ up w'.
Proof.
  induction 1 as [|r r' rs rs' Hr _ IH]; intros w Hw; cbn [transform_values]; [by exists w|].
  destruct (Value r) as [v|].
  - destruct Hr as (v' & -> & Hg). destruct (Hg w Hw) as (w1 & E1 & Hw1).
    destruct (IH w1 Hw1) as (w2 & E2 & Hw2). exists w2. split; [|done].
    rewrite bind_assoc. erewrite bind_Ok by exact E1. erewrite bind_Ok by done.
    by erewrite bind_Ok by exact E2.
  - subst r'. destruct (IH w Hw) as (w2 & E2 & Hw2). exists w2. split; [|done].
    erewrite bind_Ok by done. by erewrite bind_Ok by exact E2.
Qed.

Lemma transform_batches_run (up : W -> Prop) g (bs bs' : list RecordBatch) :
  Forall2 (fun b b' => exists rs rs', readRecords (NumRecords b) (Batch_Records b) = Ok rs /\
             b' = rebuilt b rs' /\
             forall w, up w -> exists w', transform_values g rs w = (Ok rs', w') /\ up w') bs bs' ->
  forall w, up w -> exists w', transform_batches g bs w = (Ok bs', w') /\ up w'.
Proof.
  induction 1 as [|b b' bs bs' (rs & rs' & Hr & -> & Hg) _ IH]; intros w Hw; cbn [transform_batches];
    [by exists w|].
  destruct (Hg w Hw) as (w1 & E1 & Hw1). destruct (IH w1 Hw1) as (w2 & E2 & Hw2).
  exists w2. split; [|done]. erewrite bind_Ok by (unfold lift; by rewrite Hr).
  erewrite bind_Ok by exact E1. erewrite bind_Ok by (unfold lift; by rewrite updateBatch_rebuilt).
  by erewrite bind_Ok by exact E2.
Qed.

End runs.

(** ** What is parsed is well formed *)

Lemma readRecords_loop_ok n b rs : readRecords_loop n b = Ok rs -> Forall record_ok rs.
Proof.
  revert b rs. induction n as [|n IH]; intros b rs H; cbn [readRecords_loop] in H;
    [injection H as <-; constructor|].
  destruct (varintDecode b) as [l k]. case_match; [done|]. case_match; [done|].
  destruct (slice b 0 (k + l)) as [chunk| |]; [|done..]. cbn [rbind] in H.
  destruct (Record_ReadFrom chunk) as [r| |] eqn:Er; [|done..]. cbn [rbind] in H.
  destruct (slice_from b (k + l)) as [b'| |]; [|done..]. cbn [rbind] in H.
  destruct (readRecords_loop n b') as [rs'| |] eqn:Ers; [|done..]. injection H as <-.
  constructor; [by eapply Record_ReadFrom_ok|by eapply IH].
Qed.

Lemma readRecords_ok n b rs : readRecords n b = Ok rs -> Forall record_ok rs.
Proof. unfold readRecords. case_match; [intros [= <-]; constructor|apply readRecords_loop_ok]. Qed.

Lemma readRecordBatches_loop_ok fuel : forall b bs,
  readRecordBatches_loop fuel b = Ok bs -> Forall batch_fields_ok bs.
Proof.
  induction fuel as [|fuel IH]; intros b bs H; destruct b as [|x b];
    cbn [readRecordBatches_loop] in H; try (injection H as <-; constructor); try done.
  set (s := x :: b) in *. case_match; [done|].
  destruct (slice s 8 12); [|done..]. cbn [rbind] in H.
  destruct (BigEndian_Uint 4 a) as [u| |]; [|done..]. cbn [rbind] in H. case_match; [done|].
  destruct (slice s 0 (12 + int32 u)) as [chunk| |]; [|done..]. cbn [rbind] in H.
  destruct (RecordBatch_ReadFrom chunk) as [v| |] eqn:Ev; [|done..]. cbn [rbind] in H.
  destruct (slice_from s (12 + int32 u)) as [s'| |]; [|done..]. cbn [rbind] in H.
  destruct (readRecordBatches_loop fuel s') as [bs'| |] eqn:Ebs; [|done..]. injection H as <-.
  constructor; [by eapply RecordBatch_ReadFrom_ok|by eapply IH].
Qed.

Definition entry_ok (e : RecordBatch * list KRecord) : Prop :=
  batch_fields_ok (fst e) /\ Forall record_ok (snd e).

Lemma parse_batches_ok bs es :
  parse_batches bs = Ok es -> Forall batch_fields_ok bs -> Forall entry_ok es.
Proof.
  intros H Hbs. revert es H. induction Hbs as [|b bs Hb _ IH]; intros es H; cbn [parse_batches] in H;
    [injection H as <-; constructor|].
  destruct (readRecords _ _) as [rs| |] eqn:Ers; [|done..]. cbn [rbind] in H.
  destruct (parse_batches bs) as [es'| |]; [|done..]. injection H as <-.
  constructor; [|by apply IH]. split; [done|]. by eapply readRecords_ok.
Qed.

Lemma parse_records_ok records es : parse_records records = Ok es -> Forall entry_ok es.
Proof.
  unfold parse_records. destruct (readRecordBatches records) as [bs| |] eqn:E; [|done..]. cbn [rbind].
  intros H. eapply parse_batches_ok; [exact H|]. by eapply readRecordBatches_loop_ok.
Qed.

(** ** Sizes *)

Lemma len_elem_bind {A} (enc : A -> bytes) (l : list A) x : x ∈ l -> len (enc x) <= len (l ≫= enc).
Proof.
  induction 1 as [x l|x y l _ IH]; change ((?a :: l) ≫= enc) with (enc a ++ (l ≫= enc)); len_lia.
Qed.

Lemma len_record_body_le r : len (record_body r) <= len (record_bytes r).
Proof. rewrite record_bytes_eq. len_lia. Qed.

Lemma len_Value_le r v : Value r = Some v -> len v <= len (record_body r).
Proof.
  intros Hv. unfold record_body. rewrite Hv. cbn [AppendVarintBytes]. rewrite !len_app. len_lia.
Qed.

(** Batches rebuilt from well-formed entries are read back, when their bytes
    fit an [int32]. *)
Lemma rebuilt_read batch rs :
  batch_fields_ok batch -> Forall record_ok rs -> 49 + len (rs ≫= record_bytes) < 2 ^ 31 ->
  readRecords (NumRecords (rebuilt batch rs)) (Batch_Records (rebuilt batch rs)) = Ok (relength <$> rs).
Proof.
  intros Hb Hrs Hlen. unfold readRecords. cbn -[len].
  pose proof (len_records_ge rs). pose proof (len_nonneg rs).
  rewrite wrapS_id by (unfold inS; lia).
  replace (_ <? 0) with false by (symmetry; apply Z.ltb_ge; lia). rewrite to_nat_len.
  rewrite <- (app_nil_r (rs ≫= record_bytes)). apply readRecords_loop_bytes; [done|].
  apply Forall_forall. intros r Hr. pose proof (len_record_body_le r).
  apply (len_elem_bind record_bytes) in Hr. lia.
Qed.
