(* ===== verification/EncryptionTheorems.v ===== *)
(** What the encryption plugins promise about the records of a partition:
    decryption gives back what was encrypted, up to empty values; the
    rebuilt batches are consistent; and the inputs on which they fail. *)
From Stdlib Require Import ZArith Lia Strings.Byte.
From stdpp Require Import base list strings gmap.
From S2P Require Import Prelude GoLib Kbin Records Encryption.

(** What the plugins rely on: random reads fill their buffer, the key
    management service unwraps what it wrapped in every state in which it is
    [up], with wrapped keys short enough for the packed format, and AES-GCM
    opens what it sealed. *)
Class EnvelopeLaws (W : Type) `{KMS W} `{Crypto W} (up : W -> Prop) := {
  rand_length n w r w' : 0 <= n -> rand_ReadFull n w = (Ok r, w') -> len r = n;
  unwrap_wrapped topic dek w c w' :
    len dek = 32 -> wrapDEK topic dek w = (Ok c, w') ->
    len c < 65533 /\ forall w1, up w1 -> exists w2, unwrapDEK topic c w1 = (Ok dek, w2) /\ up w2;
  open_sealed key nonce plaintext :
    len key = 32 -> len nonce = NonceSize ->
    gcm_Open key nonce (gcm_Seal key nonce plaintext) = Some plaintext
}.

Section envelope.
Context {W : Type} `{HK : KMS W} `{HC : Crypto W} (up : W -> Prop) `{!EnvelopeLaws W up}.
Implicit Types (w : W) (topic v : bytes).

Lemma encryptValue_inv topic v w p w' :
  encryptValue topic v w = (Ok p, w') ->
  exists dek c nonce, p = pack c (nonce ++ gcm_Seal dek nonce v) /\ len dek = 32 /\
    len nonce = NonceSize /\ len c < 65533 /\
    forall w1, up w1 -> exists w2, unwrapDEK topic c w1 = (Ok dek, w2) /\ up w2.
Proof.
  unfold encryptValue. intros R.
  apply bind_inv in R as (dek & w1 & R1 & R). apply bind_inv in R as (c & w2 & R2 & R).
  apply bind_inv in R as ([] & w3 & _ & R). apply bind_inv in R as (nonce & w4 & R4 & R).
  unfold ret in R. injection R as <- _.
  apply rand_length in R1; [|lia]. apply rand_length in R4; [|done].
  apply unwrap_wrapped in R2 as [Hc Hu]; [|done].
  exists dek, c, nonce. split_and!; done.
Qed.

Lemma decryptValue_pack topic c rest w dek w' :
  len c < 65533 -> unwrapDEK topic c w = (Ok dek, w') ->
  decryptValue topic (pack c rest) w =
  (do* lift (aes_NewCipher dek) in
   if len rest <? NonceSize then fail (Errorf "ciphertext too short")
   else
     let* nonce := lift (slice rest 0 NonceSize) in
     let* ciphertext := lift (slice_from rest NonceSize) in
     match gcm_Open dek nonce ciphertext with
     | None => fail (Errorf "cipher: message authentication failed")
     | Some plaintext => ret (nil_if_empty plaintext)
     end) w'.
Proof.
  intros Hc Hu. unfold decryptValue. pose proof (len_nonneg c). pose proof (len_nonneg rest).
  assert (len (pack c rest) = 3 + len c + len rest) as El
    by (unfold pack; rewrite len_cons, !len_app, len_be_put; lia).
  rewrite El. replace (_ <? 3) with false by (symmetry; apply Z.ltb_ge; lia).
  pose proof (BigEndian_Uint_put 1 1 (be_put 2 (uint16 (len c)) ++ c ++ rest)) as Hv.
  change (be_put 1 1 ++ be_put 2 (uint16 (len c)) ++ c ++ rest) with (pack c rest) in Hv.
  erewrite bind_Ok by (unfold lift; by rewrite Hv).
  cbn [negb]. change (1 mod 256 ^ Z.of_nat 1 =? EncryptionVersion) with true. cbn [negb].
  pose proof (slice_mid [Zbyte EncryptionVersion] (be_put 2 (uint16 (len c))) (c ++ rest) 1 3
                eq_refl eq_refl) as Hs.
  change ([Zbyte EncryptionVersion] ++ be_put 2 (uint16 (len c)) ++ c ++ rest) with (pack c rest) in Hs.
  erewrite bind_Ok by (unfold lift; by rewrite Hs).
  pose proof (BigEndian_Uint_put 2 (uint16 (len c)) []) as Hb. rewrite app_nil_r in Hb.
  change (256 ^ Z.of_nat 2) with 65536 in Hb.
  assert (uint16 (len c) = len c) as Ec by (apply wrapU_id; unfold inU; change (2 ^ 16) with 65536; lia).
  rewrite Ec, Z.mod_small in Hb by lia.
  rewrite Ec. erewrite bind_Ok by (unfold lift; by rewrite Hb).
  replace (_ <? 3 + len c) with false by (symmetry; apply Z.ltb_ge; lia).
  assert (uint16 (3 + len c) = 3 + len c) as -> by (apply wrapU_id; unfold inU; change (2 ^ 16) with 65536; lia).
  pose proof (slice_mid (Zbyte EncryptionVersion :: be_put 2 (uint16 (len c))) c rest 3 (3 + len c)
                eq_refl eq_refl) as Hd.
  change ((Zbyte EncryptionVersion :: be_put 2 (uint16 (len c))) ++ c ++ rest) with (pack c rest) in Hd.
  erewrite bind_Ok by (unfold lift; by rewrite Hd).
  assert (slice_from (pack c rest) (3 + len c) = Ok rest) as Hr.
  { replace (3 + len c) with (len (Zbyte EncryptionVersion :: be_put 2 (uint16 (len c)) ++ c))
      by (rewrite len_cons, len_app, len_be_put; lia).
    replace (pack c rest) with ((Zbyte EncryptionVersion :: be_put 2 (uint16 (len c)) ++ c) ++ rest)
      by (unfold pack; cbn [app]; by rewrite <- app_assoc).
    apply slice_from_app. }
  erewrite bind_Ok by (unfold lift; by rewrite Hr).
  by erewrite bind_Ok by exact Hu.
Qed.

(** A packed value unpacks to the value, nil when it was empty. *)
Lemma decrypt_encrypted topic v w p w' :
  encryptValue topic v w = (Ok p, w') ->
  forall w1, up w1 -> exists w2, decryptValue topic p w1 = (Ok (nil_if_empty v), w2) /\ up w2.
Proof.
  intros H w1 Hw1. apply encryptValue_inv in H as (dek & c & nonce & -> & Hd & Hn & Hc & Hu).
  destruct (Hu w1 Hw1) as (w2 & Eu & Hw2). exists w2. split; [|done].
  rewrite (decryptValue_pack topic c _ w1 dek w2 Hc Eu).
  assert (aes_NewCipher dek = Ok tt) as Ea by (unfold aes_NewCipher; by rewrite Hd).
  erewrite bind_Ok by (unfold lift; by rewrite Ea).
  rewrite <- Hn. rewrite len_app.
  replace (_ <? _) with false by (symmetry; apply Z.ltb_ge; len_lia).
  erewrite bind_Ok by (unfold lift; rewrite slice_pre by done; reflexivity).
  erewrite bind_Ok by (unfold lift; rewrite slice_from_app; reflexivity).
  by rewrite open_sealed.
Qed.

(** ** Runs of [encryptRecords] *)

Lemma transform_records_eq (f : bytes -> M W (option bytes)) b w :
  transform_records f (Some b) w =
  (let* batches := lift (readRecordBatches b) in
   let* batches' := transform_batches f batches in
   ret (Some (AppendBatches batches'))) w.
Proof.
  unfold transform_records. destruct b as [|x b]; [done|].
  change (default [] (Some (x :: b))) with (x :: b).
  replace (_ =? 0) with false by (symmetry; apply Z.eqb_neq; len_lia). done.
Qed.

Lemma transform_records_inv (f : bytes -> M W (option bytes)) b w out w' :
  transform_records f (Some b) w = (Ok (Some out), w') ->
  exists es bs', parse_records b = Ok es /\ Forall2 (batch_step f) es bs' /\ out = bs' ≫= batch_bytes.
Proof.
  rewrite transform_records_eq. intros R.
  apply bind_inv in R as (bs & w1 & R1 & R). apply bind_inv in R as (bs' & w2 & R2 & R).
  unfold ret in R. injection R as <- _. injection R1 as R1 _.
  apply transform_batches_inv in R2 as (es & He & Hes). exists es, bs'.
  unfold parse_records. rewrite R1, AppendBatches_eq. done.
Qed.

(** A record and its encryption. *)
Definition encrypted (topic : bytes) (r r' : KRecord) : Prop :=
  match Value r with
  | None => r' = r
  | Some v => exists p w w', encryptValue topic v w = (Ok p, w') /\ r' = set_Value (Some p) r
  end.

Lemma encryption_step topic r r' :
  value_step (fun v => let* e := encryptValue topic v in ret (Some e)) r r' -> encrypted topic r r'.
Proof.
  unfold value_step, encrypted. destruct (Value r) as [v|]; [|done].
  intros (v' & w0 & w1 & R & ->). apply bind_inv in R as (p & w2 & R & E).
  unfold ret in E. injection E as <- _. eauto 6.
Qed.

Lemma encryptRecords_inv topic b w out w' :
  encryptRecords topic (Some b) w = (Ok (Some out), w') ->
  exists es bs', parse_records b = Ok es /\ Forall entry_ok es /\ out = bs' ≫= batch_bytes /\
    Forall2 (fun e b' => exists rs', Forall2 (encrypted topic) (snd e) rs' /\ b' = rebuilt (fst e) rs') es bs'.
Proof.
  intros R. apply transform_records_inv in R as (es & bs' & He & Hes & ->).
  exists es, bs'. split_and!; [done|by eapply parse_records_ok|done|].
  eapply Forall2_impl; [exact Hes|]. intros e b' (rs' & Hrs & ->). exists rs'. split; [|done].
  eapply Forall2_impl; [exact Hrs|]. intros r r'. apply encryption_step.
Qed.

Lemma encrypted_ok topic rs rs' :
  Forall2 (encrypted topic) rs rs' -> Forall record_ok rs -> len (rs' ≫= record_bytes) < 2 ^ 31 ->
  Forall record_ok rs'.
Proof.
  induction 1 as [|r r' rs rs' Hr _ IH]; intros Hok Hlen; [constructor|].
  inversion_clear Hok as [|? ? Hr0 Hrs0].
  change ((r' :: rs') ≫= record_bytes) with (record_bytes r' ++ (rs' ≫= record_bytes)) in Hlen.
  rewrite len_app in Hlen. pose proof (len_nonneg (rs' ≫= record_bytes)). pose proof (len_nonneg (record_bytes r')).
  constructor; [|apply IH; [done|lia]]. unfold encrypted in Hr.
  destruct (Value r) as [v|]; [|by subst r'].
  destruct Hr as (p & w & w' & _ & ->). apply set_Value_ok; [done|]. intros s [= <-].
  pose proof (len_Value_le (set_Value (Some p) r) p eq_refl).
  pose proof (len_record_body_le (set_Value (Some p) r)). unfold small. lia.
Qed.

(** The batches of an output that fits an [int32]. *)
Lemma encrypted_entry topic (es : list (RecordBatch * list KRecord)) (bs' : list RecordBatch) :
  Forall2 (fun e b' => exists rs', Forall2 (encrypted topic) (snd e) rs' /\ b' = rebuilt (fst e) rs') es bs' ->
  Forall entry_ok es -> len (bs' ≫= batch_bytes) < 2 ^ 31 ->
  Forall batch_ok bs' /\
  Forall2 (fun e b' => exists rs', Forall2 (encrypted topic) (snd e) rs' /\ b' = rebuilt (fst e) rs' /\
     Forall record_ok rs' /\ readRecords (NumRecords b') (Batch_Records b') = Ok (relength <$> rs')) es bs'.
Proof.
  induction 1 as [|e b' es bs' (rs' & Hrs & Eb) _ IH]; intros Hok Hlen; [done|].
  inversion_clear Hok as [|? ? [Hb Hr] Hes].
  change ((b' :: bs') ≫= batch_bytes) with (batch_bytes b' ++ (bs' ≫= batch_bytes)) in Hlen.
  rewrite len_app, len_batch_bytes in Hlen.
  pose proof (len_nonneg (bs' ≫= batch_bytes)). pose proof (len_nonneg (Batch_Records b')).
  destruct IH as [IH1 IH2]; [done|lia|].
  assert (49 + len (rs' ≫= record_bytes) < 2 ^ 31) as Hl by (rewrite Eb in Hlen; cbn in Hlen |- *; lia).
  assert (Forall record_ok rs') as Hrs' by (eapply encrypted_ok; [done..|lia]).
  split; constructor; [rewrite Eb; by apply rebuilt_ok|done| |done].
  exists rs'. split_and!; [done..|]. rewrite Eb. by apply rebuilt_read.
Qed.

(** ** Round trip *)

(** A record after encryption and decryption: an empty value is null. *)
Definition null_empty (r : KRecord) : KRecord :=
  match Value r with None => r | Some v => set_Value (nil_if_empty v) r end.

Lemma decryption_run topic rs rs' :
  Forall2 (encrypted topic) rs rs' ->
  exists rs'', Forall2 same_but_length (null_empty <$> rs) rs'' /\
    forall w, up w -> exists w', transform_values (decryptValue topic) (relength <$> rs') w = (Ok rs'', w') /\ up w'.
Proof.
  intros Hrs.
  assert (exists rs'', Forall2 same_but_length (null_empty <$> rs) rs'' /\
    Forall2 (fun r r' : KRecord => match Value r with
                       | None => r' = r
                       | Some v => exists v' : option bytes, r' = set_Value v' r /\
                           forall w, up w -> exists w', decryptValue topic v w = (Ok v', w') /\ up w'
                       end) (relength <$> rs') rs'') as (rs'' & H1 & H2).
  2:{ exists rs''. split; [done|]. by apply transform_values_run. }
  induction Hrs as [|r r' rs rs' Hr _ (rs'' & IH1 & IH2)]; [by exists []|].
  unfold encrypted in Hr. destruct (Value r) as [v|] eqn:Ev.
  - destruct Hr as (p & w & w' & R & ->).
    exists (set_Value (nil_if_empty v) (relength (set_Value (Some p) r)) :: rs''). split; constructor; try done.
    + by unfold same_but_length, null_empty; rewrite Ev.
    + exists (nil_if_empty v). split; [done|]. by eapply decrypt_encrypted.
  - subst r'. exists (relength r :: rs''). split; constructor; try done.
    + by unfold same_but_length, null_empty; rewrite Ev.
    + change (Value (relength r)) with (Value r). by rewrite Ev.
Qed.

(** The bytes of parsed entries, printed again with empty values null. *)
Definition reencode (es : list (RecordBatch * list KRecord)) : bytes :=
  ((fun e => rebuilt (fst e) (null_empty <$> snd e)) <$> es) ≫= batch_bytes.

Lemma roundtrip topic records w out w' :
  encryptRecords topic (Some records) w = (Ok (Some out), w') -> len out < 2 ^ 31 ->
  exists es, parse_records records = Ok es /\
    forall w1, up w1 -> exists w2, decryptRecords topic (Some out) w1 = (Ok (Some (reencode es)), w2) /\ up w2.
Proof.
  intros R Hlen. apply encryptRecords_inv in R as (es & bs' & He & Hok & -> & Hes).
  exists es. split; [done|]. intros w1 Hw1.
  destruct (encrypted_entry topic es bs' Hes Hok Hlen) as [Hbs Hes'].
  assert (Forall2 (fun b b' => exists rs rs', readRecords (NumRecords b) (Batch_Records b) = Ok rs /\
             b' = rebuilt b rs' /\
             forall w, up w -> exists w', transform_values (decryptValue topic) rs w = (Ok rs', w') /\ up w')
          bs' ((fun e => rebuilt (fst e) (null_empty <$> snd e)) <$> es)) as Hrun.
  { clear -Hes' EnvelopeLaws0. induction Hes' as [|e b' es bs' (rs' & Hrs & -> & Hr & Hread) _ IH]; constructor; [|done].
    destruct (decryption_run topic (snd e) rs' Hrs) as (rs'' & Hsame & Hdec).
    exists (relength <$> rs'), rs''. split_and!; [done| |done].
    rewrite rebuilt_rebuilt. by apply rebuilt_same. }
  destruct (transform_batches_run up _ _ _ Hrun w1 Hw1) as (w2 & E & Hw2).
  exists w2. split; [|done]. unfold decryptRecords. rewrite transform_records_eq.
  erewrite bind_Ok by (unfold lift; by rewrite readRecordBatches_bytes).
  erewrite bind_Ok by exact E. by rewrite AppendBatches_eq.
Qed.

End envelope.

(** ** An example service and cipher

    The state counts the random reads; wrapping prepends a marker; sealing
    appends the first sixteen bytes of the key. *)
Definition toy_KMS : KMS nat := {|
  wrapDEK := fun _ dek w => (Ok ($"kek" ++ dek), w);
  unwrapDEK := fun _ c w =>
    if decide (take 3 c = $"kek") then (Ok (drop 3 c), w) else (Err (Errorf "bad ciphertext"), w)
|}.
Definition toy_Crypto : Crypto nat := {|
  rand_ReadFull := fun n w => (Ok (replicate (Z.to_nat n) (Zbyte (Z.of_nat w))), S w);
  gcm_Seal := fun key _ p => p ++ take 16 key;
  gcm_Open := fun key _ c =>
    if decide (drop (length c - 16) c = take 16 key) then Some (take (length c - 16) c) else None
|}.

Lemma toy_laws : @EnvelopeLaws nat toy_KMS toy_Crypto (fun _ => True).
Proof.
  split.
  - intros n w r w' Hn [= <- _]. unfold len. rewrite length_replicate. lia.
  - intros topic dek w c w' Hd [= <- _]. split.
    + change (len ($"kek" ++ dek) < 65533). rewrite len_app, Hd. reflexivity.
    + intros w1 _. exists w1. split; [|done]. simpl. done.
  - intros key nonce p Hk _. cbn [gcm_Open gcm_Seal toy_Crypto].
    assert (length (take 16 key) = 16%nat) as Hl by (rewrite length_take; unfold len in Hk; lia).
    rewrite length_app, Hl, Nat.add_sub, drop_app_length, take_app_length. by rewrite decide_True.
Qed.

(** A batch of a producer: two records, one with an empty value. *)
Definition example_record (offset : Z) (k v : option bytes) : KRecord :=
  {| Record_Length := 0; Attributes := 0; TimestampDelta := offset; TimestampDelta64 := offset;
     OffsetDelta := offset; Key := k; Value := v;
     Headers := [{| Header_Key := $"h"; Header_Value := Some ($"x") |}] |}.
Definition example_header : RecordBatch :=
  {| FirstOffset := 0; Batch_Length := 0; PartitionLeaderEpoch := -1; Magic := 2; CRC := 0;
     Batch_Attributes := 0; LastOffsetDelta := 1; FirstTimestamp := 1700000000000;
     MaxTimestamp := 1700000000001; ProducerID := -1; ProducerEpoch := -1; FirstSequence := -1;
     NumRecords := 0; Batch_Records := [] |}.
Definition example_records : list KRecord :=
  [example_record 0 None (Some ($"hello")); example_record 1 (Some ($"k")) (Some [])].
Definition example_batches : bytes := batch_bytes (rebuilt example_header example_records).

(** What the example encrypts to, and what that decrypts to. *)
Definition example_encrypted : bytes :=
  match fst (@encryptRecords nat toy_KMS toy_Crypto ($"t") (Some example_batches) 0%nat) with
  | Ok (Some out) => out
  | _ => []
  end.
Definition example_decrypted : bytes :=
  batch_bytes (rebuilt example_header (null_empty <$> example_records)).

(** ** The properties *)

(** C6: what was encrypted decrypts, in every state in which the key management
    service is up, to the batches and records parsed from the input, printed
    again with their lengths, counts and checksums recomputed, and with a
    single difference: an empty value has become a null one. *)
Theorem encrypt_decrypt_roundtrip {W} `{KMS W} `{Crypto W} (up : W -> Prop) `{!EnvelopeLaws W up}
    (topic records out : bytes) (w w' : W) :
  encryptRecords topic (Some records) w = (Ok (Some out), w') -> len out < 2 ^ 31 ->
  exists es, parse_records records = Ok es /\
    forall w1, up w1 ->
      exists w2, decryptRecords topic (Some out) w1 = (Ok (Some (reencode es)), w2) /\ up w2.
Proof. apply (roundtrip up). Qed.

Lemma encrypt_decrypt_roundtrip_witness :
  exists es, parse_records example_batches = Ok es /\
    forall w1 : nat, True ->
      exists w2, @decryptRecords nat toy_KMS toy_Crypto ($"t") (Some example_encrypted) w1
                 = (Ok (Some (reencode es)), w2) /\ True.
Proof.
  apply (@encrypt_decrypt_roundtrip nat toy_KMS toy_Crypto (fun _ => True) toy_laws ($"t")
           example_batches example_encrypted 0%nat 4%nat).
  - vm_compute. reflexivity.
  - vm_compute. reflexivity.
Defined.

(** The fields of a batch that rebuilding keeps. *)
Definition same_batch (b b' : RecordBatch) : Prop :=
  with_records b [] 0 0 0 = with_records b' [] 0 0 0.

(** A batch of the output for a parsed entry of the input. *)
Definition encrypts `{KMS W} `{Crypto W} (topic : bytes) (e : RecordBatch * list KRecord)
    (b' : RecordBatch) : Prop :=
  exists rs', Forall2 (encrypted topic) (snd e) rs' /\
    readRecords (NumRecords b') (Batch_Records b') = Ok (relength <$> rs') /\
    Forall (fun r => Record_Length r = len (record_body r)) (relength <$> rs') /\
    NumRecords b' = len (snd e) /\ Batch_Length b' = 49 + len (Batch_Records b') /\
    CRC b' = int32 (Castagnoli_Checksum (batch_tail b')) /\ same_batch (fst e) b'.

Lemma relength_exact rs' :
  Forall record_ok rs' -> len (rs' ≫= record_bytes) < 2 ^ 31 ->
  Forall (fun r => Record_Length r = len (record_body r)) (relength <$> rs').
Proof.
  intros Hok Hlen. rewrite Forall_fmap. apply Forall_forall. intros r Hr.
  pose proof (len_elem_bind record_bytes rs' r Hr). pose proof (len_record_body_le r).
  cbn. rewrite Forall_forall in Hok. rewrite calculateRecordLength_eq by (by apply Hok).
  change (record_body (relength r)) with (record_body r).
  apply wrapS_id; [lia|]. unfold inS. len_lia.
Qed.

Lemma Forall2_with_r {A B} (P : A -> B -> Prop) (Q : B -> Prop) l k :
  Forall2 P l k -> Forall Q k -> Forall2 (fun x y => P x y /\ Q y) l k.
Proof. induction 1; intros HQ; inversion_clear HQ; constructor; auto. Qed.

(** C23: the output of [encryptRecords] is what a broker accepts: it splits into
    batches, one for each batch of the input, whose length, record count and
    checksum agree with their content; its records are those of the input,
    their lengths exact, and every value that is not null is replaced by an
    encryption of it. *)
Theorem encrypted_output_is_consistent {W} `{KMS W} `{Crypto W} (topic records out : bytes) (w w' : W) :
  encryptRecords topic (Some records) w = (Ok (Some out), w') -> len out < 2 ^ 31 ->
  exists es bs', parse_records records = Ok es /\ readRecordBatches out = Ok bs' /\
    Forall2 (encrypts topic) es bs'.
Proof.
  intros R Hlen. apply encryptRecords_inv in R as (es & bs' & He & Hok & -> & Hes).
  destruct (encrypted_entry topic es bs' Hes Hok Hlen) as [Hbs Hes'].
  exists es, bs'. split_and!; [done|by apply readRecordBatches_bytes|].
  eapply Forall2_impl;
    [apply (Forall2_with_r _ (fun b' => batch_ok b' /\ len (batch_bytes b') < 2 ^ 31) es bs' Hes')|].
  - apply Forall_forall. intros b' Hb'. split; [by eapply Forall_forall in Hbs|].
    pose proof (len_elem_bind batch_bytes bs' b' Hb'). lia.
  - intros e b' [(rs' & Hrs & -> & Hr & Hread) [[] Hl]]. rewrite len_batch_bytes in Hl.
    cbn in Hl. pose proof (len_records_ge rs'). pose proof (len_nonneg rs').
    assert (len (snd e) = len rs') as El by (unfold len; by erewrite Forall2_length).
    exists rs'. split_and!; try done.
    + apply relength_exact; [done|lia].
    + cbn -[len]. rewrite El. apply wrapS_id; [lia|]. unfold inS. lia.
    + by destruct ok_BLength.
Qed.

Lemma encrypted_output_is_consistent_witness :
  exists es bs', parse_records example_batches = Ok es /\ readRecordBatches example_encrypted = Ok bs' /\
    Forall2 (@encrypts nat toy_KMS toy_Crypto ($"t")) es bs'.
Proof.
  apply (@encrypted_output_is_consistent nat toy_KMS toy_Crypto ($"t") example_batches example_encrypted
           0%nat 4%nat).
  - vm_compute. reflexivity.
  - vm_compute. reflexivity.
Defined.

(** ** Inputs that make the plugins panic *)

Section panics.
Context {W : Type} `{HK : KMS W} `{HC : Crypto W}.

Definition panics {A} (r : res A) : Prop := exists msg, r = Panic msg.

Lemma slice_in {A} (s : list A) lo hi : 0 <= lo <= hi -> hi <= len s -> exists t, slice s lo hi = Ok t.
Proof. intros H1 H2. destruct (slice_Ok s lo hi H1 H2) as (t & E & _). eauto. Qed.

(** [decryptValue] on a value with the right version, up to the wrapped key. *)
Lemma decryptValue_header topic n rest w :
  0 <= n < 65536 ->
  decryptValue topic (Zbyte 1 :: be_put 2 n ++ rest) w =
  (let data := Zbyte 1 :: be_put 2 n ++ rest in
   if len data <? 3 + n then fail (Errorf "data too short for DEK")
   else
     let* encryptedDEK := lift (slice data 3 (uint16 (3 + n))) in
     let* encryptedPayload := lift (slice_from data (uint16 (3 + n))) in
     let* dek := unwrapDEK topic encryptedDEK in
     do* lift (aes_NewCipher dek) in
     if len encryptedPayload <? NonceSize then fail (Errorf "ciphertext too short")
     else
       let* nonce := lift (slice encryptedPayload 0 NonceSize) in
       let* ciphertext := lift (slice_from encryptedPayload NonceSize) in
       match gcm_Open dek nonce ciphertext with
       | None => fail (Errorf "cipher: message authentication failed")
       | Some plaintext => ret (nil_if_empty plaintext)
       end) w.
Proof.
  intros Hn. unfold decryptValue. cbv zeta.
  replace (len (Zbyte 1 :: be_put 2 n ++ rest) <? 3) with false
    by (symmetry; apply Z.ltb_ge; rewrite len_cons, len_app, len_be_put; len_lia).
  pose proof (BigEndian_Uint_put 1 1 (be_put 2 n ++ rest)) as Hv.
  change (be_put 1 1 ++ be_put 2 n ++ rest) with (Zbyte 1 :: be_put 2 n ++ rest) in Hv.
  erewrite bind_Ok by (unfold lift; by rewrite Hv).
  change (1 mod 256 ^ Z.of_nat 1 =? EncryptionVersion) with true. cbn [negb].
  pose proof (slice_mid [Zbyte 1] (be_put 2 n) rest 1 3 eq_refl eq_refl) as Hs.
  change ([Zbyte 1] ++ be_put 2 n ++ rest) with (Zbyte 1 :: be_put 2 n ++ rest) in Hs.
  erewrite bind_Ok by (unfold lift; by rewrite Hs).
  pose proof (BigEndian_Uint_put 2 n []) as Hb. rewrite app_nil_r in Hb.
  change (256 ^ Z.of_nat 2) with 65536 in Hb. rewrite Z.mod_small in Hb by lia.
  by erewrite bind_Ok by (unfold lift; by rewrite Hb).
Qed.

Lemma decryptValue_wraps topic n rest w :
  65533 <= n < 65536 -> n <= len rest ->
  decryptValue topic (Zbyte 1 :: be_put 2 n ++ rest) w = (Panic "slice bounds out of range", w).
Proof.
  intros Hn Hl. rewrite decryptValue_header by lia. cbv zeta.
  replace (_ <? 3 + n) with false
    by (symmetry; apply Z.ltb_ge; rewrite len_cons, len_app, len_be_put; lia).
  assert (uint16 (3 + n) = n - 65533) as ->.
  { unfold wrapU. change (2 ^ 16) with 65536. replace (3 + n) with (n - 65533 + 1 * 65536) by lia.
    rewrite Z.mod_add, Z.mod_small by lia. done. }
  unfold bind at 1, lift, slice.
  by replace (3 <=? n - 65533) with false by (symmetry; apply Z.leb_gt; lia).
Qed.

(** A value with a shorter key is the code's as soon as the key is unwrapped. *)
Lemma decryptValue_unwraps topic c payload w :
  len c < 65533 ->
  exists k, decryptValue topic (Zbyte 1 :: be_put 2 (len c) ++ c ++ payload) w =
    (let* dek := unwrapDEK topic c in k dek) w /\ forall dek w, ~ panics (fst (k dek w)).
Proof.
  intros Hc. pose proof (len_nonneg c) as H0. rewrite decryptValue_header by lia. cbv zeta.
  replace (_ <? 3 + len c) with false
    by (symmetry; apply Z.ltb_ge; rewrite len_cons, !len_app, len_be_put; len_lia).
  rewrite wrapU_id by (unfold inU; change (2 ^ 16) with 65536; lia).
  set (hdr := Zbyte 1 :: be_put 2 (len c)).
  assert (len hdr = 3) as Hh by (unfold hdr; by rewrite len_cons, len_be_put).
  change (Zbyte 1 :: be_put 2 (len c) ++ c ++ payload) with (hdr ++ c ++ payload).
  pose proof (slice_mid hdr c payload 3 (3 + len c)) as Es. rewrite Hh in Es.
  erewrite bind_Ok by (unfold lift; by rewrite Es).
  pose proof (slice_from_app (hdr ++ c) payload) as Ef. rewrite <- app_assoc, len_app, Hh in Ef.
  erewrite bind_Ok by (unfold lift; by rewrite Ef).
  eexists. split; [reflexivity|]. intros dek w1 Hp.
  unfold bind at 1, lift in Hp. unfold aes_NewCipher in Hp. destruct (_ || _ || _); [|by destruct Hp].
  destruct (len payload <? NonceSize) eqn:En; [by destruct Hp|]. apply Z.ltb_ge in En.
  destruct (slice_in payload 0 NonceSize) as [nonce E1]; [by vm_compute|done|].
  erewrite bind_Ok in Hp by (unfold lift; by rewrite E1).
  destruct (slice_in payload NonceSize (len payload)) as [ct E2]; [unfold NonceSize in *; lia|lia|].
  erewrite bind_Ok in Hp by (unfold lift, slice_from; by rewrite E2).
  destruct (gcm_Open dek nonce ct); by destruct Hp.
Qed.

(** The wrapped key can be read off the value: its announced length wraps
    around, or it is the next so many bytes. *)
Lemma decryptValue_panic_cases topic data w :
  panics (fst (decryptValue topic data w)) ->
  exists n rest, data = Zbyte 1 :: be_put 2 n ++ rest /\ 0 <= n < 65536 /\ n <= len rest.
Proof.
  intros Hp. destruct data as [|b0 [|b1 [|b2 rest]]]; try (by destruct Hp).
  assert (b1 :: b2 :: rest = be_put 2 (be_value [b1; b2]) ++ rest) as E by (by rewrite be_put_value_length).
  pose proof (be_value_range [b1; b2]) as Hr. change (256 ^ len [b1; b2]) with 65536 in Hr.
  rewrite E in Hp |- *. set (n := be_value [b1; b2]) in *. clearbody n.
  assert (b0 = Zbyte 1) as ->.
  { destruct (Z.eq_dec (byteZ b0) 1) as [Eb|Hb]; [by rewrite <- (Zbyte_byteZ b0), Eb|].
    exfalso. unfold decryptValue in Hp.
    replace (len (b0 :: be_put 2 n ++ rest) <? 3) with false in Hp
      by (symmetry; apply Z.ltb_ge; rewrite len_cons, len_app, len_be_put; len_lia).
    assert (BigEndian_Uint 1 (b0 :: be_put 2 n ++ rest) = Ok (byteZ b0)) as Ev.
    { unfold BigEndian_Uint. cbn. f_equal. unfold len. simpl. lia. }
    erewrite bind_Ok in Hp by (unfold lift; by rewrite Ev).
    replace (byteZ b0 =? EncryptionVersion) with false in Hp by (symmetry; by apply Z.eqb_neq).
    by destruct Hp. }
  exists n, rest. split; [done|]. rewrite decryptValue_header in Hp by lia. cbv zeta in Hp.
  destruct (len (Zbyte 1 :: be_put 2 n ++ rest) <? 3 + n) eqn:El; [by destruct Hp|].
  apply Z.ltb_ge in El. rewrite len_cons, len_app, len_be_put in El.
  pose proof (len_nonneg rest). lia.
Qed.

End panics.

(** C39: [decryptValue] panics on a value exactly in two cases.  The value
    announces a wrapped key of 65533 bytes or more and carries that many:
    [3+dekLen] then wraps around in [uint16] and the slice bounds are out of
    order.  Or the key is shorter and unwrapping it panics, as the Vault plugin
    does on an answer without the plaintext.  By the first, any client that can
    write such a value to a topic stops the plugin process of every consumer
    that fetches it. *)
Theorem decryptValue_panics_iff {W} `{KMS W} `{Crypto W} (topic data : bytes) (w : W) :
  panics (fst (decryptValue topic data w)) <->
  (exists n rest, data = Zbyte 1 :: be_put 2 n ++ rest /\ 65533 <= n < 65536 /\ n <= len rest) \/
  (exists c payload, data = Zbyte 1 :: be_put 2 (len c) ++ c ++ payload /\ len c < 65533 /\
     panics (fst (unwrapDEK topic c w))).
Proof.
  split.
  - intros Hp. destruct (decryptValue_panic_cases topic data w Hp) as (n & rest & -> & Hn & Hl).
    destruct (Z.le_gt_cases 65533 n) as [|Hlt]; [left; exists n, rest; split; [done|lia]|right].
    assert (len (take (Z.to_nat n) rest) = n) as Ec by (unfold len in *; rewrite length_take; lia).
    exists (take (Z.to_nat n) rest), (drop (Z.to_nat n) rest). rewrite take_drop, Ec. split_and!; [done|lia|].
    destruct (decryptValue_unwraps topic (take (Z.to_nat n) rest) (drop (Z.to_nat n) rest) w) as (k & E & Hk);
      [lia|]. rewrite take_drop, Ec in E. rewrite E in Hp. unfold bind in Hp.
    destruct (unwrapDEK _ _ _) as [[dek|e|m] w1]; [by destruct (Hk dek w1)|by destruct Hp|by exists m].
  - intros [(n & rest & -> & Hn & Hl)|(c & payload & -> & Hc & Hp)].
    + rewrite decryptValue_wraps by done. by eexists.
    + destruct (decryptValue_unwraps topic c payload w Hc) as (k & -> & _). unfold bind.
      destruct (unwrapDEK _ _ _) as [[dek|e|m] w1]; [by destruct Hp..|by exists m].
Qed.

Definition poisoned_value : bytes := Zbyte 1 :: be_put 2 65535 ++ replicate (Pos.to_nat 65535) (Zbyte 0).

(** The value panics, whatever the key management service does. *)
Lemma decryptValue_panics_iff_witness :
  panics (fst (@decryptValue nat toy_KMS toy_Crypto ($"t") poisoned_value 0%nat)).
Proof.
  apply (@decryptValue_panics_iff nat toy_KMS toy_Crypto ($"t") poisoned_value 0%nat). left.
  exists 65535, (replicate (Pos.to_nat 65535) (Zbyte 0)). split; [reflexivity|]. split; [lia|].
  unfold len. rewrite length_replicate. lia.
Defined.

Lemma readRecordBatches_negative pre n rest :
  len pre = 8 -> - 2 ^ 31 <= n <= -13 ->
  readRecordBatches (pre ++ be_put 4 n ++ rest) = Panic "slice bounds out of range".
Proof.
  intros Hp Hn. set (b := pre ++ be_put 4 n ++ rest).
  assert (len b = 12 + len rest) as Hl by (unfold b; rewrite !len_app, len_be_put; lia).
  unfold readRecordBatches. pose proof (len_nonneg rest).
  assert (slice b 8 12 = Ok (be_put 4 n)) as Es by (unfold b; by apply slice_mid).
  destruct b as [|x b'] eqn:Eb; [by rewrite len_nil in Hl; lia|]. rewrite <- Eb in *.
  assert (length b = S (length b')) as -> by (by rewrite Eb). cbn [readRecordBatches_loop].
  rewrite Eb at 1. rewrite Hl. replace (12 + len rest <? 12) with false by (symmetry; apply Z.ltb_ge; lia).
  rewrite Es. cbn [rbind]. pose proof (BigEndian_Uint_put 4 n []) as Hu. rewrite app_nil_r in Hu. rewrite Hu.
  cbn [rbind]. change (256 ^ Z.of_nat 4) with (2 ^ 32). fold (wrapU 32 n).
  rewrite wrapS_wrapU, wrapS_id by (unfold inS; lia).
  replace (_ <? 12 + n) with false by (symmetry; apply Z.ltb_ge; lia).
  unfold slice. replace (0 <=? 12 + n) with false by (symmetry; apply Z.leb_gt; lia).
  by rewrite andb_false_r.
Qed.

(** A partition whose first batch announces a length below -12 makes both
    directions panic, before the key management service is asked: neither the
    producer's request nor the broker's response is checked for it.*)
Theorem negative_batch_length_panics {W} `{KMS W} `{Crypto W} (topic pre rest : bytes) (n : Z) (w : W) :
  len pre = 8 -> - 2 ^ 31 <= n <= -13 ->
  encryptRecords topic (Some (pre ++ be_put 4 n ++ rest)) w = (Panic "slice bounds out of range", w) /\
  decryptRecords topic (Some (pre ++ be_put 4 n ++ rest)) w = (Panic "slice bounds out of range", w).
Proof.
  intros Hp Hn. unfold encryptRecords, decryptRecords. rewrite !transform_records_eq.
  unfold bind, lift. by rewrite readRecordBatches_negative.
Qed.

Lemma negative_batch_length_panics_witness :
  @encryptRecords nat toy_KMS toy_Crypto ($"t") (Some (be_put 8 0 ++ be_put 4 (-13) ++ [])) 0%nat
    = (Panic "slice bounds out of range", 0%nat) /\
  @decryptRecords nat toy_KMS toy_Crypto ($"t") (Some (be_put 8 0 ++ be_put 4 (-13) ++ [])) 0%nat
    = (Panic "slice bounds out of range", 0%nat).
Proof.
  apply (@negative_batch_length_panics nat toy_KMS toy_Crypto ($"t") (be_put 8 0) [] (-13) 0%nat).
  - vm_compute. reflexivity.
  - bounds.
Defined.

(** A batch with a negative record count goes through with its records
    dropped and its count and length reset, in both directions and without a
    word: the code takes such a batch for a compressed one.*)
Theorem negative_count_drops_records {W} `{KMS W} `{Crypto W} (topic : bytes) (b : RecordBatch) (w : W) :
  batch_ok b -> NumRecords b < 0 ->
  encryptRecords topic (Some (batch_bytes b)) w = (Ok (Some (batch_bytes (rebuilt b []))), w) /\
  decryptRecords topic (Some (batch_bytes b)) w = (Ok (Some (batch_bytes (rebuilt b []))), w).
Proof.
  intros Hb Hn. unfold encryptRecords, decryptRecords. rewrite !transform_records_eq.
  pose proof (readRecordBatches_bytes [b] ltac:(by constructor)) as E.
  change ([b] ≫= batch_bytes) with (batch_bytes b ++ []) in E. rewrite app_nil_r in E.
  assert (readRecords (NumRecords b) (Batch_Records b) = Ok []) as Er
    by (unfold readRecords; by replace (_ <? 0) with true by (symmetry; apply Z.ltb_lt; lia)).
  split; (erewrite bind_Ok by (unfold lift; by rewrite E)); cbn [transform_batches]; rewrite bind_assoc;
    (erewrite bind_Ok by (unfold lift; by rewrite Er)); cbn [transform_values];
    rewrite ?bind_assoc; unfold bind, ret, lift; rewrite updateBatch_rebuilt, AppendBatches_eq;
    change ([?x] ≫= batch_bytes) with (batch_bytes x ++ []); by rewrite app_nil_r.
Qed.

Definition uncounted_batch : RecordBatch := with_records example_header ($"abc") (-1) 52 0.

Lemma negative_count_drops_records_witness :
  @encryptRecords nat toy_KMS toy_Crypto ($"t") (Some (batch_bytes uncounted_batch)) 0%nat
    = (Ok (Some (batch_bytes (rebuilt uncounted_batch []))), 0%nat) /\
  @decryptRecords nat toy_KMS toy_Crypto ($"t") (Some (batch_bytes uncounted_batch)) 0%nat
    = (Ok (Some (batch_bytes (rebuilt uncounted_batch []))), 0%nat).
Proof.
  apply (@negative_count_drops_records nat toy_KMS toy_Crypto ($"t") uncounted_batch 0%nat).
  - split; bounds.
  - reflexivity.
Defined.
