(* ===== verification/Kmsg.v ===== *)
(** The two messages the encryption plugins rewrite, as the vendored Kafka
    message library reads and prints them in every version
    (vendor/github.com/twmb/franz-go/pkg/kmsg/generated.go, tags in api.go):
    produce requests and fetch responses. *)
From Stdlib Require Import ZArith Lia Strings.Byte.
From stdpp Require Import base list strings gmap sorting.
From S2P Require Import Prelude GoLib Kbin Records.

(** ** Tags *)

(** [map[uint32][]byte] *)
Abbreviation Tags := (gmap Z bytes).

Fixpoint read_tags_loop (num : nat) (t : Tags) : M Reader Tags :=
  match num with
  | O => ret t
  | S num' =>
      let* key := Reader_Uvarint in
      let* size := Reader_Uvarint in
      let* val := span_bytes size in
      read_tags_loop num' (<[key := val]> t)
  end.

Definition internalReadTags : M Reader Tags :=
  let* num := Reader_Uvarint in read_tags_loop (Z.to_nat num) ∅.

(** [Each] visits the keys in increasing order. *)
Definition key_le (p q : Z * bytes) : Prop := p.1 <= q.1.
#[export] Instance key_le_dec : RelDecision key_le.
Proof. intros p q. unfold key_le. apply _. Defined.

Definition ordered_tags (t : Tags) : list (Z * bytes) := merge_sort key_le (map_to_list t).

Definition AppendEach (t : Tags) (dst : bytes) : bytes :=
  foldl (fun dst kv => AppendUvarint (AppendUvarint dst (uint32 kv.1)) (uint32 (len kv.2)) ++ kv.2)
    dst (ordered_tags t).

(** [dst = kbin.AppendUvarint(dst, 0+uint32(v.UnknownTags.Len()))] and the
    tags. *)
Definition append_tags (dst : bytes) (t : Tags) : bytes :=
  AppendEach t (AppendUvarint dst (uint32 (Z.of_nat (size t)))).

Definition read_tags (isFlexible : bool) : M Reader Tags :=
  if isFlexible then internalReadTags else ret ∅.
Definition append_tags_if (isFlexible : bool) (dst : bytes) (t : Tags) : bytes :=
  if isFlexible then append_tags dst t else dst.

(** The choice between compact and classic encodings. *)
Definition read_len (isFlexible : bool) : M Reader Z := if isFlexible then CompactArrayLen else ArrayLen.
Definition append_len (isFlexible : bool) (dst : bytes) (n : Z) : bytes :=
  if isFlexible then AppendCompactArrayLen dst n else AppendArrayLen dst n.
Definition read_string (isFlexible : bool) : M Reader bytes := if isFlexible then CompactString else String.
Definition append_string (isFlexible : bool) (dst s : bytes) : bytes :=
  if isFlexible then AppendCompactString dst s else AppendString dst s.
Definition read_nstring (isFlexible : bool) : M Reader (option bytes) :=
  if isFlexible then CompactNullableString else NullableString.
Definition append_nstring (isFlexible : bool) (dst : bytes) (s : option bytes) : bytes :=
  if isFlexible then AppendCompactNullableString dst s else AppendNullableString dst s.
Definition read_nbytes (isFlexible : bool) : M Reader (option bytes) :=
  if isFlexible then CompactNullableBytes else NullableBytes.
Definition append_nbytes (isFlexible : bool) (dst : bytes) (b : option bytes) : bytes :=
  if isFlexible then AppendCompactNullableBytes dst b else AppendNullableBytes dst b.

(** A field the version leaves at its default. *)
Definition read_if {A} (c : bool) (m : M Reader A) (dflt : A) : M Reader A := if c then m else ret dflt.

Definition zero_uuid : bytes := replicate 16 (Zbyte 0).

(** The name of a topic, an id from version 13 on. *)
Definition append_topic (version : Z) (isFlexible : bool) (dst name id : bytes) : bytes :=
  let dst := if (0 <=? version) && (version <=? 12) then append_string isFlexible dst name else dst in
  if 13 <=? version then AppendUuid dst id else dst.

Definition read_topic_name (version : Z) (isFlexible : bool) : M Reader bytes :=
  read_if ((0 <=? version) && (version <=? 12)) (read_string isFlexible) [].
Definition read_topic_id (version : Z) : M Reader bytes := read_if (13 <=? version) Uuid zero_uuid.

(** ** Produce requests *)

Record ProduceRequestTopicPartition := {
  prp_Partition : Z;
  prp_Records : option bytes;
  prp_UnknownTags : Tags
}.

Record ProduceRequestTopic := {
  prt_Topic : bytes;
  prt_TopicID : bytes;
  prt_Partitions : list ProduceRequestTopicPartition;
  prt_UnknownTags : Tags
}.

Record ProduceRequest := {
  pr_Version : Z;
  pr_TransactionID : option bytes;
  pr_Acks : Z;
  pr_TimeoutMillis : Z;
  pr_Topics : list ProduceRequestTopic;
  pr_UnknownTags : Tags
}.

Definition append_produce_partition (isFlexible : bool) (dst : bytes) (v : ProduceRequestTopicPartition)
    : bytes :=
  let dst := AppendInt32 dst (prp_Partition v) in
  let dst := append_nbytes isFlexible dst (prp_Records v) in
  append_tags_if isFlexible dst (prp_UnknownTags v).

Definition append_produce_topic (version : Z) (isFlexible : bool) (dst : bytes) (v : ProduceRequestTopic)
    : bytes :=
  let dst := append_topic version isFlexible dst (prt_Topic v) (prt_TopicID v) in
  let dst := append_len isFlexible dst (len (prt_Partitions v)) in
  let dst := foldl (append_produce_partition isFlexible) dst (prt_Partitions v) in
  append_tags_if isFlexible dst (prt_UnknownTags v).

Definition ProduceRequest_AppendTo (v : ProduceRequest) (dst : bytes) : bytes :=
  let version := pr_Version v in
  let isFlexible := 9 <=? version in
  let dst := if 3 <=? version then append_nstring isFlexible dst (pr_TransactionID v) else dst in
  let dst := AppendInt16 dst (pr_Acks v) in
  let dst := AppendInt32 dst (pr_TimeoutMillis v) in
  let dst := append_len isFlexible dst (len (pr_Topics v)) in
  let dst := foldl (append_produce_topic version isFlexible) dst (pr_Topics v) in
  append_tags_if isFlexible dst (pr_UnknownTags v).

Definition read_produce_partition (isFlexible : bool) : M Reader ProduceRequestTopicPartition :=
  let* p := Int32 in
  let* r := read_nbytes isFlexible in
  let* t := read_tags isFlexible in
  ret {| prp_Partition := p; prp_Records := r; prp_UnknownTags := t |}.

Definition read_produce_topic (version : Z) (isFlexible : bool) : M Reader ProduceRequestTopic :=
  let* name := read_topic_name version isFlexible in
  let* id := read_topic_id version in
  let* ps := read_array (read_len isFlexible) (read_produce_partition isFlexible) in
  let* t := read_tags isFlexible in
  ret {| prt_Topic := name; prt_TopicID := id; prt_Partitions := ps; prt_UnknownTags := t |}.

Definition read_produce (version : Z) : M Reader ProduceRequest :=
  let isFlexible := 9 <=? version in
  let* txn := read_if (3 <=? version) (read_nstring isFlexible) None in
  let* acks := Int16 in
  let* timeout := Int32 in
  let* topics := read_array (read_len isFlexible) (read_produce_topic version isFlexible) in
  let* t := read_tags isFlexible in
  ret {| pr_Version := version; pr_TransactionID := txn; pr_Acks := acks; pr_TimeoutMillis := timeout;
         pr_Topics := topics; pr_UnknownTags := t |}.

Definition ProduceRequest_ReadFrom (version : Z) (src : bytes) : res ProduceRequest :=
  fst (complete (read_produce version) (NewReader src)).

(** ** Fetch responses *)

Record DivergingEpoch := { de_Epoch : Z; de_EndOffset : Z; de_UnknownTags : Tags }.
Record CurrentLeader := { cl_LeaderID : Z; cl_LeaderEpoch : Z; cl_UnknownTags : Tags }.
Record SnapshotID := { si_EndOffset : Z; si_Epoch : Z; si_UnknownTags : Tags }.
Record AbortedTransaction := { at_ProducerID : Z; at_FirstOffset : Z; at_UnknownTags : Tags }.
Record FetchResponseBroker := {
  fb_NodeID : Z;
  fb_Host : bytes;
  fb_Port : Z;
  fb_Rack : option bytes;
  fb_UnknownTags : Tags
}.

#[export] Instance DivergingEpoch_eq_dec : EqDecision DivergingEpoch.
Proof. solve_decision. Defined.
#[export] Instance CurrentLeader_eq_dec : EqDecision CurrentLeader.
Proof. solve_decision. Defined.
#[export] Instance SnapshotID_eq_dec : EqDecision SnapshotID.
Proof. solve_decision. Defined.

(** The defaults [Default] sets. *)
Definition NewDivergingEpoch : DivergingEpoch := {| de_Epoch := -1; de_EndOffset := -1; de_UnknownTags := ∅ |}.
Definition NewCurrentLeader : CurrentLeader := {| cl_LeaderID := -1; cl_LeaderEpoch := -1; cl_UnknownTags := ∅ |}.
Definition NewSnapshotID : SnapshotID := {| si_EndOffset := -1; si_Epoch := -1; si_UnknownTags := ∅ |}.

(** [frp_AbortedTransactions] is [None] for a nil slice. *)
Record FetchResponseTopicPartition := {
  frp_Partition : Z;
  frp_ErrorCode : Z;
  frp_HighWatermark : Z;
  frp_LastStableOffset : Z;
  frp_LogStartOffset : Z;
  frp_DivergingEpoch : DivergingEpoch;
  frp_CurrentLeader : CurrentLeader;
  frp_SnapshotID : SnapshotID;
  frp_AbortedTransactions : option (list AbortedTransaction);
  frp_PreferredReadReplica : Z;
  frp_RecordBatches : option bytes;
  frp_UnknownTags : Tags
}.

Record FetchResponseTopic := {
  frt_Topic : bytes;
  frt_TopicID : bytes;
  frt_Partitions : list FetchResponseTopicPartition;
  frt_UnknownTags : Tags
}.

Record FetchResponse := {
  fr_Version : Z;
  fr_ThrottleMillis : Z;
  fr_ErrorCode : Z;
  fr_SessionID : Z;
  fr_Topics : list FetchResponseTopic;
  fr_Brokers : list FetchResponseBroker;
  fr_UnknownTags : Tags
}.

(** A tagged field: its number, the length of its content, its content. *)
Definition append_tagged (dst : bytes) (tag : Z) (content : bytes) : bytes :=
  AppendUvarint (AppendUvarint dst tag) (uint32 (len content)) ++ content.

Definition DivergingEpoch_bytes (v : DivergingEpoch) : bytes :=
  append_tags (AppendInt64 (AppendInt32 [] (de_Epoch v)) (de_EndOffset v)) (de_UnknownTags v).
Definition CurrentLeader_bytes (v : CurrentLeader) : bytes :=
  append_tags (AppendInt32 (AppendInt32 [] (cl_LeaderID v)) (cl_LeaderEpoch v)) (cl_UnknownTags v).
Definition SnapshotID_bytes (v : SnapshotID) : bytes :=
  append_tags (AppendInt32 (AppendInt64 [] (si_EndOffset v)) (si_Epoch v)) (si_UnknownTags v).

Definition append_aborted (isFlexible : bool) (dst : bytes) (v : AbortedTransaction) : bytes :=
  append_tags_if isFlexible (AppendInt64 (AppendInt64 dst (at_ProducerID v)) (at_FirstOffset v)) (at_UnknownTags v).

Definition append_aborteds (isFlexible : bool) (dst : bytes) (v : option (list AbortedTransaction)) : bytes :=
  let l := default [] v in
  let isNil := match v with None => true | Some _ => false end in
  let dst := if isFlexible then AppendCompactNullableArrayLen dst (len l) isNil
             else AppendNullableArrayLen dst (len l) isNil in
  foldl (append_aborted isFlexible) dst l.

(** The tagged fields of a partition: those that differ from their defaults,
    then the unknown tags. *)
Definition append_partition_tags (dst : bytes) (v : FetchResponseTopicPartition) : bytes :=
  let d := bool_decide (frp_DivergingEpoch v <> NewDivergingEpoch) in
  let c := bool_decide (frp_CurrentLeader v <> NewCurrentLeader) in
  let s := bool_decide (frp_SnapshotID v <> NewSnapshotID) in
  let n := Z.b2z d + Z.b2z c + Z.b2z s in
  let dst := AppendUvarint dst (uint32 (n + Z.of_nat (size (frp_UnknownTags v)))) in
  let dst := if d then append_tagged dst 0 (DivergingEpoch_bytes (frp_DivergingEpoch v)) else dst in
  let dst := if c then append_tagged dst 1 (CurrentLeader_bytes (frp_CurrentLeader v)) else dst in
  let dst := if s then append_tagged dst 2 (SnapshotID_bytes (frp_SnapshotID v)) else dst in
  AppendEach (frp_UnknownTags v) dst.

Definition append_fetch_partition (version : Z) (isFlexible : bool) (dst : bytes)
    (v : FetchResponseTopicPartition) : bytes :=
  let dst := AppendInt32 dst (frp_Partition v) in
  let dst := AppendInt16 dst (frp_ErrorCode v) in
  let dst := AppendInt64 dst (frp_HighWatermark v) in
  let dst := if 4 <=? version then AppendInt64 dst (frp_LastStableOffset v) else dst in
  let dst := if 5 <=? version then AppendInt64 dst (frp_LogStartOffset v) else dst in
  let dst := if 4 <=? version then append_aborteds isFlexible dst (frp_AbortedTransactions v) else dst in
  let dst := if 11 <=? version then AppendInt32 dst (frp_PreferredReadReplica v) else dst in
  let dst := append_nbytes isFlexible dst (frp_RecordBatches v) in
  if isFlexible then append_partition_tags dst v else dst.

Definition append_fetch_topic (version : Z) (isFlexible : bool) (dst : bytes) (v : FetchResponseTopic)
    : bytes :=
  let dst := append_topic version isFlexible dst (frt_Topic v) (frt_TopicID v) in
  let dst := append_len isFlexible dst (len (frt_Partitions v)) in
  let dst := foldl (append_fetch_partition version isFlexible) dst (frt_Partitions v) in
  append_tags_if isFlexible dst (frt_UnknownTags v).

Definition append_broker (isFlexible : bool) (dst : bytes) (v : FetchResponseBroker) : bytes :=
  let dst := AppendInt32 dst (fb_NodeID v) in
  let dst := append_string isFlexible dst (fb_Host v) in
  let dst := AppendInt32 dst (fb_Port v) in
  let dst := append_nstring isFlexible dst (fb_Rack v) in
  append_tags_if isFlexible dst (fb_UnknownTags v).

Definition Brokers_bytes (isFlexible : bool) (l : list FetchResponseBroker) : bytes :=
  foldl (append_broker isFlexible) (append_len isFlexible [] (len l)) l.

Definition FetchResponse_AppendTo (v : FetchResponse) (dst : bytes) : bytes :=
  let version := fr_Version v in
  let isFlexible := 12 <=? version in
  let dst := if 1 <=? version then AppendInt32 dst (fr_ThrottleMillis v) else dst in
  let dst := if 7 <=? version then AppendInt16 dst (fr_ErrorCode v) else dst in
  let dst := if 7 <=? version then AppendInt32 dst (fr_SessionID v) else dst in
  let dst := append_len isFlexible dst (len (fr_Topics v)) in
  let dst := foldl (append_fetch_topic version isFlexible) dst (fr_Topics v) in
  if isFlexible then
    let known := if 0 <? len (fr_Brokers v) then 1 else 0 in
    let dst := AppendUvarint dst (uint32 (known + Z.of_nat (size (fr_UnknownTags v)))) in
    let dst := if 0 <? len (fr_Brokers v) then append_tagged dst 0 (Brokers_bytes isFlexible (fr_Brokers v))
               else dst in
    AppendEach (fr_UnknownTags v) dst
  else dst.

(** [b := kbin.Reader{Src: b.Span(int(b.Uvarint()))}]: the content of a
    tagged field is read by a reader of its own, which must not run out. *)
Definition read_tagged {A} (m : M Reader A) : M Reader A :=
  let* l := Reader_Uvarint in
  let* s := Span l in
  lift (fst (complete m {| Src := s; bad := false |})).

Definition read_DivergingEpoch : M Reader DivergingEpoch :=
  let* e := Int32 in
  let* o := Int64 in
  let* t := internalReadTags in
  ret {| de_Epoch := e; de_EndOffset := o; de_UnknownTags := t |}.
Definition read_CurrentLeader : M Reader CurrentLeader :=
  let* i := Int32 in
  let* e := Int32 in
  let* t := internalReadTags in
  ret {| cl_LeaderID := i; cl_LeaderEpoch := e; cl_UnknownTags := t |}.
Definition read_SnapshotID : M Reader SnapshotID :=
  let* o := Int64 in
  let* e := Int32 in
  let* t := internalReadTags in
  ret {| si_EndOffset := o; si_Epoch := e; si_UnknownTags := t |}.

Definition read_aborted (isFlexible : bool) : M Reader AbortedTransaction :=
  let* p := Int64 in
  let* o := Int64 in
  let* t := read_tags isFlexible in
  ret {| at_ProducerID := p; at_FirstOffset := o; at_UnknownTags := t |}.

(** A negative length leaves the slice nil. *)
Definition read_aborteds (isFlexible : bool) : M Reader (option (list AbortedTransaction)) :=
  let* l := read_len isFlexible in
  do* check_ok in
  let* a := read_times (Z.to_nat l) (read_aborted isFlexible) in
  ret (if l <? 0 then None else Some a).

(** The tagged fields of a partition, in any order, the last one winning. *)
Definition partition_tags : Type := DivergingEpoch * CurrentLeader * SnapshotID * Tags.

Fixpoint read_partition_tags_loop (num : nat) (st : partition_tags) : M Reader partition_tags :=
  match num with
  | O => ret st
  | S num' =>
      let '(d, c, s, t) := st in
      let* key := Reader_Uvarint in
      let* st' := (if key =? 0 then let* d' := read_tagged read_DivergingEpoch in ret (d', c, s, t)
                   else if key =? 1 then let* c' := read_tagged read_CurrentLeader in ret (d, c', s, t)
                   else if key =? 2 then let* s' := read_tagged read_SnapshotID in ret (d, c, s', t)
                   else let* l := Reader_Uvarint in
                        let* val := span_bytes l in ret (d, c, s, <[key := val]> t)) in
      read_partition_tags_loop num' st'
  end.

Definition no_partition_tags : partition_tags := (NewDivergingEpoch, NewCurrentLeader, NewSnapshotID, ∅).

Definition read_partition_tags (isFlexible : bool) : M Reader partition_tags :=
  if isFlexible then
    let* num := Reader_Uvarint in read_partition_tags_loop (Z.to_nat num) no_partition_tags
  else ret no_partition_tags.

(** The defaults are those of [FetchResponseTopicPartition.Default]. *)
Definition read_fetch_partition (version : Z) (isFlexible : bool) : M Reader FetchResponseTopicPartition :=
  let* p := Int32 in
  let* e := Int16 in
  let* hw := Int64 in
  let* lso := read_if (4 <=? version) Int64 (-1) in
  let* log := read_if (5 <=? version) Int64 (-1) in
  let* aborted := read_if (4 <=? version) (read_aborteds isFlexible) None in
  let* replica := read_if (11 <=? version) Int32 (-1) in
  let* records := read_nbytes isFlexible in
  let* (d, c, s, t) := read_partition_tags isFlexible in
  ret {| frp_Partition := p; frp_ErrorCode := e; frp_HighWatermark := hw; frp_LastStableOffset := lso;
         frp_LogStartOffset := log; frp_DivergingEpoch := d; frp_CurrentLeader := c;
         frp_SnapshotID := s; frp_AbortedTransactions := aborted; frp_PreferredReadReplica := replica;
         frp_RecordBatches := records; frp_UnknownTags := t |}.

Definition read_fetch_topic (version : Z) (isFlexible : bool) : M Reader FetchResponseTopic :=
  let* name := read_topic_name version isFlexible in
  let* id := read_topic_id version in
  let* ps := read_array (read_len isFlexible) (read_fetch_partition version isFlexible) in
  let* t := read_tags isFlexible in
  ret {| frt_Topic := name; frt_TopicID := id; frt_Partitions := ps; frt_UnknownTags := t |}.

Definition read_broker (isFlexible : bool) : M Reader FetchResponseBroker :=
  let* i := Int32 in
  let* h := read_string isFlexible in
  let* p := Int32 in
  let* r := read_nstring isFlexible in
  let* t := read_tags isFlexible in
  ret {| fb_NodeID := i; fb_Host := h; fb_Port := p; fb_Rack := r; fb_UnknownTags := t |}.

Fixpoint read_response_tags_loop (isFlexible : bool) (num : nat)
    (st : list FetchResponseBroker * Tags) : M Reader (list FetchResponseBroker * Tags) :=
  match num with
  | O => ret st
  | S num' =>
      let '(bs, t) := st in
      let* key := Reader_Uvarint in
      let* st' := (if key =? 0 then
                     let* bs' := read_tagged (read_array (read_len isFlexible) (read_broker isFlexible)) in
                     ret (bs', t)
                   else let* l := Reader_Uvarint in
                        let* val := span_bytes l in ret (bs, <[key := val]> t)) in
      read_response_tags_loop isFlexible num' st'
  end.

Definition read_response_tags (isFlexible : bool) : M Reader (list FetchResponseBroker * Tags) :=
  if isFlexible then
    let* num := Reader_Uvarint in read_response_tags_loop isFlexible (Z.to_nat num) ([], ∅)
  else ret ([], ∅).

Definition read_fetch (version : Z) : M Reader FetchResponse :=
  let isFlexible := 12 <=? version in
  let* throttle := read_if (1 <=? version) Int32 0 in
  let* e := read_if (7 <=? version) Int16 0 in
  let* session := read_if (7 <=? version) Int32 0 in
  let* topics := read_array (read_len isFlexible) (read_fetch_topic version isFlexible) in
  let* (brokers, t) := read_response_tags isFlexible in
  ret {| fr_Version := version; fr_ThrottleMillis := throttle; fr_ErrorCode := e; fr_SessionID := session;
         fr_Topics := topics; fr_Brokers := brokers; fr_UnknownTags := t |}.

Definition FetchResponse_ReadFrom (version : Z) (src : bytes) : res FetchResponse :=
  fst (complete (read_fetch version) (NewReader src)).
