(* ===== verification/Base64.v ===== *)
(** [encoding/base64]'s [StdEncoding], which the vault plugin sends data keys
    in, and that decoding inverts encoding. *)
From Stdlib Require Import ZArith Lia Strings.Byte.
From stdpp Require Import base list strings gmap.
From S2P Require Import Prelude GoLib.

Definition alphabet : bytes := $"ABCDEFGHIJKLMNOPQRSTUVWXYZabcdefghijklmnopqrstuvwxyz0123456789+/".
Definition padChar : byte := Zbyte 61.

Definition sextet_char (i : Z) : byte := default padChar (alphabet !! Z.to_nat (Z.land i 63)).

(** The position of a character in the alphabet. *)
Definition char_sextet (b : byte) : option Z :=
  (fun p => Z.of_nat p.1) <$> list_find (eq b) alphabet.

(** [EncodeToString]: three bytes at a time, the last group padded. *)
Fixpoint EncodeToString (src : bytes) : bytes :=
  match src with
  | [] => []
  | [a] =>
      let val := Z.shiftl (byteZ a) 16 in
      [sextet_char (Z.shiftr val 18); sextet_char (Z.shiftr val 12); padChar; padChar]
  | [a; b] =>
      let val := Z.lor (Z.shiftl (byteZ a) 16) (Z.shiftl (byteZ b) 8) in
      [sextet_char (Z.shiftr val 18); sextet_char (Z.shiftr val 12); sextet_char (Z.shiftr val 6); padChar]
  | a :: b :: c :: src' =>
      let val := Z.lor (Z.lor (Z.shiftl (byteZ a) 16) (Z.shiftl (byteZ b) 8)) (byteZ c) in
      sextet_char (Z.shiftr val 18) :: sextet_char (Z.shiftr val 12) :: sextet_char (Z.shiftr val 6)
        :: sextet_char val :: EncodeToString src'
  end.

Definition CorruptInput : error := Errorf "illegal base64 data at input byte %d".

(** One quantum of four characters, [=] only at the end of the input. *)
Fixpoint decode_quanta (src : bytes) : res bytes :=
  match src with
  | [] => Ok []
  | c0 :: c1 :: c2 :: c3 :: src' =>
      match char_sextet c0, char_sextet c1, char_sextet c2, char_sextet c3 with
      | Some s0, Some s1, Some s2, Some s3 =>
          let val := Z.lor (Z.lor (Z.lor (Z.shiftl s0 18) (Z.shiftl s1 12)) (Z.shiftl s2 6)) s3 in
          let? rest := decode_quanta src' in
          Ok (Zbyte (Z.shiftr val 16) :: Zbyte (Z.shiftr val 8) :: Zbyte val :: rest)
      | Some s0, Some s1, Some s2, None =>
          if decide (c3 = padChar /\ src' = []) then
            let val := Z.lor (Z.lor (Z.shiftl s0 18) (Z.shiftl s1 12)) (Z.shiftl s2 6) in
            Ok [Zbyte (Z.shiftr val 16); Zbyte (Z.shiftr val 8)]
          else Err CorruptInput
      | Some s0, Some s1, None, _ =>
          if decide (c2 = padChar /\ c3 = padChar /\ src' = []) then
            let val := Z.lor (Z.shiftl s0 18) (Z.shiftl s1 12) in
            Ok [Zbyte (Z.shiftr val 16)]
          else Err CorruptInput
      | _, _, _, _ => Err CorruptInput
      end
  | _ => Err CorruptInput
  end.

(** [DecodeString] skips carriage returns and line feeds. *)
Definition is_newline (b : byte) : bool := (byteZ b =? 13) || (byteZ b =? 10).
Definition DecodeString (src : bytes) : res bytes := decode_quanta (filter (fun b => is_newline b = false) src).

(** ** Decoding inverts encoding *)

Lemma land_63 i : Z.land i 63 = i mod 64.
Proof. by apply (Z.land_ones i 6). Qed.

Lemma char_sextet_char i : char_sextet (sextet_char i) = Some (Z.land i 63).
Proof.
  assert (Forall (fun i => char_sextet (default padChar (alphabet !! Z.to_nat i)) = Some i) (seqZ 0 64)) as HF
    by (apply (bool_decide_eq_true_1 _); vm_compute; reflexivity).
  rewrite Forall_forall in HF. unfold sextet_char. apply HF, elem_of_seqZ.
  rewrite land_63. pose proof (Z.mod_pos_bound i 64 ltac:(lia)). lia.
Qed.

Lemma char_sextet_pad : char_sextet padChar = None.
Proof. by vm_compute. Qed.

Lemma sextet_char_newline i : is_newline (sextet_char i) = false.
Proof.
  assert (Forall (fun i => is_newline (default padChar (alphabet !! Z.to_nat i)) = false) (seqZ 0 64)) as HF
    by (apply (bool_decide_eq_true_1 _); vm_compute; reflexivity).
  rewrite Forall_forall in HF. unfold sextet_char. apply HF, elem_of_seqZ.
  rewrite land_63. pose proof (Z.mod_pos_bound i 64 ltac:(lia)). lia.
Qed.

#[local] Opaque sextet_char char_sextet.

Lemma lor_rev4 a b c d : Z.lor (Z.lor (Z.lor a b) c) d = Z.lor (Z.lor (Z.lor d c) b) a.
Proof. apply Z.bits_inj'. intros n _. rewrite !Z.lor_spec. by repeat destruct (Z.testbit _ n). Qed.

Lemma lor_rev3 a b c : Z.lor (Z.lor a b) c = Z.lor (Z.lor c b) a.
Proof. apply Z.bits_inj'. intros n _. rewrite !Z.lor_spec. by repeat destruct (Z.testbit _ n). Qed.

Lemma sextets_value v :
  0 <= v < 2 ^ 24 ->
  Z.lor (Z.lor (Z.lor (Z.shiftl (Z.land (Z.shiftr v 18) 63) 18) (Z.shiftl (Z.land (Z.shiftr v 12) 63) 12))
           (Z.shiftl (Z.land (Z.shiftr v 6) 63) 6)) (Z.land v 63) = v.
Proof.
  intros Hv. rewrite !land_63, !Z.shiftr_div_pow2 by lia.
  change (2 ^ 18) with 262144. change (2 ^ 12) with 4096. change (2 ^ 6) with 64.
  change (2 ^ 24) with 16777216 in Hv.
  pose proof (Z.mod_pos_bound v 64 ltac:(lia)) as H0.
  pose proof (Z.mod_pos_bound (v / 64) 64 ltac:(lia)) as H1.
  pose proof (Z.mod_pos_bound (v / 4096) 64 ltac:(lia)) as H2.
  pose proof (Z.mod_pos_bound (v / 262144) 64 ltac:(lia)) as H3.
  rewrite lor_rev4.
  rewrite (lor_shift_add _ _ 6) by (change (2 ^ 6) with 64; lia). change (2 ^ 6) with 64.
  rewrite (lor_shift_add _ _ 12) by (change (2 ^ 12) with 4096; lia). change (2 ^ 12) with 4096.
  rewrite (lor_shift_add _ _ 18) by (change (2 ^ 18) with 262144; lia). change (2 ^ 18) with 262144.
  assert (0 <= v / 262144 < 64) by (split; [apply Z.div_pos; lia|apply Z.div_lt_upper_bound; lia]).
  rewrite (Z.mod_small (v / 262144)) by lia.
  pose proof (Z.div_mod v 64 ltac:(lia)).
  pose proof (Z.div_mod (v / 64) 64 ltac:(lia)) as E1. rewrite Z.div_div in E1 by lia. change (64 * 64) with 4096 in E1.
  pose proof (Z.div_mod (v / 4096) 64 ltac:(lia)) as E2. rewrite Z.div_div in E2 by lia.
  change (4096 * 64) with 262144 in E2. lia.
Qed.

(** The value of a group of bytes, and the bytes of the value. *)
Lemma group_value a b c :
  let v := Z.lor (Z.lor (Z.shiftl (byteZ a) 16) (Z.shiftl (byteZ b) 8)) (byteZ c) in
  v = byteZ a * 65536 + byteZ b * 256 + byteZ c /\ 0 <= v < 2 ^ 24.
Proof.
  cbv zeta. pose proof (byteZ_range a). pose proof (byteZ_range b). pose proof (byteZ_range c).
  rewrite lor_rev3.
  rewrite (lor_shift_add _ _ 8) by (change (2 ^ 8) with 256; lia). change (2 ^ 8) with 256.
  rewrite (lor_shift_add _ _ 16) by (change (2 ^ 16) with 65536; lia). change (2 ^ 16) with 65536.
  change (2 ^ 24) with 16777216. lia.
Qed.

Lemma group_bytes a b c v :
  v = byteZ a * 65536 + byteZ b * 256 + byteZ c ->
  Zbyte (Z.shiftr v 16) = a /\ Zbyte (Z.shiftr v 8) = b /\ Zbyte v = c.
Proof.
  intros ->. pose proof (byteZ_range a). pose proof (byteZ_range b). pose proof (byteZ_range c).
  rewrite !Z.shiftr_div_pow2 by lia. change (2 ^ 16) with 65536. change (2 ^ 8) with 256.
  replace ((byteZ a * 65536 + byteZ b * 256 + byteZ c) / 65536) with (byteZ a)
    by (apply (Z.div_unique_pos _ _ _ (byteZ b * 256 + byteZ c)); lia).
  replace ((byteZ a * 65536 + byteZ b * 256 + byteZ c) / 256) with (byteZ a * 256 + byteZ b)
    by (apply (Z.div_unique_pos _ _ _ (byteZ c)); lia).
  split_and!.
  - apply Zbyte_byteZ.
  - rewrite <- Zbyte_mod, Z.add_comm, Z.mod_add, Zbyte_mod by lia. apply Zbyte_byteZ.
  - replace (byteZ a * 65536 + byteZ b * 256 + byteZ c) with (byteZ c + (byteZ a * 256 + byteZ b) * 256) by lia.
    rewrite <- Zbyte_mod, Z.mod_add, Zbyte_mod by lia. apply Zbyte_byteZ.
Qed.

(** Induction three elements at a time. *)
Lemma list_ind3 {A} (P : list A -> Prop) :
  P [] -> (forall a, P [a]) -> (forall a b, P [a; b]) ->
  (forall a b c l, P l -> P (a :: b :: c :: l)) -> forall l, P l.
Proof.
  intros H0 H1 H2 H3 l. assert (P l /\ (forall a, P (a :: l)) /\ (forall a b, P (a :: b :: l))) as [H _]; [|done].
  induction l as [|x l (IH1 & IH2 & IH3)]; split_and!; auto.
Qed.

Lemma low_sextet_zero x k : 0 <= k -> Z.land (x * 64 * 2 ^ k) 63 = 0.
Proof.
  intros Hk. rewrite land_63. replace (x * 64 * 2 ^ k) with (x * 2 ^ k * 64) by ring. by apply Z.mod_mul.
Qed.

Lemma decode_quanta_encode src : decode_quanta (EncodeToString src) = Ok src.
Proof.
  induction src as [|a|a b|a b c src IH] using list_ind3; cbn [EncodeToString decode_quanta];
    rewrite ?char_sextet_char, ?char_sextet_pad.
  - reflexivity.
  - rewrite decide_True by (split_and!; reflexivity).
    destruct (group_value a (Zbyte 0) (Zbyte 0)) as [E R].
    change (byteZ (Zbyte 0)) with 0 in E, R. rewrite Z.shiftl_0_l, !Z.lor_0_r in E, R.
    pose proof (sextets_value _ R) as S.
    assert (Z.land (Z.shiftl (byteZ a) 16) 63 = 0 /\ Z.land (Z.shiftr (Z.shiftl (byteZ a) 16) 6) 63 = 0) as [Z0 Z1].
    { rewrite Z.shiftr_shiftl_l, !Z.shiftl_mul_pow2 by lia. split.
      - replace (byteZ a * 2 ^ 16) with (byteZ a * 64 * 2 ^ 10) by lia. by apply low_sextet_zero.
      - replace (byteZ a * 2 ^ (16 - 6)) with (byteZ a * 64 * 2 ^ 4) by lia. by apply low_sextet_zero. }
    rewrite Z0, Z1, Z.shiftl_0_l, !Z.lor_0_r in S. rewrite S.
    by destruct (group_bytes a (Zbyte 0) (Zbyte 0) _ E) as [-> _].
  - rewrite decide_True by (split_and!; reflexivity).
    destruct (group_value a b (Zbyte 0)) as [E R].
    change (byteZ (Zbyte 0)) with 0 in E, R. rewrite !Z.lor_0_r in E, R.
    pose proof (sextets_value _ R) as S.
    assert (Z.land (Z.lor (Z.shiftl (byteZ a) 16) (Z.shiftl (byteZ b) 8)) 63 = 0) as Z0.
    { rewrite E. replace (byteZ a * 65536 + byteZ b * 256 + 0)
        with ((byteZ a * 256 + byteZ b) * 64 * 2 ^ 2) by lia. by apply low_sextet_zero. }
    rewrite Z0, Z.lor_0_r in S. rewrite S.
    by destruct (group_bytes a b (Zbyte 0) _ E) as (-> & -> & _).
  - destruct (group_value a b c) as [E R]. rewrite sextets_value by done. rewrite IH. cbn [rbind].
    by destruct (group_bytes a b c _ E) as (-> & -> & ->).
Qed.

Lemma filter_encode src :
  filter (fun b => is_newline b = false) (EncodeToString src) = EncodeToString src.
Proof.
  assert (forall i l, filter (fun b => is_newline b = false) (sextet_char i :: l)
            = sextet_char i :: filter (fun b => is_newline b = false) l) as Hc
    by (intros i l; apply filter_cons_True, sextet_char_newline).
  assert (forall l, filter (fun b => is_newline b = false) (padChar :: l)
            = padChar :: filter (fun b => is_newline b = false) l) as Hp
    by (intros l; apply filter_cons_True; reflexivity).
  induction src as [|a|a b|a b c src IH] using list_ind3; cbn [EncodeToString];
    rewrite ?Hc, ?Hp; [reflexivity..|]. by rewrite IH.
Qed.

Lemma DecodeString_EncodeToString src : DecodeString (EncodeToString src) = Ok src.
Proof.
  unfold DecodeString. rewrite filter_encode. apply decode_quanta_encode.
Qed.

Example EncodeToString_example : EncodeToString ($"kafka") = $"a2Fma2E=".
Proof. by vm_compute. Qed.
