(* ===== verification/EncryptionPlugins.v ===== *)
(** The encryption plugins as filters (plugin/vault-encryption/main.go,
    plugin/gcp-kms-encryption/main.go): the rewriting of produce requests and
    fetch responses, and the two key management services, Vault's transit
    engine and Google Cloud KMS, whose client libraries are parameters. *)
From Stdlib Require Import ZArith Lia Strings.Byte.
From stdpp Require Import base list strings gmap.
From S2P Require Import Prelude GoLib Filters Kbin Records Encryption EncryptionTheorems Kmsg Base64.

(** ** The two calls of the filter *)

Section plugin.
Context {W : Type} `{KMS W} `{Crypto W}.

(** A loop over a slice whose body updates the element or returns an error. *)
Fixpoint for_each {A} (f : A -> M W A) (l : list A) : M W (list A) :=
  match l with
  | [] => ret []
  | x :: l' => let* x' := f x in let* l'' := for_each f l' in ret (x' :: l'')
  end.

Definition encrypt_partition (tName : bytes) (p : ProduceRequestTopicPartition)
    : M W ProduceRequestTopicPartition :=
  let* newRecords := wrapf (encryptRecords tName (prp_Records p)) "failed to encrypt records" in
  ret {| prp_Partition := prp_Partition p; prp_Records := newRecords; prp_UnknownTags := prp_UnknownTags p |}.

Definition encrypt_topic (t : ProduceRequestTopic) : M W ProduceRequestTopic :=
  let* ps := for_each (encrypt_partition (prt_Topic t)) (prt_Partitions t) in
  ret {| prt_Topic := prt_Topic t; prt_TopicID := prt_TopicID t; prt_Partitions := ps;
         prt_UnknownTags := prt_UnknownTags t |}.

Definition decrypt_partition (tName : bytes) (p : FetchResponseTopicPartition)
    : M W FetchResponseTopicPartition :=
  let* newRecords := wrapf (decryptRecords tName (frp_RecordBatches p)) "failed to decrypt records" in
  ret {| frp_Partition := frp_Partition p; frp_ErrorCode := frp_ErrorCode p;
         frp_HighWatermark := frp_HighWatermark p; frp_LastStableOffset := frp_LastStableOffset p;
         frp_LogStartOffset := frp_LogStartOffset p; frp_DivergingEpoch := frp_DivergingEpoch p;
         frp_CurrentLeader := frp_CurrentLeader p; frp_SnapshotID := frp_SnapshotID p;
         frp_AbortedTransactions := frp_AbortedTransactions p;
         frp_PreferredReadReplica := frp_PreferredReadReplica p; frp_RecordBatches := newRecords;
         frp_UnknownTags := frp_UnknownTags p |}.

Definition decrypt_topic (t : FetchResponseTopic) : M W FetchResponseTopic :=
  let* ps := for_each (decrypt_partition (frt_Topic t)) (frt_Partitions t) in
  ret {| frt_Topic := frt_Topic t; frt_TopicID := frt_TopicID t; frt_Partitions := ps;
         frt_UnknownTags := frt_UnknownTags t |}.

Definition plugin_OnRequest (apiKey apiVersion : Z) (body : bytes) : M W bytes :=
  if negb (apiKey =? 0) then ret body
  else
    let* req := wrapf (lift (ProduceRequest_ReadFrom apiVersion body)) "failed to parse produce request (v%d)" in
    let* topics := for_each encrypt_topic (pr_Topics req) in
    ret (ProduceRequest_AppendTo
           {| pr_Version := pr_Version req; pr_TransactionID := pr_TransactionID req; pr_Acks := pr_Acks req;
              pr_TimeoutMillis := pr_TimeoutMillis req; pr_Topics := topics;
              pr_UnknownTags := pr_UnknownTags req |} []).

Definition plugin_OnResponse (apiKey apiVersion : Z) (body : bytes) : M W bytes :=
  if negb (apiKey =? 1) then ret body
  else
    let* resp := wrapf (lift (FetchResponse_ReadFrom apiVersion body)) "failed to parse fetch response (v%d)" in
    let* topics := for_each decrypt_topic (fr_Topics resp) in
    ret (FetchResponse_AppendTo
           {| fr_Version := fr_Version resp; fr_ThrottleMillis := fr_ThrottleMillis resp;
              fr_ErrorCode := fr_ErrorCode resp; fr_SessionID := fr_SessionID resp; fr_Topics := topics;
              fr_Brokers := fr_Brokers resp; fr_UnknownTags := fr_UnknownTags resp |} []).

(** The filter the plugin process serves. *)
Definition encryption_filter : Filters.filter W :=
  {| OnRequest := plugin_OnRequest; OnResponse := plugin_OnResponse |}.

End plugin.

(** ** Vault *)

(** [client.Logical().Write(path, data)]: the secret may be nil, and its data
    is a map to values of any type, [None] for those that are not strings. *)
Class VaultClient (W : Type) := {
  Logical_Write : bytes -> gmap string bytes -> M W (option (gmap string (option bytes)))
}.

Definition KEK_default : bytes := $"KEK-".

(** The key prefix of [NewVaultEncryptionFilter] and
    [NewGcpKmsEncryptionFilter], from the environment. *)
Definition keyPrefix_of (env : bytes) : bytes := match env with [] => KEK_default | _ => env end.

(** [secret.Data[key].(string)] *)
Definition Data_string (secret : option (gmap string (option bytes))) (key : string) : res bytes :=
  match secret with
  | None => Panic "invalid memory address or nil pointer dereference"
  | Some data =>
      match data !! key with
      | Some (Some s) => Ok s
      | _ => Panic "interface conversion: interface {} is not string"
      end
  end.

Section vault.
Context {W : Type} `{VaultClient W} (keyPrefix : bytes).

Definition vault_wrapDEK (topic dek : bytes) : M W bytes :=
  let* secret := wrapf (Logical_Write ($"transit/encrypt/" ++ keyPrefix ++ topic)
                          {["plaintext"%string := EncodeToString dek]}) "vault encryption failed" in
  lift (Data_string secret "ciphertext").

Definition vault_unwrapDEK (topic encryptedDEK : bytes) : M W bytes :=
  let* secret := wrapf (Logical_Write ($"transit/decrypt/" ++ keyPrefix ++ topic)
                          {["ciphertext"%string := encryptedDEK]}) "vault decryption failed" in
  let* dekBase64 := lift (Data_string secret "plaintext") in
  lift (DecodeString dekBase64).

Definition vault_KMS : KMS W := {| wrapDEK := vault_wrapDEK; unwrapDEK := vault_unwrapDEK |}.

(** [VaultEncryptionFilter] *)
Definition vault_filter `{Crypto W} : Filters.filter W := @encryption_filter W vault_KMS _.
End vault.

(** ** Google Cloud KMS *)

(** [client.Encrypt(name, plaintext)] and [client.Decrypt(name, ciphertext)]. *)
Class GcpKmsClient (W : Type) := {
  gcp_Encrypt : bytes -> bytes -> M W bytes;
  gcp_Decrypt : bytes -> bytes -> M W bytes
}.

Record GcpKmsConfig := { projectID : bytes; location : bytes; keyRing : bytes; keyPrefix : bytes }.

(** [NewGcpKmsEncryptionFilter] after the client was created: the environment
    variables in the order they are checked. *)
Definition NewGcpKmsConfig (Getenv : string -> bytes) : res GcpKmsConfig :=
  let require (name : string) : res bytes :=
    match Getenv name with [] => Err (Errorf "missing environment variable %s") | v => Ok v end in
  let? projectID := require "GCP_PROJECT_ID"%string in
  let? location := require "GCP_LOCATION_ID"%string in
  let? keyRing := require "GCP_KEY_RING_ID"%string in
  Ok {| projectID := projectID; location := location; keyRing := keyRing;
        keyPrefix := keyPrefix_of (Getenv "GCP_KEY_PREFIX"%string) |}.

Section gcp.
Context {W : Type} `{GcpKmsClient W} (f : GcpKmsConfig).

Definition gcp_keyName (topic : bytes) : bytes :=
  $"projects/" ++ projectID f ++ $"/locations/" ++ location f ++ $"/keyRings/" ++ keyRing f ++
  $"/cryptoKeys/" ++ keyPrefix f ++ topic.

Definition gcp_wrapDEK (topic dek : bytes) : M W bytes :=
  wrapf (gcp_Encrypt (gcp_keyName topic) dek) "gcp kms encrypt failed for %s".
Definition gcp_unwrapDEK (topic encryptedDEK : bytes) : M W bytes :=
  wrapf (gcp_Decrypt (gcp_keyName topic) encryptedDEK) "gcp kms decrypt failed".

Definition gcp_KMS : KMS W := {| wrapDEK := gcp_wrapDEK; unwrapDEK := gcp_unwrapDEK |}.

(** [GcpKmsEncryptionFilter]: the methods of the vault plugin, line by line,
    over the other service. *)
Context `{Crypto W}.
Definition gcp_encryptValue : bytes -> bytes -> M W bytes := @encryptValue W gcp_KMS _.
Definition gcp_decryptValue : bytes -> bytes -> M W (option bytes) := @decryptValue W gcp_KMS _.
Definition gcp_encryptRecords : bytes -> option bytes -> M W (option bytes) := @encryptRecords W gcp_KMS _.
Definition gcp_decryptRecords : bytes -> option bytes -> M W (option bytes) := @decryptRecords W gcp_KMS _.
Definition gcp_OnRequest : Z -> Z -> bytes -> M W bytes := @plugin_OnRequest W gcp_KMS _.
Definition gcp_OnResponse : Z -> Z -> bytes -> M W bytes := @plugin_OnResponse W gcp_KMS _.
Definition gcp_filter : Filters.filter W := {| OnRequest := gcp_OnRequest; OnResponse := gcp_OnResponse |}.
End gcp.

(** ** Vault implements the interface *)

(** What the transit engine documents: the ciphertext it returns for a
    base64 plaintext, returned to it under the same key, gives back that
    plaintext in every state in which the engine is [up]; ciphertexts of data
    keys are short. *)
Class VaultTransit (W : Type) `{VaultClient W} (up : W -> Prop) := {
  transit_roundtrip key plaintext w secret c w' :
    Logical_Write ($"transit/encrypt/" ++ key) {["plaintext"%string := plaintext]} w = (Ok secret, w') ->
    Data_string secret "ciphertext" = Ok c ->
    forall w1, up w1 -> exists secret' w2,
      Logical_Write ($"transit/decrypt/" ++ key) {["ciphertext"%string := c]} w1 = (Ok secret', w2) /\
      Data_string secret' "plaintext" = Ok plaintext /\ up w2;
  transit_short key plaintext w secret c w' :
    len plaintext <= 64 ->
    Logical_Write ($"transit/encrypt/" ++ key) {["plaintext"%string := plaintext]} w = (Ok secret, w') ->
    Data_string secret "ciphertext" = Ok c -> len c < 65533
}.

Lemma len_EncodeToString src : len (EncodeToString src) <= 4 * ((len src + 2) / 3).
Proof.
  induction src as [|a|a b|a b c src IH] using list_ind3; [by vm_compute..|].
  cbn [EncodeToString]. rewrite !len_cons.
  replace (1 + (1 + (1 + len src)) + 2) with (len src + 2 + 1 * 3) by lia.
  rewrite Z.div_add by lia. lia.
Qed.

(** A key wrapped by the vault plugin is unwrapped by it, whatever the key
    prefix and the topic: the base64 text sent to the transit engine decodes to
    the key, so that the plugin meets the contract the round trip of its
    records relies on.*)
Theorem vault_unwraps_what_it_wraps {W} `{VaultClient W} (up : W -> Prop) `{!VaultTransit W up}
    (keyPrefix topic dek c : bytes) (w w' : W) :
  len dek = 32 -> vault_wrapDEK keyPrefix topic dek w = (Ok c, w') ->
  len c < 65533 /\
  forall w1, up w1 -> exists w2, vault_unwrapDEK keyPrefix topic c w1 = (Ok dek, w2) /\ up w2.
Proof.
  intros Hd R. unfold vault_wrapDEK in R. apply bind_inv in R as (secret & w2 & R1 & R2).
  apply wrapf_Ok in R1. unfold lift in R2. injection R2 as R2 _. split.
  - eapply transit_short; [|exact R1|exact R2]. pose proof (len_EncodeToString dek) as Hl.
    rewrite Hd in Hl. change (4 * ((32 + 2) / 3)) with 44 in Hl. lia.
  - intros w1 Hw1. destruct (transit_roundtrip _ _ _ _ _ _ R1 R2 w1 Hw1) as (secret' & w3 & E1 & E2 & Hw3).
    exists w3. split; [|done]. unfold vault_unwrapDEK.
    erewrite bind_Ok by (apply wrapf_run, E1). erewrite bind_Ok by (unfold lift; by rewrite E2).
    unfold lift. by rewrite DecodeString_EncodeToString.
Qed.

(** A transit engine that prefixes the plaintext. *)
Definition echo_write (path : bytes) (data : gmap string bytes) : res (option (gmap string (option bytes))) :=
  match data !! "plaintext"%string, data !! "ciphertext"%string with
  | Some p, _ => Ok (Some {["ciphertext"%string := Some ($"vault:v1:" ++ p)]})
  | None, Some c => Ok (Some {["plaintext"%string := Some (drop 9 c)]})
  | None, None => Ok None
  end.
Definition echo_vault : VaultClient unit := {| Logical_Write := fun path data => lift (echo_write path data) |}.

Lemma echo_transit : @VaultTransit unit echo_vault (fun _ => True).
Proof.
  split.
  - intros key plaintext [] secret c [] E1 E2 [] _. cbn in E1. injection E1 as <-.
    cbn in E2. injection E2 as <-. eexists _, tt. split_and!; reflexivity.
  - intros key plaintext [] secret c [] Hl E1 E2. cbn in E1. injection E1 as <-.
    change (Ok ($"vault:v1:" ++ plaintext) = Ok c) in E2. injection E2 as <-.
    change (len ($"vault:v1:" ++ plaintext) < 65533). rewrite len_app. change (len ($"vault:v1:")) with 9. lia.
Qed.

Definition example_dek : bytes := replicate 32 (Zbyte 7).

Lemma vault_unwraps_what_it_wraps_witness :
  len ($"vault:v1:" ++ EncodeToString example_dek) < 65533 /\
  forall w1 : unit, True -> exists w2,
    @vault_unwrapDEK unit echo_vault ($"KEK-") ($"t") ($"vault:v1:" ++ EncodeToString example_dek) w1
      = (Ok example_dek, w2) /\ True.
Proof.
  apply (@vault_unwraps_what_it_wraps unit echo_vault (fun _ => True) echo_transit ($"KEK-") ($"t")
           example_dek _ tt tt).
  - reflexivity.
  - vm_compute. reflexivity.
Defined.
