(* ===== verification/EncryptionProxy.v ===== *)
(** The encryption filters behind the proxy.  The proxy hands its filters
    whole messages, headers included (processor_default.go); the plugins parse
    what they are handed as the body of a produce request or of a fetch
    response.  What that makes of ordinary requests and responses. *)
From Stdlib Require Import ZArith Lia Strings.Byte.
From stdpp Require Import base list strings gmap.
From S2P Require Import Prelude GoLib GoStrings OAuthBearer Encoder Decoder Errors Schema Messages Net Filters SaslLocal Responses Auth SaslTheorems Processor ProcessorFacts ProcessorTheorems Kbin Records Encryption EncryptionTheorems Kmsg EncryptionPlugins.

(** ** Reading bytes that are not what they are read as *)

Lemma raw_reads n conv b : length b = n -> reads (read_fixed n conv) b (conv (be_value b)).
Proof.
  intros Hn. pose proof (read_fixed_reads n conv (be_value b)) as H.
  rewrite be_put_value_length in H by done. pose proof (be_value_range b) as Hr.
  rewrite Z.mod_small in H by (unfold len in Hr; rewrite Hn in Hr; lia). done.
Qed.

Lemma reads_at {A} (m : M Reader A) bs a rest :
  reads m bs a -> m (NewReader (bs ++ rest)) = (Ok a, NewReader rest).
Proof. intros H. apply H. Qed.

Lemma bind_reads {A B} (m : M Reader A) (k : A -> M Reader B) bs a rest :
  reads m bs a -> bind m k (NewReader (bs ++ rest)) = k a (NewReader rest).
Proof. intros H. by erewrite bind_Ok by apply H. Qed.

Lemma be_value_app a b : be_value (a ++ b) = be_value a * 256 ^ len b + be_value b.
Proof.
  induction a as [|x a IH]; [done|]. cbn [app be_value]. rewrite IH, len_app, Z.pow_add_r by len_lia. lia.
Qed.

(** An array length that begins with the two bytes of a positive [n] is more
    than 64 Ki elements. *)
Lemma huge_array {A} (elem : M Reader A) n tail :
  0 < n < 32768 -> len tail < 65536 * n ->
  read_array ArrayLen elem (NewReader (be_put 2 n ++ tail)) = (Err ErrNotEnoughData, invalidated).
Proof.
  intros Hn Ht. unfold read_array, ArrayLen. rewrite bind_assoc.
  destruct (Z.ltb_spec (len tail) 2) as [Hs|Hs].
  - unfold bind at 1, Int32, read_fixed. rewrite src_NewReader, len_app, len_be_put.
    replace (_ <? _) with true by (symmetry; apply Z.ltb_lt; lia). done.
  - pose proof (take_drop 2 tail) as E. rewrite <- E. rewrite app_assoc.
    unfold len in Hs.
    assert (length (take 2 tail) = 2%nat) as Hl by (rewrite length_take; lia).
    rewrite (bind_reads Int32 _ (be_put 2 n ++ take 2 tail) (int32 (be_value (be_put 2 n ++ take 2 tail))))
      by (apply raw_reads; rewrite length_app, length_be_put, Hl; lia).
    rewrite be_value_app, be_value_put. unfold len at 1. rewrite Hl.
    change (256 ^ Z.of_nat 2) with 65536. rewrite Z.mod_small by lia.
    pose proof (be_value_range (take 2 tail)) as Hr. unfold len in Hr. rewrite Hl in Hr.
    change (256 ^ Z.of_nat 2) with 65536 in Hr.
    rewrite wrapS_id by (unfold inS; change (2 ^ (32 - 1)) with 2147483648; lia).
    unfold bind at 1, checked_len. rewrite src_NewReader.
    replace (_ <? _) with true.
    2:{ symmetry. apply Z.ltb_lt. unfold len in *. rewrite length_drop. lia. }
    done.
Qed.

(** One that begins with [-1] is negative: no element is read. *)
Lemma negative_array {A} (elem : M Reader A) tail :
  2 <= len tail ->
  read_array ArrayLen elem (NewReader (be_put 2 (-1) ++ tail)) = (Ok [], NewReader (drop 2 tail)).
Proof.
  intros Hs. unfold read_array, ArrayLen. rewrite bind_assoc.
  pose proof (take_drop 2 tail) as E. rewrite <- E at 1. rewrite app_assoc. unfold len in Hs.
  assert (length (take 2 tail) = 2%nat) as Hl by (rewrite length_take; lia).
  rewrite (bind_reads Int32 _ (be_put 2 (-1) ++ take 2 tail) (int32 (be_value (be_put 2 (-1) ++ take 2 tail))))
    by (apply raw_reads; rewrite length_app, length_be_put, Hl; lia).
  rewrite be_value_app, be_value_put. unfold len at 1. rewrite Hl.
  change (256 ^ Z.of_nat 2) with 65536. change (-1 mod 65536) with 65535.
  pose proof (be_value_range (take 2 tail)) as Hr. unfold len in Hr. rewrite Hl in Hr.
  change (256 ^ Z.of_nat 2) with 65536 in Hr.
  assert (int32 (65535 * 65536 + be_value (take 2 tail)) = be_value (take 2 tail) - 65536) as ->.
  { unfold wrapS. change (2 ^ (32 - 1)) with 2147483648. change (2 ^ 32) with 4294967296.
    replace (65535 * 65536 + be_value (take 2 tail) + 2147483648)
      with (be_value (take 2 tail) - 65536 + 2147483648 + 1 * 4294967296) by lia.
    rewrite Z.mod_add, Z.mod_small by lia. lia. }
  unfold bind at 1, checked_len. rewrite src_NewReader.
  replace (_ <? _) with false by (symmetry; apply Z.ltb_ge; len_lia).
  unfold bind, check_ok, Complete. cbn [bad NewReader].
  replace (Z.to_nat _) with O by lia. done.
Qed.

(** ** A produce request with its header, read as a body *)

Section filtered.
Context {X : Type} `{HK : KMS X} `{HC : Crypto X}.
Implicit Types (x : X) (body client payload : bytes).

(** The API key is taken for the length of an empty transactional id. *)
Lemma api_key_is_a_transaction : reads NullableString (be_put 2 0) (Some []).
Proof.
  rewrite <- (app_nil_r (be_put 2 0)). unfold NullableString.
  eapply reads_bind; [by apply Int16_reads|].
  change (0 <? 0) with false. cbv iota.
  eapply reads_bind_nil; [apply (span_bytes_reads [])|apply reads_ret].
Qed.

(** The fields of a classic produce request (versions 3 to 8) before its
    topics, when they are read from a request header. *)
Lemma produce_header_read v corr tail :
  3 <= v <= 8 ->
  read_produce v (NewReader (be_put 2 0 ++ be_put 2 v ++ be_put 4 corr ++ tail)) =
  (let* topics := read_array ArrayLen (read_produce_topic v false) in
   ret {| pr_Version := v; pr_TransactionID := Some []; pr_Acks := v; pr_TimeoutMillis := int32 (corr mod 2 ^ 32);
          pr_Topics := topics; pr_UnknownTags := ∅ |}) (NewReader tail).
Proof.
  intros Hv. unfold read_produce.
  replace (9 <=? v) with false by (symmetry; apply Z.leb_gt; lia).
  replace (3 <=? v) with true by (symmetry; apply Z.leb_le; lia).
  cbn [read_if read_nstring read_len read_tags].
  rewrite (bind_reads _ _ _ _ _ api_key_is_a_transaction).
  rewrite (bind_reads _ _ (be_put 2 v) v)
    by (apply Int16_reads; unfold inS; change (2 ^ (16 - 1)) with 32768; lia).
  rewrite (bind_reads _ _ _ _ _ (read_fixed_reads 4 int32 corr)).
  unfold bind at 1 3. destruct (read_array _ _ _) as [[]]; done.
Qed.

(** The nullable client id of a request header. *)
Definition client_id (client : option bytes) : bytes := AppendNullableString [] client.

Lemma client_id_Some client : len client < 32768 -> client_id (Some client) = be_put 2 (len client) ++ client.
Proof.
  intros Hl. unfold client_id, AppendNullableString, AppendString, AppendInt16.
  rewrite wrapS_id; [done|lia|]. unfold inS. change (2 ^ (16 - 1)) with 32768. len_lia.
Qed.

Lemma produce_misread v corr client body x :
  3 <= v <= 8 -> 0 < len client < 32768 -> len body < 65535 * len client ->
  plugin_OnRequest 0 v (be_put 2 0 ++ be_put 2 v ++ be_put 4 corr ++ client_id (Some client) ++ body) x
  = (Err (Wrapf ErrNotEnoughData "failed to parse produce request (v%d)"), x).
Proof.
  intros Hv Hc Hb. unfold plugin_OnRequest. cbn [negb Z.eqb].
  unfold ProduceRequest_ReadFrom, complete. unfold bind at 2.
  rewrite produce_header_read, client_id_Some, <- app_assoc by lia.
  unfold bind at 2. rewrite huge_array by len_lia. done.
Qed.

(** Without a client id everything after the correlation id is lost. *)
Lemma produce_truncated v corr body x :
  3 <= v <= 8 -> 2 <= len body ->
  plugin_OnRequest 0 v (be_put 2 0 ++ be_put 2 v ++ be_put 4 corr ++ client_id None ++ body) x
  = (Ok (be_put 2 0 ++ be_put 2 v ++ be_put 4 corr ++ be_put 4 0), x).
Proof.
  intros Hv Hb. unfold plugin_OnRequest. cbn [negb Z.eqb].
  unfold ProduceRequest_ReadFrom, complete. unfold bind at 2. rewrite produce_header_read by done.
  change (client_id None) with (be_put 2 (-1)). unfold bind at 2. rewrite negative_array by done.
  unfold ret, bind, Complete, wrapf, lift. cbn [bad NewReader fst pr_Topics for_each].
  unfold ProduceRequest_AppendTo. cbn [pr_Version pr_TransactionID pr_Acks pr_TimeoutMillis pr_Topics pr_UnknownTags].
  replace (9 <=? v) with false by (symmetry; apply Z.leb_gt; lia).
  replace (3 <=? v) with true by (symmetry; apply Z.leb_le; lia).
  cbn [append_nstring AppendNullableString append_len append_tags_if foldl].
  unfold AppendString, AppendArrayLen, AppendInt32, AppendInt16. rewrite be_put_int32.
  change (2 ^ 32) with (256 ^ Z.of_nat 4). rewrite be_put_mod. by rewrite <- !app_assoc.
Qed.

(** ** A fetch response with its correlation id, read as a body *)

(** Versions 7 to 11 of a response whose session id is 0, as every response
    to a request outside a fetch session: the correlation id is taken for the
    throttle time, and the session id for the number of topics. *)
Lemma fetch_truncated v corr throttle errorCode topics x :
  7 <= v <= 11 ->
  plugin_OnResponse 1 v
    (be_put 4 corr ++ be_put 4 throttle ++ be_put 2 errorCode ++ be_put 4 0 ++ topics) x
  = (Ok (be_put 4 corr ++ be_put 4 throttle ++ be_put 2 errorCode ++ be_put 4 0), x).
Proof.
  intros Hv. unfold plugin_OnResponse. cbn [negb Z.eqb Pos.eqb].
  set (b2 := take 2 (be_put 4 throttle)). set (b4 := drop 2 (be_put 4 throttle) ++ be_put 2 errorCode).
  assert (be_put 4 throttle ++ be_put 2 errorCode = b2 ++ b4) as E
    by (unfold b2, b4; by rewrite app_assoc, take_drop).
  assert (length b2 = 2%nat) as L2 by (unfold b2; by rewrite length_take, length_be_put).
  assert (length b4 = 4%nat) as L4 by (unfold b4; by rewrite length_app, length_drop, !length_be_put).
  rewrite !(app_assoc (be_put 4 throttle)), E, <- !app_assoc.
  assert (checked_len 0 (NewReader topics) = (Ok 0, NewReader topics)) as Hz.
  { unfold checked_len. rewrite src_NewReader.
    by replace (len topics <? 0) with false by (symmetry; apply Z.ltb_ge; len_lia). }
  assert (FetchResponse_ReadFrom v (be_put 4 corr ++ b2 ++ b4 ++ be_put 4 0 ++ topics) = Ok
    {| fr_Version := v; fr_ThrottleMillis := int32 (corr mod 256 ^ Z.of_nat 4);
       fr_ErrorCode := int16 (be_value b2); fr_SessionID := int32 (be_value b4);
       fr_Topics := []; fr_Brokers := []; fr_UnknownTags := ∅ |}) as HR.
  { unfold FetchResponse_ReadFrom, complete, read_fetch.
    replace (12 <=? v) with false by (symmetry; apply Z.leb_gt; lia).
    replace (1 <=? v) with true by (symmetry; apply Z.leb_le; lia).
    replace (7 <=? v) with true by (symmetry; apply Z.leb_le; lia).
    cbn [read_if read_len read_response_tags]. rewrite !bind_assoc.
    rewrite (bind_reads _ _ _ _ _ (read_fixed_reads 4 int32 corr)). rewrite !bind_assoc.
    rewrite (bind_reads _ _ _ _ _ (raw_reads 2 int16 b2 L2)). rewrite !bind_assoc.
    rewrite (bind_reads _ _ _ _ _ (raw_reads 4 int32 b4 L4)).
    unfold read_array at 1, ArrayLen. rewrite !bind_assoc.
    rewrite (bind_reads _ _ (be_put 4 0) 0) by (by apply Int32_reads).
    by rewrite (bind_Ok _ _ _ _ _ Hz). }
  erewrite bind_Ok by (unfold wrapf, lift; rewrite HR; reflexivity).
  cbn [fr_Topics for_each]. unfold ret, bind. f_equal. f_equal. unfold FetchResponse_AppendTo.
  cbn [fr_Version fr_ThrottleMillis fr_ErrorCode fr_SessionID fr_Topics fr_Brokers fr_UnknownTags].
  replace (12 <=? v) with false by (symmetry; apply Z.leb_gt; lia).
  replace (1 <=? v) with true by (symmetry; apply Z.leb_le; lia).
  replace (7 <=? v) with true by (symmetry; apply Z.leb_le; lia).
  cbn [append_len foldl]. unfold AppendArrayLen, AppendInt32, AppendInt16.
  rewrite !be_put_int32, (be_put_wrapS 2), !be_put_value_length by (done || lia).
  rewrite be_put_mod. by rewrite <- !app_assoc.
Qed.

End filtered.

(** ** Behind the proxy *)

(** The request frame of a client that names itself, as the proxy reads it. *)
Definition produce_payload (corr : Z) (client : option bytes) (body : bytes) : bytes :=
  be_put 4 corr ++ client_id client ++ body.

(** A frame read in one way is read in no other. *)
Lemma frame_payload (L L' : Z) (payload payload' rest rest' : bytes) :
  be_put 4 L ++ payload ++ rest = be_put 4 L' ++ payload' ++ rest' ->
  0 <= L < 2 ^ 31 -> 0 <= L' < 2 ^ 31 -> len payload = L -> len payload' = L' -> payload = payload'.
Proof.
  intros E HL HL' Hl Hl'. apply app_inj_1 in E as [E1 E2]; [|by rewrite !length_be_put].
  apply (f_equal be_value) in E1. rewrite !be_value_put in E1. change (256 ^ Z.of_nat 4) with (2 ^ 32) in E1.
  rewrite !Z.mod_small in E1 by lia. apply app_inj_1 in E2 as [E2 _]; [done|]. unfold len in *. lia.
Qed.

Lemma be_put_2_inj x y : inS 16 x -> inS 16 y -> be_put 2 x = be_put 2 y -> x = y.
Proof.
  intros Hx Hy E. apply (f_equal be_value) in E. rewrite !be_value_put in E.
  change (256 ^ Z.of_nat 2) with (2 ^ 16) in E. fold (wrapU 16 x) (wrapU 16 y) in E.
  apply (f_equal (wrapS 16)) in E. by rewrite !wrapS_wrapU, !wrapS_id in E by (done || lia).
Qed.

(** A request whose filters fail reaches no broker. *)
Lemma filters_fail {X} (Error_text : error -> bytes) (p : processor X) (chain : list (Filters.filter X))
    (r : RequestKeyVersion) (content rest : bytes) (e : error) (w : world X) :
  filterChain p = Some chain ->
  (enabled (localSasl p) = true -> localSaslDone w = true) ->
  inS 16 (ApiKey r) -> inS 16 (ApiVersion r) -> Length r = 4 + len content -> Length r < 2 ^ 31 ->
  rx (client w) = request_frame_bytes r content ++ rest ->
  (forall x, fst (ApplyRequestFilters chain (ApiKey r) (ApiVersion r)
                    (be_put 2 (ApiKey r) ++ be_put 2 (ApiVersion r) ++ content) x) = Err e) ->
  (forall u, fst (handleRequest Error_text p w) <> Ok u) /\
  tx (broker (snd (handleRequest Error_text p w))) = tx (broker w).
Proof.
  intros Hf Hs Hk Hv HL Hlt Hrx He.
  pose proof (broker_is_readRequestStage Error_text p (broker w) w eq_refl) as Hb.
  unfold handleRequest, bind. destruct (readRequestStage Error_text p w) as [[[|r1 payload' mr]|err|msg] w1] eqn:E;
    cbn [fst snd] in *; [| |by rewrite Hb|by rewrite Hb].
  - apply readRequestStage_Handled in E as (A & B & _). rewrite (Hs A) in B. discriminate.
  - exfalso. apply readRequestStage_Forward in E
      as (L & payload & rest' & x' & A & B & C & D & Ik & Iv & F & _).
    assert (payload = be_put 2 (ApiKey r) ++ be_put 2 (ApiVersion r) ++ content) as ->.
    { rewrite A in Hrx. unfold request_frame_bytes in Hrx. pose proof (len_nonneg content).
      rewrite <- (app_assoc (be_put 4 (Length r))) in Hrx.
      eapply frame_payload; [exact Hrx|lia|lia|done|]. rewrite !len_app, !len_be_put. lia. }
    rewrite app_assoc, take_app_length' in D by (by rewrite length_app, !length_be_put).
    apply app_inj_1 in D as [D1 D2]; [|by rewrite !length_be_put].
    apply be_put_2_inj in D1; [|done..]. apply be_put_2_inj in D2; [|done..].
    unfold request_filtered in F. rewrite Hf, <- D1, <- D2 in F. specialize (He (ext w)).
    by rewrite F in He.
Qed.

(** C7: with the encryption filter as the only filter, a produce request of
    versions 3 to 8 does not get through when its client id is not empty and
    the body after the client id is shorter than 65535 bytes for each byte of
    the client id: the filter is handed the request with its header, fails to
    parse it, and the handler ends with an error before a byte reaches the
    broker.  (What the filter takes for an array holds more elements than such
    a body has bytes; about longer, crafted bodies nothing is said.) *)
Theorem encryption_filter_rejects_produce {X} `{KMS X} `{Crypto X} (Error_text : error -> bytes)
    (p : processor X) (r : RequestKeyVersion) (corr : Z) (clientId body rest : bytes) (w : world X) :
  filterChain p = Some [encryption_filter] ->
  (enabled (localSasl p) = true -> localSaslDone w = true) ->
  ApiKey r = 0 -> 3 <= ApiVersion r <= 8 -> 0 < len clientId < 32768 -> len body < 65535 * len clientId ->
  Length r = 4 + len (produce_payload corr (Some clientId) body) -> Length r < 2 ^ 31 ->
  rx (client w) = request_frame_bytes r (produce_payload corr (Some clientId) body) ++ rest ->
  (forall u, fst (handleRequest Error_text p w) <> Ok u) /\
  tx (broker (snd (handleRequest Error_text p w))) = tx (broker w).
Proof.
  intros Hf Hs Hk Hv Hc Hb HL Hlt Hrx.
  eapply (filters_fail Error_text p _ r _ rest _ w Hf Hs); [..|exact HL|exact Hlt|exact Hrx|].
  - rewrite Hk. by apply zero_inS.
  - unfold inS. change (2 ^ (16 - 1)) with 32768. lia.
  - intros x. rewrite Hk. cbn [ApplyRequestFilters]. unfold bind, produce_payload.
    change (OnRequest encryption_filter) with plugin_OnRequest.
    by rewrite produce_misread.
Qed.

(** A produce request, version 7, of the client [rdkafka]. *)
Definition example_produce_body : bytes :=
  be_put 2 (-1) ++ be_put 2 1 ++ be_put 4 30000 ++ be_put 4 1 ++ be_put 2 1 ++ $"t" ++ be_put 4 1 ++
  be_put 4 0 ++ be_put 4 (len example_batches) ++ example_batches.
Definition example_produce : RequestKeyVersion :=
  {| Length := 4 + len (produce_payload 5 (Some ($"rdkafka")) example_produce_body);
     ApiKey := 0; ApiVersion := 7 |}.
Definition toy_filter : Filters.filter nat := @encryption_filter nat toy_KMS toy_Crypto.
Definition encrypting_processor : processor nat := newProcessor
  {| MaxOpenRequests := 1; cfg_NetAddressMappingFunc := None;
     cfg_RequestBufferSize := 0; cfg_ResponseBufferSize := 0;
     cfg_LocalSasl := NewLocalSasl false None None;
     cfg_AuthServer := {| as_enabled := false; as_magic := 0; as_method := [];
                          as_tokenInfo := fun _ => ret (false, 0) |};
     cfg_ForbiddenApiKeys := []; cfg_ProducerAcks0Disabled := false; cfg_FilterChain := Some [toy_filter] |}.
Definition producing_world : world nat :=
  initial (peer (request_frame_bytes example_produce
                   (produce_payload 5 (Some ($"rdkafka")) example_produce_body))) (peer []) 0%nat.

Lemma encryption_filter_rejects_produce_witness :
  (forall u, fst (handleRequest example_text encrypting_processor producing_world) <> Ok u) /\
  tx (broker (snd (handleRequest example_text encrypting_processor producing_world)))
    = tx (broker producing_world).
Proof.
  apply (@encryption_filter_rejects_produce nat toy_KMS toy_Crypto example_text encrypting_processor
           example_produce 5 ($"rdkafka") example_produce_body [] producing_world).
  - reflexivity.
  - discriminate.
  - reflexivity.
  - bounds.
  - bounds.
  - bounds.
  - reflexivity.
  - bounds.
  - vm_compute. reflexivity.
Defined.

(** Behind the encryption filter a fetch response of versions 7 to 11 that
    belongs to no fetch session, as the first response of every consumer, is
    cut to its first fourteen bytes: the client is sent the correlation id, the
    throttle time, the error code and a session id, and none of the topics,
    whatever the broker sent and whether or not it was encrypted.*)
Theorem encryption_filter_drops_fetched_topics {X} `{KMS X} `{Crypto X} (p : processor X)
    (r : RequestKeyVersion) (q : list RequestKeyVersion) (corr throttle errorCode : Z)
    (topics rest : bytes) (w : world X) :
  filterChain p = Some [encryption_filter] -> healthy w ->
  ApiKey r = 1 -> 7 <= ApiVersion r <= 11 -> openRequestsChannel w = r :: q ->
  rx (broker w) = response_frame_bytes corr []
                    (be_put 4 throttle ++ be_put 2 errorCode ++ be_put 4 0 ++ topics) ++ rest ->
  len topics < 2 ^ 31 - 14 -> inS 32 corr -> header_tags r [] ->
  exists w',
    handleResponse p w = (Ok tt, w') /\ ext w' = ext w /\
    tx (client w') = tx (client w) ++ be_put 4 14 ++ be_put 4 corr ++ be_put 4 throttle ++
                     be_put 2 errorCode ++ be_put 4 0.
Proof.
  intros Hf Hw Hk Hv Hq Hrx Hl Hc Ht. eexists. split.
  - eapply (handleResponse_run_filtered p r q corr [] _ _ _ rest (ext w) (ext w) w Hw Hq Hrx); try done.
    + rewrite !len_app, !len_be_put. change (len (@nil byte)) with 0. len_lia.
    + unfold modifyResponse, GetResponseModifier. rewrite Hk. reflexivity.
    + unfold response_filtered. rewrite Hf, Hk, app_nil_l.
      unfold ApplyResponseFilters. cbn [length ApplyResponseFilters_loop lookup list_lookup].
      unfold bind. change (OnResponse encryption_filter) with plugin_OnResponse.
      rewrite fetch_truncated by done. reflexivity.
  - split; [done|]. cbn [client set_channels set_ext sent_to_client set_client tx set_tx broker_left set_broker].
    rewrite !len_app, !len_be_put. by rewrite <- ?app_assoc.
Qed.

(** A response of a broker to a fetch of version 11, with a topic. *)
Definition example_fetch : RequestKeyVersion := {| Length := 0; ApiKey := 1; ApiVersion := 11 |}.
Definition fetching_world : world nat :=
  set_channels [example_fetch] [] []
    (initial (peer []) (peer (response_frame_bytes 6 [] (be_put 4 0 ++ be_put 2 0 ++ be_put 4 0 ++ $"topics"))) 0%nat).

Lemma encryption_filter_drops_fetched_topics_witness :
  exists w',
    handleResponse encrypting_processor fetching_world = (Ok tt, w') /\ ext w' = ext fetching_world /\
    tx (client w') = tx (client fetching_world) ++ be_put 4 14 ++ be_put 4 6 ++ be_put 4 0 ++
                     be_put 2 0 ++ be_put 4 0.
Proof.
  apply (@encryption_filter_drops_fetched_topics nat toy_KMS toy_Crypto encrypting_processor
           example_fetch [] 6 0 0 ($"topics") [] fetching_world).
  - reflexivity.
  - by split.
  - reflexivity.
  - bounds.
  - reflexivity.
  - vm_compute. reflexivity.
  - bounds.
  - bounds.
  - reflexivity.
Defined.
