(* ===== verification/Utf8.v ===== *)
(** Go's conversions between strings and runes: [[]rune(s)] decodes UTF-8, each
    byte that starts no valid sequence giving one U+FFFD, and [string(r)]
    encodes. *)
From Stdlib Require Import ZArith Lia Strings.Byte.
From stdpp Require Import base list strings gmap.
From S2P Require Import Prelude GoLib.

Abbreviation rune := Z.
Definition RuneError : rune := 65533.

(** The runes of an ASCII literal. *)
Definition runes_of_ascii (s : bytes) : list rune := byteZ <$> s.

Definition within (lo hi : Z) (b : byte) : bool := (lo <=? byteZ b) && (byteZ b <=? hi).
(** The six low bits of a continuation byte. *)
Definition cont_bits (b : byte) : Z := Z.land (byteZ b) 63.
Definition continues : byte -> bool := within 128 191.

(** The second bytes that may follow a first one of a sequence of three or four
    bytes (no overlong sequence, no surrogate, nothing above U+10FFFF). *)
Definition second_of_3 (b0 : byte) : byte -> bool :=
  if byteZ b0 =? 224 then within 160 191 else if byteZ b0 =? 237 then within 128 159 else continues.
Definition second_of_4 (b0 : byte) : byte -> bool :=
  if byteZ b0 =? 240 then within 144 191 else if byteZ b0 =? 244 then within 128 143 else continues.

Definition rune2 (b0 b1 : byte) : rune := Z.lor (Z.shiftl (Z.land (byteZ b0) 31) 6) (cont_bits b1).
Definition rune3 (b0 b1 b2 : byte) : rune :=
  Z.lor (Z.lor (Z.shiftl (Z.land (byteZ b0) 15) 12) (Z.shiftl (cont_bits b1) 6)) (cont_bits b2).
Definition rune4 (b0 b1 b2 b3 : byte) : rune :=
  Z.lor (Z.lor (Z.lor (Z.shiftl (Z.land (byteZ b0) 7) 18) (Z.shiftl (cont_bits b1) 12))
    (Z.shiftl (cont_bits b2) 6)) (cont_bits b3).

(** [[]rune(s)] *)
Fixpoint runes (s : bytes) : list rune :=
  match s with
  | [] => []
  | b0 :: s1 =>
      if byteZ b0 <? 128 then byteZ b0 :: runes s1
      else match s1 with
      | [] => [RuneError]
      | b1 :: s2 =>
          if within 194 223 b0 && continues b1 then rune2 b0 b1 :: runes s2
          else match s2 with
          | [] => RuneError :: runes s1
          | b2 :: s3 =>
              if within 224 239 b0 && second_of_3 b0 b1 && continues b2 then rune3 b0 b1 b2 :: runes s3
              else match s3 with
              | [] => RuneError :: runes s1
              | b3 :: s4 =>
                  if within 240 244 b0 && second_of_4 b0 b1 && continues b2 && continues b3
                  then rune4 b0 b1 b2 b3 :: runes s4
                  else RuneError :: runes s1
              end
          end
      end
  end.

(** [utf8.AppendRune(nil, r)] *)
Definition encode_rune (r : rune) : bytes :=
  if (0 <=? r) && (r <? 128) then [Zbyte r]
  else if (0 <=? r) && (r <? 2048) then [Zbyte (192 + r / 64); Zbyte (128 + r mod 64)]
  else
    let r := if (r <? 0) || (1114111 <? r) || ((55296 <=? r) && (r <=? 57343)) then RuneError else r in
    if r <? 65536 then [Zbyte (224 + r / 4096); Zbyte (128 + r / 64 mod 64); Zbyte (128 + r mod 64)]
    else [Zbyte (240 + r / 262144); Zbyte (128 + r / 4096 mod 64); Zbyte (128 + r / 64 mod 64); Zbyte (128 + r mod 64)].

(** [string(l)] of a slice of runes. *)
Definition string_of (l : list rune) : bytes := l ≫= encode_rune.

Example runes_euro : runes [x45; xe2; x82; xac; xff; xc3; xa9] = [69; 8364; 65533; 233].
Proof. reflexivity. Qed.
Example string_of_euro : string_of [69; 8364; 233; 128512] = [x45; xe2; x82; xac; xc3; xa9; xf0; x9f; x98; x80].
Proof. reflexivity. Qed.

(** ** ASCII *)

Definition ascii (s : bytes) : Prop := Forall (fun b => byteZ b < 128) s.
Definition ascii_runes (l : list rune) : Prop := Forall (fun r => 0 <= r < 128) l.

#[export] Instance ascii_dec s : Decision (ascii s).
Proof. unfold ascii. apply _. Defined.

Lemma runes_ascii s : ascii s -> runes s = runes_of_ascii s.
Proof.
  unfold ascii. induction 1 as [|b s Hb _ IH]; [done|]. cbn [runes runes_of_ascii fmap list_fmap] in *.
  rewrite (proj2 (Z.ltb_lt _ _) Hb). by rewrite IH.
Qed.

Lemma ascii_runes_of s : ascii s -> ascii_runes (runes_of_ascii s).
Proof.
  unfold ascii, ascii_runes, runes_of_ascii. intros H. apply Forall_fmap. eapply Forall_impl; [exact H|].
  intros b Hb. split; [apply byteZ_range|done].
Qed.

Lemma string_of_app l l' : string_of (l ++ l') = string_of l ++ string_of l'.
Proof. unfold string_of. by rewrite bind_app. Qed.

Lemma string_of_ascii l : ascii_runes l -> string_of l = Zbyte <$> l.
Proof.
  unfold ascii_runes. induction 1 as [|r l Hr _ IH]; [done|]. change (r :: l) with ([r] ++ l).
  rewrite string_of_app, IH. cbn. unfold encode_rune.
  by rewrite (proj2 (Z.leb_le _ _) (proj1 Hr)), (proj2 (Z.ltb_lt _ _) (proj2 Hr)).
Qed.

Lemma ascii_string_of l : ascii_runes l -> ascii (string_of l).
Proof.
  intros H. rewrite string_of_ascii by done. unfold ascii. apply Forall_fmap. eapply Forall_impl; [exact H|].
  intros r Hr. cbv beta in Hr. unfold compose. rewrite byteZ_Zbyte, Z.mod_small by lia. apply Hr.
Qed.

Lemma string_of_runes s : ascii s -> string_of (runes s) = s.
Proof.
  intros H. rewrite runes_ascii by done. rewrite string_of_ascii by (by apply ascii_runes_of).
  unfold runes_of_ascii. induction s as [|b s IH]; [done|]. cbn [fmap list_fmap].
  inversion_clear H. rewrite Zbyte_byteZ, IH by done. done.
Qed.

(** Decoding never gives more runes than bytes. *)
Lemma runes_length s : (length (runes s) <= length s)%nat.
Proof.
  remember (length s) as n eqn:Hn. revert s Hn. induction (lt_wf n) as [n _ IH]. intros s ->.
  assert (rec : forall t, (length t < length s)%nat -> (length (runes t) <= length t)%nat) by (intros; by eapply IH).
  clear IH. destruct s as [|b0 s1]; [done|]. cbn [runes].
  pose proof (rec s1 ltac:(simpl; lia)) as R1.
  destruct (byteZ b0 <? 128); [simpl; lia|]. destruct s1 as [|b1 s2]; [simpl; lia|].
  pose proof (rec s2 ltac:(simpl; lia)) as R2.
  destruct (within 194 223 b0 && continues b1); [simpl in *; lia|]. destruct s2 as [|b2 s3]; [simpl in *; lia|].
  pose proof (rec s3 ltac:(simpl; lia)) as R3.
  destruct (_ && _ && _); [simpl in *; lia|]. destruct s3 as [|b3 s4]; [simpl in *; lia|].
  pose proof (rec s4 ltac:(simpl; lia)) as R4.
  destruct (_ && _ && _ && _); simpl in *; lia.
Qed.

(** ** Scalar values *)

Definition scalar (r : rune) : bool := ((0 <=? r) && (r <=? 55295)) || ((57344 <=? r) && (r <=? 1114111)).
Definition scalars (l : list rune) : Prop := Forall (fun r => scalar r = true) l.

Lemma within_spec lo hi b : within lo hi b = true <-> lo <= byteZ b <= hi.
Proof. unfold within. rewrite andb_true_iff, !Z.leb_le. done. Qed.

Lemma cont_bits_mod b : cont_bits b = byteZ b mod 64.
Proof. apply (Z.land_ones _ 6). lia. Qed.

Lemma rune2_value b0 b1 : rune2 b0 b1 = byteZ b0 mod 32 * 64 + byteZ b1 mod 64.
Proof.
  unfold rune2. rewrite cont_bits_mod, Z.lor_comm, lor_shift_add.
  - rewrite (Z.land_ones _ 5) by lia. change (2 ^ 5) with 32. lia.
  - lia.
  - apply Z.mod_pos_bound. lia.
  - apply Z.land_nonneg. lia.
Qed.

Lemma rune3_value b0 b1 b2 : rune3 b0 b1 b2 = byteZ b0 mod 16 * 4096 + byteZ b1 mod 64 * 64 + byteZ b2 mod 64.
Proof.
  unfold rune3. rewrite !cont_bits_mod, <- Z.lor_assoc, Z.lor_comm.
  rewrite (Z.lor_comm (Z.shiftl (byteZ b1 mod 64) 6)).
  pose proof (Z.mod_pos_bound (byteZ b1) 64). pose proof (Z.mod_pos_bound (byteZ b2) 64).
  rewrite (lor_shift_add _ _ 6), (lor_shift_add _ _ 12), (Z.land_ones _ 4)
    by (first [lia | apply Z.land_nonneg; lia]). change (2 ^ 4) with 16. lia.
Qed.

Lemma rune4_value b0 b1 b2 b3 :
  rune4 b0 b1 b2 b3 = byteZ b0 mod 8 * 262144 + byteZ b1 mod 64 * 4096 + byteZ b2 mod 64 * 64 + byteZ b3 mod 64.
Proof.
  unfold rune4. rewrite !cont_bits_mod, <- !Z.lor_assoc, Z.lor_comm.
  rewrite (Z.lor_comm (Z.shiftl (byteZ b1 mod 64) 12)), (Z.lor_comm (Z.shiftl (byteZ b2 mod 64) 6)).
  pose proof (Z.mod_pos_bound (byteZ b1) 64). pose proof (Z.mod_pos_bound (byteZ b2) 64).
  pose proof (Z.mod_pos_bound (byteZ b3) 64).
  rewrite (lor_shift_add _ _ 6), (lor_shift_add _ _ 12), (lor_shift_add _ _ 18), (Z.land_ones _ 3)
    by (first [lia | apply Z.land_nonneg; lia]). change (2 ^ 3) with 8. lia.
Qed.

(** What is decoded is a scalar value, no surrogate. *)
Lemma runes_scalars s : scalars (runes s).
Proof.
  assert (forall n s, (length s <= n)%nat -> scalars (runes s)) as H; [|by apply (H (length s))].
  clear s. induction n as [|n IH]; intros s Hs.
  { destruct s; [constructor|simpl in Hs; lia]. }
  destruct s as [|b0 s1]; [constructor|]. cbn [runes]. pose proof (byteZ_range b0) as R0.
  assert (forall t, (length t <= n)%nat -> scalars (RuneError :: runes t)) as Herr.
  { intros t Ht. constructor; [done|by apply IH]. }
  simpl in Hs. destruct (Z.ltb_spec (byteZ b0) 128).
  { constructor; [|apply IH; lia]. unfold scalar. lia. }
  destruct s1 as [|b1 s2]; [by apply (Herr []); simpl; lia|].
  destruct (within 194 223 b0 && continues b1) eqn:E2.
  { apply andb_true_iff in E2 as [E0%within_spec E1%within_spec]. simpl in Hs.
    constructor; [|apply IH; lia]. rewrite rune2_value. unfold scalar.
    Z.to_euclidean_division_equations; lia. }
  destruct s2 as [|b2 s3]; [apply Herr; lia|].
  destruct (within 224 239 b0 && second_of_3 b0 b1 && continues b2) eqn:E3.
  { repeat apply andb_true_iff in E3 as [E3 ?]. simpl in Hs.
    constructor; [|apply IH; lia]. rewrite rune3_value. unfold scalar, second_of_3, continues in *.
    destruct (Z.eqb_spec (byteZ b0) 224), (Z.eqb_spec (byteZ b0) 237);
      rewrite !within_spec in *; Z.to_euclidean_division_equations; lia. }
  destruct s3 as [|b3 s4]; [apply Herr; lia|].
  destruct (within 240 244 b0 && second_of_4 b0 b1 && continues b2 && continues b3) eqn:E4; [|apply Herr; lia].
  repeat apply andb_true_iff in E4 as [E4 ?]. simpl in Hs.
  constructor; [|apply IH; lia]. rewrite rune4_value. unfold scalar, second_of_4, continues in *.
  destruct (Z.eqb_spec (byteZ b0) 240), (Z.eqb_spec (byteZ b0) 244);
    rewrite !within_spec in *; Z.to_euclidean_division_equations; lia.
Qed.

Lemma byteZ_lead x : 0 <= x < 256 -> byteZ (Zbyte x) = x.
Proof. intros. by rewrite byteZ_Zbyte, Z.mod_small. Qed.

Lemma continues_low x : continues (Zbyte (128 + x mod 64)) = true.
Proof.
  pose proof (Z.mod_pos_bound x 64). apply within_spec. rewrite byteZ_lead by lia. lia.
Qed.

Lemma runes_lead2 r t :
  128 <= r < 2048 -> runes (Zbyte (192 + r / 64) :: Zbyte (128 + r mod 64) :: t) = r :: runes t.
Proof.
  intros Hr. pose proof (Z.div_pos r 64). pose proof (Z.mod_pos_bound r 64).
  assert (2 <= r / 64 < 32) by (Z.to_euclidean_division_equations; lia).
  cbn [runes]. rewrite byteZ_lead by lia. rewrite (proj2 (Z.ltb_ge _ _)) by lia.
  rewrite continues_low. replace (within 194 223 _) with true by (symmetry; apply within_spec; rewrite byteZ_lead; lia).
  cbn [andb]. rewrite rune2_value, !byteZ_lead by lia. f_equal. Z.to_euclidean_division_equations; lia.
Qed.

Lemma runes_lead3 r t :
  2048 <= r < 65536 -> scalar r = true ->
  runes (Zbyte (224 + r / 4096) :: Zbyte (128 + r / 64 mod 64) :: Zbyte (128 + r mod 64) :: t) = r :: runes t.
Proof.
  intros Hr Hs. pose proof (Z.mod_pos_bound r 64). pose proof (Z.mod_pos_bound (r / 64) 64).
  assert (0 <= r / 4096 < 16) by (Z.to_euclidean_division_equations; lia).
  set (b0 := Zbyte (224 + r / 4096)). set (b1 := Zbyte (128 + r / 64 mod 64)).
  assert (byteZ b0 = 224 + r / 4096) as E0 by (apply byteZ_lead; lia).
  assert (byteZ b1 = 128 + r / 64 mod 64) as E1 by (apply byteZ_lead; lia).
  assert (second_of_3 b0 b1 = true) as S3.
  { unfold second_of_3. destruct (Z.eqb_spec (byteZ b0) 224); [|destruct (Z.eqb_spec (byteZ b0) 237)];
      apply within_spec; unfold scalar in Hs; Z.to_euclidean_division_equations; lia. }
  cbn [runes]. rewrite (proj2 (Z.ltb_ge (byteZ b0) 128)) by lia.
  replace (within 194 223 b0) with false by (symmetry; apply not_true_iff_false; rewrite within_spec; lia).
  replace (within 224 239 b0) with true by (symmetry; apply within_spec; lia).
  rewrite S3, continues_low. cbn [andb]. rewrite rune3_value, byteZ_lead, E0, E1 by lia.
  f_equal. Z.to_euclidean_division_equations; lia.
Qed.

Lemma runes_lead4 r t :
  65536 <= r <= 1114111 ->
  runes (Zbyte (240 + r / 262144) :: Zbyte (128 + r / 4096 mod 64) :: Zbyte (128 + r / 64 mod 64)
         :: Zbyte (128 + r mod 64) :: t) = r :: runes t.
Proof.
  intros Hr. pose proof (Z.mod_pos_bound r 64). pose proof (Z.mod_pos_bound (r / 64) 64).
  pose proof (Z.mod_pos_bound (r / 4096) 64).
  assert (0 <= r / 262144 < 5) by (Z.to_euclidean_division_equations; lia).
  set (b0 := Zbyte (240 + r / 262144)). set (b1 := Zbyte (128 + r / 4096 mod 64)).
  assert (byteZ b0 = 240 + r / 262144) as E0 by (apply byteZ_lead; lia).
  assert (byteZ b1 = 128 + r / 4096 mod 64) as E1 by (apply byteZ_lead; lia).
  assert (second_of_4 b0 b1 = true) as S4.
  { unfold second_of_4. destruct (Z.eqb_spec (byteZ b0) 240); [|destruct (Z.eqb_spec (byteZ b0) 244)];
      apply within_spec; Z.to_euclidean_division_equations; lia. }
  cbn [runes]. rewrite (proj2 (Z.ltb_ge (byteZ b0) 128)) by lia.
  replace (within 194 223 b0) with false by (symmetry; apply not_true_iff_false; rewrite within_spec; lia).
  replace (within 224 239 b0) with false by (symmetry; apply not_true_iff_false; rewrite within_spec; lia).
  replace (within 240 244 b0) with true by (symmetry; apply within_spec; lia).
  rewrite S4, !continues_low. cbn [andb]. rewrite rune4_value, !byteZ_lead, E0, E1 by lia.
  f_equal. Z.to_euclidean_division_equations; lia.
Qed.

Lemma runes_encode r t : scalar r = true -> runes (encode_rune r ++ t) = r :: runes t.
Proof.
  intros Hs. assert (0 <= r <= 1114111) as Hr by (unfold scalar in Hs; lia). unfold encode_rune.
  rewrite (proj2 (Z.leb_le 0 r)) by lia. cbn [andb].
  destruct (Z.ltb_spec r 128) as [H1|H1].
  { cbn [app runes]. rewrite byteZ_lead by lia. by rewrite (proj2 (Z.ltb_lt _ _)) by lia. }
  destruct (Z.ltb_spec r 2048) as [H2|H2]; [apply runes_lead2; lia|].
  replace (_ || _ || _) with false by (unfold scalar in Hs; lia). cbv zeta.
  destruct (Z.ltb_spec r 65536) as [H3|H3]; [apply runes_lead3; [lia|done]|]. apply runes_lead4. lia.
Qed.

(** Encoding and decoding scalar values loses nothing. *)
Lemma runes_string_of_scalars l : scalars l -> runes (string_of l) = l.
Proof.
  unfold scalars. induction 1 as [|r l Hr _ IH]; [done|]. change (r :: l) with ([r] ++ l) at 1.
  rewrite string_of_app. replace (string_of [r]) with (encode_rune r) by (cbn; by rewrite app_nil_r).
  by rewrite runes_encode, IH.
Qed.

(** A final ASCII byte is a rune of its own: it ends no longer sequence. *)
Lemma runes_snoc s b : byteZ b < 128 -> runes (s ++ [b]) = runes s ++ [byteZ b].
Proof.
  intros Hb. assert (forall n s, (length s <= n)%nat -> runes (s ++ [b]) = runes s ++ [byteZ b]) as H;
    [|by apply (H (length s))].
  assert (Hc : continues b = false) by (apply not_true_iff_false; unfold continues; rewrite within_spec; lia).
  assert (H3 : forall b0, second_of_3 b0 b = false).
  { intros b0. apply not_true_iff_false. unfold second_of_3, continues.
    destruct (byteZ b0 =? 224), (byteZ b0 =? 237); rewrite within_spec; lia. }
  assert (H4 : forall b0, second_of_4 b0 b = false).
  { intros b0. apply not_true_iff_false. unfold second_of_4, continues.
    destruct (byteZ b0 =? 240), (byteZ b0 =? 244); rewrite within_spec; lia. }
  assert (H1 : runes [b] = [byteZ b]) by (cbn; by rewrite (proj2 (Z.ltb_lt _ _) Hb)).
  clear s. induction n as [|n IH]; intros s Hs; [destruct s; [done|simpl in Hs; lia]|].
  destruct s as [|b0 s1]; [done|]. cbn [app runes]. simpl in Hs.
  rewrite (IH s1) by lia. destruct (byteZ b0 <? 128); [done|].
  destruct s1 as [|b1 s2].
  { cbn [app]. rewrite Hc, andb_false_r. done. }
  cbn [app]. simpl in Hs. rewrite (IH s2) by lia. destruct (within 194 223 b0 && continues b1); [done|].
  destruct s2 as [|b2 s3].
  { cbn [app]. by rewrite Hc, andb_false_r. }
  cbn [app]. simpl in Hs. rewrite (IH s3) by lia. destruct (_ && _ && _); [done|].
  destruct s3 as [|b3 s4].
  { cbn [app]. by rewrite Hc, andb_false_r. }
  cbn [app]. simpl in Hs. rewrite (IH s4) by lia. by destruct (_ && _ && _ && _).
Qed.
