(* ===== verification/Subject.v ===== *)
(** The client certificate subjects (proxy/clientcertvalidate): the parser of
    a configured subject, [NewSubjectParser] and [Parse], over an explicit
    position; and the check of a certificate against a parsed subject,
    [X509Validate], which sorts the certificate's own lists of names.

    A reader that fails also returns the text it read so far; only
    [readAlphaStringUntil]'s is used, so the others fail without it. *)
From Stdlib Require Import ZArith Lia Strings.Byte.
From stdpp Require Import base list strings gmap sorting.
From S2P Require Import Prelude GoLib Utf8.
Local Open Scope Z_scope.

(** [regexp.Compile] and [Match]: the syntax of regular expressions is the
    package's. *)
Class RegexpPkg := { Regexp : Type; Compile : bytes -> option Regexp; Match : Regexp -> bytes -> bool }.

(** The runtime: the capacity of a [[]rune] of [n] runes that was converted
    from a string (the array is cleared beyond the runes), and the upper-case
    letters beyond Latin-1. *)
Class Runtime := {
  rune_cap : Z -> Z;
  rune_cap_ge : forall n, 0 <= n -> n <= rune_cap n;
  upper_table : rune -> bool
}.

(** [unicode.IsLetter(r) && unicode.IsUpper(r)] *)
Definition IsUpperLetter `{Runtime} (r : rune) : bool :=
  if r <=? 255 then (65 <=? r) && (r <=? 90) || (192 <=? r) && (r <=? 222) && negb (r =? 215)
  else upper_table r.

(** [sort.Strings] *)
Fixpoint bytes_leb (s t : bytes) : bool :=
  match s, t with
  | [], _ => true
  | _ :: _, [] => false
  | a :: s', b :: t' => if byteZ a =? byteZ b then bytes_leb s' t' else byteZ a <? byteZ b
  end.
Definition bytes_le (s t : bytes) : Prop := bytes_leb s t = true.
#[export] Instance bytes_le_dec s t : Decision (bytes_le s t).
Proof. unfold bytes_le. apply _. Defined.
Definition sort_Strings : list bytes -> list bytes := merge_sort bytes_le.

(** ** Errors (errors.go) *)

Inductive perr :=
  | io_EOF
  | os_ErrInvalid
  | ParserUnexpectedInputError (Expected Found : list rune) (Position : Z)
  | ParserMissingPrefixError (RawInput : bytes)
  | ParserInvalidPrefixError (ConsumedPrefix : bytes)
  | ParserInvalidSubjectFieldError (ConsumedString : bytes)
  | ParserUnsupportedSubjectFieldError (Field : bytes)
  | ParserValueInsufficientInputError (ValuePos : Z)
  | ParserUnexpectedError (Unexpected : option perr)
  | InvalidPatternValueError (Field Value : bytes).

(** ** The parser's state *)

Record parser := { input : list rune; input_cap : Z; pos : Z; maxPos : Z }.

Definition set_pos (p : parser) (z : Z) : parser :=
  {| input := input p; input_cap := input_cap p; pos := z; maxPos := maxPos p |}.

(** What a method gives: a result, an error, a panic; [OutOfFuel] is the
    model's own and never the outcome of [Parse] ([Parse_terminates]). *)
Inductive outcome (A : Type) :=
  | POk (a : A)
  | PErr (e : perr)
  | PPanic (why : string)
  | OutOfFuel.
Arguments POk {A} a.
Arguments PErr {A} e.
Arguments PPanic {A} why.
Arguments OutOfFuel {A}.

Definition P (A : Type) : Type := parser -> outcome A * parser.
Definition pret {A} (a : A) : P A := fun p => (POk a, p).
Definition throw {A} (e : perr) : P A := fun p => (PErr e, p).
Definition pbind {A B} (m : P A) (k : A -> P B) : P B :=
  fun p => match m p with
           | (POk a, p') => k a p'
           | (PErr e, p') => (PErr e, p')
           | (PPanic w, p') => (PPanic w, p')
           | (OutOfFuel, p') => (OutOfFuel, p')
           end.
(** [r, err := m()] *)
Definition attempt {A} (m : P A) : P (A + perr) :=
  fun p => match m p with
           | (POk a, p') => (POk (inl a), p')
           | (PErr e, p') => (POk (inr e), p')
           | (PPanic w, p') => (PPanic w, p')
           | (OutOfFuel, p') => (OutOfFuel, p')
           end.
Definition position : P Z := fun p => (POk (pos p), p).
(** Enough for any loop: one step per position ([pos] only grows). *)
Definition enough : P nat := fun p => (POk (S (Z.to_nat (maxPos p))), p).

Declare Scope parser_scope.
Notation "'let!' x ':=' m 'in' k" := (pbind m (fun x => k))
  (at level 10, x pattern, m at level 100, k at level 200) : parser_scope.
Notation "'do!' m 'in' k" := (pbind m (fun _ => k))
  (at level 10, m at level 100, k at level 200) : parser_scope.
Local Open Scope parser_scope.

(** [strings.TrimSuffix(s, c)], [strings.TrimPrefix(s, c)] for one byte. *)
Definition TrimSuffix (c : byte) (s : bytes) : bytes :=
  match last s with Some b => if decide (b = c) then take (length s - 1) s else s | None => s end.
Definition TrimPrefix (c : byte) (s : bytes) : bytes :=
  match s with b :: s' => if decide (b = c) then s' else s | [] => s end.

(** [p.input[lo:hi]]: up to the capacity. *)
Definition input_slice (p : parser) (lo hi : Z) : option (list rune) :=
  if (0 <=? lo) && (lo <=? hi) && (hi <=? input_cap p)
  then Some (take (Z.to_nat (hi - lo))
         (drop (Z.to_nat lo) (input p ++ replicate (Z.to_nat (input_cap p - len (input p))) 0)))
  else None.

Definition clip (p : parser) (n : Z) : Z * option perr :=
  if maxPos p <? pos p + n then (maxPos p - pos p, Some io_EOF) else (n, None).

Definition lookup_ (n : Z) : P (list rune * option perr) := fun p =>
  let '(n, err) := clip p n in
  if n =? 0 then (POk ([], Some io_EOF), p)
  else match input_slice p (pos p) (pos p + n) with
       | Some l => (POk (l, err), p)
       | None => (PPanic "slice bounds out of range", p)
       end.

Definition consume (n : Z) : P (list rune * option perr) := fun p =>
  let '(n, err) := clip p n in
  if n =? 0 then (POk ([], Some io_EOF), p)
  else match input_slice p (pos p) (pos p + n) with
       | Some l => (POk (l, err), set_pos p (pos p + n))
       | None => (PPanic "slice bounds out of range", set_pos p (pos p + n))
       end.

Definition skip (n : Z) : P unit := fun p => (POk tt, set_pos p (pos p + n)).

(** [if err != nil { return ' ', io.EOF }; return runes[0], nil] *)
Definition first_rune (r : list rune * option perr) : P rune :=
  match r with
  | (_, Some _) => throw io_EOF
  | (c :: _, None) => pret c
  | ([], None) => fun p => (PPanic "index out of range", p)
  end.
Definition consumeOne : P rune := let! r := consume 1 in first_rune r.
Definition lookupOne : P rune := let! r := lookup_ 1 in first_rune r.

(** ** Readers *)

Abbreviation ch c := (byteZ c%byte).

Definition readEscapeSequence : P bytes :=
  let! nextRune := consumeOne in
  if negb (nextRune =? ch "\") then
    let! z := position in throw (ParserUnexpectedInputError [ch "\"] [nextRune] (z - 1))
  else
    let! next := lookupOne in
    do! skip 1 in
    pret (string_of [nextRune; next]).

(** The text consumed and an error. *)
Fixpoint readAlphaStringUntil_loop `{Runtime} (fuel : nat) (boundary : rune) (consumed : list rune)
    : P (bytes * option perr) :=
  match fuel with
  | O => fun p => (OutOfFuel, p)
  | S fuel' =>
      let! r := attempt lookupOne in
      match r with
      | inr err => pret (string_of consumed, Some err)
      | inl nextRune =>
          if IsUpperLetter nextRune then
            do! skip 1 in readAlphaStringUntil_loop fuel' boundary (consumed ++ [nextRune])
          else if nextRune =? boundary then
            do! skip 1 in
            pret (if bool_decide (consumed = []) then ([], Some io_EOF) else (string_of consumed, None))
          else pret (string_of (consumed ++ [nextRune]), Some os_ErrInvalid)
      end
  end.
Definition readAlphaStringUntil `{Runtime} (boundary : rune) : P (bytes * option perr) :=
  let! f := enough in readAlphaStringUntil_loop f boundary [].

Fixpoint readAnyEnclosed (fuel : nat) (boundaryStart boundaryEnd : rune) (inclusive : bool) (consumed : list rune)
    : P bytes :=
  match fuel with
  | O => fun p => (OutOfFuel, p)
  | S fuel' =>
      let finish consumed :=
        if bool_decide (consumed = []) then throw io_EOF else pret (string_of consumed) in
      let! nextRune := lookupOne in
      if nextRune =? boundaryEnd then
        if inclusive then do! skip 1 in finish (consumed ++ [nextRune]) else finish consumed
      else if nextRune =? boundaryStart then
        do! skip 1 in
        let! chunk := readAnyEnclosed fuel' boundaryStart boundaryEnd inclusive [] in
        readAnyEnclosed fuel' boundaryStart boundaryEnd inclusive (consumed ++ [nextRune] ++ runes chunk)
      else if nextRune =? ch "\" then
        let! chunk := readEscapeSequence in
        readAnyEnclosed fuel' boundaryStart boundaryEnd inclusive (consumed ++ runes chunk)
      else
        do! skip 1 in
        readAnyEnclosed fuel' boundaryStart boundaryEnd inclusive (consumed ++ [nextRune])
  end.

Fixpoint readValue_loop (fuel : nat) (currentValue : list rune) : P bytes :=
  match fuel with
  | O => fun p => (OutOfFuel, p)
  | S fuel' =>
      let enclosed nextRune boundaryEnd :=
        do! skip 1 in
        let! value := readAnyEnclosed fuel' nextRune boundaryEnd true [] in
        readValue_loop fuel' (currentValue ++ [nextRune] ++ runes value) in
      let! nextRune := lookupOne in
      if nextRune =? ch "[" then enclosed nextRune (ch "]")
      else if nextRune =? ch "{" then enclosed nextRune (ch "}")
      else if (nextRune =? ch ",") || (nextRune =? ch "]") then pret (string_of currentValue)
      else if nextRune =? ch "\" then
        let! chunk := readEscapeSequence in
        readValue_loop fuel' (currentValue ++ runes chunk)
      else do! skip 1 in readValue_loop fuel' (currentValue ++ [nextRune])
  end.
Definition readValue : P bytes := let! f := enough in readValue_loop f [].

(** [for { nextRune, err := p.lookupOne() ... if nextRune == ',' ... }] *)
Fixpoint readValues_loop (fuel : nat) (values : list bytes) : P (list bytes) :=
  match fuel with
  | O => fun p => (OutOfFuel, p)
  | S fuel' =>
      let! nextRune := lookupOne in
      if nextRune =? ch "," then
        do! skip 1 in
        let! nextValue := readValue in
        readValues_loop fuel' (values ++ [nextValue])
      else pret values
  end.

Definition readValues : P (list bytes) :=
  let! nextRune := consumeOne in
  if negb (nextRune =? ch "[") then
    let! z := position in throw (ParserUnexpectedInputError [ch "["] [nextRune] z)
  else
    let! nextValue := readValue in
    let! f := enough in
    let! values := readValues_loop f [nextValue] in
    let! nextRune := consumeOne in
    if negb (nextRune =? ch "]") then
      let! z := position in throw (ParserUnexpectedInputError [ch "]"] [nextRune] z)
    else pret values.

(** ** The parsed subject (subject.go) *)

Definition clientCertSubjectCommonName : bytes := $"CN".
Definition clientCertSubjectCountry : bytes := $"C".
Definition clientCertSubjectLocality : bytes := $"L".
Definition clientCertSubjectOrganization : bytes := $"O".
Definition clientCertSubjectOrganizationalUnit : bytes := $"OU".
Definition clientCertSubjectProvince : bytes := $"S".

Definition validSubjectFields : list bytes :=
  [clientCertSubjectCommonName; clientCertSubjectCountry; clientCertSubjectLocality;
   clientCertSubjectOrganization; clientCertSubjectOrganizationalUnit; clientCertSubjectProvince].

Inductive prefixType := ClientCertificateSubjectPrefixString | ClientCertificateSubjectPrefixPattern.
#[export] Instance prefixType_eq_dec : EqDecision prefixType.
Proof. solve_decision. Defined.

Section Subject.
Context `{RegexpPkg} `{Runtime}.

Record ParsedSubject := {
  inputValuesType : prefixType;
  kvs : gmap bytes (list bytes);
  regexpkvs : gmap bytes (list Regexp)
}.

Definition DefaultParsedSubject : ParsedSubject :=
  {| inputValuesType := ClientCertificateSubjectPrefixString; kvs := ∅; regexpkvs := ∅ |}.
Definition WithType (t : prefixType) (s : ParsedSubject) : ParsedSubject :=
  {| inputValuesType := t; kvs := kvs s; regexpkvs := regexpkvs s |}.
Definition WithKVs (field : bytes) (values : list bytes) (s : ParsedSubject) : ParsedSubject :=
  {| inputValuesType := inputValuesType s; kvs := <[field := values]> (kvs s); regexpkvs := regexpkvs s |}.
Definition WithRegexpKVs (field : bytes) (values : list Regexp) (s : ParsedSubject) : ParsedSubject :=
  {| inputValuesType := inputValuesType s; kvs := kvs s; regexpkvs := <[field := values]> (regexpkvs s) |}.

(** ** Parse *)

(** [maxPos] is the length in bytes of the string as configured, with its
    quotes; the input is the runes without them. *)
Definition NewSubjectParser (s : bytes) : parser :=
  let runeInput := runes (TrimPrefix "'"%byte (TrimSuffix "'"%byte s)) in
  {| input := runeInput; input_cap := rune_cap (len runeInput); pos := 0; maxPos := len s |}.

Fixpoint compilePatterns (field : bytes) (values : list bytes) : P (list Regexp) :=
  match values with
  | [] => pret []
  | pattern :: values' =>
      match Compile pattern with
      | None => throw (InvalidPatternValueError field pattern)
      | Some compiledRegexp => let! rest := compilePatterns field values' in pret (compiledRegexp :: rest)
      end
  end.

(** The key of a field, up to and including the '='. *)
Definition parseField : P bytes :=
  let! fieldPos := position in
  let! (field, err) := readAlphaStringUntil (ch "=") in
  match err with
  | Some io_EOF => throw (ParserUnexpectedInputError (runes ($"field")) (runes ($"none")) fieldPos)
  | Some os_ErrInvalid => throw (ParserInvalidSubjectFieldError field)
  | Some e => throw (ParserUnexpectedError (Some e))
  | None => if bool_decide (field ∈ validSubjectFields) then pret field
            else throw (ParserUnsupportedSubjectFieldError field)
  end.

(** The check of the opening '[' and the list of values. *)
Definition parseValues : P (list bytes) :=
  let! r := attempt lookupOne in
  match r with
  | inr io_EOF => let! z := position in throw (ParserUnexpectedInputError [ch "["] (runes ($"none")) z)
  | inr _ => throw (ParserUnexpectedError None)
  | inl nextRune =>
      if negb (nextRune =? ch "[") then
        let! z := position in throw (ParserUnexpectedInputError [ch "["] [nextRune] z)
      else
        let! valuePos := position in
        let! values := attempt readValues in
        match values with
        | inr io_EOF => throw (ParserValueInsufficientInputError valuePos)
        | inr e => throw (ParserUnexpectedError (Some e))
        | inl values => pret values
        end
  end.

(** One round of the loop, from the '/' on. *)
Definition parseKV (output : ParsedSubject) : P ParsedSubject :=
  do! skip 1 in
  let! field := parseField in
  let! values := parseValues in
  match inputValuesType output with
  | ClientCertificateSubjectPrefixString =>
      pret (WithRegexpKVs field [] (WithKVs field (sort_Strings values) output))
  | ClientCertificateSubjectPrefixPattern =>
      let! regexpKVs := compilePatterns field values in
      pret (WithRegexpKVs field regexpKVs (WithKVs field values output))
  end.

Fixpoint Parse_loop (fuel : nat) (output : ParsedSubject) : P ParsedSubject :=
  match fuel with
  | O => fun p => (OutOfFuel, p)
  | S fuel' =>
      let! r := attempt lookupOne in
      match r with
      | inr _ => pret output                       (* io.EOF is the only error: done *)
      | inl nextRune =>
          if negb (nextRune =? ch "/") then
            let! z := position in throw (ParserUnexpectedInputError [ch "/"] [nextRune] z)
          else let! output' := parseKV output in Parse_loop fuel' output'
      end
  end.

Definition Parse : P ParsedSubject :=
  let! (prefix, err) := consume 2 in
  match err, prefix with
  | Some _, _ => fun p => (PErr (ParserMissingPrefixError (string_of (input p))), p)
  | None, [c0; c1] =>
      let! f := enough in
      if (c0 =? ch "s") && (c1 =? ch ":")
      then Parse_loop f (WithType ClientCertificateSubjectPrefixString DefaultParsedSubject)
      else if (c0 =? ch "r") && (c1 =? ch ":")
      then Parse_loop f (WithType ClientCertificateSubjectPrefixPattern DefaultParsedSubject)
      else throw (ParserInvalidPrefixError (string_of prefix))
  | None, _ => fun p => (PPanic "index out of range", p)
  end.

Definition parseSubject (s : bytes) : outcome ParsedSubject := fst (Parse (NewSubjectParser s)).

(** ** X509Validate *)

(** [pkix.Name] and [x509.Certificate], as far as they are read. *)
Record Name := {
  CommonName : bytes;
  Country : list bytes;
  Province : list bytes;
  Locality : list bytes;
  Organization : list bytes;
  OrganizationalUnit : list bytes
}.

Inductive certError :=
  | ClientCertificateRejectedError (Field : bytes) (Received : list bytes)
  | wrong_number (field : bytes) (expected received : Z).

(** Compares, and gives the certificate's values as they are left: sorted. *)
Definition testCertValuesSlicesStringSubject (field : bytes) (expected certValues : list bytes)
    : option certError * list bytes :=
  let certValues := sort_Strings certValues in
  (if bool_decide (expected = certValues) then None else Some (ClientCertificateRejectedError field certValues),
   certValues).

Fixpoint matchAll (field : bytes) (expected : list Regexp) (rest certValues : list bytes) : option certError :=
  match expected, rest with
  | e :: expected', v :: rest' =>
      if Match e v then matchAll field expected' rest' certValues
      else Some (ClientCertificateRejectedError field certValues)
  | _, _ => None
  end.
Definition testCertValuesSlicesRegexpSubject (field : bytes) (expected : list Regexp) (certValues : list bytes)
    : option certError :=
  if negb (len expected =? len certValues) then Some (wrong_number field (len expected) (len certValues))
  else matchAll field expected certValues certValues.

(** The values a field is compared with, and the certificate with them
    replaced; the common name is copied to a slice of its own. *)
Definition certValues (k : bytes) (c : Name) : option (list bytes) :=
  if decide (k = clientCertSubjectCommonName) then Some [CommonName c]
  else if decide (k = clientCertSubjectCountry) then Some (Country c)
  else if decide (k = clientCertSubjectProvince) then Some (Province c)
  else if decide (k = clientCertSubjectLocality) then Some (Locality c)
  else if decide (k = clientCertSubjectOrganization) then Some (Organization c)
  else if decide (k = clientCertSubjectOrganizationalUnit) then Some (OrganizationalUnit c)
  else None.

Definition set_certValues (k : bytes) (l : list bytes) (c : Name) : Name :=
  let upd f v := if decide (k = f) then l else v in
  {| CommonName := CommonName c;
     Country := upd clientCertSubjectCountry (Country c);
     Province := upd clientCertSubjectProvince (Province c);
     Locality := upd clientCertSubjectLocality (Locality c);
     Organization := upd clientCertSubjectOrganization (Organization c);
     OrganizationalUnit := upd clientCertSubjectOrganizationalUnit (OrganizationalUnit c) |}.

(** [for k, v := range ccs.kvs], the keys in the order [ks]. *)
Fixpoint X509Validate_strings (m : gmap bytes (list bytes)) (ks : list bytes) (c : Name) : option certError * Name :=
  match ks with
  | [] => (None, c)
  | k :: ks' =>
      match m !! k, certValues k c with
      | Some v, Some values =>
          let '(err, sorted) := testCertValuesSlicesStringSubject k v values in
          let c := set_certValues k sorted c in
          match err with Some _ => (err, c) | None => X509Validate_strings m ks' c end
      | _, _ => X509Validate_strings m ks' c
      end
  end.

Fixpoint X509Validate_patterns (m : gmap bytes (list Regexp)) (ks : list bytes) (c : Name) : option certError :=
  match ks with
  | [] => None
  | k :: ks' =>
      match m !! k, certValues k c with
      | Some v, Some values =>
          match testCertValuesSlicesRegexpSubject k v values with
          | Some e => Some e
          | None => X509Validate_patterns m ks' c
          end
      | _, _ => X509Validate_patterns m ks' c
      end
  end.

Definition map_keys {V} (m : gmap bytes V) : list bytes := (map_to_list m).*1.

(** [order] gives the keys in the order of the [range] statement. *)
Definition X509Validate (order : list bytes -> list bytes) (s : ParsedSubject) (c : Name) : option certError * Name :=
  match inputValuesType s with
  | ClientCertificateSubjectPrefixString => X509Validate_strings (kvs s) (order (map_keys (kvs s))) c
  | ClientCertificateSubjectPrefixPattern =>
      (X509Validate_patterns (regexpkvs s) (order (map_keys (regexpkvs s))) c, c)
  end.

(** ** tls_client_cert_validate.go *)

(** The certificates, shared by the chains that contain them. *)
Abbreviation certs := (gmap positive Name).

(** [for _, parsedSubject := range parsedSubjects]; the ranges over maps are
    numbered, [order n] being the order of the [n]-th. *)
Fixpoint anySubject (order : nat -> list bytes -> list bytes) (subjects : list ParsedSubject) (cert : positive)
    (st : nat * certs * list certError) : bool * (nat * certs * list certError) :=
  match subjects with
  | [] => (false, st)
  | s :: subjects' =>
      let '(n, h, errs) := st in
      match h !! cert with
      | None => (false, st)
      | Some c =>
          let '(err, c') := X509Validate (order n) s c in
          let h' := <[cert := c']> h in
          match err with
          | None => (true, (S n, h', errs))
          | Some e => anySubject order subjects' cert (S n, h', errs ++ [e])
          end
      end
  end.

Fixpoint anyCert (order : nat -> list bytes -> list bytes) (subjects : list ParsedSubject) (chain : list positive)
    (st : nat * certs * list certError) : bool * (nat * certs * list certError) :=
  match chain with
  | [] => (false, st)
  | cert :: chain' =>
      match anySubject order subjects cert st with
      | (true, st') => (true, st')
      | (false, st') => anyCert order subjects chain' st'
      end
  end.

Fixpoint anyChain (order : nat -> list bytes -> list bytes) (subjects : list ParsedSubject)
    (verifiedChains : list (list positive)) (st : nat * certs * list certError)
    : bool * (nat * certs * list certError) :=
  match verifiedChains with
  | [] => (false, st)
  | chain :: chains' =>
      match anyCert order subjects chain st with
      | (true, st') => (true, st')
      | (false, st') => anyChain order subjects chains' st'
      end
  end.

(** The function for [tls.Config.VerifyPeerCertificate]: [None] accepts, [Some errs]
    is the error with the reasons. *)
Definition verifyPeerCertificate (order : nat -> list bytes -> list bytes) (subjects : list ParsedSubject) (h : certs)
    (verifiedChains : list (list positive)) : option (list certError) :=
  if len subjects =? 0 then None
  else
    let '(accepted, (_, _, errs)) := anyChain order subjects verifiedChains (O, h, []) in
    if accepted then None else Some errs.

Fixpoint getParsedSubjects (Subjects : list bytes) : outcome (list ParsedSubject) :=
  match Subjects with
  | [] => POk []
  | subject :: rest =>
      match parseSubject subject with
      | POk s =>
          match getParsedSubjects rest with
          | POk l => POk (s :: l)
          | r => r
          end
      | PErr e => PErr e
      | PPanic w => PPanic w
      | OutOfFuel => OutOfFuel
      end
  end.

Definition tlsClientCertVerificationFunc (Subjects : list bytes)
    : outcome ((nat -> list bytes -> list bytes) -> certs -> list (list positive) -> option (list certError)) :=
  match getParsedSubjects Subjects with
  | POk l => POk (fun order h chains => verifyPeerCertificate order l h chains)
  | PErr e => PErr e
  | PPanic w => PPanic w
  | OutOfFuel => OutOfFuel
  end.
End Subject.

(** ** Toy parameters: literal patterns, and an allocator that keeps room for
    an even number of runes *)

Fixpoint contains (w s : bytes) : bool :=
  bool_decide (take (length w) s = w) || match s with [] => false | _ :: s' => contains w s' end.
Definition literal_regexps : RegexpPkg := {| Regexp := bytes; Compile := Some; Match := contains |}.
Program Definition even_runtime : Runtime :=
  {| rune_cap := fun n => n + n mod 2; upper_table := fun _ => false |}.
Next Obligation. intros n Hn. cbv beta. pose proof (Z.mod_pos_bound n 2). lia. Qed.

Example parse_plain :
  @parseSubject literal_regexps even_runtime ($"s:/CN=[b,a]/C=[x[1,2]\]]") =
  POk {| inputValuesType := ClientCertificateSubjectPrefixString;
         kvs := <[$"C" := [$"x[1,2]\]"]]> (<[$"CN" := [$"a"; $"b"]]> ∅);
         regexpkvs := <[$"C" := []]> (<[$"CN" := []]> ∅) |}.
Proof. vm_compute. reflexivity. Qed.
Example parse_quoted :
  @parseSubject literal_regexps even_runtime ($"'s:/CN=[a]'") =
  PErr (ParserUnexpectedInputError [47] [0] 9).
Proof. vm_compute. reflexivity. Qed.
Example parse_quoted_panics :
  @parseSubject literal_regexps even_runtime ($"'s:/CN=[ab]'") = PPanic "slice bounds out of range".
Proof. vm_compute. reflexivity. Qed.
