(* ===== verification/SubjectFacts.v ===== *)
(** The subject parser against a grammar.

    [at_ p l]: the parser [p] has the runes [l] still to read; it sees its
    input with the cleared rest of the array behind it, up to [maxPos], and
    where the array is shorter, reading on panics.  [ends m p Q] says that [m]
    finds enough fuel and, where it succeeds, satisfies [Q]; each reader has a
    lemma of that form, which says what it has read, and one that it succeeds
    on a text of the grammar. *)
From Stdlib Require Import ZArith Lia Strings.Byte.
From stdpp Require Import base list strings gmap sorting.
From S2P Require Import Prelude GoLib Utf8 Subject.
Local Open Scope Z_scope.
Local Open Scope parser_scope.

(** ** The grammar *)

(** The text after an opening bracket [b], up to the matching [e]. *)
Inductive enclosed (b e : rune) : list rune -> Prop :=
  | enc_close : enclosed b e [e]
  | enc_nest w w' : enclosed b e w -> enclosed b e w' -> enclosed b e (b :: w ++ w')
  | enc_escape c w : enclosed b e w -> enclosed b e (ch "\" :: c :: w)
  | enc_rune c w : c <> b -> c <> e -> c <> ch "\" -> enclosed b e w -> enclosed b e (c :: w).

(** The runes with a meaning in a value. *)
Definition special (c : rune) : bool := bool_decide (c ∈ [ch "["; ch "{"; ch ","; ch "]"; ch "\"]).

Inductive value : list rune -> Prop :=
  | val_nil : value []
  | val_brackets w v : enclosed (ch "[") (ch "]") w -> value v -> value (ch "[" :: w ++ v)
  | val_braces w v : enclosed (ch "{") (ch "}") w -> value v -> value (ch "{" :: w ++ v)
  | val_escape c v : value v -> value (ch "\" :: c :: v)
  | val_rune c v : special c = false -> value v -> value (c :: v).
#[export] Hint Constructors enclosed value : core.

(** Values after the first, and a whole field: [/KEY=[v1,v2]]. *)
Definition more_text (vs : list (list rune)) : list rune := vs ≫= (fun v => ch "," :: v).
Definition values_text (vs : list (list rune)) : list rune :=
  match vs with
  | [] => []
  | v :: vs' => ch "[" :: v ++ more_text vs' ++ [ch "]"]
  end.
Definition kv_text (kv : bytes * list (list rune)) : list rune :=
  ch "/" :: runes_of_ascii (fst kv) ++ ch "=" :: values_text (snd kv).
Definition valid_kv (kv : bytes * list (list rune)) : Prop :=
  fst kv ∈ validSubjectFields /\ snd kv <> [] /\ Forall value (snd kv).
Definition prefix_text (t : prefixType) : list rune :=
  match t with
  | ClientCertificateSubjectPrefixString => [ch "s"; ch ":"]
  | ClientCertificateSubjectPrefixPattern => [ch "r"; ch ":"]
  end.
Definition subject_text (t : prefixType) (fields : list (bytes * list (list rune))) : list rune :=
  prefix_text t ++ (fields ≫= kv_text).

(** ** The parser's view of its input *)

Definition text (p : parser) : list rune :=
  take (Z.to_nat (maxPos p)) (input p ++ replicate (Z.to_nat (input_cap p - len (input p))) 0).

Definition at_ (p : parser) (l : list rune) : Prop :=
  0 <= pos p /\ 0 <= maxPos p /\ len (input p) <= input_cap p /\ scalars (text p) /\
  pos p + len l = Z.min (maxPos p) (input_cap p) /\ drop (Z.to_nat (pos p)) (text p) = l.

Definition adv (p : parser) (n : Z) : parser := set_pos p (pos p + n).

Lemma adv_adv p a b : adv (adv p a) b = adv p (a + b).
Proof. unfold adv, set_pos. cbn. f_equal. lia. Qed.
Lemma adv_0 p : adv p 0 = p.
Proof. destruct p as [i c z m]. unfold adv, set_pos. cbn. f_equal. lia. Qed.

Lemma at_adv p w l : at_ p (w ++ l) -> at_ (adv p (len w)) l.
Proof.
  intros (H0 & Hm & Hc & Hs & Hl & Hd). rewrite len_app in Hl. pose proof (len_nonneg w).
  unfold at_, adv. cbn [pos maxPos input_cap input set_pos]. split_and!; [lia|done|done|done|lia|].
  change (text (set_pos p (pos p + len w))) with (text p).
  replace (Z.to_nat (pos p + len w)) with (Z.to_nat (pos p) + length w)%nat by (unfold len; lia).
  by rewrite <- drop_drop, Hd, drop_app_len.
Qed.

Lemma at_cons p c l : at_ p (c :: l) -> at_ (adv p 1) l.
Proof. apply (at_adv p [c]). Qed.

Lemma at_scalars p l : at_ p l -> scalars l.
Proof. intros (_ & _ & _ & Hs & _ & <-). unfold scalars in *. by apply Forall_drop. Qed.

(** The end of the input: [io.EOF], or the end of the array. *)
Definition at_end {A} (p : parser) : outcome A :=
  if maxPos p <=? input_cap p then PErr io_EOF else PPanic "slice bounds out of range".

Lemma input_slice_at p w l :
  at_ p (w ++ l) -> maxPos p <? pos p + len w = false /\ input_slice p (pos p) (pos p + len w) = Some w.
Proof.
  intros (H0 & Hm & Hc & Hs & Hl & Hd). rewrite len_app in Hl. pose proof (len_nonneg l). pose proof (len_nonneg w).
  split; [apply Z.ltb_ge; lia|]. unfold input_slice.
  replace (_ && _ && _) with true by (symmetry; repeat rewrite andb_true_iff; rewrite !Z.leb_le; lia).
  f_equal. replace (Z.to_nat (pos p + len w - pos p)) with (length w) by (unfold len; lia). unfold text in Hd.
  rewrite <- (take_drop (Z.to_nat (maxPos p)) (input p ++ _)), drop_app, Hd, <- app_assoc. apply take_app_len.
Qed.

Lemma input_slice_1 p c l :
  at_ p (c :: l) -> maxPos p <? pos p + 1 = false /\ input_slice p (pos p) (pos p + 1) = Some [c].
Proof. apply (input_slice_at p [c]). Qed.

Lemma input_end p :
  at_ p [] ->
  (maxPos p <=? input_cap p = true /\ pos p = maxPos p) \/
  (maxPos p <=? input_cap p = false /\ maxPos p <? pos p + 1 = false /\
   input_slice p (pos p) (pos p + 1) = None).
Proof.
  intros (H0 & Hm & Hc & Hs & Hl & Hd). change (len (@nil rune)) with 0 in Hl.
  destruct (Z.leb_spec (maxPos p) (input_cap p)); [left; split; [done|lia]|right].
  split_and!; [done|apply Z.ltb_ge; lia|]. unfold input_slice.
  replace (pos p + 1 <=? input_cap p) with false by (symmetry; apply Z.leb_gt; lia). by rewrite andb_false_r.
Qed.

Lemma lookupOne_at p l :
  at_ p l -> lookupOne p = (match l with c :: _ => POk c | [] => at_end p end, p).
Proof.
  intros H. unfold lookupOne, pbind, lookup_, clip, at_end. destruct l as [|c l].
  - destruct (input_end p H) as [[-> E]|(-> & -> & Hs)].
    + rewrite (proj2 (Z.ltb_lt _ _)) by lia. by rewrite E, Z.sub_diag.
    + cbn [Z.eqb]. by rewrite Hs.
  - destruct (input_slice_1 p c l H) as [-> Hs]. cbn [Z.eqb]. by rewrite Hs.
Qed.

Lemma consumeOne_at p l :
  at_ p l ->
  match l with
  | c :: _ => consumeOne p = (POk c, adv p 1)
  | [] => fst (consumeOne p) = at_end p
  end.
Proof.
  intros H. unfold consumeOne, pbind, consume, clip, at_end. destruct l as [|c l].
  - destruct (input_end p H) as [[-> E]|(-> & -> & Hs)].
    + rewrite (proj2 (Z.ltb_lt _ _)) by lia. by rewrite E, Z.sub_diag.
    + cbn [Z.eqb]. by rewrite Hs.
  - destruct (input_slice_1 p c l H) as [-> Hs]. cbn [Z.eqb]. by rewrite Hs.
Qed.

Lemma skip_adv p n : skip n p = (POk tt, adv p n).
Proof. done. Qed.

(** ** Outcomes *)

Definition ends {A} (m : P A) (p : parser) (Q : A -> parser -> Prop) : Prop :=
  match m p with (POk a, p') => Q a p' | (OutOfFuel, _) => False | _ => True end.

Lemma ends_bind {A B} (m : P A) (k : A -> P B) p Q :
  ends m p (fun a p' => ends (k a) p' Q) -> ends (pbind m k) p Q.
Proof. unfold ends, pbind. by destruct (m p) as [[]]. Qed.

Lemma ends_mono {A} (m : P A) p (Q Q' : A -> parser -> Prop) :
  ends m p Q -> (forall a p', Q a p' -> Q' a p') -> ends m p Q'.
Proof. unfold ends. destruct (m p) as [[]]; auto. Qed.

Lemma ends_attempt {A} (m : P A) p (Q : A + perr -> parser -> Prop) :
  ends m p (fun a => Q (inl a)) -> (forall e p', m p = (PErr e, p') -> Q (inr e) p') -> ends (attempt m) p Q.
Proof. unfold ends, attempt. destruct (m p) as [[]]; auto. Qed.

Lemma ends_skip n p (Q : unit -> parser -> Prop) : Q tt (adv p n) -> ends (skip n) p Q.
Proof. done. Qed.

Lemma ends_throw {A} e p (Q : A -> parser -> Prop) : ends (throw e) p Q.
Proof. done. Qed.

Lemma ends_throw_at {A} (f : Z -> perr) p (Q : A -> parser -> Prop) :
  ends (let! z := position in throw (f z)) p Q.
Proof. done. Qed.

Lemma ends_lookupOne p l (Q : rune -> parser -> Prop) :
  at_ p l -> (forall c l', l = c :: l' -> Q c p) -> ends lookupOne p Q.
Proof.
  intros H HQ. unfold ends. rewrite (lookupOne_at p l H). destruct l; [|eauto].
  unfold at_end. by destruct (maxPos p <=? input_cap p).
Qed.

Lemma ends_consumeOne p l (Q : rune -> parser -> Prop) :
  at_ p l -> (forall c l', l = c :: l' -> at_ (adv p 1) l' -> Q c (adv p 1)) -> ends consumeOne p Q.
Proof.
  intros H HQ. unfold ends. pose proof (consumeOne_at p l H) as E. destruct l as [|c l].
  - destruct (consumeOne p) as [r p']. cbn in E. subst r. unfold at_end. by destruct (maxPos p <=? input_cap p).
  - rewrite E. eapply HQ; [done|]. by eapply at_cons.
Qed.

(** The forward steps. *)
Lemma lookupOne_cons {B} p c l (k : rune -> P B) : at_ p (c :: l) -> pbind lookupOne k p = k c p.
Proof. intros H. unfold pbind. by rewrite (lookupOne_at _ _ H). Qed.
Lemma consumeOne_cons {B} p c l (k : rune -> P B) : at_ p (c :: l) -> pbind consumeOne k p = k c (adv p 1).
Proof. intros H. unfold pbind. pose proof (consumeOne_at _ _ H) as ->. done. Qed.
Lemma skip_bind {B} p (k : P B) : pbind (skip 1) (fun _ => k) p = k (adv p 1).
Proof. done. Qed.
Lemma pbind_POk {A B} (m : P A) (k : A -> P B) p a p' : m p = (POk a, p') -> pbind m k p = k a p'.
Proof. unfold pbind. by intros ->. Qed.

(** ** Escapes *)

Lemma readEscapeSequence_ends p l (Q : bytes -> parser -> Prop) :
  at_ p l ->
  (forall c l', l = ch "\" :: c :: l' -> at_ (adv p 2) l' -> Q (string_of [ch "\"; c]) (adv p 2)) ->
  ends readEscapeSequence p Q.
Proof.
  intros H HQ. unfold readEscapeSequence. apply ends_bind, (ends_consumeOne p l); [done|].
  intros c l1 -> H1. destruct (Z.eqb_spec c (ch "\")) as [->|]; [|apply ends_throw_at]. cbn [negb].
  apply ends_bind, (ends_lookupOne _ l1); [done|]. intros c' l2 ->. apply ends_bind, ends_skip.
  change (Q (string_of [ch "\"; c']) (adv (adv p 1) 1)). rewrite adv_adv. eapply HQ; [done|].
  change 2 with (1 + 1). rewrite <- adv_adv. by eapply at_cons.
Qed.

Lemma readEscapeSequence_escape p c l :
  at_ p (ch "\" :: c :: l) -> readEscapeSequence p = (POk (string_of [ch "\"; c]), adv p 2).
Proof.
  intros H. unfold readEscapeSequence. rewrite (consumeOne_cons _ _ _ _ H). rewrite Z.eqb_refl. cbn [negb].
  rewrite (lookupOne_cons _ c l) by (by eapply at_cons). rewrite skip_bind. unfold pret. by rewrite adv_adv.
Qed.

(** ** Brackets *)

(** A chunk that was read is text of scalars, so decoding it gives it back. *)
Lemma runes_chunk p w l : at_ p (w ++ l) -> runes (string_of w) = w.
Proof.
  intros H%at_scalars. apply runes_string_of_scalars. unfold scalars in *. by apply Forall_app in H as [? _].
Qed.

Lemma not_empty_app_cons {A} (l l' : list A) (a : A) : l ++ a :: l' <> [].
Proof. by destruct l. Qed.

Lemma readAnyEnclosed_ends b e f : forall p l acc,
  at_ p l -> (length l < f)%nat ->
  ends (readAnyEnclosed f b e true acc) p (fun s p' => exists w rest,
    l = w ++ rest /\ enclosed b e w /\ s = string_of (acc ++ w) /\ p' = adv p (len w)).
Proof.
  induction f as [|f IH]; intros p l acc H Hf; [lia|]. cbn [readAnyEnclosed].
  apply ends_bind, (ends_lookupOne p l); [done|]. intros c l1 ->. pose proof (at_cons _ _ _ H) as H1. cbn [length] in Hf.
  destruct (Z.eqb_spec c e) as [->|Hce].
  { apply ends_bind, ends_skip. rewrite bool_decide_false by apply not_empty_app_cons.
    exists [e], l1. by split_and!. }
  destruct (Z.eqb_spec c b) as [->|Hcb].
  { apply ends_bind, ends_skip, ends_bind. eapply ends_mono; [apply (IH _ l1 []); [done|lia]|].
    intros s p' (w & rest & -> & Hw & -> & ->). rewrite app_nil_l. rewrite (runes_chunk _ _ _ H1).
    rewrite length_app in Hf. eapply ends_mono; [apply (IH _ rest); [by apply at_adv|lia]|].
    intros s p' (w' & rest' & -> & Hw' & -> & ->). exists (b :: w ++ w'), rest'.
    split_and!; [cbn; by rewrite app_assoc|auto|f_equal; by rewrite <- !app_assoc|].
    rewrite !adv_adv. f_equal. rewrite len_cons, len_app. lia. }
  destruct (Z.eqb_spec c (ch "\")) as [->|Hcs].
  { apply ends_bind, (readEscapeSequence_ends p (ch "\" :: l1)); [done|]. intros c l' [= ->] H2.
    rewrite (runes_chunk p [ch "\"; c] l') by done. cbn [length] in Hf.
    eapply ends_mono; [apply (IH _ l'); [done|lia]|].
    intros s p' (w & rest & -> & Hw & -> & ->). exists (ch "\" :: c :: w), rest.
    split_and!; [done|auto|f_equal; by rewrite <- app_assoc|]. rewrite adv_adv. f_equal. rewrite !len_cons. lia. }
  apply ends_bind, ends_skip. eapply ends_mono; [apply (IH _ l1); [done|lia]|].
  intros s p' (w & rest & -> & Hw & -> & ->). exists (c :: w), rest.
  split_and!; [done|auto|f_equal; by rewrite <- app_assoc|]. rewrite adv_adv. f_equal. rewrite !len_cons. lia.
Qed.

Lemma readAnyEnclosed_enclosed b e w : enclosed b e w ->
  b <> e -> e <> ch "\" -> b <> ch "\" ->
  forall f p rest acc, at_ p (w ++ rest) -> (length w <= f)%nat ->
  readAnyEnclosed f b e true acc p = (POk (string_of (acc ++ w)), adv p (len w)).
Proof.
  intros Hw Hbe He Hb. induction Hw as [|w w' Hw IH Hw' IH'|c w Hw IH|c w Hcb Hce Hcs Hw IH];
    intros [|f] p rest acc H Hf; try (cbn [length] in Hf; lia); cbn [readAnyEnclosed app] in *;
    rewrite (lookupOne_cons _ _ _ _ H); pose proof (at_cons _ _ _ H) as H1.
  - rewrite Z.eqb_refl, skip_bind. by rewrite bool_decide_false by apply not_empty_app_cons.
  - rewrite (proj2 (Z.eqb_neq b e)), Z.eqb_refl, skip_bind by done.
    cbn [length] in Hf. rewrite length_app in Hf. rewrite <- app_assoc in H1.
    rewrite (pbind_POk _ _ _ _ _ (IH f _ (w' ++ rest) [] H1 ltac:(lia))). rewrite app_nil_l, (runes_chunk _ _ _ H1).
    rewrite (IH' f _ rest) by (try apply at_adv; (done || lia)). rewrite !adv_adv, len_cons, len_app, <- !app_assoc. done.
  - rewrite (proj2 (Z.eqb_neq _ e)), (proj2 (Z.eqb_neq _ b)), Z.eqb_refl by done.
    rewrite (pbind_POk _ _ _ _ _ (readEscapeSequence_escape _ _ _ H)). cbn [length] in Hf.
    rewrite (runes_chunk p [ch "\"; c] (w ++ rest)) by done.
    rewrite (IH f _ rest) by (try apply (at_adv p [ch "\"; c]); (done || lia)).
    rewrite adv_adv, !len_cons, <- app_assoc, Z.add_assoc. done.
  - rewrite (proj2 (Z.eqb_neq c e)), (proj2 (Z.eqb_neq c b)), (proj2 (Z.eqb_neq c _)), skip_bind by done.
    cbn [length] in Hf. rewrite (IH f _ rest) by (done || lia).
    by rewrite adv_adv, len_cons, <- app_assoc.
Qed.

(** ** Values *)

Definition ends_value (c : rune) : Prop := c = ch "," \/ c = ch "]".

Lemma special_false c : special c = false ->
  c <> ch "[" /\ c <> ch "{" /\ c <> ch "," /\ c <> ch "]" /\ c <> ch "\".
Proof. unfold special. intros H%bool_decide_eq_false. rewrite !elem_of_cons in H. naive_solver. Qed.

Lemma not_special c :
  c <> ch "[" -> c <> ch "{" -> c <> ch "," -> c <> ch "]" -> c <> ch "\" -> special c = false.
Proof.
  intros. unfold special. apply bool_decide_eq_false. rewrite !elem_of_cons, elem_of_nil. tauto.
Qed.

(** The rest of the loop after brackets were read. *)
Lemma readValue_brackets f b e p l1 acc :
  (forall p l acc, at_ p l -> (length l < f)%nat ->
    ends (readValue_loop f acc) p (fun s p' => exists v c rest,
      l = v ++ c :: rest /\ ends_value c /\ value v /\ s = string_of (acc ++ v) /\ p' = adv p (len v))) ->
  (forall w v, enclosed b e w -> value v -> value (b :: w ++ v)) ->
  at_ p (b :: l1) -> (length l1 < f)%nat ->
  ends (do! skip 1 in let! s := readAnyEnclosed f b e true [] in readValue_loop f (acc ++ [b] ++ runes s)) p
    (fun s p' => exists v c rest,
      b :: l1 = v ++ c :: rest /\ ends_value c /\ value v /\ s = string_of (acc ++ v) /\ p' = adv p (len v)).
Proof.
  intros IH Hval H Hf. pose proof (at_cons _ _ _ H) as H1. apply ends_bind, ends_skip, ends_bind.
  eapply ends_mono; [by apply (readAnyEnclosed_ends b e f _ l1 [])|].
  intros s p' (w & rest & -> & Hw & -> & ->). rewrite app_nil_l, (runes_chunk _ _ _ H1).
  rewrite length_app in Hf. eapply ends_mono; [apply (IH _ rest); [by apply at_adv|lia]|].
  intros s p' (v & c & rest' & -> & Hc & Hv & -> & ->). exists (b :: w ++ v), c, rest'.
  split_and!; [cbn; by rewrite <- app_assoc|done|auto|f_equal; by rewrite <- !app_assoc|].
  rewrite !adv_adv. f_equal. rewrite len_cons, len_app. lia.
Qed.

Lemma readValue_loop_ends f : forall p l acc,
  at_ p l -> (length l < f)%nat ->
  ends (readValue_loop f acc) p (fun s p' => exists v c rest,
    l = v ++ c :: rest /\ ends_value c /\ value v /\ s = string_of (acc ++ v) /\ p' = adv p (len v)).
Proof.
  induction f as [|f IH]; intros p l acc H Hf; [lia|]. cbn [readValue_loop].
  apply ends_bind, (ends_lookupOne p l); [done|]. intros c l1 ->. pose proof (at_cons _ _ _ H) as H1. cbn [length] in Hf.
  destruct (Z.eqb_spec c (ch "[")) as [->|H2]; [apply readValue_brackets; (done || lia || auto)|].
  destruct (Z.eqb_spec c (ch "{")) as [->|H3]; [apply readValue_brackets; (done || lia || auto)|].
  destruct (Z.eqb_spec c (ch ",")) as [->|H4].
  { exists [], (ch ","), l1. rewrite app_nil_r. unfold ends_value. split_and!; auto. symmetry. apply adv_0. }
  destruct (Z.eqb_spec c (ch "]")) as [->|H5].
  { exists [], (ch "]"), l1. rewrite app_nil_r. unfold ends_value. split_and!; auto. symmetry. apply adv_0. }
  cbn [orb]. destruct (Z.eqb_spec c (ch "\")) as [->|H6].
  { apply ends_bind, (readEscapeSequence_ends p (ch "\" :: l1)); [done|]. intros c l' [= ->] H7.
    rewrite (runes_chunk p [ch "\"; c] l') by done. cbn [length] in Hf.
    eapply ends_mono; [apply (IH _ l'); [done|lia]|].
    intros s p' (v & c' & rest & -> & Hc' & Hv & -> & ->). exists (ch "\" :: c :: v), c', rest.
    split_and!; [done|done|auto|f_equal; by rewrite <- app_assoc|]. rewrite adv_adv. f_equal. rewrite !len_cons. lia. }
  apply ends_bind, ends_skip. eapply ends_mono; [apply (IH _ l1); [done|lia]|].
  intros s p' (v & c' & rest & -> & Hc' & Hv & -> & ->). exists (c :: v), c', rest.
  split_and!; [done|done|auto using not_special|f_equal; by rewrite <- app_assoc|].
  rewrite adv_adv. f_equal. rewrite !len_cons. lia.
Qed.

Lemma readValue_loop_value v : value v -> forall f p c rest acc,
  at_ p (v ++ c :: rest) -> ends_value c -> (length v < f)%nat ->
  readValue_loop f acc p = (POk (string_of (acc ++ v)), adv p (len v)).
Proof.
  induction 1 as [|w v Hw Hv IH|w v Hw Hv IH|d v Hv IH|d v Hd Hv IH];
    intros [|f] p c rest acc H Hc Hf; try (cbn [length] in Hf; lia); cbn [readValue_loop app] in *;
    rewrite (lookupOne_cons _ _ _ _ H); pose proof (at_cons _ _ _ H) as H1.
  - rewrite app_nil_r, adv_0. by destruct Hc as [-> | ->].
  - change (ch "[" =? ch "[") with true. cbv iota. rewrite skip_bind.
    cbn [length] in Hf. rewrite length_app in Hf. rewrite <- app_assoc in H1.
    rewrite (pbind_POk _ _ _ _ _ (readAnyEnclosed_enclosed _ _ w Hw ltac:(done) ltac:(done) ltac:(done)
      f _ _ [] H1 ltac:(lia))). rewrite app_nil_l, (runes_chunk _ _ _ H1).
    rewrite (IH f _ c rest) by (try apply at_adv; (done || lia)). rewrite !adv_adv, len_cons, len_app, <- !app_assoc. done.
  - change (ch "{" =? ch "[") with false. change (ch "{" =? ch "{") with true. cbv iota. rewrite skip_bind.
    cbn [length] in Hf. rewrite length_app in Hf. rewrite <- app_assoc in H1.
    rewrite (pbind_POk _ _ _ _ _ (readAnyEnclosed_enclosed _ _ w Hw ltac:(done) ltac:(done) ltac:(done)
      f _ _ [] H1 ltac:(lia))). rewrite app_nil_l, (runes_chunk _ _ _ H1).
    rewrite (IH f _ c rest) by (try apply at_adv; (done || lia)). rewrite !adv_adv, len_cons, len_app, <- !app_assoc. done.
  - rewrite (eq_refl : (ch "\" =? ch "[") = false), (eq_refl : (ch "\" =? ch "{") = false),
      (eq_refl : (ch "\" =? ch ",") = false), (eq_refl : (ch "\" =? ch "]") = false), Z.eqb_refl. cbn [orb].
    rewrite (pbind_POk _ _ _ _ _ (readEscapeSequence_escape _ _ _ H)). cbn [length] in Hf.
    rewrite (runes_chunk p [ch "\"; d] (v ++ c :: rest)) by done.
    rewrite (IH f _ c rest) by (try apply (at_adv p [ch "\"; d]); (done || lia)).
    rewrite adv_adv, !len_cons, <- app_assoc, Z.add_assoc. done.
  - apply special_false in Hd as (H2 & H3 & H4 & H5 & H6).
    rewrite (proj2 (Z.eqb_neq d (ch "["))), (proj2 (Z.eqb_neq d (ch "{"))), (proj2 (Z.eqb_neq d (ch ","))),
      (proj2 (Z.eqb_neq d (ch "]"))), (proj2 (Z.eqb_neq d (ch "\"))) by done. cbn [orb]. rewrite skip_bind.
    cbn [length] in Hf. rewrite (IH f _ c rest) by (done || lia). by rewrite adv_adv, len_cons, <- app_assoc.
Qed.

(** The fuel the callers give. *)
Lemma at_enough p l : at_ p l -> (length l <= Z.to_nat (maxPos p))%nat.
Proof. intros (H0 & Hm & Hc & Hs & Hl & Hd). unfold len in *. lia. Qed.

Lemma readValue_ends p l : at_ p l ->
  ends readValue p (fun s p' => exists v c rest,
    l = v ++ c :: rest /\ ends_value c /\ value v /\ s = string_of v /\ p' = adv p (len v)).
Proof.
  intros H. unfold readValue. apply ends_bind. cbv beta. change (ends enough p ?Q) with (Q (S (Z.to_nat (maxPos p))) p).
  apply (readValue_loop_ends _ _ l []); [done|]. pose proof (at_enough p l H). lia.
Qed.

Lemma readValue_value v p c rest : value v -> at_ p (v ++ c :: rest) -> ends_value c ->
  readValue p = (POk (string_of v), adv p (len v)).
Proof.
  intros Hv H Hc. unfold readValue, pbind, enough. apply (readValue_loop_value v Hv _ _ c rest []); [done..|].
  pose proof (at_enough p _ H) as He. rewrite length_app in He. lia.
Qed.

(** ** Lists of values *)

Lemma ends_enough p (Q : nat -> parser -> Prop) : Q (S (Z.to_nat (maxPos p))) p -> ends enough p Q.
Proof. done. Qed.

Lemma more_text_cons v vs : more_text (v :: vs) = ch "," :: v ++ more_text vs.
Proof. done. Qed.

(** What follows a value inside a list. *)
Lemma more_text_head vs rest : exists c l, more_text vs ++ ch "]" :: rest = c :: l /\ ends_value c.
Proof. destruct vs as [|v vs]; [exists (ch "]")|exists (ch ",")]; eexists; (split; [done|]); [by right|by left]. Qed.

Lemma readValues_loop_ends f : forall p c l acc,
  at_ p (c :: l) -> ends_value c -> (length l < f)%nat ->
  ends (readValues_loop f acc) p (fun r p' => exists vs rest,
    c :: l = more_text vs ++ ch "]" :: rest /\ Forall value vs /\ r = acc ++ (string_of <$> vs) /\
    p' = adv p (len (more_text vs))).
Proof.
  induction f as [|f IH]; intros p c l acc H Hc Hf; [lia|]. cbn [readValues_loop].
  apply ends_bind, (ends_lookupOne p (c :: l)); [done|]. intros c0 l0 [= <- <-].
  destruct (Z.eqb_spec c (ch ",")) as [->|Hn].
  - pose proof (at_cons _ _ _ H) as H1. apply ends_bind, ends_skip, ends_bind.
    eapply ends_mono; [by apply readValue_ends|]. intros s p' (v & c' & rest & -> & Hc' & Hv & -> & ->).
    rewrite length_app in Hf. cbn [length] in Hf. eapply ends_mono; [apply (IH _ c' rest); [by apply at_adv|done|lia]|].
    intros r p' (vs & rest' & E & Hvs & -> & ->). exists (v :: vs), rest'. rewrite more_text_cons.
    split_and!; [rewrite E; cbn [app]; by rewrite <- app_assoc|by constructor|by rewrite <- app_assoc|].
    rewrite !adv_adv, len_cons, len_app. rewrite ?Z.add_assoc. done.
  - destruct Hc as [-> | ->]; [done|]. exists [], l. rewrite app_nil_r.
    split_and!; [done|constructor|done|symmetry; apply adv_0].
Qed.

Lemma readValues_loop_values vs : Forall value vs -> forall f p rest acc,
  at_ p (more_text vs ++ ch "]" :: rest) -> (length (more_text vs) < f)%nat ->
  readValues_loop f acc p = (POk (acc ++ (string_of <$> vs)), adv p (len (more_text vs))).
Proof.
  induction 1 as [|v vs Hv _ IH]; intros [|f] p rest acc H Hf; try lia; cbn [readValues_loop].
  - change (more_text []) with (@nil rune) in *. rewrite (lookupOne_cons _ _ _ _ H).
    change (ch "]" =? ch ",") with false. cbv iota. unfold pret. by rewrite app_nil_r, adv_0.
  - rewrite more_text_cons in *. cbn [app length] in *. rewrite length_app in Hf. rewrite <- app_assoc in H.
    rewrite (lookupOne_cons _ _ _ _ H), Z.eqb_refl, skip_bind. pose proof (at_cons _ _ _ H) as H1.
    destruct (more_text_head vs rest) as (c & l & E & Hc).
    rewrite (pbind_POk _ _ _ _ _ (readValue_value v _ c l Hv ltac:(by rewrite <- E) Hc)).
    rewrite (IH f _ rest) by (try apply at_adv; (done || lia)).
    rewrite !adv_adv, len_cons, len_app, <- app_assoc. done.
Qed.

Lemma readValues_ends p l : at_ p l ->
  ends readValues p (fun r p' => exists vs rest,
    l = values_text vs ++ rest /\ vs <> [] /\ Forall value vs /\ r = string_of <$> vs /\ p' = adv p (len (values_text vs))).
Proof.
  intros H. unfold readValues. apply ends_bind, (ends_consumeOne p l); [done|]. intros c l1 -> H1.
  destruct (Z.eqb_spec c (ch "[")) as [->|]; [|apply ends_throw_at]. cbn [negb].
  apply ends_bind. eapply ends_mono; [by apply readValue_ends|].
  intros s p' (v & c & rest & -> & Hc & Hv & -> & ->). pose proof (at_adv _ _ _ H1) as H2.
  apply ends_bind, ends_enough, ends_bind. pose proof (at_enough _ _ H2) as He. cbn [length] in He.
  eapply ends_mono; [apply readValues_loop_ends; [exact H2|done|lia]|].
  intros r p' (vs & rest' & E & Hvs & -> & ->). rewrite E in H2. pose proof (at_adv _ _ _ H2) as H3.
  apply ends_bind, (ends_consumeOne _ (ch "]" :: rest')); [done|]. intros c' l' [= <- <-] H4.
  change (ch "]" =? ch "]") with true. cbn [negb]. exists (v :: vs), rest'. cbn [values_text].
  split_and!; [rewrite E; cbn [app]; by rewrite <- !app_assoc|done|by constructor|done|].
  rewrite !adv_adv, len_cons, !len_app. f_equal.
Qed.

Lemma readValues_values vs p rest : vs <> [] -> Forall value vs -> at_ p (values_text vs ++ rest) ->
  readValues p = (POk (string_of <$> vs), adv p (len (values_text vs))).
Proof.
  intros Hne Hvs H. destruct Hvs as [|v vs Hv Hvs]; [done|]. cbn [values_text app] in *.
  rewrite <- !app_assoc in H. cbn [app] in H. unfold readValues. rewrite (consumeOne_cons _ _ _ _ H).
  change (ch "[" =? ch "[") with true. cbn [negb]. pose proof (at_cons _ _ _ H) as H1.
  destruct (more_text_head vs rest) as (c & l & E & Hc).
  rewrite (pbind_POk _ _ _ _ _ (readValue_value v _ c l Hv ltac:(by rewrite <- E) Hc)).
  pose proof (at_adv _ _ _ H1) as H2. unfold pbind at 1. unfold enough at 1. cbv beta iota.
  pose proof (at_enough _ _ H2) as He. rewrite length_app in He. cbn [length] in He.
  erewrite pbind_POk by (apply (readValues_loop_values vs Hvs _ _ rest); [exact H2|lia]).
  pose proof (at_adv _ _ _ H2) as H3. rewrite (consumeOne_cons _ _ _ _ H3).
  change (ch "]" =? ch "]") with true. cbn [negb]. unfold pret. cbn [app fmap list_fmap].
  rewrite !adv_adv, len_cons, !len_app. f_equal.
Qed.

(** ** Keys *)

Section keys.
Context `{Runtime}.

Lemma readAlphaStringUntil_loop_ends f : forall p l acc,
  at_ p l -> (length l < f)%nat ->
  ends (readAlphaStringUntil_loop f (ch "=") acc) p (fun '(s, err) p' => err = None -> exists w rest,
    l = w ++ ch "=" :: rest /\ acc ++ w <> [] /\ s = string_of (acc ++ w) /\ p' = adv p (len w + 1)).
Proof.
  induction f as [|f IH]; intros p l acc H0 Hf; [lia|]. cbn [readAlphaStringUntil_loop].
  apply ends_bind, ends_attempt; [|done]. apply (ends_lookupOne p l); [done|]. intros c l1 ->. cbn [length] in Hf.
  destruct (IsUpperLetter c).
  { apply ends_bind, ends_skip. eapply ends_mono; [apply (IH _ l1); [by eapply at_cons|lia]|].
    intros [s err] p' Hw Herr. destruct (Hw Herr) as (w & rest & -> & Hne & -> & ->). exists (c :: w), rest.
    split_and!; [done|by destruct acc|f_equal; by rewrite <- app_assoc|].
    rewrite adv_adv, len_cons. f_equal. lia. }
  destruct (Z.eqb_spec c (ch "=")) as [->|]; [|done]. apply ends_bind, ends_skip.
  destruct (bool_decide_reflect (acc = [])); cbn; [done|]. intros _. exists [], l1. by rewrite !app_nil_r.
Qed.

Lemma readAlphaStringUntil_loop_upper w : Forall (fun c => IsUpperLetter c = true) w -> forall f p rest acc,
  at_ p (w ++ ch "=" :: rest) -> acc ++ w <> [] -> (length w < f)%nat ->
  readAlphaStringUntil_loop f (ch "=") acc p = (POk (string_of (acc ++ w), None), adv p (len w + 1)).
Proof.
  induction 1 as [|c w Hc _ IH]; intros [|f] p rest acc H0 Hne Hf; try lia; cbn [readAlphaStringUntil_loop app] in *;
    rewrite (pbind_POk (attempt lookupOne) _ p (inl _) p) by (unfold attempt; by rewrite (lookupOne_at _ _ H0)).
  - change (IsUpperLetter (ch "=")) with false. rewrite Z.eqb_refl, skip_bind. rewrite app_nil_r in *.
    by rewrite bool_decide_false.
  - rewrite Hc, skip_bind. cbn [length] in Hf. rewrite (IH f _ rest).
    + by rewrite adv_adv, len_cons, <- app_assoc, Z.add_assoc.
    + by eapply at_cons.
    + by rewrite <- app_assoc.
    + lia.
Qed.

Lemma valid_field_upper field : field ∈ validSubjectFields ->
  Forall (fun c => IsUpperLetter c = true) (runes_of_ascii field) /\ field <> [] /\
  string_of (runes_of_ascii field) = field /\ runes field = runes_of_ascii field.
Proof.
  unfold validSubjectFields. rewrite !elem_of_cons, elem_of_nil.
  intros [->|[->|[->|[->|[->|[->|[]]]]]]]; (split_and!; [repeat constructor|done..]).
Qed.
End keys.

(** ** Parse *)

Section parse.
Context `{RegexpPkg} `{Runtime}.

(** What a field adds to the subject, and the subject of a whole text. *)
Definition add_kv (t : prefixType) (kv : bytes * list (list rune)) (out : ParsedSubject) : option ParsedSubject :=
  let values := string_of <$> snd kv in
  match t with
  | ClientCertificateSubjectPrefixString =>
      Some (WithRegexpKVs (fst kv) [] (WithKVs (fst kv) (sort_Strings values) out))
  | ClientCertificateSubjectPrefixPattern =>
      rs ← mapM Compile values; Some (WithRegexpKVs (fst kv) rs (WithKVs (fst kv) values out))
  end.
Fixpoint add_kvs (t : prefixType) (l : list (bytes * list (list rune))) (out : ParsedSubject) : option ParsedSubject :=
  match l with
  | [] => Some out
  | kv :: l' => out' ← add_kv t kv out; add_kvs t l' out'
  end.
Definition subject_of (t : prefixType) (l : list (bytes * list (list rune))) : option ParsedSubject :=
  add_kvs t l (WithType t DefaultParsedSubject).

Lemma add_kv_type t kv out out' : add_kv t kv out = Some out' -> inputValuesType out' = inputValuesType out.
Proof. unfold add_kv. destruct t; [by intros [= <-]|]. destruct (mapM _ _); [by intros [= <-]|done]. Qed.

Lemma compilePatterns_spec field values p :
  match mapM Compile values with
  | Some rs => compilePatterns field values p = (POk rs, p)
  | None => exists e, compilePatterns field values p = (PErr e, p)
  end.
Proof.
  induction values as [|v values IH]; [done|]. cbn [compilePatterns mapM]. destruct (Compile v) as [r|]; cbn; [|by eexists].
  unfold pbind, pret. destruct (mapM Compile values); cbn; [by rewrite IH|]. destruct IH as [e ->]. by eexists.
Qed.

Lemma parseField_ends p l : at_ p l ->
  ends parseField p (fun field p' => exists rest,
    l = runes_of_ascii field ++ ch "=" :: rest /\ field ∈ validSubjectFields /\
    p' = adv p (len (runes_of_ascii field) + 1)).
Proof.
  intros Hp. unfold parseField. apply ends_bind. change (ends position p ?Q) with (Q (pos p) p).
  apply ends_bind. unfold readAlphaStringUntil. apply ends_bind, ends_enough. pose proof (at_enough p l Hp).
  eapply ends_mono; [apply (readAlphaStringUntil_loop_ends _ p l []); [done|lia]|].
  intros [field [[]|]] p' Hw; try done. destruct (Hw eq_refl) as (w & rest & -> & Hne & -> & ->).
  destruct (bool_decide_reflect (string_of ([] ++ w) ∈ validSubjectFields)) as [Hv|]; [|done]. cbn [app] in *.
  assert (runes_of_ascii (string_of w) = w) as E.
  { destruct (valid_field_upper _ Hv) as (_ & _ & _ & <-). by eapply runes_chunk. }
  cbn. exists rest. by rewrite E.
Qed.

Lemma parseField_valid field p rest : field ∈ validSubjectFields ->
  at_ p (runes_of_ascii field ++ ch "=" :: rest) ->
  parseField p = (POk field, adv p (len (runes_of_ascii field) + 1)).
Proof.
  intros Hv Hp. destruct (valid_field_upper field Hv) as (Hu & Hne & Hs & _). pose proof (at_enough p _ Hp) as He.
  rewrite length_app in He. unfold parseField. unfold pbind at 1, position. cbv beta iota.
  rewrite (pbind_POk _ _ p (field, None) (adv p (len (runes_of_ascii field) + 1))).
  - by rewrite bool_decide_true.
  - unfold readAlphaStringUntil, pbind, enough.
    rewrite (readAlphaStringUntil_loop_upper _ Hu _ _ rest []); [by rewrite app_nil_l, Hs|done| |lia].
    rewrite app_nil_l. intros E. by rewrite E in Hs.
Qed.

Lemma parseValues_ends p l : at_ p l ->
  ends parseValues p (fun r p' => exists vs rest,
    l = values_text vs ++ rest /\ vs <> [] /\ Forall value vs /\ r = string_of <$> vs /\ p' = adv p (len (values_text vs))).
Proof.
  intros Hp. unfold parseValues. apply ends_bind, ends_attempt; [|by intros [] p' _].
  apply (ends_lookupOne p l); [done|]. intros c l' ->. destruct (negb _); [done|].
  apply ends_bind. change (ends position p ?Q) with (Q (pos p) p). apply ends_bind, ends_attempt; [|by intros [] p' _].
  eapply ends_mono; [by apply readValues_ends|]. done.
Qed.

Lemma parseValues_values vs p rest : vs <> [] -> Forall value vs -> at_ p (values_text vs ++ rest) ->
  parseValues p = (POk (string_of <$> vs), adv p (len (values_text vs))).
Proof.
  intros Hne Hvs Hp. assert (exists l, values_text vs ++ rest = ch "[" :: l) as [l E].
  { destruct vs as [|v vs]; [done|]. by eexists. }
  unfold parseValues. rewrite (pbind_POk (attempt lookupOne) _ p (inl (ch "[")) p)
    by (unfold attempt; rewrite E in Hp; by rewrite (lookupOne_at _ _ Hp)).
  rewrite Z.eqb_refl. cbn [negb]. unfold pbind at 1, position. cbv beta iota.
  by rewrite (pbind_POk (attempt readValues) _ p (inl (string_of <$> vs)) (adv p (len (values_text vs))))
    by (unfold attempt; by rewrite (readValues_values vs p rest)).
Qed.

(** One field. *)
Lemma parseKV_ends out p l : at_ p (ch "/" :: l) ->
  ends (parseKV out) p (fun out' p' => exists kv rest,
    ch "/" :: l = kv_text kv ++ rest /\ valid_kv kv /\ add_kv (inputValuesType out) kv out = Some out' /\
    p' = adv p (len (kv_text kv))).
Proof.
  intros Hp. unfold parseKV. apply ends_bind, ends_skip, ends_bind. pose proof (at_cons _ _ _ Hp) as H1.
  eapply ends_mono; [by apply parseField_ends|]. intros field p' (rest & -> & Hf & ->).
  assert (at_ (adv (adv p 1) (len (runes_of_ascii field) + 1)) rest) as H2.
  { rewrite <- (adv_adv (adv p 1)). by eapply at_cons, at_adv. }
  apply ends_bind. eapply ends_mono; [by apply parseValues_ends|].
  intros r p' (vs & rest' & -> & Hne & Hvs & -> & ->). rewrite !adv_adv.
  assert (forall out', add_kv (inputValuesType out) (field, vs) out = Some out' ->
    exists kv rest, ch "/" :: runes_of_ascii field ++ ch "=" :: values_text vs ++ rest' = kv_text kv ++ rest /\
      valid_kv kv /\ add_kv (inputValuesType out) kv out = Some out' /\
      adv p (1 + (len (runes_of_ascii field) + 1 + len (values_text vs))) = adv p (len (kv_text kv))) as Hout.
  { intros out' E. exists (field, vs), rest'. unfold kv_text. cbn [fst snd app]. rewrite <- app_assoc.
    split_and!; [done|done|done|]. f_equal. rewrite len_cons, len_app, len_cons. lia. }
  unfold add_kv in Hout. cbn [fst snd] in Hout. destruct (inputValuesType out); [by apply Hout|].
  apply ends_bind. unfold ends. pose proof (compilePatterns_spec field (string_of <$> vs)
    (adv p (1 + (len (runes_of_ascii field) + 1 + len (values_text vs))))) as Hc.
  destruct (mapM Compile _); [rewrite Hc; by apply Hout|]. by destruct Hc as [e ->].
Qed.

Lemma parseKV_valid kv out out' p rest : valid_kv kv -> at_ p (kv_text kv ++ rest) ->
  add_kv (inputValuesType out) kv out = Some out' ->
  parseKV out p = (POk out', adv p (len (kv_text kv))).
Proof.
  destruct kv as [field vs]. intros (Hf & Hne & Hvs) Hp Ha. cbn [fst snd] in *. unfold kv_text in *. cbn [fst snd app] in *.
  rewrite <- app_assoc in Hp. cbn [app] in Hp. pose proof (at_cons _ _ _ Hp) as H1. unfold parseKV. rewrite skip_bind.
  rewrite (pbind_POk _ _ _ _ _ (parseField_valid field _ _ Hf H1)).
  assert (at_ (adv (adv p 1) (len (runes_of_ascii field) + 1)) (values_text vs ++ rest)) as H2.
  { rewrite <- (adv_adv (adv p 1)). by eapply at_cons, at_adv. }
  rewrite (pbind_POk _ _ _ _ _ (parseValues_values vs _ rest Hne Hvs H2)). rewrite !adv_adv, len_cons, len_app, len_cons.
  replace (1 + (len (runes_of_ascii field) + (1 + len (values_text vs))))
    with (1 + (len (runes_of_ascii field) + 1 + len (values_text vs))) by lia.
  unfold add_kv in Ha. cbn [fst snd] in Ha. destruct (inputValuesType out); [by injection Ha as <-|].
  pose proof (compilePatterns_spec field (string_of <$> vs)
    (adv p (1 + (len (runes_of_ascii field) + 1 + len (values_text vs))))) as Hc.
  destruct (mapM Compile _); [|done]. injection Ha as <-. by rewrite (pbind_POk _ _ _ _ _ Hc).
Qed.

Lemma Parse_loop_ends f : forall out p l, at_ p l -> (length l < f)%nat ->
  ends (Parse_loop f out) p (fun out' _ => exists kvs,
    l = kvs ≫= kv_text /\ Forall valid_kv kvs /\ add_kvs (inputValuesType out) kvs out = Some out' /\
    maxPos p <= input_cap p).
Proof.
  induction f as [|f IH]; intros out p l Hp Hf; [lia|]. cbn [Parse_loop]. apply ends_bind, ends_attempt.
  - apply (ends_lookupOne p l); [done|]. intros c l' ->. destruct (Z.eqb_spec c (ch "/")) as [->|]; [|apply ends_throw_at].
    cbn [negb]. apply ends_bind. eapply ends_mono; [by apply (parseKV_ends out p l')|].
    intros out' p' (kv & rest & E & Hkv & Ha & ->). rewrite E in Hp, Hf. rewrite length_app in Hf.
    eapply ends_mono; [apply (IH out' _ rest); [by apply at_adv|cbn [length kv_text] in Hf; lia]|].
    intros out2 p2 (kvs & -> & Hkvs & Has & Hm). rewrite (add_kv_type _ _ _ _ Ha) in Has. exists (kv :: kvs).
    split_and!; [done|by constructor|by cbn; rewrite Ha|done].
  - intros e p' E. rewrite (lookupOne_at _ _ Hp) in E. destruct l as [|c l]; [|done]. exists []. unfold at_end in E.
    destruct (Z.leb_spec (maxPos p) (input_cap p)); [|done]. split_and!; [done|constructor|done|done].
Qed.

Lemma Parse_loop_valid kvs : Forall valid_kv kvs -> forall f out out' p,
  at_ p (kvs ≫= kv_text) -> (length (kvs ≫= kv_text) < f)%nat -> maxPos p <= input_cap p ->
  add_kvs (inputValuesType out) kvs out = Some out' -> fst (Parse_loop f out p) = POk out'.
Proof.
  induction 1 as [|kv kvs Hkv _ IH]; intros [|f] out out' p Hp Hf Hm Ha; try lia; cbn [Parse_loop].
  - rewrite (pbind_POk (attempt lookupOne) _ p (inr io_EOF) p).
    + by injection Ha as <-.
    + unfold attempt. rewrite (lookupOne_at _ _ Hp). unfold at_end. by rewrite (proj2 (Z.leb_le _ _) Hm).
  - cbn [add_kvs] in Ha. destruct (add_kv (inputValuesType out) kv out) as [out1|] eqn:E; [|done]. cbn in Ha.
    rewrite bind_cons in Hp, Hf. rewrite length_app in Hf.
    rewrite (pbind_POk (attempt lookupOne) _ p (inl (ch "/")) p) by (unfold attempt; by rewrite (lookupOne_at _ _ Hp)).
    rewrite Z.eqb_refl. cbn [negb]. rewrite (pbind_POk _ _ _ _ _ (parseKV_valid kv out out1 p _ Hkv Hp E)).
    apply IH; [by apply at_adv|cbn [length kv_text] in Hf; lia|done|]. by rewrite (add_kv_type _ _ _ _ E).
Qed.
End parse.
