(* ===== verification/SubjectTheorems.v ===== *)
(** What the client certificate check accepts: the subjects the parser
    accepts, and the certificates a configured subject accepts. *)
From Stdlib Require Import ZArith Lia Strings.Byte.
From stdpp Require Import base list strings gmap sorting.
From S2P Require Import Prelude GoLib Utf8 Subject SubjectFacts.
Local Open Scope Z_scope.
Local Open Scope parser_scope.

Section parser.
Context {RE : RegexpPkg} {RT : Runtime}.

(** ** The new parser *)

Lemma scalars_app l l' : scalars (l ++ l') <-> scalars l /\ scalars l'.
Proof. apply Forall_app. Qed.

Lemma scalars_zeros n : scalars (replicate n 0).
Proof. by apply Forall_replicate. Qed.

Lemma new_at s : at_ (NewSubjectParser s) (text (NewSubjectParser s)).
Proof.
  set (l := runes (TrimPrefix "'"%byte (TrimSuffix "'"%byte s))).
  pose proof (rune_cap_ge (len l) (len_nonneg l)) as Hc. pose proof (len_nonneg s). pose proof (len_nonneg l).
  unfold at_, text. cbn [NewSubjectParser pos maxPos input input_cap]. fold l.
  split_and!; [lia|done|done| |  |done].
  - unfold scalars. apply Forall_take. apply scalars_app. split; [apply runes_scalars|apply scalars_zeros].
  - unfold len in *. rewrite length_take, length_app, length_replicate. lia.
Qed.

(** Too short an input gives an error, or the end of the array a panic. *)
Lemma consume2_short p l (Q : list rune * option perr -> parser -> Prop) :
  at_ p l -> pos p = 0 -> len l < 2 -> (forall w e p', Q (w, Some e) p') -> ends (consume 2) p Q.
Proof.
  intros Hp H0 Hl HQ. unfold ends, consume, clip. rewrite H0. pose proof Hp as (_ & Hm & Hc & _ & E & _).
  destruct (Z.ltb_spec (maxPos p) (0 + 2)).
  - destruct (_ =? 0); [apply HQ|]. destruct (input_slice _ _ _); [apply HQ|done].
  - unfold input_slice. replace (0 + 2 <=? input_cap p) with false by (symmetry; apply Z.leb_gt; lia).
    by rewrite andb_false_r.
Qed.

Lemma consume2_cons p c0 c1 l : at_ p (c0 :: c1 :: l) -> consume 2 p = (POk ([c0; c1], None), adv p 2).
Proof.
  intros Hp. destruct (input_slice_at p [c0; c1] l Hp) as [E1 E2]. change (len [c0; c1]) with 2 in *.
  unfold consume, clip. rewrite E1. cbn [Z.eqb]. by rewrite E2.
Qed.

Lemma prefix_type c0 c1 :
  (c0 =? ch "s") && (c1 =? ch ":") = true -> [c0; c1] = prefix_text ClientCertificateSubjectPrefixString.
Proof. intros [->%Z.eqb_eq ->%Z.eqb_eq]%andb_true_iff. done. Qed.
Lemma prefix_type' c0 c1 :
  (c0 =? ch "r") && (c1 =? ch ":") = true -> [c0; c1] = prefix_text ClientCertificateSubjectPrefixPattern.
Proof. intros [->%Z.eqb_eq ->%Z.eqb_eq]%andb_true_iff. done. Qed.

Lemma Parse_ends s :
  ends Parse (NewSubjectParser s) (fun out _ => exists t kvs,
    text (NewSubjectParser s) = subject_text t kvs /\ Forall valid_kv kvs /\ subject_of t kvs = Some out /\
    len s <= input_cap (NewSubjectParser s)).
Proof.
  set (p := NewSubjectParser s). pose proof (new_at s) as Hp. fold p in Hp. unfold Parse. apply ends_bind.
  destruct (text p) as [|c0 [|c1 l]] eqn:E;
    [apply (consume2_short p _ _ Hp); [done|unfold len; simpl; lia|done]..|].
  unfold ends at 1. rewrite (consume2_cons p c0 c1 l Hp). apply ends_bind, ends_enough.
  pose proof (at_adv p [c0; c1] l Hp) as H2. change (len [c0; c1]) with 2 in H2. pose proof (at_enough _ _ H2) as He.
  destruct (_ && _) eqn:E1; [|destruct ((c0 =? ch "r") && _) eqn:E2; [|done]].
  - eapply ends_mono; [apply (Parse_loop_ends _ _ _ l H2); lia|]. intros out _ (kvs & -> & Hk & Ha & Hm).
    exists ClientCertificateSubjectPrefixString, kvs. unfold subject_text. rewrite <- (prefix_type _ _ E1). done.
  - eapply ends_mono; [apply (Parse_loop_ends _ _ _ l H2); lia|]. intros out _ (kvs & -> & Hk & Ha & Hm).
    exists ClientCertificateSubjectPrefixPattern, kvs. unfold subject_text. rewrite <- (prefix_type' _ _ E2). done.
Qed.

Lemma Parse_text s t kvs out :
  text (NewSubjectParser s) = subject_text t kvs -> Forall valid_kv kvs -> subject_of t kvs = Some out ->
  len s <= input_cap (NewSubjectParser s) -> parseSubject s = POk out.
Proof.
  set (p := NewSubjectParser s). intros E Hk Ha Hm. pose proof (new_at s) as Hp. fold p in Hp. rewrite E in Hp.
  unfold subject_text in *. unfold parseSubject. fold p. unfold Parse.
  assert (exists c0 c1, prefix_text t = [c0; c1]) as (c0 & c1 & Et) by (destruct t; by do 2 eexists).
  rewrite Et in Hp. rewrite (pbind_POk _ _ _ _ _ (consume2_cons p c0 c1 _ Hp)). cbv beta iota.
  pose proof (at_adv p [c0; c1] _ Hp) as H2. change (len [c0; c1]) with 2 in H2. pose proof (at_enough _ _ H2) as He.
  unfold pbind, enough. cbv beta iota. destruct t; injection Et as <- <-; cbn [Z.eqb byteZ andb].
  all: change (ch "s" =? ch "s") with true; change (ch "r" =? ch "s") with false; change (ch ":" =? ch ":") with true;
    change (ch "r" =? ch "r") with true; cbv beta iota delta [andb];
    (apply (Parse_loop_valid kvs Hk); [exact H2|lia|exact Hm|exact Ha]).
Qed.

(** ** Quotes and other characters *)

Lemma TrimPrefix_length c s : (length (TrimPrefix c s) <= length s)%nat /\
  (length (TrimPrefix c s) = length s -> TrimPrefix c s = s).
Proof. destruct s as [|b s]; [done|]. cbn [TrimPrefix]. destruct (decide _); simpl; split; lia || done. Qed.

Lemma TrimSuffix_length c s : (length (TrimSuffix c s) <= length s)%nat /\
  (length (TrimSuffix c s) = length s -> TrimSuffix c s = s).
Proof.
  unfold TrimSuffix. destruct (last s) as [b|] eqn:E; [|done]. destruct (decide _); [|done].
  rewrite length_take. destruct s; [done|]. simpl. split; lia.
Qed.

Lemma last_replicate {A} n (a : A) : (0 < n)%nat -> last (replicate n a) = Some a.
Proof. intros Hn. destruct n; [lia|]. by rewrite replicate_S_end, last_snoc. Qed.

Lemma last_subject_text t kvs : Forall valid_kv kvs -> exists c, last (subject_text t kvs) = Some c /\ c <> 0 /\ c <> 39.
Proof.
  intros Hk. unfold subject_text. destruct kvs as [|kv kvs _] using rev_ind.
  { exists (ch ":"). by destruct t. }
  apply Forall_app in Hk as [_ Hk]. inversion_clear Hk as [|? ? (Hf & Hne & Hv) _].
  rewrite bind_app, app_assoc. cbn [mbind list_bind]. rewrite app_nil_r. destruct kv as [field [|v vs]]; [done|].
  exists (ch "]"). split; [|done]. replace (kv_text (field, v :: vs))
    with ((ch "/" :: runes_of_ascii field ++ ch "=" :: ch "[" :: v ++ more_text vs) ++ [ch "]"]).
  - by rewrite app_assoc, last_snoc.
  - unfold kv_text. cbn [fst snd values_text]. cbn [app]. rewrite <- app_assoc. cbn [app]. by rewrite <- app_assoc.
Qed.

Lemma TrimPrefix_id c s : head s <> Some c -> TrimPrefix c s = s.
Proof. destruct s as [|b s]; [done|]. cbn. intros. rewrite decide_False; [done|congruence]. Qed.

Lemma TrimSuffix_id c s : last s <> Some c -> TrimSuffix c s = s.
Proof. unfold TrimSuffix. destruct (last s) as [b|]; [|done]. intros. rewrite decide_False; [done|congruence]. Qed.

(** An accepted input is read to its end inside the runes: behind them are
    zeros, which end no text of the grammar. *)
Lemma accepted_text s t kvs :
  text (NewSubjectParser s) = subject_text t kvs -> Forall valid_kv kvs -> len s <= input_cap (NewSubjectParser s) ->
  runes s = subject_text t kvs /\ len (runes s) = len s.
Proof.
  intros E Hk Hm. destruct (last_subject_text t kvs Hk) as (c & Hc & Hc0 & _). rewrite <- E in Hc.
  unfold text in E, Hc. cbn [NewSubjectParser input input_cap maxPos] in *.
  set (s1 := TrimSuffix "'"%byte s) in *. set (s2 := TrimPrefix "'"%byte s1) in *.
  destruct (TrimSuffix_length "'"%byte s) as [L1 I1]. destruct (TrimPrefix_length "'"%byte s1) as [L2 I2].
  fold s1 in L1, I1. fold s2 in L2, I2. pose proof (runes_length s2) as L3.
  destruct (decide (length (runes s2) = length s)) as [El|El].
  - assert (s2 = s) as Es by (rewrite I2, I1; lia || done). rewrite Es in *.
    unfold len in *. rewrite Nat2Z.id in E. split; [|lia].
    rewrite <- El in E. rewrite take_app_len in E. done.
  - exfalso. apply Hc0. unfold len in Hc, Hm.
    rewrite Nat2Z.id, take_app_ge, take_replicate in Hc by lia.
    rewrite last_app, last_replicate in Hc; [by injection Hc|]. lia.
Qed.

Lemma parseSubject_sound s out : parseSubject s = POk out -> exists t kvs,
  runes s = subject_text t kvs /\ len (runes s) = len s /\ Forall valid_kv kvs /\ subject_of t kvs = Some out.
Proof.
  intros E. pose proof (Parse_ends s) as Hp. unfold ends in Hp. unfold parseSubject in E.
  destruct (Parse (NewSubjectParser s)) as [r p']. cbn in E. subst r.
  destruct Hp as (t & kvs & Et & Hk & Ha & Hm). destruct (accepted_text s t kvs Et Hk Hm). by exists t, kvs.
Qed.

Lemma parseSubject_complete s t kvs out :
  runes s = subject_text t kvs -> len (runes s) = len s -> Forall valid_kv kvs -> subject_of t kvs = Some out ->
  parseSubject s = POk out.
Proof.
  intros E Hl Hk Ha.
  assert (TrimSuffix "'"%byte s = s) as E1.
  { apply TrimSuffix_id. intros Hs. apply last_Some in Hs as [s' ->]. destruct (last_subject_text t kvs Hk) as (c & Hc & _ & H39).
    rewrite <- E, runes_snoc, last_snoc in Hc by done. injection Hc as <-. done. }
  assert (TrimPrefix "'"%byte s = s) as E2.
  { apply TrimPrefix_id. intros Hs. destruct s as [|b s]; [done|]. injection Hs as ->. by destruct t. }
  pose proof (rune_cap_ge (len (runes s)) (len_nonneg _)) as Hc.
  apply (Parse_text s t kvs out); [|done|done|]; unfold text; cbn [NewSubjectParser input input_cap maxPos]; rewrite E1, E2.
  - rewrite <- E, <- Hl. rewrite to_nat_len. apply take_app_len.
  - by rewrite <- Hl.
Qed.

(** C15: The subjects the parser accepts are exactly the texts of the grammar,
    each character one byte long: a prefix [s:] or [r:] and fields
    [/KEY=[v1,v2]] with a known key, values with balanced brackets and escapes,
    whose patterns compile; and the subject is the one the text says, the last
    list of a key standing, sorted for [s:]. *)
Theorem subjects_accepted_exactly s out :
  parseSubject s = POk out <-> exists t kvs,
    runes s = subject_text t kvs /\ len (runes s) = len s /\ Forall valid_kv kvs /\ subject_of t kvs = Some out.
Proof.
  split; [apply parseSubject_sound|]. intros (t & kvs & E & Hl & Hk & Ha). by eapply parseSubject_complete.
Qed.

(** A subject in single quotes, which the constructor means to remove, and
    one with a character that takes several bytes, are never accepted: the
    parser reads on to the byte length of the whole argument, into the cleared
    rest of the array or past it.*)
Theorem quoted_subjects_rejected s t out :
  s = "'"%byte :: t \/ s = t ++ ["'"%byte] \/ len (runes s) < len s -> parseSubject s <> POk out.
Proof.
  intros Hs E. apply parseSubject_sound in E as (ty & kvs & E & Hl & Hk & _).
  destruct Hs as [->|[->|Hs]]; [by destruct ty| |lia].
  destruct (last_subject_text ty kvs Hk) as (c & Hc & _ & H39).
  rewrite <- E, runes_snoc, last_snoc in Hc by done. injection Hc as <-. done.
Qed.

(** Parsing ends: it never runs out of the fuel of the model's loops.*)
Theorem Parse_terminates s : parseSubject s <> OutOfFuel.
Proof.
  intros E. pose proof (Parse_ends s) as Hp. unfold ends in Hp. unfold parseSubject in E.
  destruct (Parse (NewSubjectParser s)) as [r p']. cbn in E. by subst r.
Qed.
End parser.

Lemma quoted_subjects_rejected_witness :
  @parseSubject literal_regexps even_runtime ($"'s:/CN=[a]'") <> POk (@DefaultParsedSubject literal_regexps).
Proof.
  apply (@quoted_subjects_rejected literal_regexps even_runtime _ ($"s:/CN=[a]'")). left. vm_compute. reflexivity.
Defined.
