(* ===== verification/ClientCert.v ===== *)
(** Which certificates the check accepts.

    Checking a certificate against an [s:] subject sorts the certificate's own
    lists; [cert_equiv] is equality up to that, the checks of [s:] subjects
    respect it, and so their answers depend neither on the order in which a Go
    map is ranged over nor on the checks before.  With [r:] subjects beside
    them this is lost ([mixed_subjects_depend_on_map_order]). *)
From Stdlib Require Import ZArith Lia Strings.Byte.
From stdpp Require Import base list strings gmap sorting.
From S2P Require Import Prelude GoLib GoStrings Utf8 Subject SubjectFacts SubjectTheorems.
Local Open Scope Z_scope.

(** ** [sort.Strings] *)

Lemma byteZ_inj a b : byteZ a = byteZ b -> a = b.
Proof. intros E. by rewrite <- (Zbyte_byteZ a), E, Zbyte_byteZ. Qed.

Lemma bytes_le_cons a s b t :
  bytes_le (a :: s) (b :: t) <-> byteZ a < byteZ b \/ (a = b /\ bytes_le s t).
Proof.
  unfold bytes_le. cbn [bytes_leb]. destruct (Z.eqb_spec (byteZ a) (byteZ b)) as [E|E].
  - apply byteZ_inj in E as ->. split; [by right|intros [?|[_ ?]]; [lia|done]].
  - rewrite Z.ltb_lt. split; [by left|intros [?|[-> _]]; done].
Qed.

#[export] Instance bytes_le_trans : Transitive bytes_le.
Proof.
  intros s. induction s as [|a s IH]; intros [|b t] [|c u] H1 H2; try done.
  apply bytes_le_cons in H1, H2. apply bytes_le_cons.
  destruct H1 as [?|[-> H1]], H2 as [?|[-> H2]]; [left; lia|by left|by left|right; split; [done|by eapply IH]].
Qed.
#[export] Instance bytes_le_antisymm : AntiSymm (=) bytes_le.
Proof.
  intros s. induction s as [|a s IH]; intros [|b t] H1 H2; try done.
  apply bytes_le_cons in H1, H2. destruct H1 as [?|[-> H1]], H2 as [?|[E H2]]; [lia|subst; lia|lia|].
  f_equal. by apply IH.
Qed.
#[export] Instance bytes_le_total : Total bytes_le.
Proof.
  intros s. induction s as [|a s IH]; intros [|b t]; [by left|by left|by right|].
  rewrite !bytes_le_cons. destruct (Z.lt_trichotomy (byteZ a) (byteZ b)) as [?|[E|?]]; [by left; left| |by right; left].
  apply byteZ_inj in E as ->. destruct (IH t); [left|right]; by right.
Qed.

Lemma sort_Strings_perm l : sort_Strings l ≡ₚ l.
Proof. apply merge_sort_Permutation. Qed.

(** Sorting forgets the order and nothing else. *)
Lemma sort_Strings_eq l l' : sort_Strings l = sort_Strings l' <-> l ≡ₚ l'.
Proof.
  split.
  - intros E. by rewrite <- (sort_Strings_perm l), E, sort_Strings_perm.
  - intros E. apply (StronglySorted_unique bytes_le); [apply StronglySorted_merge_sort; apply _..|].
    by rewrite !sort_Strings_perm.
Qed.

#[export] Instance sort_Strings_proper : Proper ((≡ₚ) ==> (=)) sort_Strings.
Proof. intros l l' E. by apply sort_Strings_eq. Qed.

Lemma sort_Strings_idemp l : sort_Strings (sort_Strings l) = sort_Strings l.
Proof. apply sort_Strings_eq, sort_Strings_perm. Qed.

(** ** Certificates up to the order of their values *)

Definition cert_equiv (c c' : Name) : Prop :=
  CommonName c = CommonName c' /\ Country c ≡ₚ Country c' /\ Province c ≡ₚ Province c' /\
  Locality c ≡ₚ Locality c' /\ Organization c ≡ₚ Organization c' /\ OrganizationalUnit c ≡ₚ OrganizationalUnit c'.

#[export] Instance cert_equiv_equivalence : Equivalence cert_equiv.
Proof.
  split.
  - intros c. unfold cert_equiv. by split_and!.
  - intros c c' H. unfold cert_equiv in *. destruct_and!. split_and!; by symmetry.
  - intros c c' c'' H1 H2. unfold cert_equiv in *. destruct_and!. split_and!; by etrans.
Qed.

Lemma certValues_equiv k c c' : cert_equiv c c' -> option_Forall2 (≡ₚ) (certValues k c) (certValues k c').
Proof.
  intros (E & H2 & H3 & H4 & H5 & H6). unfold certValues.
  repeat (destruct (decide _); [constructor; first [assumption | by rewrite E]|]). constructor.
Qed.

Lemma set_certValues_equiv k v l c : certValues k c = Some v -> l ≡ₚ v -> cert_equiv (set_certValues k l c) c.
Proof.
  intros Hv Hl. unfold cert_equiv, set_certValues. cbn. unfold certValues in Hv.
  split_and!; [done|..]; (match goal with |- context [decide ?Q] => destruct (decide Q) as [->|] end; [|done]);
    repeat rewrite decide_False in Hv by done; rewrite decide_True in Hv by done; by injection Hv as <-.
Qed.

(** The certificates of a handshake. *)
Abbreviation certs := (gmap positive Name).

Section validate.
Context {RE : RegexpPkg} {RT : Runtime}.

(** ** One subject *)

(** What a subject asks of a certificate. *)
Definition strings_match (m : gmap bytes (list bytes)) (c : Name) : Prop :=
  forall k v values, m !! k = Some v -> certValues k c = Some values -> v = sort_Strings values.
Definition patterns_match (m : gmap bytes (list Regexp)) (c : Name) : Prop :=
  forall k v values, m !! k = Some v -> certValues k c = Some values -> Forall2 (fun re s => Match re s = true) v values.
Definition satisfies (s : ParsedSubject) (c : Name) : Prop :=
  match inputValuesType s with
  | ClientCertificateSubjectPrefixString => strings_match (kvs s) c
  | ClientCertificateSubjectPrefixPattern => patterns_match (regexpkvs s) c
  end.

#[export] Instance strings_match_proper m : Proper (cert_equiv ==> iff) (strings_match m).
Proof.
  assert (forall c c', cert_equiv c c' -> strings_match m c -> strings_match m c') as H.
  { intros c c' E Hm k v values Hk Hv. pose proof (certValues_equiv k c c' E) as F. rewrite Hv in F.
    inversion F as [values0 ? Hp E1 E2|]; simplify_eq. rewrite (Hm k v values0) by done. by rewrite Hp. }
  intros c c' E. split; apply H; [done|by symmetry].
Qed.

Lemma X509Validate_strings_spec m ks c :
  let '(err, c') := X509Validate_strings m ks c in
  cert_equiv c' c /\
  (err = None <-> forall k v values, k ∈ ks -> m !! k = Some v -> certValues k c = Some values -> v = sort_Strings values).
Proof.
  revert c. induction ks as [|k ks IH]; intros c; cbn [X509Validate_strings].
  { split; [done|]. split; [|done]. intros _ k v values Hk. by apply elem_of_nil in Hk. }
  assert (m !! k = None \/ certValues k c = None -> let '(err, c') := X509Validate_strings m ks c in
    cert_equiv c' c /\ (err = None <-> forall k0 v values, k0 ∈ k :: ks -> m !! k0 = Some v ->
      certValues k0 c = Some values -> v = sort_Strings values)) as Hskip.
  { intros Hn. specialize (IH c). destruct (X509Validate_strings m ks c) as [err c']. destruct IH as [E IH].
    split; [done|]. rewrite IH. split; intros Ha k0 v values Hk0 Hv Hc.
    - apply elem_of_cons in Hk0 as [->|Hk0]; [destruct Hn; congruence|by eapply Ha].
    - eapply Ha; [by right|done|done]. }
  destruct (m !! k) as [v|] eqn:Ev; [|by apply Hskip; left].
  destruct (certValues k c) as [values|] eqn:Ec; [|by apply Hskip; right].
  unfold testCertValuesSlicesStringSubject. pose proof (set_certValues_equiv k values (sort_Strings values) c Ec
    (sort_Strings_perm values)) as E1. destruct (bool_decide_reflect (v = sort_Strings values)) as [->|Hn].
  - specialize (IH (set_certValues k (sort_Strings values) c)).
    destruct (X509Validate_strings m ks _) as [err c']. destruct IH as [E2 IH]. split; [by etrans|]. rewrite IH.
    assert (forall (k0 : bytes) (vs : list bytes), certValues k0 c = Some vs -> exists vs',
      certValues k0 (set_certValues k (sort_Strings values) c) = Some vs' /\ vs' ≡ₚ vs) as Hto.
    { intros k0 vs Hvs. pose proof (certValues_equiv k0 _ _ E1) as F. rewrite Hvs in F.
      inversion F as [vs' ? Hp F1 F2|]; simplify_eq. by exists vs'. }
    split; intros Ha k0 v0 vs Hk0 Hv0 Hc0.
    + apply elem_of_cons in Hk0 as [->|Hk0]; [congruence|]. destruct (Hto k0 vs Hc0) as (vs' & Hc1 & Hp).
      rewrite (Ha k0 v0 vs') by done. by rewrite Hp.
    + pose proof (certValues_equiv k0 _ _ E1) as F. rewrite Hc0 in F. inversion F as [? vs' Hp F1 F2|]; simplify_eq.
      rewrite (Ha k0 v0 vs') by (done || by right). by rewrite Hp.
  - split; [done|]. split; [done|]. intros Ha. exfalso. apply Hn. eapply Ha; [by left|done|done].
Qed.

Lemma matchAll_spec field expected rest received : length expected = length rest ->
  matchAll field expected rest received = None <-> Forall2 (fun re s => Match re s = true) expected rest.
Proof.
  revert rest. induction expected as [|re expected IH]; intros [|v rest] Hl; try done.
  cbn [matchAll]. rewrite Forall2_cons. destruct (Match re v).
  - rewrite IH by (injection Hl; done). naive_solver.
  - naive_solver.
Qed.

Lemma testCertValuesSlicesRegexpSubject_spec field expected received :
  testCertValuesSlicesRegexpSubject field expected received = None <->
  Forall2 (fun re s => Match re s = true) expected received.
Proof.
  unfold testCertValuesSlicesRegexpSubject. destruct (Z.eqb_spec (len expected) (len received)) as [E|E]; cbn [negb].
  - apply matchAll_spec. unfold len in E. lia.
  - split; [done|]. intros H%Forall2_length. unfold len in E. lia.
Qed.

Lemma X509Validate_patterns_spec m ks c :
  X509Validate_patterns m ks c = None <->
  forall k v values, k ∈ ks -> m !! k = Some v -> certValues k c = Some values ->
    Forall2 (fun re s => Match re s = true) v values.
Proof.
  induction ks as [|k ks IH]; cbn [X509Validate_patterns].
  { split; [|done]. intros _ k v values Hk. by apply elem_of_nil in Hk. }
  setoid_rewrite elem_of_cons.
  destruct (m !! k) as [v|] eqn:Ev; [destruct (certValues k c) as [values|] eqn:Ec|].
  - destruct (testCertValuesSlicesRegexpSubject k v values) as [e|] eqn:Et.
    + split; [done|]. intros Ha. specialize (Ha k v values (or_introl eq_refl) Ev Ec).
      apply (testCertValuesSlicesRegexpSubject_spec k) in Ha. congruence.
    + apply testCertValuesSlicesRegexpSubject_spec in Et. rewrite IH. naive_solver.
  - rewrite IH. naive_solver.
  - rewrite IH. naive_solver.
Qed.

Lemma elem_of_map_keys {V} (m : gmap bytes V) k v : m !! k = Some v -> k ∈ map_keys m.
Proof.
  intros E. unfold map_keys. apply list_elem_of_fmap. exists (k, v). split; [done|]. by apply elem_of_map_to_list.
Qed.

(** Both kinds of subjects, whatever the order of the range over the map. *)
Lemma X509Validate_strings_subject (ord : list bytes -> list bytes) s c :
  (forall ks, ord ks ≡ₚ ks) -> inputValuesType s = ClientCertificateSubjectPrefixString ->
  let '(err, c') := X509Validate ord s c in cert_equiv c' c /\ (err = None <-> satisfies s c).
Proof.
  intros Ho Ht. unfold X509Validate, satisfies. rewrite Ht.
  pose proof (X509Validate_strings_spec (kvs s) (ord (map_keys (kvs s))) c) as Hs.
  destruct (X509Validate_strings _ _ c) as [err c']. destruct Hs as [E Hs]. split; [done|]. rewrite Hs. unfold strings_match.
  setoid_rewrite (Ho (map_keys (kvs s))). split; [|by eauto]. intros Ha k v values Hk. apply Ha; [|done].
  by eapply elem_of_map_keys.
Qed.

Lemma X509Validate_patterns_subject (ord : list bytes -> list bytes) s c :
  (forall ks, ord ks ≡ₚ ks) -> inputValuesType s = ClientCertificateSubjectPrefixPattern ->
  let '(err, c') := X509Validate ord s c in c' = c /\ (err = None <-> satisfies s c).
Proof.
  intros Ho Ht. unfold X509Validate, satisfies. rewrite Ht. split; [done|]. rewrite X509Validate_patterns_spec.
  unfold patterns_match. setoid_rewrite (Ho (map_keys (regexpkvs s))). split; [|by eauto].
  intros Ha k v values Hk. apply Ha; [|done]. by eapply elem_of_map_keys.
Qed.

(** ** All chains *)

Section chains.
(** The certificates keep standing in the relation [R] to the presented ones. *)
Context (R : relation Name) `{!Equivalence R} (subjects : list ParsedSubject) (order : nat -> list bytes -> list bytes).
Hypothesis check : forall s n c, s ∈ subjects ->
  let '(err, c') := X509Validate (order n) s c in R c' c /\ (err = None <-> satisfies s c).
Hypothesis respects : forall s c c', s ∈ subjects -> R c c' -> satisfies s c -> satisfies s c'.

Definition certs_equiv (h h' : certs) : Prop := forall i, option_Forall2 R (h !! i) (h' !! i).

Lemma anySubject_spec l cert n h errs h0 : l ⊆ subjects -> certs_equiv h h0 ->
  let '(b, (_, h', _)) := anySubject order l cert (n, h, errs) in
  certs_equiv h' h0 /\ (b = true <-> exists c s, h0 !! cert = Some c /\ s ∈ l /\ satisfies s c).
Proof.
  revert n h errs. induction l as [|s l IH]; intros n h errs Hl Hh; cbn [anySubject].
  { split; [done|]. split; [done|]. intros (c & s & _ & Hs & _). by apply elem_of_nil in Hs. }
  pose proof (Hh cert) as Hc. destruct (h !! cert) as [c|] eqn:E1.
  2:{ inversion Hc as [|E0 E2]. split; [done|]. split; [done|]. intros (c & s' & Hc' & _). congruence. }
  inversion Hc as [? c0 HR E0 E2|]; subst.
  assert (s ∈ subjects) as Hs by (apply Hl; by left). specialize (check s n c Hs) as Hk.
  destruct (X509Validate (order n) s c) as [err c'] eqn:Ev. destruct Hk as [HR' Hk].
  assert (certs_equiv (<[cert := c']> h) h0) as Hh'.
  { intros i. destruct (decide (i = cert)) as [->|Hi]; [|rewrite lookup_insert_ne by done; apply Hh].
    rewrite lookup_insert_eq, <- E2. constructor. by etrans. }
  destruct err as [e|].
  - specialize (IH (S n) (<[cert := c']> h) (errs ++ [e]) ltac:(intros x Hx; apply Hl; by right) Hh').
    destruct (anySubject order l cert _) as [b [[n' h'] errs']]. destruct IH as [IH1 IH2]. split; [done|]. rewrite IH2.
    split; intros (c1 & s1 & Hc1 & Hs1 & Hsat); exists c1, s1; (split; [congruence|]); (split; [|done]); [by right|].
    apply elem_of_cons in Hs1 as [->|Hs1]; [|done]. exfalso. assert (c1 = c0) as -> by congruence.
    assert (satisfies s c) as Hsc by (apply (respects s c0 c Hs); [by symmetry|done]). by apply Hk in Hsc.
  - split; [done|]. split; [intros _|done]. exists c0, s. split; [done|]. split; [by left|].
    apply (respects s c c0 Hs HR). by apply Hk.
Qed.

Lemma anyCert_spec chain st h0 : certs_equiv (snd (fst st)) h0 ->
  let '(b, (_, h', _)) := anyCert order subjects chain st in
  certs_equiv h' h0 /\
  (b = true <-> exists cert c s, cert ∈ chain /\ h0 !! cert = Some c /\ s ∈ subjects /\ satisfies s c).
Proof.
  revert st. induction chain as [|cert chain IH]; intros [[n h] errs] Hh; cbn [anyCert].
  { split; [done|]. split; [done|]. intros (i & c & s & Hi & _). by apply elem_of_nil in Hi. }
  pose proof (anySubject_spec subjects cert n h errs h0 ltac:(done) Hh) as Hs.
  destruct (anySubject order subjects cert (n, h, errs)) as [b [[n' h'] errs']]. destruct Hs as [Hh' Hs]. destruct b.
  - split; [done|]. split; [intros _|done]. destruct (proj1 Hs eq_refl) as (c & s & ? & ? & ?).
    exists cert, c, s. split; [by left|done].
  - specialize (IH (n', h', errs') Hh'). destruct (anyCert order subjects chain _) as [b [[n2 h2] errs2]].
    destruct IH as [IH1 IH2]. split; [done|]. rewrite IH2.
    split; intros (i & c & s & Hi & Hc & Hin & Hsat); exists i, c, s; (split; [|done]); [by right|].
    apply elem_of_cons in Hi as [->|Hi]; [|done]. exfalso. assert (false = true); [apply Hs; by eauto|done].
Qed.

Lemma anyChain_spec chains st h0 : certs_equiv (snd (fst st)) h0 ->
  fst (anyChain order subjects chains st) = true <->
  exists chain cert c s, chain ∈ chains /\ cert ∈ chain /\ h0 !! cert = Some c /\ s ∈ subjects /\ satisfies s c.
Proof.
  revert st. induction chains as [|chain chains IH]; intros st Hh; cbn [anyChain].
  { split; [done|]. intros (l & i & c & s & Hi & _). by apply elem_of_nil in Hi. }
  pose proof (anyCert_spec chain st h0 Hh) as Hs.
  destruct (anyCert order subjects chain st) as [b [[n' h'] errs']]. destruct Hs as [Hh' Hs]. destruct b.
  - split; [intros _|done]. destruct (proj1 Hs eq_refl) as (i & c & s & ? & ? & ? & ?).
    exists chain, i, c, s. split; [by left|done].
  - rewrite (IH (n', h', errs') Hh').
    split; intros (l & i & c & s & Hl & Hi & Hc & Hin & Hsat); exists l, i, c, s; (split; [|done]); [by right|].
    apply elem_of_cons in Hl as [->|Hl]; [|done]. exfalso. assert (false = true); [apply Hs; by eauto 10|done].
Qed.

Lemma verifyPeerCertificate_spec h chains :
  verifyPeerCertificate order subjects h chains = None <->
  subjects = [] \/
  exists chain cert c s, chain ∈ chains /\ cert ∈ chain /\ h !! cert = Some c /\ s ∈ subjects /\ satisfies s c.
Proof.
  unfold verifyPeerCertificate. destruct (Z.eqb_spec (len subjects) 0) as [E|E].
  { split; [intros _; left|done]. destruct subjects; [done|]. rewrite len_cons in E. pose proof (len_nonneg l). lia. }
  assert (certs_equiv h h) as Hh by (intros i; destruct (h !! i); by constructor).
  pose proof (anyChain_spec chains (O, h, []) h Hh) as Hs.
  destruct (anyChain _ _ _ _) as [b [[n h'] errs]]. cbn [fst] in Hs. rewrite <- Hs.
  destruct b; split; [by right|done|done|by intros [->|?]].
Qed.
End chains.

(** With subjects of one kind. *)
Lemma verifyPeerCertificate_kind t order subjects h chains :
  (forall n ks, order n ks ≡ₚ ks) -> Forall (fun s => inputValuesType s = t) subjects ->
  verifyPeerCertificate order subjects h chains = None <->
  subjects = [] \/
  exists chain cert c s, chain ∈ chains /\ cert ∈ chain /\ h !! cert = Some c /\ s ∈ subjects /\ satisfies s c.
Proof.
  intros Ho Ht. rewrite Forall_forall in Ht. destruct t.
  - apply (verifyPeerCertificate_spec cert_equiv).
    + intros s n c Hs. apply X509Validate_strings_subject; [apply Ho|by apply Ht].
    + intros s c c' Hs E. unfold satisfies. rewrite (Ht s Hs). by rewrite E.
  - apply (verifyPeerCertificate_spec (=)).
    + intros s n c Hs. apply X509Validate_patterns_subject; [apply Ho|by apply Ht].
    + by intros s c c' Hs ->.
Qed.

(** ** Configured [s:] subjects *)

(** [s:/K1=[v1,v2]/K2=[v3]], of values without characters of the syntax. *)
Definition print_field (f : bytes * list bytes) : bytes :=
  $"/" ++ fst f ++ $"=[" ++ Join ","%byte (snd f) ++ $"]".
Definition print_subject (fields : list (bytes * list bytes)) : bytes := $"s:" ++ (fields ≫= print_field).

Definition plain (v : bytes) : Prop := Forall (fun b => byteZ b < 128 /\ special (byteZ b) = false) v.
Definition plain_field (f : bytes * list bytes) : Prop :=
  fst f ∈ validSubjectFields /\ snd f <> [] /\ Forall plain (snd f).

(** The values a subject lists for its keys: the last list of a key stands. *)
Definition listed (fields : list (bytes * list bytes)) : gmap bytes (list bytes) :=
  foldl (fun m f => <[fst f := snd f]> m) ∅ fields.

(** The certificate has exactly the listed values, in any order. *)
Definition has_listed (fields : list (bytes * list bytes)) (c : Name) : Prop :=
  forall k vs, listed fields !! k = Some vs -> exists values, certValues k c = Some values /\ values ≡ₚ vs.

Definition field_runes (f : bytes * list bytes) : bytes * list (list rune) := (fst f, runes_of_ascii <$> snd f).

Lemma runes_of_ascii_app s t : runes_of_ascii (s ++ t) = runes_of_ascii s ++ runes_of_ascii t.
Proof. apply fmap_app. Qed.

Lemma plain_ascii v : plain v -> ascii v.
Proof. intros H. unfold ascii. eapply Forall_impl; [exact H|]. by intros b []. Qed.

Lemma plain_value v : plain v -> value (runes_of_ascii v).
Proof. induction 1 as [|b v [_ Hb] _ IH]; [constructor|]. by apply val_rune. Qed.

Lemma string_of_plain v : plain v -> string_of (runes_of_ascii v) = v.
Proof. intros H%plain_ascii. rewrite <- runes_ascii by done. by apply string_of_runes. Qed.

Lemma runes_Join v vs :
  runes_of_ascii (Join ","%byte (v :: vs)) = runes_of_ascii v ++ more_text (runes_of_ascii <$> vs).
Proof.
  revert v. induction vs as [|v' vs IH]; intros v; [by rewrite app_nil_r|].
  change (Join ","%byte (v :: v' :: vs)) with (v ++ [","%byte] ++ Join ","%byte (v' :: vs)).
  rewrite !runes_of_ascii_app, IH. done.
Qed.

Lemma print_field_runes f : snd f <> [] -> runes_of_ascii (print_field f) = kv_text (field_runes f).
Proof.
  destruct f as [k [|v vs]]; [done|]. intros _. unfold print_field, kv_text, field_runes. cbn [fst snd fmap list_fmap values_text].
  rewrite !runes_of_ascii_app, runes_Join, <- !app_assoc. done.
Qed.

Lemma print_subject_runes fields : Forall plain_field fields ->
  runes_of_ascii (print_subject fields) = subject_text ClientCertificateSubjectPrefixString (field_runes <$> fields).
Proof.
  intros H. unfold print_subject, subject_text. rewrite runes_of_ascii_app. f_equal.
  induction H as [|f fields (_ & Hf & _) _ IH]; [done|]. cbn [fmap list_fmap]. rewrite !bind_cons, runes_of_ascii_app, IH.
  by rewrite print_field_runes.
Qed.

Lemma ascii_app s t : ascii s -> ascii t -> ascii (s ++ t).
Proof. unfold ascii. intros. by apply Forall_app. Qed.

Lemma print_subject_ascii fields : Forall plain_field fields -> ascii (print_subject fields).
Proof.
  intros H. unfold print_subject. apply ascii_app; [repeat constructor|].
  induction H as [|[k vs] fields (Hk & Hne & Hvs) _ IH]; [constructor|]. rewrite bind_cons. apply ascii_app; [|done].
  cbn [fst snd] in *. unfold print_field. cbn [fst snd]. repeat apply ascii_app; [repeat constructor| |repeat constructor| |repeat constructor].
  - unfold validSubjectFields in Hk. rewrite !elem_of_cons, elem_of_nil in Hk.
    destruct Hk as [->|[->|[->|[->|[->|[->|[]]]]]]]; repeat constructor.
  - clear Hne IH. induction Hvs as [|v vs Hv Hvs IH]; [constructor|]. destruct vs as [|v' vs]; [by apply plain_ascii|].
    change (Join ","%byte (v :: v' :: vs)) with (v ++ [","%byte] ++ Join ","%byte (v' :: vs)).
    apply ascii_app; [by apply plain_ascii|]. apply ascii_app; [repeat constructor|done].
Qed.

Lemma plain_field_valid f : plain_field f -> valid_kv (field_runes f).
Proof.
  destruct f as [k vs]. intros (Hk & Hne & Hvs). split_and!; [done|by destruct vs|]. cbn [field_runes fst snd].
  apply Forall_fmap. eapply Forall_impl; [exact Hvs|]. intros v. apply plain_value.
Qed.

Lemma field_runes_values vs : Forall plain vs -> string_of <$> (runes_of_ascii <$> vs) = vs.
Proof.
  induction 1 as [|v vs Hv _ IH]; [done|]. cbn [fmap list_fmap] in *. by rewrite IH, string_of_plain.
Qed.

Lemma add_kvs_listed fields out m : Forall plain_field fields -> kvs out = sort_Strings <$> m ->
  exists out', add_kvs ClientCertificateSubjectPrefixString (field_runes <$> fields) out = Some out' /\
    inputValuesType out' = inputValuesType out /\
    kvs out' = sort_Strings <$> foldl (fun m f => <[fst f := snd f]> m) m fields.
Proof.
  intros H. revert out m. induction H as [|[k vs] fields (Hk & Hne & Hvs) _ IH]; intros out m Hm; [by exists out|].
  cbn [fmap list_fmap add_kvs add_kv field_runes fst snd foldl] in *. cbn [mbind option_bind].
  match goal with |- exists out', add_kvs _ _ ?o = _ /\ _ => destruct (IH o (<[k := vs]> m)) as (out' & E & Et & Ek) end.
  - cbn [WithRegexpKVs WithKVs kvs]. rewrite Hm, fmap_insert. by rewrite field_runes_values.
  - exists out'. split_and!; [done| |done]. by rewrite Et.
Qed.

Lemma parse_print_subject fields : Forall plain_field fields ->
  exists s, parseSubject (print_subject fields) = POk s /\
    inputValuesType s = ClientCertificateSubjectPrefixString /\ kvs s = sort_Strings <$> listed fields.
Proof.
  intros H. destruct (add_kvs_listed fields (WithType ClientCertificateSubjectPrefixString DefaultParsedSubject) ∅ H)
    as (s & E & Et & Ek); [by rewrite fmap_empty|]. exists s. split; [|done].
  pose proof (print_subject_ascii fields H) as Ha.
  eapply parseSubject_complete; [| | |exact E].
  - rewrite runes_ascii by done. by apply print_subject_runes.
  - rewrite runes_ascii by done. unfold len, runes_of_ascii. by rewrite length_fmap.
  - apply Forall_fmap. eapply Forall_impl; [exact H|]. apply plain_field_valid.
Qed.

Lemma listed_valid fields k vs : Forall plain_field fields -> listed fields !! k = Some vs -> k ∈ validSubjectFields.
Proof.
  unfold listed. induction fields as [|f fields IH] using rev_ind; intros H Hk; [cbn in Hk; by rewrite lookup_empty in Hk|].
  apply Forall_app in H as [H Hf]. inversion_clear Hf as [|? ? (Hv & _) _]. rewrite foldl_app in Hk. cbn in Hk.
  destruct (decide (k = fst f)) as [->|Hne]; [done|]. rewrite lookup_insert_ne in Hk by done. by apply IH.
Qed.

Lemma certValues_valid k c : k ∈ validSubjectFields -> is_Some (certValues k c).
Proof.
  unfold validSubjectFields. rewrite !elem_of_cons, elem_of_nil.
  intros [->|[->|[->|[->|[->|[->|[]]]]]]]; vm_compute; by eexists.
Qed.

Lemma satisfies_listed s fields c : Forall plain_field fields ->
  inputValuesType s = ClientCertificateSubjectPrefixString -> kvs s = sort_Strings <$> listed fields ->
  satisfies s c <-> has_listed fields c.
Proof.
  intros Hf Et Ek. unfold satisfies, has_listed, strings_match. rewrite Et, Ek. split.
  - intros H k vs Hk. destruct (certValues_valid k c (listed_valid fields k vs Hf Hk)) as [values Hv]. exists values.
    split; [done|]. symmetry. apply sort_Strings_eq. apply (H k); [|done]. by rewrite lookup_fmap, Hk.
  - intros H k v values Hk Hv. rewrite lookup_fmap in Hk. destruct (listed fields !! k) as [vs|] eqn:E; [|done].
    injection Hk as <-. destruct (H k vs E) as (values' & Hv' & Hp). simplify_eq. by apply sort_Strings_eq.
Qed.
End validate.
