(* ===== verification/ClientCertTheorems.v ===== *)
(** What a handshake needs to pass the check of the configured client
    subjects, and how it can depend on chance. *)
From Stdlib Require Import ZArith Lia Strings.Byte.
From stdpp Require Import base list strings gmap sorting.
From S2P Require Import Prelude GoLib GoStrings Utf8 Subject SubjectFacts SubjectTheorems ClientCert.
Local Open Scope Z_scope.

Section theorems.
Context {RE : RegexpPkg} {RT : Runtime}.

Lemma getParsedSubjects_printed cfg : Forall (Forall plain_field) cfg ->
  exists subjects, getParsedSubjects (print_subject <$> cfg) = POk subjects /\
    Forall2 (fun s fields => inputValuesType s = ClientCertificateSubjectPrefixString /\
      kvs s = sort_Strings <$> listed fields) subjects cfg.
Proof.
  induction 1 as [|fields cfg Hf _ (subjects & E & IH)]; [by exists []|]. cbn [fmap list_fmap getParsedSubjects] in *.
  destruct (parse_print_subject fields Hf) as (s & -> & Hs). rewrite E. exists (s :: subjects). by split; [|constructor].
Qed.

(** C13: Configured string subjects [s:/KEY=[v1,..]/..] with plain values
    (ASCII without brackets, left braces, commas and backslashes) accept a
    handshake when one
    certificate of one of its verified chains has, for each key that one of
    the subjects lists, exactly the listed values in any order; otherwise they
    reject it.  With no subject configured every handshake passes.  The answer
    of these subjects does not depend on the order in which Go ranges over the
    subject's map, nor on certificates that several chains share and whose
    values the checks sort; with pattern subjects [r:] among them it can
    ([mixed_subjects_depend_on_map_order]). *)
Theorem configured_subjects_accept cfg :
  Forall (Forall plain_field) cfg ->
  exists verify, tlsClientCertVerificationFunc (print_subject <$> cfg) = POk verify /\
  forall order h chains, (forall n ks, order n ks ≡ₚ ks) ->
  (verify order h chains = None <->
   cfg = [] \/ exists chain cert c fields,
     chain ∈ chains /\ cert ∈ chain /\ h !! cert = Some c /\ fields ∈ cfg /\ has_listed fields c).
Proof.
  intros Hcfg. destruct (getParsedSubjects_printed cfg Hcfg) as (subjects & E & H2).
  unfold tlsClientCertVerificationFunc. rewrite E. eexists. split; [done|]. intros order h chains Ho. cbv beta.
  assert (Forall (fun s => inputValuesType s = ClientCertificateSubjectPrefixString) subjects) as Ht
    by (eapply Forall2_Forall_l; [exact H2|]; by apply Forall_true; intros ? ? []).
  rewrite (verifyPeerCertificate_kind _ order subjects h chains Ho Ht). rewrite Forall_forall in Hcfg.
  split; (intros [->|(chain & cert & c & x & Hchain & Hcert & Hc & Hx & Hsat)]; [left; by inversion H2|right]).
  - destruct (proj1 (list_elem_of_lookup _ _) Hx) as [i Hi]. destruct (Forall2_lookup_l _ _ _ _ _ H2 Hi) as (fields & Hf & Et & Ek).
    apply list_elem_of_lookup_2 in Hf. exists chain, cert, c, fields. split_and!; try done.
    eapply satisfies_listed; [by apply Hcfg|done..].
  - destruct (proj1 (list_elem_of_lookup _ _) Hx) as [i Hi]. destruct (Forall2_lookup_r _ _ _ _ _ H2 Hi) as (s & Hs & Et & Ek).
    apply list_elem_of_lookup_2 in Hs. exists chain, cert, c, s. split_and!; try done.
    eapply satisfies_listed; [by apply Hcfg|done..].
Qed.

End theorems.

(** ** Concrete inputs *)

Definition leaf : Name :=
  {| CommonName := $"client"; Country := []; Province := []; Locality := []; Organization := [$"y"];
     OrganizationalUnit := [$"b"; $"a"] |}.
Definition authority : Name :=
  {| CommonName := $"ca"; Country := []; Province := []; Locality := []; Organization := [$"x"];
     OrganizationalUnit := [] |}.
Definition handshake : gmap positive Name := <[1%positive := leaf]> (<[2%positive := authority]> ∅).
Definition in_order (n : nat) (ks : list bytes) : list bytes := ks.
Definition backwards (n : nat) (ks : list bytes) : list bytes := reverse ks.

(** The subject [s:/O=[x]] is the authority's. *)
Lemma configured_subjects_accept_witness :
  exists verify, @tlsClientCertVerificationFunc literal_regexps even_runtime [$"s:/O=[x]"] = POk verify /\
    verify in_order handshake [[1%positive; 2%positive]] = None.
Proof.
  destruct (@configured_subjects_accept literal_regexps even_runtime [[($"O", [$"x"])]]) as (verify & E & H).
  - constructor; [|constructor]. constructor; [|constructor].
    split_and!; [unfold validSubjectFields; rewrite !elem_of_cons; tauto|done|repeat constructor].
  - exists verify. split; [exact E|]. apply H; [done|]. right.
    exists [1%positive; 2%positive], 2%positive, authority, [($"O", [$"x"])].
    split_and!; [set_solver..|reflexivity|set_solver|]. intros k vs Hk. unfold listed in Hk. cbn [foldl fst snd] in Hk.
    apply lookup_insert_Some in Hk as [[<- <-]|[_ Hk]]; [|by rewrite lookup_empty in Hk].
    eexists. split; [reflexivity|done].
Defined.

(** With [s:] and [r:] subjects together, one and the same handshake passes
    or fails by the order in which Go ranges over a subject's map: the [s:]
    subject sorts the certificate's values before it fails on another key, or
    fails before, and the [r:] subject compares them in the order it finds.*)
Theorem mixed_subjects_depend_on_map_order :
  exists verify, @tlsClientCertVerificationFunc literal_regexps even_runtime
      [$"s:/O=[x]/OU=[zz]"; $"r:/OU=[b,a]"] = POk verify /\
    (forall n ks, in_order n ks ≡ₚ ks) /\ (forall n ks, backwards n ks ≡ₚ ks) /\
    bool_decide (verify in_order handshake [[1%positive]] = None) <>
    bool_decide (verify backwards handshake [[1%positive]] = None).
Proof.
  eexists. split; [reflexivity|]. split; [done|]. split; [intros n ks; apply reverse_Permutation|].
  vm_compute. discriminate.
Qed.
