(* ===== verification/LdapAuth.v ===== *)
(** The LDAP password plugin (cmd/plugin-auth-ldap/main.go) and the plugin with
    one fixed user (cmd/plugin-auth-user/main.go), as the authenticators the
    local SASL server asks ([SaslLocal.doLocalAuthPlain]).

    The directory is reached through the interface [LdapClient] over a state
    [W]; the distinguished names are the program's: [escapeLDAPValue] and
    [getUserBindDN]. *)
From Stdlib Require Import ZArith Lia Strings.Byte.
From stdpp Require Import base list strings gmap.
From S2P Require Import Prelude GoLib GoStrings NetAddr.
Local Open Scope Z_scope.

(** ** Escaping *)

(** [input[i]] *)
Definition index (input : bytes) (i : Z) : res byte :=
  if 0 <=? i then match input !! Z.to_nat i with Some b => Ok b | None => Panic "index out of range" end
  else Panic "index out of range".

Definition backslash : byte := x5c.

(** The cases of the switch: the quotation mark and + , ; < > and the
    backslash. *)
Definition ldap_special (b : byte) : bool := bool_decide (b ∈ [x22; x2b; x2c; x3b; x3c; x3e; x5c]).

(** [input[0:i] + "\\" + input[i:]] *)
Definition insert_backslash (input : bytes) (i : Z) : res bytes :=
  let? before := slice input 0 i in
  let? after := slice_from input i in
  Ok (before ++ [backslash] ++ after).

(** The loop; each round leaves fewer bytes to look at, so [length input]
    rounds are enough ([escape_loop_spec]). *)
Fixpoint escape_loop (fuel : nat) (input : bytes) (i : Z) : res bytes :=
  match fuel with
  | O => Panic "out of fuel"
  | S fuel' =>
      if i <? len input then
        let? b := index input i in
        let escaped := bool_decide (b = backslash) in
        let i := if escaped then i + 1 else i in
        let? b := index input i in
        if ldap_special b then
          if negb escaped then let? input := insert_backslash input i in escape_loop fuel' input (i + 1 + 1)
          else escape_loop fuel' input (i + 1)
        else if escaped then let? input := insert_backslash input i in escape_loop fuel' input (i + 1 + 1)
        else escape_loop fuel' input (i + 1)
      else Ok input
  end.

Definition escapeLDAPValue (input : bytes) : res bytes :=
  let? input := escape_loop (S (length input)) input 0 in
  let? first := index input 0 in
  let input := if bool_decide (first = x20) || bool_decide (first = x23) then [backslash] ++ input else input in
  let? last := index input (len input - 1) in
  if bool_decide (last = x20) then
    let? before := slice input 0 (len input - 1) in
    Ok (before ++ $"\ ")
  else Ok input.

Example escape_comma : escapeLDAPValue ($"a,b") = Ok ($"a\,b").
Proof. reflexivity. Qed.
Example escape_spaces : escapeLDAPValue ($" a ") = Ok ($"\ a\ ").
Proof. reflexivity. Qed.
Example escape_empty : escapeLDAPValue [] = Panic "index out of range".
Proof. reflexivity. Qed.

(** [strings.ReplaceAll(s, old, new)] for a non-empty [old]; [k] bytes of a
    match are still to be passed over. *)
Fixpoint ReplaceAll_from (k : nat) (s old new : bytes) : bytes :=
  match s with
  | [] => []
  | b :: s' =>
      match k with
      | S k' => ReplaceAll_from k' s' old new
      | O => if bool_decide (take (length old) s = old) then new ++ ReplaceAll_from (length old - 1) s' old new
             else b :: ReplaceAll_from O s' old new
      end
  end.
Definition ReplaceAll (s old new : bytes) : bytes := ReplaceAll_from O s old new.

(** ** The plugin *)

Inductive bindResult := Bound | LdapError (ResultCode : Z) | OtherError.
Definition LDAPResultInvalidCredentials : Z := 49.
#[export] Instance bindResult_eq_dec : EqDecision bindResult.
Proof. solve_decision. Defined.

(** go-ldap, and net/url's parse of a URL into scheme and host; [None] of a
    dial is a nil connection without an error. *)
Class LdapClient (W : Type) := {
  LdapConn : Type;
  url_Parse : bytes -> res (bytes * bytes);
  ldap_Dial : bytes -> M W (option LdapConn);
  ldap_DialTLS : bytes -> M W (option LdapConn);
  ldap_StartTLS : LdapConn -> M W unit;
  ldap_Bind : LdapConn -> bytes -> bytes -> M W bindResult;
  ldap_UnauthenticatedBind : LdapConn -> bytes -> M W bindResult;
  ldap_Search : LdapConn -> bytes -> bytes -> M W (list bytes);
  ldap_Close : LdapConn -> M W unit
}.

Record LdapAuthenticator := {
  Urls : list bytes;
  StartTLS : bool;
  UPNDomain : bytes;
  UserDN : bytes;
  UserAttr : bytes;
  SearchLDAP : bool;
  BindDN : bytes;
  BindPassword : bytes;
  UserSearchBase : bytes;
  UserFilter : bytes
}.

Definition UsernamePlaceholder : bytes := $"%u".

Section plugin.
Context {W : Type} `{LdapClient W}.

(** [x, err := m()] *)
Definition try_ {A} (m : M W A) : M W (A + error) := fun w =>
  match m w with
  | (Ok a, w') => (Ok (inl a), w')
  | (Err e, w') => (Ok (inr e), w')
  | (Panic s, w') => (Panic s, w')
  end.

(** One dial of [DialLDAP]: the connection, and whether it is ready. *)
Definition dialURL (pa : LdapAuthenticator) (scheme host port : bytes) : M W (option LdapConn * bool) :=
  if bool_decide (scheme = $"ldap") then
    let port := if bool_decide (port = []) then $"389" else port in
    let* r := try_ (ldap_Dial (JoinHostPort host port)) in
    match r with
    | inl (Some conn) =>
        if StartTLS pa then
          let* t := try_ (ldap_StartTLS conn) in
          match t with inl _ => ret (Some conn, true) | inr _ => ret (Some conn, false) end
        else ret (Some conn, true)
    | _ => ret (None, false)
    end
  else
    let port := if bool_decide (port = []) then $"636" else port in
    let* r := try_ (ldap_DialTLS (JoinHostPort host port)) in
    match r with inl conn => ret (conn, true) | inr _ => ret (None, false) end.

(** The URLs in turn; [failed] says that [retErr] has an error. *)
Fixpoint DialLDAP_loop (pa : LdapAuthenticator) (urls : list bytes) (conn : option LdapConn) (failed : bool)
    : M W (option LdapConn * bool) :=
  match urls with
  | [] => ret (conn, failed)
  | uut :: urls' =>
      match url_Parse uut with
      | Ok (scheme, Host) =>
          let '(host, port) := match net_SplitHostPort Host with Ok hp => hp | _ => (Host, []) end in
          if bool_decide (scheme = $"ldap") || bool_decide (scheme = $"ldaps") then
            let* r := dialURL pa scheme host port in
            let '(conn, ready) := r in
            if ready then ret (conn, false) else DialLDAP_loop pa urls' conn true
          else DialLDAP_loop pa urls' conn true
      | _ => DialLDAP_loop pa urls' conn true
      end
  end.

Definition DialLDAP (pa : LdapAuthenticator) : M W (option LdapConn) :=
  let* r := DialLDAP_loop pa (Urls pa) None false in
  let '(conn, failed) := r in
  if failed then fail (Errorf "errors of the dials") else ret conn.

Definition serviceBind (pa : LdapAuthenticator) (conn : LdapConn) : M W unit :=
  if bool_decide (BindDN pa = []) then ret tt
  else
    let* r := if bool_decide (BindPassword pa = []) then ldap_UnauthenticatedBind conn (BindDN pa)
              else ldap_Bind conn (BindDN pa) (BindPassword pa) in
    match r with Bound => ret tt | _ => fail (Errorf "LDAP bind (service) failed") end.

Definition getUserBindDN (pa : LdapAuthenticator) (conn : LdapConn) (username : bytes) : M W bytes :=
  if SearchLDAP pa then
    do* serviceBind pa conn in
    let filter := ReplaceAll (UserFilter pa) UsernamePlaceholder username in
    let* entries := wrapf (ldap_Search conn (UserSearchBase pa) filter) "base DN %s, filter %s" in
    match entries with
    | [] => fail (Errorf "LDAP user search with base DN %s and filter %s returned empty result")
    | [dn] => ret dn
    | _ => fail (Errorf "LDAP user search with base DN %s and filter %s not unique result")
    end
  else
    let* value := lift (escapeLDAPValue username) in
    if negb (bool_decide (UPNDomain pa = [])) then ret (value ++ $"@" ++ UPNDomain pa)
    else ret (UserAttr pa ++ $"=" ++ value ++ $"," ++ UserDN pa).

(** The deferred [l.Close()] runs on a panic too. *)
Definition deferred_Close {A} (conn : LdapConn) (m : M W A) : M W A := fun w =>
  let '(r, w') := m w in let '(_, w'') := ldap_Close conn w' in (r, w'').

Definition Authenticate (pa : LdapAuthenticator) (username password : bytes) : M W (bool * Z) :=
  let* l := try_ (DialLDAP pa) in
  match l with
  | inr _ | inl None => ret (false, 1)
  | inl (Some l) =>
      deferred_Close l
        (let* dn := try_ (getUserBindDN pa l username) in
         match dn with
         | inr _ => ret (false, 1)
         | inl bindDN =>
             let* r := ldap_Bind l bindDN password in
             match r with
             | Bound => ret (true, 0)
             | LdapError code => if code =? LDAPResultInvalidCredentials then ret (false, 0) else ret (false, 2)
             | OtherError => ret (false, 2)
             end
         end)
  end.
End plugin.

(** ** cmd/plugin-auth-user *)

Record PasswordAuthenticator := { Username : bytes; Password : bytes }.
Definition PasswordAuthenticator_Authenticate {W} (pa : PasswordAuthenticator) (username password : bytes)
    : M W (bool * Z) :=
  ret (bool_decide (username = Username pa) && bool_decide (password = Password pa), 0).
