(* ===== verification/LdapAuthTheorems.v ===== *)
(** The LDAP plugin's distinguished names: an escaped user name is an
    attribute value of RFC 4514 that stands for the user name and cannot leave
    its place in the name; the user names on which escaping panics; and whom
    the local SASL server admits with the plugin. *)
From Stdlib Require Import ZArith Lia Strings.Byte.
From stdpp Require Import base list strings gmap.
From S2P Require Import Prelude GoLib GoStrings NetAddr SaslLocal LdapAuth.
Local Open Scope Z_scope.

(** ** The loop over positions *)

(** The loop as a function of the bytes; [None] where it reads past the end. *)
Fixpoint esc (s : bytes) : option bytes :=
  match s with
  | [] => Some []
  | b :: s' =>
      if decide (b = backslash) then
        match s' with
        | [] => None
        | c :: s'' => t ← esc s''; Some (if ldap_special c then b :: c :: t else b :: b :: c :: t)
        end
      else t ← esc s'; Some (if ldap_special b then backslash :: b :: t else b :: t)
  end.

Lemma index_app pre b rest : index (pre ++ b :: rest) (len pre) = Ok b.
Proof.
  unfold index. pose proof (len_nonneg pre). rewrite (proj2 (Z.leb_le _ _)) by lia. rewrite to_nat_len.
  by rewrite list_lookup_middle.
Qed.

Lemma index_end s : index s (len s) = Panic "index out of range".
Proof.
  unfold index. pose proof (len_nonneg s). rewrite (proj2 (Z.leb_le _ _)) by lia. rewrite to_nat_len.
  by rewrite lookup_ge_None_2 by lia.
Qed.

Lemma insert_backslash_app pre rest :
  insert_backslash (pre ++ rest) (len pre) = Ok (pre ++ [backslash] ++ rest).
Proof.
  unfold insert_backslash. rewrite slice_from_app. pose proof (slice_app [] pre rest) as E.
  change (len (@nil byte)) with 0 in E. rewrite Z.add_0_l in E. cbn [app] in E. by rewrite E.
Qed.

Lemma escape_loop_spec f : forall input i pre rest,
  input = pre ++ rest -> i = len pre -> (length rest < f)%nat ->
  escape_loop f input i =
  match esc rest with Some t => Ok (pre ++ t) | None => Panic "index out of range" end.
Proof.
  induction f as [|f IH]; intros input i pre rest -> -> Hf; [lia|]. cbn [escape_loop].
  destruct rest as [|b rest].
  { rewrite app_nil_r, (proj2 (Z.ltb_ge _ _)) by lia. cbn [esc]. by rewrite app_nil_r. }
  rewrite len_app, len_cons. pose proof (len_nonneg rest). rewrite (proj2 (Z.ltb_lt _ _)) by lia.
  rewrite index_app. cbn [rbind esc length] in *. destruct (decide (b = backslash)) as [->|Hb].
  - rewrite bool_decide_true by done. replace (len pre + 1) with (len (pre ++ [backslash])) by (by rewrite len_app).
    change (pre ++ backslash :: rest) with (pre ++ [backslash] ++ rest). rewrite app_assoc.
    destruct rest as [|c rest]; [by rewrite app_nil_r, index_end|]. rewrite index_app. cbn [rbind negb length] in *.
    destruct (ldap_special c).
    + rewrite (IH _ _ (pre ++ [backslash; c]) rest); [|by rewrite <- !app_assoc|by rewrite !len_app, <- Z.add_assoc|lia].
      destruct (esc rest); cbn; [|done]. by rewrite <- !app_assoc.
    + rewrite insert_backslash_app. cbn [rbind].
      rewrite (IH _ _ (pre ++ [backslash; backslash; c]) rest);
        [|by rewrite <- !app_assoc|by rewrite !len_app, <- !Z.add_assoc|lia].
      destruct (esc rest); cbn; [|done]. by rewrite <- !app_assoc.
  - rewrite bool_decide_false by done. rewrite index_app. cbn [rbind negb]. destruct (ldap_special b).
    + rewrite insert_backslash_app. cbn [rbind].
      rewrite (IH _ _ (pre ++ [backslash; b]) rest); [|by rewrite <- !app_assoc|by rewrite !len_app, <- Z.add_assoc|lia].
      destruct (esc rest); cbn; [|done]. by rewrite <- app_assoc.
    + rewrite (IH _ _ (pre ++ [b]) rest); [|by rewrite <- !app_assoc|by rewrite !len_app|lia].
      destruct (esc rest); cbn; [|done]. by rewrite <- app_assoc.
Qed.

(** ** Values as tokens *)

(** A byte of an attribute value, as it is or behind a backslash. *)
Inductive token := Raw (b : byte) | Esc (b : byte).
#[export] Instance token_eq_dec : EqDecision token.
Proof. solve_decision. Defined.
Definition token_text (t : token) : bytes := match t with Raw b => [b] | Esc b => [backslash; b] end.
Definition token_byte (t : token) : byte := match t with Raw b => b | Esc b => b end.
(** A special byte is never raw; a backslash stands only before a special
    byte, a space or a number sign. *)
Definition token_ok (t : token) : Prop :=
  match t with
  | Raw b => ldap_special b = false
  | Esc b => ldap_special b = true \/ b = x20 \/ b = x23
  end.

(** The name a user name stands for: a backslash before a special byte escapes
    it already. *)
Fixpoint meaning (s : bytes) : bytes :=
  match s with
  | [] => []
  | b :: s' =>
      if decide (b = backslash) then
        match s' with
        | [] => []
        | c :: s'' => if ldap_special c then c :: meaning s'' else b :: c :: meaning s''
        end
      else b :: meaning s'
  end.

Lemma esc_tokens s t : esc s = Some t -> exists ts,
  t = ts ≫= token_text /\ Forall token_ok ts /\ token_byte <$> ts = meaning s /\
  Forall (fun k => match k with Esc b => ldap_special b = true | Raw _ => True end) ts.
Proof.
  assert (forall n s t, (length s <= n)%nat -> esc s = Some t -> exists ts,
    t = ts ≫= token_text /\ Forall token_ok ts /\ token_byte <$> ts = meaning s /\
    Forall (fun k => match k with Esc b => ldap_special b = true | Raw _ => True end) ts) as Hn; [|by apply (Hn (length s))].
  clear s t. induction n as [|n IH]; intros s t Hl E.
  { destruct s; [|simpl in Hl; lia]. injection E as <-. by exists []. }
  destruct s as [|b s]; [injection E as <-; by exists []|]. cbn [esc meaning] in *. simpl in Hl.
  destruct (decide (b = backslash)) as [->|Hb].
  - destruct s as [|c s]; [done|]. destruct (esc s) as [t'|] eqn:E'; [|done]. cbn in E. simpl in Hl.
    destruct (IH s t' ltac:(lia) E') as (ts & -> & Hok & Hm & He). destruct (ldap_special c) eqn:Ec; injection E as <-.
    + exists (Esc c :: ts). split_and!; [done|constructor; [by left|done]|by cbn; rewrite Hm|by constructor].
    + exists (Esc backslash :: Raw c :: ts).
      split_and!; [done|constructor; [by left|by constructor]|by cbn; rewrite Hm|by repeat constructor].
  - destruct (esc s) as [t'|] eqn:E'; [|done]. cbn in E.
    destruct (IH s t' ltac:(lia) E') as (ts & -> & Hok & Hm & He). destruct (ldap_special b) eqn:Eb; injection E as <-.
    + exists (Esc b :: ts). split_and!; [done|constructor; [by left|done]|by cbn; rewrite Hm|by constructor].
    + exists (Raw b :: ts). split_and!; [done|by constructor|by cbn; rewrite Hm|by constructor].
Qed.

(** ** The edges *)

Abbreviation space := (x20 : byte).

Lemma index_last s b : last s = Some b -> index s (len s - 1) = Ok b.
Proof.
  intros [s' ->]%last_Some. rewrite len_app. change (len [b]) with 1. replace (len s' + 1 - 1) with (len s') by lia.
  apply index_app.
Qed.

(** The first byte, escaped where it is a space or a number sign. *)
Definition escape_first (t : bytes) : bytes :=
  match t with b :: _ => if bool_decide (b = space) || bool_decide (b = x23) then backslash :: t else t | [] => t end.
Definition escape_last (t : bytes) : bytes :=
  if bool_decide (last t = Some space) then take (length t - 1) t ++ $"\ " else t.

Lemma escapeLDAPValue_spec u :
  escapeLDAPValue u =
  match esc u with
  | Some ((_ :: _) as t) => Ok (escape_last (escape_first t))
  | _ => Panic "index out of range"
  end.
Proof.
  unfold escapeLDAPValue. rewrite (escape_loop_spec _ u 0 [] u) by (done || lia). destruct (esc u) as [[|b t]|]; [done| |done].
  cbn [app rbind]. change (index (b :: t) 0) with (@Ok byte b). cbn [rbind]. cbv zeta.
  change (if bool_decide (b = x20) || bool_decide (b = x23) then backslash :: b :: t else b :: t)
    with (escape_first (b :: t)).
  assert (exists c, last (escape_first (b :: t)) = Some c) as [c Hc].
  { unfold escape_first. destruct (_ || _); apply last_is_Some; done. }
  rewrite (index_last _ c Hc). cbn [rbind]. unfold escape_last. rewrite Hc.
  destruct (bool_decide_reflect (c = x20)) as [->|Hn]; [|by rewrite bool_decide_false by congruence].
  rewrite bool_decide_true by done. apply last_Some in Hc as [s' E]. rewrite E.
  rewrite len_app. change (len [x20]) with 1. replace (len s' + 1 - 1) with (0 + len s') by lia.
  pose proof (slice_app [] s' [x20]) as Es. change (len (@nil byte)) with 0 in Es. cbn [app] in Es. rewrite Es. cbn [rbind].
  rewrite length_app. cbn [length]. replace (length s' + 1 - 1)%nat with (length s') by lia. by rewrite take_app_len.
Qed.

(** The same on tokens. *)
Definition fix_first (k : token) : token :=
  match k with Raw b => if bool_decide (b = space) || bool_decide (b = x23) then Esc b else k | Esc _ => k end.
Definition fix_last (k : token) : token :=
  match k with Raw b => if bool_decide (b = space) then Esc b else k | Esc _ => k end.

Lemma escape_first_tokens k ts :
  escape_first ((k :: ts) ≫= token_text) = (fix_first k :: ts) ≫= token_text.
Proof. destruct k as [b|b]; [|done]. cbn. by destruct (_ || _). Qed.

Lemma escape_last_tokens ts k : k <> Esc space ->
  escape_last ((ts ++ [k]) ≫= token_text) = (ts ++ [fix_last k]) ≫= token_text.
Proof.
  intros Hk. rewrite !bind_app. set (t := ts ≫= token_text). unfold escape_last. destruct k as [b|b]; cbn [mbind list_bind].
  - cbn [token_text fix_last app]. rewrite last_snoc. destruct (bool_decide_reflect (b = space)) as [->|Hb].
    + rewrite bool_decide_true by done. rewrite length_app. cbn [length].
      replace (length t + 1 - 1)%nat with (length t) by lia. by rewrite take_app_len.
    + by rewrite bool_decide_false by congruence.
  - cbn [token_text fix_last app]. rewrite last_app. cbn [last]. by rewrite bool_decide_false by congruence.
Qed.

Lemma fix_first_ok k : token_ok k ->
  token_ok (fix_first k) /\ token_byte (fix_first k) = token_byte k /\
  fix_first k <> Raw space /\ fix_first k <> Raw x23.
Proof.
  destruct k as [b|b]; cbn; [|by auto]. intros Hb.
  destruct (bool_decide_reflect (b = space)) as [->|H1]; [cbn; auto|].
  destruct (bool_decide_reflect (b = x23)) as [->|H2]; [cbn; auto|]. cbn. split_and!; [done|done|congruence..].
Qed.

Lemma fix_last_ok k : token_ok k ->
  token_ok (fix_last k) /\ token_byte (fix_last k) = token_byte k /\ fix_last k <> Raw space /\
  (fix_last k = k \/ exists b, fix_last k = Esc b).
Proof.
  destruct k as [b|b]; cbn; [|by auto]. intros Hb. destruct (bool_decide_reflect (b = space)) as [->|H1].
  - cbn. split_and!; [auto|done|done|right; by eexists].
  - split_and!; [done|done|congruence|by left].
Qed.

Lemma escaped_tokens u v : escapeLDAPValue u = Ok v -> exists ts,
  v = ts ≫= token_text /\ Forall token_ok ts /\
  (u <> [space] -> token_byte <$> ts = meaning u /\
     head ts <> Some (Raw space) /\ head ts <> Some (Raw x23) /\ last ts <> Some (Raw space)).
Proof.
  rewrite escapeLDAPValue_spec. destruct (esc u) as [t|] eqn:E; [|done].
  destruct (esc_tokens u t E) as (ts & Et & Hok & Hm & He). destruct ts as [|k ts]; [by subst t|].
  destruct t as [|b t]; [done|]. rewrite Et, escape_first_tokens. intros [= <-].
  inversion_clear Hok as [|? ? Hk Hts]. destruct (fix_first_ok k Hk) as (F1 & F2 & F3 & F4).
  destruct ts as [|l mid _] using rev_ind.
  - destruct (decide (k = Raw space)) as [->|Hks].
    + exists [Esc backslash; Raw space]. split_and!; [done|repeat constructor; by left|]. intros Hu. exfalso. apply Hu.
      cbn in Et. cbn in Hm. clear -E Et Hm. destruct u as [|c u]; [done|]. cbn [esc meaning] in *.
      destruct (decide (c = backslash)) as [->|Hc].
      * destruct u as [|d u]; [done|]. destruct (ldap_special d) eqn:Ed; injection Hm as Hd.
        -- subst d. done.
        -- done.
      * injection Hm as <- Hu. destruct u as [|d u]; [done|]. cbn [esc meaning] in *.
        destruct (decide (d = backslash)); [|done].
        destruct u as [|c u]; [done|]. by destruct (ldap_special c).
    + assert (fix_first k <> Esc space /\ fix_last (fix_first k) = fix_first k) as [Hn Hl].
      { destruct k as [c|c]; cbn.
        - destruct (bool_decide_reflect (c = space)) as [->|H1]; [done|].
          destruct (bool_decide_reflect (c = x23)) as [->|H2]; cbn; [done|]. by rewrite bool_decide_false.
        - inversion_clear He as [|? ? Hsp _]. split; [by intros [= ->]|done]. }
      exists [fix_first k]. pose proof (escape_last_tokens [] (fix_first k) Hn) as El. 
      split_and!; [etrans; [exact El|by rewrite Hl]|by constructor|]. intros _. rewrite <- Hm. cbn. split_and!; congruence.
  - inversion_clear He as [|? ? _ He']. apply Forall_app in He' as [_ He']. inversion_clear He' as [|? ? Hsp _].
    apply Forall_app in Hts as [Hmid Hl]. inversion_clear Hl as [|? ? Hlok _].
    destruct (fix_last_ok l Hlok) as (L1 & L2 & L3 & _). exists ((fix_first k :: mid) ++ [fix_last l]).
    assert (l <> Esc space) as Hn by (intros ->; done).
    pose proof (escape_last_tokens (fix_first k :: mid) l Hn) as El.
    split_and!; [exact El|apply Forall_app; split; by repeat constructor|]. intros _. rewrite <- Hm. rewrite !fmap_app.
    cbn [fmap list_fmap]. rewrite F2, L2, fmap_app. rewrite last_snoc. cbn. split_and!; congruence.
Qed.

(** ** Distinguished names *)

(** The first relative name of a distinguished name: up to the first comma
    that no backslash escapes; and what follows it. *)
Fixpoint first_rdn (s : bytes) : bytes * option bytes :=
  match s with
  | [] => ([], None)
  | b :: s' =>
      if decide (b = x2c) then ([], Some s')
      else if decide (b = backslash) then
        match s' with
        | [] => ([b], None)
        | c :: s'' => let '(r, rest) := first_rdn s'' in (b :: c :: r, rest)
        end
      else let '(r, rest) := first_rdn s' in (b :: r, rest)
  end.

Lemma ldap_special_false b : ldap_special b = false -> b <> x2c /\ b <> backslash.
Proof. intros Hb. split; intros ->; done. Qed.

Lemma first_rdn_raw b s : b <> x2c -> b <> backslash ->
  first_rdn (b :: s) = let '(r, rest) := first_rdn s in (b :: r, rest).
Proof. intros H1 H2. cbn [first_rdn]. by rewrite !decide_False by done. Qed.

Lemma first_rdn_tokens ts rest : Forall token_ok ts ->
  first_rdn ((ts ≫= token_text) ++ x2c :: rest) = (ts ≫= token_text, Some rest).
Proof.
  induction 1 as [|[b|b] ts Hk _ IH]; [done| |]; rewrite bind_cons; cbn [token_text app].
  - destruct (ldap_special_false b Hk). rewrite first_rdn_raw by done. by rewrite IH.
  - cbn [first_rdn]. rewrite decide_False, decide_True by done. by rewrite IH.
Qed.

Lemma first_rdn_attr attr v r o : Forall (fun b => b <> x2c /\ b <> backslash) attr ->
  first_rdn v = (r, o) -> first_rdn (attr ++ v) = (attr ++ r, o).
Proof.
  intros Ha E. induction Ha as [|b attr [H1 H2] _ IH]; [done|]. cbn [app].
  rewrite first_rdn_raw by done. by rewrite IH.
Qed.

(** ** Panics *)

(** The backslashes at the end. *)
Fixpoint leading (s : bytes) : nat :=
  match s with b :: s' => if decide (b = backslash) then S (leading s') else O | [] => O end.
Definition trailing_backslashes (s : bytes) : nat := leading (reverse s).

Lemma leading_app s t : leading (s ++ t) = if decide (Forall (fun b => b = backslash) s) then (length s + leading t)%nat else leading s.
Proof.
  induction s as [|b s IH]; [by rewrite decide_True|]. cbn [app leading length]. destruct (decide (b = backslash)) as [->|Hb].
  - rewrite IH. destruct (decide (Forall _ s)).
    + rewrite decide_True by (by constructor). lia.
    + rewrite decide_False; [done|]. by intros [_ ?]%Forall_cons.
  - rewrite decide_False; [done|]. by intros [? _]%Forall_cons.
Qed.

Lemma leading_all s : Forall (fun b => b = backslash) s -> leading s = length s.
Proof. induction 1 as [|b s -> _ IH]; [done|]. cbn [leading length]. by rewrite decide_True, IH. Qed.

Lemma trailing_cons b s :
  trailing_backslashes (b :: s) =
  if decide (Forall (fun b => b = backslash) s) then (length s + if decide (b = backslash) then 1 else 0)%nat
  else trailing_backslashes s.
Proof.
  unfold trailing_backslashes. rewrite reverse_cons, leading_app, length_reverse.
  destruct (decide (Forall _ (reverse s))) as [Hf|Hf]; rewrite Forall_reverse in Hf.
  - rewrite decide_True by done. cbn [leading]. by destruct (decide (b = backslash)).
  - by rewrite decide_False.
Qed.

(** A pair that is read together leaves the parity. *)
Lemma trailing_pair c s : Nat.odd (trailing_backslashes (backslash :: c :: s)) = Nat.odd (trailing_backslashes s).
Proof.
  rewrite !trailing_cons. destruct (decide (Forall _ s)) as [Hs|Hs].
  - assert (trailing_backslashes s = length s) as ->.
    { unfold trailing_backslashes. rewrite leading_all by (by rewrite Forall_reverse). apply length_reverse. }
    destruct (decide (c = backslash)) as [->|Hc].
    + rewrite !decide_True by (done || by constructor). cbn [length].
      replace (S (length s) + 1)%nat with (length s + 2)%nat by lia. by rewrite Nat.odd_add, xorb_false_r.
    + rewrite (decide_False (P := Forall _ (c :: s))) by (by intros [? _]%Forall_cons). by rewrite Nat.add_0_r.
  - by rewrite (decide_False (P := Forall _ (c :: s))) by (by intros [_ ?]%Forall_cons).
Qed.

Lemma trailing_raw b s : b <> backslash -> trailing_backslashes (b :: s) = trailing_backslashes s.
Proof.
  intros Hb. rewrite trailing_cons. destruct (decide (Forall _ s)) as [Hs|Hs]; [|done].
  rewrite decide_False by done. unfold trailing_backslashes.
  rewrite leading_all by (by rewrite Forall_reverse). rewrite length_reverse. lia.
Qed.

Lemma esc_None u : esc u = None <-> Nat.odd (trailing_backslashes u) = true.
Proof.
  assert (forall n u, (length u <= n)%nat -> esc u = None <-> Nat.odd (trailing_backslashes u) = true) as Hn;
    [|by apply (Hn (length u))].
  clear u. induction n as [|n IH]; intros u Hl; [by destruct u; [|simpl in Hl; lia]|].
  destruct u as [|b u]; [done|]. cbn [esc]. simpl in Hl. destruct (decide (b = backslash)) as [->|Hb].
  - destruct u as [|c u]; [done|]. simpl in Hl. rewrite trailing_pair, <- (IH u) by lia. by destruct (esc u).
  - rewrite trailing_raw, <- (IH u) by (done || lia). by destruct (esc u).
Qed.

Lemma esc_nil u : esc u = Some [] -> u = [].
Proof.
  destruct u as [|b u]; [done|]. cbn [esc]. destruct (decide (b = backslash)).
  - destruct u as [|c u]; [done|]. destruct (esc u); [|done]. cbn. by destruct (ldap_special c).
  - destruct (esc u); [|done]. cbn. by destruct (ldap_special b).
Qed.

(** The user names on which the LDAP plugin panics, and with it the process
    that every client authenticates with: the empty one, and those that end in
    an odd number of backslashes.*)
Theorem escapeLDAPValue_panics_iff u :
  (exists why, escapeLDAPValue u = Panic why) <-> u = [] \/ Nat.odd (trailing_backslashes u) = true.
Proof.
  rewrite escapeLDAPValue_spec, <- esc_None. destruct (esc u) as [[|b t]|] eqn:E.
  - apply esc_nil in E as ->. split; [by left|by eexists].
  - split; [by intros [why ?]|]. intros [->|?]; [|done]. done.
  - split; [by right|by eexists].
Qed.

(** Otherwise it gives an attribute value of RFC 4514 for the user name: a
    backslash stands before each special byte and before a space or number
    sign at the front and a space at the end, and nowhere else, so the value
    reads back as the user name, in which a backslash before a special byte
    counts as an escape already.  The one exception is the user name of one
    space, whose value ends in a raw space.*)
Theorem escaped_name_is_a_value u v : escapeLDAPValue u = Ok v ->
  exists ts, v = ts ≫= token_text /\ Forall token_ok ts /\
  (u <> [space] -> token_byte <$> ts = meaning u /\
     head ts <> Some (Raw space) /\ head ts <> Some (Raw x23) /\ last ts <> Some (Raw space)).
Proof. apply escaped_tokens. Qed.

Lemma escaped_name_is_a_value_witness :
  exists ts, $"\ Doe\, J" = ts ≫= token_text /\ token_byte <$> ts = $" Doe, J".
Proof.
  destruct (escaped_name_is_a_value ($" Doe, J") ($"\ Doe\, J")) as (ts & E & _ & H); [vm_compute; reflexivity|].
  exists ts. split; [exact E|]. apply H. vm_compute. discriminate.
Defined.

(** ** Whom the plugin admits *)

Section admits.
Context {W : Type} `{LdapClient W}.

Lemma try_inl {A} (m : M W A) w a w' : try_ m w = (Ok (inl a), w') -> m w = (Ok a, w').
Proof. unfold try_. by destruct (m w) as [[] ?]; intros; simplify_eq. Qed.

(** A success binds the user's name with the given password on the connection
    that was dialed, and closes it. *)
Lemma Authenticate_true pa username password w st w' :
  Authenticate pa username password w = (Ok (true, st), w') ->
  exists conn dn w1 w2 w3, DialLDAP pa w = (Ok (Some conn), w1) /\
    getUserBindDN pa conn username w1 = (Ok dn, w2) /\
    ldap_Bind conn dn password w2 = (Ok Bound, w3) /\ w' = snd (ldap_Close conn w3) /\ st = 0.
Proof.
  intros (l & w1 & E0 & E)%bind_inv. destruct l as [[conn|]|]; [|by unfold ret in E; simplify_eq..].
  apply try_inl in E0.
  unfold deferred_Close in E. destruct (bind _ _ w1) as [r w2] eqn:E2. destruct (ldap_Close conn w2) as [? w3] eqn:E6. simplify_eq.
  apply bind_inv in E2 as (dn & w3' & E3 & E4). destruct dn as [dn|]; [|by unfold ret in E4; simplify_eq].
  apply try_inl in E3. apply bind_inv in E4 as (r & w4 & E4 & E5). exists conn, dn, w1, w3', w4.
  destruct r as [|code|]; unfold ret in E5; [|by destruct (code =? LDAPResultInvalidCredentials); simplify_eq|by simplify_eq].
  simplify_eq. by rewrite E6.
Qed.

(** Without a search the name is made of the user name, escaped. *)
Lemma getUserBindDN_below pa conn username w dn w' :
  SearchLDAP pa = false -> Forall (fun b => b <> x2c /\ b <> backslash) (UserAttr pa) ->
  getUserBindDN pa conn username w = (Ok dn, w') ->
  w' = w /\ exists v, escapeLDAPValue username = Ok v /\
    (UPNDomain pa = [] -> first_rdn dn = (UserAttr pa ++ $"=" ++ v, Some (UserDN pa))) /\
    (UPNDomain pa <> [] -> dn = v ++ $"@" ++ UPNDomain pa).
Proof.
  intros Hs Ha. unfold getUserBindDN. rewrite Hs. intros (v & w1 & Ev & E)%bind_inv.
  unfold lift in Ev. injection Ev as Ev ->. case_bool_decide as Hu; cbn [negb] in E; unfold ret in E;
    injection E as <- <-; (split; [done|]); exists v; (split; [done|]); split; try done.
  intros _. destruct (escaped_tokens username v Ev) as (ts & -> & Hok & _).
  apply first_rdn_attr; [done|]. apply (first_rdn_attr ($"=")); [by repeat constructor|].
  by apply (first_rdn_tokens ts (UserDN pa)).
Qed.

(** C34: Whom the local PLAIN server admits with the LDAP plugin when it does
    not search: on the connection it dialed for this login, the directory
    accepted the password of the client's message for a name made of the
    escaped user name.  Without a UPN domain (and with an attribute name that
    has no comma and no backslash) that name is directly below the configured
    one, so that no user name reaches an entry elsewhere in the tree; with a
    UPN domain it is the escaped user name at that domain. *)
Theorem ldap_admits_entries_below pa saslAuthBytes w w' :
  SearchLDAP pa = false -> Forall (fun b => b <> x2c /\ b <> backslash) (UserAttr pa) ->
  doLocalAuthPlain (Some (Authenticate pa)) saslAuthBytes w = (Ok tt, w') ->
  exists authzid user password conn dn v w1 w2,
    Split x00 saslAuthBytes = [authzid; user; password] /\
    DialLDAP pa w = (Ok (Some conn), w1) /\
    ldap_Bind conn dn password w1 = (Ok Bound, w2) /\ w' = snd (ldap_Close conn w2) /\
    escapeLDAPValue user = Ok v /\
    (UPNDomain pa = [] -> first_rdn dn = (UserAttr pa ++ $"=" ++ v, Some (UserDN pa))) /\
    (UPNDomain pa <> [] -> dn = v ++ $"@" ++ UPNDomain pa).
Proof.
  intros Hs Ha. unfold doLocalAuthPlain. destruct (Split x00 saslAuthBytes) as [|a [|u [|p [|]]]] eqn:E; try done.
  intros ([ok st] & w1 & E1 & E2)%bind_inv. destruct ok; [|done]. injection E2 as <-.
  apply Authenticate_true in E1 as (conn & dn & w2 & w3 & w4 & E0 & E3 & E4 & E5 & _).
  destruct (getUserBindDN_below pa conn u w2 dn w3 Hs Ha E3) as (-> & v & Hv & Hr).
  by exists a, u, p, conn, dn, v, w2, w4.
Qed.

(** With a search, the name is the one entry that the filter with the user
    name put in found. *)
Lemma Authenticate_search pa username password w st w' :
  SearchLDAP pa = true -> Authenticate pa username password w = (Ok (true, st), w') ->
  exists conn dn w1 w2 w3 w4,
    ldap_Search conn (UserSearchBase pa) (ReplaceAll (UserFilter pa) UsernamePlaceholder username) w1 = (Ok [dn], w2) /\
    ldap_Bind conn dn password w3 = (Ok Bound, w4).
Proof.
  intros Hs (conn & dn & w1 & w2 & w3 & _ & E & Hb & _)%Authenticate_true. unfold getUserBindDN in E. rewrite Hs in E.
  apply bind_inv in E as (u & w4 & _ & E). apply bind_inv in E as (entries & w5 & E & E').
  apply wrapf_Ok in E. destruct entries as [|d [|]]; try done. unfold ret in E'. simplify_eq.
  by exists conn, dn, w4, w2, w2, w3.
Qed.
End admits.

(** ** A directory *)

(** Entries with passwords; it finds no entries and dials anything. *)
Definition directory : Type := list (bytes * bytes).
Definition toy_ldap : LdapClient directory := {|
  LdapConn := unit;
  url_Parse := fun u => Ok ($"ldap", u);
  ldap_Dial := fun _ => ret (Some tt);
  ldap_DialTLS := fun _ => ret (Some tt);
  ldap_StartTLS := fun _ => ret tt;
  ldap_Bind := fun _ dn pw d => (Ok (if bool_decide ((dn, pw) ∈ d) then Bound else LdapError 49), d);
  ldap_UnauthenticatedBind := fun _ _ => ret Bound;
  ldap_Search := fun _ _ _ => ret [];
  ldap_Close := fun _ => ret tt
|}.
Definition people : LdapAuthenticator := {|
  Urls := [$"localhost"]; StartTLS := true; UPNDomain := []; UserDN := $"ou=people,dc=example";
  UserAttr := $"uid"; SearchLDAP := false; BindDN := []; BindPassword := []; UserSearchBase := []; UserFilter := []
|}.
Definition people_directory : directory := [($"uid=al\,ice,ou=people,dc=example", $"pw")].

Lemma ldap_admits_entries_below_witness :
  exists dn v w1, escapeLDAPValue ($"al,ice") = Ok v /\
    @ldap_Bind directory toy_ldap tt dn ($"pw") w1 = (Ok Bound, w1) /\
    first_rdn dn = ($"uid=" ++ v, Some ($"ou=people,dc=example")).
Proof.
  destruct (@ldap_admits_entries_below directory toy_ldap people ([x00] ++ $"al,ice" ++ [x00] ++ $"pw")
    people_directory people_directory) as (a & u & p & conn & dn & v & w1 & w2 & E & _ & Hb & _ & Hv & Hr & _);
    [reflexivity|by repeat constructor|vm_compute; reflexivity|].
  exists dn, v, w1. vm_compute in E. injection E as _ <- <-. destruct conn. split; [exact Hv|].
  split; [|exact (Hr eq_refl)]. pose proof Hb as Hb'. cbn in Hb'. injection Hb' as _ <-. exact Hb.
Defined.
