(* ===== verification/TokenInfo.v ===== *)
(** The token verifiers of the plugins: JSON web tokens
    (pkg/libs/googleid/jwt.go, pkg/libs/oidc/jwt.go), Google ID tokens
    (pkg/libs/googleid-info/plugin.go) and unsecured tokens
    (cmd/plugin-unsecured-jwt-info/main.go), as the [TokenInfo] that the local
    OAUTHBEARER server asks ([SaslLocal.doLocalAuthOauth]).

    The JSON of a header and of a claim set is read by the interface [JwtJson];
    keys, their signatures and the e-mail patterns are parameters. *)
From Stdlib Require Import ZArith Lia Strings.Byte QArith.
From stdpp Require Import base list strings gmap.
From S2P Require Import Prelude GoLib GoStrings Base64.
Local Open Scope Z_scope.

(** ** [base64.RawURLEncoding] *)

(** Characters of the URL alphabet in the standard one; others are invalid. *)
Definition url_char (b : byte) : byte :=
  if decide (b = x2d) then x2b else if decide (b = x5f) then x2f
  else if bool_decide (b ∈ [x2b; x2f; padChar]) then x00 else b.
Definition std_char (b : byte) : byte :=
  if decide (b = x2b) then x2d else if decide (b = x2f) then x5f else b.

(** Without padding: a last group of two or three characters. *)
Definition RawURLDecodeString (src : bytes) : res bytes :=
  let s := url_char <$> filter (fun b => is_newline b = false) src in
  match (length s mod 4)%nat with
  | O => decode_quanta s
  | 2%nat => decode_quanta (s ++ [padChar; padChar])
  | 3%nat => decode_quanta (s ++ [padChar])
  | _ => Err CorruptInput
  end.
Definition RawURLEncodeToString (src : bytes) : bytes :=
  std_char <$> filter (fun b => b <> padChar) (EncodeToString src).

Example raw_url : RawURLDecodeString ($"eyJhbGciOiJub25lIn0") = Ok ($"{" ++ [x22] ++ $"alg" ++ [x22; x3a; x22] ++ $"none" ++ [x22] ++ $"}").
Proof. vm_compute. reflexivity. Qed.

(** ** Tokens *)

Record JwtHeader := { Algorithm : bytes; KeyID : bytes }.
Record ClaimSet := { Iss : bytes; Aud : bytes; Sub : bytes; Email : bytes; Exp : Z; Iat : Z }.
(** The unsecured verifier reads times as floating-point numbers. *)
Record FloatClaimSet := { f_Sub : bytes; f_Exp : Q; f_Iat : Q }.

(** [json.NewDecoder(..).Decode(..)], which gives [int64] times. *)
Class JwtJson := {
  decode_header : bytes -> res JwtHeader;
  decode_claims : bytes -> res ClaimSet;
  decode_float_claims : bytes -> res FloatClaimSet;
  decode_claims_int64 : forall b c, decode_claims b = Ok c -> inS 64 (Exp c) /\ inS 64 (Iat c)
}.

Record Token := { Raw : bytes; Token_Header : JwtHeader; Token_ClaimSet : ClaimSet }.

Section jwt.
Context `{JwtJson}.

(** The same function in googleid and oidc. *)
Definition ParseJWT (token : bytes) : res Token :=
  match Split x2e token with
  | [a0; a1; _] =>
      let? decodedHeader := RawURLDecodeString a0 in
      let? decodedPayload := RawURLDecodeString a1 in
      let? header := decode_header decodedHeader in
      let? claimSet := decode_claims decodedPayload in
      Ok {| Raw := token; Token_Header := header; Token_ClaimSet := claimSet |}
  | _ => Err (Errorf "invalid token")
  end.

(** [unsecured_Decode] of the unsecured verifier. *)
Definition unsecured_Decode (token : bytes) : res (JwtHeader * FloatClaimSet) :=
  match Split x2e token with
  | a0 :: a1 :: _ =>
      let? decodedHeader := RawURLDecodeString a0 in
      let? decodedPayload := RawURLDecodeString a1 in
      let? header := decode_header decodedHeader in
      let? claimSet := decode_float_claims decodedPayload in
      Ok (header, claimSet)
  | _ => Err (Errorf "jws: invalid token received")
  end.

(** ** googleid-info *)

Definition StatusOK : Z := 0.
Definition StatusEmptyToken : Z := 1.
Definition StatusParseJWTFailed : Z := 2.
Definition StatusNoIssueTimeInToken : Z := 3.
Definition StatusNoExpirationTimeInToken : Z := 4.
Definition StatusPublicKeyNotFound : Z := 5.
Definition StatusWrongIssuer : Z := 6.
Definition StatusWrongSignature : Z := 7.
Definition StatusTokenTooEarly : Z := 8.
Definition StatusTokenExpired : Z := 9.
Definition StatusWrongAudience : Z := 10.
Definition StatusWrongEmail : Z := 11.

Definition clockSkew_Seconds : Z := 60.
Definition issuers : list bytes := [$"accounts.google.com"; $"https://accounts.google.com"].

Context {PublicKey : Type}.
Record TokenInfo := {
  audience : list bytes;
  emailRegex : list (bytes -> bool);
  publicKeys : gmap bytes PublicKey
}.

(** [getVerifyResponseResponse]: success is the status [StatusOK]. *)
Definition getVerifyResponseResponse (status : Z) : bool * Z := (bool_decide (status = StatusOK), status).

Definition checkEmail (p : TokenInfo) (email : bytes) : bool := existsb (fun re => re email) (emailRegex p).

(** The times: [unix] is the present one. *)
Definition earliest (iat : Z) : Z := int64 (iat - clockSkew_Seconds).
Definition latest (exp : Z) : Z := int64 (exp + clockSkew_Seconds).

(** [jws.Verify(token, key)] and [nowFn().Unix()] are arguments. *)
Definition google_status (jws_Verify : bytes -> PublicKey -> bool) (unix : Z) (p : TokenInfo) (token : bytes) : Z :=
  if bool_decide (token = []) then StatusEmptyToken
  else match ParseJWT token with
  | Ok t =>
      let c := Token_ClaimSet t in
      if bool_decide (Iss c ∉ issuers) then StatusWrongIssuer
      else if Iat c <? 1 then StatusNoIssueTimeInToken
      else if Exp c <? 1 then StatusNoExpirationTimeInToken
      else if unix <? earliest (Iat c) then StatusTokenTooEarly
      else if latest (Exp c) <? unix then StatusTokenExpired
      else if negb (bool_decide (audience p = [])) && bool_decide (Aud c ∉ audience p) then StatusWrongAudience
      else if negb (checkEmail p (Email c)) then StatusWrongEmail
      else match publicKeys p !! KeyID (Token_Header t) with
      | None => StatusPublicKeyNotFound
      | Some publicKey => if jws_Verify token publicKey then StatusOK else StatusWrongSignature
      end
  | _ => StatusParseJWTFailed
  end.
Definition google_VerifyToken jws_Verify unix p token : bool * Z :=
  getVerifyResponseResponse (google_status jws_Verify unix p token).

(** ** plugin-unsecured-jwt-info *)

Definition u_StatusUnauthorized : Z := 4.
Definition u_StatusNoIssueTimeInToken : Z := 5.
Definition u_StatusNoExpirationTimeInToken : Z := 6.
Definition u_StatusTokenTooEarly : Z := 7.
Definition u_StatusTokenExpired : Z := 8.

Record UnsecuredJWTVerifier := { claimSub : list bytes; algorithm : list bytes }.

(** [len(set) != 0] and not an element. *)
Definition not_allowed (set : list bytes) (x : bytes) : bool :=
  negb (bool_decide (set = [])) && bool_decide (x ∉ set).

(** [f < 1] *)
Definition below_one (f : Q) : bool := negb (Qle_bool 1 f).

(** [float_to_int64] is Go's conversion [int64(f)]. *)
Definition unsecured_status (float_to_int64 : Q -> Z) (unix : Z) (v : UnsecuredJWTVerifier) (token : bytes) : Z :=
  if bool_decide (token = []) then StatusEmptyToken
  else match unsecured_Decode token with
  | Ok (header, c) =>
      if not_allowed (algorithm v) (Algorithm header) then u_StatusUnauthorized
      else if not_allowed (claimSub v) (f_Sub c) then u_StatusUnauthorized
      else if below_one (f_Iat c) then u_StatusNoIssueTimeInToken
      else if below_one (f_Exp c) then u_StatusNoExpirationTimeInToken
      else if unix <? earliest (float_to_int64 (f_Iat c)) then u_StatusTokenTooEarly
      else if latest (float_to_int64 (f_Exp c)) <? unix then u_StatusTokenExpired
      else StatusOK
  | _ => StatusParseJWTFailed
  end.
Definition unsecured_VerifyToken float_to_int64 unix v token : bool * Z :=
  getVerifyResponseResponse (unsecured_status float_to_int64 unix v token).
End jwt.

(** ** A concrete reader of JSON, for examples: it knows one header and one
    claim set. *)
Definition toy_header : bytes := $"{alg:RS256,kid:1}".
Definition toy_claims : bytes := $"{sub:alice,iat:1000,exp:2000}".
Program Definition toy_json : JwtJson := {|
  decode_header := fun b =>
    if decide (b = toy_header) then Ok {| Algorithm := $"RS256"; KeyID := $"1" |} else Err (Errorf "header");
  decode_claims := fun b =>
    if decide (b = toy_claims) then
      Ok {| Iss := $"accounts.google.com"; Aud := $"kafka"; Sub := $"alice"; Email := $"alice@example.com";
            Exp := 2000; Iat := 1000 |}
    else Err (Errorf "claims");
  decode_float_claims := fun b =>
    if decide (b = toy_claims) then Ok {| f_Sub := $"alice"; f_Exp := 2000; f_Iat := 1000 |} else Err (Errorf "claims")
|}.
Next Obligation.
  intros b c. cbv beta. destruct (decide _); [|done]. intros [= <-]. cbv. split; split; (congruence || done).
Qed.

Definition jwt_text (header claims signature : bytes) : bytes :=
  RawURLEncodeToString header ++ [x2e] ++ RawURLEncodeToString claims ++ [x2e] ++ signature.
