(* ===== verification/TokenInfoTheorems.v ===== *)
(** Which tokens the verifiers accept, and whom the local OAUTHBEARER server
    admits with them; reading a token that was written. *)
From Stdlib Require Import ZArith Lia Strings.Byte QArith.
From stdpp Require Import base list strings gmap.
From S2P Require Import Prelude GoLib GoStrings Regexp OAuthBearer SaslLocal Base64 TokenInfo.
Local Open Scope Z_scope.

(** ** Base64 without padding *)

Lemma sextet_char_alphabet i : sextet_char i ∈ alphabet.
Proof.
  unfold sextet_char. pose proof (Z.mod_pos_bound i 64). rewrite land_63.
  destruct (alphabet !! Z.to_nat (i mod 64)) as [b|] eqn:E; [by eapply list_elem_of_lookup_2|].
  apply lookup_ge_None_1 in E. change (length alphabet) with 64%nat in E. lia.
Qed.

(** An encoding is characters of the alphabet and up to two for padding. *)
Lemma encode_shape src : exists body k, EncodeToString src = body ++ replicate k padChar /\
  Forall (fun b => b ∈ alphabet) body /\ (k <= 2)%nat /\ ((length body + k) mod 4 = 0)%nat.
Proof.
  induction src as [|a|a b|a b c src (body & k & E & Hb & Hk & Hl)] using list_ind3.
  - exists [], O. split_and!; [done|constructor|lia|done].
  - eexists [_; _], 2%nat. split_and!; [reflexivity|rewrite !Forall_cons; auto using sextet_char_alphabet|lia|done].
  - eexists [_; _; _], 1%nat. split_and!; [reflexivity|rewrite !Forall_cons; auto using sextet_char_alphabet|lia|done].
  - cbn [EncodeToString]. rewrite E. eexists (_ :: _ :: _ :: _ :: body), k. split_and!; [reflexivity| |done|].
    + rewrite !Forall_cons. auto using sextet_char_alphabet.
    + cbn [length]. replace (S (S (S (S (length body)))) + k)%nat with (length body + k + 1 * 4)%nat by lia.
      by rewrite Nat.Div0.mod_add.
Qed.

Lemma alphabet_chars b : b ∈ alphabet -> b <> padChar /\ is_newline (std_char b) = false /\ url_char (std_char b) = b.
Proof.
  intros Hb. assert (forallb (fun b => bool_decide (b <> padChar /\ is_newline (std_char b) = false /\
    url_char (std_char b) = b)) alphabet = true) as H by (vm_compute; reflexivity).
  rewrite forallb_forall in H. apply list_elem_of_In in Hb. specialize (H b Hb). by apply bool_decide_eq_true in H.
Qed.

Lemma filter_unpad body k : Forall (fun b => b ∈ alphabet) body ->
  filter (fun b => b <> padChar) (body ++ replicate k padChar) = body.
Proof.
  induction 1 as [|b body Hb _ IH]; cbn [app].
  - induction k as [|k IH]; [done|]. cbn [replicate]. rewrite filter_cons_False; [exact IH|]. by intros [].
  - rewrite filter_cons_True by (by apply alphabet_chars). by rewrite IH.
Qed.

Lemma filter_url body : Forall (fun b => b ∈ alphabet) body ->
  url_char <$> filter (fun b => is_newline b = false) (std_char <$> body) = body.
Proof.
  induction 1 as [|b body Hb _ IH]; [done|]. apply alphabet_chars in Hb as (_ & Hn & Hu). cbn [fmap list_fmap].
  rewrite filter_cons_True by done. cbn [fmap list_fmap]. by rewrite IH, Hu.
Qed.

Lemma RawURL_decode_encode src : RawURLDecodeString (RawURLEncodeToString src) = Ok src.
Proof.
  destruct (encode_shape src) as (body & k & E & Hb & Hk & Hl).
  unfold RawURLDecodeString, RawURLEncodeToString. rewrite E, filter_unpad, filter_url by done.
  pose proof (decode_quanta_encode src) as D. rewrite E in D. cbv zeta.
  pose proof (Nat.mod_upper_bound (length body) 4 ltac:(lia)) as Hm.
  rewrite Nat.Div0.add_mod in Hl. destruct (length body mod 4)%nat as [|[|[|[|?]]]]; [| | | |lia];
    destruct k as [|[|[|?]]]; try (cbn in Hl; lia); cbn [replicate] in D; try exact D.
  by rewrite app_nil_r in D.
Qed.

(** No dot in an encoded segment. *)
Lemma RawURL_no_dot src : x2e ∉ RawURLEncodeToString src.
Proof.
  destruct (encode_shape src) as (body & k & E & Hb & _). unfold RawURLEncodeToString. rewrite E, filter_unpad by done.
  intros (b & Eb & Hin)%list_elem_of_fmap. rewrite Forall_forall in Hb. apply Hb in Hin. clear -Hin Eb.
  assert (forallb (fun b => bool_decide (x2e <> std_char b)) alphabet = true) as H by (vm_compute; reflexivity).
  rewrite forallb_forall in H. apply list_elem_of_In in Hin. specialize (H b Hin). by apply bool_decide_eq_true in H.
Qed.

Section theorems.
Context {J : JwtJson}.

Lemma Split_two a b c : x2e ∉ a -> x2e ∉ b -> Split x2e (a ++ [x2e] ++ b ++ [x2e] ++ c) = a :: b :: Split x2e c.
Proof. intros Ha Hb. cbn [app]. by rewrite !Split_app by done. Qed.

(** A token that was written from the JSON of a header and of claims is read
    back as them, whatever the signature.*)
Theorem ParseJWT_roundtrip h c signature header claims :
  x2e ∉ signature -> decode_header h = Ok header -> decode_claims c = Ok claims ->
  ParseJWT (jwt_text h c signature) =
    Ok {| Raw := jwt_text h c signature; Token_Header := header; Token_ClaimSet := claims |}.
Proof.
  intros Hs Eh Ec. unfold ParseJWT, jwt_text at 1. rewrite Split_two by apply RawURL_no_dot. rewrite Split_notin by done.
  rewrite !RawURL_decode_encode. cbn [rbind]. rewrite Eh. cbn [rbind]. by rewrite Ec.
Qed.

(** ** Google tokens *)

Section google.
Context {PublicKey : Type} (jws_Verify : bytes -> PublicKey -> bool) (p : @TokenInfo.TokenInfo PublicKey).

Definition verified (unix : Z) (token : bytes) : Prop := exists t publicKey,
  ParseJWT token = Ok t /\ Iss (Token_ClaimSet t) ∈ issuers /\
  1 <= Iat (Token_ClaimSet t) <= unix + 60 /\
  Z.max 1 (unix - 60) <= Exp (Token_ClaimSet t) < 2 ^ 63 - 60 /\
  (audience p = [] \/ Aud (Token_ClaimSet t) ∈ audience p) /\
  checkEmail p (Email (Token_ClaimSet t)) = true /\
  publicKeys p !! KeyID (Token_Header t) = Some publicKey /\ jws_Verify token publicKey = true.

Lemma earliest_small iat : 1 <= iat < 2 ^ 63 -> earliest iat = iat - 60.
Proof. intros H. unfold earliest, clockSkew_Seconds. rewrite wrapS_id; [done|lia|]. unfold inS. lia. Qed.

Lemma latest_small exp : 1 <= exp < 2 ^ 63 - 60 -> latest exp = exp + 60.
Proof. intros H. unfold latest, clockSkew_Seconds. rewrite wrapS_id; [done|lia|]. unfold inS. lia. Qed.

(** Near the end of the 64-bit times the sum wraps around below zero. *)
Lemma latest_large exp : 2 ^ 63 - 60 <= exp < 2 ^ 63 -> latest exp < 0.
Proof.
  intros H. unfold latest, clockSkew_Seconds, wrapS. change (64 - 1) with 63.
  replace ((exp + 60 + 2 ^ 63) mod 2 ^ 64) with (exp + 60 + 2 ^ 63 - 2 ^ 64); [lia|].
  rewrite <- (Z.mod_small (exp + 60 + 2 ^ 63 - 2 ^ 64) (2 ^ 64)) by lia.
  rewrite Zminus_mod, Z_mod_same_full, Z.sub_0_r, Zmod_mod. done.
Qed.

Lemma google_status_OK unix token : 0 <= unix < 2 ^ 63 - 60 ->
  google_status jws_Verify unix p token = StatusOK <-> verified unix token.
Proof.
  intros Hu. unfold google_status, verified. destruct (bool_decide_reflect (token = [])) as [->|Hne].
  { split; [done|]. by intros (t & k & E & _). }
  destruct (ParseJWT token) as [t|e|w] eqn:E; [|split; [done|by intros (t & k & E' & _)]..].
  pose proof E as Ei. unfold ParseJWT in Ei. destruct (Split x2e token) as [|a0 [|a1 [|a2 [|]]]]; try done.
  destruct (RawURLDecodeString a0); [|done..]. destruct (RawURLDecodeString a1); [|done..]. cbn [rbind] in Ei.
  destruct (decode_header a); [|done..]. cbn [rbind] in Ei. destruct (decode_claims a3) as [c|?|?] eqn:Ec; [|done..].
  apply decode_claims_int64 in Ec as [He Hi]. injection Ei as <-. cbn [Token_ClaimSet Token_Header] in *. unfold inS in He, Hi.
  transitivity (Iss c ∈ issuers /\ 1 <= Iat c <= unix + 60 /\ Z.max 1 (unix - 60) <= Exp c < 2 ^ 63 - 60 /\
    (audience p = [] \/ Aud c ∈ audience p) /\ checkEmail p (Email c) = true /\
    exists publicKey, publicKeys p !! KeyID a4 = Some publicKey /\ jws_Verify token publicKey = true).
  2:{ split.
      - intros (? & ? & ? & ? & ? & k & ? & ?). eexists _, k. split; [done|]. cbn [Token_ClaimSet Token_Header]. split_and!; (done || lia).
      - intros (t & k & [= <-] & ? & ? & ? & ? & ? & ? & ?). cbn [Token_ClaimSet Token_Header] in *. split_and!; first [done | lia | by exists k]. }
  destruct (bool_decide_reflect (Iss c ∉ issuers)) as [Hiss|Hiss].
  { split; [done|]. by intros []. }
  apply dec_stable in Hiss. destruct (Z.ltb_spec (Iat c) 1); [split; [done|lia]|].
  destruct (Z.ltb_spec (Exp c) 1); [split; [done|lia]|]. rewrite earliest_small by lia.
  destruct (Z.ltb_spec unix (Iat c - 60)); [split; [done|lia]|].
  destruct (Z.lt_ge_cases (Exp c) (2 ^ 63 - 60)) as [Hex|Hex].
  2:{ pose proof (latest_large (Exp c) ltac:(lia)). rewrite (proj2 (Z.ltb_lt _ _)) by lia. split; [done|lia]. }
  rewrite latest_small by lia. destruct (Z.ltb_spec (Exp c + 60) unix); [split; [done|lia]|].
  destruct (negb (bool_decide (audience p = [])) && bool_decide (Aud c ∉ audience p)) eqn:Ea.
  { split; [done|]. intros (_ & _ & _ & Ha & _). apply andb_true_iff in Ea as [E1 E2%bool_decide_eq_true].
    apply negb_true_iff, bool_decide_eq_false in E1. by destruct Ha. }
  assert (audience p = [] \/ Aud c ∈ audience p) as Ha.
  { apply andb_false_iff in Ea as [E1|E1]; [left|right].
    - by apply negb_false_iff, bool_decide_eq_true in E1.
    - apply bool_decide_eq_false in E1. by apply dec_stable in E1. }
  destruct (checkEmail p (Email c)); [|split; [done|by intros (_ & _ & _ & _ & ? & _)]]. cbn [negb].
  destruct (publicKeys p !! KeyID a4) as [k|] eqn:Ek; [|split; [done|by intros (_ & _ & _ & _ & _ & ? & ? & _)]].
  destruct (jws_Verify token k) eqn:Ev.
  - split; [|done]. intros _. split_and!; try done; try lia. by exists k.
  - split; [done|]. intros (_ & _ & _ & _ & _ & k' & ? & ?). congruence.
Qed.

(** C32: Whom the local OAUTHBEARER server admits with Google tokens, at a time
    that fits: exactly the clients whose initial response carries a token that
    parses, names a Google issuer, was issued at most a minute in the future
    and expired at most a minute ago, is for one of the configured audiences if
    there are any, has an e-mail address that one of the patterns matches, and is
    signed with the key it names.  An expiry within a minute of the end of
    64-bit time counts as past. *)
Theorem google_tokens_admitted {X} unix saslAuthBytes (x x' : X) :
  0 <= unix < 2 ^ 63 - 60 ->
  doLocalAuthOauth (fun token => ret (google_VerifyToken jws_Verify unix p token)) saslAuthBytes x = (Ok tt, x') <->
  x' = x /\ exists token authzid extensions,
    GetClientInitialResponse saslAuthBytes = Ok (token, authzid, extensions) /\ verified unix token.
Proof.
  intros Hu. unfold doLocalAuthOauth, bind, lift.
  destruct (GetClientInitialResponse saslAuthBytes) as [[[token a] e]|e|w];
    [|split; [done|by intros (_ & t & a & e' & ? & _)]..].
  unfold ret, google_VerifyToken, getVerifyResponseResponse.
  transitivity (x' = x /\ google_status jws_Verify unix p token = StatusOK).
  - destruct (bool_decide_reflect (google_status jws_Verify unix p token = StatusOK)) as [Hs|Hs]; cbn [negb];
      (split; [by intros [= <-]|]); [by intros [-> _]|by intros []].
  - split.
    + intros [? ?]. split; [done|]. exists token, a, e. split; [done|]. by apply google_status_OK.
    + intros (? & t & a' & e' & [= <- <- <-] & ?). split; [done|]. by apply google_status_OK.
Qed.
End google.

(** ** Unsecured tokens *)

(** The unsecured verifier never looks at the signature: its answer for a
    token is the one for the first two segments alone, whatever algorithm the
    header names.*)
Theorem unsecured_ignores_signature float_to_int64 unix v a b rest :
  x2e ∉ a -> x2e ∉ b ->
  unsecured_VerifyToken float_to_int64 unix v (a ++ [x2e] ++ b ++ [x2e] ++ rest) =
  unsecured_VerifyToken float_to_int64 unix v (a ++ [x2e] ++ b).
Proof.
  intros Ha Hb. unfold unsecured_VerifyToken, unsecured_status, unsecured_Decode. rewrite Split_two by done.
  change (a ++ [x2e] ++ b) with (a ++ x2e :: b). rewrite Split_app, Split_notin by done.
  by rewrite !bool_decide_false by (by destruct a).
Qed.
End theorems.

(** ** Concrete tokens *)

Definition toy_token : bytes := jwt_text toy_header toy_claims ($"sig").
Definition toy_verifier : @TokenInfo.TokenInfo unit :=
  {| audience := [$"kafka"]; emailRegex := [fun e => bool_decide (e = $"alice@example.com")];
     publicKeys := {[ $"1" := tt ]} |}.
Definition toy_response : bytes := ToBytes toy_token [] ∅.

Lemma ParseJWT_roundtrip_witness :
  @ParseJWT toy_json toy_token =
    Ok {| Raw := toy_token; Token_Header := {| Algorithm := $"RS256"; KeyID := $"1" |};
          Token_ClaimSet := {| Iss := $"accounts.google.com"; Aud := $"kafka"; Sub := $"alice";
            Email := $"alice@example.com"; Exp := 2000; Iat := 1000 |} |}.
Proof.
  apply (@ParseJWT_roundtrip toy_json toy_header toy_claims ($"sig")); [|vm_compute; reflexivity..].
  apply (proj1 (bool_decide_eq_true _)). vm_compute. reflexivity.
Defined.

Lemma google_tokens_admitted_witness :
  doLocalAuthOauth (fun token => ret (@google_VerifyToken toy_json unit (fun _ _ => true) 1500 toy_verifier token))
    toy_response tt = (Ok tt, tt).
Proof.
  apply (@google_tokens_admitted toy_json unit (fun _ _ => true) toy_verifier unit 1500 toy_response tt tt); [lia|].
  split; [reflexivity|]. exists toy_token, [], ∅. split; [vm_compute; reflexivity|].
  eexists _, tt. split; [vm_compute; reflexivity|]. cbn [Token_ClaimSet Token_Header Iss Iat Exp Aud Email KeyID].
  split_and!; try lia; [apply elem_of_cons; by left|right; apply elem_of_cons; by left|vm_compute; reflexivity..].
Defined.

Lemma unsecured_ignores_signature_witness :
  @unsecured_VerifyToken toy_json (fun _ => 1000) 1500 {| claimSub := []; algorithm := [] |} ($"aa" ++ [x2e] ++ $"bb" ++ [x2e] ++ $"cc") =
  @unsecured_VerifyToken toy_json (fun _ => 1000) 1500 {| claimSub := []; algorithm := [] |} ($"aa" ++ [x2e] ++ $"bb").
Proof.
  apply (@unsecured_ignores_signature toy_json); apply (proj1 (bool_decide_eq_true _)); vm_compute; reflexivity.
Defined.
