(* ===== verification/TokenProvider.v ===== *)
(** The token providers (pkg/libs/oidc-provider, pkg/libs/googleid-provider;
    both have the functions below): a token that callers and a refresher
    share, from which callers are answered as long as it is good for another
    minute.

    [GetToken] is the whole call.  In [provider_step] the calls and the refresher
    interleave at the lock: each look at the token and each store of a new one
    is one step, and what the token source does comes in between.  *)
From Stdlib Require Import ZArith Lia Strings.Byte.
From stdpp Require Import base list strings gmap relations.
From S2P Require Import Prelude GoLib GoStrings TokenInfo.
Local Open Scope Z_scope.

Definition p_StatusOK : Z := 0.
Definition StatusGetTokenFailed : Z := 1.
Definition StatusParseTokenFailed : Z := 2.

(** [renewLatest]: no longer good for a minute. *)
Definition renewLatest (unix : Z) (token : option Token) : bool :=
  match token with
  | None => true
  | Some t => let advExp := int64 (Exp (Token_ClaimSet t) - clockSkew_Seconds) in advExp <? unix
  end.

Definition getCurrentToken (unix : Z) (idToken : option Token) : bytes :=
  match idToken with
  | None => []
  | Some t => if renewLatest unix (Some t) then [] else Raw t
  end.
Definition getCurrentClaimSet (idToken : option Token) : option ClaimSet := Token_ClaimSet <$> idToken.

(** [renewEarliest]: more than half of the validity is over. *)
Definition renewEarliest (unix : Z) (claimSet : option ClaimSet) : bool :=
  match claimSet with
  | None => true
  | Some c =>
      let validity := int64 (Exp c - Iat c) in
      if validity <=? 0 then true
      else
        let refreshAfter := Z.quot validity 2 in
        let refreshTime := int64 (int64 (Exp c - clockSkew_Seconds) - refreshAfter) in
        refreshTime <? unix
  end.

Section token_provider.
Context `{JwtJson}.

(** ** A call *)

(** [getTokenResponse]: token and status; success is the status OK. *)
Definition getTokenResponse (token : bytes) (status : Z) : bool * Z * bytes :=
  (bool_decide (status = p_StatusOK), status, token).

(** On the provider's token and the world of the token source; [unix] is the
    time of the look at the token. *)
Definition GetToken {W} (GetIDToken : M W bytes) (unix : Z) : M (option Token * W) (bool * Z * bytes) := fun s =>
  let '(idToken, w) := s in
  let currentToken := getCurrentToken unix idToken in
  if negb (bool_decide (currentToken = [])) then (Ok (getTokenResponse currentToken p_StatusOK), s)
  else
    match GetIDToken w with
    | (Ok token, w') =>
        match ParseJWT token with
        | Ok t => (Ok (getTokenResponse token p_StatusOK), (Some t, w'))
        | Err _ => (Ok (getTokenResponse [] StatusParseTokenFailed), (idToken, w'))
        | Panic why => (Panic why, (idToken, w'))
        end
    | (Err _, w') => (Ok (getTokenResponse [] StatusGetTokenFailed), (idToken, w'))
    | (Panic why, w') => (Panic why, (idToken, w'))
    end.

(** [initToken] *)
Definition initToken {W} (GetIDToken : M W bytes) (unix : Z) : M (option Token * W) unit :=
  let* r := GetToken GetIDToken unix in
  let '(Success, Status, _) := r in
  if negb Success then fail (Errorf "get token failed with status: %d") else ret tt.

(** [newToken] and, where it succeeds in one of its tries, [tryRefresh]. *)
Definition newToken {W} (GetIDToken : M W bytes) : M W Token :=
  let* token := GetIDToken in lift (ParseJWT token).

(** ** Interleaving *)

(** A call past its look at the token, and one with a new token to store. *)
Inductive call := Fetching | Storing (t : Token).
Inductive refresher := Waiting | Refreshing | Refreshed (t : Token).

(** An answer; [cached] has the time of an answer with the shared token. *)
Record answer := { response : bool * Z * bytes; cached : option Z }.

Record provider := {
  idToken : option Token;
  calls : list call;
  ticker : refresher;
  issued : list bytes;          (* the tokens the source gave *)
  answers : list answer
}.
Definition no_token : provider :=
  {| idToken := None; calls := []; ticker := Waiting; issued := []; answers := [] |}.

Definition answered (r : bool * Z * bytes) (c : option Z) (s : provider) : provider :=
  {| idToken := idToken s; calls := calls s; ticker := ticker s; issued := issued s;
     answers := answers s ++ [{| response := r; cached := c |}] |}.
Definition with_calls (l : list call) (s : provider) : provider :=
  {| idToken := idToken s; calls := l; ticker := ticker s; issued := issued s; answers := answers s |}.
Definition with_ticker (r : refresher) (s : provider) : provider :=
  {| idToken := idToken s; calls := calls s; ticker := r; issued := issued s; answers := answers s |}.
Definition issue (token : bytes) (s : provider) : provider :=
  {| idToken := idToken s; calls := calls s; ticker := ticker s; issued := token :: issued s; answers := answers s |}.
Definition setCurrentToken (t : Token) (s : provider) : provider :=
  {| idToken := Some t; calls := calls s; ticker := ticker s; issued := issued s; answers := answers s |}.

Inductive provider_step : provider -> provider -> Prop :=
  (* a call of GetToken *)
  | s_cached unix s :
      getCurrentToken unix (idToken s) <> [] ->
      provider_step s (answered (getTokenResponse (getCurrentToken unix (idToken s)) p_StatusOK) (Some unix) s)
  | s_missed unix s :
      getCurrentToken unix (idToken s) = [] -> provider_step s (with_calls (Fetching :: calls s) s)
  | s_source_failed l1 l2 s :
      calls s = l1 ++ Fetching :: l2 ->
      provider_step s (answered (getTokenResponse [] StatusGetTokenFailed) None (with_calls (l1 ++ l2) s))
  | s_parse_failed l1 l2 token e s :
      calls s = l1 ++ Fetching :: l2 -> ParseJWT token = Err e ->
      provider_step s (answered (getTokenResponse [] StatusParseTokenFailed) None (issue token (with_calls (l1 ++ l2) s)))
  | s_fetched l1 l2 token t s :
      calls s = l1 ++ Fetching :: l2 -> ParseJWT token = Ok t ->
      provider_step s (issue token (with_calls (l1 ++ Storing t :: l2) s))
  | s_stored l1 l2 t s :
      calls s = l1 ++ Storing t :: l2 ->
      provider_step s (answered (getTokenResponse (Raw t) p_StatusOK) None (setCurrentToken t (with_calls (l1 ++ l2) s)))
  (* the refresher *)
  | s_tick unix s :
      ticker s = Waiting -> renewEarliest unix (getCurrentClaimSet (idToken s)) = true ->
      provider_step s (with_ticker Refreshing s)
  | s_refresh_failed s : ticker s = Refreshing -> provider_step s (with_ticker Waiting s)
  | s_refreshed token t s :
      ticker s = Refreshing -> ParseJWT token = Ok t -> provider_step s (issue token (with_ticker (Refreshed t) s))
  | s_refresh_stored t s :
      ticker s = Refreshed t -> provider_step s (setCurrentToken t (with_ticker Waiting s)).

(** ** The invariant *)

Definition good (iss : list bytes) (t : Token) : Prop := ParseJWT (Raw t) = Ok t /\ Raw t ∈ iss.
Definition good_call (iss : list bytes) (c : call) : Prop :=
  match c with Fetching => True | Storing t => good iss t end.
(** A success is a token that the source issued, and with the shared token one
    that is good for a minute at the time it was looked at; a failure has no token. *)
Definition good_answer (iss : list bytes) (a : answer) : Prop :=
  match response a with
  | (true, status, token) =>
      status = p_StatusOK /\ exists t, Raw t = token /\ good iss t /\
      match cached a with Some unix => unix <= int64 (Exp (Token_ClaimSet t) - clockSkew_Seconds) | None => True end
  | (false, status, token) => (status = StatusGetTokenFailed \/ status = StatusParseTokenFailed) /\ token = []
  end.
Definition consistent (s : provider) : Prop :=
  (forall t, idToken s = Some t -> good (issued s) t) /\
  Forall (good_call (issued s)) (calls s) /\
  (forall t, ticker s = Refreshed t -> good (issued s) t) /\
  Forall (good_answer (issued s)) (answers s).

Lemma ParseJWT_Raw token t : ParseJWT token = Ok t -> Raw t = token.
Proof.
  unfold ParseJWT. destruct (Split x2e token) as [|a0 [|a1 [|a2 [|]]]]; try done.
  destruct (RawURLDecodeString a0); [|done..]. destruct (RawURLDecodeString a1); [|done..]. cbn [rbind].
  destruct (decode_header a); [|done..]. cbn [rbind]. by destruct (decode_claims a3); [intros [= <-]|..].
Qed.

Lemma good_more iss token t : good iss t -> good (token :: iss) t.
Proof. intros [? ?]. split; [done|]. by right. Qed.

Lemma good_new iss token t : ParseJWT token = Ok t -> good (token :: iss) t.
Proof. intros Ht. pose proof (ParseJWT_Raw token t Ht) as E. split; [by rewrite E|]. rewrite E. by left. Qed.

Lemma good_call_more iss token c : good_call iss c -> good_call (token :: iss) c.
Proof. destruct c; [done|]. apply good_more. Qed.

Lemma good_answer_more iss token a : good_answer iss a -> good_answer (token :: iss) a.
Proof.
  unfold good_answer. destruct (response a) as [[[] ?] ?]; [|done]. intros (? & t & ? & Hg & ?). split; [done|].
  exists t. by split_and!; [|apply good_more|].
Qed.

#[local] Hint Resolve good_more good_new good_call_more good_answer_more : core.

Lemma consistent_no_token : consistent no_token.
Proof. unfold consistent, no_token. cbn. split_and!; [done|constructor|done|constructor]. Qed.

Lemma consistent_issue token s : consistent s -> consistent (issue token s).
Proof.
  intros (H1 & H2 & H3 & H4). unfold consistent. cbn. split_and!; [naive_solver| |naive_solver|].
  - eapply Forall_impl; [exact H2|]. auto.
  - eapply Forall_impl; [exact H4|]. auto.
Qed.

Lemma consistent_answered r c s :
  consistent s -> good_answer (issued s) {| response := r; cached := c |} -> consistent (answered r c s).
Proof. intros (H1 & H2 & H3 & H4) Ha. unfold consistent. cbn. split_and!; try done. apply Forall_app. by split; [|constructor]. Qed.

Lemma consistent_calls l s : consistent s -> Forall (good_call (issued s)) l -> consistent (with_calls l s).
Proof. by intros (H1 & H2 & H3 & H4) Hl. Qed.

Lemma consistent_stored t s : consistent s -> good (issued s) t -> consistent (setCurrentToken t s).
Proof. intros (H1 & H2 & H3 & H4) Ht. unfold consistent. cbn. split_and!; try done. by intros ? [= <-]. Qed.

Lemma calls_split s l1 c l2 : consistent s -> calls s = l1 ++ c :: l2 ->
  Forall (good_call (issued s)) (l1 ++ l2) /\ good_call (issued s) c /\
  forall c', good_call (issued s) c' -> Forall (good_call (issued s)) (l1 ++ c' :: l2).
Proof.
  intros (_ & Hc & _) E. rewrite E in Hc. apply Forall_app in Hc as [F1 [F2 F3]%Forall_cons].
  split_and!; [by apply Forall_app|done|]. intros c' Hc'. apply Forall_app. by split; [|constructor].
Qed.

Lemma getCurrentToken_good unix o iss : (forall t, o = Some t -> good iss t) -> getCurrentToken unix o <> [] ->
  good_answer iss {| response := getTokenResponse (getCurrentToken unix o) p_StatusOK; cached := Some unix |}.
Proof.
  intros Hg Hne. destruct o as [t|]; [|done]. unfold getCurrentToken in *. destruct (renewLatest unix (Some t)) eqn:E; [done|].
  cbn. split; [done|]. exists t. split_and!; [done|auto|]. unfold renewLatest in E. by apply Z.ltb_ge in E.
Qed.

Lemma good_failure iss status : status = StatusGetTokenFailed \/ status = StatusParseTokenFailed ->
  good_answer iss {| response := getTokenResponse [] status; cached := None |}.
Proof. intros [->| ->]; (split; [|done]); [by left|by right]. Qed.

Lemma consistent_step s s' : provider_step s s' -> consistent s -> consistent s'.
Proof.
  destruct 1 as [unix s Hne|unix s He|l1 l2 s Hc|l1 l2 token e s Hc Hp|l1 l2 token t s Hc Hp|l1 l2 t s Hc
    |unix s Hw Hr|s Hw|token t s Hw Hp|t s Hw]; intros I.
  - apply consistent_answered; [done|]. apply getCurrentToken_good; [apply I|done].
  - apply consistent_calls; [done|]. constructor; [done|]. apply I.
  - destruct (calls_split _ _ _ _ I Hc) as (F & _). apply consistent_answered; [by apply consistent_calls|]. apply good_failure. by left.
  - destruct (calls_split _ _ _ _ I Hc) as (F & _).
    apply consistent_answered; [by apply consistent_issue, consistent_calls|]. apply good_failure. by right.
  - destruct (calls_split _ _ _ _ (consistent_issue token s I) Hc) as (_ & _ & F).
    apply (consistent_calls (l1 ++ Storing t :: l2) (issue token s)); [by apply consistent_issue|]. apply F. by apply good_new.
  - destruct (calls_split _ _ _ _ I Hc) as (F & Hg & _).
    apply consistent_answered; [apply consistent_stored; [by apply consistent_calls|done]|]. cbn. split; [done|]. by exists t.
  - destruct I as (H1 & H2 & H3 & H4). unfold consistent. by split_and!.
  - destruct I as (H1 & H2 & H3 & H4). unfold consistent. by split_and!.
  - apply (consistent_issue token) in I. destruct I as (H1 & H2 & H3 & H4). unfold consistent. cbn in *.
    split_and!; try done. intros ? [= <-]. by apply good_new.
  - apply consistent_stored; [|by apply I]. destruct I as (H1 & H2 & H3 & H4). unfold consistent. by split_and!.
Qed.
End token_provider.
