(* ===== verification/TokenProviderTheorems.v ===== *)
(** What the callers of a token provider get, and when a token is renewed. *)
From Stdlib Require Import ZArith Lia Strings.Byte QArith.
From stdpp Require Import base list strings gmap relations.
From S2P Require Import Prelude GoLib GoStrings TokenInfo TokenProvider.
Local Open Scope Z_scope.

Section theorems.
Context {J : JwtJson}.

(** C31: However the calls and the refresher interleave, every answer is either a
    failure without a token or a token that the source issued and that parses;
    and an answer with the shared token was good for another minute when the
    call looked at it. *)
Theorem answers_are_good_tokens s : rtc provider_step no_token s -> Forall (good_answer (issued s)) (answers s).
Proof.
  intros H. assert (consistent s) as I; [|by apply I].
  remember no_token as s0 eqn:E. assert (consistent s0) as I0 by (subst; apply consistent_no_token). clear E.
  induction H as [|s0 s1 s2 Hs _ IH]; [done|]. apply IH. by eapply consistent_step.
Qed.

(** A call of [GetToken] that nothing interrupts is steps of the relation. *)
Definition at_rest (t : option Token) (iss : list bytes) (l : list answer) : provider :=
  {| idToken := t; calls := []; ticker := Waiting; issued := iss; answers := l |}.

(** [GetToken], run alone, is a sequence of the steps that the interleaving
    is made of: it leaves the token and gives the answer that they do.*)
Theorem GetToken_refines_steps {W} (GetIDToken : M W bytes) unix t w r t' w' iss l :
  GetToken GetIDToken unix (t, w) = (Ok r, (t', w')) ->
  exists iss' c, rtc provider_step (at_rest t iss l) (at_rest t' iss' (l ++ [{| response := r; cached := c |}])) /\ iss ⊆ iss'.
Proof.
  unfold GetToken. destruct (bool_decide_reflect (getCurrentToken unix t = [])) as [Hc|Hc]; cbn [negb].
  2:{ intros [= <- <- <-]. exists iss, (Some unix). split; [|done]. apply rtc_once. by apply (s_cached unix (at_rest t iss l)). }
  pose proof (s_missed unix (at_rest t iss l) Hc) as S1.
  set (s1 := with_calls (Fetching :: calls (at_rest t iss l)) (at_rest t iss l)) in S1.
  destruct (GetIDToken w) as [[token|e|why] w1] eqn:Es; [|intros [= <- <- <-]|done].
  2:{ exists iss, None. split; [|done]. eapply rtc_l; [exact S1|]. apply rtc_once. by apply (s_source_failed [] [] s1). }
  destruct (ParseJWT token) as [tk|e|why] eqn:Ep; [intros [= <- <- <-]|intros [= <- <- <-]|done].
  - exists (token :: iss), None. split; [|by intros x Hx; right].
    eapply rtc_l; [exact S1|]. eapply rtc_l; [by apply (s_fetched [] [] token tk s1)|]. apply rtc_once.
    pose proof (ParseJWT_Raw token tk Ep) as Er. subst token. by apply (s_stored [] [] tk (issue (Raw tk) (with_calls [Storing tk] s1))).
  - exists (token :: iss), None. split; [|by intros x Hx; right].
    eapply rtc_l; [exact S1|]. apply rtc_once. by apply (s_parse_failed [] [] token e s1).
Qed.

(** The refresher acts before the callers would: for a token with a validity
    it fetches a new one when half of the validity and a minute are left, and
    callers stop using the token when a minute is left.*)
Theorem renewed_before_stale t unix :
  0 <= Iat (Token_ClaimSet t) < Exp (Token_ClaimSet t) -> Exp (Token_ClaimSet t) < 2 ^ 63 ->
  (renewLatest unix (Some t) = true <-> Exp (Token_ClaimSet t) - 60 < unix) /\
  (renewEarliest unix (Some (Token_ClaimSet t)) = true <->
     Exp (Token_ClaimSet t) - 60 - (Exp (Token_ClaimSet t) - Iat (Token_ClaimSet t)) / 2 < unix) /\
  (renewLatest unix (Some t) = true -> renewEarliest unix (Some (Token_ClaimSet t)) = true).
Proof.
  destruct (Token_ClaimSet t) as [iss aud sub email exp iat] eqn:Ec. cbn [Iat Exp]. intros Hi He.
  unfold renewLatest, renewEarliest, clockSkew_Seconds. rewrite Ec. cbn [Iat Exp].
  assert (id64 : forall z, - 2 ^ 63 <= z < 2 ^ 63 -> int64 z = z) by (intros z Hz; apply wrapS_id; [done|exact Hz]).
  pose proof (Z.div_pos (exp - iat) 2 ltac:(lia) ltac:(lia)).
  pose proof (Z.div_le_upper_bound (exp - iat) 2 (exp - iat) ltac:(lia) ltac:(lia)).
  rewrite (id64 (exp - 60)), (id64 (exp - iat)) by lia. rewrite (proj2 (Z.leb_gt _ _)) by lia. cbv zeta.
  rewrite Z.quot_div_nonneg by lia. rewrite id64 by lia. rewrite !Z.ltb_lt. lia.
Qed.
End theorems.

(** ** The example token *)

Definition shared : Token :=
  {| Raw := $"t"; Token_Header := {| Algorithm := []; KeyID := [] |};
     Token_ClaimSet := {| Iss := []; Aud := []; Sub := []; Email := []; Exp := 4600; Iat := 1000 |} |}.

Definition issued_text : bytes := jwt_text toy_header toy_claims ($"sig").
Definition issued_token : Token :=
  {| Raw := issued_text; Token_Header := {| Algorithm := $"RS256"; KeyID := $"1" |};
     Token_ClaimSet := {| Iss := $"accounts.google.com"; Aud := $"kafka"; Sub := $"alice";
       Email := $"alice@example.com"; Exp := 2000; Iat := 1000 |} |}.
Definition fetched_once : provider :=
  at_rest (Some issued_token) [issued_text] [{| response := (true, 0, issued_text); cached := None |}].

Lemma answers_are_good_tokens_witness :
  Forall (@good_answer toy_json (issued fetched_once)) (answers fetched_once).
Proof.
  apply (@answers_are_good_tokens toy_json fetched_once).
  eapply rtc_l; [apply (s_missed 1500 no_token); reflexivity|].
  eapply rtc_l; [apply (s_fetched [] [] issued_text issued_token); [reflexivity|vm_compute; reflexivity]|].
  apply rtc_once. by apply (s_stored [] [] issued_token (issue issued_text (with_calls [Storing issued_token] no_token))).
Defined.

Lemma GetToken_refines_steps_witness :
  exists iss' c, rtc (@provider_step toy_json) (at_rest (Some shared) [] [])
    (at_rest (Some shared) iss' ([] ++ [{| response := (true, 0, $"t"); cached := c |}])) /\ [] ⊆ iss'.
Proof.
  apply (@GetToken_refines_steps toy_json unit (fail EOF) 4000 (Some shared) tt (true, 0, $"t") (Some shared) tt [] []).
  vm_compute. reflexivity.
Defined.

Lemma renewed_before_stale_witness :
  renewLatest 4541 (Some shared) = true /\ renewEarliest 4541 (Some (Token_ClaimSet shared)) = true.
Proof.
  split; [vm_compute; reflexivity|].
  apply (renewed_before_stale shared 4541); [cbn; lia|vm_compute; reflexivity|vm_compute; reflexivity].
Defined.
