(* ===== verification/Tls.v ===== *)
(** TLS of the proxy (proxy/tls.go) and the SNI listener (proxy/proxy.go): the
    cipher suites and curves of the configuration, the options of the listener
    and of the broker connections, the check that a client presents the proxy's
    own client certificate, and the routing of connections by server name.

    The TLS protocol is crypto/tls: [as_tls] gives the methods of a [*tls.Conn].
    The library that builds [tls.Config] values from files is a parameter. *)
From Stdlib Require Import ZArith Lia Strings.Byte.
From stdpp Require Import base list strings gmap.
From S2P Require Import Prelude GoLib GoStrings NetAddr Net Subject Listeners Config Loops.

(** ** [strings.TrimSpace] *)

(** Cuts a prefix of characters given by their bytes, one to three of them. *)
Fixpoint trim_prefix (p1 : byte -> bool) (p2 : byte -> byte -> bool) (p3 : byte -> byte -> byte -> bool)
    (s : bytes) : bytes :=
  match s with
  | b0 :: s1 =>
      if p1 b0 then trim_prefix p1 p2 p3 s1
      else match s1 with
      | b1 :: s2 =>
          if p2 b0 b1 then trim_prefix p1 p2 p3 s2
          else match s2 with
          | b2 :: s3 => if p3 b0 b1 b2 then trim_prefix p1 p2 p3 s3 else s
          | [] => s
          end
      | [] => s
      end
  | [] => []
  end.

(** The encodings of the characters of [unicode.IsSpace]: ASCII; U+0085 and
    U+00A0; U+1680, U+2000 to U+200A, U+2028, U+2029, U+202F, U+205F, U+3000. *)
Definition space1 (b : byte) : bool := (byteZ b =? 32) || ((9 <=? byteZ b) && (byteZ b <=? 13)).
Definition space2 (b0 b1 : byte) : bool := (byteZ b0 =? 194) && ((byteZ b1 =? 133) || (byteZ b1 =? 160)).
Definition space3 (b0 b1 b2 : byte) : bool :=
  let c := byteZ b2 in
  bool_decide (b0 = xe1 /\ b1 = x9a /\ b2 = x80) ||
  bool_decide (b0 = xe2 /\ b1 = x80) && ((128 <=? c) && (c <=? 138) || (c =? 168) || (c =? 169) || (c =? 175)) ||
  bool_decide (b0 = xe2 /\ b1 = x81 /\ b2 = x9f) ||
  bool_decide (b0 = xe3 /\ b1 = x80 /\ b2 = x80).

Definition TrimSpace (s : bytes) : bytes :=
  let s := trim_prefix space1 space2 space3 s in
  reverse (trim_prefix space1 (fun b0 b1 => space2 b1 b0) (fun b0 b1 b2 => space3 b2 b1 b0) (reverse s)).

(** ** Cipher suites and curves *)

(** The values of crypto/tls's constants. *)
Definition supportedCurvesMap : gmap bytes Z := list_to_map [
  ($"X25519", 29); ($"P256", 23); ($"P384", 24); ($"P521", 25)].

Definition supportedCiphersMap : gmap bytes Z := list_to_map [
  ($"TLS_RSA_WITH_RC4_128_SHA", 0x0005);
  ($"TLS_RSA_WITH_3DES_EDE_CBC_SHA", 0x000a);
  ($"TLS_RSA_WITH_AES_128_CBC_SHA", 0x002f);
  ($"TLS_RSA_WITH_AES_256_CBC_SHA", 0x0035);
  ($"TLS_RSA_WITH_AES_128_CBC_SHA256", 0x003c);
  ($"TLS_RSA_WITH_AES_128_GCM_SHA256", 0x009c);
  ($"TLS_RSA_WITH_AES_256_GCM_SHA384", 0x009d);
  ($"TLS_ECDHE_ECDSA_WITH_RC4_128_SHA", 0xc007);
  ($"TLS_ECDHE_ECDSA_WITH_AES_128_CBC_SHA", 0xc009);
  ($"TLS_ECDHE_ECDSA_WITH_AES_256_CBC_SHA", 0xc00a);
  ($"TLS_ECDHE_RSA_WITH_RC4_128_SHA", 0xc011);
  ($"TLS_ECDHE_RSA_WITH_3DES_EDE_CBC_SHA", 0xc012);
  ($"TLS_ECDHE_RSA_WITH_AES_128_CBC_SHA", 0xc013);
  ($"TLS_ECDHE_RSA_WITH_AES_256_CBC_SHA", 0xc014);
  ($"TLS_ECDHE_ECDSA_WITH_AES_128_CBC_SHA256", 0xc023);
  ($"TLS_ECDHE_RSA_WITH_AES_128_CBC_SHA256", 0xc027);
  ($"TLS_ECDHE_RSA_WITH_AES_128_GCM_SHA256", 0xc02f);
  ($"TLS_ECDHE_ECDSA_WITH_AES_128_GCM_SHA256", 0xc02b);
  ($"TLS_ECDHE_RSA_WITH_AES_256_GCM_SHA384", 0xc030);
  ($"TLS_ECDHE_ECDSA_WITH_AES_256_GCM_SHA384", 0xc02c);
  ($"TLS_ECDHE_RSA_WITH_CHACHA20_POLY1305_SHA256", 0xcca8);
  ($"TLS_ECDHE_ECDSA_WITH_CHACHA20_POLY1305_SHA256", 0xcca9);
  ($"TLS_AES_128_GCM_SHA256", 0x1301);
  ($"TLS_AES_256_GCM_SHA384", 0x1302);
  ($"TLS_CHACHA20_POLY1305_SHA256", 0x1303)].

(** The loop over the configured names. *)
Fixpoint lookup_all (m : gmap bytes Z) (msg : string) (names : list bytes) : res (list Z) :=
  match names with
  | [] => Ok []
  | name :: names' =>
      match m !! TrimSpace name with
      | None => Err (Errorf msg)
      | Some v => let? rest := lookup_all m msg names' in Ok (v :: rest)
      end
  end.

(** A nil result selects the library's defaults. *)
Definition nil_suites (l : list Z) : option (list Z) := match l with [] => None | _ => Some l end.

Definition getCipherSuites (enabledCipherSuites : list bytes) : res (option (list Z)) :=
  rmap nil_suites (lookup_all supportedCiphersMap "invalid cipher suite '%s' selected, supported ciphers %v" enabledCipherSuites).
Definition getCurvePreferences (enabledCurvePreferences : list bytes) : res (option (list Z)) :=
  rmap nil_suites (lookup_all supportedCurvesMap "invalid curveID '%s' selected, supported curveIDs %v" enabledCurvePreferences).

(** ** TLS configurations *)

Record ListenerTLS := {
  ltls_Refresh : Z; ltls_CertFile : bytes; ltls_KeyFile : bytes; ltls_KeyPassword : bytes;
  ltls_CAChainCertFile : bytes; ltls_CRLFile : bytes;
  ListenerCipherSuites : list bytes; ListenerCurvePreferences : list bytes;
  ClientCert_Subjects : list bytes
}.
Record BrokerTLS := {
  btls_Refresh : Z; btls_InsecureSkipVerify : bool; btls_ClientCertFile : bytes; btls_ClientKeyFile : bytes;
  btls_ClientKeyPassword : bytes; btls_CAChainCertFile : bytes; btls_SystemCertPool : bool
}.

Section configs.
Context {RE : RegexpPkg} {RT : Runtime} {TLSConfig : Type}.

(** [tlsconfig.TLSServerConfig] and the options of [GetServerTLSConfig]. *)
Record TLSServerConfig := {
  server_Enable : bool; server_Refresh : Z; server_KeyPassword : bytes;
  server_Key : bytes; server_Cert : bytes; server_ClientCAs : bytes; server_ClientCRL : bytes;
  server_VerifyPeerCertificate : (nat -> list bytes -> list bytes) -> gmap positive Name -> list (list positive) -> option (list certError);
  server_CipherSuites : option (list Z);
  server_CurvePreferences : option (list Z)
}.
Record TLSClientConfig := {
  client_Enable : bool; client_Refresh : Z; client_InsecureSkipVerify : bool; client_KeyPassword : bytes;
  client_UseSystemPool : bool; client_Key : bytes; client_Cert : bytes; client_RootCAs : bytes
}.
Context (GetServerTLSConfig : TLSServerConfig -> res TLSConfig).
Context (GetTLSClientConfigFunc : TLSClientConfig -> res TLSConfig).

Definition newTLSListenerConfig (opts : ListenerTLS) : res TLSConfig :=
  let? cipherSuites := getCipherSuites (ListenerCipherSuites opts) in
  let? curvePreferences := getCurvePreferences (ListenerCurvePreferences opts) in
  match tlsClientCertVerificationFunc (ClientCert_Subjects opts) with
  | POk tlsValidateFunc =>
      GetServerTLSConfig
        {| server_Enable := true; server_Refresh := ltls_Refresh opts; server_KeyPassword := ltls_KeyPassword opts;
           server_Key := ltls_KeyFile opts; server_Cert := ltls_CertFile opts;
           server_ClientCAs := ltls_CAChainCertFile opts; server_ClientCRL := ltls_CRLFile opts;
           server_VerifyPeerCertificate := tlsValidateFunc;
           server_CipherSuites := cipherSuites; server_CurvePreferences := curvePreferences |}
  | PErr _ => Err (Errorf "parse error")
  | PPanic w => Panic w
  | OutOfFuel => Panic "out of fuel"            (* never: Parse_terminates *)
  end.

Definition newTLSClientConfig (opts : BrokerTLS) : res TLSConfig :=
  GetTLSClientConfigFunc
    {| client_Enable := true; client_Refresh := btls_Refresh opts;
       client_InsecureSkipVerify := btls_InsecureSkipVerify opts; client_KeyPassword := btls_ClientKeyPassword opts;
       client_UseSystemPool := btls_SystemCertPool opts; client_Key := btls_ClientKeyFile opts;
       client_Cert := btls_ClientCertFile opts; client_RootCAs := btls_CAChainCertFile opts |}.
End configs.

(** ** Certificates *)

(** [x509.Certificate] as far as it is read; [Equal] compares the encodings. *)
Record Certificate := { Raw : bytes; IsCA : bool; Subject_CommonName : bytes }.
Definition Equal (c other : Certificate) : bool := bool_decide (Raw c = Raw other).

Section certificates.
(** [os.ReadFile], [pem.Decode] and [x509.ParseCertificate] *)
Context (ReadFile : bytes -> res bytes) (pem_Decode : bytes -> option bytes).
Context (x509_ParseCertificate : bytes -> res Certificate).

Definition parseCertificate (certFile : bytes) : res Certificate :=
  match ReadFile certFile with
  | Err _ => Err (Errorf "Failed to read file from location '%s'")
  | Panic w => Panic w
  | Ok content =>
      match pem_Decode content with
      | None => Panic "invalid memory address or nil pointer dereference"
      | Some block =>
          match x509_ParseCertificate block with
          | Err _ => Err (Errorf "Failed to parse certificate file from location '%s'")
          | r => r
          end
      end
  end.
End certificates.

Fixpoint filterClientCertificate (peerCertificates : list Certificate) : option Certificate :=
  match peerCertificates with
  | [] => None
  | v :: l => if negb (IsCA v) then Some v else filterClientCertificate l
  end.

Definition validateClientCert (actualClientCert : option Certificate) (expectedCert : Certificate) : res unit :=
  match actualClientCert with
  | None => Err (Errorf "Client cert not found in TLS connection")
  | Some c =>
      if negb (Equal c expectedCert)
      then Err (Errorf "Client cert sent by proxy client does not match brokers client cert (tls-client-cert-file)")
      else Ok tt
  end.

(** ** TLS connections *)

Record ConnectionState := { ServerName : bytes; PeerCertificates : list Certificate }.
Record tls_Conn := { Handshake : M conn unit; get_ConnectionState : conn -> ConnectionState }.

Section connections.
(** The type assertion [*tls.Conn] *)
Context (as_tls : conn -> option tls_Conn).

(** [if err != nil { return errors.Errorf(format, err) }] *)
Definition errorf {S A} (m : M S A) (format : string) : M S A := fun s =>
  match m s with (Err _, s') => (Err (Errorf format), s') | r => r end.

Definition handshakeTLSConn (tlsConn : tls_Conn) : M conn unit :=
  do* errorf SetDeadline "Failed to set deadline with handshake timeout in seconds %f on connection: %v" in
  do* errorf (Handshake tlsConn) "TLS handshake failed when exchanging client certificates: %v" in
  errorf SetDeadline "Failed to reset deadline on connection: %v".

Definition handshakeAsTLSAndValidateClientCert (expectedCert : Certificate) : M conn unit := fun c =>
  match as_tls c with
  | None => (Err (Errorf "Unable to cast connection to TLS when validating client cert"), c)
  | Some tlsConn =>
      (do* handshakeTLSConn tlsConn in
       let* c' := get in
       lift (validateClientCert (filterClientCertificate (PeerCertificates (get_ConnectionState tlsConn c'))) expectedCert)) c
  end.

(** ** The SNI listener *)

(** The broker of a connection; the empty address is none. *)
Definition sniRoute (sniMapping : gmap bytes bytes) (serverName commonName : bytes) : bytes :=
  match sniMapping !! serverName with
  | Some target => target
  | None => default [] (sniMapping !! commonName)
  end.

(** What is sent to the channel of new connections, if anything, and the
    connection as it is left.  The socket options are never set: a [*tls.Conn]
    is no [*net.TCPConn]. *)
Definition handleSNIConnection (cfg : Config) (c : conn) : res (option bytes) * conn :=
  match as_tls c with
  | None => (Ok None, closed c)
  | Some tlsConn =>
      match Handshake tlsConn c with
      | (Panic w, c) => (Panic w, c)
      | (Err _, c) => (Ok None, closed c)
      | (Ok _, c) =>
          let state := get_ConnectionState tlsConn c in
          let commonName := match PeerCertificates state with [] => [] | p :: _ => Subject_CommonName p end in
          let brokerAddress := sniRoute (SNIMapping (Proxy cfg)) (ServerName state) commonName in
          if bool_decide (brokerAddress = []) then (Ok None, closed c) else (Ok (Some brokerAddress), c)
      end
  end.

(** A turn of the accept loop that [ListenSNIInstance] starts: what the
    goroutine of an accepted connection does, or nothing when [Accept] fails,
    which closes the listener and ends the loop. *)
Definition sniAcceptTurn {X} (Accept : X -> (conn + error) * X) (Close : X -> X) (cfg : Config) (x : X)
    : option (res (option bytes) * conn) * X :=
  match Accept x with
  | (inl c, x) => (Some (handleSNIConnection cfg c), x)
  | (inr _, x) => (None, Close x)
  end.

(** [ListenSNIInstance] up to the start of its loop: whether it is started. *)
Definition ListenSNIInstance {X} (tlsListen : bytes -> M X Z) (cfg : Config) : M X (option Z) :=
  if bool_decide (SNIListenerAddress (Proxy cfg) = []) then ret None
  else if negb (ProxyTLS_Enable (Proxy cfg)) then fail (Errorf "SNI routing requires TLS to be enabled")
  else let* port := tlsListen (SNIListenerAddress (Proxy cfg)) in ret (Some port).
End connections.
