(* ===== verification/TlsTheorems.v ===== *)
(** The properties of the certificate check and of the SNI listener. *)
From Stdlib Require Import ZArith Lia Strings.Byte.
From stdpp Require Import base list strings gmap.
From S2P Require Import Prelude GoLib GoStrings NetAddr Net Auth Processor Loops Listeners SaslProxy Config Gssapi SaslProxyTheorems ConnSet Client ClientTheorems Subject Tls.

Local Open Scope Z_scope.

(** ** The certificate check *)

(** The first certificate of the client that is not an authority's. *)
Definition first_own (l : list Certificate) (own : Certificate) : Prop :=
  exists pre post, l = pre ++ own :: post /\ Forall (fun c => IsCA c = true) pre /\ IsCA own = false.

Lemma filterClientCertificate_Some l own : filterClientCertificate l = Some own <-> first_own l own.
Proof.
  split.
  - induction l as [|v l IH]; intros H; [done|]. cbn [filterClientCertificate] in H. destruct (IsCA v) eqn:E; cbn [negb] in H.
    + destruct (IH H) as (pre & post & -> & Hp & Ho). exists (v :: pre), post. by split_and!; [|constructor|].
    + injection H as ->. by exists [], l.
  - intros (pre & post & -> & Hp & Ho). induction Hp as [|v pre Hv Hp IH]; cbn; [by rewrite Ho|by rewrite Hv].
Qed.

Lemma validateClientCert_Ok actual expected :
  validateClientCert actual expected = Ok tt <-> exists c, actual = Some c /\ Raw c = Raw expected.
Proof.
  unfold validateClientCert, Equal. destruct actual as [c|]; [|by split; [|intros (? & ? & ?)]].
  case_bool_decide; cbn [negb]; split; try done; [by exists c|]. by intros (? & [= ->] & ?).
Qed.

Lemma errorf_Ok {S A} (m : M S A) format s a s' : errorf m format s = (Ok a, s') -> m s = (Ok a, s').
Proof. unfold errorf. by destruct (m s) as [[] ?]; intros; simplify_eq. Qed.

Lemma SetDeadline_same c r c' : SetDeadline c = (r, c') -> c' = c.
Proof. unfold SetDeadline. destruct (deadline_err c); by intros [= _ <-]. Qed.

Section check.
Context (as_tls : conn -> option tls_Conn).

Lemma handshakeTLSConn_Ok t c c' : handshakeTLSConn t c = (Ok tt, c') -> Handshake t c = (Ok tt, c').
Proof.
  unfold handshakeTLSConn. intros H. apply bind_inv in H as ([] & c1 & H1%errorf_Ok%SetDeadline_same & H). subst c1.
  apply bind_inv in H as ([] & c2 & H2%errorf_Ok & H%errorf_Ok%SetDeadline_same). by subst c2.
Qed.

Lemma handshakeAsTLS_Ok expected c c' :
  handshakeAsTLSAndValidateClientCert as_tls expected c = (Ok tt, c') ->
  exists t own, as_tls c = Some t /\ Handshake t c = (Ok tt, c') /\
    first_own (PeerCertificates (get_ConnectionState t c')) own /\ Raw own = Raw expected.
Proof.
  unfold handshakeAsTLSAndValidateClientCert. destruct (as_tls c) as [t|]; [|done]. intros H.
  apply bind_inv in H as ([] & c1 & H1%handshakeTLSConn_Ok & H). unfold bind at 1, get, lift in H.
  injection H as H <-. apply validateClientCert_Ok in H as (own & Ho%filterClientCertificate_Some & HR).
  by exists t, own.
Qed.

Context {X KrbClient Ticket Key WrapToken Conversation : Type}.
Context (krb : gokrb5 X KrbClient Ticket Key WrapToken).
Context (New256 New512 : bytes -> bytes -> res Conversation).
Context (Step : Conversation -> bytes -> res bytes * Conversation) (Done : Conversation -> bool).
Context (Dial : Dialer -> bytes -> M X conn).
Context (newTLS : Config -> res bool) (parse : bytes -> res Certificate) (NewAws : bytes -> res (AwsMSKIamAuth X)).

(** The client of a configuration that asks for the same client certificate
    expects the certificate of the configured file. *)
Lemma NewClient_cert c f pl ch cl :
  NewClient newTLS parse NewAws c f pl ch = Ok cl ->
  KafkaTLS_Enable (Kafka c) && SameClientCertEnable (Kafka c) = true ->
  exists cert, parse (KafkaTLS_ClientCertFile (Kafka c)) = Ok cert /\ kafkaClientCert cl = Some cert.
Proof.
  unfold NewClient. intros H E. rewrite E in H. apply rbind_inv in H as (t & _ & H).
  apply rbind_inv in H as (o & Ho & H). destruct (parse _) as [cert|e|w]; [|done..]. injection Ho as <-.
  exists cert. split; [done|]. repeat (apply rbind_inv in H as (? & _ & H)). by injection H as <-.
Qed.

(** C12: With [tls-same-client-cert-enable], a connection is copied only after a
    TLS handshake in which the client presented the very certificate of
    [tls-client-cert-file], as its first certificate that is not an authority's;
    when the check fails the connection is closed and no broker is dialed. *)
Theorem same_client_cert_enforced (c : Config) f (pl : plugins X) ch (cl : Client X Certificate)
    (brokerAddress : bytes) (local : conn) (o : outside X) :
  NewClient newTLS parse NewAws c f pl ch = Ok cl ->
  KafkaTLS_Enable (Kafka c) && SameClientCertEnable (Kafka c) = true ->
  let run := handleConn krb New256 New512 Step Done Dial cl (handshakeAsTLSAndValidateClientCert as_tls)
               brokerAddress local o in
  exists cert, parse (KafkaTLS_ClientCertFile (Kafka c)) = Ok cert /\
    (forall local' server o', run = (Copied local' server, o') ->
       exists t own, as_tls local = Some t /\ Handshake t local = (Ok tt, local') /\
         first_own (PeerCertificates (get_ConnectionState t local')) own /\ Raw own = Raw cert) /\
    (forall e local', handshakeAsTLSAndValidateClientCert as_tls cert local = (Err e, local') ->
       run = (Dropped (closed local') None, o)).
Proof.
  intros H E run. destruct (NewClient_cert c f pl ch cl H E) as (cert & Hp & Hc). exists cert. split; [done|].
  subst run. unfold handleConn. rewrite Hc. split.
  - intros local' server o' Hrun. apply handshakeAsTLS_Ok. revert Hrun.
    destruct (handshakeAsTLSAndValidateClientCert _ _ _) as [[[]|e|w] l]; [|done..].
    destruct (DialAndAuth _ _ _ _ _ _ _ _ _) as [[[server'|e|w] d] o1]; by intros [= <- _ _].
  - by intros e local' ->.
Qed.
End check.

(** ** The SNI listener *)

(** The reverse mapping only has pairs of the mapping, and every broker of it. *)
Lemma reverse_mapping (m : gmap bytes bytes) b :
  match map_fold (fun sni broker r => <[broker := sni]> r) (∅ : gmap bytes bytes) m !! b with
  | Some sni => m !! sni = Some b
  | None => forall sni, m !! sni <> Some b
  end.
Proof.
  revert m. apply (map_fold_weak_ind (fun (r : gmap bytes bytes) m =>
    match r !! b with Some sni => m !! sni = Some b | None => forall sni, m !! sni <> Some b end)).
  - rewrite lookup_empty. intros sni. by rewrite lookup_empty.
  - intros sni broker m r Hm IH. destruct (decide (broker = b)) as [->|Hb].
    + rewrite lookup_insert_eq. by rewrite lookup_insert_eq.
    + rewrite lookup_insert_ne by done. destruct (r !! b) as [sni'|].
      * rewrite lookup_insert_ne; [done|]. intros ->. congruence.
      * intros sni'. destruct (decide (sni = sni')) as [->|]; [rewrite lookup_insert_eq; congruence|].
        by rewrite lookup_insert_ne.
Qed.

Section sni.
Context (as_tls : conn -> option tls_Conn) {X : Type}.
Context (listenFunc : bytes -> M X Z) (renderTemplate : bytes -> Z -> res bytes).
Context (Accept : X -> (conn + error) * X) (Close : X -> X).

(** C27: The address a client is given for a broker of the SNI mapping leads back
    to that broker, when the broker has no listener of its own: the mapping
    returns a server name of the broker with the SNI listener's port and
    starts nothing, and a TLS connection to that name is routed to the broker
    by the turn that accepts it, whatever certificates the client presents. *)
Theorem sni_addresses_lead_back (cfg : Config) (brokerHost : bytes) (brokerPort brokerId : Z) (s : state X)
    (listenHost portStr : bytes) :
  let brokerAddress := JoinHostPort brokerHost (Itoa brokerPort) in
  brokerHost <> [] -> 0 < brokerPort ->
  brokerToListenerConfig s !! brokerAddress = None ->
  net_SplitHostPort (SNIListenerAddress (Proxy cfg)) = Ok (listenHost, portStr) ->
  (exists sni, SNIMapping (Proxy cfg) !! sni = Some brokerAddress) ->
  exists sni, GetNetAddressMapping listenFunc renderTemplate (newListeners cfg) brokerHost brokerPort brokerId s =
      (Ok (sni, int32 (fst (Atoi_value portStr))), s) /\
    forall c t c', as_tls c = Some t -> Handshake t c = (Ok tt, c') -> ServerName (get_ConnectionState t c') = sni ->
      handleSNIConnection as_tls cfg c = (Ok (Some brokerAddress), c') /\
      forall x x', Accept x = (inl c, x') ->
        sniAcceptTurn as_tls Accept Close cfg x = (Some (Ok (Some brokerAddress), c'), x').
Proof.
  intros b Hh Hp Hs Hl (sni0 & Hm). pose proof (reverse_mapping (SNIMapping (Proxy cfg)) b) as Hr.
  destruct (map_fold _ _ _ !! b) as [sni|] eqn:Er; [|by destruct (Hr sni0)]. exists sni. split.
  - unfold GetNetAddressMapping. fold b. rewrite (bool_decide_eq_false_2 _ Hh), (proj2 (Z.leb_gt _ _) Hp). cbn [orb].
    unfold bind at 1, get. rewrite Hs. unfold sniAddress. cbn [newListeners brokerToSNIMapping sniListenerAddress].
    rewrite Er. rewrite bool_decide_eq_false_2; [by rewrite Hl|]. intros E. by rewrite E in Hl.
  - intros c t c' Ht Hc Hn.
    assert (handleSNIConnection as_tls cfg c = (Ok (Some b), c')) as E; [|split; [done|]; intros x x' Ha; unfold sniAcceptTurn; by rewrite Ha, E].
    unfold handleSNIConnection. rewrite Ht, Hc, Hn. unfold sniRoute. rewrite Hr.
    rewrite bool_decide_eq_false_2; [done|]. unfold b, JoinHostPort. destruct (IndexByte _ _); [done|by destruct brokerHost].
Qed.
End sni.

(** ** Witnesses *)

(** A TLS connection whose peer presents an authority's certificate and its own. *)
Definition toy_peer : list Certificate :=
  [{| Raw := $"intermediate"; IsCA := true; Subject_CommonName := $"ca" |};
   {| Raw := $"own"; IsCA := false; Subject_CommonName := $"client" |}].
Definition toy_tls (name : bytes) : conn -> option tls_Conn := fun _ =>
  Some {| Handshake := ret tt; get_ConnectionState := fun _ => {| ServerName := name; PeerCertificates := toy_peer |} |}.

(** The mutual TLS configuration over the plain one. *)
Definition mutual_config : Config :=
  let k := Kafka plain_config in
  {| Proxy := Proxy plain_config; Local := Local plain_config; GatewayClient := GatewayClient plain_config;
     GatewayServer := GatewayServer plain_config;
     Kafka := {| Kafka_ClientID := Kafka_ClientID k; Kafka_MaxOpenRequests := 256; Kafka_ForbiddenApiKeys := [];
       DialTimeout := 0; WriteTimeout := 0; ReadTimeout := 0; KeepAlive := 0;
       KafkaTLS_Enable := true; KafkaTLS_ClientCertFile := $"client.pem"; SameClientCertEnable := true;
       SASL := SASL k; Acks0Disabled := false |};
     ForwardProxy := ForwardProxy plain_config |}.
Definition toy_cert (raw file : bytes) : res Certificate := Ok {| Raw := raw; IsCA := false; Subject_CommonName := [] |}.
Definition mutual_client : Client nat Certificate :=
  match NewClient (fun _ => Ok true) (toy_cert ($"own")) no_aws mutual_config None no_plugins None with
  | Ok cl => cl
  | _ => {| config := mutual_config; dialer := directDialer 0 0; saslAuthByProxy := None;
            authClient := {| ac_enabled := false; ac_magic := 0; ac_method := []; ac_tokenProvider := nil_call |};
            processorConfig := newProcessorConfig mutual_config None no_plugins None;
            dialAddressMapping := ∅; kafkaClientCert := None |}
  end.

Lemma same_client_cert_enforced_witness :
  exists own, first_own toy_peer own /\ Raw own = $"own".
Proof.
  destruct (same_client_cert_enforced (toy_tls []) toy_krb toy_New toy_New toy_Step toy_Done plain_dial
              (fun _ => Ok true) (toy_cert ($"own")) no_aws mutual_config None no_plugins None mutual_client
              ($"kafka:9092") quiet nothing_outside ltac:(vm_compute; reflexivity) eq_refl) as (cert & E & H & _).
  injection E as <-.
  pose (run := handleConn toy_krb toy_New toy_New toy_Step toy_Done plain_dial mutual_client
                 (handshakeAsTLSAndValidateClientCert (toy_tls [])) ($"kafka:9092") quiet nothing_outside).
  assert (exists l sv o', run = (Copied l sv, o')) as (l & sv & o' & Er)
    by (do 3 eexists; vm_compute; reflexivity).
  destruct (H _ _ _ Er) as (t & own & [= <-] & _ & Hown & HR).
  exists own. split; [exact Hown|exact HR].
Defined.

Definition sni_config : Config :=
  let p := Proxy plain_config in
  {| Proxy := {| DefaultListenerIP := $"0.0.0.0"; BootstrapServers := []; ExternalServers := [];
       DeterministicListeners := false; DialAddressMappings := []; DisableDynamicListeners := false;
       DynamicAdvertisedListener := []; DynamicSequentialMinPort := 0; DynamicSequentialMaxPorts := 0;
       Proxy_RequestBufferSize := 4096; Proxy_ResponseBufferSize := 4096; ListenerKeepAlive := 0;
       ProxyTLS_Enable := true; ListenerCertFile := $"server.pem"; ListenerKeyFile := $"server.key";
       SNIMapping := list_to_map [($"a.example.com", $"kafka-a:9092"); ($"b.example.com", $"kafka-b:9092")];
       SNIListenerAddress := $"0.0.0.0:443" |};
     Local := Local plain_config; GatewayClient := GatewayClient plain_config;
     GatewayServer := GatewayServer plain_config; Kafka := Kafka plain_config; ForwardProxy := ForwardProxy plain_config |}.

Lemma sni_addresses_lead_back_witness :
  exists sni, fst (GetNetAddressMapping (fun _ => ret 0) (fun _ _ => Ok []) (newListeners sni_config) ($"kafka-b") 9092 2
                     (initial_state ∅ tt)) = Ok (sni, 443) /\
    handleSNIConnection (toy_tls sni) sni_config quiet = (Ok (Some ($"kafka-b:9092")), quiet).
Proof.
  destruct (sni_addresses_lead_back (toy_tls ($"b.example.com")) (fun _ => ret 0) (fun _ _ => Ok [])
              (fun x => (inl quiet, x)) id sni_config ($"kafka-b") 9092 2
              (initial_state ∅ tt) ($"0.0.0.0") ($"443")) as (sni & E & H).
  - discriminate.
  - reflexivity.
  - reflexivity.
  - vm_compute. reflexivity.
  - exists ($"b.example.com"). vm_compute. reflexivity.
  - exists sni. split; [by rewrite E|]. vm_compute in E. injection E as <-. eapply H; reflexivity.
Defined.

(** An authority's certificate as the client's own, followed by a copy of the
    expected one: the check passes though the handshake proved another key. *)
Example authority_with_copy_passes :
  let impostor := {| Raw := $"impostor"; IsCA := true; Subject_CommonName := [] |} in
  let expected := {| Raw := $"own"; IsCA := false; Subject_CommonName := [] |} in
  validateClientCert (filterClientCertificate [impostor; expected]) expected = Ok tt.
Proof. reflexivity. Qed.
