(* ===== verification/Registry.v ===== *)
(** The registry of built-in plugins (pkg/registry/registry.go): components under
    the interfaces they implement, by name.

    An interface is known by its name; what a component implements and the name
    of its type are given by reflection and are parameters. *)
From Stdlib Require Import ZArith Lia Strings.Byte.
From stdpp Require Import base list strings gmap.
From S2P Require Import Prelude GoLib.

(** [registry.componentInterfaces], and in each the components by name. *)
Abbreviation registry C := (gmap bytes (gmap bytes C)).

Section registry.
Context {C : Type} (Implements : C -> bytes -> bool) (TypeName : C -> bytes).

Definition NewComponentInterface (iface : bytes) (r : registry C) : registry C :=
  match r !! iface with
  | None => <[iface := ∅]> r
  | Some _ => r
  end.

(** [ep.register]: the components with the new one, unless its name is taken. *)
Definition register (component : C) (name : bytes) (components : gmap bytes C) : bool * gmap bytes C :=
  let name := if bool_decide (name = []) then TypeName component else name in
  match components !! name with
  | Some _ => (false, components)
  | None => (true, <[name := component]> components)
  end.

Definition lookup_component (name : bytes) (components : gmap bytes C) : option C := components !! name.

(** The interfaces in the order of the registry's map. *)
Definition implements (component : C) (r : registry C) : list bytes :=
  List.filter (Implements component) ((map_to_list r).*1).

(** [for _, iface := range implements(component)] *)
Fixpoint register_all (component : C) (name : bytes) (ifaces : list bytes) (r : registry C) : list bytes * registry C :=
  match ifaces with
  | [] => ([], r)
  | iface :: l =>
      let '(ok, components) := register component name (default ∅ (r !! iface)) in
      let '(registered, r') := register_all component name l (<[iface := components]> r) in
      (if ok then iface :: registered else registered, r')
  end.
Definition Register (component : C) (name : bytes) (r : registry C) : list bytes * registry C :=
  register_all component name (implements component r) r.

Definition GetComponent (iface name : bytes) (r : registry C) : option C :=
  match r !! iface with
  | None => None
  | Some ep => lookup_component name ep
  end.

(** ** Facts *)

(** What [register_all] leaves under each interface. *)
Lemma register_all_lookup component name l r iface :
  NoDup l -> (forall i, i ∈ l -> is_Some (r !! i)) ->
  snd (register_all component name l r) !! iface =
  (if decide (iface ∈ l) then snd ∘ register component name else id) <$> r !! iface.
Proof.
  revert r. induction l as [|i l IH]; intros r Hl Hr.
  { rewrite decide_False by apply not_elem_of_nil. simpl. by destruct (r !! iface). }
  apply NoDup_cons in Hl as [Hi Hl]. cbn [register_all].
  destruct (register component name (default ∅ (r !! i))) as [ok cs] eqn:E.
  specialize (IH (<[i := cs]> r) Hl). destruct (register_all component name l (<[i := cs]> r)) as [reg r'].
  cbn [snd] in IH |- *. rewrite IH.
  2:{ intros j Hj. destruct (decide (i = j)) as [->|]; [rewrite lookup_insert_eq; by eexists|]. rewrite lookup_insert_ne by done. apply Hr. by right. }
  destruct (decide (iface = i)) as [->|Hne].
  - rewrite lookup_insert_eq, decide_False, decide_True by (by repeat constructor || done).
    destruct (Hr i) as [m Hm]; [left|]. rewrite Hm in E |- *. simpl in E |- *. by rewrite E.
  - rewrite lookup_insert_ne by done. destruct (decide (iface ∈ l)); [by rewrite decide_True by by right|].
    by rewrite decide_False by (rewrite elem_of_cons; tauto).
Qed.

Lemma Register_lookup component name r iface :
  snd (Register component name r) !! iface =
  (if Implements component iface then snd ∘ register component name else id) <$> r !! iface.
Proof.
  unfold Register. rewrite register_all_lookup.
  - destruct (r !! iface) as [m|] eqn:E; [|done]. unfold implements.
    destruct (Implements component iface) eqn:Ei.
    + rewrite decide_True; [done|]. apply list_elem_of_In, filter_In. split; [|done].
      apply list_elem_of_In, list_elem_of_fmap. exists (iface, m). split; [done|]. by apply elem_of_map_to_list.
    + rewrite decide_False; [done|]. intros [_ H]%list_elem_of_In%filter_In. congruence.
  - apply NoDup_ListNoDup, List.NoDup_filter, NoDup_ListNoDup, NoDup_fst_map_to_list.
  - intros i Hi. apply list_elem_of_In, filter_In in Hi as [Hi _].
    apply list_elem_of_In, list_elem_of_fmap in Hi as ((i' & m) & -> & Hm). exists m. by apply elem_of_map_to_list.
Qed.

(** A registered component stays what its name stands for. *)
Lemma Register_keeps component name r iface n c :
  GetComponent iface n r = Some c -> GetComponent iface n (snd (Register component name r)) = Some c.
Proof.
  unfold GetComponent, lookup_component. rewrite Register_lookup. destruct (r !! iface) as [m|]; [|done]. intros H. simpl.
  destruct (Implements component iface); [|done]. simpl. unfold register.
  destruct (m !! (if bool_decide (name = []) then _ else _)) eqn:E; [done|]. simpl. rewrite lookup_insert_ne; [done|]. congruence.
Qed.

(** The first component of a name is found under every interface it implements. *)
Lemma Register_finds component name r iface :
  name <> [] -> Implements component iface = true -> is_Some (r !! iface) -> GetComponent iface name r = None ->
  GetComponent iface name (snd (Register component name r)) = Some component.
Proof.
  unfold GetComponent, lookup_component. rewrite Register_lookup. intros Hn -> [m ->] H. simpl.
  unfold register. rewrite bool_decide_eq_false_2 by done. rewrite H. simpl. apply lookup_insert_eq.
Qed.
End registry.
