(* ===== verification/Jaas.v ===== *)
(** SASL credentials of a JAAS file (config/jaas.go): the values of the
    attributes [username] and [password], found with a pattern. *)
From Stdlib Require Import ZArith Lia Strings.Byte.
From stdpp Require Import base list strings gmap.
From S2P Require Import Prelude GoLib Regexp Tls.

(** [re.FindAllStringSubmatch(s, -1)] for a pattern that matches no empty word:
    the matches from left to right, each search going on after the last match. *)
Fixpoint FindRest (r : regexp) (s : bytes) : option (caps * bytes) :=
  match exec r s [] (fun s' c => Some (c, s')) with
  | Some m => Some m
  | None => match s with [] => None | _ :: s' => FindRest r s' end
  end.
Fixpoint FindAll_loop (fuel : nat) (r : regexp) (s : bytes) : list caps :=
  match fuel with
  | O => []
  | S fuel' =>
      match FindRest r s with
      | None => []
      | Some (c, s') => c :: FindAll_loop fuel' r s'
      end
  end.
Definition FindAllSubmatch (r : regexp) (s : bytes) : list caps := FindAll_loop (S (length s)) r s.

(** [name[[:blank:]]*=[[:blank:]]*"(.*?)"] *)
Definition quote : byte := x22.
Definition blank_byte (b : byte) : bool := bool_decide (b = x20) || bool_decide (b = x09).
Definition not_newline (b : byte) : bool := negb (bool_decide (b = x0a)).
Definition blank : regexp := Class blank_byte.
Definition dot : regexp := Class not_newline.
Definition regexAttr (name : bytes) : regexp :=
  Seq (Lit name) (Seq (Star blank) (Seq (Lit ($"=")) (Seq (Star blank)
    (Seq (Lit [quote]) (Seq (Group "1" (LazyStar dot)) (Lit [quote])))))).
Definition regexUsername : regexp := regexAttr ($"username").
Definition regexPassword : regexp := regexAttr ($"password").

Record JaasCredentials := { Jaas_Username : bytes; Jaas_Password : bytes }.

Definition getJaasAttr (submatch : list caps) : res bytes :=
  match submatch with
  | [] => Err (Errorf "no entry was found")
  | [group] =>
      let attr := Regexp.submatch group "1" in
      if bool_decide (attr = []) then Err (Errorf "attribute is empty") else Ok (TrimSpace attr)
  | _ => Err (Errorf "multiple entries were found")
  end.

(** An error of [getJaasAttr] put into another one. *)
Definition named {A} (r : res A) (format : string) : res A :=
  match r with Err _ => Err (Errorf format) | _ => r end.

Definition NewJaasCredentials (s : bytes) : res JaasCredentials :=
  let? username := named (getJaasAttr (FindAllSubmatch regexUsername s)) "cannot retrieve jaas username: %s" in
  let? password := named (getJaasAttr (FindAllSubmatch regexPassword s)) "cannot retrieve jaas password: %s" in
  Ok {| Jaas_Username := username; Jaas_Password := password |}.

Definition NewJaasCredentialFromFile (ReadFile : bytes -> res bytes) (filename : bytes) : res JaasCredentials :=
  let? s := ReadFile filename in NewJaasCredentials s.
