(* ===== verification/Server.v ===== *)
(** Start-up of the proxy (cmd/kafka-proxy/server.go, proxy/filter_chain.go): the
    mappings from flags and environment, the configuration's [PreRunE], the
    plugins that [Run] loads, and the proxy it builds before it serves.

    Plugin processes, built-in plugins, files and the operating system are
    parameters; [logrus.Fatal] ends the process and is an error here.  Serving
    (the run group, signals and HTTP endpoints) is not modelled. *)
From Stdlib Require Import ZArith Lia Strings.Byte.
From stdpp Require Import base list strings gmap.
From S2P Require Import Prelude GoLib GoStrings NetAddr OAuthBearer Regexp Filters Listeners Config SaslProxy SaslLocal Auth Processor Loops ConnSet Client Tls Registry Jaas.

(** ** Logging levels *)

Inductive logrus_Level := PanicLevel | FatalLevel | ErrorLevel | WarnLevel | InfoLevel | DebugLevel | TraceLevel.
Inductive slog_Level := slog_LevelDebug | slog_LevelInfo | slog_LevelWarn | slog_LevelError.

Definition toSlogLevel (level : logrus_Level) : slog_Level :=
  match level with
  | TraceLevel => slog_LevelDebug
  | DebugLevel => slog_LevelDebug
  | InfoLevel => slog_LevelInfo
  | WarnLevel => slog_LevelWarn
  | ErrorLevel | PanicLevel => slog_LevelError
  | _ => slog_LevelInfo
  end.

(** ** Mappings *)

(** [strings.Fields]: the words between characters of [unicode.IsSpace]. *)
Fixpoint split_spaces (s : bytes) : list bytes :=
  let cons b l := match l with t :: ts => (b :: t) :: ts | [] => [[b]] end in
  match s with
  | [] => [[]]
  | b0 :: s1 =>
      if space1 b0 then [] :: split_spaces s1
      else match s1 with
      | [] => cons b0 (split_spaces s1)
      | b1 :: s2 =>
          if space2 b0 b1 then [] :: split_spaces s2
          else match s2 with
          | [] => cons b0 (split_spaces s1)
          | b2 :: s3 =>
              if space3 b0 b1 b2 then [] :: split_spaces s3 else cons b0 (split_spaces s1)
          end
      end
  end.
Definition Fields (s : bytes) : list bytes := List.filter (fun t => negb (bool_decide (t = []))) (split_spaces s).

(** The flags kept in package variables. *)
Record mappingFlags := {
  bootstrapServersMapping : list bytes;
  externalServersMapping : list bytes;
  dialAddressMappingFlag : list bytes
}.

Definition getOrEnvStringSlice (flags : mappingFlags) (value : list bytes) (env : bytes) : list bytes :=
  if negb (len (bootstrapServersMapping flags) =? 0) then value else Fields env.

(** ** [Init...] of the configuration *)

Definition set_Proxy (p : ProxyConfig) (c : Config) : Config :=
  {| Proxy := p; Local := Local c; GatewayClient := GatewayClient c; GatewayServer := GatewayServer c;
     Kafka := Kafka c; ForwardProxy := ForwardProxy c |}.
Definition set_servers (bootstrap external : list config_ListenerConfig) (dial : list DialAddressMapping)
    (p : ProxyConfig) : ProxyConfig :=
  {| DefaultListenerIP := DefaultListenerIP p; BootstrapServers := bootstrap;
     ExternalServers := external; DeterministicListeners := DeterministicListeners p;
     DialAddressMappings := dial; DisableDynamicListeners := DisableDynamicListeners p;
     DynamicAdvertisedListener := DynamicAdvertisedListener p;
     DynamicSequentialMinPort := DynamicSequentialMinPort p; DynamicSequentialMaxPorts := DynamicSequentialMaxPorts p;
     Proxy_RequestBufferSize := Proxy_RequestBufferSize p; Proxy_ResponseBufferSize := Proxy_ResponseBufferSize p;
     ListenerKeepAlive := ListenerKeepAlive p; ProxyTLS_Enable := ProxyTLS_Enable p;
     ListenerCertFile := ListenerCertFile p; ListenerKeyFile := ListenerKeyFile p;
     SNIMapping := SNIMapping p; SNIListenerAddress := SNIListenerAddress p |}.
Definition set_credentials (j : JaasCredentials) (c : Config) : Config :=
  let k := Kafka c in let s := SASL k in
  {| Proxy := Proxy c; Local := Local c; GatewayClient := GatewayClient c; GatewayServer := GatewayServer c;
     Kafka := {| Kafka_ClientID := Kafka_ClientID k; Kafka_MaxOpenRequests := Kafka_MaxOpenRequests k;
       Kafka_ForbiddenApiKeys := Kafka_ForbiddenApiKeys k; DialTimeout := DialTimeout k; WriteTimeout := WriteTimeout k;
       ReadTimeout := ReadTimeout k; KeepAlive := KeepAlive k; KafkaTLS_Enable := KafkaTLS_Enable k;
       KafkaTLS_ClientCertFile := KafkaTLS_ClientCertFile k; SameClientCertEnable := SameClientCertEnable k;
       SASL := {| SASL_Enable := SASL_Enable s; SASL_Username := Jaas_Username j; SASL_Password := Jaas_Password j;
                  JaasConfigFile := JaasConfigFile s; SASL_Method := SASL_Method s; SASL_Plugin := SASL_Plugin s;
                  GSSAPI := GSSAPI s |};
       Acks0Disabled := Acks0Disabled k |};
     ForwardProxy := ForwardProxy c |}.

(** [c.f, err = parse(mapping); return err]: an error leaves nil. *)
Definition init_servers {A} (parsed : res (list A)) (set : list A -> Config -> Config) : M Config unit :=
  match parsed with
  | Ok l => modify (set l)
  | Err e => do* modify (set []) in fail e
  | Panic w => panic w
  end.

Definition InitBootstrapServers (mapping : list bytes) : M Config unit :=
  init_servers (getListenerConfigs mapping)
    (fun l c => set_Proxy (set_servers l (ExternalServers (Proxy c)) (DialAddressMappings (Proxy c)) (Proxy c)) c).
Definition InitExternalServers (mapping : list bytes) : M Config unit :=
  init_servers (getListenerConfigs mapping)
    (fun l c => set_Proxy (set_servers (BootstrapServers (Proxy c)) l (DialAddressMappings (Proxy c)) (Proxy c)) c).
Definition InitDialAddressMappings (mapping : list bytes) : M Config unit :=
  init_servers (getDialAddressMappings mapping)
    (fun l c => set_Proxy (set_servers (BootstrapServers (Proxy c)) (ExternalServers (Proxy c)) l (Proxy c)) c).

Definition InitSASLCredentials (ReadFile : bytes -> res bytes) : M Config unit :=
  let* c := get in
  if empty (JaasConfigFile (SASL (Kafka c))) then ret tt
  else
    let* credentials := lift (NewJaasCredentialFromFile ReadFile (JaasConfigFile (SASL (Kafka c)))) in
    modify (set_credentials credentials).

(** ** [PreRunE] *)

Definition PreRunE (ReadFile : bytes -> res bytes) (Getenv : bytes -> bytes) (url_Parse : bytes -> res URL)
    (ParseIP : bytes -> bool) (flags : mappingFlags) : M Config unit :=
  do* InitSASLCredentials ReadFile in
  do* InitBootstrapServers (getOrEnvStringSlice flags (bootstrapServersMapping flags) (Getenv ($"BOOTSTRAP_SERVER_MAPPING"))) in
  do* InitExternalServers (getOrEnvStringSlice flags (externalServersMapping flags) (Getenv ($"EXTERNAL_SERVER_MAPPING"))) in
  do* InitDialAddressMappings (getOrEnvStringSlice flags (dialAddressMappingFlag flags) (Getenv ($"DIAL_ADDRESS_MAPPING"))) in
  Validate url_Parse ParseIP.

(** ** [NewFilterChain] *)

Record fileInfo := { fi_Name : bytes; IsDir : bool; Mode : Z }.

Section filters.
(** [Client] and [Dispense] of a plugin process give an object, which is a
    filter or not. *)
Context {W : Type}.
Context (ReadDir : bytes -> M W (list fileInfo)) (IsNotExist : error -> bool) (path_Join : bytes -> bytes -> bytes).
Context (dispense : bytes -> M W (option (filter W))).

(** The loop over the files: what fails to load is logged and left out. *)
Fixpoint loadFilters (pluginDir : bytes) (files : list fileInfo) : M W (list (filter W)) :=
  match files with
  | [] => ret []
  | f :: files' =>
      if IsDir f || (Z.land (Mode f) 73 =? 0) then loadFilters pluginDir files'
      else fun w =>
        match dispense (path_Join pluginDir (fi_Name f)) w with
        | (Err _, w) => loadFilters pluginDir files' w
        | (Panic why, w) => (Panic why, w)
        | (Ok None, w) => (Panic "interface conversion", w)
        | (Ok (Some flt), w) => (let* rest := loadFilters pluginDir files' in ret (flt :: rest)) w
        end
  end.

Definition NewFilterChain (pluginDir : bytes) : M W (list (filter W)) :=
  if empty pluginDir then ret []
  else fun w =>
    match ReadDir pluginDir w with
    | (Err err, w) => if IsNotExist err then (Ok [], w) else (Err err, w)
    | (Panic why, w) => (Panic why, w)
    | (Ok files, w) => loadFilters pluginDir files w
    end.
End filters.

(** ** [Run] *)

(** What the configuration has for each plugin besides [Config]'s fields, and the
    directory of the filters. *)
Record pluginArgs := { Parameters : list bytes; LogLevel : bytes }.
Record runArgs := {
  local_args : pluginArgs; sasl_args : pluginArgs; client_args : pluginArgs; server_args : pluginArgs;
  PluginDir : bytes
}.

Section run.
Context {W : Type}.
Abbreviation PA := (bytes -> bytes -> M W (bool * Z)).
Abbreviation TI := (bytes -> M W (bool * Z)).
Abbreviation TP := (M W TokenResponse).

(** A built-in component, with the factories it implements; the object a plugin
    process gives, with the interfaces it implements. *)
Record component := {
  as_PasswordAuthenticatorFactory : option (list bytes -> M W PA);
  as_TokenInfoFactory : option (list bytes -> M W TI);
  as_TokenProviderFactory : option (list bytes -> M W TP)
}.
Record pluginObject := {
  as_PasswordAuthenticator : option PA; as_TokenInfo : option TI; as_TokenProvider : option TP
}.

(** [NewPluginClient(...)], its [Client] and [Dispense(name)]. *)
Context (startPlugin : bytes -> pluginArgs -> bytes -> M W pluginObject).
Context (r : registry component).

(** [registry.GetComponent(new(F), command).(F)] *)
Definition builtin {F} (iface : bytes) (assert : component -> option F) (command : bytes) : option F :=
  GetComponent iface command r ≫= assert.

(** A plugin: built in, or else a process. *)
Definition loadPlugin {A} (factory : option (list bytes -> M W A)) (assert : pluginObject -> option A)
    (name command : bytes) (args : pluginArgs) (unsupported : string) : M W A :=
  match factory with
  | Some New => New (Parameters args)
  | None =>
      let* raw := startPlugin command args name in
      match assert raw with
      | Some a => ret a
      | None => fail (Errorf unsupported)
      end
  end.

Definition loadTokenInfo : bytes -> pluginArgs -> M W TI := fun command args =>
  loadPlugin (builtin ($"TokenInfoFactory") as_TokenInfoFactory command) as_TokenInfo
    ($"tokenInfo") command args "unsupported TokenInfo plugin type".
Definition loadTokenProvider : bytes -> pluginArgs -> M W TP := fun command args =>
  loadPlugin (builtin ($"TokenProviderFactory") as_TokenProviderFactory command) as_TokenProvider
    ($"tokenProvider") command args "unsupported TokenProvider plugin type".

Definition loadLocal (l : LocalConfig) (args : pluginArgs) : M W (option PA * option TI) :=
  if negb (Local_Enable l) then ret (None, None)
  else if bool_decide (Local_Mechanism l = $"PLAIN") then
    let* a := loadPlugin (builtin ($"PasswordAuthenticatorFactory") as_PasswordAuthenticatorFactory (Local_Command l))
                as_PasswordAuthenticator ($"passwordAuthenticator") (Local_Command l) args
                "unsupported PasswordAuthenticator plugin type" in
    ret (Some a, None)
  else if bool_decide (Local_Mechanism l = $"OAUTHBEARER") then
    let* a := loadTokenInfo (Local_Command l) args in ret (None, Some a)
  else fail (Errorf "unsupported local auth mechanism").

Definition loadSasl (p : SASLPlugin) (args : pluginArgs) : M W (option TP) :=
  if negb (Plugin_Enable p) then ret None
  else if bool_decide (Plugin_Mechanism p = $"OAUTHBEARER") then
    let* a := loadTokenProvider (Plugin_Command p) args in ret (Some a)
  else fail (Errorf "unsupported sasl auth mechanism").

Definition loadGateway {A} (load : bytes -> pluginArgs -> M W A) (g : GatewayConfig) (args : pluginArgs)
    : M W (option A) :=
  if negb (Gateway_Enable g) then ret None
  else let* a := load (Gateway_Command g) args in ret (Some a).

Definition loadPlugins (c : Config) (a : runArgs) : M W (plugins W) :=
  let* local := loadLocal (Local c) (local_args a) in
  let* sasl := loadSasl (SASL_Plugin (SASL (Kafka c))) (sasl_args a) in
  let* provider := loadGateway loadTokenProvider (GatewayClient c) (client_args a) in
  let* info := loadGateway loadTokenInfo (GatewayServer c) (server_args a) in
  ret {| localPasswordAuthenticator := fst local; localTokenAuthenticator := snd local;
         saslTokenProvider := sasl; gatewayTokenProvider := provider; gatewayTokenInfo := info |}.
End run.
Arguments component : clear implicits.
Arguments pluginObject : clear implicits.

Section proxy.
Context {X Cert : Type}.
Abbreviation W := (state X).
Context (startPlugin : bytes -> pluginArgs -> bytes -> M W (pluginObject W)) (r : registry (component W)).
Context (newTLSListenerConfig : Config -> res unit).
Context (listenFunc tlsListen : bytes -> M X Z) (renderTemplate : bytes -> Z -> res bytes).
Context (ReadDir : bytes -> M X (list fileInfo)) (IsNotExist : error -> bool) (path_Join : bytes -> bytes -> bytes).
Context (dispense : bytes -> M X (option (filter W))).
Context (newTLSClientConfig : Config -> res bool) (parseCertificate : bytes -> res Cert).
Context (NewAwsMSKIamAuth : bytes -> res (AwsMSKIamAuth W)).

(** A method of the operating system inside the listeners' state. *)
Definition on_os {A} (m : M X A) : M W A := fun s =>
  let '(a, x) := m (os s) in
  (a, set_os x s).

(** [NewListeners]: the listeners over an empty set of instances. *)
Definition NewListeners (c : Config) : M W Listeners :=
  do* lift (if ProxyTLS_Enable (Proxy c) then newTLSListenerConfig c else Ok tt) in
  let* m := lift (getBrokerToListenerConfig (BootstrapServers (Proxy c)) (ExternalServers (Proxy c))) in
  do* modify (fun s => initial_state m (os s)) in
  ret (newListeners c).

(** [Run] up to the run group; what runs is the client, over the listeners. *)
Definition Run (c : Config) (a : runArgs) : M W (Client W Cert) :=
  let* pl := loadPlugins startPlugin r c a in
  let* listeners := NewListeners c in
  do* ListenInstances listenFunc (BootstrapServers (Proxy c)) in
  do* on_os (ListenSNIInstance tlsListen c) in
  let* filterChain :=
    (if empty (PluginDir a) then ret None
     else
       let* chain := NewFilterChain (fun dir => on_os (ReadDir dir)) IsNotExist path_Join
                       (fun path => on_os (dispense path)) (PluginDir a) in
       ret (Some chain)) in
  lift (NewClient newTLSClientConfig parseCertificate NewAwsMSKIamAuth c
          (Some (GetNetAddressMapping listenFunc renderTemplate listeners)) pl filterChain).
End proxy.
