(* ===== verification/ServerTheorems.v ===== *)
(** The properties of start-up. *)
From Stdlib Require Import ZArith Lia Strings.Byte.
From stdpp Require Import base list strings gmap.
From S2P Require Import Prelude GoLib GoStrings NetAddr Net Regexp OAuthBearer Filters SaslLocal Responses Auth Processor Loops Listeners ListenerTheorems SaslProxy Config Gssapi SaslProxyTheorems ConnSet Client ClientTheorems Tls Registry Jaas Server.

Local Open Scope Z_scope.

(** ** Mappings *)

(** The bootstrap mapping decides where all three mappings come from: without
    a bootstrap flag the flags of the external and dial mappings have no effect,
    and with one the environment has none. *)
Theorem bootstrap_flag_decides ReadFile Getenv url_Parse ParseIP (flags : mappingFlags) (c : Config) :
  let run := PreRunE ReadFile in
  match bootstrapServersMapping flags with
  | [] => run Getenv url_Parse ParseIP flags c =
          run Getenv url_Parse ParseIP
            {| bootstrapServersMapping := []; externalServersMapping := []; dialAddressMappingFlag := [] |} c
  | _ => forall Getenv', run Getenv url_Parse ParseIP flags c = run Getenv' url_Parse ParseIP flags c
  end.
Proof.
  intros run. unfold run, PreRunE, getOrEnvStringSlice. destruct (bootstrapServersMapping flags) as [|b l]; [done|].
  intros Getenv'. replace (len (b :: l) =? 0) with false; [done|]. symmetry. apply Z.eqb_neq. len_lia.
Qed.

(** ** Filters *)

Section filters.
Context {W : Type}.
Context (ReadDir : bytes -> M W (list fileInfo)) (IsNotExist : error -> bool) (path_Join : bytes -> bytes -> bytes).
Context (dispense : bytes -> M W (option (filter W))).

(** What a plugin file gives, whatever the state. *)
Context (gives : bytes -> res (filter W)).
Context (dispense_gives : forall path w, exists w', dispense path w = (rmap Some (gives path), w')).

(** The filters of the files that are executable and load, in their order. *)
Definition loaded (pluginDir : bytes) (files : list fileInfo) : list (filter W) :=
  omap (fun f => if IsDir f || (Z.land (Mode f) 73 =? 0) then None
                 else match gives (path_Join pluginDir (fi_Name f)) with Ok flt => Some flt | _ => None end) files.

Lemma loadFilters_loaded pluginDir files w :
  (forall f why, f ∈ files -> gives (path_Join pluginDir (fi_Name f)) <> Panic why) ->
  exists w', loadFilters path_Join dispense pluginDir files w = (Ok (loaded pluginDir files), w').
Proof.
  revert w. induction files as [|f files IH]; intros w Hp; [by exists w|]. cbn [loadFilters].
  assert (forall w, exists w', loadFilters path_Join dispense pluginDir files w = (Ok (loaded pluginDir files), w')) as IH'
    by (intros w0; apply IH; intros g why Hg; apply Hp; by right). clear IH.
  unfold loaded. cbn [omap list_omap]. fold (loaded pluginDir files). destruct (IsDir f || _); [apply IH'|].
  destruct (dispense_gives (path_Join pluginDir (fi_Name f)) w) as [w1 ->].
  specialize (Hp f). destruct (gives _) as [flt|e|why]; cbn [rmap].
  - destruct (IH' w1) as [w2 E]. exists w2. by erewrite bind_Ok by exact E.
  - apply IH'.
  - destruct (Hp why); [left|done].
Qed.

(** The chain is made of the executable files whose plugin starts, in the
    order of the directory; one that fails to start is left out, and a directory
    that does not exist is an empty chain, so that the proxy runs without.*)
Theorem failing_filters_are_left_out (pluginDir : bytes) (w : W) :
  pluginDir <> [] ->
  (forall f why, gives f <> Panic why) ->
  let chain := NewFilterChain ReadDir IsNotExist path_Join dispense pluginDir w in
  match fst (ReadDir pluginDir w) with
  | Ok files => fst chain = Ok (loaded pluginDir files)
  | Err e => fst chain = if IsNotExist e then Ok [] else Err e
  | Panic why => fst chain = Panic why
  end.
Proof.
  intros Hne Hp chain. subst chain. unfold NewFilterChain, empty. rewrite bool_decide_eq_false_2 by done.
  destruct (ReadDir pluginDir w) as [[files|e|why] w1]; cbn [fst]; [|by destruct (IsNotExist e)|done].
  destruct (loadFilters_loaded pluginDir files w1) as [w' E]; [intros; apply Hp|]. by rewrite E.
Qed.
End filters.

(** ** Plugins *)

Section plugins.
Context {W : Type} (startPlugin : bytes -> pluginArgs -> bytes -> M W (pluginObject W)) (r : registry (component W)).

Lemma loadLocal_Ok l a w p t w' :
  loadLocal startPlugin r l a w = (Ok (p, t), w') ->
  if Local_Enable l then
    (Local_Mechanism l = $"PLAIN" /\ is_Some p /\ t = None) \/ (Local_Mechanism l = $"OAUTHBEARER" /\ p = None /\ is_Some t)
  else p = None /\ t = None.
Proof.
  unfold loadLocal. destruct (Local_Enable l); cbn [negb]; [|by intros [= <- <- _]].
  case_bool_decide as E1; [|case_bool_decide as E2; [|done]]; intros (x & w1 & _ & H)%bind_inv; injection H as <- <- _.
  - left. split; [done|]. by split; [eexists|].
  - right. split; [done|]. by split; [|eexists].
Qed.

Lemma loadSasl_Ok p a w o w' : loadSasl startPlugin r p a w = (Ok o, w') ->
  if Plugin_Enable p then Plugin_Mechanism p = $"OAUTHBEARER" /\ is_Some o else o = None.
Proof.
  unfold loadSasl. destruct (Plugin_Enable p); cbn [negb]; [|by intros [= <- _]].
  case_bool_decide as E; [|done]. intros (x & w1 & _ & H)%bind_inv. injection H as <- _. by split; [|eexists].
Qed.

Lemma loadGateway_Ok {A} (load : bytes -> pluginArgs -> M W A) g a w o w' :
  loadGateway load g a w = (Ok o, w') -> Gateway_Enable g = bool_decide (is_Some o).
Proof.
  unfold loadGateway. destruct (Gateway_Enable g); cbn [negb]; [|by intros [= <- _]].
  intros (x & w1 & _ & H)%bind_inv. by injection H as <- _.
Qed.
End plugins.

Lemma NewClient_mapping {W Cert : Type} newTLS (parse : bytes -> res Cert) NewAws c (f : option (NetAddressMappingFunc W)) pl ch cl :
  NewClient newTLS parse NewAws c f pl ch = Ok cl -> cfg_NetAddressMappingFunc (processorConfig cl) = f.
Proof. unfold NewClient. intros H. repeat (apply rbind_inv in H as (? & _ & H)). by injection H as <-. Qed.

(** The SASL methods that [NewClient] knows. *)
Definition supported_method (m : bytes) : Prop :=
  m ∈ [SASLPlain; SASLSCRAM256; SASLSCRAM512; SASLSGSSAPI; SASLIAMAAUTH].

(** A validated configuration whose plugins load makes a client: what is left
    that can fail is the TLS files, the AWS set-up, duplicate dial mappings and
    the SASL method, which [Validate] does not look at.*)
Theorem loaded_plugins_make_a_client {W Cert : Type} (url_Parse : bytes -> res URL) (ParseIP : bytes -> bool)
    (startPlugin : bytes -> pluginArgs -> bytes -> M W (pluginObject W)) (r : registry (component W))
    (newTLSClientConfig : Config -> res bool) (parseCertificate : bytes -> res Cert)
    (NewAwsMSKIamAuth : bytes -> res (AwsMSKIamAuth W)) (c0 c : Config) (a : runArgs) (w w' : W) (pl : plugins W)
    (mapping : option (NetAddressMappingFunc W)) (filterChain : option (FilterChain W)) (dial : gmap bytes DialAddressMapping) :
  Validate url_Parse ParseIP c0 = (Ok tt, c) ->
  loadPlugins startPlugin r c a w = (Ok pl, w') ->
  newTLSClientConfig c = Ok true -> (forall file, exists cert, parseCertificate file = Ok cert) ->
  (forall id, exists auth, NewAwsMSKIamAuth id = Ok auth) ->
  getAddressToDialAddressMapping c = Ok dial -> supported_method (SASL_Method (SASL (Kafka c))) ->
  exists cl, NewClient newTLSClientConfig parseCertificate NewAwsMSKIamAuth c mapping pl filterChain = Ok cl.
Proof.
  intros Hv Hl Ht Hcert Haws Hd Hm. unfold loadPlugins in Hl.
  apply bind_inv in Hl as ([p t] & w1 & H1%loadLocal_Ok & Hl). apply bind_inv in Hl as (s & w2 & H2%loadSasl_Ok & Hl).
  apply bind_inv in Hl as (tp & w3 & H3%loadGateway_Ok & Hl). apply bind_inv in Hl as (ti & w4 & H4%loadGateway_Ok & Hl).
  injection Hl as <- _. cbn [fst snd].
  destruct (newDialer_validated _ _ _ _ Hv true eq_refl) as [d Ed].
  destruct (newDialer_validated _ _ _ _ Hv (KafkaTLS_Enable (Kafka c))) as [d' Ed']; [by destruct (KafkaTLS_Enable _)|].
  unfold NewClient. assert ((if KafkaTLS_Enable (Kafka c) then newTLSClientConfig c else Ok false) = Ok (KafkaTLS_Enable (Kafka c)))
    as -> by (by destruct (KafkaTLS_Enable _)).
  cbn [rbind]. destruct (Hcert (KafkaTLS_ClientCertFile (Kafka c))) as [cert ->].
  assert (exists oc, (if KafkaTLS_Enable (Kafka c) && SameClientCertEnable (Kafka c) then rmap Some (Ok cert) else Ok None) = Ok oc)
    as [oc ->] by (destruct (_ && _); by eexists).
  cbn [rbind]. rewrite Ed'. cbn [rbind localPasswordAuthenticator localTokenAuthenticator gatewayTokenProvider gatewayTokenInfo].
  rewrite H3, H4. rewrite !refuse_run; [|apply andb_negb_r..|].
  2:{ destruct (Local_Enable _); [|done]. destruct H1 as [(_ & [? ->] & ->)|(_ & -> & [? ->])]; done. }
  cbn [rbind saslTokenProvider].
  assert (exists o, newSASLAuthByProxy NewAwsMSKIamAuth c s = Ok o) as [o ->].
  { unfold newSASLAuthByProxy. destruct (Plugin_Enable _).
    - destruct H2 as [Em [x ->]]. rewrite bool_decide_eq_true_2 by done. by eexists.
    - destruct (SASL_Enable _); [|by eexists]. destruct (Haws (Kafka_ClientID (Kafka c))) as [auth ->].
      unfold supported_method in Hm. rewrite !elem_of_cons, elem_of_nil in Hm.
      repeat case_bool_decide; cbn [orb]; try (by eexists); by intuition. }
  cbn [rbind]. rewrite Hd. by eexists.
Qed.

(** ** The running proxy *)

Section run.
Context {X Cert : Type}.
Context (startPlugin : bytes -> pluginArgs -> bytes -> M (state X) (pluginObject (state X))) (r : registry (component (state X))).
Context (newTLSListenerConfig : Config -> res unit).
Context (listenFunc tlsListen : bytes -> M X Z) (renderTemplate : bytes -> Z -> res bytes).
Context (ReadDir : bytes -> M X (list fileInfo)) (IsNotExist : error -> bool) (path_Join : bytes -> bytes -> bytes).
Context (dispense : bytes -> M X (option (filter (state X)))).
Context (newTLSClientConfig : Config -> res bool) (parseCertificate : bytes -> res Cert).
Context (NewAwsMSKIamAuth : bytes -> res (AwsMSKIamAuth (state X))).

(** Only the operating system changes. *)
Definition only_os (s s' : state X) : Prop := s' = set_os (os s') s.

#[local] Instance only_os_preorder : PreOrder only_os.
Proof.
  split.
  - intros []. reflexivity.
  - intros s1 s2 s3 H1 H2. unfold only_os in *. rewrite H2, H1. reflexivity.
Qed.

Lemma only_os_on_os {A} (m : M X A) s : only_os s (snd (on_os m s)).
Proof. unfold on_os. destruct (m (os s)). reflexivity. Qed.

Lemma only_os_loadFilters dir files s :
  only_os s (snd (loadFilters path_Join (fun path => on_os (dispense path)) dir files s)).
Proof.
  revert s. induction files as [|f files IH]; intros s; [reflexivity|]. cbn [loadFilters].
  destruct (IsDir f || _); [apply IH|].
  pose proof (only_os_on_os (dispense (path_Join dir (fi_Name f))) s) as H.
  destruct (on_os _ s) as [[[flt|]|e|why] s1]; cbn [snd] in *; try done.
  - specialize (IH s1). unfold bind. destruct (loadFilters _ _ _ _ s1) as [[] s2]; cbn [snd] in *; by etrans.
  - etrans; [exact H|apply IH].
Qed.

Lemma only_os_NewFilterChain dir s :
  only_os s (snd (NewFilterChain (fun dir => on_os (ReadDir dir)) IsNotExist path_Join (fun path => on_os (dispense path)) dir s)).
Proof.
  unfold NewFilterChain. destruct (empty dir); [reflexivity|].
  pose proof (only_os_on_os (ReadDir dir) s) as H. destruct (on_os _ s) as [[files|e|why] s1]; cbn [snd] in *; [|by destruct (IsNotExist e)|done].
  etrans; [exact H|apply only_os_loadFilters].
Qed.

(** Every server that was listened on has its accept loop. *)
Lemma ListenInstances_running boots exts m (p : Listeners) servers x s' :
  getBrokerToListenerConfig boots exts = Ok m ->
  ListenInstances listenFunc servers (initial_state m x) = (Ok tt, s') ->
  closedListeners s' = [] /\
  forall v, v ∈ servers -> exists i, i ∈ instances s' /\ configs s' !! i = Some (FromListenerConfig v).
Proof.
  intros Hm H. destruct (configured boots exts m Hm) as (_ & _ & Hk).
  assert (forall k c, m !! k = Some c -> BrokerAddress c = k /\ BrokerID c = UnknownBrokerID) as Hm'
    by (intros k c Hc; by destruct (Hk k c Hc) as (v & _ & -> & ->)).
  destruct (ListenInstances_Ok listenFunc p _ _ _ _ (consistent_initial p m x Hm') H) as [(_ & K & _) Hv].
  split; [done|]. intros v Hin. destruct (Hv v Hin) as (i & Hc & _ & [Hi|Hi]); [by exists i|].
  rewrite K in Hi. by apply not_elem_of_nil in Hi.
Qed.

Context (Accept : nat -> X -> (conn + error) * X) (Close : nat -> X -> X).

(** C29: What [Run] has built when it starts to serve: the configured servers are
    unambiguous, the state is one that the properties of the listeners are
    about, each bootstrap server has an accept loop whose connections go to its
    broker, no loop has ended, and the client rewrites addresses with these listeners' mapping. *)
Theorem Run_listens (c : Config) (a : runArgs) (s0 s : state X) (cl : Client (state X) Cert) :
  Run startPlugin r newTLSListenerConfig listenFunc tlsListen renderTemplate ReadDir IsNotExist path_Join dispense
    newTLSClientConfig parseCertificate NewAwsMSKIamAuth c a s0 = (Ok cl, s) ->
  exists m, getBrokerToListenerConfig (BootstrapServers (Proxy c)) (ExternalServers (Proxy c)) = Ok m /\
    reached listenFunc renderTemplate (newListeners c) Accept Close m (BootstrapServers (Proxy c)) s /\
    closedListeners s = [] /\
    (forall v, v ∈ BootstrapServers (Proxy c) ->
       exists i, i ∈ instances s /\ configs s !! i = Some (FromListenerConfig v) /\
         forall conn x, Accept i (os s) = (inl conn, x) ->
           acceptTurn Accept Close i s = (Ok (Some (cfg_BrokerAddress v, conn)), set_os x s)) /\
    cfg_NetAddressMappingFunc (processorConfig cl) =
      Some (GetNetAddressMapping listenFunc renderTemplate (newListeners c)).
Proof.
  unfold Run. intros H. apply bind_inv in H as (pl & s1 & _ & H). apply bind_inv in H as (p & s2 & H2 & H).
  unfold NewListeners in H2. apply lift_bind_inv in H2 as ([] & _ & H2). apply lift_bind_inv in H2 as (m & Hm & H2).
  erewrite bind_Ok in H2 by reflexivity. injection H2 as <- <-. exists m. split; [done|].
  apply bind_inv in H as ([] & s3 & H3 & H). apply bind_inv in H as (sni & s4 & H4 & H).
  apply bind_inv in H as (chain & s5 & H5 & H). unfold lift in H. injection H as H <-.
  assert (only_os s3 s5) as Hos.
  { etrans; [pose proof (only_os_on_os (ListenSNIInstance tlsListen c) s3) as Ho; rewrite H4 in Ho; exact Ho|]. cbn [snd].
    destruct (empty (PluginDir a)); [by injection H5 as _ <-|].
    apply bind_inv in H5 as (ch & s6 & H6 & H5). injection H5 as _ <-.
    pose proof (only_os_NewFilterChain (PluginDir a) s4) as Ho. rewrite H6 in Ho. exact Ho. }
  destruct (ListenInstances_running _ _ m (newListeners c) _ _ _ Hm H3) as [Hcl Hv]. rewrite Hos. split_and!.
  - apply reached_os. by eapply reached_start.
  - exact Hcl.
  - intros v Hin. destruct (Hv v Hin) as (i & Hi & Hc). exists i. split; [exact Hi|]. split; [exact Hc|].
    intros conn x Ha. pose proof (acceptTurn_spec Accept Close i (set_os (os s5) s3) _ Hc) as HT. by rewrite Ha in HT.
  - by apply NewClient_mapping in H.
Qed.
End run.

(** ** Witnesses *)

(** Two executables, of which one starts. *)
Definition toy_filter : filter nat := {| OnRequest := fun _ _ b => ret b; OnResponse := fun _ _ b => ret b |}.
Definition toy_dir : bytes -> M nat (list fileInfo) := fun _ => ret
  [{| fi_Name := $"README"; IsDir := false; Mode := 420 |}; {| fi_Name := $"encrypt"; IsDir := false; Mode := 493 |};
   {| fi_Name := $"other"; IsDir := false; Mode := 493 |}].
Definition toy_gives (path : bytes) : res (filter nat) :=
  if bool_decide (path = $"encrypt") then Err (Errorf "Unrecognized remote plugin message") else Ok toy_filter.

Lemma failing_filters_are_left_out_witness :
  fst (NewFilterChain toy_dir (fun _ => false) (fun _ f => f) (fun path w => (rmap Some (toy_gives path), w)) ($"/plugins") 0%nat)
  = Ok [toy_filter].
Proof.
  refine (failing_filters_are_left_out toy_dir (fun _ => false) (fun _ f => f)
            (fun path w => (rmap Some (toy_gives path), w)) toy_gives _ ($"/plugins") 0%nat _ _).
  - intros path w. by exists w.
  - discriminate.
  - intros f why. unfold toy_gives. by case_bool_decide.
Defined.

Definition toy_run : runArgs :=
  let a := {| Parameters := []; LogLevel := [] |} in
  {| local_args := a; sasl_args := a; client_args := a; server_args := a; PluginDir := [] |}.

Lemma loaded_plugins_make_a_client_witness :
  exists cl, NewClient (fun _ => Ok true) (fun _ => Ok tt) (fun _ => Ok {| a_clientID := []; SASLToken := fun _ => ret [] |})
               plain_config None no_plugins None = Ok cl.
Proof.
  eapply (loaded_plugins_make_a_client example_Parse example_ParseIP
            (fun _ _ _ => fail (Errorf "no plugin")) (∅ : registry (component nat))
            (fun _ => Ok true) (fun _ => Ok tt) _ plain_config plain_config toy_run 0%nat 0%nat).
  - vm_compute. reflexivity.
  - reflexivity.
  - reflexivity.
  - intros. by eexists.
  - intros. by eexists.
  - reflexivity.
  - left.
Defined.

(** One bootstrap server, and no plugins. *)
Definition toy_start : res (Client (state nat) unit) * state nat :=
  Run (Cert := unit) (fun _ _ _ => fail (Errorf "no plugin")) (∅ : registry (component (state nat))) (fun _ => Ok tt)
    (fun _ n => (Ok 9092, S n)) (fun _ => ret 443) (fun _ _ => Ok []) (fun _ => ret []) (fun _ => false) (fun _ f => f)
    (fun _ => ret None) (fun _ => Ok true) (fun _ => Ok tt) (fun _ => Err (Errorf "no AWS configuration"))
    plain_config toy_run (initial_state ∅ 0%nat).

Lemma Run_listens_witness :
  exists i, i ∈ instances (snd toy_start) /\
    acceptTurn (fun _ n => (inl quiet, n)) (fun _ n => n) i (snd toy_start) =
      (Ok (Some (default [] (cfg_BrokerAddress <$> head (BootstrapServers (Proxy plain_config))), quiet)),
       set_os (os (snd toy_start)) (snd toy_start)).
Proof.
  assert (match fst toy_start with Ok _ => true | _ => false end = true) as Hok by (vm_compute; reflexivity).
  destruct toy_start as [[cl|e|w] s] eqn:E; [|discriminate Hok..]. clear Hok.
  destruct (Run_listens (fun _ _ _ => fail (Errorf "no plugin")) (∅ : registry (component (state nat))) (fun _ => Ok tt)
              (fun _ n => (Ok 9092, S n)) (fun _ => ret 443) (fun _ _ => Ok []) (fun _ => ret []) (fun _ => false) (fun _ f => f)
              (fun _ => ret None) (fun _ => Ok true) (fun _ => Ok tt) (fun _ => Err (Errorf "no AWS configuration"))
              (fun _ n => (inl quiet, n)) (fun _ n => n)
              plain_config toy_run (initial_state ∅ 0%nat) s cl E) as (m & _ & _ & _ & H & _).
  destruct (BootstrapServers (Proxy plain_config)) as [|v l] eqn:Ev; [discriminate|].
  destruct (H v) as (i & Hi & _ & HT); [left|]. exists i. split; [exact Hi|]. by apply HT.
Defined.
