(* ===== verification/Dial.v ===== *)
(** The dialers of broker connections (proxy/dial.go): directly, through a SOCKS5
    or an HTTP proxy, and TLS on top; what becomes of the sockets they open.

    Sockets, TLS handshakes and the SOCKS5 library are parameters, and so are
    the texts of HTTP requests and responses. *)
From Stdlib Require Import ZArith Lia Strings.Byte.
From stdpp Require Import base list strings gmap.
From S2P Require Import Prelude GoLib GoStrings NetAddr Base64 Net SaslProxy Loops Config ConnSet Client.

(** The result of a dial, the socket it opened as it was left, the world. *)
Definition dialed (X : Type) : Type := X -> res conn * option conn * X.

Section dial.
Context {X : Type}.

(** [net.Dialer.Dial] with a timeout and a keep-alive period. *)
Context (net_Dial : Z -> Z -> bytes -> M X conn).
(** [proxy.SOCKS5(network, proxyAddr, auth, forward)] and its [Dial]. *)
Context (SOCKS5_Dial : bytes -> option (bytes * bytes) -> (bytes -> dialed X) -> bytes -> dialed X).
(** [d.configFunc()], nil or a configuration with its [ServerName]; the
    handshake of a client for a server name; the timer of a handshake, which
    fires before it ends or not. *)
Context (configFunc : X -> option bytes) (tls_Handshake : bytes -> M conn unit) (timer_fires : bytes -> X -> bool).
(** [url.Parse], the text of a [CONNECT] request with a [Proxy-Authorization]
    header, and [http.ReadResponse] over a buffered reader: a status code. *)
Context (url_Parse : bytes -> res bytes) (http_Request : bytes -> option bytes -> bytes) (http_ReadResponse : M conn Z).

(** [if err != nil { conn.Close(); return nil, err }] *)
Definition finish {A} (r : res A * conn) (x : X) : res conn * option conn * X :=
  match r with
  | (Ok _, c) => (Ok c, Some c, x)
  | (Err e, c) => (Err e, Some (closed c), x)
  | (Panic w, c) => (Panic w, Some c, x)
  end.

Definition direct_Dial (dialTimeout keepAlive : Z) (addr : bytes) : dialed X := fun x =>
  match net_Dial dialTimeout keepAlive addr x with
  | (Ok conn, x) => finish (SetDeadline conn) x
  | (Err e, x) => (Err e, None, x)
  | (Panic w, x) => (Panic w, None, x)
  end.

Definition socks5_Dial (direct : bytes -> dialed X) (proxyAddr username password addr : bytes) : dialed X := fun x =>
  if bool_decide (proxyAddr = []) then (Err (Errorf "socks5 proxy network and addr must be not empty"), None, x)
  else
    let auth := if negb (bool_decide (username = [])) && negb (bool_decide (password = []))
                then Some (username, password) else None in
    SOCKS5_Dial proxyAddr auth direct addr x.

(** The host of an address: what precedes the last colon. *)
Definition hostname (addr : bytes) : bytes := take (default (length addr) (LastIndexByte addr colon)) addr.

Definition tls_Dial (timeout : Z) (raw : bytes -> dialed X) (addr : bytes) : dialed X := fun x =>
  match configFunc x with
  | None => (Err (Errorf "tlsConfig must not be nil"), None, x)
  | Some ServerName =>
      match raw addr x with
      | (Ok rawConn, s, x) =>
          let serverName := if bool_decide (ServerName = []) then hostname addr else ServerName in
          if negb (timeout =? 0) && timer_fires addr x
          then (Err (Errorf "Handshake timeout to %s after %v"), Some (closed rawConn), x)
          else finish (tls_Handshake serverName rawConn) x
      | r => r
      end
  end.

(** ["Basic " + base64.StdEncoding.EncodeToString(...)] *)
Definition basicAuth (username password : bytes) : bytes :=
  $"Basic " ++ EncodeToString (username ++ $":" ++ password).

Definition http_Dial (forward : bytes -> dialed X) (hostPort username password addr : bytes) : dialed X := fun x =>
  match url_Parse ($"http://" ++ addr) with
  | Err e => (Err e, None, x)
  | Panic w => (Panic w, None, x)
  | Ok reqURL =>
      let basic := if negb (bool_decide (username = [])) && negb (bool_decide (password = []))
                   then Some (basicAuth username password) else None in
      match forward hostPort x with
      | (Ok c, s, x) =>
          finish ((do* Write (http_Request reqURL basic) in
                   let* StatusCode := http_ReadResponse in
                   if negb (StatusCode =? 200)
                   then fail (Errorf "connect server using proxy error, statuscode [%d]") else ret tt) c) x
      | r => r
      end
  end.

Fixpoint Dialer_Dial (d : Dialer) (addr : bytes) : dialed X :=
  match d with
  | directDialer dialTimeout keepAlive => direct_Dial dialTimeout keepAlive addr
  | socks5Dialer direct proxyAddr username password => socks5_Dial (Dialer_Dial direct) proxyAddr username password addr
  | httpProxy forwardDialer hostPort username password => http_Dial (Dialer_Dial forwardDialer) hostPort username password addr
  | tlsDialer timeout rawDialer => tls_Dial timeout (Dialer_Dial rawDialer) addr
  end.

(** The result alone, which is what [DialAndAuth] uses. *)
Definition Dial (d : Dialer) (addr : bytes) : M X conn := fun x =>
  let '(r, _, x) := Dialer_Dial d addr x in (r, x).

(** ** Sockets *)

(** A dial that succeeds hands over the socket it opened, and one that fails
    leaves none open. *)
Definition tidy (m : dialed X) : Prop := forall x,
  match m x with
  | (Ok c, s, _) => s = Some c
  | (Err _, s, _) => forall c, s = Some c -> exists c0, c = closed c0
  | (Panic _, _, _) => True
  end.

(** What is relied on of the SOCKS5 library. *)
Context (SOCKS5_tidy : forall proxyAddr auth forward addr,
  (forall a, tidy (forward a)) -> tidy (SOCKS5_Dial proxyAddr auth forward addr)).

Lemma finish_tidy {A} (r : res A * conn) x :
  match finish r x with
  | (Ok c, s, _) => s = Some c
  | (Err _, s, _) => forall c, s = Some c -> exists c0, c = closed c0
  | (Panic _, _, _) => True
  end.
Proof. destruct r as [[a|e|w] c]; cbn; [done| |done]. intros c' [= <-]. by exists c. Qed.

Lemma direct_tidy t k addr : tidy (direct_Dial t k addr).
Proof. intros x. unfold direct_Dial. destruct (net_Dial _ _ _ x) as [[c|e|w] x1]; [apply finish_tidy|done..]. Qed.

Lemma socks5_tidy direct proxyAddr u p addr : (forall a, tidy (direct a)) -> tidy (socks5_Dial direct proxyAddr u p addr).
Proof. intros H x. unfold socks5_Dial. case_bool_decide; [done|]. by apply SOCKS5_tidy. Qed.

Lemma tls_tidy timeout raw addr : (forall a, tidy (raw a)) -> tidy (tls_Dial timeout raw addr).
Proof.
  intros H x. unfold tls_Dial. destruct (configFunc x) as [n|]; [|done]. specialize (H addr x).
  destruct (raw addr x) as [[[c|e|w] s] x1]; [|done..]. destruct (_ && _); [|apply finish_tidy].
  intros c' [= <-]. by exists c.
Qed.

Lemma http_tidy forward hostPort u p addr : (forall a, tidy (forward a)) -> tidy (http_Dial forward hostPort u p addr).
Proof.
  intros H x. unfold http_Dial. destruct (url_Parse _) as [url|e|w]; [|done..]. specialize (H hostPort x).
  destruct (forward hostPort x) as [[[c|e|w] s] x1]; [apply finish_tidy|done..].
Qed.

Lemma Dialer_tidy d addr : tidy (Dialer_Dial d addr).
Proof.
  revert addr. induction d; intros addr; cbn [Dialer_Dial];
    [apply direct_tidy|by apply socks5_tidy|by apply http_tidy|by apply tls_tidy].
Qed.
End dial.
