(* ===== verification/DialTheorems.v ===== *)
(** Dialing brokers with the proxy's dialers. *)
From Stdlib Require Import ZArith Lia Strings.Byte.
From stdpp Require Import base list strings gmap.
From S2P Require Import Prelude GoLib GoStrings NetAddr Net Filters SaslLocal Responses Auth Processor Loops Listeners SaslProxy Config Gssapi SaslProxyTheorems ConnSet Client ClientTheorems Base64 Dial.

Local Open Scope Z_scope.

(** The server name of a TLS dial is the host of the address, in brackets if it
    has a colon. *)
Lemma hostname_JoinHostPort host port : colon ∉ port ->
  hostname (JoinHostPort host port) =
  match IndexByte host colon with Some _ => [lbracket] ++ host ++ [rbracket] | None => host end.
Proof.
  intros Hp. unfold hostname, JoinHostPort. destruct (IndexByte host colon) as [i|].
  - replace ([lbracket] ++ host ++ [rbracket; colon] ++ port) with (([lbracket] ++ host ++ [rbracket]) ++ colon :: port)
      by (by rewrite <- !app_assoc).
    rewrite LastIndexByte_app by done. cbn [from_option id]. by rewrite take_app_length.
  - change (host ++ [colon] ++ port) with (host ++ colon :: port).
    rewrite LastIndexByte_app by done. cbn [from_option id]. by rewrite take_app_length.
Qed.

Section dial.
Context {X Cert KrbClient Ticket Key WrapToken Conversation : Type}.
Context (krb : gokrb5 X KrbClient Ticket Key WrapToken).
Context (New256 New512 : bytes -> bytes -> res Conversation).
Context (Step : Conversation -> bytes -> res bytes * Conversation) (Done : Conversation -> bool).
Context (net_Dial : Z -> Z -> bytes -> M X conn).
Context (SOCKS5_Dial : bytes -> option (bytes * bytes) -> (bytes -> dialed X) -> bytes -> dialed X).
Context (configFunc : X -> option bytes) (tls_Handshake : bytes -> M conn unit) (timer_fires : bytes -> X -> bool).
Context (url_Parse : bytes -> res bytes) (http_Request : bytes -> option bytes -> bytes) (http_ReadResponse : M conn Z).
Local Notation dials := (Dialer_Dial net_Dial SOCKS5_Dial configFunc tls_Handshake timer_fires url_Parse http_Request http_ReadResponse).
Local Notation dial := (Dial net_Dial SOCKS5_Dial configFunc tls_Handshake timer_fires url_Parse http_Request http_ReadResponse).

Lemma DialAndAuth_undialed (cl : Client X Cert) addr o r o' :
  DialAndAuth krb New256 New512 Step Done dial cl addr o = (r, None, o') ->
  exists r', fst (fst (dials (dialer cl) addr (lib o))) = r' /\ match r' with Ok _ => False | Err e => r = Err e | Panic w => r = Panic w end.
Proof.
  unfold DialAndAuth, Dial. destruct (dials (dialer cl) addr (lib o)) as [[[c|e|w] s] x]; cbn [fst].
  - destruct (bind _ _ _) as [[[]|e|w] [c1 o1]]; done.
  - intros [= <- _]. by eexists.
  - intros [= <- _]. by eexists.
Qed.

(** C18: A broker connection that is handed out is the one the dialer opened, as
    the gateway handshake and then the SASL exchange left it, each if it is
    enabled, when they succeeded on it: the gateway token was written behind
    the magic number and the method, and the PLAIN client wrote its handshake
    and its credentials and read a handshake reply without an error and an
    answer.  Every error, of a dialer (the socket, a proxy in between, the TLS
    handshake and its timer) or of an exchange, leaves closed what was opened
    on the way. *)
Theorem broker_dials_authenticate_or_close (cl : Client X Cert) (brokerAddress : bytes) (o o' : outside X)
    (r : res conn) (dialed : option conn) :
  (forall proxyAddr auth forward addr, (forall a, tidy (forward a)) -> tidy (SOCKS5_Dial proxyAddr auth forward addr)) ->
  DialAndAuth krb New256 New512 Step Done dial cl brokerAddress o = (r, dialed, o') ->
  (forall c, r = Ok c ->
     dialed = Some c /\
     exists c0 x, dials (dialer cl) brokerAddress (lib o) = (Ok c0, Some c0, x) /\
       authenticated krb New256 New512 Step Done cl brokerAddress
         (c0, {| scramCorrelationID := scramCorrelationID o; lib := x |}) (c, o')) /\
  (forall e c, r = Err e ->
     (dialed = Some c \/ dialed = None /\ snd (fst (dials (dialer cl) brokerAddress (lib o))) = Some c) ->
     exists c0, c = closed c0).
Proof.
  intros Hs H. destruct (DialAndAuth_spec krb New256 New512 Step Done dial cl _ _ _ _ _ H) as [H1 H2].
  pose proof (Dialer_tidy net_Dial SOCKS5_Dial configFunc tls_Handshake timer_fires url_Parse http_Request http_ReadResponse
                Hs (dialer cl) brokerAddress (lib o)) as Ht.
  split.
  - intros c Hr. destruct (H1 c Hr) as (Hd & c0 & x & E & Ha). split; [done|]. exists c0, x. split; [|done].
    unfold Dial in E. destruct (dials (dialer cl) brokerAddress (lib o)) as [[r' s] x']. injection E as -> ->. by rewrite Ht.
  - intros e c -> [Hd|[-> Hd]]; [by eapply H2|].
    destruct (DialAndAuth_undialed _ _ _ _ _ H) as (r' & Er & Hr).
    destruct (dials (dialer cl) brokerAddress (lib o)) as [[[c'|e'|w'] s] x]; cbn [fst snd] in *; subst r'; [done| |done].
    by apply Ht.
Qed.
End dial.

(** ** Witness *)

(** PLAIN to the broker of [plain_client], over a direct connection; no SOCKS5. *)
Definition no_SOCKS5 : bytes -> option (bytes * bytes) -> (bytes -> dialed nat) -> bytes -> dialed nat :=
  fun _ _ _ _ x => (Err (Errorf "no proxy"), None, x).
Definition plain_net (t k : Z) (addr : bytes) : M nat conn := plain_dial (directDialer t k) addr.

Lemma broker_dials_authenticate_or_close_witness :
  exists c0 c o' x,
    Dialer_Dial plain_net no_SOCKS5 (fun _ => None) (fun _ => ret tt) (fun _ _ => false) (fun u => Ok u) (fun u _ => u)
      (ret 200) (dialer plain_client) ($"10.0.0.1:9092") O = (Ok c0, Some c0, x) /\
    authenticated toy_krb toy_New toy_New toy_Step toy_Done plain_client ($"10.0.0.1:9092")
      (c0, {| scramCorrelationID := 0; lib := x |}) (c, o').
Proof.
  pose (dial := Dial plain_net no_SOCKS5 (fun _ => None) (fun _ => ret tt) (fun _ _ => false) (fun u => Ok u) (fun u _ => u) (ret 200)).
  pose (run := DialAndAuth toy_krb toy_New toy_New toy_Step toy_Done dial plain_client ($"10.0.0.1:9092") nothing_outside).
  assert (match fst (fst run) with Ok _ => true | _ => false end = true) as Hok by (vm_compute; reflexivity).
  destruct run as [[[c|e|w] d] o'] eqn:E; [|discriminate Hok..].
  destruct (broker_dials_authenticate_or_close toy_krb toy_New toy_New toy_Step toy_Done plain_net no_SOCKS5 (fun _ => None)
              (fun _ => ret tt) (fun _ _ => false) (fun u => Ok u) (fun u _ => u) (ret 200) plain_client ($"10.0.0.1:9092")
              nothing_outside o' (Ok c) d) as [H _].
  - done.
  - exact E.
  - destruct (H c eq_refl) as (_ & c0 & x & Hd & Ha). exists c0, c, o', x. split; [exact Hd|exact Ha].
Defined.
