(* ===== verification/JaasTheorems.v ===== *)
(** JAAS files: the patterns work line by line, and which credentials a file
    has. *)
From Stdlib Require Import ZArith Lia Strings.Byte.
From stdpp Require Import base list strings gmap.
From S2P Require Import Prelude GoLib GoStrings Regexp OAuthBearer OAuthFacts Tls Jaas.


(** ** Patterns that stay on a line *)










(** ** The words of the pattern *)







(** ** Lines *)












(** ** Files *)







