(* ===== verification/Stubs.v ===== *)
(** The two sides of a plugin process (plugin/local-auth, plugin/token-info,
    plugin/token-provider, pkg/filter): the servers that call an
    implementation, over gRPC and over net/rpc, and the clients that the proxy
    uses in its place.

    What carries a call, with the process behind it, is a parameter: the class
    [Transport], with the one law that the clients rely on. *)
From Stdlib Require Import ZArith Lia Strings.Byte.
From stdpp Require Import base list strings gmap.
From S2P Require Import Prelude GoLib GoStrings Net Filters SaslLocal Auth SaslFacts SaslTheorems Listeners Client Registry Server.

(** ** Transports *)

(** [call method request]: the method of the server run on a request.  A method
    that returns an error, or a process that ends, is an error of the call. *)
Class Transport (X : Type) := {
  call : forall Req Resp, (Req -> M X Resp) -> Req -> M X Resp;
  call_spec : forall Req Resp (method : Req -> M X Resp) req s,
    (exists resp s', method req s = (Ok resp, s') /\ call Req Resp method req s = (Ok resp, s')) \/
    (exists e s', call Req Resp method req s = (Err e, s'))
}.
Arguments call {X _ Req Resp}.

(** [resp, err := f()], with a nil pointer for a response that is not set. *)
Definition results {S A} (m : M S A) : M S (option A * option error) := fun s =>
  match m s with
  | (Ok a, s') => (Ok (Some a, None), s')
  | (Err e, s') => (Ok (None, Some e), s')
  | (Panic w, s') => (Panic w, s')
  end.
(** [return a, err] *)
Definition returns {S A} (a : A) (err : option error) : M S A :=
  match err with None => ret a | Some e => fail e end.

(** [p.F] through a pointer *)
Definition deref {S A} (p : option A) : M S A :=
  match p with Some a => ret a | None => panic "invalid memory address or nil pointer dereference" end.

(** ** Interface values

    net/rpc carries maps of interface values. *)
Inductive interface := VBool (b : bool) | VInt32 (z : Z) | VString (s : bytes) | VStrings (l : list bytes).
Abbreviation rpcMap := (gmap bytes interface).

(** [v.(bool)] and the like; a missing key is a nil interface. *)
Definition as_bool {S} (v : option interface) : M S bool :=
  match v with Some (VBool b) => ret b | _ => panic "interface conversion" end.
Definition as_int32 {S} (v : option interface) : M S Z :=
  match v with Some (VInt32 z) => ret z | _ => panic "interface conversion" end.
Definition as_string {S} (v : option interface) : M S bytes :=
  match v with Some (VString s) => ret s | _ => panic "interface conversion" end.
Definition as_strings {S} (v : option interface) : M S (list bytes) :=
  match v with Some (VStrings l) => ret l | _ => panic "interface conversion" end.

(** [pkg/apis] *)
Record VerifyRequest := { vreq_Token : bytes; vreq_Params : list bytes }.
Record VerifyResponse := { vresp_Success : bool; vresp_Status : Z }.
Record TokenRequest := { treq_Params : list bytes }.
(** The messages of auth.proto *)
Record CredentialsRequest := { creq_Username : bytes; creq_Password : bytes }.
Record AuthenticateResponse := { aresp_Authenticated : bool; aresp_Status : Z }.

Section stubs.
Context {X : Type} `{Transport X}.

Abbreviation PasswordAuthenticator := (bytes -> bytes -> M X (bool * Z)).
Abbreviation TokenInfo := (VerifyRequest -> M X VerifyResponse).
Abbreviation TokenProvider := (TokenRequest -> M X TokenResponse).

(** ** gRPC *)

(** The generated clients: nil with an error. *)
Definition passwordAuthenticatorClient_Authenticate (server : CredentialsRequest -> M X AuthenticateResponse)
    (req : CredentialsRequest) : M X (option AuthenticateResponse * option error) :=
  results (call server req).
Definition tokenInfoClient_VerifyToken (server : VerifyRequest -> M X VerifyResponse)
    (req : VerifyRequest) : M X (option VerifyResponse * option error) :=
  results (call server req).
Definition tokenProviderClient_GetToken (server : TokenRequest -> M X TokenResponse)
    (req : TokenRequest) : M X (option TokenResponse * option error) :=
  results (call server req).

Definition GRPCServer_Authenticate (Impl : PasswordAuthenticator) (req : CredentialsRequest) : M X AuthenticateResponse :=
  let* r := Impl (creq_Username req) (creq_Password req) in
  let '(a, s) := r in
  ret {| aresp_Authenticated := a; aresp_Status := s |}.
Definition GRPCClient_Authenticate (Impl : PasswordAuthenticator) : PasswordAuthenticator := fun username password =>
  let* r := passwordAuthenticatorClient_Authenticate (GRPCServer_Authenticate Impl)
              {| creq_Username := username; creq_Password := password |} in
  let '(resp, err) := r in
  match err with
  | Some e => fail e
  | None => let* p := deref resp in ret (aresp_Authenticated p, aresp_Status p)
  end.

Definition GRPCServer_VerifyToken (Impl : TokenInfo) (req : VerifyRequest) : M X VerifyResponse :=
  let* resp := Impl {| vreq_Token := vreq_Token req; vreq_Params := vreq_Params req |} in
  ret {| vresp_Success := vresp_Success resp; vresp_Status := vresp_Status resp |}.
Definition GRPCClient_VerifyToken (Impl : TokenInfo) : TokenInfo := fun request =>
  let* r := tokenInfoClient_VerifyToken (GRPCServer_VerifyToken Impl)
              {| vreq_Token := vreq_Token request; vreq_Params := vreq_Params request |} in
  let '(resp, err) := r in
  let* p := deref resp in
  returns {| vresp_Success := vresp_Success p; vresp_Status := vresp_Status p |} err.

Definition GRPCServer_GetToken (Impl : TokenProvider) (req : TokenRequest) : M X TokenResponse :=
  let* resp := Impl {| treq_Params := treq_Params req |} in
  ret {| Success := Success resp; Status := Status resp; Token := Token resp |}.
Definition GRPCClient_GetToken (Impl : TokenProvider) : TokenProvider := fun request =>
  let* r := tokenProviderClient_GetToken (GRPCServer_GetToken Impl) {| treq_Params := treq_Params request |} in
  let '(resp, err) := r in
  let* p := deref resp in
  returns {| Success := Success p; Status := Status p; Token := Token p |} err.

(** ** net/rpc *)

Definition RPCServer_Authenticate (Impl : PasswordAuthenticator) (args : rpcMap) : M X rpcMap :=
  let* username := as_string (args !! $"username") in
  let* password := as_string (args !! $"password") in
  let* r := Impl username password in
  let '(a, s) := r in
  ret (<[$"authenticated" := VBool a]> (<[$"status" := VInt32 s]> ∅)).
Definition RPCClient_Authenticate (Impl : PasswordAuthenticator) : PasswordAuthenticator := fun username password =>
  let* r := results (call (RPCServer_Authenticate Impl)
              (<[$"username" := VString username]> (<[$"password" := VString password]> ∅))) in
  let '(resp, err) := r in
  let resp := default ∅ resp in
  let* authenticated := as_bool (resp !! $"authenticated") in
  let* status := as_int32 (resp !! $"status") in
  returns (authenticated, status) err.

Definition RPCServer_VerifyToken (Impl : TokenInfo) (args : rpcMap) : M X rpcMap :=
  let* token := as_string (args !! $"token") in
  let* params := as_strings (args !! $"params") in
  let* r := Impl {| vreq_Token := token; vreq_Params := params |} in
  ret (<[$"success" := VBool (vresp_Success r)]> (<[$"status" := VInt32 (vresp_Status r)]> ∅)).
Definition RPCClient_VerifyToken (Impl : TokenInfo) : TokenInfo := fun request =>
  let* r := results (call (RPCServer_VerifyToken Impl)
              (<[$"token" := VString (vreq_Token request)]> (<[$"params" := VStrings (vreq_Params request)]> ∅))) in
  let '(resp, err) := r in
  let resp := default ∅ resp in
  let* success := as_bool (resp !! $"success") in
  let* status := as_int32 (resp !! $"status") in
  returns {| vresp_Success := success; vresp_Status := status |} err.

Definition RPCServer_GetToken (Impl : TokenProvider) (args : rpcMap) : M X rpcMap :=
  let* params := as_strings (args !! $"params") in
  let* r := Impl {| treq_Params := params |} in
  ret (<[$"success" := VBool (Success r)]>
        (<[$"status" := VInt32 (Status r)]> (<[$"token" := VString (Token r)]> ∅))).
Definition RPCClient_GetToken (Impl : TokenProvider) : TokenProvider := fun request =>
  let* r := results (call (RPCServer_GetToken Impl) (<[$"params" := VStrings (treq_Params request)]> ∅)) in
  let '(resp, err) := r in
  let resp := default ∅ resp in
  let* success := as_bool (resp !! $"success") in
  let* status := as_int32 (resp !! $"status") in
  let* token := as_string (resp !! $"token") in
  returns {| Success := success; Status := status; Token := token |} err.

(** ** Filters *)

(** [RequestArgs] and [ResponseArgs] *)
Record filterArgs := { ApiKey : Z; ApiVersion : Z; Body : bytes }.

Definition FilterRPCServer_OnRequest (Impl : filter X) (args : filterArgs) : M X bytes :=
  OnRequest Impl (ApiKey args) (ApiVersion args) (Body args).
Definition FilterRPCServer_OnResponse (Impl : filter X) (args : filterArgs) : M X bytes :=
  OnResponse Impl (ApiKey args) (ApiVersion args) (Body args).
Definition FilterRPCClient_OnRequest (Impl : filter X) (apiKey apiVersion : Z) (body : bytes) : M X bytes :=
  let* r := results (call (FilterRPCServer_OnRequest Impl) {| ApiKey := apiKey; ApiVersion := apiVersion; Body := body |}) in
  let '(resp, err) := r in returns (default [] resp) err.
Definition FilterRPCClient_OnResponse (Impl : filter X) (apiKey apiVersion : Z) (body : bytes) : M X bytes :=
  let* r := results (call (FilterRPCServer_OnResponse Impl) {| ApiKey := apiKey; ApiVersion := apiVersion; Body := body |}) in
  let '(resp, err) := r in returns (default [] resp) err.
Definition FilterPlugin_Client (Impl : filter X) : filter X :=
  {| OnRequest := FilterRPCClient_OnRequest Impl; OnResponse := FilterRPCClient_OnResponse Impl |}.

(** ** The objects of [Client] and [GRPCClient]

    The proxy calls the token plugins without parameters.  The net/rpc client of
    a token provider lacks the context among the arguments of [GetToken], so it
    does not implement [apis.TokenProvider]. *)
Definition without_params (Impl : TokenInfo) (token : bytes) : M X (bool * Z) :=
  let* r := Impl {| vreq_Token := token; vreq_Params := [] |} in ret (vresp_Success r, vresp_Status r).

Definition PasswordAuthenticatorPlugin_Client (Impl : PasswordAuthenticator) : pluginObject X :=
  {| as_PasswordAuthenticator := Some (RPCClient_Authenticate Impl); as_TokenInfo := None; as_TokenProvider := None |}.
Definition PasswordAuthenticatorPlugin_GRPCClient (Impl : PasswordAuthenticator) : pluginObject X :=
  {| as_PasswordAuthenticator := Some (GRPCClient_Authenticate Impl); as_TokenInfo := None; as_TokenProvider := None |}.
Definition TokenInfoPlugin_Client (Impl : TokenInfo) : pluginObject X :=
  {| as_PasswordAuthenticator := None; as_TokenInfo := Some (without_params (RPCClient_VerifyToken Impl));
     as_TokenProvider := None |}.
Definition TokenInfoPlugin_GRPCClient (Impl : TokenInfo) : pluginObject X :=
  {| as_PasswordAuthenticator := None; as_TokenInfo := Some (without_params (GRPCClient_VerifyToken Impl));
     as_TokenProvider := None |}.
Definition TokenProviderPlugin_Client (Impl : TokenProvider) : pluginObject X :=
  {| as_PasswordAuthenticator := None; as_TokenInfo := None; as_TokenProvider := None |}.
Definition TokenProviderPlugin_GRPCClient (Impl : TokenProvider) : pluginObject X :=
  {| as_PasswordAuthenticator := None; as_TokenInfo := None;
     as_TokenProvider := Some (GRPCClient_GetToken Impl {| treq_Params := [] |}) |}.
End stubs.

(** ** Theorems

    Plugin processes: the clients of the proxy stand for the implementations
    behind them, and what becomes of a failure. *)

Section stubs.
Context {X : Type} `{Transport X}.

(** A call through a plugin process is the call of the implementation, or it
    failed the way the client fails. *)
Definition behind {A} (fails : res A -> Prop) (impl stub : M X A) : Prop := forall s,
  (exists a s', impl s = (Ok a, s') /\ stub s = (Ok a, s')) \/ (exists r s', fails r /\ stub s = (r, s')).
Definition is_error {A} (r : res A) : Prop := exists e, r = Err e.
Definition panics {A} (r : res A) : Prop := exists why, r = Panic why.

(** Both cases of a call whose client computes [k] from what it returned. *)
Lemma behind_call {A Req Resp} (fails : res A -> Prop) (impl : M X A) (method : Req -> M X Resp) req
    (k : option Resp * option error -> M X A) :
  (forall s resp s', method req s = (Ok resp, s') -> exists a, impl s = (Ok a, s') /\ k (Some resp, None) s' = (Ok a, s')) ->
  (forall e s', exists r, fails r /\ k (None, Some e) s' = (r, s')) ->
  behind fails impl (let* r := results (call method req) in k r).
Proof.
  intros Hok Herr s. unfold bind, results.
  destruct (call_spec Req Resp method req s) as [(resp & s' & Hm & ->)|(e & s' & ->)].
  - left. destruct (Hok s resp s' Hm) as (a & Hi & Hk). by exists a, s'.
  - right. destruct (Herr e s') as (r & Hr & Hk). by exists r, s'.
Qed.

(** A call of a method that returns an error, or whose process ends, fails. *)
Lemma call_fails {Req Resp} (method : Req -> M X Resp) req s :
  (forall resp s', method req s <> (Ok resp, s')) -> exists e s', call method req s = (Err e, s').
Proof. intros Hm. destruct (call_spec Req Resp method req s) as [(resp & s' & Hr & _)|(e & s' & E)]; [by apply Hm in Hr|eauto]. Qed.

Lemma behind_without_params (impl stub : VerifyRequest -> M X VerifyResponse) token :
  behind panics (impl {| vreq_Token := token; vreq_Params := [] |}) (stub {| vreq_Token := token; vreq_Params := [] |}) ->
  behind panics (without_params impl token) (without_params stub token).
Proof.
  intros Hb s. unfold without_params, bind. destruct (Hb s) as [(a & s' & -> & ->)|(r & s' & [why ->] & ->)].
  - left. by eexists _, _.
  - right. eexists _, _. by split; [exists why|].
Qed.
End stubs.

(** Splits a successful run of a server method. *)
Ltac method_inv :=
  intros s resp s' Hm;
  repeat (apply bind_inv in Hm as (? & ? & ? & Hm));
  unfold as_string, as_strings, ret in *; simplify_map_eq;
  repeat match goal with p : (bool * Z)%type |- _ => destruct p end; simplify_eq.

(** What a client makes of an error, and of a response. *)
Ltac failed_call := eexists; split; [by eexists|reflexivity].
Ltac answered_by T :=
  match goal with r : T |- _ => exists r; split; [done|by destruct r] end.

Section carried.
Context {X : Type} `{Transport X}.

(** C17: A plugin process stands for its implementation, whatever carries the
    calls: an answer is the implementation's own, in the state it left.  A
    failed call is an error from the gRPC client of a password authenticator and
    from the client of a filter, and a panic from every other client. *)
Theorem stubs_stand_for_plugins (password : bytes -> bytes -> M X (bool * Z))
    (info : VerifyRequest -> M X VerifyResponse) (provider : TokenRequest -> M X TokenResponse) (f : filter X) :
  (forall user pass,
     behind is_error (password user pass) (GRPCClient_Authenticate password user pass) /\
     behind panics (password user pass) (RPCClient_Authenticate password user pass)) /\
  (forall request,
     behind panics (info request) (GRPCClient_VerifyToken info request) /\
     behind panics (info request) (RPCClient_VerifyToken info request)) /\
  (forall request,
     behind panics (provider request) (GRPCClient_GetToken provider request) /\
     behind panics (provider request) (RPCClient_GetToken provider request)) /\
  (forall k v body,
     behind is_error (OnRequest f k v body) (OnRequest (FilterPlugin_Client f) k v body) /\
     behind is_error (OnResponse f k v body) (OnResponse (FilterPlugin_Client f) k v body)).
Proof.
  split_and!.
  - intros user pass. split; (apply behind_call; [method_inv|intros e s'; failed_call]); by eexists.
  - intros [token params]. split; (apply behind_call; [method_inv|intros e s'; failed_call]); answered_by VerifyResponse.
  - intros [params]. split; (apply behind_call; [method_inv|intros e s'; failed_call]); answered_by TokenResponse.
  - intros k v body. split; (apply behind_call; [method_inv|intros e s'; failed_call]); by eexists.
Qed.

(** A token plugin that fails does not refuse the handshake of a gateway
    client, it panics: for every transport, every plugin that gives an error or
    ends on the token, and every handshake with the proxy's magic and method. *)
Theorem failing_token_plugin_panics (info : VerifyRequest -> M X VerifyResponse) (b : AuthServer X) token c x :
  as_tokenInfo b = without_params (GRPCClient_VerifyToken info) ->
  (forall resp s', info {| vreq_Token := token; vreq_Params := [] |} x <> (Ok resp, s')) ->
  x00 ∉ as_method b -> x00 ∉ token -> inU 64 (as_magic b) ->
  len (as_method b) + 1 + len token < 2 ^ 32 -> deadline_err c = None ->
  exists s', receiveAndSendGatewayAuth b (fed (handshake_bytes (as_magic b) (as_method b) token) c, x) =
    (Panic "invalid memory address or nil pointer dereference", s').
Proof.
  intros Hb Hinfo Hm Ht Hmagic Hlen Hc. rewrite receiveAndSendGatewayAuth_fed by done. rewrite Hb.
  destruct (call_fails (GRPCServer_VerifyToken info) {| vreq_Token := token; vreq_Params := [] |} x) as (e & x' & E).
  { intros resp s' Hr. unfold GRPCServer_VerifyToken in Hr. apply bind_inv in Hr as (r & s1 & Hr & _). by apply Hinfo in Hr. }
  eexists. unfold bind, on_ext, without_params, GRPCClient_VerifyToken, tokenInfoClient_VerifyToken, bind, results.
  cbn [snd fst vreq_Token vreq_Params]. by rewrite E.
Qed.
End carried.

(** ** Examples *)

(** A transport that loses nothing. *)
Definition local_call {X Req Resp} (method : Req -> M X Resp) : Req -> M X Resp := fun req s =>
  match method req s with
  | (Panic w, s') => (Err (ExternalError ($"connection is shut down")), s')
  | r => r
  end.
Lemma local_call_spec {X Req Resp} (method : Req -> M X Resp) req s :
  (exists resp s', method req s = (Ok resp, s') /\ local_call method req s = (Ok resp, s')) \/
  (exists e s', local_call method req s = (Err e, s')).
Proof. unfold local_call. destruct (method req s) as [[resp|e|w] s']; [left|right|right]; eauto. Qed.
#[export] Instance local_transport {X} : Transport X :=
  {| call := @local_call X; call_spec := @local_call_spec X |}.

Definition one_user (user pass : bytes) : M nat (bool * Z) := fun n =>
  (Ok (bool_decide (user = $"alice") && bool_decide (pass = $"secret"), 0), S n).

Lemma stubs_stand_for_plugins_witness :
  behind is_error (one_user ($"alice") ($"secret")) (GRPCClient_Authenticate one_user ($"alice") ($"secret")) /\
  GRPCClient_Authenticate one_user ($"alice") ($"secret") 3%nat = (Ok (true, 0), 4%nat).
Proof.
  split; [|vm_compute; reflexivity].
  apply (stubs_stand_for_plugins one_user (fun _ => fail EOF) (fun _ => fail EOF)
           {| OnRequest := fun _ _ _ => fail EOF; OnResponse := fun _ _ _ => fail EOF |}).
Defined.

Definition failing_info : VerifyRequest -> M nat VerifyResponse := fun _ => fail (ExternalError ($"no certs")).
Definition plugin_gateway : AuthServer nat :=
  {| as_enabled := true; as_magic := 123; as_method := $"google-id";
     as_tokenInfo := without_params (GRPCClient_VerifyToken failing_info) |}.

Lemma failing_token_plugin_panics_witness :
  exists s', receiveAndSendGatewayAuth plugin_gateway (fed (handshake_bytes 123 ($"google-id") ($"token")) (peer []), O) =
    (Panic "invalid memory address or nil pointer dereference", s').
Proof.
  apply (failing_token_plugin_panics failing_info plugin_gateway ($"token") (peer []) O).
  - reflexivity.
  - discriminate.
  - apply (bool_decide_eq_true_1 _). reflexivity.
  - apply (bool_decide_eq_true_1 _). reflexivity.
  - unfold inU. simpl. lia.
  - reflexivity.
  - reflexivity.
Defined.
