(* ===== verification/NetUrl.v ===== *)
(** The query part of net/url: escaping, [Values.Encode] and [URL.Query]. *)
From Stdlib Require Import ZArith Lia Strings.Byte.
From stdpp Require Import base list strings gmap sorting.
From S2P Require Import Prelude GoLib GoStrings Subject.

(** [url.Values] *)
Abbreviation Values := (gmap bytes (list bytes)).

Definition ampersand : byte := "&"%byte.
Definition equals_sign : byte := "="%byte.
Definition semicolon : byte := ";"%byte.
Definition percent : byte := "%"%byte.
Definition plus_sign : byte := "+"%byte.
Definition space : byte := x20.

(** ** Escaping *)

Definition within (lo hi b : byte) : bool := (byteZ lo <=? byteZ b) && (byteZ b <=? byteZ hi).

(** [shouldEscape(b, encodeQueryComponent)], negated. *)
Definition unreserved (b : byte) : bool :=
  within "a" "z" b || within "A" "Z" b || within "0" "9" b || bool_decide (b ∈ $"-_.~").

(** [upperhex[d]] *)
Definition upperhex (d : Z) : byte := Zbyte (if d <? 10 then 48 + d else 55 + d).
Definition unhex (b : byte) : option Z :=
  if within "0" "9" b then Some (byteZ b - 48)
  else if within "a" "f" b then Some (byteZ b - 87)
  else if within "A" "F" b then Some (byteZ b - 55)
  else None.

Definition escape_byte (b : byte) : bytes :=
  if unreserved b then [b]
  else if bool_decide (b = space) then [plus_sign]
  else [percent; upperhex (Z.shiftr (byteZ b) 4); upperhex (Z.land (byteZ b) 15)].
Definition QueryEscape (s : bytes) : bytes := s ≫= escape_byte.

(** [None] for an escape that is not two hex digits. *)
Fixpoint QueryUnescape (s : bytes) : option bytes :=
  match s with
  | [] => Some []
  | b :: s' =>
      if bool_decide (b = percent) then
        match s' with
        | h :: l :: s'' =>
            match unhex h, unhex l with
            | Some h, Some l => cons (Zbyte (Z.lor (Z.shiftl h 4) l)) <$> QueryUnescape s''
            | _, _ => None
            end
        | _ => None
        end
      else cons (if bool_decide (b = plus_sign) then space else b) <$> QueryUnescape s'
  end.

(** ** Queries *)

(** [strings.Cut(s, sep)] for a separator of one byte. *)
Definition Cut (s : bytes) (sep : byte) : bytes * bytes :=
  match IndexByte s sep with Some i => (take i s, drop (S i) s) | None => (s, []) end.

(** [m[k] = append(m[k], v)] *)
Definition Values_Add (k v : bytes) (m : Values) : Values := <[k := default [] (m !! k) ++ [v]]> m.
Definition Values_Set (k v : bytes) (m : Values) : Values := <[k := [v]]> m.

(** One round of [parseQuery]: what is malformed is left out. *)
Definition parse_setting (m : Values) (key : bytes) : Values :=
  if bool_decide (semicolon ∈ key) || bool_decide (key = []) then m
  else
    let '(k, v) := Cut key equals_sign in
    match QueryUnescape k, QueryUnescape v with
    | Some k, Some v => Values_Add k v m
    | _, _ => m
    end.
(** [u.Query()] *)
Definition URL_Query (RawQuery : bytes) : Values := foldl parse_setting ∅ (Split ampersand RawQuery).

Definition setting (kv : bytes * bytes) : bytes := QueryEscape (fst kv) ++ [equals_sign] ++ QueryEscape (snd kv).
(** The pairs in the order of the sorted keys. *)
Definition ordered_pairs (m : Values) : list (bytes * bytes) :=
  sort_Strings (map_to_list m).*1 ≫= fun k => pair k <$> default [] (m !! k).
Definition Values_Encode (m : Values) : bytes := Join ampersand (setting <$> ordered_pairs m).

(** ** Facts *)

Lemma QueryUnescape_byte b s : QueryUnescape (escape_byte b ++ s) = cons b <$> QueryUnescape s.
Proof. destruct b; reflexivity. Qed.

Lemma QueryUnescape_Escape s : QueryUnescape (QueryEscape s) = Some s.
Proof.
  induction s as [|b s IH]; [done|]. unfold QueryEscape in *. rewrite bind_cons, QueryUnescape_byte. by rewrite IH.
Qed.

(** Escaped text has no separator. *)
Definition separator (b : byte) : bool := bool_decide (b ∈ [ampersand; equals_sign; semicolon]).
Lemma escape_byte_clean b : forallb (fun c => negb (separator c)) (escape_byte b) = true.
Proof. destruct b; reflexivity. Qed.

Lemma QueryEscape_clean c s : separator c = true -> c ∉ QueryEscape s.
Proof.
  intros Hc (b & Hb & _)%list_elem_of_bind. pose proof (escape_byte_clean b) as H. rewrite forallb_forall in H.
  apply list_elem_of_In in Hb. apply H in Hb. by rewrite Hc in Hb.
Qed.

Lemma Split_Join sep l : l <> [] -> Forall (fun t => sep ∉ t) l -> Split sep (Join sep l) = l.
Proof.
  intros Hne. induction 1 as [|t l Ht Hl IH]; [done|]. destruct l as [|t' l]; [by apply Split_notin|].
  change (Join sep (t :: t' :: l)) with (t ++ sep :: Join sep (t' :: l)). rewrite Split_app by done. by rewrite IH.
Qed.

Lemma Cut_app s sep t : sep ∉ s -> Cut (s ++ [sep] ++ t) sep = (s, t).
Proof.
  intros H. unfold Cut. change (s ++ [sep] ++ t) with (s ++ sep :: t). rewrite IndexByte_app by done.
  rewrite take_app_length. f_equal. change (sep :: t) with ([sep] ++ t). rewrite app_assoc.
  by rewrite drop_app_length' by (rewrite length_app; simpl; lia).
Qed.

Lemma setting_clean c kv : c <> equals_sign -> separator c = true -> c ∉ setting kv.
Proof.
  intros Hne Hc. unfold setting. rewrite !elem_of_app. intros [Hin|[Hin%list_elem_of_singleton|Hin]]; [|done|];
    by apply QueryEscape_clean in Hin.
Qed.

Lemma parse_setting_setting m kv : parse_setting m (setting kv) = Values_Add (fst kv) (snd kv) m.
Proof.
  unfold parse_setting. rewrite bool_decide_eq_false_2 by by apply setting_clean.
  destruct kv as [k v]. unfold setting. cbn [fst snd].
  rewrite bool_decide_eq_false_2; [|intros [_ [E _]%app_eq_nil]%app_eq_nil; discriminate E].
  cbn [orb]. rewrite Cut_app by by apply QueryEscape_clean. by rewrite !QueryUnescape_Escape.
Qed.

(** The values under a key, in their order. *)
Definition values_of (k : bytes) (l : list (bytes * bytes)) : list bytes :=
  snd <$> List.filter (fun kv => bool_decide (fst kv = k)) l.

Lemma values_of_app k l1 l2 : values_of k (l1 ++ l2) = values_of k l1 ++ values_of k l2.
Proof. unfold values_of. by rewrite List.filter_app, fmap_app. Qed.

Lemma add_all_lookup (l : list (bytes * bytes)) (m : Values) (k : bytes) :
  foldl (fun m kv => Values_Add (fst kv) (snd kv) m) m l !! k =
  match values_of k l with [] => m !! k | vs => Some (default [] (m !! k) ++ vs) end.
Proof.
  revert m. induction l as [|[k' v] l IH]; intros m; [done|]. cbn [foldl fst snd]. rewrite IH.
  unfold values_of in *. cbn [List.filter fst]. unfold Values_Add.
  destruct (decide (k' = k)) as [->|Hk].
  - rewrite bool_decide_eq_true_2 by done. rewrite lookup_insert_eq. cbn [fmap list_fmap snd default].
    destruct (snd <$> _) as [|v' vs] eqn:E; [done|]. cbn [from_option]. unfold id. by rewrite <- app_assoc.
  - rewrite bool_decide_eq_false_2 by done. by rewrite !lookup_insert_ne by done.
Qed.

Lemma values_of_pairs k k' vs : values_of k (pair k' <$> vs) = if decide (k' = k) then vs else [].
Proof.
  unfold values_of. induction vs as [|v vs IH]; [by destruct (decide _)|]. cbn [fmap list_fmap List.filter fst].
  destruct (decide (k' = k)) as [->|Hk].
  - rewrite bool_decide_eq_true_2 by done. cbn. f_equal. exact IH.
  - by rewrite bool_decide_eq_false_2 by done.
Qed.

Lemma values_of_keys (f : bytes -> list bytes) k ks : NoDup ks ->
  values_of k (ks ≫= fun k => pair k <$> f k) = if decide (k ∈ ks) then f k else [].
Proof.
  induction 1 as [|k' ks Hk' _ IH]; [done|]. rewrite bind_cons, values_of_app, IH, values_of_pairs.
  destruct (decide (k' = k)) as [->|Hk].
  - rewrite (decide_False (P := k ∈ ks)) by done. rewrite decide_True by by left. by rewrite app_nil_r.
  - cbn [app]. apply decide_ext. rewrite elem_of_cons. naive_solver.
Qed.

Lemma values_of_ordered (k : bytes) (m : Values) : values_of k (ordered_pairs m) = default [] (m !! k).
Proof.
  unfold ordered_pairs, sort_Strings. rewrite values_of_keys.
  - destruct (m !! k) as [vs|] eqn:E.
    + rewrite decide_True; [done|]. rewrite merge_sort_Permutation. apply list_elem_of_fmap.
      exists (k, vs). split; [done|]. by apply elem_of_map_to_list.
    + by destruct (decide _).
  - rewrite merge_sort_Permutation. apply NoDup_fst_map_to_list.
Qed.

(** A query without empty lists is read back. *)
Lemma Query_Encode (m : Values) : (forall k : bytes, m !! k <> Some []) -> URL_Query (Values_Encode m) = m.
Proof.
  intros Hm. apply map_eq. intros k. unfold URL_Query, Values_Encode.
  pose proof (values_of_ordered k m) as Hk.
  destruct (ordered_pairs m) as [|kv l] eqn:E.
  - transitivity (None : option (list bytes)); [reflexivity|]. destruct (m !! k) as [vs|] eqn:Ek; [|done]. cbn in Hk. subst vs. by apply Hm in Ek.
  - rewrite Split_Join; [|done|].
    + rewrite <- E in *. clear E kv l.
      assert (forall l (m0 : Values), foldl parse_setting m0 (setting <$> l) = foldl (fun m kv => Values_Add (fst kv) (snd kv) m) m0 l) as ->.
      { induction l as [|kv l IH]; intros m0; [done|]. cbn [fmap list_fmap foldl]. by rewrite parse_setting_setting, IH. }
      rewrite add_all_lookup, Hk, lookup_empty. destruct (m !! k) as [[|v vs]|] eqn:Ek; [by apply Hm in Ek|done|done].
    + apply Forall_fmap, Forall_forall. intros kv' _. by apply setting_clean.
Qed.
