(* ===== verification/Iam.v ===== *)
(** The AWS_MSK_IAM token (proxy/iam.go) and the set-up of its authentication
    (proxy/sasl_aws_msk_iam.go): a request is presigned by the AWS SDK, and the
    parameters of the presigned URL become a map with lower-case keys that is
    sent as JSON.

    The SDK, [encoding/json] and what net/url has beyond queries are
    parameters, as is the order in which a map is ranged over. *)
From Stdlib Require Import ZArith Lia Strings.Byte.
From stdpp Require Import base list strings gmap.
From S2P Require Import Prelude GoLib GoStrings SaslProxy NetUrl.

Definition signAction : bytes := $"kafka-cluster:Connect".
Definition signPayload : bytes := $"e3b0c44298fc1c149afbf4c8996fb92427ae41e4649b934ca495991b7852b855".
Definition signService : bytes := $"kafka-cluster".
Definition signVersion : bytes := $"2020_10_22".
Definition signActionKey : bytes := $"action".
Definition signHostKey : bytes := $"host".
Definition signUserAgentKey : bytes := $"user-agent".
Definition signVersionKey : bytes := $"version".
Definition queryActionKey : bytes := $"Action".
Definition queryExpiryKey : bytes := $"X-Amz-Expires".
(** [requestExpiry / time.Second] *)
Definition requestExpirySeconds : bytes := $"300".

Record net_URL := { u_Scheme : bytes; u_Host : bytes; u_Path : bytes; u_RawQuery : bytes }.

(** [strings.ToLower] of a key, which is ASCII. *)
Definition lower (key : bytes) : bytes := ToLower <$> key.

(** A range over a map, [m[strings.ToLower(key)] = vals[0]]. *)
Fixpoint add_lowered (entries : list (bytes * list bytes)) (signedMap : gmap bytes bytes) : res (gmap bytes bytes) :=
  match entries with
  | [] => Ok signedMap
  | (key, vals) :: entries' =>
      match vals with
      | [] => Panic "index out of range"
      | v :: _ => add_lowered entries' (<[lower key := v]> signedMap)
      end
  end.

Section iam.
Context {X Credentials awsCfg : Type}.
(** [runtime.Version()] *)
Context (runtime_Version : bytes).
Context (range : Values -> list (bytes * list bytes)).
Context (URL_String : net_URL -> bytes) (http_NewRequest : bytes -> bytes -> res net_URL) (url_Parse : bytes -> res net_URL).
Context (json_Marshal : gmap bytes bytes -> res bytes).

Definition signUserAgent : bytes := $"kafka-go/sasl/aws_msk_iam_v2/" ++ runtime_Version.

(** [Mechanism]: the signer with its clock, the credentials and the region. *)
Record Mechanism := {
  Signer_PresignHTTP : Credentials -> net_URL -> bytes -> bytes -> bytes -> M X (bytes * Values);
  Credentials_Retrieve : M X Credentials;
  Region : bytes
}.

Definition sign_query : Values :=
  Values_Set queryExpiryKey requestExpirySeconds (Values_Set queryActionKey signAction ∅).

Definition buildReq (host : bytes) : res net_URL :=
  let signUrl := {| u_Scheme := $"kafka"; u_Host := host; u_Path := $"/"; u_RawQuery := Values_Encode sign_query |} in
  http_NewRequest ($"GET") (URL_String signUrl).

Definition fixed_entries (u : net_URL) : gmap bytes bytes :=
  <[signVersionKey := signVersion]> (<[signHostKey := u_Host u]>
    (<[signUserAgentKey := signUserAgent]> (<[signActionKey := signAction]> ∅))).
Definition buildSignedMap (u : net_URL) (header : Values) : res (gmap bytes bytes) :=
  let? signedMap := add_lowered (range header) (fixed_entries u) in
  add_lowered (range (URL_Query (u_RawQuery u))) signedMap.

Definition preSign (m : Mechanism) (host : bytes) : M X (gmap bytes bytes) :=
  let* req := wrapf (lift (buildReq host)) "building request" in
  let* creds := wrapf (Credentials_Retrieve m) "credential retrieval" in
  let* signed := wrapf (Signer_PresignHTTP m creds req signPayload signService (Region m)) "signing url" in
  let '(signedUrl, header) := signed in
  let* u := wrapf (lift (url_Parse signedUrl)) "invalid url from presign" in
  lift (buildSignedMap u header).

Definition Mechanism_SASLToken (m : Mechanism) (host : bytes) : M X bytes :=
  let* jsonDict := wrapf (preSign m host) "generating presigned payload" in
  wrapf (lift (json_Marshal jsonDict)) "failed to serialize".

(** ** [NewAwsMSKIamAuth] *)

Record AWSConfig := { aws_Region : bytes; aws_Profile : bytes; aws_RoleArn : bytes; aws_IdentityLookup : bool }.
Inductive LoadOption := WithRegion (region : bytes) | WithSharedConfigProfile (profile : bytes).

Context (LoadDefaultConfig : list LoadOption -> res awsCfg).
(** The configuration with the credentials of an assumed role. *)
Context (with_AssumeRole : awsCfg -> bytes -> awsCfg).
Context (GetCallerIdentity : awsCfg -> res bytes).
(** [newMechanism] *)
Context (newMechanism : awsCfg -> Mechanism).

Definition NewAwsMSKIamAuth (clientId : bytes) (awsConfig : AWSConfig) : res (AwsMSKIamAuth X) :=
  let optFns :=
    (if bool_decide (aws_Region awsConfig = []) then [] else [WithRegion (aws_Region awsConfig)]) ++
    (if bool_decide (aws_Profile awsConfig = []) then [] else [WithSharedConfigProfile (aws_Profile awsConfig)]) in
  match LoadDefaultConfig optFns with
  | Err _ => Err (Errorf "loading aws config: %v")
  | Panic w => Panic w
  | Ok cfg =>
      let cfg := if bool_decide (aws_RoleArn awsConfig = []) then cfg else with_AssumeRole cfg (aws_RoleArn awsConfig) in
      match (if aws_IdentityLookup awsConfig then rmap Some (GetCallerIdentity cfg) else Ok None) with
      | Err _ => Err (Errorf "failed to get caller identity: %v")
      | Panic w => Panic w
      | Ok _ => Ok {| a_clientID := clientId; SASLToken := Mechanism_SASLToken (newMechanism cfg) |}
      end
  end.

(** ** The signed map *)

(** The entries of a map under a lower-case key. *)
Definition lowered (m : Values) (k v : bytes) : Prop := exists key vals, m !! key = Some (v :: vals) /\ lower key = k.
Definition distinct_lowered (m : Values) : Prop :=
  forall key1 key2 : bytes, is_Some (m !! key1) -> is_Some (m !! key2) -> lower key1 = lower key2 -> key1 = key2.

Lemma add_lowered_spec entries m0 :
  NoDup entries.*1 -> Forall (fun e => snd e <> []) entries ->
  (forall key1 key2, key1 ∈ entries.*1 -> key2 ∈ entries.*1 -> lower key1 = lower key2 -> key1 = key2) ->
  exists m, add_lowered entries m0 = Ok m /\
    forall k v, m !! k = Some v <->
      (exists key vals, (key, v :: vals) ∈ entries /\ lower key = k) \/
      (m0 !! k = Some v /\ forall key, key ∈ entries.*1 -> lower key <> k).
Proof.
  revert m0. induction entries as [|[key vals] entries IH]; intros m0 Hn Hv Hd; [|].
  { exists m0. split; [done|]. intros k v. split; [intros; right; split; [done|]; by intros ? ?%not_elem_of_nil|].
    intros [(? & ? & ?%not_elem_of_nil & _)|[? _]]; done. }
  apply NoDup_cons in Hn as [Hk Hn]. apply Forall_cons in Hv as [Hv Hvs]. cbn [snd fmap list_fmap fst] in *.
  destruct vals as [|v0 vals]; [done|]. cbn [add_lowered].
  destruct (IH (<[lower key := v0]> m0) Hn Hvs) as (m & -> & Hm).
  { intros key1 key2 ? ?. apply Hd; by right. }
  exists m. split; [done|]. intros k v. rewrite Hm. clear IH Hm. setoid_rewrite elem_of_cons. split.
  - intros [(key' & vals' & Hin & <-)|[Hl Hno]]; [left; eauto|].
    destruct (decide (lower key = k)) as [<-|Hne].
    + rewrite lookup_insert_eq in Hl. injection Hl as ->. left. exists key, vals. by split; [left|].
    + rewrite lookup_insert_ne in Hl by done. right. split; [done|]. intros key' [->|?]; auto.
  - intros [(key' & vals' & [[= -> -> ->]|Hin] & <-)|[Hl Hno]].
    + right. rewrite lookup_insert_eq. split; [done|]. intros key2 Hin E. apply Hk.
      assert (key2 = key) as ->; [|done]. apply Hd; [by right|by left|done].
    + left. eauto.
    + right. rewrite lookup_insert_ne by (apply Hno; by left). eauto.
Qed.

(** The lower-cased range over a map, in any order. *)
Lemma add_lowered_range (range_map : forall m, range m ≡ₚ map_to_list m) m m0 :
  (forall key : bytes, m !! key <> Some []) -> distinct_lowered m ->
  exists m', add_lowered (range m) m0 = Ok m' /\
    forall k v, m' !! k = Some v <-> lowered m k v \/ (m0 !! k = Some v /\ forall w, ~ lowered m k w).
Proof.
  intros Hne Hd.
  assert (forall key vals, (key, vals) ∈ range m <-> m !! key = Some vals) as Hin
    by (intros key vals; rewrite range_map; apply elem_of_map_to_list).
  assert (forall key, key ∈ (range m).*1 <-> is_Some (m !! key)) as Hkeys.
  { intros key. rewrite list_elem_of_fmap. split.
    - intros ([key' vals] & -> & H%Hin). by exists vals.
    - intros [vals H%Hin]. by exists (key, vals). }
  destruct (add_lowered_spec (range m) m0) as (m' & E & Hm).
  - rewrite range_map. apply NoDup_fst_map_to_list.
  - apply Forall_forall. intros [key vals] H%Hin. cbn. intros ->. by apply Hne in H.
  - intros key1 key2 H1%Hkeys H2%Hkeys. by apply Hd.
  - exists m'. split; [done|]. intros k v. rewrite Hm. unfold lowered. setoid_rewrite Hin. setoid_rewrite Hkeys.
    split; (intros [?|[? Hno]]; [by left|right; split; [done|]]).
    + intros w (key & vals & Hk & El). by apply (Hno key).
    + intros key [[|v0 vals] Hk] El; [by apply Hne in Hk|]. apply (Hno v0). by exists key, vals.
Qed.
End iam.

(** ** Theorems

    The AWS_MSK_IAM token carries the signature of the connection request. *)

(** A query has no key without a value. *)
Lemma URL_Query_nonempty raw (key : bytes) : URL_Query raw !! key <> Some [].
Proof.
  unfold URL_Query. cut (forall l (m : Values), (forall key : bytes, m !! key <> Some []) ->
    forall key : bytes, foldl parse_setting m l !! key <> Some []).
  { intros H. apply H. intros k. by rewrite lookup_empty. }
  clear. induction l as [|s l IH]; intros m Hm; [done|]. cbn [foldl]. apply IH. intros k. unfold parse_setting.
  destruct (_ || _); [done|]. destruct (Cut s equals_sign) as [a b]. destruct (QueryUnescape a) as [a'|]; [|done].
  destruct (QueryUnescape b) as [b'|]; [|done]. unfold Values_Add. destruct (decide (a' = k)) as [->|Hne].
  - rewrite lookup_insert_eq. intros [= [_ ?]%app_eq_nil]. done.
  - by rewrite lookup_insert_ne.
Qed.

(** The query that is signed is read back from the request. *)
Lemma sign_query_encoded : URL_Query (Values_Encode sign_query) = sign_query.
Proof.
  apply Query_Encode. intros k. unfold sign_query, Values_Set.
  destruct (decide (queryExpiryKey = k)) as [<-|]; [by rewrite lookup_insert_eq|]. rewrite lookup_insert_ne by done.
  destruct (decide (queryActionKey = k)) as [<-|]; [by rewrite lookup_insert_eq|]. rewrite lookup_insert_ne by done.
  by rewrite lookup_empty.
Qed.

Section iam.
Context {X Credentials : Type} (runtime_Version : bytes) (range : Values -> list (bytes * list bytes)).
Context (URL_String : net_URL -> bytes) (http_NewRequest : bytes -> bytes -> res net_URL) (url_Parse : bytes -> res net_URL).
Context (json_Marshal : gmap bytes bytes -> res bytes).

(** C19: What is presigned for a broker is the connect action, to expire in 300
    seconds, with the mechanism's credentials and region, provided net/url and
    net/http keep an encoded query as it is (it has no character with another
    meaning in a URL).  The token is the JSON of a map; when no two keys of the
    presigned URL's query, and no two of the signed headers, differ only in
    case, and every header has a value, it has the parameters of that URL under
    their lower-case names, then the signed headers, then version, host, user
    agent and action, whatever order the maps are ranged over in. *)
Theorem sasl_token_carries_the_signature (m : Mechanism (X := X) (Credentials := Credentials)) host x payload x' :
  (forall v, range v ≡ₚ map_to_list v) ->
  (forall (q : Values) req,
     http_NewRequest ($"GET") (URL_String {| u_Scheme := $"kafka"; u_Host := host; u_Path := $"/"; u_RawQuery := Values_Encode q |}) = Ok req ->
     u_RawQuery req = Values_Encode q) ->
  Mechanism_SASLToken runtime_Version range URL_String http_NewRequest url_Parse json_Marshal m host x = (Ok payload, x') ->
  exists creds req x1 url header u signed,
    Credentials_Retrieve m x = (Ok creds, x1) /\
    URL_Query (u_RawQuery req) = sign_query /\
    Signer_PresignHTTP m creds req signPayload signService (Region m) x1 = (Ok (url, header), x') /\
    url_Parse url = Ok u /\ json_Marshal signed = Ok payload /\
    (distinct_lowered (URL_Query (u_RawQuery u)) -> distinct_lowered header ->
     (forall key : bytes, header !! key <> Some []) ->
     forall k v, signed !! k = Some v <->
       lowered (URL_Query (u_RawQuery u)) k v \/
       (forall w, ~ lowered (URL_Query (u_RawQuery u)) k w) /\
       (lowered header k v \/
        (forall w, ~ lowered header k w) /\ fixed_entries runtime_Version u !! k = Some v)).
Proof.
  intros Hrange Hreq H. unfold Mechanism_SASLToken in H.
  apply bind_inv in H as (signed & s1 & Hpre%wrapf_Ok & Hjson%wrapf_Ok).
  unfold preSign in Hpre. apply bind_inv in Hpre as (req & s2 & Hr%wrapf_Ok & Hpre).
  apply bind_inv in Hpre as (creds & s3 & Hc%wrapf_Ok & Hpre).
  apply bind_inv in Hpre as ([url header] & s4 & Hs%wrapf_Ok & Hpre).
  apply bind_inv in Hpre as (u & s5 & Hu%wrapf_Ok & Hmap).
  unfold lift in *. simplify_eq. exists creds, req, s3, url, header, u, signed. split_and!; try done.
  - match goal with Hr : buildReq _ _ _ = Ok _ |- _ => apply Hreq in Hr; by rewrite Hr, sign_query_encoded end.
  - match goal with Hmap : buildSignedMap _ _ _ _ = Ok _ |- _ => rename Hmap into Hm end.
    intros Hdq Hdh Hh k v. unfold buildSignedMap in Hm.
    destruct (add_lowered_range range Hrange header (fixed_entries runtime_Version u) Hh Hdh) as (m1 & E1 & L1).
    rewrite E1 in Hm. cbn [rbind] in Hm.
    destruct (add_lowered_range range Hrange (URL_Query (u_RawQuery u)) m1 (URL_Query_nonempty _) Hdq) as (m2 & E2 & L2).
    rewrite E2 in Hm. injection Hm as ->. rewrite L2, L1. naive_solver.
Qed.
End iam.

(** ** Example *)

Definition question_mark : byte := "?"%byte.
Definition example_String (u : net_URL) : bytes :=
  u_Scheme u ++ $"://" ++ u_Host u ++ u_Path u ++ [question_mark] ++ u_RawQuery u.
Definition example_Parse (s : bytes) : res net_URL :=
  Ok {| u_Scheme := $"kafka"; u_Host := $"b-1"; u_Path := $"/"; u_RawQuery := snd (Cut s question_mark) |}.
Definition example_Mechanism : Mechanism (X := nat) (Credentials := bytes) :=
  {| Signer_PresignHTTP := fun creds req _ _ _ =>
       ret ($"kafka://b-1/?" ++ u_RawQuery req ++ $"&X-Amz-Signature=" ++ creds, {[$"Host" := [u_Host req]]});
     Credentials_Retrieve := ret ($"0a1b");
     Region := $"eu-west-1" |}.
Definition example_Marshal (m : gmap bytes bytes) : res bytes := Ok (default [] (m !! $"x-amz-signature")).

Lemma sasl_token_carries_the_signature_witness :
  Mechanism_SASLToken ($"go1.25") map_to_list example_String (fun _ => example_Parse) example_Parse example_Marshal
    example_Mechanism ($"b-1") O = (Ok ($"0a1b"), O) /\
  exists (creds : bytes) (req : net_URL), URL_Query (u_RawQuery req) = sign_query.
Proof.
  assert (Mechanism_SASLToken ($"go1.25") map_to_list example_String (fun _ => example_Parse) example_Parse example_Marshal
    example_Mechanism ($"b-1") O = (Ok ($"0a1b"), O)) as E by (vm_compute; reflexivity).
  split; [exact E|].
  destruct (sasl_token_carries_the_signature ($"go1.25") map_to_list example_String (fun _ => example_Parse) example_Parse
    example_Marshal example_Mechanism ($"b-1") O ($"0a1b") O) as (creds & req & _ & _ & _ & _ & _ & _ & Hq & _).
  - reflexivity.
  - intros q req [= <-]. set (rawQuery := Values_Encode q). cbn [u_RawQuery]. unfold example_String. cbn [u_Scheme u_Host u_Path u_RawQuery].
    change (snd (Cut ($"kafka://b-1/" ++ [question_mark] ++ rawQuery) question_mark) = rawQuery).
    rewrite (Cut_app ($"kafka://b-1/")); [reflexivity|]. apply (bool_decide_eq_true_1 _). reflexivity.
  - exact E.
  - by exists creds, req.
Defined.
