(* ===== verification/Watcher.v ===== *)
(** Watching the file of the credentials (pkg/libs/util/watcher.go).

    The goroutine of a watcher is run on the list of what its [select] takes,
    one after the other.  The file system and the fsnotify watcher are the
    state [X] with its methods as parameters; sleeping is a method too, since
    the file system changes meanwhile.  What the goroutine did is the list of
    events after which it ran the action. *)
From Stdlib Require Import ZArith Lia Strings.Byte.
From stdpp Require Import base list strings gmap.
From S2P Require Import Prelude GoLib.

(** [fsnotify.Op] *)
Definition Remove_op : Z := 4.
Definition Rename_op : Z := 8.
Definition Chmod_op : Z := 16.
Definition has_op (op mask : Z) : bool := negb (Z.land op mask =? 0).
Definition interrupts (op : Z) : bool := has_op op (Z.lor Remove_op (Z.lor Rename_op Chmod_op)).

Record fs_event := { ev_Name : bytes; ev_Op : Z }.
(** The cases of the [select]. *)
Inductive selected := Done | Event (e : fs_event) | WatchError (err : error).

(** Where the goroutine is when what it was given has been taken: stopped, still
    selecting, ended by a panic it recovered, or waiting for the file. *)
Inductive watch_end := Stopped | Selecting | Recovered | AwaitingFile.

Section watcher.
Context {X : Type}.
Context (Stat : bytes -> M X unit) (Lstat_Mode : bytes -> M X Z) (EvalSymlinks : bytes -> M X bytes).
Context (watcher_Add watcher_Remove : bytes -> M X unit) (NewWatcher : M X unit) (Sleep : X -> X).
Context (Clean Dir : bytes -> bytes).
Context (action : M X unit).

(** [os.ModeSymlink] *)
Definition ModeSymlink : Z := Z.shiftl 1 27.

Definition isSymLink (filename : bytes) : M X bool :=
  let* mode := Lstat_Mode filename in ret (Z.land mode ModeSymlink =? ModeSymlink).

(** The loop of [waitForReplacement], for a number of polls. *)
Fixpoint wait_loop (polls : nat) (filename : bytes) (x : X) : option X :=
  match polls with
  | O => None
  | S n =>
      match Stat filename x with
      | (Ok _, x1) =>
          match watcher_Add filename x1 with
          | (Ok _, x2) => Some x2
          | (_, x2) => wait_loop n filename (Sleep x2)
          end
      | (_, x1) => wait_loop n filename (Sleep x1)
      end
  end.
Definition waitForReplacement (polls : nat) (filename : bytes) (op : Z) (x : X) : option X :=
  wait_loop polls filename (if has_op op Chmod_op then Sleep x else x).

(** [if interrupts { watcher.Remove(file); waitForReplacement }] *)
Definition resume (polls : nat) (filename : bytes) (op : Z) (x : X) : option X :=
  if interrupts op then waitForReplacement polls filename op (snd (watcher_Remove filename x)) else Some x.

(** The goroutine of [watchFileForUpdates], each wait with the same polls. *)
Fixpoint watchFile_loop (polls : nat) (filename : bytes) (l : list selected) (x : X) : watch_end * list fs_event * X :=
  match l with
  | [] => (Selecting, [], x)
  | Done :: _ => (Stopped, [], x)
  | WatchError _ :: l' => watchFile_loop polls filename l' x
  | Event e :: l' =>
      match resume polls filename (ev_Op e) x with
      | None => (AwaitingFile, [], x)
      | Some x1 =>
          match action x1 with
          | (Panic _, x2) => (Recovered, [e], x2)
          | (_, x2) => let '(why, acted, x3) := watchFile_loop polls filename l' x2 in (why, e :: acted, x3)
          end
      end
  end.

(** Whether an event's name leads to the file; an error skips the event. *)
Definition same_target (filename name : bytes) : M X bool :=
  let* targetname := EvalSymlinks filename in
  let* name := EvalSymlinks name in
  ret (bool_decide (name = targetname)).

(** The goroutine of [watchLinkForUpdates], which watches the directory. *)
Fixpoint watchLink_loop (polls : nat) (filename : bytes) (l : list selected) (x : X) : watch_end * list fs_event * X :=
  match l with
  | [] => (Selecting, [], x)
  | Done :: _ => (Stopped, [], x)
  | WatchError _ :: l' => watchLink_loop polls filename l' x
  | Event e :: l' =>
      match resume polls (Dir filename) (ev_Op e) x with
      | None => (AwaitingFile, [], x)
      | Some x1 =>
          if has_op (ev_Op e) Remove_op then watchLink_loop polls filename l' x1
          else
            match same_target filename (ev_Name e) x1 with
            | (Ok true, x2) =>
                match action x2 with
                | (Panic _, x3) => (Recovered, [e], x3)
                | (_, x3) => let '(why, acted, x4) := watchLink_loop polls filename l' x3 in (why, e :: acted, x4)
                end
            | (Panic _, x2) => (Recovered, [], x2)
            | (_, x2) => watchLink_loop polls filename l' x2
            end
      end
  end.

(** What the caller waits for; the goroutine, which starts before the file is
    watched, is the loop that is returned. *)
Abbreviation goroutine := (nat -> list selected -> X -> watch_end * list fs_event * X).
Definition watchFileForUpdates (filename : bytes) : M X goroutine :=
  let filename := Clean filename in
  do* wrapf NewWatcher "failed to create watcher for %s" in
  do* wrapf (watcher_Add filename) "failed to add %s watcher" in
  ret (fun polls l => watchFile_loop polls filename l).
Definition watchLinkForUpdates (filename : bytes) : M X goroutine :=
  let filename := Clean filename in
  do* wrapf NewWatcher "failed to create watcher for file %s in dir %s" in
  do* wrapf (watcher_Add (Dir filename)) "failed to add %s watcher" in
  ret (fun polls l => watchLink_loop polls filename l).
Definition WatchForUpdates (filename : bytes) : M X goroutine :=
  let* symlink := isSymLink filename in
  if (symlink : bool) then watchLinkForUpdates filename else watchFileForUpdates filename.

(** ** Facts *)

(** More polls do not change a wait that has ended. *)
Lemma wait_loop_more n m filename x x' : wait_loop n filename x = Some x' -> (n <= m)%nat -> wait_loop m filename x = Some x'.
Proof.
  revert m x. induction n as [|n IH]; intros m x H Hm; [done|]. destruct m as [|m]; [lia|]. cbn [wait_loop] in *.
  destruct (Stat filename x) as [[] x1]; [|apply IH; [done|lia]..].
  destruct (watcher_Add filename x1) as [[] x2]; [done|apply IH; [done|lia]..].
Qed.

(** The events among what is selected. *)
Definition events (l : list selected) : list fs_event :=
  omap (fun s => match s with Event e => Some e | _ => None end) l.

(** The file can be watched again within some polls, whatever happened to it. *)
Definition comes_back (filename : bytes) : Prop := forall x, exists n x', wait_loop n filename x = Some x'.
Definition harmless : Prop := forall x why, fst (action x) <> Panic why.

Lemma watchFile_loop_more n m filename l x acted why x' : (n <= m)%nat -> why <> AwaitingFile ->
  watchFile_loop n filename l x = (why, acted, x') -> watchFile_loop m filename l x = (why, acted, x').
Proof.
  intros Hnm Hwhy. revert x acted. induction l as [|[|e|err] l IH]; intros x acted H; cbn [watchFile_loop] in *; [done|done| |by apply IH].
  unfold resume, waitForReplacement in *.
  destruct (interrupts (ev_Op e)).
  - destruct (wait_loop n filename _) as [x1|] eqn:E; [|by injection H as <-].
    rewrite (wait_loop_more n m _ _ _ E) by done. destruct (action x1) as [[] x2]; [|..|done];
      (destruct (watchFile_loop n filename l x2) as [[why1 acted1] x3] eqn:E1; injection H as <- <- <-; by rewrite (IH x2 acted1)).
  - destruct (action x) as [[] x2]; [|..|done];
      (destruct (watchFile_loop n filename l x2) as [[why1 acted1] x3] eqn:E1; injection H as <- <- <-; by rewrite (IH x2 acted1)).
Qed.
End watcher.

(** ** Theorems

    Every change of a watched file is acted on. *)

Section watcher.
Context {X : Type}.
Context (Stat : bytes -> M X unit) (EvalSymlinks : bytes -> M X bytes).
Context (watcher_Add watcher_Remove : bytes -> M X unit) (Sleep : X -> X) (Dir : bytes -> bytes).
Context (action : M X unit).

Abbreviation resumed := (resume Stat watcher_Add watcher_Remove Sleep).
Abbreviation file_loop := (watchFile_loop Stat watcher_Add watcher_Remove Sleep action).
Abbreviation link_loop := (watchLink_loop Stat EvalSymlinks watcher_Add watcher_Remove Sleep Dir action).
Abbreviation returning := (comes_back Stat watcher_Add Sleep).

Lemma resume_back filename op x : returning filename -> exists n x', forall m, (n <= m)%nat -> resumed m filename op x = Some x'.
Proof.
  intros Hb. unfold Watcher.resume, waitForReplacement. destruct (interrupts op).
  - destruct (Hb (if has_op op Chmod_op then Sleep (snd (watcher_Remove filename x)) else snd (watcher_Remove filename x)))
      as (n & x' & Hn). exists n, x'. intros m Hm. by eapply wait_loop_more.
  - by exists O, x.
Qed.

(** An action that does not panic leaves a state. *)
Lemma harmless_runs x : harmless action -> exists r x', action x = (r, x') /\ (forall why, r <> Panic why).
Proof. intros Ha. destruct (action x) as [r x'] eqn:E. exists r, x'. split; [done|]. intros why ->. by apply (Ha x why); rewrite E. Qed.

(** An invariant of everything the goroutine does, and what each run of the
    action establishes. *)
Lemma watched_changes (I R : X -> Prop) filename (l : list selected) x :
  returning filename -> harmless action ->
  (forall m op x x', resumed m filename op x = Some x' -> I x -> I x' /\ (R x -> R x')) ->
  (forall x, I x -> I (snd (action x)) /\ R (snd (action x))) ->
  Done ∉ l -> I x -> exists n x', I x' /\ (R x \/ events l <> [] -> R x') /\ forall m, (n <= m)%nat ->
    file_loop m filename (l ++ [Done]) x = (Stopped, events l, x').
Proof.
  intros Hb Ha Hres Hact. revert x. induction l as [|s l IH]; intros x Hd HI; [exists O, x; split_and!; try done; by intros [?|?]|].
  apply not_elem_of_cons in Hd as [Hs Hd]. destruct s as [|e|err]; [done| |by apply IH].
  destruct (resume_back filename (ev_Op e) x Hb) as (n1 & x1 & H1).
  destruct (Hres n1 (ev_Op e) x x1 (H1 n1 ltac:(lia)) HI) as [HI1 _]. destruct (Hact x1 HI1) as [HI2 HR2].
  destruct (harmless_runs x1 Ha) as (r & x2 & E & Hr). rewrite E in HI2, HR2.
  destruct (IH x2 Hd HI2) as (n2 & x3 & HI3 & HR3 & H2). exists (max n1 n2), x3. split_and!; [done|by auto|]. intros m Hm.
  cbn [app Watcher.watchFile_loop]. rewrite H1 by lia. rewrite E. rewrite (H2 m) by lia.
  destruct r as [a|e0|why]; [done|done|by destruct (Hr why)].
Qed.

(** C14: Every event of a watched file is followed by a run of the action: with
    an action that does not panic, and a file that can be watched again some
    polls after it was removed, renamed or its mode was changed, the goroutine
    runs the action once for each event, in their order, and stops when it is
    told to.  How long the polls take does not matter. *)
Theorem watched_changes_are_acted_on filename (l : list selected) x :
  returning filename -> harmless action -> Done ∉ l ->
  exists n x', forall m, (n <= m)%nat ->
    file_loop m filename (l ++ [Done]) x = (Stopped, events l, x').
Proof.
  intros Hb Ha Hd. destruct (watched_changes (fun _ => True) (fun _ => True) filename l x) as (n & x' & _ & _ & H); try done.
  by exists n, x'.
Qed.

(** Where symbolic links lead, when that does not change. *)
Definition resolves_to (resolve : bytes -> option bytes) : Prop := forall name x,
  exists r x', EvalSymlinks name x = (r, x') /\
    match resolve name with Some t => r = Ok t | None => exists e, r = Err e end.
Definition about_target (resolve : bytes -> option bytes) (filename : bytes) (e : fs_event) : bool :=
  negb (has_op (ev_Op e) Remove_op) &&
  match resolve filename, resolve (ev_Name e) with Some t, Some n => bool_decide (n = t) | _, _ => false end.

(** An event is not about the file, or it is. *)
Lemma link_verdict resolve filename e x : resolves_to resolve -> has_op (ev_Op e) Remove_op = false ->
  exists r x', same_target EvalSymlinks filename (ev_Name e) x = (r, x') /\ (forall why, r <> Panic why) /\
    about_target resolve filename e = match r with Ok b => b | _ => false end.
Proof.
  intros Hr Eop. unfold same_target, about_target, bind. rewrite Eop. cbn [negb andb].
  destruct (Hr filename x) as (r1 & x1 & -> & H1). destruct (resolve filename) as [t|]; [subst r1|destruct H1 as [err ->]; eauto].
  destruct (Hr (ev_Name e) x1) as (r2 & x2 & -> & H2). destruct (resolve (ev_Name e)) as [n|]; [subst r2|destruct H2 as [err ->]; eauto].
  by eexists _, x2.
Qed.

(** Behind a symbolic link the action is run for the events whose name leads
    to the file the link leads to, and for no other; in particular not when
    another link on the way to the file is replaced, as a mounted volume does. *)
Theorem linked_changes_are_acted_on resolve filename (l : list selected) x :
  returning (Dir filename) -> harmless action -> resolves_to resolve -> Done ∉ l ->
  exists n x', forall m, (n <= m)%nat ->
    link_loop m filename (l ++ [Done]) x = (Stopped, List.filter (about_target resolve filename) (events l), x').
Proof.
  intros Hb Ha Hr. revert x. induction l as [|s l IH]; intros x Hd; [by exists O, x|].
  apply not_elem_of_cons in Hd as [Hs Hd]. destruct s as [|e|err]; [done| |by apply IH].
  destruct (resume_back (Dir filename) (ev_Op e) x Hb) as (n1 & x1 & H1).
  change (events (Event e :: l)) with (e :: events l). cbn [List.filter].
  assert (forall x2, (forall m, (n1 <= m)%nat -> link_loop m filename (Event e :: l ++ [Done]) x = link_loop m filename (l ++ [Done]) x2) ->
            exists n x', forall m, (n <= m)%nat -> link_loop m filename (Event e :: l ++ [Done]) x =
              (Stopped, List.filter (about_target resolve filename) (events l), x')) as Hskip.
  { intros x2 H2. destruct (IH x2 Hd) as (n2 & x3 & H3). exists (max n1 n2), x3. intros m Hm. by rewrite H2, H3 by lia. }
  destruct (has_op (ev_Op e) Remove_op) eqn:Eop.
  { unfold about_target at 1. rewrite Eop. apply (Hskip x1). intros m Hm. cbn [Watcher.watchLink_loop]. by rewrite H1, Eop by lia. }
  destruct (link_verdict resolve filename e x1 Hr Eop) as (r & x2 & E2 & Hp & ->). destruct r as [[]|err|why].
  - destruct (harmless_runs x2 Ha) as (r & x3 & E & Hpa). destruct (IH x3 Hd) as (n2 & x4 & H4).
    exists (max n1 n2), x4. intros m Hm. cbn [app Watcher.watchLink_loop]. rewrite H1 by lia.
    rewrite Eop, E2, E, (H4 m) by lia. destruct r as [a|e0|why]; [done|done|by destruct (Hpa why)].
  - apply (Hskip x2). intros m Hm. cbn [Watcher.watchLink_loop]. by rewrite H1, Eop, E2 by lia.
  - apply (Hskip x2). intros m Hm. cbn [Watcher.watchLink_loop]. by rewrite H1, Eop, E2 by lia.
  - by destruct (Hp why).
Qed.
End watcher.

(** ** Example: a file that is back after some polls *)

(** The state counts down the polls until the file is there, and the runs of the action. *)
Definition gone := (nat * nat)%type.
Definition example_Stat (_ : bytes) : M gone unit := fun s =>
  match fst s with O => (Ok tt, s) | S n => (Err (ExternalError ($"no such file")), s) end.
Definition example_Add (_ : bytes) : M gone unit := ret tt.
Definition example_Remove (_ : bytes) : M gone unit := fun s => (Ok tt, (3%nat, snd s)).
Definition example_Sleep (s : gone) : gone := (pred (fst s), snd s).
Definition example_action : M gone unit := modify (fun s => (fst s, S (snd s))).
Definition example_events : list selected :=
  [Event {| ev_Name := $"creds.json"; ev_Op := 2 |}; WatchError ErrClosed; Event {| ev_Name := $"creds.json"; ev_Op := 4 |}].

Lemma example_comes_back filename : Watcher.comes_back example_Stat example_Add example_Sleep filename.
Proof.
  intros [n k]. revert k. induction n as [|n IH]; intros k; [by exists 1%nat, (O, k)|].
  destruct (IH k) as (m & x' & H). by exists (S m), x'.
Qed.

Lemma watched_changes_are_acted_on_witness :
  exists n x', forall m, (n <= m)%nat ->
    Watcher.watchFile_loop example_Stat example_Add example_Remove example_Sleep example_action m ($"creds.json")
      (example_events ++ [Done]) (O, O) = (Stopped, events example_events, x').
Proof.
  apply (watched_changes_are_acted_on example_Stat example_Add example_Remove example_Sleep example_action).
  - apply example_comes_back.
  - done.
  - by intros [?|[?|[?|?%not_elem_of_nil]%elem_of_cons]%elem_of_cons]%elem_of_cons.
Defined.

(** A mounted secret: [token] leads through the link [..data] to a directory of
    its version. *)
Definition mounted (name : bytes) : option bytes :=
  if bool_decide (name = $"/etc/secret/token") then Some ($"/etc/secret/..v2/token")
  else if bool_decide (name = $"/etc/secret/..data") then Some ($"/etc/secret/..v2") else Some name.
Definition update_events : list selected :=
  [Event {| ev_Name := $"/etc/secret/..v2"; ev_Op := 1 |}; Event {| ev_Name := $"/etc/secret/..data"; ev_Op := 1 |};
   Event {| ev_Name := $"/etc/secret/..v1"; ev_Op := 4 |}].

Lemma linked_changes_are_acted_on_witness :
  exists n x', forall m, (n <= m)%nat ->
    Watcher.watchLink_loop example_Stat (fun name => lift (from_option Ok (Err ErrClosed) (mounted name)))
      example_Add example_Remove example_Sleep (fun _ => $"/etc/secret") example_action m ($"/etc/secret/token")
      (update_events ++ [Done]) (O, O) = (Stopped, [], x').
Proof.
  apply (linked_changes_are_acted_on example_Stat (fun name => lift (from_option Ok (Err ErrClosed) (mounted name)))
           example_Add example_Remove example_Sleep (fun _ => $"/etc/secret") example_action mounted).
  - apply example_comes_back.
  - done.
  - intros name x. eexists _, x. split; [reflexivity|]. destruct (mounted name); [done|by eexists].
  - by intros [?|[?|[?|?%not_elem_of_nil]%elem_of_cons]%elem_of_cons]%elem_of_cons.
Defined.
