(* ===== verification/TokenSources.v ===== *)
(** What the token providers share: HTTP exchanges, and the refresher that
    fetches a new token when the present one is about to end
    (pkg/libs/oidc-provider and pkg/libs/googleid-provider, ticker.go and
    plugin.go); then the provider of Google. *)
From Stdlib Require Import ZArith Lia Strings.Byte.
From stdpp Require Import base list strings gmap.
From S2P Require Import Prelude GoLib GoStrings TokenInfo TokenProvider NetUrl.

Local Open Scope Z_scope.

(** A method of the world next to another state. *)
Definition beside {S X A} (m : M X A) : M (S * X) A := fun s => let '(r, x) := m (snd s) in (r, (fst s, x)).

(** ** HTTP *)

Record httpRequest := { req_Method : bytes; req_URL : bytes; req_ContentType : bytes; req_Body : bytes }.
(** A response with the outcome of reading its body. *)
Record httpResponse := { StatusCode : Z; ReadBody : res bytes }.

(** [c < 200 || c > 299] *)
Definition not_ok (resp : httpResponse) : bool := (StatusCode resp <? 200) || (299 <? StatusCode resp).

(** ** Refreshing *)

Section refresh.
Context `{JwtJson} {W : Type}.
(** [backoff.Retry] with its policy. *)
Context (Retry : forall A, M W A -> M W A).

Definition tryRefresh (GetIDToken : M W bytes) : M (option Token * W) unit := fun s =>
  match Retry _ (newToken GetIDToken) (snd s) with
  | (Ok t, w) => (Ok tt, (Some t, w))
  | (Err e, w) => (Err e, (fst s, w))
  | (Panic why, w) => (Panic why, (fst s, w))
  end.
(** An error is logged. *)
Definition refreshTick (GetIDToken : M W bytes) (unix : Z) : M (option Token * W) unit := fun s =>
  if renewEarliest unix (getCurrentClaimSet (fst s)) then
    match tryRefresh GetIDToken s with (Err _, s') => (Ok tt, s') | r => r end
  else (Ok tt, s).

(** The loop on the ticks and the stop it selects; a panic ends it. *)
Inductive refresher_event := Tick (unix : Z) | Stop.
Fixpoint refreshLoop (GetIDToken : M W bytes) (l : list refresher_event) (s : option Token * W) : option Token * W :=
  match l with
  | [] | Stop :: _ => s
  | Tick unix :: l' =>
      match refreshTick GetIDToken unix s with
      | (Panic _, s') => s'
      | (_, s') => refreshLoop GetIDToken l' s'
      end
  end.
End refresh.

(** ** Google

    Google's token provider: the sources that fetch ID tokens
    (pkg/libs/googleid/service_account.go, user_account.go) and the construction
    of the provider with the reloading of its credentials
    (pkg/libs/googleid-provider/plugin.go).

    Files, the clock and HTTP exchanges are methods on [X]; keys, their
    encodings, JSON and the oauth2 library are parameters. *)

Module Google.
Section google.
Context {X Key : Type}.
Context (ReadFile : bytes -> M X bytes) (unix_now : M X Z) (http_Do : httpRequest -> M X httpResponse).

(** [google.JWTConfigFromJSON] *)
Record jwtConfig := { conf_Email : bytes; conf_PrivateKey : bytes; conf_PrivateKeyID : bytes }.
Context (JWTConfigFromJSON : bytes -> res jwtConfig).
(** Private keys; [None] is a key that is not an RSA key. *)
Context (pem_Decode : bytes -> option bytes) (ParsePKCS8PrivateKey : bytes -> res (option Key)) (ParsePKCS1PrivateKey : bytes -> res Key).

Definition tokenEndpoint : bytes := $"https://www.googleapis.com/oauth2/v4/token".

Record ServiceAccountTokenSource := {
  header_KeyID : bytes; email : bytes; target_audience : bytes; privateKey : Key
}.
(** [jws.ClaimSet] with the private claim. *)
Record jwsClaims := { c_Iss : bytes; c_Iat : Z; c_Exp : Z; c_Aud : bytes; c_target_audience : bytes }.
Context (jws_Encode : bytes -> jwsClaims -> Key -> res bytes).
(** [json.Unmarshal] into a struct with the field id_token. *)
Context (json_id_token : bytes -> res bytes).

Definition parseKey (key : bytes) : res Key :=
  let key := default key (pem_Decode key) in
  match ParsePKCS8PrivateKey key with
  | Ok (Some k) => Ok k
  | Ok None => Err (Errorf "private key is invalid")
  | Panic w => Panic w
  | Err _ =>
      match ParsePKCS1PrivateKey key with
      | Ok k => Ok k
      | Panic w => Panic w
      | Err _ => Err (Errorf "private key should be a PEM or plain PKSC1 or PKCS8; parse error: %v")
      end
  end.

Definition NewServiceAccountTokenSource (credentialsFile targetAudience : bytes) : M X ServiceAccountTokenSource :=
  let* data := ReadFile credentialsFile in
  let* conf := lift (JWTConfigFromJSON data) in
  let* parsed := lift (parseKey (conf_PrivateKey conf)) in
  ret {| header_KeyID := conf_PrivateKeyID conf; email := conf_Email conf;
         target_audience := targetAudience; privateKey := parsed |}.

Definition jwt_bearer : bytes := $"urn:ietf:params:oauth:grant-type:jwt-bearer".
Definition exchange_form (token : bytes) : Values :=
  Values_Add ($"assertion") token (Values_Set ($"grant_type") jwt_bearer ∅).
Definition doExchange (token : bytes) : M X bytes :=
  let* resp := http_Do {| req_Method := $"POST"; req_URL := tokenEndpoint;
                          req_ContentType := $"application/x-www-form-urlencoded";
                          req_Body := Values_Encode (exchange_form token) |} in
  let* body := lift (ReadBody resp) in
  if not_ok resp then fail (Errorf "cannot fetch id_token: %v\nResponse: %s") else ret body.

Definition ServiceAccount_GetIDToken (s : ServiceAccountTokenSource) : M X bytes :=
  let* iat := unix_now in
  let payload := {| c_Iss := email s; c_Iat := iat; c_Exp := iat + 3600; c_Aud := tokenEndpoint;
                    c_target_audience := target_audience s |} in
  let* token := lift (jws_Encode (header_KeyID s) payload (privateKey s)) in
  let* body := doExchange token in
  let* IDToken := lift (json_id_token body) in
  if bool_decide (IDToken = []) then fail (Errorf "id_token is missing") else ret IDToken.

(** [google.DefaultTokenSource(...)] with its [Token()]; the extra field
    id_token is absent, a string, or another value. *)
Inductive extra := NoExtra | StringExtra (s : bytes) | OtherExtra.
Context (DefaultTokenSource_Token : M X extra).
Definition AuthorizedUser_GetIDToken : M X bytes :=
  let* id_token := DefaultTokenSource_Token in
  match id_token with
  | NoExtra => fail (Errorf "id_token is missing")
  | StringExtra s => ret s
  | OtherExtra => panic "interface conversion"
  end.

(** ** The provider *)

Inductive idTokenSource := AuthorizedUserSource | ServiceAccountSource (source : ServiceAccountTokenSource).

(** [GetIDToken] on the cell of the source. *)
Definition source_GetIDToken : M (idTokenSource * X) bytes := fun s =>
  match fst s with
  | AuthorizedUserSource => beside AuthorizedUser_GetIDToken s
  | ServiceAccountSource source => beside (ServiceAccount_GetIDToken source) s
  end.

Definition setServiceAccountTokenSource (source : ServiceAccountTokenSource) : M (idTokenSource * X) unit :=
  modify (fun s => (ServiceAccountSource source, snd s)).

(** The action on a change of the credentials; its errors are logged. *)
Definition reload (credentialsFile targetAudience : bytes) : M (idTokenSource * X) unit := fun s =>
  match beside (NewServiceAccountTokenSource credentialsFile targetAudience) s with
  | (Ok newConfig, s') => setServiceAccountTokenSource newConfig s'
  | (Err _, s') => (Ok tt, s')
  | (Panic w, s') => (Panic w, s')
  end.

Record TokenProviderOptions := {
  Timeout : Z; Adc : bool; CredentialsWatch : bool; CredentialsFile : bytes; TargetAudience : bytes
}.

Context `{JwtJson}.
Context (Setenv : bytes -> bytes -> M X unit) (WatchForUpdates : bytes -> M X unit).
Context (Retry : forall S, M S unit -> M S unit).

Definition newSource (o : TokenProviderOptions) : M X idTokenSource :=
  if Adc o then ret AuthorizedUserSource
  else
    let* source := wrapf (NewServiceAccountTokenSource (CredentialsFile o) (TargetAudience o))
                         "creation of service account source failed" in
    do* (if CredentialsWatch o then wrapf (WatchForUpdates (CredentialsFile o)) "cannot watch credentials file" else ret tt) in
    ret (ServiceAccountSource source).

(** The methods of the provider are those of the OIDC provider, in a copy, on
    the cell of this source. *)
Definition google_GetToken (unix : Z) : M (option Token * (idTokenSource * X)) (bool * Z * bytes) :=
  TokenProvider.GetToken source_GetIDToken unix.
Definition google_initToken (unix : Z) : M (option Token * (idTokenSource * X)) unit :=
  let* r := google_GetToken unix in
  let '(Success, Status, _) := r in
  if negb Success then fail (Errorf "get token failed with status: %d") else ret tt.
Definition google_newToken : M (idTokenSource * X) Token := TokenProvider.newToken source_GetIDToken.

(** The refresher: [RetryToken] is [backoff.Retry] for a new token. *)
Context (RetryToken : forall A, M (idTokenSource * X) A -> M (idTokenSource * X) A).
Definition google_tryRefresh : M (option Token * (idTokenSource * X)) unit := fun s =>
  match RetryToken _ google_newToken (snd s) with
  | (Ok t, w) => (Ok tt, (Some t, w))
  | (Err e, w) => (Err e, (fst s, w))
  | (Panic why, w) => (Panic why, (fst s, w))
  end.
Definition google_refreshTick (unix : Z) : M (option Token * (idTokenSource * X)) unit := fun s =>
  if renewEarliest unix (getCurrentClaimSet (fst s)) then
    match google_tryRefresh s with (Err _, s') => (Ok tt, s') | r => r end
  else (Ok tt, s).
Fixpoint google_refreshLoop (l : list refresher_event) (s : option Token * (idTokenSource * X)) : option Token * (idTokenSource * X) :=
  match l with
  | [] | Stop :: _ => s
  | Tick unix :: l' => match google_refreshTick unix s with (Panic _, s') => s' | (_, s') => google_refreshLoop l' s' end
  end.

(** The provider's token and source when the refresher starts; [unix] is the
    time of the initial call. *)
Definition NewTokenProvider (unix : Z) (o : TokenProviderOptions) : M X (option Token * idTokenSource) :=
  do* Setenv ($"GOOGLE_APPLICATION_CREDENTIALS") (CredentialsFile o) in
  if negb (Adc o) && bool_decide (TargetAudience o = []) then fail (Errorf "parameter target-audience is required")
  else
    let* source := newSource o in
    fun x =>
      match wrapf (Retry _ (google_initToken unix)) "getting of initial google-id-token failed" (None, (source, x)) with
      | (Ok _, (token, (source, x))) => (Ok (token, source), x)
      | (Err e, (_, (_, x))) => (Err e, x)
      | (Panic w, (_, (_, x))) => (Panic w, x)
      end.

(** A copy: its loop is the shared one on its source. *)
Lemma refreshLoop_shared l s : google_refreshLoop l s = TokenSources.refreshLoop RetryToken source_GetIDToken l s.
Proof.
  revert s. induction l as [|[unix|] l IH]; intros s; [done| |done]. cbn [google_refreshLoop TokenSources.refreshLoop].
  change (google_refreshTick unix s) with (TokenSources.refreshTick RetryToken source_GetIDToken unix s).
  by destruct (TokenSources.refreshTick RetryToken source_GetIDToken unix s) as [[] s'].
Qed.
End google.
Arguments idTokenSource : clear implicits.
Arguments ServiceAccountTokenSource : clear implicits.
End Google.
