(* ===== verification/OidcTokens.v ===== *)
(** The OIDC token provider: its two sources (pkg/libs/oidc/service_account.go,
    password_grant.go) and its construction with the reloading of its
    credentials (pkg/libs/oidc-provider/plugin.go).

    Files are methods on [X]; JSON and the oauth2 library are parameters. *)
From Stdlib Require Import ZArith Lia Strings.Byte.
From stdpp Require Import base list strings gmap.
From S2P Require Import Prelude GoLib GoStrings NetUrl TokenInfo TokenProvider TokenSources.
Local Open Scope Z_scope.

Module Oidc.
Section oidc.
Context {X : Type}.
Context (ReadFile : bytes -> M X bytes).

(** The credentials in the file; a password grant has a user as well. *)
Record ServiceAccountTokenSource := { ClientID : bytes; ClientSecret : bytes; TokenURL : bytes; Scopes : list bytes }.
Record PasswordGrantTokenSource := { grant : ServiceAccountTokenSource; Username : bytes; Password : bytes }.
Context (json_GrantType : bytes -> res bytes).
Context (json_ServiceAccount : bytes -> res ServiceAccountTokenSource) (json_PasswordGrant : bytes -> res PasswordGrantTokenSource).
(** [Token] and [PasswordCredentialsToken] of the oauth2 library: the access token. *)
Context (clientcredentials_Token : ServiceAccountTokenSource -> M X bytes).
Context (PasswordCredentialsToken : ServiceAccountTokenSource -> bytes -> bytes -> M X bytes).

Definition NewServiceAccountTokenSource (credentialsFile : bytes) : M X ServiceAccountTokenSource :=
  let* data := ReadFile credentialsFile in lift (json_ServiceAccount data).
Definition NewPasswordGrantTokenSource (credentialsFile : bytes) : M X PasswordGrantTokenSource :=
  let* data := ReadFile credentialsFile in lift (json_PasswordGrant data).

Definition access_token (token : bytes) : M X bytes :=
  if bool_decide (token = []) then fail (Errorf "oidc access_token is missing") else ret token.
Definition ServiceAccount_GetIDToken (s : ServiceAccountTokenSource) : M X bytes :=
  let* token := clientcredentials_Token s in access_token token.
Definition PasswordGrant_GetIDToken (s : PasswordGrantTokenSource) : M X bytes :=
  let* token := PasswordCredentialsToken (grant s) (Username s) (Password s) in access_token token.

Inductive idTokenSource := ServiceAccountSource (s : ServiceAccountTokenSource) | PasswordGrantSource (s : PasswordGrantTokenSource).

(** The file is read once for the kind of grant and once for the credentials. *)
Definition getTokenSource (credentialsFilePath : bytes) : M X idTokenSource :=
  let* data := ReadFile credentialsFilePath in
  let* grantType := lift (json_GrantType data) in
  if bool_decide (grantType = $"password") then
    let* s := wrapf (NewPasswordGrantTokenSource credentialsFilePath) "creation of password grant source failed" in
    ret (PasswordGrantSource s)
  else
    let* s := wrapf (NewServiceAccountTokenSource credentialsFilePath) "creation of service account source failed" in
    ret (ServiceAccountSource s).

(** ** The provider *)

(** The variable [idTokenSource] of [NewTokenProvider], which its closure
    assigns, and the field of the provider, which has a copy. *)
Record sources := { variable : option idTokenSource; field : idTokenSource }.

Definition source_GetIDToken : M (sources * X) bytes := fun s =>
  match field (fst s) with
  | ServiceAccountSource source => beside (ServiceAccount_GetIDToken source) s
  | PasswordGrantSource source => beside (PasswordGrant_GetIDToken source) s
  end.

(** The action on a change of the credentials: an error assigns nil. *)
Definition reload (credentialsFile : bytes) : M (sources * X) unit := fun s =>
  let assign v : sources := {| variable := v; field := field (fst s) |} in
  match getTokenSource credentialsFile (snd s) with
  | (Ok source, x) => (Ok tt, (assign (Some source), x))
  | (Err _, x) => (Ok tt, (assign None, x))
  | (Panic w, x) => (Panic w, (fst s, x))
  end.

Record TokenProviderOptions := { Timeout : Z; CredentialsWatch : bool; CredentialsFile : bytes; TargetAudience : bytes }.

Context `{JwtJson}.
Context (Setenv : bytes -> bytes -> M X unit) (WatchForUpdates : bytes -> M X unit).
Context (Retry : forall S, M S unit -> M S unit).

Definition NewTokenProvider (unix : Z) (o : TokenProviderOptions) : M X (option Token * sources) :=
  do* Setenv ($"OIDC_CREDENTIALS") (CredentialsFile o) in
  let* source := getTokenSource (CredentialsFile o) in
  do* (if CredentialsWatch o then wrapf (WatchForUpdates (CredentialsFile o)) "cannot watch credentials file" else ret tt) in
  fun x =>
    match wrapf (Retry _ (initToken source_GetIDToken unix)) "getting of initial oidc token failed"
            (None, ({| variable := Some source; field := source |}, x)) with
    | (Ok _, (token, (s, x))) => (Ok (token, s), x)
    | (Err e, (_, (_, x))) => (Err e, x)
    | (Panic w, (_, (_, x))) => (Panic w, x)
    end.
End oidc.
End Oidc.
