(* ===== verification/TokenSourcesTheorems.v ===== *)
(** The providers of tokens: how they start, and what becomes of new
    credentials. *)
From Stdlib Require Import ZArith Lia Strings.Byte.
From stdpp Require Import base list strings gmap.
From S2P Require Import Prelude GoLib GoStrings TokenInfo TokenProvider NetUrl Watcher TokenSources OidcTokens.

Local Open Scope Z_scope.

(** ** Start *)

(** What [backoff.Retry] returns nil for: a run of the operation that succeeded,
    after runs that did not. *)
Definition retries (Retry : forall S, M S unit -> M S unit) : Prop :=
  forall S (P : S -> Prop) (op : M S unit) s s', P s -> (forall s, P s -> P (snd (op s))) ->
    Retry S op s = (Ok tt, s') -> exists s1, P s1 /\ op s1 = (Ok tt, s').

Section start.
Context `{JwtJson}.

Definition parsed (t : option Token) : Prop := match t with Some t => ParseJWT (Raw t) = Ok t | None => True end.

Lemma GetToken_parsed {W} (GetIDToken : M W bytes) unix s : parsed (fst s) -> parsed (fst (snd (GetToken GetIDToken unix s))).
Proof.
  destruct s as [t w]. unfold GetToken. intros Ht. destruct (negb _); [done|]. destruct (GetIDToken w) as [[token|e|why] w']; [|done..].
  destruct (ParseJWT token) as [t'|e|why] eqn:E; [|done..]. cbn. by rewrite (ParseJWT_Raw token t' E).
Qed.

Lemma initToken_state {W} (GetIDToken : M W bytes) unix s : snd (initToken GetIDToken unix s) = snd (GetToken GetIDToken unix s).
Proof. unfold initToken, bind. destruct (GetToken GetIDToken unix s) as [[[[b st] tk]|e|why] s']; [by destruct b|done..]. Qed.

(** The initial call succeeds with a token. *)
Lemma initToken_Ok {W} (GetIDToken : M W bytes) unix s s' :
  parsed (fst s) -> initToken GetIDToken unix s = (Ok tt, s') -> exists t, fst s' = Some t /\ ParseJWT (Raw t) = Ok t.
Proof.
  intros Hs E. pose proof (GetToken_parsed GetIDToken unix s Hs) as Hp.
  unfold initToken in E. apply bind_inv in E as ([[b st] tk] & s1 & Eg & E). rewrite Eg in Hp.
  destruct b; [|done]. unfold ret in E. cbn [negb] in E. injection E as ->. cbn [snd] in Hp.
  destruct (fst s') as [t|] eqn:Et; [by exists t|]. exfalso.
  destruct s as [t w]. unfold GetToken, getTokenResponse in Eg. destruct (negb _) eqn:Eb.
  - injection Eg as _ _ <-. cbn in Et. by subst t.
  - destruct (GetIDToken w) as [[token|e|why] w']; [|done..].
    destruct (ParseJWT token) as [t'|e|why]; [by injection Eg as _ _ <-|done..].
Qed.

Lemma retried_initToken {W} (Retry : forall S, M S unit -> M S unit) (GetIDToken : M W bytes) unix w s' format :
  retries Retry -> wrapf (Retry _ (initToken GetIDToken unix)) format (None, w) = (Ok tt, s') ->
  exists t, fst s' = Some t /\ ParseJWT (Raw t) = Ok t.
Proof.
  intros Hr E%wrapf_Ok. destruct (Hr _ (fun s => parsed (fst s)) (initToken GetIDToken unix) (None, w) s') as (s1 & Hp & E1).
  - done.
  - intros s Hs. rewrite initToken_state. by apply GetToken_parsed.
  - done.
  - by eapply initToken_Ok.
Qed.
End start.

Section providers.
Context `{JwtJson} {X Key : Type}.
Context (ReadFile : bytes -> M X bytes) (unix_now : M X Z) (http_Do : httpRequest -> M X httpResponse).
Context (JWTConfigFromJSON : bytes -> res Google.jwtConfig).
Context (pem_Decode : bytes -> option bytes) (ParsePKCS8PrivateKey : bytes -> res (option Key)) (ParsePKCS1PrivateKey : bytes -> res Key).
Context (jws_Encode : bytes -> Google.jwsClaims -> Key -> res bytes) (json_id_token : bytes -> res bytes).
Context (DefaultTokenSource_Token : M X Google.extra).
Context (json_GrantType : bytes -> res bytes).
Context (json_ServiceAccount : bytes -> res Oidc.ServiceAccountTokenSource) (json_PasswordGrant : bytes -> res Oidc.PasswordGrantTokenSource).
Context (clientcredentials_Token : Oidc.ServiceAccountTokenSource -> M X bytes).
Context (PasswordCredentialsToken : Oidc.ServiceAccountTokenSource -> bytes -> bytes -> M X bytes).
Context (Setenv : bytes -> bytes -> M X unit) (WatchForUpdates : bytes -> M X unit).
Context (Retry : forall S, M S unit -> M S unit).

Abbreviation google_NewTokenProvider :=
  (Google.NewTokenProvider ReadFile unix_now http_Do JWTConfigFromJSON pem_Decode ParsePKCS8PrivateKey ParsePKCS1PrivateKey
     jws_Encode json_id_token DefaultTokenSource_Token Setenv WatchForUpdates Retry).
Abbreviation oidc_NewTokenProvider :=
  (Oidc.NewTokenProvider ReadFile json_GrantType json_ServiceAccount json_PasswordGrant clientcredentials_Token
     PasswordCredentialsToken Setenv WatchForUpdates Retry).

(** A provider that was created has a token that parses, and fetches with the
    credentials of its options: Google's the application's own, or those of the
    file for the target audience, which is then not empty. *)
Theorem created_providers_have_a_token unix (go : Google.TokenProviderOptions) (oo : Oidc.TokenProviderOptions) x :
  retries Retry ->
  (forall token source x', google_NewTokenProvider unix go x = (Ok (token, source), x') ->
     (exists t, token = Some t /\ ParseJWT (Raw t) = Ok t) /\
     (Google.Adc go = true \/ Google.TargetAudience go <> [])) /\
  (forall token s x', oidc_NewTokenProvider unix oo x = (Ok (token, s), x') ->
     exists t, token = Some t /\ ParseJWT (Raw t) = Ok t).
Proof.
  intros Hr. split.
  - intros token source x' E. unfold Google.NewTokenProvider in E. apply bind_inv in E as (? & x1 & _ & E).
    destruct (negb (Google.Adc go) && bool_decide (Google.TargetAudience go = [])) eqn:Ea; [done|].
    apply bind_inv in E as (src & x2 & _ & E). split.
    + destruct (wrapf _ _ _) as [[[]|e|why] [tk [s y]]] eqn:Ew in E; [|done..]. injection E as <- <- <-.
      by apply retried_initToken in Ew.
    + destruct (Google.Adc go); [by left|]. right. by apply bool_decide_eq_false in Ea.
  - intros token s x' E. unfold Oidc.NewTokenProvider in E. apply bind_inv in E as (? & x1 & _ & E).
    apply bind_inv in E as (src & x2 & _ & E). apply bind_inv in E as (? & x3 & _ & E).
    destruct (wrapf _ _ _) as [[[]|e|why] [tk [s0 y]]] eqn:Ew in E; [|done..]. injection E as <- <- <-.
    by apply retried_initToken in Ew.
Qed.
End providers.

(** ** Reloading *)

Section beside.
Context {S X : Type} (Stat : bytes -> M X unit) (watcher_Add watcher_Remove : bytes -> M X unit) (Sleep : X -> X).

Definition sleep_beside (s : S * X) : S * X := (fst s, Sleep (snd s)).
Abbreviation lifted m := (fun name => beside (S := S) (m name)).

Lemma wait_loop_beside n filename s :
  wait_loop (lifted Stat) (lifted watcher_Add) sleep_beside n filename s =
  pair (fst s) <$> wait_loop Stat watcher_Add Sleep n filename (snd s).
Proof.
  revert s. induction n as [|n IH]; intros [s x]; [done|]. cbn [wait_loop]. unfold beside at 1. cbn [fst snd].
  destruct (Stat filename x) as [[] x1]; [|apply IH..].
  unfold beside. cbn [fst snd]. destruct (watcher_Add filename x1) as [[] x2]; [done|apply IH..].
Qed.

Lemma comes_back_beside filename :
  comes_back Stat watcher_Add Sleep filename -> comes_back (lifted Stat) (lifted watcher_Add) sleep_beside filename.
Proof.
  intros Hb [s x]. destruct (Hb x) as (n & x' & H). exists n, (s, x'). rewrite wait_loop_beside. cbn [snd fst]. by rewrite H.
Qed.

(** Waiting leaves the state beside the file system. *)
Lemma resume_beside n filename op s s' :
  resume (lifted Stat) (lifted watcher_Add) (lifted watcher_Remove) sleep_beside n filename op s = Some s' -> fst s' = fst s.
Proof.
  unfold resume, waitForReplacement. destruct (interrupts op); [|by intros [= ->]].
  rewrite wait_loop_beside. intros H.
  assert (fst (if has_op op Chmod_op then sleep_beside (snd (beside (watcher_Remove filename) s))
               else snd (beside (watcher_Remove filename) s)) = fst s) as E
    by (unfold beside; destruct (watcher_Remove filename (snd s)); by destruct (has_op op Chmod_op)).
  destruct (wait_loop _ _ _ _ _ _); [|done]. injection H as <-. exact E.
Qed.
End beside.

Section reload.
Context `{JwtJson} {X Key : Type}.
Context (Stat : bytes -> M X unit) (watcher_Add watcher_Remove : bytes -> M X unit) (Sleep : X -> X).
Context (ReadFile : bytes -> M X bytes).
Context (JWTConfigFromJSON : bytes -> res Google.jwtConfig).
Context (pem_Decode : bytes -> option bytes) (ParsePKCS8PrivateKey : bytes -> res (option Key)) (ParsePKCS1PrivateKey : bytes -> res Key).
Context (json_GrantType : bytes -> res bytes).
Context (json_ServiceAccount : bytes -> res Oidc.ServiceAccountTokenSource) (json_PasswordGrant : bytes -> res Oidc.PasswordGrantTokenSource).

Abbreviation google_new := (Google.NewServiceAccountTokenSource ReadFile JWTConfigFromJSON pem_Decode ParsePKCS8PrivateKey ParsePKCS1PrivateKey).
Abbreviation google_reload := (Google.reload ReadFile JWTConfigFromJSON pem_Decode ParsePKCS8PrivateKey ParsePKCS1PrivateKey).
Abbreviation oidc_new := (Oidc.getTokenSource ReadFile json_GrantType json_ServiceAccount json_PasswordGrant).
Abbreviation oidc_reload := (Oidc.reload ReadFile json_GrantType json_ServiceAccount json_PasswordGrant).
Abbreviation watch action := (watchFile_loop (fun n => beside (Stat n)) (fun n => beside (watcher_Add n))
  (fun n => beside (watcher_Remove n)) (sleep_beside Sleep) action).

(** New credentials reach Google's provider and not the OIDC provider.  When
    the file of the credentials changes and from then on holds good credentials,
    the watcher runs every reload; afterwards the source of Google's provider
    has the new credentials, and that of the OIDC provider still the old ones,
    since the reload only assigned the variable. *)
Theorem new_credentials_reach_google_only filename audience new source (l : list selected)
    (old : Google.idTokenSource Key) (s : Oidc.sources) x :
  comes_back Stat watcher_Add Sleep filename -> Done ∉ l -> events l <> [] ->
  (forall x, exists x', google_new filename audience x = (Ok new, x')) ->
  (forall x, exists x', oidc_new filename x = (Ok source, x')) ->
  exists n x1 x2, forall m, (n <= m)%nat ->
    watch (google_reload filename audience) m filename (l ++ [Done]) (old, x) =
      (Stopped, events l, (Google.ServiceAccountSource new, x1)) /\
    watch (oidc_reload filename) m filename (l ++ [Done]) (s, x) =
      (Stopped, events l, ({| Oidc.variable := Some source; Oidc.field := Oidc.field s |}, x2)).
Proof.
  intros Hb Hd Hne Hg Ho.
  assert (forall y, exists x', google_reload filename audience y = (Ok tt, (Google.ServiceAccountSource new, x'))) as Ag.
  { intros [o y]. unfold Google.reload, beside. cbn [fst snd]. destruct (Hg y) as [y' ->]. by exists y'. }
  assert (forall y, exists x', oidc_reload filename y = (Ok tt, ({| Oidc.variable := Some source; Oidc.field := Oidc.field (fst y) |}, x'))) as Ao.
  { intros [o y]. unfold Oidc.reload. cbn [fst snd]. destruct (Ho y) as [y' ->]. by exists y'. }
  destruct (watched_changes (fun n => beside (Stat n)) (fun n => beside (watcher_Add n)) (fun n => beside (watcher_Remove n))
              (sleep_beside Sleep) (google_reload filename audience)
              (fun _ => True) (fun s => fst s = Google.ServiceAccountSource new) filename l (old, x))
    as (n1 & [o1 x1] & _ & R1 & H1); try done.
  { by apply comes_back_beside. }
  { intros y why E. destruct (Ag y) as [x' Ey]. by rewrite Ey in E. }
  { intros m op y y' E _. split; [done|]. by rewrite (resume_beside _ _ _ _ _ _ _ _ _ E). }
  { intros y _. split; [done|]. by destruct (Ag y) as [x' ->]. }
  destruct (watched_changes (fun n => beside (Stat n)) (fun n => beside (watcher_Add n)) (fun n => beside (watcher_Remove n))
              (sleep_beside Sleep) (oidc_reload filename)
              (fun y => Oidc.field (fst y) = Oidc.field s) (fun y => Oidc.variable (fst y) = Some source) filename l (s, x))
    as (n2 & [o2 x2] & I2 & R2 & H2); try done.
  { by apply comes_back_beside. }
  { intros y why E. destruct (Ao y) as [x' Ey]. by rewrite Ey in E. }
  { intros m op y y' E. by rewrite (resume_beside _ _ _ _ _ _ _ _ _ E). }
  { intros y Hy. by destruct (Ao y) as [x' ->]. }
  cbn [fst] in R1, R2, I2. rewrite R1 in H1 by by right.
  destruct o2 as [v f]. cbn in I2. rewrite <- I2. cbn in R2. rewrite R2 in H2 by by right.
  exists (max n1 n2), x1, x2. intros m Hm. by rewrite H1, H2 by lia.
Qed.
End reload.

(** ** Examples *)

Section examples.
#[local] Existing Instance toy_json.

(** The world is the content of the credentials file and the polls until it is back. *)
Definition toy_world := (bytes * nat)%type.
Definition toy_Stat (_ : bytes) : M toy_world unit := fun s =>
  match snd s with O => (Ok tt, s) | S _ => (Err (ExternalError ($"no such file")), s) end.
Definition toy_Sleep (s : toy_world) : toy_world := (fst s, pred (snd s)).
Definition toy_Remove (_ : bytes) : M toy_world unit := fun s => (Ok tt, (fst s, 2%nat)).
Definition toy_ReadFile (_ : bytes) : M toy_world bytes := fun s => (Ok (fst s), s).
Definition toy_conf (data : bytes) : res Google.jwtConfig :=
  Ok {| Google.conf_Email := $"proxy@project"; Google.conf_PrivateKey := data; Google.conf_PrivateKeyID := $"7" |}.
Definition toy_PKCS8 (b : bytes) : res (option bytes) := Ok (Some b).
Definition toy_account (data : bytes) : res Oidc.ServiceAccountTokenSource :=
  Ok {| Oidc.ClientID := $"proxy"; Oidc.ClientSecret := data; Oidc.TokenURL := $"https://idp/token"; Oidc.Scopes := [] |}.
Definition toy_token : bytes := jwt_text toy_header toy_claims ($"c2ln").
Definition once : forall S, M S unit -> M S unit := fun S op => op.

Lemma once_retries : retries once.
Proof. intros S P op s s' Hs _ E. by exists s. Qed.

Definition toy_google_options : Google.TokenProviderOptions :=
  {| Google.Timeout := 10; Google.Adc := false; Google.CredentialsWatch := true; Google.CredentialsFile := $"creds.json";
     Google.TargetAudience := $"tcp://gateway" |}.
Definition toy_google : M toy_world (option Token * Google.idTokenSource bytes) :=
  Google.NewTokenProvider toy_ReadFile (ret 1000) (fun _ => ret {| StatusCode := 200; ReadBody := Ok toy_token |}) toy_conf
    (fun _ => None) toy_PKCS8 (fun b => Ok b) (fun _ _ _ => Ok ($"assertion")) Ok (ret Google.NoExtra)
    (fun _ _ => ret tt) (fun _ => ret tt) once 1000 toy_google_options.
Definition toy_oidc_options : Oidc.TokenProviderOptions :=
  {| Oidc.Timeout := 10; Oidc.CredentialsWatch := true; Oidc.CredentialsFile := $"creds.json"; Oidc.TargetAudience := [] |}.
Definition toy_grant (data : bytes) : res Oidc.PasswordGrantTokenSource := Err (Errorf "no user").

(** The example's provider is created, and so has a token. *)
Lemma created_providers_have_a_token_witness :
  exists source x', toy_google ($"secret-1", O) = (Ok (Some {| Raw := toy_token;
      Token_Header := {| Algorithm := $"RS256"; KeyID := $"1" |};
      Token_ClaimSet := {| Iss := $"accounts.google.com"; Aud := $"kafka"; Sub := $"alice"; Email := $"alice@example.com";
                           Exp := 2000; Iat := 1000 |} |}, source), x') /\
    (Google.Adc toy_google_options = true \/ Google.TargetAudience toy_google_options <> []).
Proof.
  eexists _, _. split; [vm_compute; reflexivity|].
  refine (proj2 (proj1 (created_providers_have_a_token toy_ReadFile (ret 1000)
    (fun _ => ret {| StatusCode := 200; ReadBody := Ok toy_token |}) toy_conf
    (fun _ => None) toy_PKCS8 (fun b => Ok b) (fun _ _ _ => Ok ($"assertion")) Ok (ret Google.NoExtra)
    (fun _ => Ok []) toy_account toy_grant (fun _ => ret toy_token) (fun _ _ _ => ret toy_token)
    (fun _ _ => ret tt) (fun _ => ret tt) once 1000 toy_google_options toy_oidc_options ($"secret-1", O) once_retries)
    _ _ _ _)); vm_compute; reflexivity.
Defined.

Definition toy_events : list selected :=
  [Event {| ev_Name := $"creds.json"; ev_Op := 4 |}; Event {| ev_Name := $"creds.json"; ev_Op := 2 |}].
Definition old_source : Oidc.ServiceAccountTokenSource :=
  {| Oidc.ClientID := $"proxy"; Oidc.ClientSecret := $"secret-1"; Oidc.TokenURL := $"https://idp/token"; Oidc.Scopes := [] |}.
(** The file holds new credentials whatever it is asked. *)
Definition toy_ReadNew (_ : bytes) : M toy_world bytes := ret ($"secret-2").

Lemma toy_comes_back filename : comes_back toy_Stat (fun _ => ret tt) toy_Sleep filename.
Proof.
  intros [b n]. revert b. induction n as [|n IH]; intros b; [by exists 1%nat, (b, O)|].
  destruct (IH b) as (m & x' & H). by exists (S m), x'.
Qed.

Lemma new_credentials_reach_google_only_witness :
  exists n x2, forall m, (n <= m)%nat ->
    fst (watchFile_loop (fun n => beside (toy_Stat n)) (fun n => beside (ret tt)) (fun n => beside (toy_Remove n))
      (sleep_beside toy_Sleep) (Google.reload toy_ReadNew toy_conf (fun _ => None) toy_PKCS8 (fun b => Ok b) ($"creds.json") ($"tcp://gateway"))
      m ($"creds.json") (toy_events ++ [Done]) (Google.AuthorizedUserSource, ($"secret-1", O))) = (Stopped, events toy_events) /\
    snd (watchFile_loop (fun n => beside (toy_Stat n)) (fun n => beside (ret tt)) (fun n => beside (toy_Remove n))
      (sleep_beside toy_Sleep) (Oidc.reload toy_ReadNew (fun _ => Ok []) toy_account toy_grant ($"creds.json"))
      m ($"creds.json") (toy_events ++ [Done])
      ({| Oidc.variable := Some (Oidc.ServiceAccountSource old_source); Oidc.field := Oidc.ServiceAccountSource old_source |}, ($"secret-1", O))) =
      ({| Oidc.variable := Some (Oidc.ServiceAccountSource
            {| Oidc.ClientID := $"proxy"; Oidc.ClientSecret := $"secret-2"; Oidc.TokenURL := $"https://idp/token"; Oidc.Scopes := [] |});
          Oidc.field := Oidc.ServiceAccountSource old_source |}, x2).
Proof.
  destruct (new_credentials_reach_google_only toy_Stat (fun _ => ret tt) toy_Remove toy_Sleep toy_ReadNew toy_conf (fun _ => None)
    toy_PKCS8 (fun b => Ok b) (fun _ => Ok []) toy_account toy_grant ($"creds.json") ($"tcp://gateway")
    {| Google.header_KeyID := $"7"; Google.email := $"proxy@project"; Google.target_audience := $"tcp://gateway"; Google.privateKey := $"secret-2" |}
    (Oidc.ServiceAccountSource {| Oidc.ClientID := $"proxy"; Oidc.ClientSecret := $"secret-2"; Oidc.TokenURL := $"https://idp/token"; Oidc.Scopes := [] |})
    toy_events Google.AuthorizedUserSource
    {| Oidc.variable := Some (Oidc.ServiceAccountSource old_source); Oidc.field := Oidc.ServiceAccountSource old_source |}
    ($"secret-1", O)) as (n & x1 & x2 & H).
  - apply toy_comes_back.
  - by intros [?|[?|?%not_elem_of_nil]%elem_of_cons]%elem_of_cons.
  - done.
  - intros x. by exists x.
  - intros x. by exists x.
  - exists n, x2. intros m Hm. destruct (H m Hm) as [E1 E2]. exact (conj (f_equal fst E1) (f_equal snd E2)).
Defined.
End examples.
