(* ===== verification/GoogleKeys.v ===== *)
(** The keys of Google's token verifier (pkg/libs/googleid/certs.go,
    pkg/libs/googleid-info/plugin.go and ticker.go): they are fetched and
    parsed when the verifier is created and by a refresher.

    HTTP, JSON and the compilation of patterns are parameters. *)
From Stdlib Require Import ZArith Lia Strings.Byte.
From stdpp Require Import base list strings gmap.
From S2P Require Import Prelude GoLib GoStrings Base64 TokenInfo NetUrl TokenSources.

Local Open Scope Z_scope.

(** [rsa.PublicKey] *)
Record rsaPublicKey := { rsa_N : Z; rsa_E : Z }.

Record Keys := { Kty : bytes; Alg : bytes; Use : bytes; Kid : bytes; N_ : bytes; E_ : bytes }.

(** [int(e.Uint64())]: the low 64 bits. *)
Definition GetPublicKey (key : Keys) : res rsaPublicKey :=
  let? n := RawURLDecodeString (N_ key) in
  let? e := RawURLDecodeString (E_ key) in
  Ok {| rsa_N := be_value n; rsa_E := int64 (wrapU 64 (be_value e)) |}.

Section keys.
Context {X : Type}.
Context (http_Do : httpRequest -> M X httpResponse).
(** [json.Unmarshal(body, &certs)]: a null leaves the pointer nil. *)
Context (json_Certs : bytes -> res (option (list Keys))).
Context (regexp_Compile : bytes -> res (bytes -> bool)).

Definition jwksUri : bytes := $"https://www.googleapis.com/oauth2/v3/certs".

Definition GetCerts : M X (option (list Keys)) :=
  let* resp := http_Do {| req_Method := $"GET"; req_URL := jwksUri; req_ContentType := []; req_Body := [] |} in
  let* body := lift (ReadBody resp) in
  if not_ok resp then fail (Errorf "cannot fetch certs: %v\nResponse: %s")
  else lift (json_Certs body).

Abbreviation verifier := (TokenInfo.TokenInfo (PublicKey := rsaPublicKey)).

Definition setPublicKeys (m : gmap bytes rsaPublicKey) (p : verifier) : verifier :=
  {| audience := audience p; emailRegex := emailRegex p; publicKeys := m |}.

(** [for _, key := range certs.Keys] *)
Fixpoint parse_keys (keys : list Keys) (m : gmap bytes rsaPublicKey) : res (gmap bytes rsaPublicKey) :=
  match keys with
  | [] => Ok m
  | key :: keys' =>
      match GetPublicKey key with
      | Ok publicKey => parse_keys keys' (<[Kid key := publicKey]> m)
      | Err _ => Err (Errorf "cannot parse public key: %v")
      | Panic w => Panic w
      end
  end.

Definition refreshCerts : M (verifier * X) unit :=
  let* certs := beside GetCerts in
  match certs with
  | None => panic "invalid memory address or nil pointer dereference"
  | Some keys =>
      if bool_decide (keys = []) then fail (Errorf "certs keys must not be empty")
      else
        let* m := lift (parse_keys keys ∅) in
        modify (fun s => (setPublicKeys m (fst s), snd s))
  end.

(** [backoff.Retry] with its policy. *)
Context (Retry : M (verifier * X) unit -> M (verifier * X) unit).

Record TokenInfoOptions := { Timeout : Z; CertsRefreshInterval : Z; Audience : list bytes; EmailsRegex : list bytes }.

Fixpoint compile_all (l : list bytes) : res (list (bytes -> bool)) :=
  match l with
  | [] => Ok []
  | emailRe :: l' =>
      match regexp_Compile emailRe with
      | Err e => Err (Wrapf e "cannot compile email regex %s: %v")
      | Panic w => Panic w
      | Ok re => let? rest := compile_all l' in Ok (re :: rest)
      end
  end.

Definition NewTokenInfo (options : TokenInfoOptions) : M X verifier := fun x =>
  match compile_all (EmailsRegex options) with
  | Err e => (Err e, x)
  | Panic w => (Panic w, x)
  | Ok emailRegex =>
      if bool_decide (length emailRegex = O) then (Err (Errorf "parameter email (regex) is required"), x)
      else
        let tokenInfo := {| audience := Audience options; emailRegex := emailRegex; publicKeys := ∅ |} in
        match wrapf (Retry refreshCerts) "getting of google certs failed" (tokenInfo, x) with
        | (Ok _, (p, x)) => (Ok p, x)
        | (Err e, (_, x)) => (Err e, x)
        | (Panic w, (_, x)) => (Panic w, x)
        end
  end.

(** An error is logged. *)
Definition certs_refreshTick : M (verifier * X) unit := fun s =>
  match Retry refreshCerts s with (Err _, s') => (Ok tt, s') | r => r end.
(** The loop on its ticks; a panic ends it. *)
Fixpoint certs_refreshLoop (ticks : nat) (s : verifier * X) : verifier * X :=
  match ticks with
  | O => s
  | S n => match certs_refreshTick s with (Panic _, s') => s' | (_, s') => certs_refreshLoop n s' end
  end.

(** ** Facts *)

(** The keys of a list of which all parse: of two with a name, the last. *)
Definition parses_to (keys : list Keys) (m : gmap bytes rsaPublicKey) : Prop :=
  (forall key, key ∈ keys -> exists pk, GetPublicKey key = Ok pk) /\
  forall kid pk, m !! kid = Some pk <->
    exists l1 key l2, keys = l1 ++ key :: l2 /\ Kid key = kid /\ GetPublicKey key = Ok pk /\ forall k, k ∈ l2 -> Kid k <> kid.

Lemma parse_keys_spec keys m0 m : parse_keys keys m0 = Ok m ->
  (forall key, key ∈ keys -> exists pk, GetPublicKey key = Ok pk) /\
  forall kid pk, m !! kid = Some pk <->
    (exists l1 key l2, keys = l1 ++ key :: l2 /\ Kid key = kid /\ GetPublicKey key = Ok pk /\ forall k, k ∈ l2 -> Kid k <> kid) \/
    (m0 !! kid = Some pk /\ forall k, k ∈ keys -> Kid k <> kid).
Proof.
  revert m0. induction keys as [|key keys IH]; intros m0 H; cbn [parse_keys] in H.
  - injection H as ->. split; [by intros ? ?%not_elem_of_nil|]. intros kid pk. split.
    + intros. right. split; [done|]. by intros ? ?%not_elem_of_nil.
    + intros [(l1 & ? & l2 & E & _)|[? _]]; [by destruct l1|done].
  - destruct (GetPublicKey key) as [pk0|e|w] eqn:Ek; [|done..]. destruct (IH _ H) as [Hall Hm]. split.
    { intros k [->|Hk]%elem_of_cons; [by exists pk0|by apply Hall]. }
    intros kid pk. rewrite Hm. setoid_rewrite elem_of_cons. split.
    + intros [(l1 & k & l2 & -> & Hk)|[Hl Hno]]; [left; by exists (key :: l1), k, l2|].
      destruct (decide (Kid key = kid)) as [<-|Hne].
      * rewrite lookup_insert_eq in Hl. injection Hl as <-. left. by exists [], key, keys.
      * rewrite lookup_insert_ne in Hl by done. right. split; [done|]. intros k [->|?]; auto.
    + intros [([|k1 l1] & k & l2 & E & Hkid & Hpk & Hno)|[Hl Hno]].
      * injection E as -> ->. right. subst kid. rewrite lookup_insert_eq. split; [congruence|done].
      * injection E as -> ->. left. by exists l1, k, l2.
      * right. rewrite lookup_insert_ne by (apply Hno; by left). split; [done|]. intros k ?. apply Hno. by right.
Qed.

(** A refresh fetches once, and leaves the keys or replaces them by those that
    were fetched. *)
Lemma refreshCerts_keys s r s' : refreshCerts s = (r, s') ->
  snd s' = snd (GetCerts (snd s)) /\
  audience (fst s') = audience (fst s) /\ emailRegex (fst s') = emailRegex (fst s) /\
  match r with
  | Ok _ => exists keys, fst (GetCerts (snd s)) = Ok (Some keys) /\ keys <> [] /\ parses_to keys (publicKeys (fst s'))
  | _ => fst s' = fst s
  end.
Proof.
  unfold refreshCerts, beside, bind. destruct s as [p x]. cbn [fst snd].
  destruct (GetCerts x) as [[[keys|]|e|w] x1]; [|intros [= <- <-]; by split_and!..].
  destruct (bool_decide_reflect (keys = [])) as [->|Hne]; [intros [= <- <-]; by split_and!|].
  unfold lift. destruct (parse_keys keys ∅) as [m|e|w] eqn:E; [|intros [= <- <-]; by split_and!..].
  intros [= <- <-]. cbn. split_and!; [done..|]. exists keys. split_and!; [done..|].
  destruct (parse_keys_spec keys ∅ m E) as [Hall Hm]. split; [done|]. intros kid pk. rewrite Hm.
  split; [intros [?|[Hl _]]; [done|by rewrite lookup_empty in Hl]|by left].
Qed.
End keys.

(** ** Theorems

    The verifier of Google's tokens always has keys that were published. *)

Local Open Scope Z_scope.

Section keys.
Context {X : Type}.
Context (http_Do : httpRequest -> M X httpResponse) (json_Certs : bytes -> res (option (list Keys))).
Context (regexp_Compile : bytes -> res (bytes -> bool)).
Abbreviation verifier := (TokenInfo.TokenInfo (PublicKey := rsaPublicKey)).
Abbreviation refresh := (refreshCerts http_Do json_Certs).
Abbreviation refresh_loop := (certs_refreshLoop http_Do json_Certs).
Context (Retry : M (verifier * X) unit -> M (verifier * X) unit).

(** What [backoff.Retry] does is runs of the operation, of which the last
    succeeded where nil is returned. *)
Definition runs_of_operation : Prop :=
  forall (P : verifier * X -> Prop) op s r s', P s -> (forall s, P s -> P (snd (op s))) -> Retry op s = (r, s') ->
    P s' /\ (r = Ok tt -> exists s1, P s1 /\ op s1 = (Ok tt, s')).

(** What is outside after some fetches from [x] on. *)
Inductive fetched_from (x : X) : X -> Prop :=
  | fetched_none : fetched_from x x
  | fetched_more y : fetched_from x y -> fetched_from x (snd (GetCerts http_Do json_Certs y)).

(** The keys are exactly those of a list that one of these fetches returned. *)
Definition published (x : X) (p : verifier) : Prop :=
  exists y keys y', fetched_from x y /\ GetCerts http_Do json_Certs y = (Ok (Some keys), y') /\
    keys <> [] /\ parses_to keys (publicKeys p).
Definition configured (o : TokenInfoOptions) (p : verifier) : Prop := audience p = Audience o /\ emailRegex p <> [].

(** What every run of the operation keeps. *)
Definition creating (o : TokenInfoOptions) (x : X) (s : verifier * X) : Prop :=
  fetched_from x (snd s) /\ configured o (fst s).
Definition serving (o : TokenInfoOptions) (x : X) (s : verifier * X) : Prop :=
  creating o x s /\ published x (fst s).

Lemma refresh_keeps o x s : creating o x s -> creating o x (snd (refresh s)).
Proof.
  intros [Hf [Ha He]]. destruct (refresh s) as [r s'] eqn:E. apply refreshCerts_keys in E as (Ex & E1 & E2 & _).
  cbn [snd]. split; [rewrite Ex; by constructor|]. split; congruence.
Qed.
Lemma refresh_publishes o x s s' : creating o x s -> refresh s = (Ok tt, s') -> serving o x s'.
Proof.
  intros Hs E. split; [pose proof (refresh_keeps o x s Hs) as H; by rewrite E in H|].
  apply refreshCerts_keys in E as (_ & _ & _ & keys & Hg & Hne & Hk). destruct Hs as [Hf _].
  exists (snd s), keys, (snd (GetCerts http_Do json_Certs (snd s))). split_and!; try done.
  by rewrite <- Hg, <- surjective_pairing.
Qed.
Lemma refresh_keeps_serving o x s : serving o x s -> serving o x (snd (refresh s)).
Proof.
  intros [Hc Hp]. destruct (refresh s) as [r s'] eqn:E. cbn [snd]. destruct r as [[]|e|w]; [by eapply refresh_publishes|..];
    (split; [pose proof (refresh_keeps o x s Hc) as H; by rewrite E in H|]);
    apply refreshCerts_keys in E as (_ & _ & _ & Hs); by rewrite Hs.
Qed.

Lemma compile_all_length l l' : compile_all regexp_Compile l = Ok l' -> length l' = length l.
Proof.
  revert l'. induction l as [|re l IH]; intros l' E; cbn [compile_all] in E; [by injection E as <-|].
  destruct (regexp_Compile re); [|done..]. destruct (compile_all regexp_Compile l); [|done..]. injection E as <-.
  cbn. f_equal. by apply IH.
Qed.

(** C30: From its creation on and through every round of its refresher, failed and
    panicking ones included, the verifier has exactly the keys of one non-empty
    list that a fetch since then returned, all of which parsed, and of two
    with the same name the last; its audience is the one of the options, and it
    has a pattern of e-mails. *)
Theorem verifier_has_published_keys (o : TokenInfoOptions) x p x' n :
  runs_of_operation ->
  NewTokenInfo http_Do json_Certs regexp_Compile Retry o x = (Ok p, x') ->
  let p' := fst (refresh_loop Retry n (p, x')) in published x p' /\ configured o p'.
Proof.
  intros Hretry H. cut (serving o x (refresh_loop Retry n (p, x'))); [by intros [[_ ?] ?]|].
  assert (serving o x (p, x')) as Hs.
  { unfold NewTokenInfo in H. destruct (compile_all regexp_Compile (EmailsRegex o)) as [l|e|w]; [|done..].
    destruct (bool_decide_reflect (length l = O)) as [|Hl]; [done|].
    set (p0 := {| audience := Audience o; emailRegex := l; publicKeys := ∅ |}) in H.
    destruct (wrapf _ _ _) as [[[]|e|w] [p1 x1]] eqn:E; [|done..]. injection H as -> ->. apply wrapf_Ok in E.
    assert (creating o x (p0, x)) as H0 by (split; [constructor|]; split; [done|by destruct l]).
    destruct (Hretry (creating o x) _ (p0, x) _ _ H0 (refresh_keeps o x) E) as [_ Hlast].
    destruct (Hlast eq_refl) as (s1 & Hs1 & E1). by eapply refresh_publishes. }
  clear H. revert p x' Hs. induction n as [|n IH]; intros p x' Hs; [done|].
  cbn [GoogleKeys.certs_refreshLoop]. unfold certs_refreshTick.
  destruct (Retry refresh (p, x')) as [r [p1 x1]] eqn:E.
  destruct (Hretry (serving o x) _ (p, x') _ _ Hs (refresh_keeps_serving o x) E) as [Hp1 _].
  destruct r; [by apply IH|by apply IH|done].
Qed.
End keys.

(** ** Example *)

Definition example_key : Keys :=
  {| Kty := $"RSA"; Alg := $"RS256"; Use := $"sig"; Kid := $"k1"; N_ := $"xjk"; E_ := $"AQAB" |}.
(** The world counts the requests; every second list of keys is bad. *)
Definition example_Do (_ : httpRequest) : M nat httpResponse := fun n =>
  (Ok {| StatusCode := 200; ReadBody := Ok (if Nat.even n then $"[k1]" else $"null") |}, S n).
Definition example_Certs (body : bytes) : res (option (list Keys)) :=
  Ok (if bool_decide (body = $"null") then None else Some [example_key]).
Definition example_options : TokenInfoOptions :=
  {| Timeout := 10; CertsRefreshInterval := 3600; Audience := [$"kafka"]; EmailsRegex := [$".*@example.com"] |}.
Definition example_verifier : TokenInfo.TokenInfo :=
  {| audience := [$"kafka"]; emailRegex := [fun _ => true];
     publicKeys := {[$"k1" := {| rsa_N := 50745; rsa_E := 65537 |}]} |}.

Lemma verifier_has_published_keys_witness :
  let p := fst (certs_refreshLoop example_Do example_Certs id 3%nat (example_verifier, 1%nat)) in
  published example_Do example_Certs O p /\ configured example_options p.
Proof.
  apply (verifier_has_published_keys example_Do example_Certs (fun _ => Ok (fun _ => true)) id example_options O example_verifier 1%nat 3%nat).
  - intros P op s r s' Hs Hop E. unfold id in E. split; [specialize (Hop s Hs); by rewrite E in Hop|].
    intros ->. exists s. by split.
  - reflexivity.
Defined.
