(* ===== verification/ClientRun.v ===== *)
(** A client from its first connection to its shutdown ([Client.Run] and
    [Client.Close] of proxy/client.go, with the counters and the gauge of
    proxy/collector.go), as a step relation.

    A step is a point where a goroutine touches what the goroutines share: the
    channels of [Run], the connection set, the counter.  [Client.handleConn] is
    what one goroutine does in between. *)
From Stdlib Require Import ZArith Lia Strings.Byte.
From stdpp Require Import base list strings gmap gmultiset.
From S2P Require Import Prelude GoLib ConnSet.

(** Where [handleConn] is with a connection.  [Refused] and [Failed] have closed
    it; a panic, which [withRecover] ends, leaves it as it was. *)
Inductive phase :=
  | Handshaking | Refused | Dialing | Failed | Copying | Finished
  | PanickedEarly     (* before it was counted *)
  | PanickedDialing | PanickedCopying.
#[export] Instance phase_eq_dec : EqDecision phase.
Proof. solve_decision. Defined.

(** Connections are numbered; [closed] are those [ConnSet.Close] closed. *)
Record client := {
  conns : ConnSet nat;
  status : gmap nat (bytes * phase);
  proxyConnectionsTotal : gmap bytes Z;
  stopRun : bool;            (* the channel is closed *)
  stopped : bool;            (* [Run] returned *)
  closed : gset nat
}.
Definition new_client : client :=
  {| conns := NewConnSet; status := ∅; proxyConnectionsTotal := ∅; stopRun := false; stopped := false; closed := ∅ |}.

Definition set_status (n : nat) (b : bytes) (p : phase) (s : client) : client :=
  {| conns := conns s; status := <[n := (b, p)]> (status s); proxyConnectionsTotal := proxyConnectionsTotal s;
     stopRun := stopRun s; stopped := stopped s; closed := closed s |}.
Definition set_conns (c : ConnSet nat) (s : client) : client :=
  {| conns := c; status := status s; proxyConnectionsTotal := proxyConnectionsTotal s;
     stopRun := stopRun s; stopped := stopped s; closed := closed s |}.
(** [proxyConnectionsTotal.WithLabelValues(broker).Inc()] *)
Definition Inc (b : bytes) (s : client) : client :=
  {| conns := conns s; status := status s;
     proxyConnectionsTotal := <[b := default 0 (proxyConnectionsTotal s !! b) + 1]> (proxyConnectionsTotal s);
     stopRun := stopRun s; stopped := stopped s; closed := closed s |}.
(** [Client.Close] *)
Definition Client_Close (s : client) : client :=
  {| conns := conns s; status := status s; proxyConnectionsTotal := proxyConnectionsTotal s;
     stopRun := true; stopped := stopped s; closed := closed s |}.
(** What [Run] does after it left its loop. *)
Definition Run_end (s : client) : client :=
  {| conns := conns s; status := status s; proxyConnectionsTotal := proxyConnectionsTotal s;
     stopRun := stopRun s; stopped := true; closed := closed s ∪ list_to_set (Conns (IDs (conns s)) (conns s)) |}.

(** [proxyCollector.Collect]: the gauge of each broker. *)
Definition Collect (s : client) : gmap bytes Z := Count (conns s).

Inductive client_step (s : client) : client -> Prop :=
  (* Run: a connection of connSrc; select may take it although stopRun is closed *)
  | c_accepted n b : stopped s = false -> status s !! n = None -> client_step s (set_status n b Handshaking s)
  | c_refused n b : status s !! n = Some (b, Handshaking) -> client_step s (set_status n b Refused s)
  | c_counted n b : status s !! n = Some (b, Handshaking) -> client_step s (Inc b (set_status n b Dialing s))
  | c_failed n b : status s !! n = Some (b, Dialing) -> client_step s (set_status n b Failed s)
  | c_added n b : status s !! n = Some (b, Dialing) ->
      client_step s (set_conns (snd (Add b n (conns s))) (set_status n b Copying s))
  | c_removed n b : status s !! n = Some (b, Copying) ->
      client_step s (set_conns (snd (Remove b n (conns s))) (set_status n b Finished s))
  | c_panicked n b p p' : status s !! n = Some (b, p) ->
      (p, p') ∈ [(Handshaking, PanickedEarly); (Dialing, PanickedDialing); (Copying, PanickedCopying)] ->
      client_step s (set_status n b p' s)
  | c_close : client_step s (Client_Close s)
  | c_stopped : stopRun s = true -> stopped s = false -> client_step s (Run_end s).

Inductive client_reachable : client -> Prop :=
  | client_start : client_reachable new_client
  | client_next s s' : client_reachable s -> client_step s s' -> client_reachable s'.

(** ** Connections in some phases *)

Definition in_phase (Q : phase -> bool) (st : gmap nat (bytes * phase)) (b : bytes) : gset nat :=
  dom (filter (fun kv => kv.2.1 = b /\ Q kv.2.2 = true) st).

Lemma elem_of_in_phase Q st b n : n ∈ in_phase Q st b <-> exists p, st !! n = Some (b, p) /\ Q p = true.
Proof.
  unfold in_phase. rewrite elem_of_dom. split.
  - intros [[b' p] [H [E Hp]]%map_lookup_filter_Some]. cbn in *. subst b'. by exists p.
  - intros (p & H & Hp). exists (b, p). by apply map_lookup_filter_Some.
Qed.

Lemma in_phase_insert Q st n b p b' :
  in_phase Q (<[n := (b, p)]> st) b' =
  if decide (b' = b /\ Q p = true) then {[n]} ∪ in_phase Q st b' else in_phase Q st b' ∖ {[n]}.
Proof.
  apply set_eq. intros m. rewrite elem_of_in_phase. destruct (decide (m = n)) as [->|Hm].
  - rewrite lookup_insert_eq. destruct (decide _) as [[-> Hq]|Hn].
    + split; [set_solver|]. intros _. by exists p.
    + split; [|set_solver]. intros (p' & [= <- <-] & Hq). by destruct Hn.
  - rewrite lookup_insert_ne by done. rewrite <- elem_of_in_phase. destruct (decide _); set_solver.
Qed.

(** A change of phase that [Q] does not see. *)
Lemma in_phase_same Q st n b p p' b' :
  st !! n = Some (b, p) -> Q p = Q p' -> in_phase Q (<[n := (b, p')]> st) b' = in_phase Q st b'.
Proof.
  intros Hn E. rewrite in_phase_insert. apply set_eq. intros m. pose proof (elem_of_in_phase Q st b' m) as Hm.
  destruct (decide (m = n)) as [->|Hne]; [|destruct (decide _); set_solver]. rewrite Hn in Hm.
  destruct (decide _) as [[-> Hq]|Hno].
  - split; [|set_solver]. intros _. apply Hm. exists p. by rewrite E.
  - split; [set_solver|]. intros (p0 & [= <- <-] & Hq)%Hm. rewrite E in Hq. by destruct Hno.
Qed.
Lemma in_phase_fresh Q st n b p b' : st !! n = None -> Q p = false -> in_phase Q (<[n := (b, p)]> st) b' = in_phase Q st b'.
Proof.
  intros Hn E. rewrite in_phase_insert, decide_False by (rewrite E; naive_solver). apply set_eq. intros m.
  pose proof (elem_of_in_phase Q st b' m). destruct (decide (m = n)) as [->|]; [|set_solver]. rewrite Hn in H. set_solver.
Qed.

(** The connections of a set as a multiset. *)
Definition of_set (X : gset nat) : gmultiset nat := list_to_set_disj (elements X).
Lemma of_set_add X n : n ∉ X -> of_set ({[n]} ∪ X) = of_set X ⊎ {[+ n +]}.
Proof.
  intros Hn. unfold of_set. rewrite (list_to_set_disj_perm _ _ (elements_union_singleton X n Hn)). simpl. multiset_solver.
Qed.
Lemma of_set_remove X n : n ∈ X -> of_set (X ∖ {[n]}) = of_set X ∖ {[+ n +]}.
Proof.
  intros Hn. assert (X = {[n]} ∪ X ∖ {[n]}) as E by (apply set_eq; intros m; destruct (decide (m = n)); set_solver).
  rewrite E at 2. rewrite of_set_add by set_solver. multiset_solver.
Qed.
Lemma size_list_to_set_disj (l : list nat) : size (list_to_set_disj l : gmultiset nat) = length l.
Proof.
  induction l as [|n l IH]; [apply gmultiset_size_empty|].
  rewrite list_to_set_disj_cons, gmultiset_size_disj_union, gmultiset_size_singleton, IH. done.
Qed.
Lemma size_of_set X : size (of_set X) = size X.
Proof. unfold of_set. by rewrite size_list_to_set_disj. Qed.

(** ** The invariant *)

(** In the connection set; counted as created. *)
Definition in_set (p : phase) : bool := match p with Copying | PanickedCopying => true | _ => false end.
Definition counted (p : phase) : bool := match p with Handshaking | Refused | PanickedEarly => false | _ => true end.

Record accounted (s : client) : Prop := {
  acc_wf : wf (conns s);
  acc_set : forall b, pairs (conns s) b = of_set (in_phase in_set (status s) b);
  acc_total : forall b, default 0 (proxyConnectionsTotal s !! b) = Z.of_nat (size (in_phase counted (status s) b))
}.

Lemma accounted_new : accounted new_client.
Proof.
  split; [apply wf_New|..]; intros b; unfold in_phase; cbn; rewrite map_filter_empty, dom_empty_L; [done|].
  by rewrite lookup_empty, size_empty.
Qed.

(** A change of phase between phases that are alike for set and counter. *)
Lemma accounted_moved s n b p p' : accounted s -> status s !! n = Some (b, p) ->
  in_set p = in_set p' -> counted p = counted p' -> accounted (set_status n b p' s).
Proof.
  intros [Hw Hs Ht] Hn E1 E2. split; [done|..]; intros b'; cbn; by rewrite (in_phase_same _ _ _ _ _ _ _ Hn) by done.
Qed.

Lemma accounted_accepted s n b : accounted s -> status s !! n = None -> accounted (set_status n b Handshaking s).
Proof. intros [Hw Hs Ht] Hn. split; [done|..]; intros b'; cbn; by rewrite in_phase_fresh. Qed.

Lemma accounted_counted s n b : accounted s -> status s !! n = Some (b, Handshaking) -> accounted (Inc b (set_status n b Dialing s)).
Proof.
  intros [Hw Hs Ht] Hn. split; [done|..]; intros b'; cbn.
  - by rewrite (in_phase_same _ _ _ _ _ _ _ Hn).
  - assert (forall b', n ∉ in_phase counted (status s) b') as Hno
      by (intros b0 (p & Hp & Hq)%elem_of_in_phase; rewrite Hn in Hp; by injection Hp as <- <-).
    rewrite in_phase_insert. destruct (decide (b' = b)) as [->|Hb].
    + rewrite lookup_insert_eq, decide_True by done. cbn. rewrite Ht, size_union by set_solver. rewrite size_singleton. lia.
    + rewrite lookup_insert_ne, decide_False by naive_solver. rewrite Ht. do 2 f_equal.
      specialize (Hno b'). set_solver.
Qed.

Lemma accounted_added s n b : accounted s -> status s !! n = Some (b, Dialing) ->
  accounted (set_conns (snd (Add b n (conns s))) (set_status n b Copying s)).
Proof.
  intros [Hw Hs Ht] Hn. destruct (Add_spec b n (conns s)) as (c' & -> & Hw' & Hp & Ho). cbn [snd].
  split; [by apply Hw'|..]; intros b'; cbn.
  - assert (forall b', n ∉ in_phase in_set (status s) b') as Hno
      by (intros b0 (p & Hq & Hp')%elem_of_in_phase; rewrite Hn in Hq; by injection Hq as <- <-).
    rewrite in_phase_insert. destruct (decide (b' = b)) as [->|Hb].
    + rewrite decide_True by done. by rewrite Hp, Hs, of_set_add.
    + rewrite decide_False by naive_solver. unfold pairs. rewrite Ho by done. fold (pairs (conns s) b'). rewrite Hs. f_equal.
      specialize (Hno b'). set_solver.
  - by rewrite (in_phase_same _ _ _ _ _ _ _ Hn).
Qed.

Lemma accounted_removed s n b : accounted s -> status s !! n = Some (b, Copying) ->
  accounted (set_conns (snd (Remove b n (conns s))) (set_status n b Finished s)).
Proof.
  intros [Hw Hs Ht] Hn. pose proof (Remove_spec b n (conns s) Hw) as Hr.
  assert (n ∈ in_phase in_set (status s) b) as Hin by (apply elem_of_in_phase; by exists Copying).
  destruct (Remove b n (conns s)) as [[u|e|w] c']; cbn [snd]; [|exfalso|done].
  2: { destruct Hr as [Hr _]. apply Hr. rewrite Hs. unfold of_set. rewrite elem_of_list_to_set_disj. by apply elem_of_elements. }
  destruct Hr as (_ & Hw' & Hp & Ho). split; [done|..]; intros b'; cbn.
  - rewrite in_phase_insert, decide_False by naive_solver. destruct (decide (b' = b)) as [->|Hb].
    + by rewrite Hp, Hs, of_set_remove.
    + unfold pairs. rewrite Ho by done. fold (pairs (conns s) b'). rewrite Hs. f_equal.
      apply set_eq. intros m. destruct (decide (m = n)) as [->|]; [|set_solver]. split; [|set_solver].
      intros (p & E & _)%elem_of_in_phase. rewrite Hn in E. by injection E as <- <-.
  - by rewrite (in_phase_same _ _ _ _ _ _ _ Hn).
Qed.

Lemma accounted_step s s' : client_step s s' -> accounted s -> accounted s'.
Proof.
  destruct 1 as [n b Hst Hn|n b Hn|n b Hn|n b Hn|n b Hn|n b Hn|n b p p' Hn Hp| |Hst Hst']; intros A.
  - by apply accounted_accepted.
  - by eapply accounted_moved.
  - by apply accounted_counted.
  - by eapply accounted_moved.
  - by apply accounted_added.
  - by apply accounted_removed.
  - eapply accounted_moved; [done|exact Hn|..];
      by repeat (apply elem_of_cons in Hp as [[= -> ->]|Hp]; [done|]); apply not_elem_of_nil in Hp.
  - by destruct A.
  - by destruct A.
Qed.

Lemma reachable_accounted s : client_reachable s -> accounted s.
Proof. induction 1; [apply accounted_new|by eapply accounted_step]. Qed.

(** ** Theorems

    The metrics of a client account for its connections, and what its shutdown
    closes. *)

(** C25: In every state of a client, whatever the order in which connections
    come, are refused, fail, are copied, end and panic, the gauge of a broker is
    the number of its connections that are copied or whose copying panicked,
    with no gauge at zero; and its counter is the number of those that passed the
    check of their certificate, whatever became of them. *)
Theorem metrics_account_for_connections s : client_reachable s -> forall b,
  Collect s !! b =
    (let k := size (in_phase in_set (status s) b) in if bool_decide (k = O) then None else Some (Z.of_nat k)) /\
  default 0 (proxyConnectionsTotal s !! b) = Z.of_nat (size (in_phase counted (status s) b)).
Proof.
  intros [Hw Hs Ht]%reachable_accounted b. split; [|apply Ht].
  assert (length (conns_of (conns s) b) = size (in_phase in_set (status s) b)) as El.
  { rewrite <- size_of_set, <- Hs. unfold pairs. by rewrite size_list_to_set_disj. }
  unfold Collect, Count. rewrite lookup_fmap. cbv zeta. rewrite <- El. unfold conns_of.
  destruct (conns s !! b) as [l|] eqn:E; [|done]. cbn. rewrite bool_decide_eq_false_2; [done|].
  apply (Hw b) in E. by destruct l.
Qed.

(** Nothing closes a connection that was dialed while the client stopped: it is
    in the set, copied, and open. *)
Theorem shutdown_misses_dialing b : exists s, client_reachable s /\ stopped s = true /\
  status s !! 0%nat = Some (b, Copying) /\ closed s = ∅ /\ Collect s = {[b := 1]}.
Proof.
  set (s2 := Inc b (set_status 0%nat b Dialing (set_status 0%nat b Handshaking new_client))).
  assert (client_reachable s2) as R2.
  { eapply client_next; [eapply client_next; [apply client_start|by apply (c_accepted _ 0%nat b)]|].
    apply c_counted. cbn. by rewrite lookup_insert_eq. }
  assert (client_reachable (Run_end (Client_Close s2))) as R4
    by (eapply client_next; [eapply client_next; [exact R2|apply c_close]|by apply c_stopped]).
  eexists. split; [eapply client_next; [exact R4|apply (c_added _ 0%nat b)]; cbn; by rewrite lookup_insert_eq|].
  cbn. split_and!; [done|by rewrite lookup_insert_eq|done|]. apply map_eq. intros b'. unfold Collect, Count. cbn.
  unfold conns_of, NewConnSet. rewrite lookup_fmap.
  destruct (decide (b = b')) as [<-|Hb].
  - by rewrite lookup_insert_eq, lookup_empty, lookup_singleton_eq.
  - by rewrite lookup_insert_ne, lookup_empty, lookup_singleton_ne by done.
Qed.

Definition one_dialing : client :=
  Inc ($"b:9092") (set_status 0%nat ($"b:9092") Dialing (set_status 0%nat ($"b:9092") Handshaking new_client)).
Definition one_copied : client :=
  set_conns (snd (Add ($"b:9092") 0%nat (conns one_dialing))) (set_status 0%nat ($"b:9092") Copying one_dialing).

Lemma metrics_account_for_connections_witness :
  Collect one_copied !! $"b:9092" = Some 1 /\ default 0 (proxyConnectionsTotal one_copied !! $"b:9092") = 1.
Proof.
  apply (metrics_account_for_connections one_copied).
  set (s1 := set_status 0%nat ($"b:9092") Handshaking new_client).
  assert (client_reachable s1) as R1 by (eapply client_next; [apply client_start|by apply c_accepted]).
  assert (client_reachable (Inc ($"b:9092") (set_status 0%nat ($"b:9092") Dialing s1))) as R2
    by (eapply client_next; [exact R1|by apply c_counted]).
  apply (client_next one_dialing); [exact R2|]. by apply (c_added one_dialing 0%nat ($"b:9092")).
Defined.
