(* ===== verification/GoFlag.v ===== *)
(** Go's package flag, as the plugins use it: flags of four kinds, parsed from
    the arguments up to the first one that is no flag. *)
From Stdlib Require Import ZArith Lia Strings.Byte.
From stdpp Require Import base list strings gmap.
From S2P Require Import Prelude GoLib GoStrings.

(** [BoolVar], [StringVar], [IntVar], and [Var] of an array. *)
Inductive flag_kind := KBool | KString | KInt | KArray.
Abbreviation FlagSet := (gmap bytes flag_kind).
(** What was set, in the order of the arguments. *)
Abbreviation settings := (list (bytes * bytes)).

Definition hyphen : byte := "-"%byte.
Definition equals_byte : byte := "="%byte.

(** [strconv.ParseBool] *)
Definition ParseBool (s : bytes) : option bool :=
  if bool_decide (s ∈ [$"1"; $"t"; $"T"; $"true"; $"TRUE"; $"True"]) then Some true
  else if bool_decide (s ∈ [$"0"; $"f"; $"F"; $"false"; $"FALSE"; $"False"]) then Some false
  else None.

Section flags.
(** [strconv.ParseInt(s, 0, 64)] *)
Context (ParseInt : bytes -> option Z).

(** [value.Set(s)] accepts the text. *)
Definition settable (k : flag_kind) (v : bytes) : bool :=
  match k with
  | KBool => bool_decide (is_Some (ParseBool v))
  | KInt => bool_decide (is_Some (ParseInt v))
  | KString | KArray => true
  end.

Definition Set_ (k : flag_kind) (name v : bytes) (rest : res settings) : res settings :=
  if settable k v then let? l := rest in Ok ((name, v) :: l)
  else Err (Errorf "invalid value %q for flag -%s: %v").

(** The name of an argument and its value after an equals sign: [None] ends the
    flags, [Some None] is bad syntax. *)
Definition parse_arg (s : bytes) : option (option (bytes * option bytes)) :=
  match s with
  | b :: c :: _ =>
      if negb (bool_decide (b = hyphen)) then None
      else
        let name := if bool_decide (c = hyphen) then drop 2 s else drop 1 s in
        if bool_decide (s = [hyphen; hyphen]) then None
        else
          match name with
          | [] => Some None
          | n :: name' =>
              if bool_decide (n = hyphen) || bool_decide (n = equals_byte) then Some None
              else match IndexByte name equals_byte with
                   | Some i => Some (Some (take i name, Some (drop (S i) name)))
                   | None => Some (Some (name, None))
                   end
          end
  | _ => None
  end.

(** [FlagSet.Parse] *)
Fixpoint flag_Parse (fs : FlagSet) (arguments : list bytes) : res settings :=
  match arguments with
  | [] => Ok []
  | s :: args =>
      match parse_arg s with
      | None => Ok []
      | Some None => Err (Errorf "bad flag syntax: %s")
      | Some (Some (name, value)) =>
          match fs !! name with
          | None => Err (Errorf "flag provided but not defined: -%s")
          | Some KBool => Set_ KBool name (default ($"true") value) (flag_Parse fs args)
          | Some k =>
              match value, args with
              | Some v, _ => Set_ k name v (flag_Parse fs args)
              | None, v :: args' => Set_ k name v (flag_Parse fs args')
              | None, [] => Err (Errorf "flag needs an argument: -%s")
              end
          end
      end
  end.

(** What [Parse] has set when it returns, with an error or without. *)
Fixpoint Settled (fs : FlagSet) (arguments : list bytes) : settings :=
  match arguments with
  | [] => []
  | s :: args =>
      match parse_arg s with
      | Some (Some (name, value)) =>
          match fs !! name with
          | None => []
          | Some KBool =>
              let v := default ($"true") value in
              if settable KBool v then (name, v) :: Settled fs args else []
          | Some k =>
              match value, args with
              | Some v, _ => if settable k v then (name, v) :: Settled fs args else []
              | None, v :: args' => if settable k v then (name, v) :: Settled fs args' else []
              | None, [] => []
              end
          end
      | _ => []
      end
  end.

(** The variables after parsing. *)
Definition flag_values (l : settings) (name : bytes) : list bytes := snd <$> List.filter (fun nv => bool_decide (fst nv = name)) l.
Definition string_var (l : settings) (name value : bytes) : bytes := default value (last (flag_values l name)).
Definition bool_var (l : settings) (name : bytes) (value : bool) : bool :=
  default value (last (flag_values l name) ≫= ParseBool).
Definition int_var (l : settings) (name : bytes) (value : Z) : Z := default value (last (flag_values l name) ≫= ParseInt).

(** ** Printing *)

Definition print_setting (nv : bytes * bytes) : bytes := hyphen :: fst nv ++ [equals_byte] ++ snd nv.
Definition setting_ok (fs : FlagSet) (nv : bytes * bytes) : Prop :=
  equals_byte ∉ fst nv /\ (match fst nv with b :: _ => b <> hyphen | [] => False end) /\
  exists k, fs !! fst nv = Some k /\ settable k (snd nv) = true.

Lemma parse_arg_print fs nv : setting_ok fs nv -> parse_arg (print_setting nv) = Some (Some (fst nv, Some (snd nv))).
Proof.
  destruct nv as [[|b name] v]; cbn [fst snd]; intros (He & Hb & _); [done|]. unfold print_setting, parse_arg. cbn [fst snd app].
  rewrite bool_decide_eq_true_2 by done. cbn [negb].
  assert (b <> equals_byte) as Hne by (intros ->; apply He; by left).
  rewrite (bool_decide_eq_false_2 (b = hyphen)) by done. rewrite bool_decide_eq_false_2 by congruence.
  cbn [drop]. rewrite (bool_decide_eq_false_2 (b = hyphen)), (bool_decide_eq_false_2 (b = equals_byte)) by done. cbn [orb].
  change (b :: name ++ equals_byte :: v) with ((b :: name) ++ equals_byte :: v). rewrite IndexByte_app by done.
  rewrite take_app_length. do 4 f_equal. change (equals_byte :: v) with ([equals_byte] ++ v). rewrite app_assoc.
  by rewrite drop_app_length' by (rewrite length_app; simpl; lia).
Qed.

(** What is printed is parsed back. *)
Lemma Parse_print fs l : Forall (setting_ok fs) l -> flag_Parse fs (print_setting <$> l) = Ok l.
Proof.
  induction 1 as [|nv l Hnv _ IH]; [done|]. rewrite fmap_cons. cbn [flag_Parse]. rewrite (parse_arg_print fs nv Hnv).
  destruct Hnv as (_ & _ & k & -> & Hk). destruct nv as [name v]. cbn [fst snd from_option] in *. unfold Set_.
  destruct k; cbn [from_option]; unfold id; rewrite Hk, IH; done.
Qed.
End flags.
