(* ===== verification/PluginMains.v ===== *)
(** How the plugins start: their flags and what [main] serves
    (cmd/plugin-auth-user, plugin-auth-ldap, plugin-unsecured-jwt-info,
    plugin-unsecured-jwt-provider) and the factories of the built-in ones
    (pkg/libs/oidc-provider, googleid-provider, googleid-info, factory.go), of
    which the mains of the same plugins are a call.

    Files, certificates and the parsing of URLs and integers are parameters. *)
From Stdlib Require Import ZArith Lia Strings.Byte QArith.
From stdpp Require Import base list strings gmap.
From S2P Require Import Prelude GoLib GoStrings NetAddr LdapAuth TokenInfo TokenSources OidcTokens GoogleKeys GoFlag.

Local Open Scope Z_scope.

(** [os.Exit(1)], or [plugin.Serve] with an implementation. *)
Inductive started (A : Type) := Exit1 | Serve (Impl : A).
Arguments Exit1 {A}.
Arguments Serve {A} Impl.

Section mains.
Context (ParseInt : bytes -> option Z).
Abbreviation parse_flags := (flag_Parse ParseInt).

(** ** plugin-auth-user *)

Definition user_flagSet : FlagSet := list_to_map [($"username", KString); ($"password", KString)].

Definition user_main (SASL_PASSWORD : bytes) (args : list bytes) : started PasswordAuthenticator :=
  match parse_flags user_flagSet args with
  | Ok l =>
      let username := string_var l ($"username") [] in
      let password := string_var l ($"password") [] in
      let password := if bool_decide (password = []) then SASL_PASSWORD else password in
      if bool_decide (username = []) || bool_decide (password = []) then Exit1
      else Serve {| Username := username; Password := password |}
  | _ => Exit1
  end.

(** ** plugin-auth-ldap *)

Definition ldap_flagSet : FlagSet := list_to_map [
  ($"url", KString); ($"ldap-ca-cert-file", KString); ($"ldap-insecure-skip-verify", KBool); ($"start-tls", KBool);
  ($"upn-domain", KString); ($"user-dn", KString); ($"user-attr", KString); ($"search-ldap", KBool);
  ($"bind-dn", KString); ($"bind-passwd", KString); ($"user-search-base", KString); ($"user-filter", KString)].

(** [url.Parse]: the scheme. *)
Context (url_Scheme : bytes -> res bytes).

Fixpoint ldap_urls (urls : list bytes) : res (list bytes) :=
  match urls with
  | [] => Ok []
  | uut :: urls' =>
      let? scheme := url_Scheme uut in
      if bool_decide (scheme = $"ldap") || bool_decide (scheme = $"ldaps")
      then let? rest := ldap_urls urls' in Ok (uut :: rest)
      else Err (Errorf "invalid LDAP scheme in url %q")
  end.
Definition getUrls (url : bytes) : res (list bytes) :=
  let? result := ldap_urls (Split (","%byte) url) in
  if len result =? 0 then Err (Errorf "empty LDAP url list") else Ok result.

(** [tls.Config]: whether the peer is not verified, and the pool of its
    authorities, the system's when absent. *)
Context {Pool : Type} (ReadFile : bytes -> res bytes) (AppendCertsFromPEM : bytes -> option Pool).
Record tlsConfig := { InsecureSkipVerify : bool; RootCAs : option Pool }.
Definition getTlsConfig (caCertFile : bytes) (insecureSkipVerify : bool) : res tlsConfig :=
  if bool_decide (caCertFile = []) then Ok {| InsecureSkipVerify := insecureSkipVerify; RootCAs := None |}
  else
    match ReadFile caCertFile with
    | Err e => Err (Wrapf e "reading certificate file %s")
    | Panic w => Panic w
    | Ok certData =>
        match AppendCertsFromPEM certData with
        | None => Err (Errorf "could not parse certificate(s) in file %s")
        | Some certPool => Ok {| InsecureSkipVerify := false; RootCAs := Some certPool |}
        end
    end.

(** The parameters of a search are only warned about. *)
Definition ldap_main (args : list bytes) : started (LdapAuthenticator * tlsConfig) :=
  match parse_flags ldap_flagSet args with
  | Ok l =>
      let str name := string_var l name [] in
      let searchLDAP := bool_var l ($"search-ldap") false in
      let bindDN := str ($"bind-dn") in
      let upnDomain := str ($"upn-domain") in
      let userDN := str ($"user-dn") in
      let userAttr := string_var l ($"user-attr") ($"uid") in
      match getUrls (str ($"url")) with
      | Ok urls =>
          let refused :=
            if negb (bool_decide (bindDN = [])) || searchLDAP then false
            else if negb (bool_decide (upnDomain = [])) || negb (bool_decide (userDN = [])) then
              negb (bool_decide (userDN = [])) && bool_decide (userAttr = [])
            else true in
          if refused then Exit1
          else
            match getTlsConfig (str ($"ldap-ca-cert-file")) (bool_var l ($"ldap-insecure-skip-verify") false) with
            | Ok tlsConfig =>
                Serve ({| Urls := urls; StartTLS := bool_var l ($"start-tls") true; UPNDomain := upnDomain; UserDN := userDN;
                          UserAttr := userAttr; SearchLDAP := searchLDAP || negb (bool_decide (bindDN = [])); BindDN := bindDN;
                          BindPassword := str ($"bind-passwd"); UserSearchBase := str ($"user-search-base");
                          UserFilter := str ($"user-filter") |}, tlsConfig)
            | _ => Exit1
            end
      | _ => Exit1
      end
  | _ => Exit1
  end.

(** ** The unsecured plugins *)

Definition jwt_info_flagSet : FlagSet := list_to_map [($"claim-sub", KArray); ($"algorithm", KArray)].
(** The error of [Parse] is ignored: what was set before it stays. *)
Definition jwt_info_main (args : list bytes) : UnsecuredJWTVerifier :=
  let l := Settled ParseInt jwt_info_flagSet args in
  {| claimSub := flag_values l ($"claim-sub"); algorithm := flag_values l ($"algorithm") |}.

Definition jwt_provider_flagSet : FlagSet := {[$"claim-sub" := KString]}.
(** The subject that the provider puts into its tokens. *)
Definition jwt_provider_main (args : list bytes) : started bytes :=
  let l := Settled ParseInt jwt_provider_flagSet args in
  let claimSub := string_var l ($"claim-sub") [] in
  if bool_decide (claimSub = []) then Exit1 else Serve claimSub.

(** [encodeToken] with [jws.EncodeWithSigner], whose signature is empty, and
    the answer. *)
Definition jwt_provider_GetToken (EncodeWithSigner : bytes -> bytes -> res bytes) (claimSub : bytes) : bool * Z * bytes :=
  match EncodeWithSigner ($"none") claimSub with
  | Ok token => (true, 0, token)
  | _ => (false, 1, [])
  end.

(** ** Factories *)

Definition oidc_flagSet : FlagSet := list_to_map [
  ($"timeout", KInt); ($"credentials-file", KString); ($"credentials-watch", KBool); ($"target-audience", KString)].
Definition oidc_options (params : list bytes) : res Oidc.TokenProviderOptions :=
  let? l := parse_flags oidc_flagSet params in
  Ok {| Oidc.Timeout := int_var ParseInt l ($"timeout") 10; Oidc.CredentialsWatch := bool_var l ($"credentials-watch") true;
        Oidc.CredentialsFile := string_var l ($"credentials-file") []; Oidc.TargetAudience := string_var l ($"target-audience") [] |}.

Definition google_flagSet : FlagSet := list_to_map [
  ($"timeout", KInt); ($"adc", KBool); ($"credentials-file", KString); ($"credentials-watch", KBool); ($"target-audience", KString)].
Definition google_options (params : list bytes) : res Google.TokenProviderOptions :=
  let? l := parse_flags google_flagSet params in
  Ok {| Google.Timeout := int_var ParseInt l ($"timeout") 10; Google.Adc := bool_var l ($"adc") false;
        Google.CredentialsWatch := bool_var l ($"credentials-watch") true;
        Google.CredentialsFile := string_var l ($"credentials-file") []; Google.TargetAudience := string_var l ($"target-audience") [] |}.

Definition google_info_flagSet : FlagSet := list_to_map [
  ($"timeout", KInt); ($"certs-refresh-interval", KInt); ($"audience", KArray); ($"email-regex", KArray)].
Definition google_info_options (params : list bytes) : res TokenInfoOptions :=
  let? l := parse_flags google_info_flagSet params in
  Ok {| Timeout := int_var ParseInt l ($"timeout") 10; CertsRefreshInterval := int_var ParseInt l ($"certs-refresh-interval") 3600;
        Audience := flag_values l ($"audience"); EmailsRegex := flag_values l ($"email-regex") |}.

(** ** Facts *)

Lemma ldap_urls_Ok urls l : ldap_urls urls = Ok l ->
  l = urls /\ Forall (fun u => url_Scheme u = Ok ($"ldap") \/ url_Scheme u = Ok ($"ldaps")) urls.
Proof.
  revert l. induction urls as [|u urls IH]; intros l H; cbn [ldap_urls] in H; [injection H as <-; by split|].
  destruct (url_Scheme u) as [s|e|w] eqn:E; [|done..]. cbn [rbind] in H.
  destruct (bool_decide_reflect (s = $"ldap")) as [->|]; [|destruct (bool_decide_reflect (s = $"ldaps")) as [->|]]; cbn [orb] in H; [..|done];
    (destruct (ldap_urls urls) as [rest|e|w]; [|done..]; injection H as <-; destruct (IH rest eq_refl) as [-> Hf]; split; [done|];
     constructor; auto).
Qed.
End mains.

(** ** Theorems

    What plugins serve is what their flags say. *)

Local Open Scope Z_scope.

Lemma authenticates {W} (w : W) u0 p0 u p :
  PasswordAuthenticator_Authenticate {| Username := u0; Password := p0 |} u p w = (Ok (true, 0), w) <-> u = u0 /\ p = p0.
Proof.
  unfold PasswordAuthenticator_Authenticate, ret. cbn [Username Password].
  destruct (bool_decide_reflect (u = u0)), (bool_decide_reflect (p = p0)); cbn; naive_solver.
Qed.

(** The URLs that are served. *)
Lemma getUrls_Ok url_Scheme url urls : getUrls url_Scheme url = Ok urls ->
  urls = Split (","%byte) url /\ Forall (fun u => url_Scheme u = Ok ($"ldap") \/ url_Scheme u = Ok ($"ldaps")) urls.
Proof.
  unfold getUrls. intros H. destruct (ldap_urls url_Scheme (Split (","%byte) url)) as [l|e|w] eqn:E; [|done..].
  cbn [rbind] in H. apply ldap_urls_Ok in E as [-> Hf]. destruct (len _ =? 0); [done|]. by injection H as <-.
Qed.

Section mains.
Context (ParseInt : bytes -> option Z) (url_Scheme : bytes -> res bytes).
Context {Pool : Type} (ReadFile : bytes -> res bytes) (AppendCertsFromPEM : bytes -> option Pool).

(** C35: What a plugin serves for flags that are printed as -name=value: the user
    plugin exactly one user, with the password of the flag or else of the
    environment, neither of them empty; the LDAP plugin the URLs of its flag,
    each of scheme ldap or ldaps, and a way to name users: a search, a domain of
    principals, or an attribute below an entry.  Otherwise they exit. *)
Theorem served_plugins_are_configured SASL_PASSWORD (l : settings) :
  (Forall (setting_ok ParseInt user_flagSet) l ->
   let username := string_var l ($"username") [] in
   let password := string_var l ($"password") [] in
   let password := if decide (password = []) then SASL_PASSWORD else password in
   match user_main ParseInt SASL_PASSWORD (print_setting <$> l) with
   | Exit1 => username = [] \/ password = []
   | Serve pa => username <> [] /\ password <> [] /\
       forall {W} (w : W) u p, PasswordAuthenticator_Authenticate pa u p w = (Ok (true, 0), w) <-> u = username /\ p = password
   end) /\
  (Forall (setting_ok ParseInt ldap_flagSet) l ->
   forall pa config, ldap_main ParseInt url_Scheme ReadFile AppendCertsFromPEM (print_setting <$> l) = Serve (pa, config) ->
   Urls pa = Split (","%byte) (string_var l ($"url") []) /\
   Forall (fun u => url_Scheme u = Ok ($"ldap") \/ url_Scheme u = Ok ($"ldaps")) (Urls pa) /\
   (SearchLDAP pa = true \/ UPNDomain pa <> [] \/ UserDN pa <> [] /\ UserAttr pa <> [])).
Proof.
  split.
  - intros Hl. cbv zeta. unfold user_main. rewrite Parse_print by done.
    destruct (bool_decide_reflect (string_var l ($"username") [] = [])) as [E|E]; [by left|]. cbn [orb].
    destruct (decide (string_var l ($"password") [] = [])) as [Ep|Ep].
    + rewrite (bool_decide_eq_true_2 _ Ep). destruct (bool_decide_reflect (SASL_PASSWORD = [])); [by right|].
      split_and!; [done..|]. intros W w u p. apply authenticates.
    + rewrite (bool_decide_eq_false_2 _ Ep), (bool_decide_eq_false_2 _ Ep). split_and!; [done..|]. intros W w u p. apply authenticates.
  - intros Hl pa config H. unfold ldap_main in H. rewrite Parse_print in H by done.
    destruct (getUrls url_Scheme (string_var l ($"url") [])) as [urls|e|w] eqn:Eu; [|done..].
    apply getUrls_Ok in Eu as [Eu Hs].
    destruct (if _ || _ then false else _) eqn:Er in H; [done|].
    destruct (getTlsConfig _ _ _ _) as [c|e|w]; [|done..]. injection H as <- <-. cbn [Urls SearchLDAP UPNDomain UserDN UserAttr].
    split_and!; [done|done|].
    destruct (bool_decide_reflect (string_var l ($"bind-dn") [] = [])), (bool_var l ($"search-ldap") false); try by left.
    right. cbn [negb orb] in Er. destruct (bool_decide_reflect (string_var l ($"upn-domain") [] = [])); [right|by left].
    destruct (bool_decide_reflect (string_var l ($"user-dn") [] = [])); [done|]. cbn [negb orb andb] in Er.
    by apply bool_decide_eq_false in Er.
Qed.
End mains.

(** ** Example *)

Definition no_int (_ : bytes) : option Z := None.
Definition ldaps_scheme (_ : bytes) : res bytes := Ok ($"ldaps").
Definition ldap_settings : settings := [($"url", $"ldaps://ldap:636"); ($"user-dn", $"ou=people,dc=example"); ($"start-tls", $"false")].

Lemma served_plugins_are_configured_witness :
  ldap_main no_int ldaps_scheme (fun _ => Err EOF) (fun _ => @None unit) (print_setting <$> ldap_settings) =
    Serve ({| Urls := [$"ldaps://ldap:636"]; StartTLS := false; UPNDomain := []; UserDN := $"ou=people,dc=example";
              UserAttr := $"uid"; SearchLDAP := false; BindDN := []; BindPassword := []; UserSearchBase := []; UserFilter := [] |},
           {| InsecureSkipVerify := false; RootCAs := None |}) /\
  [$"ldaps://ldap:636"] = Split (","%byte) (string_var ldap_settings ($"url") []).
Proof.
  assert (ldap_main no_int ldaps_scheme (fun _ => Err EOF) (fun _ => @None unit) (print_setting <$> ldap_settings) =
    Serve ({| Urls := [$"ldaps://ldap:636"]; StartTLS := false; UPNDomain := []; UserDN := $"ou=people,dc=example";
              UserAttr := $"uid"; SearchLDAP := false; BindDN := []; BindPassword := []; UserSearchBase := []; UserFilter := [] |},
           {| InsecureSkipVerify := false; RootCAs := None |})) as E by (vm_compute; reflexivity).
  split; [exact E|].
  refine (proj1 (proj2 (served_plugins_are_configured no_int ldaps_scheme (fun _ => Err EOF) (fun _ => @None unit) [] ldap_settings)
    _ _ _ E)).
  repeat constructor; cbn [fst snd]; try (apply (bool_decide_eq_true_1 _); reflexivity); try discriminate; eexists; split; reflexivity.
Defined.
