(* ===== verification/Flags.v ===== *)
(** The flags of the server (cmd/kafka-proxy/server.go, [initFlags]): each is
    bound to a variable, which it sets to its default when it is registered.

    The library is pflag: what setting a variable again does, for the flags that
    collect values, is a parameter. *)
From Stdlib Require Import ZArith Lia Strings.Byte.
From stdpp Require Import base list strings gmap.
From S2P Require Import Prelude GoLib GoStrings Loops Listeners Config Client Registry Jaas Server.

Inductive flag_value :=
  | FString (s : bytes) | FBool (b : bool) | FInt (z : Z) | FUint16 (z : Z) | FUint64 (z : Z)
  | FDuration (ns : Z) | FStringArray (l : list bytes) | FStringSlice (l : list bytes)
  | FIntSlice (l : list Z) | FStringToString (m : gmap bytes bytes).

(** The variable is named by its path in the configuration [c], or by its name. *)
Record server_flag := { flag_Name : string; flag_Var : string; flag_Default : flag_value }.

Definition initFlags (Getenv : bytes -> bytes) : list server_flag := [
  {| flag_Name := "default-listener-ip"; flag_Var := "Proxy.DefaultListenerIP"; flag_Default := FString ($"0.0.0.0") |};
  {| flag_Name := "dynamic-advertised-listener"; flag_Var := "Proxy.DynamicAdvertisedListener"; flag_Default := FString [] |};
  {| flag_Name := "bootstrap-server-mapping"; flag_Var := "bootstrapServersMapping"; flag_Default := FStringArray [] |};
  {| flag_Name := "external-server-mapping"; flag_Var := "externalServersMapping"; flag_Default := FStringArray [] |};
  {| flag_Name := "dial-address-mapping"; flag_Var := "dialAddressMapping"; flag_Default := FStringArray [] |};
  {| flag_Name := "deterministic-listeners"; flag_Var := "Proxy.DeterministicListeners"; flag_Default := FBool false |};
  {| flag_Name := "dynamic-listeners-disable"; flag_Var := "Proxy.DisableDynamicListeners"; flag_Default := FBool false |};
  {| flag_Name := "dynamic-sequential-min-port"; flag_Var := "Proxy.DynamicSequentialMinPort"; flag_Default := FUint16 0 |};
  {| flag_Name := "dynamic-sequential-max-ports"; flag_Var := "Proxy.DynamicSequentialMaxPorts"; flag_Default := FUint16 0 |};
  {| flag_Name := "proxy-request-buffer-size"; flag_Var := "Proxy.RequestBufferSize"; flag_Default := FInt 4096 |};
  {| flag_Name := "proxy-response-buffer-size"; flag_Var := "Proxy.ResponseBufferSize"; flag_Default := FInt 4096 |};
  {| flag_Name := "plugin-dir"; flag_Var := "Proxy.PluginDir"; flag_Default := FString [] |};
  {| flag_Name := "sni-mapping"; flag_Var := "Proxy.SNIMapping"; flag_Default := FStringToString ∅ |};
  {| flag_Name := "sni-listener-address"; flag_Var := "Proxy.SNIListenerAddress"; flag_Default := FString [] |};
  {| flag_Name := "proxy-listener-read-buffer-size"; flag_Var := "Proxy.ListenerReadBufferSize"; flag_Default := FInt 0 |};
  {| flag_Name := "proxy-listener-write-buffer-size"; flag_Var := "Proxy.ListenerWriteBufferSize"; flag_Default := FInt 0 |};
  {| flag_Name := "proxy-listener-keep-alive"; flag_Var := "Proxy.ListenerKeepAlive"; flag_Default := FDuration (60 * second) |};
  {| flag_Name := "proxy-listener-tls-enable"; flag_Var := "Proxy.TLS.Enable"; flag_Default := FBool false |};
  {| flag_Name := "proxy-listener-tls-refresh"; flag_Var := "Proxy.TLS.Refresh"; flag_Default := FDuration (0 * second) |};
  {| flag_Name := "proxy-listener-cert-file"; flag_Var := "Proxy.TLS.ListenerCertFile"; flag_Default := FString [] |};
  {| flag_Name := "proxy-listener-key-file"; flag_Var := "Proxy.TLS.ListenerKeyFile"; flag_Default := FString [] |};
  {| flag_Name := "proxy-listener-key-password"; flag_Var := "Proxy.TLS.ListenerKeyPassword"; flag_Default := FString (Getenv ($"PROXY_LISTENER_KEY_PASSWORD")) |};
  {| flag_Name := "proxy-listener-ca-chain-cert-file"; flag_Var := "Proxy.TLS.ListenerCAChainCertFile"; flag_Default := FString [] |};
  {| flag_Name := "proxy-listener-crl-file"; flag_Var := "Proxy.TLS.ListenerCRLFile"; flag_Default := FString [] |};
  {| flag_Name := "proxy-listener-cipher-suites"; flag_Var := "Proxy.TLS.ListenerCipherSuites"; flag_Default := FStringSlice [] |};
  {| flag_Name := "proxy-listener-curve-preferences"; flag_Var := "Proxy.TLS.ListenerCurvePreferences"; flag_Default := FStringSlice [] |};
  {| flag_Name := "proxy-listener-tls-required-client-subject"; flag_Var := "Proxy.TLS.ClientCert.Subjects"; flag_Default := FStringSlice [] |};
  {| flag_Name := "auth-local-enable"; flag_Var := "Auth.Local.Enable"; flag_Default := FBool false |};
  {| flag_Name := "auth-local-command"; flag_Var := "Auth.Local.Command"; flag_Default := FString [] |};
  {| flag_Name := "auth-local-mechanism"; flag_Var := "Auth.Local.Mechanism"; flag_Default := FString ($"PLAIN") |};
  {| flag_Name := "auth-local-param"; flag_Var := "Auth.Local.Parameters"; flag_Default := FStringArray [] |};
  {| flag_Name := "auth-local-log-level"; flag_Var := "Auth.Local.LogLevel"; flag_Default := FString ($"trace") |};
  {| flag_Name := "auth-local-timeout"; flag_Var := "Auth.Local.Timeout"; flag_Default := FDuration (10 * second) |};
  {| flag_Name := "auth-gateway-client-enable"; flag_Var := "Auth.Gateway.Client.Enable"; flag_Default := FBool false |};
  {| flag_Name := "auth-gateway-client-command"; flag_Var := "Auth.Gateway.Client.Command"; flag_Default := FString [] |};
  {| flag_Name := "auth-gateway-client-param"; flag_Var := "Auth.Gateway.Client.Parameters"; flag_Default := FStringArray [] |};
  {| flag_Name := "auth-gateway-client-log-level"; flag_Var := "Auth.Gateway.Client.LogLevel"; flag_Default := FString ($"trace") |};
  {| flag_Name := "auth-gateway-client-method"; flag_Var := "Auth.Gateway.Client.Method"; flag_Default := FString [] |};
  {| flag_Name := "auth-gateway-client-magic"; flag_Var := "Auth.Gateway.Client.Magic"; flag_Default := FUint64 0 |};
  {| flag_Name := "auth-gateway-client-timeout"; flag_Var := "Auth.Gateway.Client.Timeout"; flag_Default := FDuration (10 * second) |};
  {| flag_Name := "auth-gateway-server-enable"; flag_Var := "Auth.Gateway.Server.Enable"; flag_Default := FBool false |};
  {| flag_Name := "auth-gateway-server-command"; flag_Var := "Auth.Gateway.Server.Command"; flag_Default := FString [] |};
  {| flag_Name := "auth-gateway-server-param"; flag_Var := "Auth.Gateway.Server.Parameters"; flag_Default := FStringArray [] |};
  {| flag_Name := "auth-gateway-server-log-level"; flag_Var := "Auth.Gateway.Server.LogLevel"; flag_Default := FString ($"trace") |};
  {| flag_Name := "auth-gateway-server-method"; flag_Var := "Auth.Gateway.Server.Method"; flag_Default := FString [] |};
  {| flag_Name := "auth-gateway-server-magic"; flag_Var := "Auth.Gateway.Server.Magic"; flag_Default := FUint64 0 |};
  {| flag_Name := "auth-gateway-server-timeout"; flag_Var := "Auth.Gateway.Server.Timeout"; flag_Default := FDuration (10 * second) |};
  {| flag_Name := "kafka-client-id"; flag_Var := "Kafka.ClientID"; flag_Default := FString ($"kafka-proxy") |};
  {| flag_Name := "kafka-max-open-requests"; flag_Var := "Kafka.MaxOpenRequests"; flag_Default := FInt 256 |};
  {| flag_Name := "kafka-dial-timeout"; flag_Var := "Kafka.DialTimeout"; flag_Default := FDuration (15 * second) |};
  {| flag_Name := "kafka-write-timeout"; flag_Var := "Kafka.WriteTimeout"; flag_Default := FDuration (30 * second) |};
  {| flag_Name := "kafka-read-timeout"; flag_Var := "Kafka.ReadTimeout"; flag_Default := FDuration (30 * second) |};
  {| flag_Name := "kafka-keep-alive"; flag_Var := "Kafka.KeepAlive"; flag_Default := FDuration (60 * second) |};
  {| flag_Name := "kafka-connection-read-buffer-size"; flag_Var := "Kafka.ConnectionReadBufferSize"; flag_Default := FInt 0 |};
  {| flag_Name := "kafka-connection-write-buffer-size"; flag_Var := "Kafka.ConnectionWriteBufferSize"; flag_Default := FInt 0 |};
  {| flag_Name := "forbidden-api-keys"; flag_Var := "Kafka.ForbiddenApiKeys"; flag_Default := FIntSlice [] |};
  {| flag_Name := "producer-acks-0-disabled"; flag_Var := "Kafka.Producer.Acks0Disabled"; flag_Default := FBool false |};
  {| flag_Name := "tls-enable"; flag_Var := "Kafka.TLS.Enable"; flag_Default := FBool false |};
  {| flag_Name := "tls-refresh"; flag_Var := "Kafka.TLS.Refresh"; flag_Default := FDuration (0 * second) |};
  {| flag_Name := "tls-insecure-skip-verify"; flag_Var := "Kafka.TLS.InsecureSkipVerify"; flag_Default := FBool false |};
  {| flag_Name := "tls-client-cert-file"; flag_Var := "Kafka.TLS.ClientCertFile"; flag_Default := FString [] |};
  {| flag_Name := "tls-client-key-file"; flag_Var := "Kafka.TLS.ClientKeyFile"; flag_Default := FString [] |};
  {| flag_Name := "tls-client-key-password"; flag_Var := "Kafka.TLS.ClientKeyPassword"; flag_Default := FString (Getenv ($"TLS_CLIENT_KEY_PASSWORD")) |};
  {| flag_Name := "tls-ca-chain-cert-file"; flag_Var := "Kafka.TLS.CAChainCertFile"; flag_Default := FString [] |};
  {| flag_Name := "tls-system-cert-pool"; flag_Var := "Kafka.TLS.SystemCertPool"; flag_Default := FBool false |};
  {| flag_Name := "tls-same-client-cert-enable"; flag_Var := "Kafka.TLS.SameClientCertEnable"; flag_Default := FBool false |};
  {| flag_Name := "sasl-enable"; flag_Var := "Kafka.SASL.Enable"; flag_Default := FBool false |};
  {| flag_Name := "sasl-username"; flag_Var := "Kafka.SASL.Username"; flag_Default := FString [] |};
  {| flag_Name := "sasl-password"; flag_Var := "Kafka.SASL.Password"; flag_Default := FString (Getenv ($"SASL_PASSWORD")) |};
  {| flag_Name := "sasl-jaas-config-file"; flag_Var := "Kafka.SASL.JaasConfigFile"; flag_Default := FString [] |};
  {| flag_Name := "sasl-method"; flag_Var := "Kafka.SASL.Method"; flag_Default := FString ($"PLAIN") |};
  {| flag_Name := "gssapi-auth-type"; flag_Var := "Kafka.SASL.GSSAPI.AuthType"; flag_Default := FString KRB5_KEYTAB_AUTH |};
  {| flag_Name := "gssapi-servicename"; flag_Var := "Kafka.SASL.GSSAPI.ServiceName"; flag_Default := FString ($"kafka") |};
  {| flag_Name := "gssapi-username"; flag_Var := "Kafka.SASL.GSSAPI.Username"; flag_Default := FString ($"kafka") |};
  {| flag_Name := "gssapi-password"; flag_Var := "Kafka.SASL.GSSAPI.Password"; flag_Default := FString (Getenv ($"GSSAPI_PASSWORD")) |};
  {| flag_Name := "gssapi-realm"; flag_Var := "Kafka.SASL.GSSAPI.Realm"; flag_Default := FString [] |};
  {| flag_Name := "gssapi-krb5"; flag_Var := "Kafka.SASL.GSSAPI.KerberosConfigPath"; flag_Default := FString ($"/etc/krb5.conf") |};
  {| flag_Name := "gssapi-keytab"; flag_Var := "Kafka.SASL.GSSAPI.KeyTabPath"; flag_Default := FString [] |};
  {| flag_Name := "gssapi-disable-pa-fx-fast"; flag_Var := "Kafka.SASL.GSSAPI.DisablePAFXFAST"; flag_Default := FBool false |};
  {| flag_Name := "gssapi-spn-host-mapping"; flag_Var := "Kafka.SASL.GSSAPI.SPNHostsMapping"; flag_Default := FStringToString ∅ |};
  {| flag_Name := "sasl-aws-region"; flag_Var := "Kafka.SASL.AWSConfig.Region"; flag_Default := FString [] |};
  {| flag_Name := "sasl-aws-profile"; flag_Var := "Kafka.SASL.AWSConfig.Profile"; flag_Default := FString [] |};
  {| flag_Name := "sasl-aws-role-arn"; flag_Var := "Kafka.SASL.AWSConfig.RoleArn"; flag_Default := FString [] |};
  {| flag_Name := "sasl-aws-identity-lookup"; flag_Var := "Kafka.SASL.AWSConfig.IdentityLookup"; flag_Default := FBool false |};
  {| flag_Name := "sasl-plugin-enable"; flag_Var := "Kafka.SASL.Plugin.Enable"; flag_Default := FBool false |};
  {| flag_Name := "sasl-plugin-command"; flag_Var := "Kafka.SASL.Plugin.Command"; flag_Default := FString [] |};
  {| flag_Name := "sasl-plugin-mechanism"; flag_Var := "Kafka.SASL.Plugin.Mechanism"; flag_Default := FString ($"OAUTHBEARER") |};
  {| flag_Name := "sasl-plugin-param"; flag_Var := "Kafka.SASL.Plugin.Parameters"; flag_Default := FStringArray [] |};
  {| flag_Name := "sasl-plugin-log-level"; flag_Var := "Kafka.SASL.Plugin.LogLevel"; flag_Default := FString ($"trace") |};
  {| flag_Name := "sasl-plugin-timeout"; flag_Var := "Kafka.SASL.Plugin.Timeout"; flag_Default := FDuration (10 * second) |};
  {| flag_Name := "http-disable"; flag_Var := "Http.Disable"; flag_Default := FBool false |};
  {| flag_Name := "http-listen-address"; flag_Var := "Http.ListenAddress"; flag_Default := FString ($"0.0.0.0:9080") |};
  {| flag_Name := "http-metrics-path"; flag_Var := "Http.MetricsPath"; flag_Default := FString ($"/metrics") |};
  {| flag_Name := "http-health-path"; flag_Var := "Http.HealthPath"; flag_Default := FString ($"/health") |};
  {| flag_Name := "debug-enable"; flag_Var := "Debug.Enabled"; flag_Default := FBool false |};
  {| flag_Name := "debug-listen-address"; flag_Var := "Debug.ListenAddress"; flag_Default := FString ($"0.0.0.0:6060") |};
  {| flag_Name := "log-format"; flag_Var := "Log.Format"; flag_Default := FString ($"text") |};
  {| flag_Name := "log-level"; flag_Var := "Log.Level"; flag_Default := FString ($"info") |};
  {| flag_Name := "log-level-fieldname"; flag_Var := "Log.LevelFieldName"; flag_Default := FString ($"@level") |};
  {| flag_Name := "log-time-fieldname"; flag_Var := "Log.TimeFiledName"; flag_Default := FString ($"@timestamp") |};
  {| flag_Name := "log-msg-fieldname"; flag_Var := "Log.MsgFiledName"; flag_Default := FString ($"@message") |};
  {| flag_Name := "forward-proxy"; flag_Var := "ForwardProxy.Url"; flag_Default := FString [] |}
].

(** ** Registration and the command line *)

Section pflag.
(** [assign changed old new]: the variable after it is set, for the first time or
    again. *)
Context (assign : bool -> flag_value -> flag_value -> flag_value).

Record flag_set := { formal : gmap string string; vars : gmap string flag_value; changed : gset string }.
Definition no_flags : flag_set := {| formal := ∅; vars := ∅; changed := ∅ |}.

(** [Flags().XVar(&v, name, default, usage)]: a name is registered once. *)
Definition register_flag (f : server_flag) (s : flag_set) : res flag_set :=
  match formal s !! flag_Name f with
  | Some _ => Panic "flag redefined"
  | None => Ok {| formal := <[flag_Name f := flag_Var f]> (formal s); vars := <[flag_Var f := flag_Default f]> (vars s);
                  changed := changed s |}
  end.
Fixpoint register_flags (l : list server_flag) (s : flag_set) : res flag_set :=
  match l with
  | [] => Ok s
  | f :: l' => let? s := register_flag f s in register_flags l' s
  end.

Definition set_flag (name : string) (v : flag_value) (s : flag_set) : res flag_set :=
  match formal s !! name with
  | None => Err (Errorf "unknown flag: --%s")
  | Some var =>
      let old := default v (vars s !! var) in
      Ok {| formal := formal s; vars := <[var := assign (bool_decide (name ∈ changed s)) old v]> (vars s);
            changed := {[name]} ∪ changed s |}
  end.
(** The flags of a command line, in their order. *)
Fixpoint set_flags (l : list (string * flag_value)) (s : flag_set) : res flag_set :=
  match l with
  | [] => Ok s
  | (name, v) :: l' => let? s := set_flag name v s in set_flags l' s
  end.

(** What one flag amounts to on a command line. *)
Fixpoint flag_result (name : string) (l : list (string * flag_value)) (set_before : bool) (v : flag_value) : flag_value :=
  match l with
  | [] => v
  | (n, new) :: l' =>
      if bool_decide (n = name) then flag_result name l' true (assign set_before v new) else flag_result name l' set_before v
  end.
End pflag.

(** ** The configuration of the variables *)

Section config_of.
Context (s : gmap string flag_value).
Definition str (var : string) : bytes := match s !! var with Some (FString v) => v | _ => [] end.
Definition flag_bool (var : string) : bool := match s !! var with Some (FBool b) => b | _ => false end.
Definition num (var : string) : Z :=
  match s !! var with Some (FInt z) | Some (FUint16 z) | Some (FUint64 z) | Some (FDuration z) => z | _ => 0 end.
Definition strs (var : string) : list bytes :=
  match s !! var with Some (FStringArray l) | Some (FStringSlice l) => l | _ => [] end.
Definition ints (var : string) : list Z := match s !! var with Some (FIntSlice l) => l | _ => [] end.
Definition str_map (var : string) : gmap bytes bytes := match s !! var with Some (FStringToString m) => m | _ => ∅ end.

Definition gateway_of (side : string) : GatewayConfig := {|
  Gateway_Enable := flag_bool (side +:+ ".Enable"); Gateway_Method := str (side +:+ ".Method");
  Gateway_Magic := num (side +:+ ".Magic"); Gateway_Command := str (side +:+ ".Command");
  Gateway_Timeout := num (side +:+ ".Timeout") |}.

(** [c] after the flags, before [PreRunE]. *)
Definition config_of : Config := {|
  Proxy := {|
    DefaultListenerIP := str "Proxy.DefaultListenerIP"; BootstrapServers := []; ExternalServers := [];
    DeterministicListeners := flag_bool "Proxy.DeterministicListeners"; DialAddressMappings := [];
    DisableDynamicListeners := flag_bool "Proxy.DisableDynamicListeners";
    DynamicAdvertisedListener := str "Proxy.DynamicAdvertisedListener";
    DynamicSequentialMinPort := num "Proxy.DynamicSequentialMinPort";
    DynamicSequentialMaxPorts := num "Proxy.DynamicSequentialMaxPorts";
    Proxy_RequestBufferSize := num "Proxy.RequestBufferSize"; Proxy_ResponseBufferSize := num "Proxy.ResponseBufferSize";
    ListenerKeepAlive := num "Proxy.ListenerKeepAlive"; ProxyTLS_Enable := flag_bool "Proxy.TLS.Enable";
    ListenerCertFile := str "Proxy.TLS.ListenerCertFile"; ListenerKeyFile := str "Proxy.TLS.ListenerKeyFile";
    SNIMapping := str_map "Proxy.SNIMapping"; SNIListenerAddress := str "Proxy.SNIListenerAddress" |};
  Local := {| Local_Enable := flag_bool "Auth.Local.Enable"; Local_Command := str "Auth.Local.Command";
              Local_Mechanism := str "Auth.Local.Mechanism"; Local_Timeout := num "Auth.Local.Timeout" |};
  GatewayClient := gateway_of "Auth.Gateway.Client"; GatewayServer := gateway_of "Auth.Gateway.Server";
  Kafka := {|
    Kafka_ClientID := str "Kafka.ClientID"; Kafka_MaxOpenRequests := num "Kafka.MaxOpenRequests";
    Kafka_ForbiddenApiKeys := ints "Kafka.ForbiddenApiKeys";
    DialTimeout := num "Kafka.DialTimeout"; WriteTimeout := num "Kafka.WriteTimeout"; ReadTimeout := num "Kafka.ReadTimeout";
    KeepAlive := num "Kafka.KeepAlive"; KafkaTLS_Enable := flag_bool "Kafka.TLS.Enable";
    KafkaTLS_ClientCertFile := str "Kafka.TLS.ClientCertFile"; SameClientCertEnable := flag_bool "Kafka.TLS.SameClientCertEnable";
    SASL := {|
      SASL_Enable := flag_bool "Kafka.SASL.Enable"; SASL_Username := str "Kafka.SASL.Username";
      SASL_Password := str "Kafka.SASL.Password"; JaasConfigFile := str "Kafka.SASL.JaasConfigFile";
      SASL_Method := str "Kafka.SASL.Method";
      SASL_Plugin := {| Plugin_Enable := flag_bool "Kafka.SASL.Plugin.Enable"; Plugin_Command := str "Kafka.SASL.Plugin.Command";
                        Plugin_Mechanism := str "Kafka.SASL.Plugin.Mechanism"; Plugin_Timeout := num "Kafka.SASL.Plugin.Timeout" |};
      GSSAPI := {| AuthType := str "Kafka.SASL.GSSAPI.AuthType"; KeyTabPath := str "Kafka.SASL.GSSAPI.KeyTabPath";
                   KerberosConfigPath := str "Kafka.SASL.GSSAPI.KerberosConfigPath"; ServiceName := str "Kafka.SASL.GSSAPI.ServiceName";
                   GSSAPI_Username := str "Kafka.SASL.GSSAPI.Username"; GSSAPI_Password := str "Kafka.SASL.GSSAPI.Password";
                   GSSAPI_Realm := str "Kafka.SASL.GSSAPI.Realm"; SPNHostsMapping := str_map "Kafka.SASL.GSSAPI.SPNHostsMapping" |} |};
    Acks0Disabled := flag_bool "Kafka.Producer.Acks0Disabled" |};
  ForwardProxy := {| Url := str "ForwardProxy.Url"; Scheme := []; Address := []; Proxy_Username := []; Proxy_Password := [] |}
|}.
Definition mapping_flags_of : mappingFlags := {|
  bootstrapServersMapping := strs "bootstrapServersMapping"; externalServersMapping := strs "externalServersMapping";
  dialAddressMappingFlag := strs "dialAddressMapping" |}.
End config_of.

(** The whole start: flags, then [PreRunE]. *)
Definition server_start (assign : bool -> flag_value -> flag_value -> flag_value) (ReadFile : bytes -> res bytes)
    (Getenv : bytes -> bytes) (url_Parse : bytes -> res URL) (ParseIP : bytes -> bool)
    (command_line : list (string * flag_value)) : res Config :=
  let? registered := register_flags (initFlags Getenv) no_flags in
  let? s := set_flags assign command_line registered in
  fst ((do* PreRunE ReadFile Getenv url_Parse ParseIP (mapping_flags_of (vars s)) in get) (config_of (vars s))).

(** ** Theorems

    The properties of the flags of the server. *)

Section pflag.
Context (assign : bool -> flag_value -> flag_value -> flag_value).

(** *** Registration *)

Lemma register_flags_Ok (l : list server_flag) (s : flag_set) :
  NoDup (map flag_Name l) -> (forall f, f ∈ l -> formal s !! flag_Name f = None) ->
  register_flags l s =
    Ok {| formal := foldl (fun m f => <[flag_Name f := flag_Var f]> m) (formal s) l;
          vars := foldl (fun m f => <[flag_Var f := flag_Default f]> m) (vars s) l; changed := changed s |}.
Proof.
  revert s. induction l as [|f l IH]; intros s Hl Hs; cbn [register_flags foldl map] in *.
  { by destruct s. }
  apply NoDup_cons in Hl as [Hf Hl]. unfold register_flag. rewrite Hs by left. cbn [rbind]. rewrite IH; [done|done|].
  intros g Hg. cbn [formal]. rewrite lookup_insert_ne; [apply Hs; by right|].
  intros E. apply Hf. rewrite E. apply list_elem_of_fmap. eauto.
Qed.

(** A map built of the fields of a list holds each of them, the keys being
    distinct. *)
Lemma foldl_insert_lookup {A K V} `{Countable K} (k : A -> K) (v : A -> V) (l : list A) (m : gmap K V) (f : A) :
  NoDup (map k l) -> f ∈ l -> foldl (fun m f => <[k f := v f]> m) m l !! k f = Some (v f).
Proof.
  revert m. induction l as [|g l IH]; intros m Hl Hf; cbn [foldl map] in *; [by apply not_elem_of_nil in Hf|].
  apply NoDup_cons in Hl as [Hg Hl]. apply elem_of_cons in Hf as [-> |Hf]; [|by apply IH].
  clear IH Hl. assert (forall (m : gmap K V), k g ∉ map k l -> foldl (fun m f => <[k f := v f]> m) m l !! k g = m !! k g) as Hk.
  { clear. induction l as [|h l IH]; intros m Hn; [done|]. cbn [foldl map] in *. apply not_elem_of_cons in Hn as [Hn1 Hn2].
    rewrite IH by done. by apply lookup_insert_ne. }
  rewrite Hk by done. apply lookup_insert_eq.
Qed.

(** *** The command line *)

(** One flag, when no other is bound to its variable. *)
Lemma set_flags_one (name var : string) (l : list (string * flag_value)) (s st : flag_set) (v : flag_value) :
  formal s !! name = Some var -> (forall other, formal s !! other = Some var -> other = name) ->
  vars s !! var = Some v -> set_flags assign l s = Ok st ->
  vars st !! var = Some (flag_result assign name l (bool_decide (name ∈ changed s)) v).
Proof.
  revert s v. induction l as [|[n new] l IH]; intros s v Hn Hu Hv H; cbn [set_flags flag_result] in *.
  { by injection H as <-. }
  unfold set_flag in H. destruct (formal s !! n) as [w|] eqn:En; [|done]. cbn [rbind] in H.
  destruct (decide (n = name)) as [E|E]; [rewrite (bool_decide_true (n = name)) by done|rewrite (bool_decide_false (n = name)) by done].
  - subst n. assert (w = var) as -> by congruence. rewrite Hv in H. cbn [default] in H.
    eapply IH in H; [|done|done|apply lookup_insert_eq]. rewrite H. cbn [changed].
    by rewrite bool_decide_true by set_solver.
  - assert (w <> var) as Hw by (intros ->; by apply E, Hu).
    eapply IH in H; [|done|done|cbn [vars]; by rewrite lookup_insert_ne]. rewrite H. cbn [changed].
    by rewrite (bool_decide_ext _ (name ∈ changed s)) by set_solver.
Qed.

Lemma set_flags_defined (l : list (string * flag_value)) (s : flag_set) :
  Forall (fun p => is_Some (formal s !! p.1)) l -> exists st, set_flags assign l s = Ok st.
Proof.
  revert s. induction l as [|[n v] l IH]; intros s Hl; [by exists s|]. apply Forall_cons in Hl as [[w Hw] Hl].
  cbn [set_flags fst] in *. unfold set_flag. rewrite Hw. by apply IH.
Qed.
End pflag.

Lemma foldl_insert_inv {A K V} `{Countable K} (k : A -> K) (v : A -> V) (l : list A) (m : gmap K V) (i : K) (x : V) :
  foldl (fun m f => <[k f := v f]> m) m l !! i = Some x -> (exists f, f ∈ l /\ k f = i /\ v f = x) \/ m !! i = Some x.
Proof.
  revert m. induction l as [|f l IH]; intros m Hi; cbn [foldl] in Hi; [by right|].
  apply IH in Hi as [(g & Hg & E)|Hi]; [left; exists g; split; [by right|done]|].
  apply lookup_insert_Some in Hi as [[E1 E2]|[_ Hi]]; [left; exists f; split; [by left|done]|by right].
Qed.

Lemma flag_names_distinct Getenv : NoDup (map flag_Name (initFlags Getenv)).
Proof. apply (bool_decide_eq_true_1 _). vm_compute. done. Qed.
Lemma flag_vars_distinct Getenv : NoDup (map flag_Var (initFlags Getenv)).
Proof. apply (bool_decide_eq_true_1 _). vm_compute. done. Qed.

(** What registration leaves. *)
Lemma registered Getenv : exists st, register_flags (initFlags Getenv) no_flags = Ok st /\ changed st = ∅ /\
  (forall f, f ∈ initFlags Getenv ->
     formal st !! flag_Name f = Some (flag_Var f) /\ vars st !! flag_Var f = Some (flag_Default f)) /\
  (forall n var, formal st !! n = Some var -> exists f, f ∈ initFlags Getenv /\ flag_Name f = n /\ flag_Var f = var).
Proof.
  pose proof (flag_names_distinct Getenv) as Hn. pose proof (flag_vars_distinct Getenv) as Hv.
  eexists. split; [apply register_flags_Ok; [done|intros; apply lookup_empty]|]. cbn [changed formal vars].
  split; [done|]. split.
  - intros f Hf. split; by apply (foldl_insert_lookup (A := server_flag)).
  - intros n var [H|H]%foldl_insert_inv; [done|]. change ((∅ : gmap string string) !! n = Some var) in H. by rewrite lookup_empty in H.
Qed.

(** Of two flags with one variable there is only one. *)
Lemma flag_of_variable Getenv f g :
  f ∈ initFlags Getenv -> g ∈ initFlags Getenv -> flag_Var f = flag_Var g -> flag_Name f = flag_Name g.
Proof.
  intros Hf Hg E. apply list_elem_of_lookup in Hf as [i Hi]. apply list_elem_of_lookup in Hg as [j Hj].
  assert (i = j) as ->; [|congruence].
  eapply (NoDup_lookup _ _ _ (flag_Var f)); [apply (flag_vars_distinct Getenv)|..]; rewrite list_lookup_fmap.
  - by rewrite Hi.
  - rewrite Hj. cbn. by rewrite E.
Qed.

(** C33: The server registers its flags without a name registered twice, which
    would end it as it starts, and every flag has a variable of its own: on a
    command line of known flags each variable ends with what the occurrences of
    its one flag make of its default, whatever else is given and in what order. *)
Theorem flags_set_their_own_variable (assign : bool -> flag_value -> flag_value -> flag_value) (Getenv : bytes -> bytes)
    (l : list (string * flag_value)) :
  Forall (fun p => p.1 ∈ map flag_Name (initFlags Getenv)) l ->
  exists st, (let? registered := register_flags (initFlags Getenv) no_flags in set_flags assign l registered) = Ok st /\
  forall f, f ∈ initFlags Getenv ->
    vars st !! flag_Var f = Some (flag_result assign (flag_Name f) l false (flag_Default f)).
Proof.
  intros Hl. destruct (registered Getenv) as (s & Hs & Hc & Hf & Hb). rewrite Hs. cbn [rbind].
  destruct (set_flags_defined assign l s) as [st Hst].
  { eapply Forall_impl; [exact Hl|]. intros p (f & -> & Hp)%list_elem_of_fmap. by destruct (Hf f Hp) as [-> _]. }
  exists st. split; [done|]. intros f Hin. destruct (Hf f Hin) as [H1 H2].
  assert (bool_decide (flag_Name f ∈ changed s) = false) as <- by (rewrite Hc; by apply bool_decide_false, not_elem_of_empty).
  eapply set_flags_one; [done| |done|done].
  intros other (g & Hg & <- & E)%Hb. by apply (flag_of_variable Getenv).
Qed.

Definition example_assign (changed : bool) (old new : flag_value) : flag_value :=
  match changed, old, new with
  | true, FStringArray a, FStringArray b => FStringArray (a ++ b)
  | _, _, _ => new
  end.
Definition example_line : list (string * flag_value) :=
  [("bootstrap-server-mapping", FStringArray [$"a:9092,:32400"]); ("tls-enable", FBool true);
   ("bootstrap-server-mapping", FStringArray [$"b:9092,:32401"])].

Lemma flags_set_their_own_variable_witness :
  exists st, (let? r := register_flags (initFlags (fun _ => [])) no_flags in set_flags example_assign example_line r) = Ok st /\
    forall f, f ∈ initFlags (fun _ => []) ->
      vars st !! flag_Var f = Some (flag_result example_assign (flag_Name f) example_line false (flag_Default f)).
Proof.
  apply (flags_set_their_own_variable example_assign (fun _ => []) example_line).
  refine (bool_decide_eq_true_1 _ _). vm_compute. reflexivity.
Defined.

(** *** The defaults *)

Definition default_of (Getenv : bytes -> bytes) (var : string) : option flag_value :=
  match find (fun f => String.eqb (flag_Var f) var && negb (String.eqb (flag_Name f) "bootstrap-server-mapping")) (initFlags Getenv) with
  | Some f => Some (flag_Default f)
  | None => None
  end.
(** The variables of [st] that a goal reads, from the defaults. *)
Ltac from_defaults H :=
  unfold str, flag_bool, num, strs, ints, str_map; repeat (erewrite H by (vm_compute; reflexivity)); cbn beta iota.

Section minimal.
Context (assign : bool -> flag_value -> flag_value -> flag_value) (ReadFile : bytes -> res bytes) (Getenv : bytes -> bytes)
  (url_Parse : bytes -> res URL) (ParseIP : bytes -> bool).

Lemma set_bootstrap (r : flag_set) (mapping : list bytes) :
  changed r = ∅ ->
  (forall f, f ∈ initFlags Getenv -> formal r !! flag_Name f = Some (flag_Var f) /\ vars r !! flag_Var f = Some (flag_Default f)) ->
  assign false (FStringArray []) (FStringArray mapping) = FStringArray mapping ->
  exists st, set_flags assign [("bootstrap-server-mapping", FStringArray mapping)] r = Ok st /\
    vars st !! "bootstrapServersMapping" = Some (FStringArray mapping) /\
    forall var v, default_of Getenv var = Some v -> vars st !! var = Some v.
Proof.
  intros Hc Hf Ha.
  assert ({| flag_Name := "bootstrap-server-mapping"; flag_Var := "bootstrapServersMapping"; flag_Default := FStringArray [] |}
            ∈ initFlags Getenv) as Hin by (do 2 right; left).
  destruct (Hf _ Hin) as [H1 H2]. cbn [flag_Name flag_Var flag_Default] in H1, H2.
  unfold set_flags, set_flag. rewrite H1. cbn [rbind]. rewrite H2, Hc, bool_decide_false by apply not_elem_of_empty. cbn [from_option id].
rewrite Ha. eexists. split; [reflexivity|]. cbn [vars]. split; [apply lookup_insert_eq|].
  intros var v. unfold default_of. destruct (find _ _) as [f|] eqn:Ef; [|done]. intros [= <-].
  apply find_some in Ef as [Hfin [Ev%String.eqb_eq En%negb_true_iff%String.eqb_neq]%andb_true_iff].
  apply list_elem_of_In in Hfin. subst var. rewrite lookup_insert_ne; [by apply Hf|].
  intros E. apply En. by apply (flag_of_variable Getenv f _ Hfin Hin).
Qed.

(** Given bootstrap servers on the command line, nothing comes of the environment. *)
Lemma PreRunE_bootstrap (c : Config) (mapping : list bytes) (servers : list config_ListenerConfig) (flags : mappingFlags) :
  bootstrapServersMapping flags = mapping -> externalServersMapping flags = [] -> dialAddressMappingFlag flags = [] ->
  JaasConfigFile (SASL (Kafka c)) = [] -> getListenerConfigs mapping = Ok servers -> mapping <> [] ->
  PreRunE ReadFile Getenv url_Parse ParseIP flags c =
    Validate url_Parse ParseIP (set_Proxy (set_servers servers [] [] (Proxy c)) c).
Proof.
  intros Hb He Hd Hj Hm Hne. unfold PreRunE, getOrEnvStringSlice. rewrite Hb, He, Hd.
  assert (len mapping =? 0 = false) as -> by (destruct mapping; [done|by apply Z.eqb_neq; rewrite len_cons; pose proof (len_nonneg mapping); lia]).
  cbn [negb].
  rewrite bind_Ok with (a := tt) (s' := c) by (unfold InitSASLCredentials; erewrite bind_Ok by reflexivity; by rewrite Hj).
  unfold InitBootstrapServers, InitExternalServers, InitDialAddressMappings. rewrite Hm. cbn [init_servers].
  erewrite bind_Ok by reflexivity. erewrite bind_Ok by reflexivity. erewrite bind_Ok by reflexivity. done.
Qed.

(** What validation asks of, among the defaults. *)
Lemma defaults_validate (st : flag_set) (servers : list config_ListenerConfig) :
  (forall var v, default_of Getenv var = Some v -> vars st !! var = Some v) -> ParseIP ($"0.0.0.0") = true -> servers <> [] ->
  let c := set_Proxy (set_servers servers [] [] (Proxy (config_of (vars st)))) (config_of (vars st)) in
  Validate url_Parse ParseIP c = (Ok tt, c).
Proof.
  intros Hd Hip Hs c. assert (len servers =? 0 = false) as Hl by (destruct servers; [done|by apply Z.eqb_neq; rewrite len_cons; pose proof (len_nonneg servers); lia]).
  apply Validate_Ok. split_and!; [| | | | |exists (ForwardProxy c), (Proxy c); split_and!; [| |by destruct c]].
  all: subst c; unfold config_of, gateway_of, set_Proxy, set_servers;
    cbn [Proxy Local GatewayClient GatewayServer Kafka ForwardProxy].
  - unfold validateSASL. cbn [SASL SASL_Enable SASL_Plugin Plugin_Enable]. by from_defaults Hd.
  - unfold validateKafka. cbn [KeepAlive DialTimeout ReadTimeout WriteTimeout Kafka_MaxOpenRequests]. by from_defaults Hd.
  - unfold validateProxy. cbn [BootstrapServers SNIListenerAddress DefaultListenerIP Proxy_RequestBufferSize
      Proxy_ResponseBufferSize ListenerKeepAlive ProxyTLS_Enable ListenerKeyFile ListenerCertFile].
    vm_compute in Hip. rewrite Hl. from_defaults Hd. by rewrite Hip.
  - cbn [SameClientCertEnable]. by from_defaults Hd.
  - unfold validateAuth, validateGateway. cbn [Local GatewayClient GatewayServer Local_Enable Local_Command Local_Mechanism
      Local_Timeout Gateway_Enable Gateway_Command Gateway_Method Gateway_Magic Gateway_Timeout]. by from_defaults Hd.
  - unfold validateForwardProxy. erewrite bind_Ok by reflexivity. cbn [Url]. by from_defaults Hd.
  - apply validateListeners_Ok. unfold validateDynamicPorts, validateSNI.
    cbn [DisableDynamicListeners DynamicSequentialMinPort DeterministicListeners DynamicSequentialMaxPorts SNIListenerAddress].
    by from_defaults Hd.
Qed.
End minimal.

(** With nothing but bootstrap servers on the command line - the one thing
    without a default - the proxy has a configuration that passes validation:
    no listener or broker side asks for TLS or authentication, dynamic listeners
    on random ports, and 256 open requests; the mappings of the environment are
    not consulted. *)
Theorem minimal_command_line_starts (assign : bool -> flag_value -> flag_value -> flag_value) (ReadFile : bytes -> res bytes)
    (Getenv : bytes -> bytes) (url_Parse : bytes -> res URL) (ParseIP : bytes -> bool)
    (mapping : list bytes) (servers : list config_ListenerConfig) :
  assign false (FStringArray []) (FStringArray mapping) = FStringArray mapping -> ParseIP ($"0.0.0.0") = true ->
  getListenerConfigs mapping = Ok servers -> servers <> [] -> mapping <> [] ->
  exists c, server_start assign ReadFile Getenv url_Parse ParseIP [("bootstrap-server-mapping", FStringArray mapping)] = Ok c /\
    BootstrapServers (Proxy c) = servers /\ ExternalServers (Proxy c) = [] /\ DialAddressMappings (Proxy c) = [] /\
    ProxyTLS_Enable (Proxy c) = false /\ KafkaTLS_Enable (Kafka c) = false /\ SASL_Enable (SASL (Kafka c)) = false /\
    Local_Enable (Local c) = false /\ Gateway_Enable (GatewayClient c) = false /\ Gateway_Enable (GatewayServer c) = false /\
    DisableDynamicListeners (Proxy c) = false /\ DynamicSequentialMinPort (Proxy c) = 0 /\ Kafka_MaxOpenRequests (Kafka c) = 256.
Proof.
  intros Ha Hip Hm Hs Hne. unfold server_start. destruct (registered Getenv) as (r & -> & Hc & Hf & _). cbn [rbind].
  destruct (set_bootstrap assign Getenv r mapping Hc Hf Ha) as (st & -> & Hb & Hd). cbn [rbind].
  erewrite bind_Ok.
  2: { rewrite (PreRunE_bootstrap ReadFile Getenv url_Parse ParseIP (config_of (vars st)) mapping servers);
         [by apply (defaults_validate Getenv url_Parse ParseIP st servers Hd)|..|done|done].
       - unfold mapping_flags_of, strs. by rewrite Hb.
       - unfold mapping_flags_of. cbn [externalServersMapping dialAddressMappingFlag]. by from_defaults Hd.
       - unfold mapping_flags_of. cbn [externalServersMapping dialAddressMappingFlag]. by from_defaults Hd.
       - unfold config_of. cbn [Kafka SASL JaasConfigFile]. by from_defaults Hd. }
  eexists. split; [reflexivity|]. unfold config_of, gateway_of.
  cbn [set_Proxy set_servers Proxy Local GatewayClient GatewayServer Kafka BootstrapServers ExternalServers DialAddressMappings
       ProxyTLS_Enable KafkaTLS_Enable SASL SASL_Enable Local_Enable Gateway_Enable DisableDynamicListeners
       DynamicSequentialMinPort Kafka_MaxOpenRequests].
  split_and!; try done; by from_defaults Hd.
Qed.

Lemma minimal_command_line_starts_witness :
  exists c, server_start example_assign (fun _ => Err (Errorf "no file")) (fun _ => []) (fun _ => Err (Errorf "no URL"))
      (fun s => bool_decide (s = $"0.0.0.0")) [("bootstrap-server-mapping", FStringArray [$"a:9092,0.0.0.0:32400"])] = Ok c /\
    DynamicSequentialMinPort (Proxy c) = 0 /\ Kafka_MaxOpenRequests (Kafka c) = 256.
Proof.
  destruct (minimal_command_line_starts example_assign (fun _ => Err (Errorf "no file")) (fun _ => [])
    (fun _ => Err (Errorf "no URL")) (fun s => bool_decide (s = $"0.0.0.0")) [$"a:9092,0.0.0.0:32400"]
    [{| cfg_BrokerAddress := $"a:9092"; cfg_ListenerAddress := $"0.0.0.0:32400"; cfg_AdvertisedAddress := $"0.0.0.0:32400" |}])
    as (c & Hc & H).
  all: [> reflexivity|vm_compute; reflexivity|vm_compute; reflexivity|discriminate|discriminate|].
  exists c. split; [exact Hc|]. by destruct H as (_ & _ & _ & _ & _ & _ & _ & _ & _ & _ & H).
Defined.
